(* ===== verification/_CoqProject ===== *)
-Q . S2P
Prelude.v
RustText.v
RustStd.v
Os.v
Calendar.v
HttpPreamble.v
SstpFrame.v
SstpAttr.v
SstpMsg.v
Crypto.v
SstpBinding.v
SstpState.v
SstpServer.v
PppFrame.v
Lcp.v
PppFsm.v
PppAuth.v
PppDriver.v
PppClassify.v
PppAccess.v
PppReplies.v
Session.v
SessionProps.v
Mikrotik.v
Radius.v
RadiusProps.v
Accounting.v
AccountingProps.v
Rekey.v
Kmod.v
KmodRing.v
KmodProps.v
KmodStream.v
KmodTx.v
KmodLife.v
KmodLifeInv.v
KmodLifeProps.v
Netlink.v
NetlinkProps.v
RtNetlink.v
RtNetlinkProps.v
DataPath.v
DataPathProps.v
KmodEvents.v
Tc.v
TcProps.v
Nft.v
NftWire.v
NftTable.v
Tls.v
TlsProps.v
Task.v
TaskProps.v
TaskBooks.v
TaskAttach.v
Registry.v
RegistryProps.v
RustNet.v
Cli.v
CliProps.v
Startup.v
StartupProps.v
Control.v
ControlProps.v
