(* ===== verification/Prelude.v ===== *)
(** * A verification of sstp-server

    The program is a server for the Secure Socket Tunneling Protocol: PPP carried in SSTP packets over
    TLS.  A process starts as root, binds its listeners, drops its privileges and runs one accept loop per
    worker ([src/src/main.rs]).  Each connection has one task ([src/src/session.rs]) that reads the TLS
    stream, cuts it into SSTP packets, drives two state machines and writes what they answer:

    - SSTP proper ([src/src/sstp/]): control messages, the call state machine, the crypto binding that
      ties the PPP authentication to the TLS connection;
    - PPP ([src/src/ppp/]): framing, the RFC 1661 automaton shared by LCP and IPCP, authentication by
      PAP, CHAP-MD5 or MS-CHAPv2, address assignment.

    Credentials go to a RADIUS server ([src/src/auth/]).  After an Accept and the convergence of IPCP a
    data path is brought up ([src/src/kppp/]): a TUN device, to which the task writes the peer's IP packets,
    or a kernel module ([src/kmod/]), which takes the TLS connection over (kTLS) and moves packets itself.
    The interface is configured over netlink, its traffic shaped and its MSS clamped ([src/src/shape/]), and
    the session is reported to accounting.  Operators list and end sessions over a control socket.

    ** Conventions

    Every function of the source is a function here.  Bytes and machine integers are [Z], with wrap-around
    written out ([as_u16], [wrapping_add_u8]); byte strings are [list Z] and [len] is their length in
    [Z].  A function that can fail or panic returns [res E A]: [Ok], [Err] or [Panic], so that every
    slice, index and conversion of the source is checked; in the kernel module [Panic] is an access to
    memory it must not touch.  [debug_assert] depends on the class [BuildProfile]; theorems hold for debug
    and release builds.  A buffer passed as [&mut [u8]] is an argument and part of the result.  A function
    that draws random bytes takes them as an argument.  Struct updates are [with_...] functions.

    Code outside the repository is a class, with its documented behaviour as a class of laws: [AwsLc] and
    [AwsLcLaws] of Crypto for the cryptographic library, [RadiusTokio] with [RadiusLaws] and
    [RadiusPackets] for the RADIUS library, [Os] with [OsOk] for the operating system, where a computation
    depends on the history of system calls; [Libssl] of TlsProps, [NftKernel] of NftTable and
    [KeepsCredentials] of StartupProps for what libssl, nfnetlink and the kernel's credentials promise
    beyond that; [Kernel] of Kmod for its allocator and clock, [Serde] and [Trie] of Control for two
    libraries of the control socket.  [Environment] of Session is what the rest of the server is to the
    protocol; RadiusProps shows that the RADIUS bridge is one.  The modules named [...Demo], [Run],
    [Exchange] and [Handshake] have instances with which the theorems are applied to concrete runs.

    ** Files

    Foundations.
    - Prelude: outcomes, slices, big-endian words, the [lens] rewriting base and [len_lia].
    - RustText, RustStd, RustNet: the text, UTF-8, number and address functions of Rust's library.
    - Os: system calls, ownership of descriptors ([owned], [scoped]), histories.

    The protocols.
    - HttpPreamble, Calendar: [sstp/preamble.rs].  The requests accepted, the answer and its date.
    - SstpFrame, SstpAttr, SstpMsg: [sstp/frame.rs], [sstp/attr.rs], [sstp/msg.rs].  The packet parser
      accepts exactly the wire format, attribute iteration ends and reads lists back, every encoder
      writes one packet that the parser reads back.
    - Crypto, SstpBinding: [crypto/hmac.rs], [crypto/mod.rs], [sstp/binding.rs].  A crypto binding is
      accepted exactly when its hash protocol, nonce, certificate hash and Compound MAC are right.
    - SstpState: [sstp/state.rs], one definition per method of [StateMachine].
    - SstpServer: the state machine with the timer slot and hello flag of the session ([apply_step] and
      the timer, tick and disconnect arms of [drive_sstp]).  Module [Protocol] is the abstract
      protocol, which a turn refines; from it follow that the tunnel is established only by a verified
      Call Connected, that notifications come in order, that phases never go back, and that a silent
      peer is dropped after at most three timer expirations.
    - PppFrame, Lcp, PppAuth: [ppp/frame.rs], [ppp/lcp.rs] with [ppp/ipcp.rs], [ppp/auth.rs].  Each
      decoder accepts exactly its wire format and never panics; the encoders read back.
    - PppFsm: [ppp/fsm.rs].  [Rfc1661] is the transition table of the RFC as data; the automaton agrees
      with it on all but eight cells.  Retransmission ends; terminations are always timed.
    - PppDriver: [ppp/driver.rs], modules [LcpServer], [IpcpServer] and [Ppp] for the structs.
    - PppClassify: the answer to a Configure-Request as a function of the option list.
    - PppAccess: the driver never panics within its [Limits] and refines the access specification
      [Access]: credentials asked, accepted, addresses granted, network up, in this order.
    - PppReplies: the bytes the driver answers to requests, echoes and authentication packets.
    - Rekey: [crypto/rekey.rs].

    The session task.
    - Session: [session.rs], one turn of the event loop from bytes read to bytes written, composed of
      the SSTP turn and the PPP driver as [handle_sstp_step] and [handle_ppp_step] compose them; and
      [TunSession::read_frame] of [kppp/tun.rs].
    - SessionProps: traffic reaches the data path only after a RADIUS Accept of this session; no event
      panics the task while the peer's frames stay small; the result does not depend on how the stream
      is cut into reads; and the inputs that do panic or stall it.
    - Task: the other half of [session.rs]: what an Accept leaves behind, the bring-up of the data path
      with kTLS, shaping, MSS clamping and routes, accounting, deadlines, destructors.
    - TaskProps, TaskBooks: the kernel module gets a connection that was handed over to kTLS and goes on
      where TLS stopped; nothing stays open after a session; accounting follows the session.
    - TaskAttach: a session attaches its socket to the kernel module at most once, as the discipline of
      KmodLifeProps asks.

    RADIUS.
    - Radius, RadiusProps: [auth/] but for accounting.  Requests, replies, routes, failover.  The bridge
      is an [Environment] of the session, so that traffic needs an Accept of a configured server.
    - Accounting, AccountingProps: [accounting.rs], [acct_bridge.rs], [coa.rs].  Records report all octets,
      identifiers and replies match, retransmission is bounded.

    The data path and the kernel.
    - Netlink, NetlinkProps: [netlink.rs].  What the builder writes, a receiver reads back.
    - RtNetlink, RtNetlinkProps: [kppp/netlink.rs].  Every message is the request it stands for.
    - DataPath, DataPathProps: [kppp/].  The interface is configured as asked; a failure leaves no
      descriptor open.
    - Mikrotik, Tc, TcProps: the rate-limit attribute and traffic shaping.  A limit that parses is
      installed as it says.
    - Nft, NftWire, NftTable: MSS clamping.  The batches, the rules' effect on segments, and the shared
      table against the ruleset of the kernel, whatever calls fail.
    - Tls, TlsProps: [crypto/tls.rs], [crypto/ktls.rs].  The hardened context; a hand-over to the kernel
      continues both directions with the right keys, nonces and sequence numbers.
    - Kmod, KmodRing, KmodProps, KmodStream, KmodTx: the data path of the kernel module.  No access is out
      of bounds and no control event lost in any interleaving; the stream is cut as in userspace; frames
      are sent in order.
    - KmodEvents: the module and the session task together.  Control packets reach the state machine
      exactly once and in order.
    - KmodLife, KmodLifeInv, KmodLifeProps: the life of its sessions: attach, reference counts, socket
      callbacks, release.  An attach is all or nothing; no freed object is used in runs of a stated
      discipline; and runs outside it that use a freed session.

    The process.
    - Registry, RegistryProps: the registry of sessions, control channels, accept loops and drain as
      interleaved steps.  The registry holds exactly the live sessions.
    - Cli, CliProps: [cli.rs].  The configuration as a function of the options.
    - Startup, StartupProps: [main.rs] up to its runtimes, [privdrop.rs], [net/listener.rs].  Privileges
      are dropped exactly and after the privileged work; a failed start leaves nothing open.
    - Control, ControlProps: [control.rs] and [bin/sstp_server_cli.rs].  A line of the operator is served
      with the operation it names.

    ** Bounds and fuel

    Loops over a buffer take its length plus one as fuel: each round consumes at least one byte (four
    in [Session.drain], where a packet has at least its header), and the theorems show the fuel is never
    the reason for a result.  [Session.PPP_FUEL] is 2: a driver step asks at most one question, and the
    step made from the verdict asks none, which [SessionProps.handle_ppp_step_ok] proves.  Loops that wait
    for the kernel or for libssl ([Nft.await], the loops of Tls) have fuel as an argument, and their
    theorems hold for all of it: running out is a wait that has not ended.  The loops of the kernel
    workers have the bounds of the source, 64 and 8; [drop_ctrl_q] has 8 rounds for a ring of eight slots.
    The drain of the registry polls at most 100 times, the grace period over the polling interval.
    [write_space_rest] has the depth of the kernel stack as an argument.

    [Limits] of PppAccess bounds the frames the driver is given and those it builds.  An answer can be
    three times as long as the request (an IPCP Nak), and the task panics when it exceeds one SSTP
    packet.  [sstp_limits] (4091 bytes in) covers every input and allows that panic; with
    [small_limits] (1361 bytes in) every answer fits and there is none.  Runs of the registry are shorter
    than 2^63 - 1 steps, so that the gauge of connections cannot overflow, and a command line has less
    than 2^31 options [-v].

    ** Not modelled

    Time is an argument, and the order of events is arbitrary.  In Session a failed read or write ends the
    task and is the event [Deadline], and a write in the middle of a turn is taken to succeed; the
    verdict of RADIUS is awaited inside a turn, as in the source.  Session and Task are the two halves of
    one task, each with the other as arbitrary.  Logging and tracing, the texts of errors, metrics other than
    those of connections, the construction of the asynchronous runtimes, the scheduling class of the
    workers and the end of a worker thread are left out: they change no state the theorems are about.
    The socket loops around modelled operations ([serve] and [handle_connection] of the control socket, the
    loop of [CoaListener], the dispatcher of the RADIUS bridge) only call them.  The line editor and the
    colours of the client, the wrappers of [crypto/hash.rs] around digests, the TLS exporter, and locks, wait
    queues and messages of the kernel module have no definitions.  The tests, the examples and
    [build.rs] are not part of the server. *)

From stdpp Require Export prelude.
From Stdlib Require Export ZArith Lia ZifyBool ZifyNat.

Open Scope Z_scope.

(** * Outcomes: Rust's [Result] plus panics *)

Inductive res (E A : Type) : Type :=
| Ok (a : A)
| Err (e : E)
| Panic.

Arguments Ok {E A} a.
Arguments Err {E A} e.
Arguments Panic {E A}.

#[export] Instance res_ret {E} : MRet (res E) := fun A a => Ok a.

#[export] Instance res_bind {E} : MBind (res E) := fun A B f m =>
  match m with
  | Ok a => f a
  | Err e => Err e
  | Panic => Panic
  end.

Definition map_err {E F A} (f : E -> F) (m : res E A) : res F A :=
  match m with
  | Ok a => Ok a
  | Err e => Err (f e)
  | Panic => Panic
  end.

Definition is_panic {E A} (m : res E A) : bool :=
  match m with Panic => true | _ => false end.

Definition ok_or {E A} (o : option A) (e : E) : res E A :=
  match o with Some a => Ok a | None => Err e end.

(** [let Ok(x) = e else { .. }] and [if let Ok(x) = e]: the value of a [Result], a panic in [e]
    being a panic of the whole expression. *)
Definition catch {E F A} (m : res E A) : res F (A + E) :=
  match m with
  | Ok a => Ok (inl a)
  | Err e => Ok (inr e)
  | Panic => Panic
  end.

(** [debug_assert!] is compiled only when the profile has debug assertions on. *)
Class BuildProfile := debug_assertions : bool.

Definition assert_ {E} (b : bool) : res E () := if b then Ok tt else Panic.

Definition debug_assert {bp : BuildProfile} {E} (b : bool) : res E () :=
  if debug_assertions && negb b then Panic else Ok tt.

(** * Byte buffers *)

Abbreviation bytes := (list Z).
Abbreviation len l := (Z.of_nat (length l)).

Definition byte_at (l : bytes) (i : Z) : Z := nth (Z.to_nat i) l 0.

Definition sub (l : bytes) (lo hi : Z) : bytes :=
  take (Z.to_nat (hi - lo)) (drop (Z.to_nat lo) l).

Definition zeros (n : Z) : bytes := replicate (Z.to_nat n) 0.

(** [buf[i]] *)
Definition idx {E} (l : bytes) (i : Z) : res E Z :=
  if (0 <=? i) && (i <? len l) then Ok (byte_at l i) else Panic.

(** [&buf[lo..hi]] *)
Definition slice {E} (l : bytes) (lo hi : Z) : res E bytes :=
  if (0 <=? lo) && (lo <=? hi) && (hi <=? len l) then Ok (sub l lo hi) else Panic.

(** [&buf[lo..]] *)
Definition slice_from {E} (l : bytes) (lo : Z) : res E bytes := slice l lo (len l).

(** [buf[i] = b] *)
Definition set_at {E} (l : bytes) (i b : Z) : res E bytes :=
  if (0 <=? i) && (i <? len l)
  then Ok (take (Z.to_nat i) l ++ b :: drop (Z.to_nat (i + 1)) l) else Panic.

(** [buf[lo..hi].copy_from_slice(v)] *)
Definition copy_slice {E} (l : bytes) (lo hi : Z) (v : bytes) : res E bytes :=
  if (0 <=? lo) && (lo <=? hi) && (hi <=? len l) && (len v =? hi - lo)
  then Ok (take (Z.to_nat lo) l ++ v ++ drop (Z.to_nat hi) l) else Panic.

(** [buf[lo..hi].fill(b)] *)
Definition fill_slice {E} (l : bytes) (lo hi b : Z) : res E bytes :=
  copy_slice l lo hi (replicate (Z.to_nat (hi - lo)) b).

(** [f(&mut buf[lo..hi])]: [f] rewrites the sub-slice in place. *)
Definition with_sub {E} (l : bytes) (lo hi : Z) (f : bytes -> res E bytes) : res E bytes :=
  s ← slice l lo hi;
  s' ← f s;
  copy_slice l lo hi s'.

(** ** Machine integers *)

Definition u8 (z : Z) : Prop := 0 <= z < 256.
Definition u16 (z : Z) : Prop := 0 <= z < 65536.
Definition u32 (z : Z) : Prop := 0 <= z < 4294967296.
Abbreviation u8s := (Forall u8).

Definition as_u8 (z : Z) : Z := z mod 256.
Definition as_u16 (z : Z) : Z := z mod 65536.
Definition wrapping_add_u8 (a b : Z) : Z := (a + b) mod 256.
Definition saturating_sub (a b : Z) : Z := Z.max 0 (a - b).
Definition clamp (lo hi x : Z) : Z := if x <? lo then lo else if hi <? x then hi else x.

Lemma clamp_eq lo hi x : lo <= hi -> clamp lo hi x = Z.max lo (Z.min hi x).
Proof. unfold clamp. destruct (Z.ltb_spec x lo), (Z.ltb_spec hi x); lia. Qed.

(** [uN::from_be_bytes], [uN::to_be_bytes] *)
Definition be16 (a b : Z) : Z := a * 256 + b.
Definition be32 (a b c d : Z) : Z := ((a * 256 + b) * 256 + c) * 256 + d.
Definition to_be16 (v : Z) : bytes := [v / 256 mod 256; v mod 256].
Definition to_be32 (v : Z) : bytes :=
  [v / 16777216 mod 256; v / 65536 mod 256; v / 256 mod 256; v mod 256].

(** Slice equality [a == b]. *)
Definition bytes_eqb (a b : bytes) : bool := bool_decide (a = b).

(** * Lemmas on outcomes *)

Lemma bind_ok {E A B} (m : res E A) (f : A -> res E B) b :
  m ≫= f = Ok b <-> exists a, m = Ok a /\ f a = Ok b.
Proof. destruct m; simpl; naive_solver. Qed.

Lemma bind_not_panic {E A B} (m : res E A) (f : A -> res E B) :
  m <> Panic -> (forall a, m = Ok a -> f a <> Panic) -> m ≫= f <> Panic.
Proof. destruct m; simpl; naive_solver. Qed.

Lemma debug_assert_true {bp : BuildProfile} {E} : @debug_assert bp E true = Ok tt.
Proof. unfold debug_assert. by rewrite andb_false_r. Qed.

Lemma debug_assert_ok {bp : BuildProfile} {E} b : b = true -> @debug_assert bp E b = Ok tt.
Proof. intros ->. apply debug_assert_true. Qed.

Lemma debug_assert_inv {bp : BuildProfile} {E A} b (k : () -> res E A) a :
  debug_assert b ≫= k = Ok a -> k tt = Ok a.
Proof. unfold debug_assert. by destruct (debug_assertions && negb b). Qed.

Lemma assert_ok {E} b : b = true -> @assert_ E b = Ok tt.
Proof. by intros ->. Qed.

(** * Lemmas on byte buffers *)

Create Rewrite HintDb lens.
#[export] Hint Rewrite @length_app @length_take @length_drop @length_replicate @length_nil
  @length_cons : lens.

(** [len_lia] closes linear goals on lengths of lists built from appends, takes and drops. *)
Ltac len_lia := solve [ autorewrite with lens in *; cbn [length] in *; lia ].

Lemma idx_ok {E} l i : 0 <= i < len l -> @idx E l i = Ok (byte_at l i).
Proof. intros ?. unfold idx. by replace (_ && _) with true by lia. Qed.

Lemma slice_ok {E} l lo hi : 0 <= lo <= hi /\ hi <= len l -> @slice E l lo hi = Ok (sub l lo hi).
Proof. intros ?. unfold slice. by replace (_ && _ && _) with true by lia. Qed.

Lemma slice_from_ok {E} l lo :
  0 <= lo <= len l -> @slice_from E l lo = Ok (drop (Z.to_nat lo) l).
Proof.
  intros ?. unfold slice_from. rewrite slice_ok by lia. unfold sub.
  rewrite take_ge; [done | len_lia].
Qed.

Lemma slice_inv {E} l lo hi s :
  @slice E l lo hi = Ok s -> 0 <= lo <= hi /\ hi <= len l /\ s = sub l lo hi.
Proof. unfold slice. case_match; intros; simplify_eq; lia || split_and!; done || lia. Qed.

Lemma len_sub l lo hi : 0 <= lo <= hi -> hi <= len l -> len (sub l lo hi) = hi - lo.
Proof. intros. unfold sub. len_lia. Qed.

Lemma sub_all l hi : hi = len l -> sub l 0 hi = l.
Proof. intros ->. unfold sub. rewrite drop_0. apply take_ge. lia. Qed.

Lemma sub_to_end l lo hi : 0 <= lo -> hi = len l -> sub l lo hi = drop (Z.to_nat lo) l.
Proof. intros ? ->. unfold sub. apply take_ge. len_lia. Qed.

Lemma sub_app_r w r lo hi :
  lo = len w -> hi = len w + len r -> sub (w ++ r) lo hi = r.
Proof.
  intros -> ->. unfold sub. rewrite Nat2Z.id, drop_app_length. apply take_ge. lia.
Qed.

Lemma sub_app_mid w m r lo hi :
  lo = len w -> hi = len w + len m -> sub (w ++ m ++ r) lo hi = m.
Proof.
  intros -> ->. unfold sub. rewrite Nat2Z.id, drop_app_length.
  replace (Z.to_nat _) with (length m) by lia. apply take_app_length.
Qed.

Lemma sub_prefix w r hi : hi = len w -> sub (w ++ r) 0 hi = w.
Proof.
  intros ->. unfold sub. replace (Z.to_nat _) with (length w) by lia.
  by rewrite drop_0, take_app_length.
Qed.

(** Sequential writes: a buffer that is [w], already written, followed by [r], still to write. *)

Lemma copy_slice_app {E} w r lo hi v :
  lo = len w -> hi = len w + len v -> len v <= len r ->
  @copy_slice E (w ++ r) lo hi v = Ok ((w ++ v) ++ drop (length v) r).
Proof.
  intros -> -> ?. unfold copy_slice.
  replace (_ && _ && _ && _) with true by len_lia.
  rewrite Nat2Z.id, take_app_length, <- app_assoc.
  replace (Z.to_nat (len w + len v)) with (length w + length v)%nat by lia.
  by rewrite drop_app_add.
Qed.

Lemma set_at_app {E} w r i b :
  i = len w -> 1 <= len r -> @set_at E (w ++ r) i b = Ok ((w ++ [b]) ++ drop 1 r).
Proof.
  intros -> ?. unfold set_at. replace (_ && _) with true by len_lia.
  rewrite Nat2Z.id, take_app_length, <- app_assoc.
  replace (Z.to_nat (len w + 1)) with (length w + 1)%nat by lia.
  by rewrite drop_app_add.
Qed.

Lemma with_sub_app {E} w r lo hi v (f : bytes -> res E bytes) :
  lo = len w -> hi = len w + len v -> len v <= len r ->
  f (take (length v) r) = Ok v ->
  with_sub (w ++ r) lo hi f = Ok ((w ++ v) ++ drop (length v) r).
Proof.
  intros Hlo Hhi ? Hf. unfold with_sub. rewrite slice_ok by len_lia. simpl.
  unfold sub. replace (drop _ (w ++ r)) with r
    by (by rewrite Hlo, Nat2Z.id, drop_app_length).
  replace (Z.to_nat (hi - lo)) with (length v) by lia.
  rewrite Hf. simpl. by apply copy_slice_app.
Qed.

Lemma byte_at_u8 l i : u8s l -> 0 <= i < len l -> u8 (byte_at l i).
Proof.
  intros Hl ?. unfold byte_at. apply Forall_nth; [done | lia].
Qed.

Lemma byte_at_app_l w r i : 0 <= i < len w -> byte_at (w ++ r) i = byte_at w i.
Proof. intros ?. unfold byte_at. apply app_nth1. lia. Qed.

Lemma byte_at_app_r w r i : len w <= i -> byte_at (w ++ r) i = byte_at r (i - len w).
Proof.
  intros ?. unfold byte_at. rewrite app_nth2 by lia. f_equal. lia.
Qed.

Lemma sub_u8s l lo hi : u8s l -> u8s (sub l lo hi).
Proof. intros. unfold sub. auto using Forall_take, Forall_drop. Qed.

Lemma sub_sub l a b c d :
  0 <= a -> 0 <= c <= d -> a + d <= b -> sub (sub l a b) c d = sub l (a + c) (a + d).
Proof.
  intros. unfold sub. rewrite skipn_firstn_comm, take_take, drop_drop.
  f_equal; [lia | f_equal; lia].
Qed.

Lemma byte_at_sub l a b i :
  0 <= a -> 0 <= i -> a + i < b -> byte_at (sub l a b) i = byte_at l (a + i).
Proof.
  intros. unfold byte_at, sub. rewrite nth_firstn, nth_skipn.
  destruct (Nat.ltb_spec (Z.to_nat i) (Z.to_nat (b - a))); [|lia].
  f_equal. lia.
Qed.

Lemma bytes_eqb_eq a b : bytes_eqb a b = true <-> a = b.
Proof. unfold bytes_eqb. by rewrite bool_decide_eq_true. Qed.

(** ** Big-endian integers and masks *)

Lemma be16_to_be16 v : u16 v -> be16 (v / 256 mod 256) (v mod 256) = v.
Proof. unfold u16, be16. intros. Z.div_mod_to_equations. lia. Qed.

Lemma be32_to_be32 v :
  u32 v ->
  be32 (v / 16777216 mod 256) (v / 65536 mod 256) (v / 256 mod 256) (v mod 256) = v.
Proof. unfold u32, be32. intros. Z.div_mod_to_equations. lia. Qed.

Lemma be16_u16 a b : u8 a -> u8 b -> u16 (be16 a b).
Proof. unfold u8, u16, be16. lia. Qed.

Lemma to_be16_be16 a b : u8 a -> u8 b -> to_be16 (be16 a b) = [a; b].
Proof. unfold u8, be16, to_be16. intros. repeat f_equal; Z.div_mod_to_equations; lia. Qed.

Lemma land_12bit x : Z.land x 4095 = x mod 4096.
Proof. apply (Z.land_ones x 12). lia. Qed.

Lemma land_1bit x : Z.land x 1 = x mod 2.
Proof. apply (Z.land_ones x 1). lia. Qed.

Lemma len_to_be16 v : length (to_be16 v) = 2%nat.
Proof. done. Qed.

Lemma len_to_be32 v : length (to_be32 v) = 4%nat.
Proof. done. Qed.

#[export] Hint Rewrite len_to_be16 len_to_be32 : lens.

(** [run_ok] evaluates the buffer accesses of the goal whose bounds follow from the context. *)
Ltac run_ok :=
  repeat first
    [ rewrite idx_ok by len_lia
    | rewrite slice_from_ok by len_lia
    | rewrite slice_ok by len_lia
    | rewrite debug_assert_ok by len_lia
    | rewrite assert_ok by len_lia ];
  cbn [mbind res_bind ok_or map_err].

(** [run_ok_in H] does the same in a hypothesis. *)
Ltac run_ok_in H :=
  repeat first
    [ rewrite idx_ok in H by len_lia
    | rewrite slice_from_ok in H by len_lia
    | rewrite slice_ok in H by len_lia
    | rewrite debug_assert_ok in H by len_lia
    | rewrite assert_ok in H by len_lia ];
  cbn [mbind res_bind ok_or map_err] in H.
