(* ===== verification/RustText.v ===== *)
(** * Text functions of the Rust standard library

    Strings are the bytes of their UTF-8 encoding, as Rust keeps them; the functions here are the ones
    the components call on text that is ASCII at that point.  A string literal of the source is [lit]
    of the same literal.  Splitting and joining are inverse to each other ([split_crlf_iff]), numbers
    print and parse back ([parse_show_dec]). *)

From stdpp Require Import strings.
From S2P Require Import Prelude.

(** A literal [b"..."] or [".."]: one byte per character. *)
Fixpoint lit (s : string) : bytes :=
  match s with
  | EmptyString => []
  | String c r => Z.of_N (Ascii.N_of_ascii c) :: lit r
  end.

Definition CR : Z := 13.
Definition LF : Z := 10.
Definition crlf : bytes := [CR; LF].

Lemma len_crlf : length crlf = 2%nat.
Proof. done. Qed.

#[export] Hint Rewrite len_crlf : lens.

(** * Splitting *)

(** Prepend a byte to the first piece. *)
Definition cons_head (x : Z) (ps : list bytes) : list bytes :=
  match ps with
  | p :: r => (x :: p) :: r
  | [] => [[x]]
  end.

(** [text.split(c)] for a one-byte separator *)
Fixpoint split_byte (c : Z) (l : bytes) : list bytes :=
  match l with
  | [] => [[]]
  | x :: r => if x =? c then [] :: split_byte c r else cons_head x (split_byte c r)
  end.

(** [text.split("\r\n")]: matches are found from left to right and do not overlap. *)
Fixpoint split_crlf (l : bytes) : list bytes :=
  match l with
  | [] => [[]]
  | x :: r =>
      match r with
      | y :: r' =>
          if (x =? CR) && (y =? LF) then [] :: split_crlf r' else cons_head x (split_crlf r)
      | [] => [[x]]
      end
  end.

(** [line.split_once(c)] *)
Fixpoint split_once (c : Z) (l : bytes) : option (bytes * bytes) :=
  match l with
  | [] => None
  | x :: r =>
      if x =? c then Some ([], r)
      else match split_once c r with
           | Some (a, b) => Some (x :: a, b)
           | None => None
           end
  end.

(** [char::is_whitespace] on ASCII *)
Definition is_space (b : Z) : bool := ((9 <=? b) && (b <=? 13)) || (b =? 32).

(** [u8::is_ascii_whitespace]: without the vertical tab *)
Definition is_ascii_whitespace (b : Z) : bool :=
  (b =? 9) || (b =? 10) || (b =? 12) || (b =? 13) || (b =? 32).

Fixpoint trim_start (l : bytes) : bytes :=
  match l with
  | x :: r => if is_space x then trim_start r else l
  | [] => []
  end.

(** [value.trim()] *)
Definition trim (l : bytes) : bytes := reverse (trim_start (reverse (trim_start l))).

(** [text.split_ascii_whitespace()]: the non-empty pieces between whitespace bytes *)
Fixpoint split_ascii_whitespace_all (l : bytes) : list bytes :=
  match l with
  | [] => [[]]
  | x :: r =>
      if is_ascii_whitespace x then [] :: split_ascii_whitespace_all r
      else cons_head x (split_ascii_whitespace_all r)
  end.

Definition split_ascii_whitespace (l : bytes) : list bytes :=
  base.filter (fun p => p <> []) (split_ascii_whitespace_all l).

(** [u8::to_ascii_lowercase] and [eq_ignore_ascii_case] *)
Definition to_lower (b : Z) : Z := if (65 <=? b) && (b <=? 90) then b + 32 else b.

Definition eq_ignore_ascii_case (a b : bytes) : bool :=
  bytes_eqb (map to_lower a) (map to_lower b).

(** * Numbers *)

Definition is_digit (b : Z) : bool := (48 <=? b) && (b <=? 57).

(** The decimal digits of [n], most significant first, with [fuel] digits at most. *)
Fixpoint show_digits (fuel : nat) (n : Z) (acc : bytes) : bytes :=
  match fuel with
  | O => acc
  | S fuel =>
      let acc := (48 + n mod 10) :: acc in
      if n / 10 =? 0 then acc else show_digits fuel (n / 10) acc
  end.

(** [format!("{n}")] for an unsigned integer: twenty digits are enough for 64 bits. *)
Definition show_dec (n : Z) : bytes := show_digits 20 n [].

(** [format!("{n:0w}")] *)
Definition show_pad (w n : Z) : bytes :=
  let d := show_dec n in replicate (Z.to_nat (w - len d)) 48 ++ d.

(** [text.parse::<uN>()] for an [N]-bit type with maximum [max]: an optional plus sign, at least one
    digit, and no overflow at any step. *)
Fixpoint parse_digits (max : Z) (l : bytes) (acc : Z) : option Z :=
  match l with
  | [] => Some acc
  | x :: r =>
      if is_digit x then
        let acc := acc * 10 + (x - 48) in
        if acc <=? max then parse_digits max r acc else None
      else None
  end.

Definition parse_uint (max : Z) (l : bytes) : option Z :=
  match l with
  | [] => None
  | x :: r =>
      if x =? 43 then match r with [] => None | _ => parse_digits max r 0 end
      else parse_digits max l 0
  end.

Definition U8_MAX : Z := 255.
Definition U32_MAX : Z := 4294967295.
Definition U64_MAX : Z := 18446744073709551615.

(** An arithmetic result of type [u64]: out of range it panics in a debug build and wraps in a release
    build. *)
Definition arith_u64 {bp : BuildProfile} {E} (v : Z) : res E Z :=
  if (0 <=? v) && (v <=? U64_MAX) then Ok v else if bp : bool then Panic else Ok (v mod 2 ^ 64).

Definition saturating_u64 (v : Z) : Z := Z.max 0 (Z.min U64_MAX v).

(** * Lemmas on splitting *)

Definition no_crlf (l : bytes) : Prop := forall a b, l <> a ++ crlf ++ b.

(** The text with these lines, separated by CR LF. *)
Fixpoint join_crlf (ps : list bytes) : bytes :=
  match ps with
  | [] => []
  | [p] => p
  | p :: r => p ++ crlf ++ join_crlf r
  end.

Lemma no_crlf_cons x l : no_crlf (x :: l) -> no_crlf l.
Proof. intros H a b ->. by apply (H (x :: a) b). Qed.

Lemma no_crlf_intro x l :
  no_crlf l -> (x = CR -> forall r, l <> LF :: r) -> no_crlf (x :: l).
Proof.
  intros Hl Hx a b. destruct a as [|y a]; simpl; intros [= -> E]; [by eapply Hx | by apply (Hl a b)].
Qed.

Lemma no_crlf_nil : no_crlf [].
Proof. by intros [|] b. Qed.

Lemma cons_head_ne x ps : exists p r, cons_head x ps = (x :: p) :: r.
Proof. destruct ps; simpl; eauto. Qed.

Lemma split_crlf_ne l : exists p r, split_crlf l = p :: r.
Proof.
  destruct l as [|x [|y r]]; simpl; eauto. case_match; eauto.
  destruct (cons_head_ne x (split_crlf (y :: r))) as (p & q & E). simpl in E. rewrite E. eauto.
Qed.

(** A line without CR LF in it, followed by CR LF, is the first piece. *)
Lemma split_crlf_line p r : no_crlf p -> split_crlf (p ++ crlf ++ r) = p :: split_crlf r.
Proof.
  induction p as [|x p IH]; intros Hp; [done|].
  specialize (IH (no_crlf_cons _ _ Hp)).
  assert (Hx : x = CR -> forall q, p <> LF :: q).
  { intros -> q ->. by apply (Hp [] q). }
  destruct p as [|y p].
  - simpl. by rewrite andb_false_r.
  - simpl in *. rewrite IH. destruct ((x =? CR) && (y =? LF)) eqn:E; [|done].
    exfalso. apply (Hx ltac:(lia) p). f_equal. lia.
Qed.

Lemma split_crlf_last p : no_crlf p -> split_crlf p = [p].
Proof.
  induction p as [|x p IH]; intros Hp; [done|].
  specialize (IH (no_crlf_cons _ _ Hp)).
  destruct p as [|y p]; [done|]. simpl in *. rewrite IH.
  destruct ((x =? CR) && (y =? LF)) eqn:E; [|done]. exfalso. apply (Hp [] p). simpl. repeat f_equal; lia.
Qed.

Lemma split_crlf_pieces l : Forall no_crlf (split_crlf l) /\ join_crlf (split_crlf l) = l.
Proof.
  remember (length l) as n eqn:Hn. revert l Hn.
  induction n as [n IH] using (well_founded_induction lt_wf); intros l Hn.
  destruct l as [|x [|y r]].
  - split; [|done]. constructor; [apply no_crlf_nil | constructor].
  - split; [|done]. constructor; [|constructor].
    apply no_crlf_intro; [apply no_crlf_nil | done].
  - simpl. destruct ((x =? CR) && (y =? LF)) eqn:E.
    + destruct (IH (length r) ltac:(subst; simpl; lia) r eq_refl) as [H1 H2].
      split; [constructor; [apply no_crlf_nil | done]|].
      destruct (split_crlf_ne r) as (p & q & Hs). rewrite Hs in *.
      change (join_crlf ([] :: p :: q)) with (crlf ++ join_crlf (p :: q)). rewrite H2.
      unfold crlf, CR, LF in *. simpl. repeat f_equal; lia.
    + destruct (IH (length (y :: r)) ltac:(subst; simpl; lia) (y :: r) eq_refl) as [H1 H2].
      change (match r with | [] => _ | _ => _ end) with (split_crlf (y :: r)).
      destruct (split_crlf_ne (y :: r)) as (p & q & Hs). rewrite Hs in *.
      inversion_clear H1 as [|? ? Hp Hq]. simpl cons_head. split.
      * constructor; [|done]. apply no_crlf_intro; [done|].
        intros -> s ->. assert (y = LF) by (destruct q; simpl in H2; congruence).
        subst y. done.
      * destruct q; simpl in *; congruence.
Qed.

(** The split of a text is the only way to write it as lines. *)
Lemma split_crlf_iff l ps :
  split_crlf l = ps <-> ps <> [] /\ Forall no_crlf ps /\ join_crlf ps = l.
Proof.
  split.
  - intros <-. destruct (split_crlf_pieces l). split_and!; try done.
    by destruct (split_crlf_ne l) as (p & r & ->).
  - intros (Hne & Hps & <-). induction ps as [|p ps IH]; [done|].
    inversion_clear Hps. destruct ps as [|q ps]; [by apply split_crlf_last|].
    change (join_crlf (p :: q :: ps)) with (p ++ crlf ++ join_crlf (q :: ps)).
    rewrite split_crlf_line by done. f_equal. by apply IH.
Qed.

Lemma split_once_iff c l a b :
  split_once c l = Some (a, b) <-> l = a ++ c :: b /\ c ∉ a.
Proof.
  revert a. induction l as [|x l IH]; intros a; simpl.
  - split; [done | intros [H _]; by destruct a].
  - destruct (Z.eqb_spec x c) as [->|Hx].
    + split; [intros [= <- <-]; split; [done | set_solver]|].
      intros [H Hc]. destruct a as [|y a]; simplify_eq/=; [done | set_solver].
    + assert (Hcons : x :: l = a ++ c :: b /\ c ∉ a <->
        exists a', a = x :: a' /\ split_once c l = Some (a', b)).
      { split.
        - intros [H Hc]. destruct a as [|y a]; simplify_eq/=. exists a. split; [done|].
          apply IH. split; [done | set_solver].
        - intros (a' & -> & [-> ?]%IH). split; [done | set_solver]. }
      rewrite Hcons. clear. destruct (split_once c l) as [[a' b']|]; naive_solver.
Qed.

(** * Lemmas on numbers *)

Lemma parse_digits_app max a b acc :
  parse_digits max (a ++ b) acc =
  match parse_digits max a acc with Some v => parse_digits max b v | None => None end.
Proof.
  revert acc. induction a as [|x a IH]; intros acc; simpl; [done|].
  destruct (is_digit x); [|done]. destruct (_ <=? max); [apply IH | done].
Qed.

Lemma show_digits_parse fuel max n acc :
  0 <= n <= max -> n < 10 ^ Z.of_nat (S fuel) ->
  parse_digits max (show_digits (S fuel) n acc) 0 = parse_digits max acc n.
Proof.
  revert n acc. induction fuel as [|fuel IH]; intros n acc Hn Hp.
  - change (10 ^ Z.of_nat 1) with 10 in Hp. simpl. rewrite Z.div_small, Z.mod_small by lia. simpl.
    unfold is_digit. replace (_ && _) with true by lia.
    replace (0 * 10 + _) with n by lia. by replace (n <=? max) with true by lia.
  - rewrite (Nat2Z.inj_succ (S fuel)), Z.pow_succ_r in Hp by lia.
    change (show_digits (S (S fuel)) n acc) with
      (if n / 10 =? 0 then (48 + n mod 10) :: acc
       else show_digits (S fuel) (n / 10) ((48 + n mod 10) :: acc)).
    pose proof (Z.div_mod n 10 ltac:(lia)). pose proof (Z.mod_pos_bound n 10 ltac:(lia)).
    assert (Hd : is_digit (48 + n mod 10) = true) by (unfold is_digit; lia).
    destruct (Z.eqb_spec (n / 10) 0).
    + simpl. rewrite Hd. replace (0 * 10 + _) with n by lia.
      by replace (n <=? max) with true by lia.
    + rewrite IH by (try apply Z.div_lt_upper_bound; lia). simpl. rewrite Hd.
      replace (n / 10 * 10 + _) with n by lia. by replace (n <=? max) with true by lia.
Qed.

Lemma show_digits_head fuel n acc :
  0 <= n -> exists d r, show_digits (S fuel) n acc = d :: r /\ is_digit d = true.
Proof.
  revert n acc. induction fuel as [|fuel IH]; intros n acc Hn.
  - simpl. pose proof (Z.mod_pos_bound n 10 ltac:(lia)).
    exists (48 + n mod 10), acc. split; [by case_match | unfold is_digit; lia].
  - change (show_digits (S (S fuel)) n acc) with
      (if n / 10 =? 0 then (48 + n mod 10) :: acc
       else show_digits (S fuel) (n / 10) ((48 + n mod 10) :: acc)).
    pose proof (Z.mod_pos_bound n 10 ltac:(lia)).
    case_match; [|apply IH, Z.div_pos; lia].
    exists (48 + n mod 10), acc. split; [done | unfold is_digit; lia].
Qed.

(** A number that fits the type parses back from its decimal form. *)
Lemma parse_show_dec max n : 0 <= n <= max -> n <= U64_MAX -> parse_uint max (show_dec n) = Some n.
Proof.
  intros Hn Hmax. unfold show_dec.
  pose proof (show_digits_parse 19 max n [] Hn ltac:(unfold U64_MAX in *; lia)) as Hp.
  destruct (show_digits_head 19 n [] ltac:(lia)) as (d & r & E & Hd). rewrite E in *.
  unfold parse_uint, is_digit in *. by replace (d =? 43) with false by lia.
Qed.

Lemma parse_digits_range max l acc n : 0 <= acc <= max -> parse_digits max l acc = Some n -> 0 <= n <= max.
Proof.
  revert acc. induction l as [|x l IH]; intros acc Ha; cbn [parse_digits]; [by intros [= <-]|].
  unfold is_digit. destruct ((48 <=? x) && (x <=? 57)) eqn:Ed; [|done]. destruct (Z.leb_spec (acc * 10 + (x - 48)) max); [|done].
  apply IH. lia.
Qed.

Lemma parse_uint_range max l n : 0 <= max -> parse_uint max l = Some n -> 0 <= n <= max.
Proof.
  intros Hm. unfold parse_uint. destruct l as [|x l]; [done|]. destruct (x =? 43); [destruct l; [done|]|]; by apply parse_digits_range.
Qed.

(** * More lemmas on splitting *)

Lemma join_crlf_app ps qs :
  ps <> [] -> qs <> [] -> join_crlf (ps ++ qs) = join_crlf ps ++ crlf ++ join_crlf qs.
Proof.
  intros Hp Hq. induction ps as [|p ps IH]; [done|].
  destruct ps as [|p' ps]; [by destruct qs|].
  change (join_crlf ((p :: p' :: ps) ++ qs)) with (p ++ crlf ++ join_crlf ((p' :: ps) ++ qs)).
  change (join_crlf (p :: p' :: ps)) with (p ++ crlf ++ join_crlf (p' :: ps)).
  rewrite IH by done. by rewrite <- !app_assoc.
Qed.

Lemma split_crlf_app a b : split_crlf (a ++ crlf ++ b) = split_crlf a ++ split_crlf b.
Proof.
  destruct (split_crlf_pieces a) as [Ha Ea], (split_crlf_pieces b) as [Hb Eb].
  destruct (split_crlf_ne a) as (p & r & Sa), (split_crlf_ne b) as (q & s & Sb).
  apply split_crlf_iff. split_and!; [by rewrite Sa | by apply Forall_app|].
  rewrite join_crlf_app by (by rewrite ?Sa, ?Sb). by rewrite Ea, Eb.
Qed.

(** The text a one-byte separator splits into these pieces. *)
Fixpoint join_byte (c : Z) (ps : list bytes) : bytes :=
  match ps with
  | [] => []
  | [p] => p
  | p :: r => p ++ c :: join_byte c r
  end.

Lemma split_byte_ne c l : exists p r, split_byte c l = p :: r.
Proof.
  destruct l as [|x l]; simpl; [eauto|]. case_match; [eauto|].
  destruct (cons_head_ne x (split_byte c l)) as (? & ? & ->). eauto.
Qed.

Lemma join_split_byte c l : join_byte c (split_byte c l) = l.
Proof.
  induction l as [|x l IH]; [done|]. simpl.
  destruct (split_byte_ne c l) as (p & r & E). rewrite E in *.
  destruct (Z.eqb_spec x c) as [->|].
  - change (join_byte c ([] :: p :: r)) with (c :: join_byte c (p :: r)). by rewrite IH.
  - simpl cons_head. destruct r; simpl in *; congruence.
Qed.
