(* ===== verification/RustStd.v ===== *)
(** * UTF-8, IP addresses and binary64 numbers of the Rust standard library

    Texts that come from the network need not be ASCII: [from_utf8] and [from_utf8_lossy] follow the
    standard library's decoder, and [trim_unicode] knows the white space of Unicode.  IP addresses print
    and parse in their textual forms.  A floating-point number is read with one correct rounding, as the
    standard library does, with the binary64 operations of [SpecFloat]. *)

From stdpp Require Import strings.
From Stdlib Require Import SpecFloat.
From S2P Require Import Prelude RustText.

(** * UTF-8 *)

Definition in_range (lo hi b : Z) : bool := (lo <=? b) && (b <=? hi).
Definition is_cont (b : Z) : bool := in_range 128 191 b.

Definition second_of (b : Z) : Z * Z :=
  if b =? 0xE0 then (0xA0, 0xBF)
  else if b =? 0xED then (0x80, 0x9F)
  else if b =? 0xF0 then (0x90, 0xBF)
  else if b =? 0xF4 then (0x80, 0x8F)
  else (0x80, 0xBF).

(** The decoder at a byte: whether the next bytes are one character, and how many of them to take. *)
Definition utf8_step (l : bytes) : bool * nat :=
  match l with
  | [] => (true, O)
  | b0 :: r =>
      if b0 <? 128 then (true, 1%nat)
      else if in_range 0xC2 0xDF b0 then
        match r with
        | b1 :: _ => if is_cont b1 then (true, 2%nat) else (false, 1%nat)
        | [] => (false, 1%nat)
        end
      else if in_range 0xE0 0xEF b0 || in_range 0xF0 0xF4 b0 then
        match r with
        | b1 :: r =>
            if negb (in_range (second_of b0).1 (second_of b0).2 b1) then (false, 1%nat)
            else
              match r with
              | b2 :: r =>
                  if negb (is_cont b2) then (false, 2%nat)
                  else if b0 <? 0xF0 then (true, 3%nat)
                  else
                    match r with
                    | b3 :: _ => if is_cont b3 then (true, 4%nat) else (false, 3%nat)
                    | [] => (false, 3%nat)
                    end
              | [] => (false, 2%nat)
              end
        | [] => (false, 1%nat)
        end
      else (false, 1%nat)
  end.

Fixpoint utf8_valid (fuel : nat) (l : bytes) : bool :=
  match fuel, l with
  | _, [] => true
  | O, _ => false
  | S fuel, _ => let '(ok, n) := utf8_step l in ok && utf8_valid fuel (drop n l)
  end.

(** [core::str::from_utf8]; a character has at least one byte. *)
Definition from_utf8 (l : bytes) : option bytes := if utf8_valid (length l) l then Some l else None.

Definition REPLACEMENT : bytes := [0xEF; 0xBF; 0xBD].

Fixpoint lossy (fuel : nat) (l : bytes) : bytes :=
  match fuel, l with
  | _, [] => []
  | O, _ => []
  | S fuel, _ =>
      let '(ok, n) := utf8_step l in
      (if ok : bool then take n l else REPLACEMENT) ++ lossy fuel (drop n l)
  end.

(** [String::from_utf8_lossy] *)
Definition from_utf8_lossy (l : bytes) : bytes := lossy (length l) l.

(** [str::trim] on UTF-8: the encodings of the [White_Space] characters. *)
Definition spaces : list bytes :=
  [[0xC2; 0x85]; [0xC2; 0xA0]; [0xE1; 0x9A; 0x80]; [0xE2; 0x80; 0xA8]; [0xE2; 0x80; 0xA9]; [0xE2; 0x80; 0xAF];
   [0xE2; 0x81; 0x9F]; [0xE3; 0x80; 0x80]] ++
  map (fun k => [0xE2; 0x80; 0x80 + Z.of_nat k]) (seq 0 11) ++ map (fun k => [9 + Z.of_nat k]) (seq 0 5) ++ [[32]].

Definition starts_with (p l : bytes) : bool := bytes_eqb (take (length p) l) p.

Fixpoint trim_front (ws : list bytes) (fuel : nat) (l : bytes) : bytes :=
  match fuel with
  | O => l
  | S fuel =>
      match List.find (fun p => starts_with p l) ws with
      | Some p => trim_front ws fuel (drop (length p) l)
      | None => l
      end
  end.

Definition trim_unicode (l : bytes) : bytes :=
  let l := trim_front spaces (length l) l in
  reverse (trim_front (map reverse spaces) (length l) (reverse l)).

(** * Signed integers *)

(** [text.parse::<i64>()] *)
Definition parse_i64 (l : bytes) : option Z :=
  match l with
  | [] => None
  | x :: r =>
      if x =? 45 then
        match r with [] => None | _ => option_map Z.opp (parse_digits (2 ^ 63) r 0) end
      else parse_uint (2 ^ 63 - 1) l
  end.

(** * IP addresses *)

Definition parse_octet (p : bytes) : option Z :=
  if (len p =? 0) || (3 <? len p) then None
  else if (1 <? len p) && (byte_at p 0 =? 48) then None
  else parse_digits 255 p 0.

(** [text.parse::<Ipv4Addr>()]: four decimal octets without leading zeros *)
Definition parse_ipv4 (l : bytes) : option bytes :=
  match split_byte 46 l with
  | [a; b; c; d] =>
      a ← parse_octet a;
      b ← parse_octet b;
      c ← parse_octet c;
      d ← parse_octet d;
      Some [a; b; c; d]
  | _ => None
  end.

(** [Ipv4Addr::to_string] *)
Definition show_ipv4 (a : bytes) : bytes :=
  match map show_dec a with
  | [] => []
  | o :: os => o ++ concat (map (fun p => 46 :: p) os)
  end.

Inductive IpAddr :=
| V4 (octets : bytes)
| V6 (segments : list Z).

Definition hex_digit (d : Z) : Z := if d <? 10 then 48 + d else 87 + d.

(** [format!("{:x}")] of a 16-bit segment *)
Definition show_hex (n : Z) : bytes :=
  if n <? 16 then [hex_digit n]
  else if n <? 256 then [hex_digit (n / 16); hex_digit (n mod 16)]
  else if n <? 4096 then [hex_digit (n / 256); hex_digit (n / 16 mod 16); hex_digit (n mod 16)]
  else [hex_digit (n / 4096); hex_digit (n / 256 mod 16); hex_digit (n / 16 mod 16); hex_digit (n mod 16)].

Definition show_segments (l : list Z) : bytes :=
  match map show_hex l with
  | [] => []
  | s :: ss => s ++ concat (map (fun p => 58 :: p) ss)
  end.

(** The first of the longest runs of zero segments, as its start and length. *)
Fixpoint longest_zeros (i : Z) (current longest : Z * Z) (l : list Z) : Z * Z :=
  match l with
  | [] => longest
  | s :: l =>
      if s =? 0 then
        let start := if current.2 =? 0 then i else current.1 in
        let current := (start, current.2 + 1) in
        longest_zeros (i + 1) current (if longest.2 <? current.2 then current else longest) l
      else longest_zeros (i + 1) (0, 0) longest l
  end.

(** [Ipv6Addr::to_string] *)
Definition show_ipv6 (l : list Z) : bytes :=
  match l with
  | [0; 0; 0; 0; 0; 0xFFFF; g; h] =>
      lit "::ffff:" ++ show_ipv4 [g / 256; g mod 256; h / 256; h mod 256]
  | _ =>
      let '(start, n) := longest_zeros 0 (0, 0) (0, 0) l in
      if 1 <? n then
        show_segments (take (Z.to_nat start) l) ++ lit "::" ++ show_segments (drop (Z.to_nat (start + n)) l)
      else show_segments l
  end.

(** [IpAddr::to_string] *)
Definition show_ip (a : IpAddr) : bytes :=
  match a with V4 o => show_ipv4 o | V6 s => show_ipv6 s end.

(** * Floating point *)

Definition f64 : Type := spec_float.
Definition prec : Z := 53.
Definition emax : Z := 1024.

(** [n as f64] *)
Definition f64_of_Z (n : Z) : f64 := binary_normalize prec emax n 0 false.
Definition f64_mul (a b : f64) : f64 := SFmul prec emax a b.
Definition f64_lt (a b : f64) : bool := SFltb a b.

Definition is_finite (a : f64) : bool :=
  match a with S754_zero _ | S754_finite _ _ _ => true | _ => false end.

(** [x as u64]: the integral part, saturating *)
Definition f64_as_u64 (a : f64) : Z :=
  match a with
  | S754_finite false m e =>
      Z.min U64_MAX (if 0 <=? e then Z.pos m * 2 ^ e else Z.pos m / 2 ^ (- e))
  | S754_infinity false => U64_MAX
  | _ => 0
  end.

(** The binary64 number nearest to [m * 10 ^ e]. *)
Definition f64_of_decimal (neg : bool) (m e : Z) : f64 :=
  match m with
  | Zpos p =>
      if 0 <=? e then binary_normalize prec emax (if neg then - (m * 10 ^ e) else m * 10 ^ e) 0 neg
      else
        let '(q, e', l) := SFdiv_core_binary prec emax m 0 (10 ^ (- e)) 0 in
        binary_round_aux prec emax neg q e' l
  | _ => S754_zero neg
  end.

(** The digits at the front of a text. *)
Fixpoint span_digits (l : bytes) : bytes * bytes :=
  match l with
  | x :: r => if is_digit x then let '(a, b) := span_digits r in (x :: a, b) else ([], l)
  | [] => ([], [])
  end.

Definition digits_value (l : bytes) : Z := fold_left (fun acc x => acc * 10 + (x - 48)) l 0.

(** [e], an optional sign and digits; the empty text is exponent 0. *)
Definition parse_exponent (l : bytes) : option Z :=
  match l with
  | [] => Some 0
  | x :: r =>
      if negb (to_lower x =? 101) then None
      else
        let '(neg, r) := match r with
                         | y :: r' => if y =? 45 then (true, r') else if y =? 43 then (false, r') else (false, r)
                         | [] => (false, [])
                         end in
        let '(ds, rest) := span_digits r in
        match ds, rest with
        | _ :: _, [] => Some (if neg : bool then - digits_value ds else digits_value ds)
        | _, _ => None
        end
  end.

(** The text after the sign. *)
Definition parse_magnitude (neg : bool) (l : bytes) : option f64 :=
  let named := map to_lower l in
  if bytes_eqb named (lit "inf") || bytes_eqb named (lit "infinity") then Some (S754_infinity neg)
  else if bytes_eqb named (lit "nan") then Some S754_nan
  else
    let '(int, r) := span_digits l in
    let '(frac, r) := match r with
                      | x :: r' => if x =? 46 then span_digits r' else ([], r)
                      | [] => ([], [])
                      end in
    if len int + len frac =? 0 then None
    else
      e ← parse_exponent r;
      Some (f64_of_decimal neg (digits_value (int ++ frac)) (e - len frac)).

(** [text.parse::<f64>()] *)
Definition parse_f64 (l : bytes) : option f64 :=
  match l with
  | x :: r =>
      if x =? 45 then parse_magnitude true r
      else if x =? 43 then parse_magnitude false r
      else parse_magnitude false l
  | [] => None
  end.

(** 0.1 is the number the hardware reads; rounding is to the nearest. *)
Example tenth : parse_f64 (lit "0.1") = Some (S754_finite false 7205759403792794 (-56)).
Proof. reflexivity. Qed.

Example exponent_forms :
  parse_f64 (lit "1e3") = parse_f64 (lit "1000.") /\ parse_f64 (lit ".5") = parse_f64 (lit "+5E-1") /\
  parse_f64 (lit ".") = None /\ parse_f64 (lit "1e") = None.
Proof. by split_and!. Qed.

(** ** Lemmas on IP addresses *)

Lemma parse_show_octet o : u8 o -> parse_octet (show_dec o) = Some o.
Proof.
  intros Ho. assert (H : forallb (fun k => bool_decide (parse_octet (show_dec (Z.of_nat k)) = Some (Z.of_nat k))) (seq 0 256) = true)
    by (vm_compute; reflexivity).
  rewrite forallb_forall in H. specialize (H (Z.to_nat o)). rewrite in_seq, bool_decide_eq_true in H.
  unfold u8 in Ho. rewrite Z2Nat.id in H by lia. apply H. lia.
Qed.

Lemma show_octet_no_dot o : u8 o -> 46 ∉ show_dec o.
Proof.
  intros Ho. assert (H : forallb (fun k => bool_decide (46 ∉ show_dec (Z.of_nat k))) (seq 0 256) = true)
    by (vm_compute; reflexivity).
  rewrite forallb_forall in H. specialize (H (Z.to_nat o)). rewrite in_seq, bool_decide_eq_true in H.
  unfold u8 in Ho. rewrite Z2Nat.id in H by lia. apply H. lia.
Qed.

Lemma split_byte_app c a r : c ∉ a -> split_byte c (a ++ (c :: r)) = a :: split_byte c r.
Proof.
  induction a as [|x a IH]; intros Hc; simpl.
  - by rewrite Z.eqb_refl.
  - rewrite not_elem_of_cons in Hc. destruct Hc as [Hx Hc]. destruct (Z.eqb_spec x c); [congruence|]. by rewrite IH.
Qed.

Lemma split_byte_none c a : c ∉ a -> split_byte c a = [a].
Proof.
  induction a as [|x a IH]; intros Hc; simpl; [done|].
  rewrite not_elem_of_cons in Hc. destruct Hc as [Hx Hc]. destruct (Z.eqb_spec x c); [congruence|]. by rewrite IH.
Qed.

(** Addresses print and parse back. *)
Lemma parse_show_ipv4 a : length a = 4%nat -> u8s a -> parse_ipv4 (show_ipv4 a) = Some a.
Proof.
  intros Hl Ha. destruct a as [|a [|b [|c [|d [|]]]]]; try done.
  repeat match goal with H : u8s (_ :: _) |- _ => apply Forall_cons in H as [? ?] end.
  unfold parse_ipv4, show_ipv4. cbn [map concat]. rewrite app_nil_r. cbn [app].
  rewrite !split_byte_app by (by apply show_octet_no_dot).
  rewrite split_byte_none by (by apply show_octet_no_dot). by rewrite !parse_show_octet.
Qed.

(** ** Words separated by spaces *)

Fixpoint join_spaces (ts : list bytes) : bytes :=
  match ts with
  | [] => []
  | [t] => t
  | t :: ts => t ++ (32 :: join_spaces ts)
  end.

Lemma join_spaces_cons t u ts : join_spaces (t :: u :: ts) = t ++ (32 :: join_spaces (u :: ts)).
Proof. done. Qed.

(** A non-empty piece without white space. *)
Definition word (t : bytes) : Prop := t <> [] /\ Forall (fun x => is_ascii_whitespace x = false) t.

Lemma split_white_app t r :
  Forall (fun x => is_ascii_whitespace x = false) t ->
  split_ascii_whitespace_all (t ++ (32 :: r)) = t :: split_ascii_whitespace_all r.
Proof.
  induction 1 as [|x t Hx _ IH]; cbn [app split_ascii_whitespace_all].
  - by change (is_ascii_whitespace 32) with true.
  - by rewrite Hx, IH.
Qed.

Lemma split_white_last t :
  Forall (fun x => is_ascii_whitespace x = false) t -> split_ascii_whitespace_all t = [t].
Proof. induction 1 as [|x t Hx _ IH]; cbn [app split_ascii_whitespace_all]; [done|]. by rewrite Hx, IH. Qed.

Lemma split_join_spaces ts :
  ts <> [] -> Forall word ts -> split_ascii_whitespace (join_spaces ts) = ts.
Proof.
  intros Hne Hts. assert (H : split_ascii_whitespace_all (join_spaces ts) = ts).
  { induction Hts as [|t ts [_ Ht] Hts IH]; [done|]. destruct ts as [|u ts].
    - by apply split_white_last.
    - rewrite join_spaces_cons, split_white_app by done. by rewrite IH. }
  unfold split_ascii_whitespace. rewrite H. clear H Hne.
  induction Hts as [|t ts [Hne _] _ IH]; [done|]. rewrite filter_cons_True by done. by rewrite IH.
Qed.

(** Decimal numbers are words of digits. *)
Lemma show_digits_all fuel n acc :
  Forall (fun x => is_digit x = true) acc -> Forall (fun x => is_digit x = true) (show_digits fuel n acc).
Proof.
  revert n acc. induction fuel as [|fuel IH]; intros n acc Hacc; simpl; [done|].
  assert (Forall (fun x => is_digit x = true) ((48 + n mod 10) :: acc)).
  { constructor; [|done]. unfold is_digit. pose proof (Z.mod_pos_bound n 10). lia. }
  case_match; auto.
Qed.

Lemma show_dec_digits n : Forall (fun x => is_digit x = true) (show_dec n).
Proof. by apply show_digits_all. Qed.

Lemma show_dec_ne n : 0 <= n -> show_dec n <> [].
Proof. intros Hn. unfold show_dec. by destruct (show_digits_head 19 n [] Hn) as (d & r & -> & _). Qed.
