(* ===== verification/Os.v ===== *)
(** * System calls

    The server talks to the kernel through libc.  A computation that makes system calls is a function of
    the history of calls made so far; the answers are those of an operating system [answer], a parameter.
    Structures passed by reference are given by their fields, with a pointer replaced by what it points
    at.

    File descriptors are owned: a value that holds one closes it when it is dropped.  [owned] closes it
    when the rest of its scope fails, [scoped] whenever the scope is left. *)

From stdpp Require Import strings gmap.
From S2P Require Import Prelude RustText.

(** ** Calls *)

Inductive ioarg :=
| NoArg
| IntArg (v : Z)
| IfreqArg (name : bytes) (flags : Z)
| AttachArg (abi_major abi_minor tcp_fd mtu session_fd : Z)
| StatsArg
| RecvControlArg (buf_len : Z)
| SendControlArg (body : bytes)
| RekeyArg (cipher_type : Z) (crypto_info : bytes).

(** The functions of AWS-LC's libssl on the one context or connection at hand. *)
Inductive sslcall :=
| SSL_CTX_new
| SSL_CTX_free
| SSL_CTX_set_min_proto_version (version : Z)
| SSL_CTX_set_cipher_list (list : bytes)
| SSL_CTX_use_certificate_chain_file (path : bytes)
| SSL_CTX_use_PrivateKey_file (path : bytes) (type : Z)
| SSL_CTX_check_private_key
| SSL_CTX_set_session_cache_mode (mode : Z)
| SSL_CTX_set_num_tickets (n : Z)
| SSL_CTX_set_options (options : Z)
| SSL_CTX_set_alpn_select_cb
| SSL_CTX_get0_certificate
| I2d_X509_length
| I2d_X509
| SSL_new
| SSL_free
| SSL_set_fd (fd : Z)
| SSL_set_accept_state
| SSL_do_handshake
| SSL_get_error (ret : Z)
| SSL_read (cap : Z)
| SSL_write (data : bytes)
| SSL_shutdown
| SSL_get_current_cipher
| SSL_CIPHER_get_name
| SSL_get_version
| SSL_has_pending
| SSL_pending
| SSL_get_write_traffic_secret
| SSL_get_read_traffic_secret
| SSL_generate_key_block (len : Z)
| SSL_get_write_sequence
| SSL_get_read_sequence
| SSL_key_update (request : Z).

(** What the server calls before its workers run. *)
Inductive startcall :=
| Geteuid
| Prctl (option arg : Z)
| Setgroups (groups : list Z)
| Setresgid (rgid egid sgid : Z)
| Setresuid (ruid euid suid : Z)
| Capset (version pid : Z) (data : list (Z * Z * Z))
| Getpwnam_r (name : bytes)
| Getgrnam_r (name : bytes)
| Gethostname (cap : Z)
| Read_to_string (path : string)
| Unlink (path : bytes)
| Bind_unix (fd : Z) (path : bytes)
| Bind_inet (fd : Z) (v6 : bool) (ip : list Z) (port scope : Z)
| Listen (fd backlog : Z)
| Set_nonblocking (fd : Z)
| Set_cloexec (fd : Z)
| Chmod (path : bytes) (mode : Z)
| Chown (path : bytes) (uid gid : Z).

Inductive syscall :=
| Sys_open (path : string) (flags : Z)
| Sys_socket (family : Z)
| Sys_bind (fd : Z)
| Sys_sendto (fd : Z) (b : bytes)
| Sys_recv (fd : Z) (cap : Z)
| Sys_read (fd : Z) (cap : Z)
| Sys_write (fd : Z) (b : bytes)
| Sys_ioctl (fd : Z) (request : Z) (arg : ioarg)
| Sys_getfl (fd : Z)
| Sys_setfl (fd : Z) (flags : Z)
| Sys_if_nametoindex (name : bytes)
| Sys_register (fd : Z)
| Sys_close (fd : Z)
| Sys_setsockopt (fd level name : Z) (value : bytes)
| Sys_ready (write : bool)
| Ssl (c : sslcall)
| Start (c : startcall).

(** The return value and what the call wrote through a pointer; or [errno]. A null pointer of libssl is a
    failure, a string or buffer it returns is the output.  [Sys_ready] asks the runtime whether the socket
    is ready: 0 when the task has to wait for it. *)
Inductive sysret :=
| Ret (rc : Z) (ints : list Z) (out : bytes)
| Fail (errno : Z).

Definition event : Type := syscall * sysret.

(** The calls made so far, the last one first. *)
Definition history : Type := list event.

Class Os := answer : history -> syscall -> sysret.

Inductive io_error :=
| OsError (errno : Z)
| OtherError.

(** ** Computations *)

Definition M (E A : Type) : Type := history -> res E A * history.

Section Calls.
Context {os : Os}.

Definition sys {E} (c : syscall) : M E sysret := fun h => let r := answer h c in (Ok r, (c, r) :: h).

#[export] Instance m_ret {E} : MRet (M E) := fun A a h => (Ok a, h).

#[export] Instance m_bind {E} : MBind (M E) := fun A B f m h =>
  match m h with
  | (Ok a, h) => f a h
  | (Err e, h) => (Err e, h)
  | (Panic, h) => (Panic, h)
  end.

Definition lift {E A} (r : res E A) : M E A := fun h => (r, h).
Definition throw {E A} (e : E) : M E A := fun h => (Err e, h).

Definition on_err {E F A} (f : E -> F) (m : M E A) : M F A := fun h => let '(r, h) := m h in (map_err f r, h).

(** The outcome as a value, for code that looks at both. *)
Definition attempt_ {E F A} (m : M E A) : M F (A + E) := fun h => let '(r, h) := m h in (catch r, h).

Definition close {E} (fd : Z) : M E () := fun h => let '(_, h) := sys (E := E) (Sys_close fd) h in (Ok tt, h).

Definition owned {E A} (fd : Z) (m : M E A) : M E A := fun h =>
  match m h with
  | (Ok a, h) => (Ok a, h)
  | (r, h) => (r, (close (E := E) fd h).2)
  end.

Definition scoped {E A} (fd : Z) (m : M E A) : M E A := fun h => let '(r, h) := m h in (r, (close (E := E) fd h).2).

(** [if rc < 0 { return Err(io::Error::last_os_error()) }] *)
Definition checked (c : syscall) : M io_error (Z * list Z * bytes) :=
  r ← sys c;
  match r with
  | Ret rc ints out => mret (rc, ints, out)
  | Fail e => throw (OsError e)
  end.

End Calls.

Lemma bind_eq {E A B} (m : M E A) (f : A -> M E B) h :
  (m ≫= f) h =
  match m h with
  | (Ok a, h) => f a h
  | (Err e, h) => (Err e, h)
  | (Panic, h) => (Panic, h)
  end.
Proof. done. Qed.

Lemma on_err_eq {E F A} (f : E -> F) (m : M E A) h : on_err f m h = (map_err f (m h).1, (m h).2).
Proof. unfold on_err. by destruct (m h). Qed.

(** [m_run] executes the monadic operations of a goal. *)
Ltac m_run :=
  unfold checked, attempt_, on_err, sys, throw, lift; unfold mbind, m_bind, mret, m_ret; cbn beta iota zeta.

(** ** Open descriptors *)

(** The descriptor a call opened: [open], [socket], and the attach request of the kernel module, which
    returns one in its structure. *)
Definition opened_by (e : event) : option Z :=
  match e with
  | (Sys_open _ _, Ret fd _ _) => Some fd
  | (Sys_socket _, Ret fd _ _) => Some fd
  | (Sys_ioctl _ _ (AttachArg _ _ _ _ _), Ret _ (fd :: _) _) => if 0 <=? fd then Some fd else None
  | _ => None
  end.

Fixpoint open_fds (h : history) : gset Z :=
  match h with
  | [] => ∅
  | e :: h =>
      match e.1 with
      | Sys_close fd => open_fds h ∖ {[fd]}
      | _ => match opened_by e with Some fd => {[fd]} ∪ open_fds h | None => open_fds h end
      end
  end.

(** A new descriptor is none of the open ones (open(2), socket(2)); recv(2) and read(2) return at most as
    many bytes as asked for; the index of an interface is a positive [int] (if_nametoindex(3)). *)
Class OsOk (os : Os) := {
  fresh_fd : forall h c fd, opened_by (c, answer h c) = Some fd -> fd ∉ open_fds h;
  recv_bound : forall h fd cap n ints out, answer h (Sys_recv fd cap) = Ret n ints out -> 0 <= n <= cap;
  read_bound : forall h fd cap n ints out, answer h (Sys_read fd cap) = Ret n ints out -> 0 <= n <= cap;
  ifindex_bound : forall h name i ints out, answer h (Sys_if_nametoindex name) = Ret i ints out -> 0 <= i < 2 ^ 31
}.

(** The datagrams sent and their sockets, the first one first. *)
Fixpoint sends (h : history) : list (Z * bytes) :=
  match h with
  | [] => []
  | (Sys_sendto fd b, _) :: h => sends h ++ [(fd, b)]
  | _ :: h => sends h
  end.
