(* ===== verification/Calendar.v ===== *)
(** * The date of the HTTP answer ([format_imf_fixdate] in [src/src/sstp/preamble.rs])

    The source turns a Unix time into a civil date with integer divisions.  [civil_is_gregorian] shows
    that the date of day [n] is what [n] applications of the Gregorian rule of the next day give from
    the first of January 1970, and that no subtraction underflows.  The proof cuts the algorithm into
    the year of the 400-year era, with the 400 year boundaries checked by evaluation, and the month of
    the year, with its 366 days checked by evaluation. *)

From stdpp Require Import strings.
From S2P Require Import Prelude RustText.

(** [a - b] on unsigned integers, which must not underflow. *)
Definition usub {E} (a b : Z) : res E Z := if b <=? a then Ok (a - b) else Panic.

Definition nth_name {E} (names : list string) (i : Z) : res E bytes :=
  match names !! Z.to_nat i with Some s => Ok (lit s) | None => Panic end.

Definition DAY_NAMES : list string := ["Sun"; "Mon"; "Tue"; "Wed"; "Thu"; "Fri"; "Sat"]%string.
Definition MONTH_NAMES : list string :=
  ["Jan"; "Feb"; "Mar"; "Apr"; "May"; "Jun"; "Jul"; "Aug"; "Sep"; "Oct"; "Nov"; "Dec"]%string.

(** The civil date of a day number, in [format_imf_fixdate]: year, month, day.  The day number is a
    [u64] divided by 86400 and fits [i64], so no conversion falls back to its default. *)
Definition civil_from_days {E} (days : Z) : res E (Z * Z * Z) :=
  let z := days + 719468 in
  let era := Z.quot (if 0 <=? z then z else z - 146096) 146097 in
  let doe := z - era * 146097 in
  t1 ← usub doe (doe / 1460);
  t2 ← usub (t1 + doe / 36524) (doe / 146096);
  let yoe := t2 / 365 in
  let y_civil := yoe + era * 400 in
  leap ← usub (365 * yoe + yoe / 4) (yoe / 100);
  doy ← usub doe leap;
  let mp := (5 * doy + 2) / 153 in
  d0 ← usub doy ((153 * mp + 2) / 5);
  let d := d0 + 1 in
  m ← (if mp <? 10 then Ok (mp + 3) else usub mp 9);
  let y := if m <=? 2 then y_civil + 1 else y_civil in
  Ok (y, m, d).

Definition format_imf_fixdate {E} (unix_secs : Z) : res E bytes :=
  let days := unix_secs / 86400 in
  let secs_of_day := unix_secs mod 86400 in
  '(y, m, d) ← civil_from_days days;
  let hh := secs_of_day / 3600 in
  let mm := (secs_of_day / 60) mod 60 in
  let ss := secs_of_day mod 60 in
  let dow := (days mod 7 + 4) mod 7 in
  day_name ← nth_name DAY_NAMES dow;
  mon_name ← nth_name MONTH_NAMES (m - 1);
  Ok (day_name ++ lit ", " ++ show_pad 2 d ++ lit " " ++ mon_name ++ lit " " ++ show_pad 4 y
      ++ lit " " ++ show_pad 2 hh ++ lit ":" ++ show_pad 2 mm ++ lit ":" ++ show_pad 2 ss ++ lit " GMT").

(** * The Gregorian rules *)
Definition leap (y : Z) : bool := (y mod 4 =? 0) && (negb (y mod 100 =? 0) || (y mod 400 =? 0)).

Definition month_days (y m : Z) : Z :=
  if m =? 2 then (if leap y then 29 else 28)
  else if (m =? 4) || (m =? 6) || (m =? 9) || (m =? 11) then 30
  else 31.

Definition date : Type := Z * Z * Z.

Definition tomorrow (t : date) : date :=
  let '(y, m, d) := t in
  if d <? month_days y m then (y, m, d + 1)
  else if m <? 12 then (y, m + 1, 1)
  else (y + 1, 1, 1).

(** The date [n] days after the first of January 1970. *)
Definition day (n : nat) : date := Nat.iter n tomorrow (1970, 1, 1).

(** * The algorithm, in parts

    Years start in March: year [k] of the era of 400 has its first day at [year_start k]. *)
Definition year_start (k : Z) : Z := 365 * k + k / 4 - k / 100 + k / 400.

Definition year_len (k : Z) : Z := year_start (k + 1) - year_start k.

(** The year of a day of the era, as the source computes it. *)
Definition spread (doe : Z) : Z := doe - doe / 1460 + doe / 36524 - doe / 146096.

(** The month and day of a day of the year. *)
Definition month_of (doy : Z) : Z :=
  let mp := (5 * doy + 2) / 153 in if mp <? 10 then mp + 3 else mp - 9.

Definition mday_of (doy : Z) : Z := doy - (153 * ((5 * doy + 2) / 153) + 2) / 5 + 1.

Lemma spread_mono a b : 0 <= a <= b -> spread a <= spread b.
Proof.
  intros [Ha Hab]. revert b Hab. apply Zlt_lower_bound_ind. intros b IH Hb.
  destruct (Z.eq_dec a b) as [->|]; [lia|]. etransitivity; [apply (IH (b - 1)); lia|].
  unfold spread. clear IH. Z.div_mod_to_equations. lia.
Qed.

Lemma year_start_mono a b : a <= b -> year_start a <= year_start b.
Proof. unfold year_start. intros. Z.div_mod_to_equations. lia. Qed.

(** The integers [0 .. n - 1] satisfy [f] when the evaluation says so. *)
Definition upto (n : nat) : list Z := Z.of_nat <$> seq 0 n.

Lemma check_upto (f : Z -> bool) n k : forallb f (upto n) = true -> 0 <= k < Z.of_nat n -> f k = true.
Proof.
  intros Hf Hk. apply (proj1 (forallb_forall f _) Hf). apply list_elem_of_In, list_elem_of_fmap.
  exists (Z.to_nat k). split; [lia|]. apply elem_of_seq. lia.
Qed.

(** The spread of the era crosses each multiple of 365 exactly where a year starts. *)
Lemma year_boundaries k :
  0 <= k <= 400 -> 365 * k <= spread (year_start k) \/ k = 400.
Proof.
  intros Hk. assert (H : ((365 * k <=? spread (year_start k)) || (k =? 400)) = true); [|lia].
  apply (check_upto (fun k => (365 * k <=? spread (year_start k)) || (k =? 400)) 401); [|lia].
  by vm_compute.
Qed.

Lemma year_boundaries' k : 1 <= k <= 400 -> spread (year_start k - 1) < 365 * k.
Proof.
  intros Hk. assert (H : ((spread (year_start k - 1) <? 365 * k) || (k =? 0)) = true); [|lia].
  apply (check_upto (fun k => (spread (year_start k - 1) <? 365 * k) || (k =? 0)) 401); [|lia].
  by vm_compute.
Qed.

Lemma year_found doe :
  0 <= doe < 146097 ->
  let k := spread doe / 365 in 0 <= k < 400 /\ year_start k <= doe < year_start (k + 1).
Proof.
  intros Hd k. pose proof (Z.div_mod (spread doe) 365 ltac:(lia)) as Hdiv.
  pose proof (Z.mod_pos_bound (spread doe) 365 ltac:(lia)). fold k in Hdiv.
  pose proof (spread_mono 0 doe ltac:(lia)). pose proof (spread_mono doe 146096 ltac:(lia)).
  change (spread 0) with 0 in *. change (spread 146096) with 145999 in *.
  split; [lia|]. split.
  - destruct (Z.le_gt_cases (year_start k) doe); [done|].
    assert (k <> 0) by (intros ->; unfold year_start in *; simpl in *; lia).
    pose proof (year_boundaries' k ltac:(lia)).
    pose proof (spread_mono doe (year_start k - 1) ltac:(lia)). lia.
  - destruct (Z.lt_ge_cases doe (year_start (k + 1))); [done|].
    destruct (year_boundaries (k + 1) ltac:(lia)) as [|Hk].
    + assert (0 <= year_start (k + 1)) by (apply (year_start_mono 0); lia).
      pose proof (spread_mono (year_start (k + 1)) doe ltac:(lia)). lia.
    + rewrite Hk in *. change (year_start 400) with 146097 in *. lia.
Qed.

Lemma year_unique doe k k' :
  year_start k <= doe < year_start (k + 1) -> year_start k' <= doe < year_start (k' + 1) -> k = k'.
Proof.
  intros H H'. destruct (Z.lt_trichotomy k k') as [Hlt|[Heq|Hgt]]; [|done|].
  - pose proof (year_start_mono (k + 1) k' ltac:(lia)). lia.
  - pose proof (year_start_mono (k' + 1) k ltac:(lia)). lia.
Qed.

(** A year that starts in March is long when the year its February is in is a leap year. *)
Lemma year_len_leap k : year_len k = if leap (k + 1) then 366 else 365.
Proof. unfold year_len, year_start, leap. case_match; Z.div_mod_to_equations; lia. Qed.

Lemma leap_era y e : leap (y + e * 400) = leap y.
Proof. unfold leap. apply eq_true_iff_eq. Z.div_mod_to_equations. lia. Qed.

(** The date of day [doy] of the year that starts in March of [base]. *)
Definition ymd (base doy : Z) : date :=
  (if month_of doy <=? 2 then base + 1 else base, month_of doy, mday_of doy).

(** The months as the March year has them: February is cut at 28 days before day 364. *)
Definition short_month (m : Z) : Z := month_days 1 m.

Definition step_check (doy : Z) : bool :=
  let m := month_of doy in let d := mday_of doy in
  let m' := month_of (doy + 1) in let d' := mday_of (doy + 1) in
  (1 <=? m) && (m <=? 12) &&
  ((d <? short_month m) && (m' =? m) && (d' =? d + 1)
   || (d =? short_month m) && negb (m =? 2) && (m <? 12) && (m' =? m + 1) && (d' =? 1)
   || (d =? 31) && (m =? 12) && (m' =? 1) && (d' =? 1)).

Lemma step_checked doy : 0 <= doy < 364 -> step_check doy = true.
Proof. intros. apply (check_upto step_check 364); [by vm_compute | lia]. Qed.

Lemma month_days_short y m : short_month m <= month_days y m /\ (m <> 2 -> month_days y m = short_month m).
Proof. unfold short_month, month_days. change (leap 1) with false. repeat case_match; lia. Qed.

Lemma tomorrow_in_year base doy :
  0 <= doy < 365 -> (doy = 364 -> leap (base + 1) = true) ->
  tomorrow (ymd base doy) = ymd base (doy + 1).
Proof.
  intros Hd Hl. destruct (Z.eq_dec doy 364) as [->|].
  - unfold ymd. change (month_of 364) with 2. change (mday_of 364) with 28.
    change (month_of (364 + 1)) with 2. change (mday_of (364 + 1)) with 29. simpl.
    unfold month_days. simpl. by rewrite Hl.
  - pose proof (step_checked doy ltac:(lia)) as Hs. unfold step_check in Hs. unfold ymd.
    set (m := month_of doy) in *. set (d := mday_of doy) in *.
    set (m' := month_of (doy + 1)) in *. set (d' := mday_of (doy + 1)) in *.
    clearbody m d m' d'. unfold tomorrow.
    destruct (month_days_short (if m <=? 2 then base + 1 else base) m) as [Hle Heq].
    generalize dependent (month_days (if m <=? 2 then base + 1 else base) m). intros len Hle Heq.
    assert (m = 12 -> short_month m = 31) by (by intros ->).
    assert (Hc : (d < len /\ m' = m /\ d' = d + 1) \/ (len <= d /\ m < 12 /\ m <> 2 /\ m' = m + 1 /\ d' = 1)
      \/ (len <= d /\ m = 12 /\ m' = 1 /\ d' = 1)) by lia.
    destruct Hc as [(? & -> & ->)|[(? & ? & ? & -> & ->)|(? & -> & -> & ->)]].
    + by replace (d <? len) with true by lia.
    + replace (d <? len) with false by lia. replace (m <? 12) with true by lia.
      destruct (m <=? 2) eqn:?, (m + 1 <=? 2) eqn:?; lia || done.
    + by replace (d <? len) with false by lia.
Qed.

Lemma tomorrow_year_end base k :
  leap (base + 1) = leap (k + 1) -> tomorrow (ymd base (year_len k - 1)) = ymd (base + 1) 0.
Proof.
  intros Hb. rewrite year_len_leap, <- Hb. destruct (leap (base + 1)) eqn:Hl.
  - unfold ymd. change (month_of (366 - 1)) with 2. change (mday_of (366 - 1)) with 29. simpl.
    unfold month_days. simpl. by rewrite Hl.
  - unfold ymd. change (month_of (365 - 1)) with 2. change (mday_of (365 - 1)) with 28. simpl.
    unfold month_days. simpl. by rewrite Hl.
Qed.

(** ** The whole *)

(** The date of a day counted from the first of March of year 0. *)
Definition civil (z : Z) : date :=
  let era := z / 146097 in let doe := z mod 146097 in
  let k := spread doe / 365 in ymd (k + era * 400) (doe - year_start k).

Lemma usub_ok {E} a b : b <= a -> @usub E a b = Ok (a - b).
Proof. intros. unfold usub. by replace (b <=? a) with true by lia. Qed.

Lemma civil_from_days_ok {E} days : 0 <= days -> @civil_from_days E days = Ok (civil (days + 719468)).
Proof.
  intros Hd. unfold civil_from_days, civil. set (z := days + 719468).
  assert (Hz : 0 <= z) by lia. replace (0 <=? z) with true by lia.
  rewrite Z.quot_div_nonneg by lia.
  replace (z - z / 146097 * 146097) with (z mod 146097) by (rewrite Z.mod_eq; lia).
  pose proof (Z.mod_pos_bound z 146097 ltac:(lia)) as Hdoe. set (doe := z mod 146097) in *.
  set (era := z / 146097). clearbody doe era.
  pose proof (year_found doe Hdoe) as [Hk Hy]. fold (spread doe) in *.
  rewrite usub_ok by (Z.div_mod_to_equations; lia). simpl.
  rewrite usub_ok by (Z.div_mod_to_equations; lia). simpl. fold (spread doe).
  set (k := spread doe / 365) in *. clearbody k.
  rewrite usub_ok by (Z.div_mod_to_equations; lia). simpl.
  assert (Hs : year_start k = 365 * k + k / 4 - k / 100)
    by (unfold year_start; rewrite (Z.div_small k 400); lia).
  rewrite <- Hs, usub_ok by lia. simpl.
  assert (Hlen : year_len k <= 366) by (rewrite year_len_leap; case_match; lia).
  unfold year_len in Hlen. set (doy := doe - year_start k) in *.
  assert (Hdoy : 0 <= doy < 366) by lia. clearbody doy.
  assert ((153 * ((5 * doy + 2) / 153) + 2) / 5 < doy + 1).
  { pose proof (Z.mul_div_le (5 * doy + 2) 153 ltac:(lia)). apply Z.div_lt_upper_bound; lia. }
  rewrite (usub_ok doy) by lia. simpl. unfold ymd, month_of, mday_of.
  destruct (Z.ltb_spec ((5 * doy + 2) / 153) 10) as [|Hm]; [done|].
  rewrite usub_ok by lia. done.
Qed.

Lemma civil_next z : civil (z + 1) = tomorrow (civil z).
Proof.
  unfold civil. pose proof (Z.mod_pos_bound z 146097 ltac:(lia)) as Hdoe.
  pose proof (Z.div_mod z 146097 ltac:(lia)) as Hz.
  set (doe := z mod 146097) in *. set (era := z / 146097) in *. clearbody doe era.
  pose proof (year_found doe Hdoe) as [Hk Hy]. set (k := spread doe / 365) in *. clearbody k.
  assert (Hlen : year_len k <= 366) by (rewrite year_len_leap; case_match; lia).
  assert (Hleap : leap (k + era * 400 + 1) = leap (k + 1)).
  { rewrite <- (leap_era (k + 1) era). f_equal. lia. }
  destruct (Z.eq_dec (doe + 1) (year_start (k + 1))) as [Hend|Hmid].
  - (* the last day of the year *)
    replace (doe - year_start k) with (year_len k - 1) by (unfold year_len; lia).
    rewrite (tomorrow_year_end _ k) by done.
    destruct (Z.eq_dec k 399) as [->|].
    + change (year_start (399 + 1)) with 146097 in Hend.
      replace (z + 1) with (0 + (era + 1) * 146097) by lia.
      rewrite Z.div_add, Z.mod_add by lia. change (0 / 146097) with 0. change (0 mod 146097) with 0.
      change (spread 0 / 365) with 0. change (0 - year_start 0) with 0. f_equal. lia.
    + pose proof (year_start_mono (k + 1) 399 ltac:(lia)). change (year_start 399) with 145731 in *.
      replace (z + 1) with ((doe + 1) + era * 146097) by lia.
      rewrite Z.div_add, Z.mod_add, (Z.div_small (doe + 1)), (Z.mod_small (doe + 1)) by lia.
      pose proof (year_found (doe + 1) ltac:(lia)) as [Hk' Hy'].
      set (k' := spread (doe + 1) / 365) in *. clearbody k'.
      assert (0 < year_len (k + 1)) by (rewrite year_len_leap; case_match; lia).
      unfold year_len in *.
      rewrite <- (year_unique (doe + 1) (k + 1) k') by lia. f_equal; lia.
  - pose proof (year_start_mono (k + 1) 400 ltac:(lia)). change (year_start 400) with 146097 in *.
    replace (z + 1) with ((doe + 1) + era * 146097) by lia.
    rewrite Z.div_add, Z.mod_add, (Z.div_small (doe + 1)), (Z.mod_small (doe + 1)) by lia.
    pose proof (year_found (doe + 1) ltac:(lia)) as [Hk' Hy'].
    set (k' := spread (doe + 1) / 365) in *. clearbody k'.
    rewrite <- (year_unique (doe + 1) k k') by lia.
    rewrite tomorrow_in_year; [f_equal; lia| |]; unfold year_len in *; [lia|].
    intros Hd. rewrite Hleap. pose proof (year_len_leap k) as Hl. unfold year_len in Hl.
    destruct (leap (k + 1)); lia || done.
Qed.

Lemma civil_is_gregorian {E} n : @civil_from_days E (Z.of_nat n) = Ok (day n).
Proof.
  rewrite civil_from_days_ok by lia. f_equal.
  induction n as [|n IH]; [done|]. unfold day. simpl. fold (day n). rewrite <- IH, <- civil_next.
  f_equal. lia.
Qed.

(** * The text *)

Inductive weekday := Sun | Mon | Tue | Wed | Thu | Fri | Sat.

Definition next_weekday (w : weekday) : weekday :=
  match w with
  | Sun => Mon | Mon => Tue | Tue => Wed | Wed => Thu | Thu => Fri | Fri => Sat | Sat => Sun
  end.

Definition weekday_name (w : weekday) : string :=
  match w with
  | Sun => "Sun" | Mon => "Mon" | Tue => "Tue" | Wed => "Wed" | Thu => "Thu" | Fri => "Fri" | Sat => "Sat"
  end.

Definition month_name (m : Z) : string := nth (Z.to_nat (m - 1)) MONTH_NAMES "".

(** The first of January 1970 was a Thursday. *)
Definition weekday_of (n : nat) : weekday := Nat.iter n next_weekday Thu.

Lemma weekday_name_at {E} n :
  @nth_name E DAY_NAMES ((Z.of_nat n mod 7 + 4) mod 7) = Ok (lit (weekday_name (weekday_of n))).
Proof.
  assert (H : forall n, exists w, weekday_of n = w /\
    DAY_NAMES !! Z.to_nat ((Z.of_nat n mod 7 + 4) mod 7) = Some (weekday_name w) /\
    DAY_NAMES !! Z.to_nat ((Z.of_nat (S n) mod 7 + 4) mod 7) = Some (weekday_name (next_weekday w))).
  { clear n. induction n as [|n (w & Hw & H0 & H1)]; [by exists Thu|].
    exists (next_weekday w). unfold weekday_of in *. simpl. rewrite Hw. split_and!; [done|done|].
    revert H1. rewrite (Nat2Z.inj_succ (S n)).
    replace ((Z.succ (Z.of_nat (S n)) mod 7 + 4) mod 7) with (((Z.of_nat (S n) mod 7 + 4) mod 7 + 1) mod 7)
      by (Z.div_mod_to_equations; lia).
    pose proof (Z.mod_pos_bound (Z.of_nat (S n) mod 7 + 4) 7 ltac:(lia)) as Hb.
    generalize dependent ((Z.of_nat (S n) mod 7 + 4) mod 7). intros i Hb.
    assert (Hc : i = 0 \/ i = 1 \/ i = 2 \/ i = 3 \/ i = 4 \/ i = 5 \/ i = 6) by lia.
    destruct Hc as [->|[->|[->|[->|[->|[->| ->]]]]]]; destruct w; done. }
  destruct (H n) as (w & -> & Hn & _). unfold nth_name. by rewrite Hn.
Qed.

Lemma day_wf n : let '(y, m, d) := day n in 1 <= m <= 12.
Proof.
  induction n as [|n IH]; [done|]. unfold day in *. simpl.
  destruct (Nat.iter n tomorrow (1970, 1, 1)) as [[y m] d]. unfold tomorrow.
  repeat case_match; simplify_eq; lia.
Qed.

Lemma month_name_at {E} m : 1 <= m <= 12 -> @nth_name E MONTH_NAMES (m - 1) = Ok (lit (month_name m)).
Proof.
  intros Hm. assert (Hc : m = 1 \/ m = 2 \/ m = 3 \/ m = 4 \/ m = 5 \/ m = 6 \/ m = 7 \/ m = 8 \/ m = 9
    \/ m = 10 \/ m = 11 \/ m = 12) by lia.
  by repeat (destruct Hc as [->|Hc]; [done|]); subst.
Qed.

(** The date of the answer is the Gregorian one: for every Unix time the formatter returns (no
    subtraction underflows, no name is missing) the weekday and the date that as many days after
    Thursday, 1 January 1970 have by the rule of the next day, and the time of the day. *)
Theorem date_is_gregorian {E} (unix_secs : Z) :
  0 <= unix_secs ->
  let n := Z.to_nat (unix_secs / 86400) in
  let '(y, m, d) := day n in
  let s := unix_secs mod 86400 in
  @format_imf_fixdate E unix_secs =
  Ok (lit (weekday_name (weekday_of n)) ++ lit ", " ++ show_pad 2 d ++ lit " "
      ++ lit (month_name m) ++ lit " " ++ show_pad 4 y ++ lit " "
      ++ show_pad 2 (s / 3600) ++ lit ":" ++ show_pad 2 (s / 60 mod 60) ++ lit ":"
      ++ show_pad 2 (s mod 60) ++ lit " GMT").
Proof.
  intros Hs n. pose proof (day_wf n) as Hm. destruct (day n) as [[y m] d] eqn:Hday.
  unfold format_imf_fixdate. pose proof (Z.div_pos unix_secs 86400 Hs ltac:(lia)).
  replace (unix_secs / 86400) with (Z.of_nat n) by lia.
  rewrite civil_is_gregorian, Hday. simpl. by rewrite weekday_name_at, month_name_at.
Qed.

(** The last second of a leap day. *)
Lemma date_is_gregorian_witness :
  0 <= 68255999 /\
  @format_imf_fixdate () 68255999 = Ok (lit "Tue, 29 Feb 1972 23:59:59 GMT").
Proof.
  split; [lia|]. pose proof (@date_is_gregorian () 68255999 ltac:(lia)) as H.
  change (Z.to_nat (68255999 / 86400)) with 789%nat in H.
  replace (day 789) with (1972, 2, 29) in H by (by vm_compute).
  rewrite H. by vm_compute.
Defined.

(** The date never keeps the answer from being sent. *)
Lemma format_ok {E} now : 0 <= now -> exists date, @format_imf_fixdate E now = Ok date.
Proof.
  intros Hs. unfold format_imf_fixdate.
  pose proof (Z.div_pos now 86400 ltac:(lia) ltac:(lia)).
  replace (now / 86400) with (Z.of_nat (Z.to_nat (now / 86400))) by lia.
  rewrite civil_is_gregorian. pose proof (day_wf (Z.to_nat (now / 86400))) as Hm.
  destruct (day _) as [[y m] d]. simpl. rewrite weekday_name_at, month_name_at by done. simpl. eauto.
Qed.
