(* ===== verification/HttpPreamble.v ===== *)
(** * The HTTPS preamble ([src/src/sstp/preamble.rs])

    Before SSTP the client posts one HTTP request on the TLS stream and the server answers [200 OK].
    The stream is the list of results its [read] calls give: the chunks, in order, an empty chunk being
    the end of the stream.  [parse_accepts_exactly] characterises the requests that are accepted,
    [handshake_ignores_chunking] says that the cut of a request into reads does not matter and
    [handshake_always_ends] that no peer keeps the handshake reading; [pipelined_frame_is_lost] is what
    happens to bytes sent right behind the request.  The date of the answer is in Calendar. *)

From stdpp Require Import strings.
From S2P Require Import Prelude RustText Calendar.

Definition SSTP_URI : bytes := lit "/sra_{BA195980-CD49-458b-9E23-C84EE0ADCD75}/".
Definition SSTP_METHOD : bytes := lit "SSTP_DUPLEX_POST".
Definition ULONGLONG_MAX_STR : bytes := lit "18446744073709551615".
Definition MAX_HEADER_BYTES : Z := 4096.

Record Preamble := { correlation_id : option bytes }.

Inductive PreambleError :=
| Io (code : Z)
| Eof (n : Z)
| TooLarge
| Bad (why : string).

(** * The request *)

(** The first index at which CR LF CR LF starts. *)
Fixpoint position_terminator (buf : bytes) : option Z :=
  match buf with
  | [] => None
  | _ :: r =>
      if bytes_eqb (take 4 buf) (crlf ++ crlf) then Some 0
      else match position_terminator r with Some i => Some (i + 1) | None => None end
  end.

Definition find_header_terminator (buf : bytes) : option Z :=
  match position_terminator buf with Some i => Some (i + 4) | None => None end.

(** The header loop of [parse_request]: the flag for Content-Length and the correlation identifier. *)
Fixpoint parse_headers (content_length_ok : bool) (corr : option bytes) (lines : list bytes) :
    res PreambleError (bool * option bytes) :=
  match lines with
  | [] => Ok (content_length_ok, corr)
  | [] :: _ => Ok (content_length_ok, corr)
  | line :: rest =>
      match split_once 58 line with
      | None => Err (Bad "header missing colon")
      | Some (name, value) =>
          let value := trim value in
          if eq_ignore_ascii_case name (lit "content-length") then
            if negb (bytes_eqb value ULONGLONG_MAX_STR)
            then Err (Bad "Content-Length must be ULONGLONG_MAX")
            else parse_headers true corr rest
          else if eq_ignore_ascii_case name (lit "sstpcorrelationid") then
            parse_headers content_length_ok (if len value <=? 64 then Some value else corr) rest
          else parse_headers content_length_ok corr rest
      end
  end.

(** The checks on the request line. *)
Definition parse_request_line (line : bytes) : res PreambleError () :=
  match split_byte 32 line with
  | [] => Err (Bad "missing method")
  | [_] => Err (Bad "missing URI")
  | [_; _] => Err (Bad "missing version")
  | _ :: _ :: _ :: _ :: _ => Err (Bad "trailing tokens on request line")
  | [method; uri; version] =>
      if negb (bytes_eqb method SSTP_METHOD) then Err (Bad "method must be SSTP_DUPLEX_POST")
      else if negb (bytes_eqb uri SSTP_URI) then Err (Bad "URI must be the SSTP well-known path")
      else if negb (bytes_eqb version (lit "HTTP/1.1")) then Err (Bad "HTTP version must be 1.1")
      else Ok tt
  end.

(** Text of bytes below 0x80 is UTF-8, so [from_utf8] succeeds after the first check. *)
Definition parse_request (raw : bytes) : res PreambleError Preamble :=
  if existsb (fun b => 128 <=? b) raw then Err (Bad "non-ASCII byte in header block")
  else match split_crlf raw with
  | [] => Err (Bad "empty request")
  | request_line :: lines =>
      _ ← parse_request_line request_line;
      '(content_length_ok, corr) ← parse_headers false None lines;
      if negb content_length_ok then Err (Bad "missing Content-Length header")
      else Ok {| correlation_id := corr |}
  end.

(** * The answers *)

Definition ok_response {E} (now : Z) : res E bytes :=
  date ← format_imf_fixdate now;
  Ok (lit "HTTP/1.1 200 OK" ++ crlf
      ++ lit "Content-Length: " ++ ULONGLONG_MAX_STR ++ crlf
      ++ lit "Server: Microsoft-HTTPAPI/2.0" ++ crlf
      ++ lit "Date: " ++ date ++ crlf
      ++ crlf).

Definition error_response : bytes :=
  lit "HTTP/1.1 400 Bad Request" ++ crlf
  ++ lit "Content-Length: 0" ++ crlf
  ++ lit "Connection: close" ++ crlf
  ++ crlf.

(** * The exchange *)

(** The result of one [read] of at most 512 bytes. *)
Inductive read :=
| Chunk (b : bytes)
| Failed (code : Z).

(** [read_header_block] from a buffer on, with the reads to come; [None] while it waits for more. *)
Fixpoint read_header_block (buf : bytes) (stream : list read) :
    option (res PreambleError bytes * list read) :=
  match stream with
  | [] => None
  | Failed code :: rest => Some (Err (Io code), rest)
  | Chunk c :: rest =>
      if len c =? 0 then Some (Err (Eof (len buf)), rest)
      else if MAX_HEADER_BYTES <? len buf + len c then Some (Err TooLarge, rest)
      else
        let buf := buf ++ c in
        match find_header_terminator buf with
        | Some _ => Some (Ok buf, rest)
        | None => read_header_block buf rest
        end
  end.

(** [handshake]: its result, the bytes written and the reads left for the caller. *)
Definition handshake (now : Z) (write_error : option Z) (stream : list read) :
    option (res PreambleError Preamble * bytes * list read) :=
  match read_header_block [] stream with
  | None => None
  | Some (raw, rest) =>
      match (raw ≫= parse_request) with
      | Ok preamble =>
          match ok_response now, write_error with
          | Ok resp, None => Some (Ok preamble, resp, rest)
          | Ok _, Some code => Some (Err (Io code), [], rest)
          | Err e, _ => Some (Err e, [], rest)
          | Panic, _ => Some (Panic, [], rest)
          end
      | Err e => Some (Err e, [], rest)
      | Panic => Some (Panic, [], rest)
      end
  end.

(** * What a request is *)

Record header := { h_name : bytes; h_value : bytes }.

Definition header_line (h : header) : bytes := h_name h ++ (58 :: h_value h).

Definition wf_header (h : header) : Prop := (58 ∉ h_name h) /\ no_crlf (header_line h).

Definition request_line : bytes := SSTP_METHOD ++ lit " " ++ SSTP_URI ++ lit " " ++ lit "HTTP/1.1".

(** The request with these headers, and the bytes that follow it. *)
Definition request_text (hs : list header) (rest : bytes) : bytes :=
  request_line ++ crlf ++ concat (map (fun h => header_line h ++ crlf) hs) ++ crlf ++ rest.

Definition named (n : string) (h : header) : bool := eq_ignore_ascii_case (h_name h) (lit n).

(** The trimmed values of the headers of this name, in order. *)
Definition values (n : string) (hs : list header) : list bytes :=
  map (fun h => trim (h_value h)) (List.filter (named n) hs).

(** The identifier kept: of the last such header of at most 64 bytes. *)
Definition correlation (hs : list header) : option bytes :=
  last (List.filter (fun v => len v <=? 64) (values "sstpcorrelationid" hs)).

(** One Content-Length or several, all of them the maximum. *)
Definition length_announced (hs : list header) : Prop :=
  values "content-length" hs <> [] /\ Forall (fun v => v = ULONGLONG_MAX_STR) (values "content-length" hs).

(** ** Lemmas *)

Lemma position_terminator_spec buf i :
  position_terminator buf = Some i -> exists a b, buf = a ++ crlf ++ crlf ++ b /\ i = len a.
Proof.
  revert i. induction buf as [|x buf IH]; intros i; simpl; [done|].
  case_match eqn:E.
  - intros [= <-]. apply bytes_eqb_eq in E. exists [], (drop 4 (x :: buf)). split; [|done].
    change (x :: take 3 buf) with (take 4 (x :: buf)) in E.
    rewrite <- (take_drop 4 (x :: buf)), E. done.
  - destruct (position_terminator buf) as [j|]; [|done]. intros [= <-].
    destruct (IH j eq_refl) as (a & b & -> & ->). exists (x :: a), b. split; [done | len_lia].
Qed.

Lemma position_terminator_exists a b : exists i, position_terminator (a ++ crlf ++ crlf ++ b) = Some i.
Proof.
  induction a as [|x a IH].
  - by exists 0.
  - destruct IH as [i E]. change ((x :: a) ++ ?r) with (x :: (a ++ r)).
    cbn [position_terminator]. rewrite E. case_match; eauto.
Qed.

Lemma header_once name value :
  58 ∉ name -> split_once 58 (name ++ (58 :: value)) = Some (name, value).
Proof. intros. by apply split_once_iff. Qed.

(** The two names are different, so a header is at most one of the two kinds. *)
Lemma named_one h : named "content-length" h = true -> named "sstpcorrelationid" h = false.
Proof.
  unfold named, eq_ignore_ascii_case. intros ->%bytes_eqb_eq. by vm_compute.
Qed.

Lemma parse_headers_cons ok corr h rest :
  58 ∉ h_name h ->
  parse_headers ok corr (header_line h :: rest) =
  if named "content-length" h then
    if negb (bytes_eqb (trim (h_value h)) ULONGLONG_MAX_STR)
    then Err (Bad "Content-Length must be ULONGLONG_MAX")
    else parse_headers true corr rest
  else if named "sstpcorrelationid" h then
    parse_headers ok (if len (trim (h_value h)) <=? 64 then Some (trim (h_value h)) else corr) rest
  else parse_headers ok corr rest.
Proof.
  intros Hh. pose proof (header_once _ (h_value h) Hh) as Hs. unfold header_line.
  destruct (h_name h ++ _) as [|x l] eqn:E; [by destruct (h_name h)|].
  cbn [parse_headers]. by rewrite Hs.
Qed.

Lemma values_cons n h hs :
  values n (h :: hs) = if named n h then trim (h_value h) :: values n hs else values n hs.
Proof. unfold values. simpl. by destruct (named n h). Qed.

Lemma correlation_cons h hs :
  correlation (h :: hs) =
  match correlation hs with
  | Some c => Some c
  | None =>
      if named "sstpcorrelationid" h && (len (trim (h_value h)) <=? 64)
      then Some (trim (h_value h)) else None
  end.
Proof.
  unfold correlation. rewrite values_cons. destruct (named _ h); cbn [andb]; [|by destruct (last _)].
  simpl. destruct (len (trim (h_value h)) <=? 64); [|by destruct (last _)].
  destruct (List.filter _ _) as [|v vs] eqn:E; [done|].
  change (last (trim (h_value h) :: v :: vs)) with (last (v :: vs)).
  destruct (last (v :: vs)) eqn:El; [done|]. by apply last_None in El.
Qed.

(** The header loop as a function of the header list. *)
Lemma parse_headers_run ok corr hs tail r :
  Forall (fun h => 58 ∉ h_name h) hs ->
  parse_headers ok corr (map header_line hs ++ [] :: tail) = Ok r <->
  Forall (fun v => v = ULONGLONG_MAX_STR) (values "content-length" hs) /\
  r = (ok || negb (bool_decide (values "content-length" hs = [])),
       match correlation hs with Some c => Some c | None => corr end).
Proof.
  intros Hhs. revert ok corr. induction Hhs as [|h hs Hh _ IH]; intros ok corr.
  - unfold values, correlation. simpl. rewrite orb_false_r. split; [intros [= <-] | intros [_ ->]]; done.
  - cbn [map app]. rewrite parse_headers_cons, values_cons, correlation_cons by done.
    destruct (named "content-length" h) eqn:Hn.
    + rewrite (named_one h Hn). cbn [andb].
      destruct (bytes_eqb (trim (h_value h)) ULONGLONG_MAX_STR) eqn:Ev; simpl.
      * apply bytes_eqb_eq in Ev. rewrite IH, Forall_cons, orb_true_r. simpl.
        destruct (correlation hs); naive_solver.
      * split; [done|]. intros [[Hv _]%Forall_cons _]. apply bytes_eqb_eq in Hv. congruence.
    + destruct (named "sstpcorrelationid" h); cbn [andb]; rewrite IH; [|by destruct (correlation hs)].
      by destruct (len (trim (h_value h)) <=? 64), (correlation hs).
Qed.

(** When the loop succeeds, the lines before the first empty one are headers. *)
Lemma parse_headers_lines ok corr lines r :
  parse_headers ok corr lines = Ok r -> [] ∈ lines ->
  exists hs tail, lines = map header_line hs ++ [] :: tail /\ Forall (fun h => 58 ∉ h_name h) hs.
Proof.
  revert ok corr. induction lines as [|line lines IH]; intros ok corr Hp Hin; [by inversion Hin|].
  destruct line as [|x l]; [by exists [], lines|].
  cbn [parse_headers] in Hp. destruct (split_once 58 (x :: l)) as [[n v]|] eqn:E; [|done].
  apply split_once_iff in E as [E Hn].
  assert (exists ok' corr', parse_headers ok' corr' lines = Ok r) as (ok' & corr' & Hp')
    by (repeat case_match; simplify_eq; eauto).
  destruct (IH _ _ Hp') as (hs & tail & -> & Hhs); [set_solver|].
  exists ({| h_name := n; h_value := v |} :: hs), tail. split; [|by constructor].
  by rewrite E.
Qed.

Lemma parse_request_line_ok line : parse_request_line line = Ok tt <-> line = request_line.
Proof.
  split; [|intros ->; by vm_compute].
  unfold parse_request_line. pose proof (join_split_byte 32 line) as Hj.
  destruct (split_byte 32 line) as [|m [|u [|v [|]]]]; try done.
  destruct (bytes_eqb m _) eqn:Em; [|done]. destruct (bytes_eqb u _) eqn:Eu; [|done].
  destruct (bytes_eqb v _) eqn:Ev; [|done]. apply bytes_eqb_eq in Em, Eu, Ev. by subst.
Qed.

Lemma request_line_no_crlf : no_crlf request_line.
Proof.
  assert (H : Forall (fun b => b <> CR) request_line)
    by (apply (bool_decide_unpack _); by vm_compute).
  intros a b E. rewrite E in H. apply Forall_app in H as [_ H]. by inversion H.
Qed.

Lemma request_text_join hs tail :
  tail <> [] ->
  join_crlf (request_line :: map header_line hs ++ [] :: tail) = request_text hs (join_crlf tail).
Proof.
  intros Ht. unfold request_text.
  change (request_line :: map header_line hs ++ [] :: tail)
    with ([request_line] ++ (map header_line hs ++ ([[]] ++ tail))).
  rewrite join_crlf_app by (try done; by destruct hs).
  f_equal. f_equal. induction hs as [|h hs IH].
  - change (map header_line [] ++ ([[]] ++ tail)) with ([[]] ++ tail).
    by rewrite join_crlf_app by done.
  - change (map header_line (h :: hs) ++ ([[]] ++ tail))
      with ([header_line h] ++ (map header_line hs ++ ([[]] ++ tail))).
    rewrite join_crlf_app by (try done; by destruct hs). rewrite IH.
    simpl. by rewrite <- !app_assoc.
Qed.

Lemma header_line_ne h : header_line h <> [].
Proof. unfold header_line. by destruct (h_name h). Qed.

(** An empty line that is not the last one: the headers end before it and text follows. *)
Lemma headers_then_text hs tail xs ys :
  map header_line hs ++ [] :: tail = xs ++ [] :: ys -> ys <> [] -> tail <> [].
Proof.
  intros E Hys ->. destruct (exists_last Hys) as (ys' & y & ->).
  change (xs ++ [] :: ys' ++ [y]) with (xs ++ ([] :: ys') ++ [y]) in E.
  rewrite app_assoc in E. apply app_inj_tail in E as [E _].
  assert (Hin : [] ∈ map header_line hs) by (rewrite E; set_solver).
  apply list_elem_of_In, in_map_iff in Hin as (h & Hh & _). by apply (header_line_ne h).
Qed.

Lemma ascii_check raw : existsb (fun b => 128 <=? b) raw = false <-> Forall (fun b => b < 128) raw.
Proof.
  induction raw as [|x raw IH]; simpl; [done|]. rewrite orb_false_iff, Forall_cons, IH.
  split; intros []; split; try done; lia.
Qed.

(** A request of this form is split into its lines. *)
Lemma split_request_text hs rest :
  Forall wf_header hs ->
  split_crlf (request_text hs rest) =
  request_line :: map header_line hs ++ [] :: split_crlf rest.
Proof.
  intros Hhs. destruct (split_crlf_pieces rest) as [Hr Er].
  destruct (split_crlf_ne rest) as (q & r & Sr).
  apply split_crlf_iff. split_and!; [done| |].
  - constructor; [apply request_line_no_crlf|]. apply Forall_app. split.
    + apply Forall_map. eapply Forall_impl; [done|]. by intros h [_ ?].
    + constructor; [apply no_crlf_nil | done].
  - rewrite request_text_join by (by rewrite Sr). by rewrite Er.
Qed.

(** A request of this form is accepted. *)
Lemma parse_request_text hs rest :
  Forall wf_header hs -> length_announced hs -> Forall (fun b => b < 128) (request_text hs rest) ->
  parse_request (request_text hs rest) = Ok {| correlation_id := correlation hs |}.
Proof.
  intros Hw [Hl1 Hl2] Ha. unfold parse_request. rewrite (proj2 (ascii_check _) Ha), split_request_text by done.
  rewrite (proj2 (parse_request_line_ok request_line)) by done. simpl.
  assert (Hn : Forall (fun h => 58 ∉ h_name h) hs) by (eapply Forall_impl; [done|]; by intros h [? _]).
  rewrite (proj2 (parse_headers_run false None hs (split_crlf rest) (true, correlation hs) Hn)); [done|].
  split; [done|]. rewrite bool_decide_false by done. by destruct (correlation hs).
Qed.

(** C22: A header block (text with an empty line in it) is accepted exactly when it is ASCII and is the
    SSTP request line, a list of [name: value] headers and an empty line, where at least one header is
    a Content-Length (in any case) and all of those announce 18446744073709551615; the result is the
    last correlation identifier of at most 64 bytes.  What follows the empty line is ignored, but has to
    be ASCII. *)
Theorem parse_accepts_exactly (raw : bytes) (p : Preamble) (n : Z) :
  find_header_terminator raw = Some n ->
  parse_request raw = Ok p <->
  Forall (fun b => b < 128) raw /\
  exists hs rest,
    raw = request_text hs rest /\ Forall wf_header hs /\ length_announced hs /\
    p = {| correlation_id := correlation hs |}.
Proof.
  unfold find_header_terminator. destruct (position_terminator raw) as [i|] eqn:Hi; [|done].
  intros _. apply position_terminator_spec in Hi as (a & b & Hraw & _). unfold parse_request.
  destruct (existsb _ raw) eqn:Hascii.
  { split; [done|]. intros [Ha%ascii_check _]. congruence. }
  apply ascii_check in Hascii.
  split.
  - destruct (split_crlf raw) as [|line lines] eqn:Hs; [done|].
    destruct (proj1 (split_crlf_iff raw (line :: lines)) Hs) as (_ & Hno & Hj).
    intros ([] & ->%parse_request_line_ok & Hp)%bind_ok. split; [done|].
    apply bind_ok in Hp as ([ok c] & Hh & Hp). destruct ok; [|done]. injection Hp as <-.
    assert (exists r, lines = r ++ [] :: split_crlf b) as [r Hlines].
    { rewrite Hraw, !split_crlf_app in Hs. destruct (split_crlf_ne a) as (q & r & Ea).
      rewrite Ea in Hs. injection Hs as _ Hs. by exists r. }
    destruct (parse_headers_lines _ _ _ _ Hh) as (hs & tail & Hls & Hhs); [rewrite Hlines; set_solver|].
    rewrite Hls in Hlines, Hh, Hno, Hj. clear lines Hs Hls.
    apply parse_headers_run in Hh as [Hl [= Hne ->]]; [|done].
    assert (Ht : tail <> []).
    { eapply headers_then_text; [exact Hlines|]. by destruct (split_crlf_ne b) as (? & ? & ->). }
    exists hs, (join_crlf tail). rewrite <- request_text_join by done. split_and!; try done.
    + apply Forall_cons in Hno as [_ [Hno _]%Forall_app]. rewrite Forall_map in Hno.
      eapply Forall_impl; [apply Forall_and; split; [exact Hhs | exact Hno]|]. by intros h [? ?].
    + symmetry in Hne. by apply negb_true_iff, bool_decide_eq_false in Hne.
    + by destruct (correlation hs).
  - intros (Ha & hs & rest & -> & Hw & Hl & ->).
    pose proof (parse_request_text hs rest Hw Hl Ha) as Hp. unfold parse_request in Hp.
    by rewrite (proj2 (ascii_check _) Ha) in Hp.
Qed.

(** * The exchange as a whole *)

(** A terminator in a prefix is the terminator of the whole. *)
Lemma position_terminator_app a b i :
  position_terminator a = Some i -> position_terminator (a ++ b) = Some i.
Proof.
  revert i. induction a as [|x a IH]; intros i; [done|].
  change ((x :: a) ++ b) with (x :: (a ++ b)). cbn [position_terminator]. intros Hp.
  assert (H4 : (4 <= length (x :: a))%nat).
  { destruct (position_terminator_spec (x :: a) i) as (u & v & -> & _); [done | len_lia]. }
  change (x :: (a ++ b)) with ((x :: a) ++ b). rewrite take_app_le by done.
  destruct (bytes_eqb _ _); [done|]. destruct (position_terminator a) as [j|]; [|done].
  by rewrite (IH j).
Qed.

(** Chunks as reads deliver them: none empty. *)
Definition chunks (cs : list bytes) : list read := map Chunk cs.

(** A block that ends at its terminator is read whole, however it is cut; what comes after it is left
    to the caller. *)
Lemma read_block_chunks buf cs rest :
  Forall (fun c => c <> []) cs -> cs <> [] ->
  find_header_terminator (buf ++ concat cs) = Some (len (buf ++ concat cs)) ->
  len (buf ++ concat cs) <= MAX_HEADER_BYTES ->
  read_header_block buf (chunks cs ++ rest) = Some (Ok (buf ++ concat cs), rest).
Proof.
  intros Hne Hcs Hfind Hlen. revert buf Hcs Hfind Hlen.
  induction Hne as [|c cs Hc Hne IH]; intros buf Hcs Hfind Hlen; [done|].
  cbn [chunks map app read_header_block concat] in *.
  rewrite app_assoc in Hfind, Hlen |- *.
  assert (Hl : len c <> 0) by (destruct c; [done | len_lia]).
  replace (len c =? 0) with false by lia.
  replace (MAX_HEADER_BYTES <? len buf + len c) with false by (rewrite !length_app in Hlen; lia).
  destruct (find_header_terminator (buf ++ c)) as [n|] eqn:Hn.
  - unfold find_header_terminator in *.
    destruct (position_terminator (buf ++ c)) as [i|] eqn:Hi; [|done].
    pose proof (position_terminator_spec _ _ Hi) as (u & v & Hu & Hiu).
    rewrite (position_terminator_app _ (concat cs) i Hi) in Hfind.
    assert (Hz : len (concat cs) = 0).
    { apply (f_equal (fun l => len l)) in Hu. injection Hfind. rewrite !length_app in *.
      rewrite len_crlf in *. lia. }
    destruct (concat cs) as [|x l] eqn:Ec; [|simpl in Hz; lia].
    destruct cs as [|c' cs]; [by rewrite app_nil_r|].
    inversion Hne; subst. by destruct c'.
  - destruct cs as [|c' cs]; [simpl in *; rewrite app_nil_r in *; congruence|].
    by apply IH.
Qed.

Lemma ok_response_ok {E} now : 0 <= now -> exists resp, @ok_response E now = Ok resp.
Proof. intros [d Hd]%(@format_ok E). unfold ok_response. rewrite Hd. simpl. eauto. Qed.

Lemma parse_request_line_not_panic line : parse_request_line line <> Panic.
Proof. unfold parse_request_line. by repeat case_match. Qed.

Lemma parse_headers_not_panic ok corr lines : parse_headers ok corr lines <> Panic.
Proof.
  revert ok corr. induction lines as [|l lines IH]; intros ok corr; [done|].
  destruct l as [|x l]; [done|]. cbn [parse_headers].
  destruct (split_once 58 (x :: l)) as [[n v]|]; [|done]. by repeat case_match.
Qed.

Lemma parse_request_not_panic raw : parse_request raw <> Panic.
Proof.
  unfold parse_request. case_match; [done|]. case_match; [done|].
  apply bind_not_panic; [apply parse_request_line_not_panic|]. intros _ _.
  apply bind_not_panic; [apply parse_headers_not_panic|]. intros [ok c] _. by case_match.
Qed.

(** However a request that ends with its empty line is cut into reads, the handshake returns: it
    answers [200 OK] with the date when the request is accepted and writes nothing when it is not, and
    it leaves the reads that follow to the caller. *)
Theorem handshake_ignores_chunking (now : Z) (cs : list bytes) (rest : list read) :
  0 <= now ->
  Forall (fun c => c <> []) cs ->
  find_header_terminator (concat cs) = Some (len (concat cs)) ->
  len (concat cs) <= MAX_HEADER_BYTES ->
  exists resp,
    ok_response (E := PreambleError) now = Ok resp /\
    handshake now None (chunks cs ++ rest) =
    Some (match parse_request (concat cs) with
          | Ok p => (Ok p, resp, rest)
          | r => (r, [], rest)
          end).
Proof.
  intros Hnow Hne Hfind Hlen. destruct (@ok_response_ok PreambleError now Hnow) as [resp Hresp].
  exists resp. split; [done|]. unfold handshake.
  rewrite (read_block_chunks [] cs rest); [|done| |done|done]; [|by intros ->].
  cbn [mbind res_bind app]. rewrite Hresp. by destruct (parse_request (concat cs)).
Qed.

(** Each read that does not end the loop adds a byte to a buffer of at most 4096. *)
Lemma read_block_ends buf stream :
  len buf <= MAX_HEADER_BYTES < len buf + len stream ->
  exists raw rest, read_header_block buf stream = Some (raw, rest) /\ raw <> Panic.
Proof.
  revert buf. induction stream as [|[c|code] stream IH]; intros buf Hb; cbn [read_header_block].
  - simpl in *. lia.
  - destruct (Z.eqb_spec (len c) 0); [eauto|].
    destruct (Z.ltb_spec MAX_HEADER_BYTES (len buf + len c)); [eauto|].
    case_match; [eauto|]. apply IH. len_lia.
  - eauto.
Qed.

(** No peer keeps the handshake reading: after at most 4097 reads it has returned, with a result
    that is not a panic, and it has written nothing unless it accepted the request. *)
Theorem handshake_always_ends (now : Z) (write_error : option Z) (stream : list read) :
  0 <= now -> MAX_HEADER_BYTES < len stream ->
  exists r written rest,
    handshake now write_error stream = Some (r, written, rest) /\ r <> Panic /\
    (written <> [] -> exists p, r = Ok p).
Proof.
  intros Hnow Hlen. destruct (@ok_response_ok PreambleError now Hnow) as [resp Hresp].
  destruct (read_block_ends [] stream) as (raw & rest & Hr & Hraw).
  { unfold MAX_HEADER_BYTES in *. simpl. lia. }
  unfold handshake. rewrite Hr, Hresp.
  assert (Hp : raw ≫= parse_request <> Panic)
    by (apply bind_not_panic; [done | intros a _; apply parse_request_not_panic]).
  destruct (raw ≫= parse_request) as [p|e|]; [|by exists (Err e), [], rest|done].
  destruct write_error as [code|]; [by exists (Err (Io code)), [], rest|].
  exists (Ok p), resp, rest. split_and!; [done|done|eauto].
Qed.

Lemma request_text_app hs rest : request_text hs rest = request_text hs [] ++ rest.
Proof. unfold request_text. by rewrite <- !app_assoc. Qed.

Lemma request_terminated hs rest : exists n, find_header_terminator (request_text hs rest) = Some n.
Proof.
  unfold find_header_terminator.
  assert (exists a, request_text hs rest = a ++ crlf ++ crlf ++ rest) as [a ->].
  { unfold request_text. destruct (list_eq_nil_dec hs) as [->|Hne]; [by exists request_line|].
    destruct (exists_last Hne) as (hs' & h & ->).
    exists (request_line ++ crlf ++ concat (map (fun h => header_line h ++ crlf) hs') ++ header_line h).
    rewrite map_app, concat_app. simpl. by rewrite <- !app_assoc. }
  destruct (position_terminator_exists a rest) as [i ->]. eauto.
Qed.

(** Bytes the client sends in the same read as the end of its request are lost: the handshake takes
    them with the header block, so the result, the answer and the reads left are those of the request
    alone (and the first SSTP packet is never seen), or, when one of them is not ASCII, the request is
    refused. *)
Theorem pipelined_frame_is_lost (now : Z) (hs : list header) (frame : bytes) (rest : list read) :
  0 <= now -> Forall wf_header hs -> length_announced hs ->
  Forall (fun b => b < 128) (request_text hs []) ->
  len (request_text hs frame) <= 512 ->
  exists p resp,
    handshake now None (Chunk (request_text hs []) :: rest) = Some (Ok p, resp, rest) /\
    handshake now None (Chunk (request_text hs frame) :: rest) =
    if forallb (fun b => b <? 128) frame then Some (Ok p, resp, rest)
    else Some (Err (Bad "non-ASCII byte in header block"), [], rest).
Proof.
  intros Hnow Hw Hl Ha Hlen. destruct (@ok_response_ok PreambleError now Hnow) as [resp Hresp].
  exists {| correlation_id := correlation hs |}, resp.
  assert (Hread : forall f, len (request_text hs f) <= 512 ->
    read_header_block [] (Chunk (request_text hs f) :: rest) = Some (Ok (request_text hs f), rest)).
  { intros f Hf. cbn [read_header_block]. unfold MAX_HEADER_BYTES.
    assert (len (request_text hs f) <> 0) by (unfold request_text; len_lia).
    replace (_ =? 0) with false by lia. replace (4096 <? len (@nil Z) + _) with false by (change (len (@nil Z)) with 0; lia).
    rewrite app_nil_l. by destruct (request_terminated hs f) as [n ->]. }
  assert (Hnil : len (request_text hs []) <= 512) by (rewrite request_text_app in Hlen; len_lia).
  unfold handshake. rewrite !Hread, Hresp by done. cbn [mbind res_bind].
  rewrite (parse_request_text hs []) by done. split; [done|].
  destruct (forallb _ frame) eqn:Hf.
  - rewrite parse_request_text; [done..|]. rewrite request_text_app. apply Forall_app. split; [done|].
    apply Forall_forall. intros b Hb%list_elem_of_In. apply (proj1 (forallb_forall _ _) Hf) in Hb. lia.
  - unfold parse_request. replace (existsb _ _) with true; [done|]. symmetry.
    apply not_false_iff_true. intros Hx%ascii_check. rewrite request_text_app in Hx.
    apply Forall_app in Hx as [_ Hx]. apply not_true_iff_false in Hf. destruct Hf.
    apply forallb_forall. intros b Hb%list_elem_of_In. apply (proj1 (Forall_forall _ _) Hx) in Hb. lia.
Qed.

(** * A client *)

Module Client.

Definition host : header := {| h_name := lit "Host"; h_value := lit " vpn" |}.
Definition guid : header :=
  {| h_name := lit "SSTPCORRELATIONID"; h_value := lit " {12345678-1234-1234-1234-1234567890AB}" |}.
Definition announced : header :=
  {| h_name := lit "Content-Length"; h_value := lit " 18446744073709551615" |}.

Definition headers : list header := [host; guid; announced].
Definition request : bytes := Eval vm_compute in request_text headers [].

(** A Call Connect Request. *)
Definition frame : bytes := [16; 1; 0; 14; 0; 1; 0; 1; 0; 1; 0; 6; 0; 1].

Lemma no_cr_line l : Forall (fun b => b <> CR) l -> no_crlf l.
Proof. intros H a b ->. apply Forall_app in H as [_ H]. by inversion H. Qed.

Lemma headers_wf : Forall wf_header headers.
Proof.
  repeat constructor; try apply no_cr_line; apply (bool_decide_unpack _); by vm_compute.
Qed.

Lemma headers_announce : length_announced headers.
Proof. split; [by vm_compute|]. apply (bool_decide_unpack _). by vm_compute. Qed.

Lemma request_ascii : Forall (fun b => b < 128) (request_text headers []).
Proof. apply (bool_decide_unpack _). by vm_compute. Qed.

Definition preamble : Preamble :=
  {| correlation_id := Some (lit "{12345678-1234-1234-1234-1234567890AB}") |}.

Lemma parse_accepts_exactly_witness :
  find_header_terminator request = Some (len request) /\ parse_request request = Ok preamble.
Proof.
  assert (Hf : find_header_terminator request = Some (len request)) by (by vm_compute).
  split; [done|]. apply (parse_accepts_exactly request preamble (len request) Hf).
  change request with (request_text headers []).
  split; [exact request_ascii|]. exists headers, []. split_and!;
    [done | exact headers_wf | exact headers_announce | by vm_compute].
Defined.

Lemma handshake_ignores_chunking_witness :
  exists resp, handshake 68255999 None (chunks [take 100 request; drop 100 request] ++ [Chunk frame]) =
    Some (Ok preamble, resp, [Chunk frame]).
Proof.
  destruct (handshake_ignores_chunking 68255999 [take 100 request; drop 100 request] [Chunk frame])
    as (resp & _ & H).
  - lia.
  - by apply (bool_decide_unpack _); vm_compute.
  - by vm_compute.
  - by vm_compute.
  - exists resp. rewrite H. by vm_compute.
Defined.

Lemma handshake_always_ends_witness :
  exists r written rest, handshake 0 None (replicate (Z.to_nat 4097) (Chunk [65])) = Some (r, written, rest)
    /\ r <> Panic /\ (written <> [] -> exists p, r = Ok p).
Proof.
  apply (handshake_always_ends 0 None (replicate (Z.to_nat 4097) (Chunk [65]))); [lia|].
  rewrite length_replicate. unfold MAX_HEADER_BYTES. lia.
Defined.

Lemma pipelined_frame_is_lost_witness :
  exists p resp,
    handshake 0 None [Chunk (request_text headers [])] = Some (Ok p, resp, []) /\
    handshake 0 None [Chunk (request_text headers frame)] = Some (Ok p, resp, []).
Proof.
  destruct (pipelined_frame_is_lost 0 headers frame []) as (p & resp & H1 & H2);
    [lia | exact headers_wf | exact headers_announce | exact request_ascii | by vm_compute |].
  by exists p, resp.
Defined.

End Client.
