(* ===== verification/SstpFrame.v ===== *)
(** SSTP packet header and control-packet framing: [src/src/sstp/frame.rs], with the message-type
    enumeration of [src/src/sstp/msg.rs] that the frame parser decodes into.

    Holds [MessageType], [ParseError], [Packet.parse], [ControlPacket.parse_body] and
    [write_header]; the theorems are that the parser is total on every buffer, that a parsed packet
    does not depend on the bytes that follow it, and that headers round-trip. *)

From S2P Require Import Prelude.

Module MessageType.

Inductive t :=
| CallConnectRequest
| CallConnectAck
| CallConnectNak
| CallConnected
| CallAbort
| CallDisconnect
| CallDisconnectAck
| EchoRequest
| EchoResponse.

#[global] Instance t_eq_dec : EqDecision t.
Proof. solve_decision. Defined.

Definition from_u16 (v : Z) : option t :=
  match v with
  | 0x0001 => Some CallConnectRequest
  | 0x0002 => Some CallConnectAck
  | 0x0003 => Some CallConnectNak
  | 0x0004 => Some CallConnected
  | 0x0005 => Some CallAbort
  | 0x0006 => Some CallDisconnect
  | 0x0007 => Some CallDisconnectAck
  | 0x0008 => Some EchoRequest
  | 0x0009 => Some EchoResponse
  | _ => None
  end.

Definition as_u16 (m : t) : Z :=
  match m with
  | CallConnectRequest => 0x0001
  | CallConnectAck => 0x0002
  | CallConnectNak => 0x0003
  | CallConnected => 0x0004
  | CallAbort => 0x0005
  | CallDisconnect => 0x0006
  | CallDisconnectAck => 0x0007
  | EchoRequest => 0x0008
  | EchoResponse => 0x0009
  end.

Lemma from_as_u16 m : from_u16 (as_u16 m) = Some m.
Proof. by destruct m. Qed.

Lemma as_u16_range m : u16 (as_u16 m).
Proof. unfold u16. destruct m; simpl; lia. Qed.

Lemma from_u16_inv v m : from_u16 v = Some m -> v = as_u16 m.
Proof. unfold from_u16. repeat case_match; intros; simplify_eq; done. Qed.

End MessageType.

Definition SSTP_VERSION_1_0 : Z := 0x10.
Definition SSTP_HEADER_LEN : Z := 4.
Definition SSTP_CONTROL_EXTRA_LEN : Z := 4.
Definition SSTP_MAX_PACKET_LEN : Z := 0x0FFF.

Inductive ParseError :=
| Truncated
| UnsupportedVersion (v : Z)
| LengthMismatch (declared available : Z)
| LengthTooSmall (n : Z)
| UnknownMessageType (v : Z)
| UnknownAttributeId (v : Z)
| AttributeLength (declared available : Z)
| AttributeSize (actual expected : Z).

#[export] Instance ParseError_eq_dec : EqDecision ParseError.
Proof. solve_decision. Defined.

Module ControlPacket.

Record t := {
  msg_type : MessageType.t;
  num_attrs : Z;
  attrs : bytes
}.

Definition parse_body (body : bytes) : res ParseError t :=
  if len body <? SSTP_CONTROL_EXTRA_LEN then Err Truncated else
  b0 ← idx body 0;
  b1 ← idx body 1;
  let msg_type_raw := be16 b0 b1 in
  msg_type ← ok_or (MessageType.from_u16 msg_type_raw) (UnknownMessageType msg_type_raw);
  b2 ← idx body 2;
  b3 ← idx body 3;
  attrs ← slice_from body SSTP_CONTROL_EXTRA_LEN;
  Ok {| msg_type := msg_type; num_attrs := be16 b2 b3; attrs := attrs |}.

End ControlPacket.

Module Packet.

Inductive t :=
| Data (d : bytes)
| Control (c : ControlPacket.t).

Definition parse (buf : bytes) : res ParseError (t * Z) :=
  if len buf <? SSTP_HEADER_LEN then Err Truncated else
  version ← idx buf 0;
  if negb (version =? SSTP_VERSION_1_0) then Err (UnsupportedVersion version) else
  b1 ← idx buf 1;
  let c := negb (Z.land b1 0x01 =? 0) in
  b2 ← idx buf 2;
  b3 ← idx buf 3;
  let length := Z.land (be16 b2 b3) SSTP_MAX_PACKET_LEN in
  if length <? SSTP_HEADER_LEN then Err (LengthTooSmall length) else
  if length >? len buf then Err (LengthMismatch length (len buf)) else
  body ← slice buf SSTP_HEADER_LEN length;
  if (c : bool) then
    ctrl ← ControlPacket.parse_body body;
    Ok (Control ctrl, length)
  else Ok (Data body, length).

End Packet.

Definition write_header {bp : BuildProfile} {E}
    (buf : bytes) (control : bool) (total_len : Z) : res E bytes :=
  _ ← debug_assert (total_len <=? SSTP_MAX_PACKET_LEN);
  buf ← set_at buf 0 SSTP_VERSION_1_0;
  buf ← set_at buf 1 (Z.b2z control);
  let length := Z.land (as_u16 total_len) (as_u16 SSTP_MAX_PACKET_LEN) in
  copy_slice buf 2 4 (to_be16 length).

Example parse_data_packet :
  Packet.parse [0x10; 0x00; 0x00; 0x08; 0xff; 0x03; 0xc0; 0x21]
  = Ok (Packet.Data [0xff; 0x03; 0xc0; 0x21], 8).
Proof. reflexivity. Qed.

Example parse_control_packet_no_attrs :
  Packet.parse [0x10; 0x01; 0x00; 0x08; 0x00; 0x08; 0x00; 0x00]
  = Ok (Packet.Control
          {| ControlPacket.msg_type := MessageType.EchoRequest; ControlPacket.num_attrs := 0;
             ControlPacket.attrs := [] |}, 8).
Proof. reflexivity. Qed.

Example rejects_bad_version : Packet.parse [0x20; 0; 0; 4] = Err (UnsupportedVersion 0x20).
Proof. reflexivity. Qed.

(** ** The parsers as total functions *)

Lemma parse_body_eq body :
  ControlPacket.parse_body body =
  if len body <? 4 then Err Truncated
  else match MessageType.from_u16 (be16 (byte_at body 0) (byte_at body 1)) with
       | None => Err (UnknownMessageType (be16 (byte_at body 0) (byte_at body 1)))
       | Some m => Ok {| ControlPacket.msg_type := m;
                         ControlPacket.num_attrs := be16 (byte_at body 2) (byte_at body 3);
                         ControlPacket.attrs := drop 4 body |}
       end.
Proof.
  unfold ControlPacket.parse_body, SSTP_CONTROL_EXTRA_LEN.
  case_match; [done|]. run_ok. case_match; run_ok; done.
Qed.

Definition header_length (buf : bytes) : Z := Z.land (be16 (byte_at buf 2) (byte_at buf 3)) 4095.

Lemma header_length_range buf : 0 <= header_length buf <= 4095.
Proof.
  unfold header_length. rewrite land_12bit.
  pose proof (Z.mod_pos_bound (be16 (byte_at buf 2) (byte_at buf 3)) 4096). lia.
Qed.

Lemma parse_eq buf :
  Packet.parse buf =
  if len buf <? 4 then Err Truncated
  else if negb (byte_at buf 0 =? 16) then Err (UnsupportedVersion (byte_at buf 0))
  else if header_length buf <? 4 then Err (LengthTooSmall (header_length buf))
  else if header_length buf >? len buf then Err (LengthMismatch (header_length buf) (len buf))
  else if negb (Z.land (byte_at buf 1) 1 =? 0)
  then ctrl ← ControlPacket.parse_body (sub buf 4 (header_length buf));
       Ok (Packet.Control ctrl, header_length buf)
  else Ok (Packet.Data (sub buf 4 (header_length buf)), header_length buf).
Proof.
  unfold Packet.parse, SSTP_HEADER_LEN, SSTP_VERSION_1_0, SSTP_MAX_PACKET_LEN, header_length.
  case_match; [done|]. run_ok. case_match; [done|]. run_ok.
  case_match; [done|]. case_match; [done|]. run_ok. done.
Qed.

Lemma parse_length buf p n : Packet.parse buf = Ok (p, n) -> n = header_length buf.
Proof.
  rewrite parse_eq, parse_body_eq. repeat case_match; simpl; intros; simplify_eq; done.
Qed.

Lemma parse_total buf :
  Packet.parse buf <> Panic /\
  forall p n, Packet.parse buf = Ok (p, n) -> 4 <= n <= len buf /\ n <= SSTP_MAX_PACKET_LEN.
Proof.
  rewrite parse_eq, parse_body_eq. unfold SSTP_MAX_PACKET_LEN.
  pose proof (header_length_range buf).
  repeat case_match; simpl; (split; [done|]); intros; simplify_eq; lia.
Qed.

Lemma parse_stable buf p n s :
  Packet.parse buf = Ok (p, n) -> Packet.parse (take (Z.to_nat n) buf ++ s) = Ok (p, n).
Proof.
  intros Hp. destruct (proj2 (parse_total buf) _ _ Hp) as [? _].
  set (w := take (Z.to_nat n) buf).
  assert (Hw : len w = n) by (subst w; len_lia).
  assert (Hb : forall i, 0 <= i < n -> byte_at (w ++ s) i = byte_at buf i).
  { intros i Hi. rewrite byte_at_app_l by lia. unfold w, byte_at.
    rewrite <- (take_drop (Z.to_nat n) buf) at 2. rewrite app_nth1; [done|].
    rewrite length_take. lia. }
  assert (Hh : header_length (w ++ s) = header_length buf)
    by (unfold header_length; by rewrite !Hb by lia).
  pose proof (parse_length _ _ _ Hp) as Hn.
  rewrite parse_eq in Hp |- *. rewrite Hh, <- Hn in *. rewrite !Hb by lia.
  assert (Hs : sub (w ++ s) 4 n = sub buf 4 n).
  { unfold sub. rewrite drop_app_le by lia. rewrite take_app_le by len_lia.
    unfold w. rewrite !take_drop_commute, take_take. do 2 f_equal. lia. }
  rewrite Hs, length_app. repeat case_match; simplify_eq; done || lia.
Qed.

(** ** The wire format *)

(** [header control n]: the four bytes of the outer header with zero reserved bits. *)
Definition header (control : bool) (n : Z) : bytes := [0x10; Z.b2z control] ++ to_be16 n.

Lemma len_header control n : length (header control n) = 4%nat.
Proof. done. Qed.

#[export] Hint Rewrite len_header : lens.

Lemma write_header_ok {bp : BuildProfile} {E} buf control n :
  length buf = 4%nat -> 0 <= n <= 4095 -> @write_header bp E buf control n = Ok (header control n).
Proof.
  intros Hlen ?. unfold write_header, as_u16, SSTP_MAX_PACKET_LEN.
  rewrite debug_assert_ok by lia.
  change (4095 mod 65536) with 4095. rewrite land_12bit.
  rewrite (Z.mod_small n 65536), (Z.mod_small n 4096) by lia.
  by destruct buf as [|? [|? [|? [|? [|??]]]]].
Qed.

Definition is_control (p : Packet.t) : bool :=
  match p with Packet.Data _ => false | Packet.Control _ => true end.

Definition control_body (c : ControlPacket.t) : bytes :=
  to_be16 (MessageType.as_u16 (ControlPacket.msg_type c)) ++
  to_be16 (ControlPacket.num_attrs c) ++ ControlPacket.attrs c.

Definition packet_body (p : Packet.t) : bytes :=
  match p with Packet.Data d => d | Packet.Control c => control_body c end.

(** The packet [p] on the wire, with the 7 and 4 reserved header bits set to [r1] and [r2]. *)
Definition packet_bytes (r1 r2 : Z) (p : Packet.t) : bytes :=
  [0x10; 2 * r1 + Z.b2z (is_control p)] ++ to_be16 (r2 * 4096 + (4 + len (packet_body p))) ++
  packet_body p.

Definition packet_ok (p : Packet.t) : Prop :=
  4 + len (packet_body p) <= SSTP_MAX_PACKET_LEN /\
  match p with Packet.Data _ => True | Packet.Control c => u16 (ControlPacket.num_attrs c) end.

Lemma parse_body_control_body c :
  u16 (ControlPacket.num_attrs c) -> ControlPacket.parse_body (control_body c) = Ok c.
Proof.
  intros Hn. rewrite parse_body_eq. destruct c as [m k a]; simpl in *.
  pose proof (MessageType.as_u16_range m).
  unfold control_body, byte_at; simpl. rewrite !be16_to_be16 by done.
  rewrite MessageType.from_as_u16. by case_match; [lia|].
Qed.

Lemma control_body_parse_body b c :
  u8s b -> ControlPacket.parse_body b = Ok c -> b = control_body c /\ u16 (ControlPacket.num_attrs c).
Proof.
  intros Hb. rewrite parse_body_eq.
  destruct (len b <? 4) eqn:?; [done|].
  destruct b as [|b0 [|b1 [|b2 [|b3 r]]]]; simpl in *; try lia.
  repeat match goal with H : u8s (_ :: _) |- _ => apply Forall_cons in H as [? ?] end.
  unfold byte_at; simpl.
  destruct (MessageType.from_u16 _) as [m|] eqn:Hm; [|done].
  intros; simplify_eq. apply MessageType.from_u16_inv in Hm.
  unfold control_body; cbn [ControlPacket.msg_type ControlPacket.num_attrs ControlPacket.attrs].
  rewrite <- Hm. split; [|by apply be16_u16].
  by rewrite !to_be16_be16.
Qed.

Lemma parse_packet_bytes r1 r2 p rest :
  0 <= r1 < 128 -> 0 <= r2 < 16 -> packet_ok p ->
  Packet.parse (packet_bytes r1 r2 p ++ rest) = Ok (p, 4 + len (packet_body p)).
Proof.
  intros ? ? [Hl Hp]. unfold SSTP_MAX_PACKET_LEN in *.
  set (L := 4 + len (packet_body p)).
  assert (Hh : header_length (packet_bytes r1 r2 p ++ rest) = L).
  { unfold header_length, packet_bytes, byte_at; simpl.
    rewrite be16_to_be16, land_12bit by (unfold u16; lia).
    rewrite Z.add_comm, Z.mod_add by lia. apply Z.mod_small. lia. }
  assert (Hs : sub (packet_bytes r1 r2 p ++ rest) 4 L = packet_body p).
  { unfold packet_bytes. rewrite app_assoc, <- app_assoc. apply sub_app_mid; len_lia. }
  rewrite parse_eq, Hh, Hs.
  assert (Hlen : len (packet_bytes r1 r2 p ++ rest) = L + len rest)
    by (unfold packet_bytes; len_lia).
  assert (Hb : Z.land (byte_at (packet_bytes r1 r2 p ++ rest) 1) 1 = Z.b2z (is_control p)).
  { rewrite land_1bit. change (byte_at _ 1) with (2 * r1 + Z.b2z (is_control p)).
    destruct (is_control p); simpl; Z.div_mod_to_equations; lia. }
  rewrite Hlen, Hb. change (byte_at _ 0) with 16.
  destruct (_ <? _) eqn:?; [lia|]. simpl negb.
  destruct (L <? 4) eqn:?; [lia|]. destruct (_ >? _) eqn:?; [lia|].
  destruct p as [d|c]; simpl; [done|]. by rewrite parse_body_control_body.
Qed.

Lemma packet_bytes_parse buf p n :
  u8s buf -> Packet.parse buf = Ok (p, n) ->
  exists r1 r2 rest, 0 <= r1 < 128 /\ 0 <= r2 < 16 /\ packet_ok p /\
    buf = packet_bytes r1 r2 p ++ rest /\ n = 4 + len (packet_body p).
Proof.
  intros Hb Hp. pose proof (parse_length _ _ _ Hp) as Hn.
  destruct (proj2 (parse_total _) _ _ Hp) as [Hrange ?]. unfold SSTP_MAX_PACKET_LEN in *.
  rewrite parse_eq, <- Hn in Hp.
  destruct buf as [|b0 [|b1 [|b2 [|b3 r]]]]; try (simpl in *; lia).
  unfold header_length in Hn. simpl in Hn, Hp, Hrange. unfold byte_at in Hn, Hp. simpl in Hn, Hp.
  repeat match goal with H : u8s (_ :: _) |- _ => apply Forall_cons in H as [? ?] end.
  rewrite land_12bit in Hn. rewrite land_1bit in Hp.
  unfold sub in Hp; simpl in Hp.
  set (body := take (Z.to_nat (n - 4)) r) in *.
  assert (Hlb : len body = n - 4) by (subst body; len_lia).
  exists (b1 / 2), (be16 b2 b3 / 4096), (drop (Z.to_nat (n - 4)) r).
  assert (packet_body p = body /\ Z.b2z (is_control p) = b1 mod 2 /\ b0 = 16 /\
          match p with Packet.Data _ => True | Packet.Control c => u16 (ControlPacket.num_attrs c) end)
    as (Hbody & Hc & -> & Hnum).
  { assert (0 <= b1 mod 2 < 2) by (by apply Z.mod_pos_bound).
    repeat case_match; simplify_eq/=; try done; try lia.
    - by apply bind_ok in Hp as (? & _ & ?).
    - apply bind_ok in Hp as (? & Hc' & ?); simplify_eq/=.
      apply control_body_parse_body in Hc' as [<- ?]; [|by apply Forall_take].
      split_and!; done || lia.
    - split_and!; done || lia. }
  pose proof (be16_u16 b2 b3). unfold u8, u16 in *.
  split_and!; try (Z.div_mod_to_equations; lia).
  - split; [|done]. unfold SSTP_MAX_PACKET_LEN. rewrite Hbody. lia.
  - unfold packet_bytes. rewrite Hbody, Hc, Hlb.
    replace (be16 b2 b3 / 4096 * 4096 + (4 + (n - 4))) with (be16 b2 b3)
      by (Z.div_mod_to_equations; lia).
    rewrite to_be16_be16 by done.
    replace (2 * (b1 / 2) + b1 mod 2) with b1 by (Z.div_mod_to_equations; lia).
    simpl. subst body. by rewrite take_drop.
  - rewrite Hbody. lia.
Qed.

(** ** Properties *)

(** The packet parser accepts exactly the wire format: a buffer parses to packet [p] of length
    [n] if and only if it starts with the [n]-byte encoding of [p] (with arbitrary reserved bits),
    whatever follows it. *)
Theorem parse_accepts_exactly_wire_format buf p n :
  u8s buf ->
  Packet.parse buf = Ok (p, n) <->
  exists r1 r2 rest, 0 <= r1 < 128 /\ 0 <= r2 < 16 /\ packet_ok p /\
    buf = packet_bytes r1 r2 p ++ rest /\ n = 4 + len (packet_body p).
Proof.
  intros Hb. split; [by apply packet_bytes_parse|].
  intros (r1 & r2 & rest & ? & ? & ? & -> & ->). by apply parse_packet_bytes.
Qed.

Lemma parse_accepts_exactly_wire_format_witness :
  u8s [0x10; 0; 0; 5; 0x7f; 0x10] /\
  (Packet.parse [0x10; 0; 0; 5; 0x7f; 0x10] = Ok (Packet.Data [0x7f], 5) <->
   exists r1 r2 rest, 0 <= r1 < 128 /\ 0 <= r2 < 16 /\ packet_ok (Packet.Data [0x7f]) /\
     [0x10; 0; 0; 5; 0x7f; 0x10] = packet_bytes r1 r2 (Packet.Data [0x7f]) ++ rest /\
     5 = 4 + len (packet_body (Packet.Data [0x7f]))).
Proof.
  assert (H : u8s [0x10; 0; 0; 5; 0x7f; 0x10]) by (repeat constructor; done).
  split; [exact H|]. by apply parse_accepts_exactly_wire_format.
Defined.

(** The packet parser is total on arbitrary bytes: it never indexes out of range, an accepted
    packet has between 4 and 4095 bytes and lies inside the buffer, and the result depends on the
    packet's own bytes only, so what the peer sends next cannot change it. *)
Theorem parse_is_safe_on_any_input buf :
  Packet.parse buf <> Panic /\
  forall p n, Packet.parse buf = Ok (p, n) ->
    4 <= n <= len buf /\ n <= SSTP_MAX_PACKET_LEN /\
    forall s, Packet.parse (take (Z.to_nat n) buf ++ s) = Ok (p, n).
Proof.
  destruct (parse_total buf) as [Ht Hn]. split; [done|]. intros p n Hp.
  destruct (Hn p n Hp). auto using parse_stable.
Qed.
