(* ===== verification/SstpAttr.v ===== *)
(** SSTP attribute TLVs: [src/src/sstp/attr.rs].

    Holds [AttributeId], [StatusCode], the raw [Attribute] view with its four typed decoders, the
    iterator [AttrIter] (state: the unread bytes) and [write_attr_header].  The theorems are that no
    decoder panics, that draining the iterator ends after at most one step per four bytes, and that
    an attribute list survives encoding and iteration. *)

From S2P Require Import Prelude SstpFrame.

Definition ATTR_HEADER_LEN : Z := 4.

Module AttributeId.

Inductive t :=
| NoError
| EncapsulatedProtocolId
| StatusInfo
| CryptoBinding
| CryptoBindingReq.

#[global] Instance t_eq_dec : EqDecision t.
Proof. solve_decision. Defined.

Definition from_u8 (v : Z) : option t :=
  match v with
  | 0x00 => Some NoError
  | 0x01 => Some EncapsulatedProtocolId
  | 0x02 => Some StatusInfo
  | 0x03 => Some CryptoBinding
  | 0x04 => Some CryptoBindingReq
  | _ => None
  end.

Definition as_u8 (i : t) : Z :=
  match i with
  | NoError => 0x00
  | EncapsulatedProtocolId => 0x01
  | StatusInfo => 0x02
  | CryptoBinding => 0x03
  | CryptoBindingReq => 0x04
  end.

Lemma attribute_id_roundtrip i : from_u8 (as_u8 i) = Some i.
Proof. by destruct i. Qed.

Lemma as_u8_range i : u8 (as_u8 i).
Proof. unfold u8. destruct i; simpl; lia. Qed.

End AttributeId.

Definition CERT_HASH_PROTOCOL_SHA1 : Z := 0x01.
Definition CERT_HASH_PROTOCOL_SHA256 : Z := 0x02.
Definition SSTP_ENCAPSULATED_PROTOCOL_PPP : Z := 0x0001.

Module StatusCode.

Inductive t :=
| NoError
| DuplicateAttribute
| UnrecognizedAttribute
| InvalidAttribValueLength
| ValueNotSupported
| UnacceptedFrameReceived
| RetryCountExceeded
| InvalidFrameReceived
| NegotiationTimeout
| AttribNotSupportedInMsg
| RequiredAttributeMissing
| StatusInfoNotSupportedInMsg.

#[global] Instance t_eq_dec : EqDecision t.
Proof. solve_decision. Defined.

(** [status as u32] *)
Definition as_u32 (s : t) : Z :=
  match s with
  | NoError => 0x00000000
  | DuplicateAttribute => 0x00000001
  | UnrecognizedAttribute => 0x00000002
  | InvalidAttribValueLength => 0x00000003
  | ValueNotSupported => 0x00000004
  | UnacceptedFrameReceived => 0x00000005
  | RetryCountExceeded => 0x00000006
  | InvalidFrameReceived => 0x00000007
  | NegotiationTimeout => 0x00000008
  | AttribNotSupportedInMsg => 0x00000009
  | RequiredAttributeMissing => 0x0000000a
  | StatusInfoNotSupportedInMsg => 0x0000000b
  end.

Lemma as_u32_range s : u32 (as_u32 s).
Proof. unfold u32. destruct s; simpl; lia. Qed.

End StatusCode.

Module CryptoBindingReq.

Record t := { hash_bitmask : Z; nonce : bytes }.
Definition VALUE_LEN : Z := 36.

End CryptoBindingReq.

Module CryptoBinding.

Record t := {
  hash_protocol : Z;
  nonce : bytes;
  cert_hash_block : bytes;
  compound_mac_block : bytes
}.

Definition VALUE_LEN : Z := 100.

Definition hash_len (cb : t) : option Z :=
  if hash_protocol cb =? CERT_HASH_PROTOCOL_SHA1 then Some 20
  else if hash_protocol cb =? CERT_HASH_PROTOCOL_SHA256 then Some 32
  else None.

End CryptoBinding.

Module StatusInfo.

Record t := { attrib_id : Z; status : Z; attrib_value : bytes }.

End StatusInfo.

Module Attribute.

Record t := { id : AttributeId.t; value : bytes }.

Definition as_encapsulated_protocol (a : t) : res ParseError Z :=
  if negb (bool_decide (id a = AttributeId.EncapsulatedProtocolId))
  then Err (UnknownAttributeId (AttributeId.as_u8 (id a))) else
  if negb (len (value a) =? 2) then Err (AttributeSize (len (value a)) 2) else
  b0 ← idx (value a) 0;
  b1 ← idx (value a) 1;
  Ok (be16 b0 b1).

Definition as_crypto_binding_req (a : t) : res ParseError CryptoBindingReq.t :=
  if negb (bool_decide (id a = AttributeId.CryptoBindingReq))
  then Err (UnknownAttributeId (AttributeId.as_u8 (id a))) else
  if negb (len (value a) =? CryptoBindingReq.VALUE_LEN)
  then Err (AttributeSize (len (value a)) CryptoBindingReq.VALUE_LEN) else
  hash_bitmask ← idx (value a) 3;
  nonce ← slice (value a) 4 36;
  Ok {| CryptoBindingReq.hash_bitmask := hash_bitmask; CryptoBindingReq.nonce := nonce |}.

Definition as_crypto_binding (a : t) : res ParseError CryptoBinding.t :=
  if negb (bool_decide (id a = AttributeId.CryptoBinding))
  then Err (UnknownAttributeId (AttributeId.as_u8 (id a))) else
  if negb (len (value a) =? CryptoBinding.VALUE_LEN)
  then Err (AttributeSize (len (value a)) CryptoBinding.VALUE_LEN) else
  hash_protocol ← idx (value a) 3;
  nonce ← slice (value a) 4 36;
  cert_hash_block ← slice (value a) 36 68;
  compound_mac_block ← slice (value a) 68 100;
  Ok {| CryptoBinding.hash_protocol := hash_protocol;
        CryptoBinding.nonce := nonce;
        CryptoBinding.cert_hash_block := cert_hash_block;
        CryptoBinding.compound_mac_block := compound_mac_block |}.

Definition as_status_info (a : t) : res ParseError StatusInfo.t :=
  if negb (bool_decide (id a = AttributeId.StatusInfo))
  then Err (UnknownAttributeId (AttributeId.as_u8 (id a))) else
  if len (value a) <? 8 then Err (AttributeSize (len (value a)) 8) else
  attrib_id ← idx (value a) 3;
  b4 ← idx (value a) 4;
  b5 ← idx (value a) 5;
  b6 ← idx (value a) 6;
  b7 ← idx (value a) 7;
  attrib_value ← slice_from (value a) 8;
  Ok {| StatusInfo.attrib_id := attrib_id;
        StatusInfo.status := be32 b4 b5 b6 b7;
        StatusInfo.attrib_value := attrib_value |}.

End Attribute.

Module AttrIter.

(** One step of the iterator: the item yielded ([None] at the end) and the bytes left. *)
Definition next {E} (buf : bytes) : res E (option (Attribute.t + ParseError) * bytes) :=
  if (len buf =? 0) then Ok (None, buf) else
  if len buf <? ATTR_HEADER_LEN then Ok (Some (inr Truncated), []) else
  id_raw ← idx buf 1;
  b2 ← idx buf 2;
  b3 ← idx buf 3;
  let length := Z.land (be16 b2 b3) SSTP_MAX_PACKET_LEN in
  if (length <? ATTR_HEADER_LEN) || (length >? len buf)
  then Ok (Some (inr (AttributeLength length (len buf))), []) else
  match AttributeId.from_u8 id_raw with
  | None =>
      rest ← slice_from buf length;
      Ok (Some (inr (UnknownAttributeId id_raw)), rest)
  | Some id =>
      value ← slice buf ATTR_HEADER_LEN length;
      rest ← slice_from buf length;
      Ok (Some (inl {| Attribute.id := id; Attribute.value := value |}), rest)
  end.

(** [AttrIter::new(buf).collect::<Vec<_>>()]: every item in order, with [fuel] steps allowed. *)
Fixpoint collect {E} (fuel : nat) (buf : bytes) : res E (list (Attribute.t + ParseError)) :=
  match fuel with
  | O => Panic
  | S fuel =>
      '(item, rest) ← next buf;
      match item with
      | None => Ok []
      | Some x => xs ← collect fuel rest; Ok (x :: xs)
      end
  end.

End AttrIter.

Definition write_attr_header {bp : BuildProfile} {E}
    (buf : bytes) (id : AttributeId.t) (total_len : Z) : res E bytes :=
  _ ← debug_assert (total_len >=? ATTR_HEADER_LEN);
  _ ← debug_assert (total_len <=? SSTP_MAX_PACKET_LEN);
  buf ← set_at buf 0 0;
  buf ← set_at buf 1 (AttributeId.as_u8 id);
  let length := Z.land (as_u16 total_len) (as_u16 SSTP_MAX_PACKET_LEN) in
  copy_slice buf 2 4 (to_be16 length).

(** ** The iterator as a total function *)

#[global] Arguments AttrIter.next : simpl never.

Lemma next_eq {E} buf :
  @AttrIter.next E buf =
  Ok (if len buf =? 0 then (None, [])
      else if len buf <? 4 then (Some (inr Truncated), [])
      else if (header_length buf <? 4) || (header_length buf >? len buf)
      then (Some (inr (AttributeLength (header_length buf) (len buf))), [])
      else (Some (match AttributeId.from_u8 (byte_at buf 1) with
                  | None => inr (UnknownAttributeId (byte_at buf 1))
                  | Some id => inl {| Attribute.id := id;
                                      Attribute.value := sub buf 4 (header_length buf) |}
                  end), drop (Z.to_nat (header_length buf)) buf)).
Proof.
  unfold AttrIter.next, ATTR_HEADER_LEN, SSTP_MAX_PACKET_LEN, header_length.
  pose proof (header_length_range buf) as Hr. unfold header_length in Hr.
  destruct (len buf =? 0) eqn:?; [by destruct buf|].
  destruct (len buf <? 4) eqn:?; [done|]. run_ok.
  destruct (_ || _) eqn:?; [done|].
  destruct (AttributeId.from_u8 _) as [id|]; run_ok; done.
Qed.

Lemma next_shrinks {E} buf x rest :
  @AttrIter.next E buf = Ok (Some x, rest) -> rest = [] \/ len rest + 4 <= len buf.
Proof.
  rewrite next_eq. repeat case_match; intros; simplify_eq; auto; right; len_lia.
Qed.

Lemma next_shrinks_strict {E} buf x rest :
  @AttrIter.next E buf = Ok (Some x, rest) -> len rest < len buf.
Proof.
  intros H. destruct (next_shrinks _ _ _ H) as [->|?]; [|lia].
  rewrite next_eq in H. destruct buf; [done|simpl; lia].
Qed.

Lemma collect_total {E} fuel buf :
  (length buf < fuel)%nat -> exists items, @AttrIter.collect E fuel buf = Ok items.
Proof.
  revert buf. induction fuel as [|fuel IH]; intros buf ?; [lia|]. simpl.
  destruct (@AttrIter.next E buf) as [[[x|] rest]| |] eqn:Hn;
    try (rewrite next_eq in Hn; done); simpl; [|eauto].
  apply next_shrinks_strict in Hn.
  destruct (IH rest) as [items ->]; [lia|]. simpl. eauto.
Qed.

Lemma collect_mono {E} fuel fuel' buf items :
  (fuel <= fuel')%nat -> @AttrIter.collect E fuel buf = Ok items ->
  @AttrIter.collect E fuel' buf = Ok items.
Proof.
  revert fuel' buf items. induction fuel as [|fuel IH]; intros fuel' buf items ? H; [done|].
  destruct fuel' as [|fuel']; [lia|]. simpl in *.
  destruct (AttrIter.next buf) as [[[x|] rest]| |]; simpl in *; try done.
  apply bind_ok in H as (xs & Hxs & ?). by rewrite (IH fuel' rest xs) by (done || lia).
Qed.

Lemma typed_decoders_total a :
  Attribute.as_encapsulated_protocol a <> Panic /\ Attribute.as_crypto_binding_req a <> Panic /\
  Attribute.as_crypto_binding a <> Panic /\ Attribute.as_status_info a <> Panic.
Proof.
  unfold Attribute.as_encapsulated_protocol, Attribute.as_crypto_binding_req,
    Attribute.as_crypto_binding, Attribute.as_status_info, CryptoBindingReq.VALUE_LEN,
    CryptoBinding.VALUE_LEN.
  split_and!; repeat (case_match; try done); run_ok; done.
Qed.

(** ** Encoding *)

(** [attr_header id n]: the four TLV header bytes with zero reserved bits. *)
Definition attr_header (id : AttributeId.t) (n : Z) : bytes := [0; AttributeId.as_u8 id] ++ to_be16 n.

Definition attr_bytes (a : Attribute.t) : bytes :=
  attr_header (Attribute.id a) (4 + len (Attribute.value a)) ++ Attribute.value a.

Definition attr_ok (a : Attribute.t) : Prop := 4 + len (Attribute.value a) <= SSTP_MAX_PACKET_LEN.

Lemma len_attr_header id n : length (attr_header id n) = 4%nat.
Proof. done. Qed.

#[export] Hint Rewrite len_attr_header : lens.

Lemma write_attr_header_ok {bp : BuildProfile} {E} buf id n :
  length buf = 4%nat -> 4 <= n <= 4095 ->
  @write_attr_header bp E buf id n = Ok (attr_header id n).
Proof.
  intros Hlen ?. unfold write_attr_header, as_u16, SSTP_MAX_PACKET_LEN, ATTR_HEADER_LEN.
  rewrite !debug_assert_ok by lia.
  change (4095 mod 65536) with 4095. rewrite land_12bit.
  rewrite (Z.mod_small n 65536), (Z.mod_small n 4096) by lia.
  by destruct buf as [|? [|? [|? [|? [|??]]]]].
Qed.

Lemma header_length_attr id n rest :
  0 <= n <= 4095 -> header_length (attr_header id n ++ rest) = n.
Proof.
  intros. unfold header_length, attr_header, byte_at; simpl.
  rewrite be16_to_be16, land_12bit by (unfold u16; lia). apply Z.mod_small. lia.
Qed.

Lemma next_attr_bytes {E} a rest :
  attr_ok a -> @AttrIter.next E (attr_bytes a ++ rest) = Ok (Some (inl a), rest).
Proof.
  unfold attr_ok, SSTP_MAX_PACKET_LEN. intros. rewrite next_eq. unfold attr_bytes.
  rewrite <- app_assoc, header_length_attr by lia.
  rewrite length_app, len_attr_header, length_app.
  repeat (case_match; [lia|]).
  change (byte_at _ 1) with (AttributeId.as_u8 (Attribute.id a)).
  rewrite AttributeId.attribute_id_roundtrip, sub_app_mid by len_lia.
  rewrite app_assoc, drop_app_length' by len_lia. by destruct a.
Qed.

Lemma collect_attrs {E} fuel attrs :
  Forall attr_ok attrs -> (length attrs < fuel)%nat ->
  @AttrIter.collect E fuel (concat (attr_bytes <$> attrs)) = Ok (inl <$> attrs).
Proof.
  intros Hok. revert fuel. induction Hok as [|a attrs Ha _ IH]; intros fuel ?;
    (destruct fuel as [|fuel]; [simpl in *; lia|]); [done|].
  rewrite fmap_cons, concat_cons. cbn [AttrIter.collect].
  rewrite next_attr_bytes by done. simpl. by rewrite IH by (simpl in *; lia).
Qed.

(** ** Properties *)

(** Iterating over the attributes of any byte string ends after at most one step per byte,
    without a panic, and iterating over an encoded attribute list gives back exactly that list. *)
Theorem attributes_iterate_and_read_back {E} :
  (forall buf, exists items, forall fuel, (length buf < fuel)%nat ->
     @AttrIter.collect E fuel buf = Ok items) /\
  (forall attrs fuel, Forall attr_ok attrs -> (length attrs < fuel)%nat ->
     @AttrIter.collect E fuel (concat (attr_bytes <$> attrs)) = Ok (inl <$> attrs)).
Proof.
  split; [|intros; by apply collect_attrs].
  intros buf. destruct (@collect_total E (S (length buf)) buf) as [items Hi]; [lia|].
  exists items. intros. apply (collect_mono (S (length buf))); [lia|done].
Qed.
