(* ===== verification/SstpMsg.v ===== *)
(** SSTP control messages: [src/src/sstp/msg.rs].

    Holds [ControlMessage], the typed parser [parse_control] and every message encoder.  Encoders
    take the caller's buffer and return it rewritten together with the number of bytes written.
    The theorems are that each encoder writes exactly one well-formed packet, that the server's own
    parser reads every encoded message back, and that an accepted [CallConnected] is 112 bytes. *)

From S2P Require Import Prelude SstpFrame SstpAttr.

Module ControlMessage.

Inductive t :=
| CallConnectRequest (protocol_id : Z)
| CallConnected (cb : CryptoBinding.t)
| CallDisconnect
| CallDisconnectAck
| EchoRequest
| EchoResponse
| CallAbort
| Other (pkt : ControlPacket.t).

End ControlMessage.

Definition parse_control (pkt : ControlPacket.t) : res ParseError ControlMessage.t :=
  match ControlPacket.msg_type pkt with
  | MessageType.CallConnectRequest =>
      '(item, it) ← AttrIter.next (ControlPacket.attrs pkt);
      match item with
      | None => Err (AttributeLength 0 0)
      | Some (inr e) => Err e
      | Some (inl first) =>
          proto ← Attribute.as_encapsulated_protocol first;
          '(item, _) ← AttrIter.next it;
          match item with
          | Some _ => Err (AttributeLength (len (ControlPacket.attrs pkt)) (ATTR_HEADER_LEN + 2))
          | None => Ok (ControlMessage.CallConnectRequest proto)
          end
      end
  | MessageType.CallConnected =>
      '(item, it) ← AttrIter.next (ControlPacket.attrs pkt);
      match item with
      | None => Err (AttributeLength 0 0)
      | Some (inr e) => Err e
      | Some (inl first) =>
          cb ← Attribute.as_crypto_binding first;
          '(item, _) ← AttrIter.next it;
          match item with
          | Some _ => Err (AttributeLength (len (ControlPacket.attrs pkt))
                             (ATTR_HEADER_LEN + CryptoBinding.VALUE_LEN))
          | None => Ok (ControlMessage.CallConnected cb)
          end
      end
  | MessageType.CallDisconnect => Ok ControlMessage.CallDisconnect
  | MessageType.CallDisconnectAck => Ok ControlMessage.CallDisconnectAck
  | MessageType.EchoRequest => Ok ControlMessage.EchoRequest
  | MessageType.EchoResponse => Ok ControlMessage.EchoResponse
  | MessageType.CallAbort => Ok ControlMessage.CallAbort
  | MessageType.CallConnectAck | MessageType.CallConnectNak => Ok (ControlMessage.Other pkt)
  end.

Definition parse_control_payload (payload : bytes) : res ParseError ControlMessage.t :=
  pkt ← ControlPacket.parse_body payload;
  parse_control pkt.

Definition CALL_CONNECT_ACK_LEN : Z := 48.
Definition CALL_CONNECTED_LEN : Z := 112.
Definition STATUS_INFO_FIXED_LEN : Z := ATTR_HEADER_LEN + 8.
Definition EMPTY_CONTROL_LEN : Z := SSTP_HEADER_LEN + SSTP_CONTROL_EXTRA_LEN.

Section Encoders.
Context {bp : BuildProfile} {E : Type}.

Definition write_control_extra (buf : bytes) (ty : MessageType.t) (num_attrs : Z) : res E bytes :=
  buf ← copy_slice buf 0 2 (to_be16 (MessageType.as_u16 ty));
  copy_slice buf 2 4 (to_be16 num_attrs).

Definition encode_call_connect_ack (out : bytes) (hash_bitmask : Z) (nonce : bytes)
    : res E (bytes * Z) :=
  _ ← assert_ (len out >=? CALL_CONNECT_ACK_LEN);
  out ← with_sub out 0 CALL_CONNECT_ACK_LEN (fun buf =>
    buf ← with_sub buf 0 SSTP_HEADER_LEN (fun h => write_header h true CALL_CONNECT_ACK_LEN);
    buf ← with_sub buf SSTP_HEADER_LEN (SSTP_HEADER_LEN + SSTP_CONTROL_EXTRA_LEN)
            (fun x => write_control_extra x MessageType.CallConnectAck 1);
    buf ← with_sub buf 8 12 (fun h =>
            write_attr_header h AttributeId.CryptoBindingReq
              (ATTR_HEADER_LEN + CryptoBindingReq.VALUE_LEN));
    buf ← set_at buf 12 0;
    buf ← set_at buf 13 0;
    buf ← set_at buf 14 0;
    buf ← set_at buf 15 hash_bitmask;
    copy_slice buf 16 48 nonce);
  Ok (out, CALL_CONNECT_ACK_LEN).

Definition write_status_info_attr (out : bytes) (attrib_id : Z) (status : StatusCode.t)
    : res E bytes :=
  _ ← debug_assert (len out >=? STATUS_INFO_FIXED_LEN);
  out ← with_sub out 0 ATTR_HEADER_LEN (fun h =>
          write_attr_header h AttributeId.StatusInfo STATUS_INFO_FIXED_LEN);
  out ← set_at out 4 0;
  out ← set_at out 5 0;
  out ← set_at out 6 0;
  out ← set_at out 7 attrib_id;
  copy_slice out 8 12 (to_be32 (StatusCode.as_u32 status)).

Definition encode_call_connect_nak (out : bytes) (offending_attr : Z) (status : StatusCode.t)
    : res E (bytes * Z) :=
  let total := EMPTY_CONTROL_LEN + STATUS_INFO_FIXED_LEN in
  _ ← assert_ (len out >=? total);
  out ← with_sub out 0 SSTP_HEADER_LEN (fun h => write_header h true total);
  out ← with_sub out SSTP_HEADER_LEN (SSTP_HEADER_LEN + SSTP_CONTROL_EXTRA_LEN)
          (fun x => write_control_extra x MessageType.CallConnectNak 1);
  out ← with_sub out EMPTY_CONTROL_LEN total
          (fun s => write_status_info_attr s offending_attr status);
  Ok (out, total).

Definition encode_status_info_message (out : bytes) (ty : MessageType.t)
    (status_info : option (Z * StatusCode.t)) : res E (bytes * Z) :=
  let total := EMPTY_CONTROL_LEN +
               match status_info with None => 0 | Some _ => STATUS_INFO_FIXED_LEN end in
  _ ← assert_ (len out >=? total);
  out ← with_sub out 0 SSTP_HEADER_LEN (fun h => write_header h true total);
  let num_attrs := match status_info with None => 0 | Some _ => 1 end in
  out ← with_sub out SSTP_HEADER_LEN (SSTP_HEADER_LEN + SSTP_CONTROL_EXTRA_LEN)
          (fun x => write_control_extra x ty num_attrs);
  out ← match status_info with
        | Some (attrib_id, status) =>
            with_sub out EMPTY_CONTROL_LEN total
              (fun s => write_status_info_attr s attrib_id status)
        | None => Ok out
        end;
  Ok (out, total).

Definition encode_call_abort (out : bytes) (status_info : option (Z * StatusCode.t))
    : res E (bytes * Z) :=
  encode_status_info_message out MessageType.CallAbort status_info.

Definition encode_call_disconnect (out : bytes) (include_status_info : bool) : res E (bytes * Z) :=
  let info := if include_status_info
              then Some (AttributeId.as_u8 AttributeId.NoError, StatusCode.NoError) else None in
  encode_status_info_message out MessageType.CallDisconnect info.

Definition encode_empty_control (out : bytes) (ty : MessageType.t) : res E (bytes * Z) :=
  _ ← assert_ (match ty with
               | MessageType.CallDisconnectAck | MessageType.EchoRequest
               | MessageType.EchoResponse => true
               | _ => false
               end);
  _ ← assert_ (len out >=? EMPTY_CONTROL_LEN);
  out ← with_sub out 0 SSTP_HEADER_LEN (fun h => write_header h true EMPTY_CONTROL_LEN);
  out ← with_sub out SSTP_HEADER_LEN EMPTY_CONTROL_LEN (fun x => write_control_extra x ty 0);
  Ok (out, EMPTY_CONTROL_LEN).

Definition encode_call_connected_pre_mac (out : bytes) (hash_protocol : Z)
    (nonce cert_hash : bytes) : res E bytes :=
  _ ← debug_assert ((len cert_hash =? 20) || (len cert_hash =? 32));
  _ ← debug_assert ((hash_protocol =? CERT_HASH_PROTOCOL_SHA1)
                    || (hash_protocol =? CERT_HASH_PROTOCOL_SHA256));
  out ← with_sub out 0 SSTP_HEADER_LEN (fun h => write_header h true CALL_CONNECTED_LEN);
  out ← with_sub out SSTP_HEADER_LEN (SSTP_HEADER_LEN + SSTP_CONTROL_EXTRA_LEN)
          (fun x => write_control_extra x MessageType.CallConnected 1);
  out ← with_sub out 8 12 (fun h =>
          write_attr_header h AttributeId.CryptoBinding
            (ATTR_HEADER_LEN + CryptoBinding.VALUE_LEN));
  out ← set_at out 12 0;
  out ← set_at out 13 0;
  out ← set_at out 14 0;
  out ← set_at out 15 hash_protocol;
  out ← copy_slice out 16 48 nonce;
  out ← with_sub out 48 80 (fun field =>
          field ← copy_slice field 0 (len cert_hash) cert_hash;
          fill_slice field (len cert_hash) 32 0);
  fill_slice out 80 112 0.

Definition install_compound_mac (buf mac : bytes) : res E bytes :=
  _ ← debug_assert ((len mac =? 20) || (len mac =? 32));
  with_sub buf 80 112 (fun mac_field =>
    mac_field ← fill_slice mac_field 0 32 0;
    copy_slice mac_field 0 (len mac) mac).

End Encoders.

(** ** What the encoders write *)

(** A control message: its type and its attribute list. *)
Definition control_packet (ty : MessageType.t) (attrs : list Attribute.t) : Packet.t :=
  Packet.Control {| ControlPacket.msg_type := ty;
                    ControlPacket.num_attrs := len attrs;
                    ControlPacket.attrs := concat (attr_bytes <$> attrs) |}.

Definition message_bytes (ty : MessageType.t) (attrs : list Attribute.t) : bytes :=
  packet_bytes 0 0 (control_packet ty attrs).

(** The message sits at the front of the buffer, the rest of the buffer is untouched. *)
Definition written (out : bytes) (ty : MessageType.t) (attrs : list Attribute.t) : bytes * Z :=
  (message_bytes ty attrs ++ drop (length (message_bytes ty attrs)) out,
   len (message_bytes ty attrs)).

Definition status_info_attr (info : Z * StatusCode.t) : Attribute.t :=
  {| Attribute.id := AttributeId.StatusInfo;
     Attribute.value := [0; 0; 0; info.1] ++ to_be32 (StatusCode.as_u32 info.2) |}.

Definition binding_req_attr (hash_bitmask : Z) (nonce : bytes) : Attribute.t :=
  {| Attribute.id := AttributeId.CryptoBindingReq;
     Attribute.value := [0; 0; 0; hash_bitmask] ++ nonce |}.

Definition pad32 (h : bytes) : bytes := h ++ replicate (32 - length h) 0.

Definition binding_attr (hash_protocol : Z) (nonce cert_hash mac : bytes) : Attribute.t :=
  {| Attribute.id := AttributeId.CryptoBinding;
     Attribute.value := [0; 0; 0; hash_protocol] ++ nonce ++ pad32 cert_hash ++ pad32 mac |}.

Lemma length_message_bytes ty attrs :
  length (message_bytes ty attrs) = (8 + length (concat (attr_bytes <$> attrs)))%nat.
Proof. done. Qed.

Lemma length_attr_bytes a : length (attr_bytes a) = (4 + length (Attribute.value a))%nat.
Proof. done. Qed.

Lemma message_bytes_one ty a n :
  n = 4 + len (Attribute.value a) ->
  message_bytes ty [a] =
  header true (8 + n) ++ (to_be16 (MessageType.as_u16 ty) ++ to_be16 1) ++
  attr_header (Attribute.id a) n ++ Attribute.value a.
Proof.
  intros ->. unfold message_bytes, packet_bytes, control_packet, packet_body, control_body,
    attr_bytes, header; cbn [is_control ControlPacket.msg_type ControlPacket.num_attrs
    ControlPacket.attrs fmap list_fmap concat].
  rewrite !app_nil_r, !length_app, len_attr_header, !len_to_be16.
  replace (0 * 4096 + (4 + Z.of_nat (2 + (2 + (4 + length (Attribute.value a))))))
    with (8 + (4 + len (Attribute.value a))) by lia.
  by rewrite <- !app_assoc.
Qed.

#[export] Hint Rewrite length_message_bytes length_attr_bytes : lens.

Section Encoders_lemmas.
Context {bp : BuildProfile} {E : Type}.

Lemma write_control_extra_ok buf ty n :
  length buf = 4%nat ->
  @write_control_extra E buf ty n = Ok (to_be16 (MessageType.as_u16 ty) ++ to_be16 n).
Proof. intros. by destruct buf as [|? [|? [|? [|? [|??]]]]]. Qed.

Lemma put_header w r lo hi c n :
  lo = len w -> hi = len w + 4 -> 4 <= len r -> 0 <= n <= 4095 ->
  @with_sub E (w ++ r) lo hi (fun h => write_header h c n) = Ok ((w ++ header c n) ++ drop 4 r).
Proof.
  intros. rewrite with_sub_app with (v := header c n); try done; try len_lia.
  apply write_header_ok; len_lia.
Qed.

Lemma put_attr_header w r lo hi id n :
  lo = len w -> hi = len w + 4 -> 4 <= len r -> 4 <= n <= 4095 ->
  @with_sub E (w ++ r) lo hi (fun h => write_attr_header h id n)
  = Ok ((w ++ attr_header id n) ++ drop 4 r).
Proof.
  intros. rewrite with_sub_app with (v := attr_header id n); try done; try len_lia.
  apply write_attr_header_ok; len_lia.
Qed.

Lemma put_control_extra w r lo hi ty n :
  lo = len w -> hi = len w + 4 -> 4 <= len r ->
  @with_sub E (w ++ r) lo hi (fun x => write_control_extra x ty n)
  = Ok ((w ++ to_be16 (MessageType.as_u16 ty) ++ to_be16 n) ++ drop 4 r).
Proof.
  intros. rewrite with_sub_app with (v := to_be16 (MessageType.as_u16 ty) ++ to_be16 n);
    try done; try len_lia.
  apply write_control_extra_ok. len_lia.
Qed.

(** [put_all] runs a sequence of writes that fills the buffer from left to right. *)
Ltac put_all :=
  repeat (first
    [ rewrite put_header by len_lia | rewrite put_attr_header by len_lia
    | rewrite put_control_extra by len_lia | rewrite set_at_app by len_lia
    | rewrite copy_slice_app by len_lia ]; cbn [mbind res_bind]).

Lemma write_status_info_attr_ok out attrib_id status :
  length out = 12%nat ->
  @write_status_info_attr bp E out attrib_id status
  = Ok (attr_bytes (status_info_attr (attrib_id, status))).
Proof.
  intros. unfold write_status_info_attr, STATUS_INFO_FIXED_LEN, ATTR_HEADER_LEN.
  rewrite debug_assert_ok by lia. change out with ([] ++ out). put_all.
  rewrite !drop_drop, drop_ge by len_lia. by rewrite app_nil_r.
Qed.

Lemma put_status_info w r lo hi attrib_id status :
  lo = len w -> hi = len w + 12 -> 12 <= len r ->
  @with_sub E (w ++ r) lo hi (fun s => write_status_info_attr s attrib_id status)
  = Ok ((w ++ attr_bytes (status_info_attr (attrib_id, status))) ++ drop 12 r).
Proof.
  intros. rewrite with_sub_app with (v := attr_bytes (status_info_attr (attrib_id, status)));
    try done; try len_lia.
  apply write_status_info_attr_ok. change (length (attr_bytes _)) with 12%nat. len_lia.
Qed.

Lemma encode_call_connect_ack_ok out hash_bitmask nonce :
  48 <= len out -> length nonce = 32%nat ->
  @encode_call_connect_ack bp E out hash_bitmask nonce
  = Ok (written out MessageType.CallConnectAck [binding_req_attr hash_bitmask nonce]).
Proof.
  intros Ho Hn. unfold encode_call_connect_ack.
  rewrite assert_ok by (unfold CALL_CONNECT_ACK_LEN; lia). cbn [mbind res_bind].
  set (v := message_bytes MessageType.CallConnectAck [binding_req_attr hash_bitmask nonce]).
  assert (Hv : length v = 48%nat).
  { subst v. rewrite length_message_bytes. simpl. rewrite app_nil_r. lia. }
  change out with ([] ++ out). rewrite with_sub_app with (v := v); rewrite ?Hv; try done; try len_lia.
  2: { change (take 48 out) with ([] ++ take 48 out).
       unfold SSTP_HEADER_LEN, SSTP_CONTROL_EXTRA_LEN, CALL_CONNECT_ACK_LEN, ATTR_HEADER_LEN,
         CryptoBindingReq.VALUE_LEN.
       put_all. rewrite !drop_drop, drop_ge, app_nil_r by len_lia.
       unfold v. rewrite (message_bytes_one _ _ 40) by (simpl; lia).
       by rewrite <- !app_assoc. }
  unfold written. fold v. by rewrite Hv.
Qed.

Lemma encode_call_connect_nak_ok out attrib_id status :
  20 <= len out ->
  @encode_call_connect_nak bp E out attrib_id status
  = Ok (written out MessageType.CallConnectNak [status_info_attr (attrib_id, status)]).
Proof.
  intros. unfold encode_call_connect_nak, EMPTY_CONTROL_LEN, STATUS_INFO_FIXED_LEN,
    SSTP_HEADER_LEN, SSTP_CONTROL_EXTRA_LEN, ATTR_HEADER_LEN.
  rewrite assert_ok by lia. change out with ([] ++ out) at 1. cbn [mbind res_bind]. put_all.
  rewrite put_status_info by len_lia. cbn [mbind res_bind]. by rewrite !drop_drop.
Qed.

Lemma encode_status_info_message_ok out ty info :
  8 <= len out -> (info <> None -> 20 <= len out) ->
  @encode_status_info_message bp E out ty info
  = Ok (written out ty (option_list (status_info_attr <$> info))).
Proof.
  intros Ho1 Ho2. unfold encode_status_info_message, EMPTY_CONTROL_LEN, STATUS_INFO_FIXED_LEN,
    SSTP_HEADER_LEN, SSTP_CONTROL_EXTRA_LEN, ATTR_HEADER_LEN.
  change out with ([] ++ out) at 1. destruct info as [[i s]|].
  - assert (20 <= len out) by auto. rewrite assert_ok by lia. cbn [mbind res_bind]. put_all.
    rewrite put_status_info by len_lia. cbn [mbind res_bind]. by rewrite !drop_drop.
  - rewrite assert_ok by lia. cbn [mbind res_bind]. put_all. by rewrite !drop_drop.
Qed.

Lemma encode_empty_control_ok out ty :
  8 <= len out ->
  ty = MessageType.CallDisconnectAck \/ ty = MessageType.EchoRequest \/ ty = MessageType.EchoResponse ->
  @encode_empty_control bp E out ty = Ok (written out ty []).
Proof.
  intros Ho Hty. unfold encode_empty_control, EMPTY_CONTROL_LEN, SSTP_HEADER_LEN,
    SSTP_CONTROL_EXTRA_LEN.
  rewrite (assert_ok (len out >=? 4 + 4)) by lia. change out with ([] ++ out) at 1.
  destruct Hty as [-> | [-> | ->]]; cbn [mbind res_bind assert_]; put_all; by rewrite !drop_drop.
Qed.

Lemma fill_slice_app w r lo hi b :
  lo = len w -> len w <= hi -> hi - len w <= len r ->
  @fill_slice E (w ++ r) lo hi b
  = Ok ((w ++ replicate (Z.to_nat (hi - lo)) b) ++ drop (Z.to_nat (hi - lo)) r).
Proof.
  intros -> ??. unfold fill_slice. rewrite copy_slice_app by len_lia.
  by rewrite length_replicate.
Qed.

Lemma length_pad32 h : (length h <= 32)%nat -> length (pad32 h) = 32%nat.
Proof. intros. unfold pad32. len_lia. Qed.

Lemma put_padded w r lo hi h :
  lo = len w -> hi = len w + 32 -> len h <= 32 -> 32 <= len r ->
  @with_sub E (w ++ r) lo hi (fun field =>
    field ← copy_slice field 0 (len h) h;
    fill_slice field (len h) 32 0) = Ok ((w ++ pad32 h) ++ drop 32 r).
Proof.
  intros. pose proof (length_pad32 h) as Hp.
  rewrite with_sub_app with (v := pad32 h); rewrite ?Hp by lia; try done; try lia.
  change (take 32 r) with ([] ++ take 32 r).
  rewrite copy_slice_app by len_lia. cbn [mbind res_bind].
  rewrite fill_slice_app by len_lia.
  rewrite drop_drop, drop_ge, app_nil_r by len_lia. unfold pad32.
  by replace (Z.to_nat (32 - len h)) with (32 - length h)%nat by lia.
Qed.

Lemma encode_call_connected_pre_mac_ok out hash_protocol nonce cert_hash :
  length out = 112%nat -> length nonce = 32%nat ->
  (length cert_hash = 20 \/ length cert_hash = 32)%nat ->
  hash_protocol = CERT_HASH_PROTOCOL_SHA1 \/ hash_protocol = CERT_HASH_PROTOCOL_SHA256 ->
  @encode_call_connected_pre_mac bp E out hash_protocol nonce cert_hash
  = Ok (message_bytes MessageType.CallConnected [binding_attr hash_protocol nonce cert_hash []]).
Proof.
  intros Ho Hn Hc Hh. unfold encode_call_connected_pre_mac.
  rewrite !debug_assert_ok by (unfold CERT_HASH_PROTOCOL_SHA1, CERT_HASH_PROTOCOL_SHA256 in *; lia).
  cbn [mbind res_bind]. change out with ([] ++ out).
  unfold SSTP_HEADER_LEN, SSTP_CONTROL_EXTRA_LEN, CALL_CONNECTED_LEN, ATTR_HEADER_LEN,
    CryptoBinding.VALUE_LEN.
  put_all.
  rewrite put_padded by len_lia. cbn [mbind res_bind].
  assert (length (pad32 cert_hash) = 32%nat) as Hpc by (apply length_pad32; lia).
  rewrite fill_slice_app by len_lia.
  rewrite !drop_drop, drop_ge, app_nil_r by len_lia.
  rewrite (message_bytes_one _ _ 104)
    by (simpl; rewrite !length_app, Hpc, Hn; simpl; lia).
  by rewrite <- !app_assoc.
Qed.

End Encoders_lemmas.

(** ** Reading messages back *)

Lemma parse_message_bytes ty attrs rest :
  len (message_bytes ty attrs) <= SSTP_MAX_PACKET_LEN -> len attrs < 65536 ->
  Packet.parse (message_bytes ty attrs ++ rest)
  = Ok (control_packet ty attrs, len (message_bytes ty attrs)).
Proof.
  intros Hl Ha. unfold message_bytes. rewrite parse_packet_bytes; [..|split].
  - f_equal. f_equal. unfold packet_bytes. len_lia.
  - lia.
  - lia.
  - revert Hl. unfold message_bytes, packet_bytes. rewrite !length_app, len_to_be16.
    simpl length. lia.
  - simpl. unfold u16. lia.
Qed.

Lemma as_status_info_attr i s :
  Attribute.as_status_info (status_info_attr (i, s))
  = Ok {| StatusInfo.attrib_id := i; StatusInfo.status := StatusCode.as_u32 s;
          StatusInfo.attrib_value := [] |}.
Proof. by destruct s. Qed.

Lemma as_crypto_binding_req_attr m nonce :
  length nonce = 32%nat ->
  Attribute.as_crypto_binding_req (binding_req_attr m nonce)
  = Ok {| CryptoBindingReq.hash_bitmask := m; CryptoBindingReq.nonce := nonce |}.
Proof.
  intros Hn. unfold Attribute.as_crypto_binding_req, binding_req_attr, CryptoBindingReq.VALUE_LEN.
  cbn [Attribute.id Attribute.value]. rewrite bool_decide_true by done. cbn [negb].
  rewrite length_app, Hn. cbn [length negb Nat.add]. change (negb _) with false. cbn iota.
  run_ok. change (byte_at _ 3) with m. by rewrite sub_app_r by len_lia.
Qed.

Lemma as_crypto_binding_attr hp nonce ch mac :
  length nonce = 32%nat -> (length ch <= 32)%nat -> (length mac <= 32)%nat ->
  Attribute.as_crypto_binding (binding_attr hp nonce ch mac)
  = Ok {| CryptoBinding.hash_protocol := hp; CryptoBinding.nonce := nonce;
          CryptoBinding.cert_hash_block := pad32 ch; CryptoBinding.compound_mac_block := pad32 mac |}.
Proof.
  intros Hn Hc Hm. apply length_pad32 in Hc, Hm.
  unfold Attribute.as_crypto_binding, binding_attr, CryptoBinding.VALUE_LEN.
  cbn [Attribute.id Attribute.value]. rewrite bool_decide_true by done. cbn [negb].
  rewrite !length_app, Hn, Hc, Hm. cbn [length Nat.add]. change (negb _) with false. cbn iota.
  run_ok. change (byte_at _ 3) with hp.
  rewrite (sub_app_mid _ nonce) by len_lia. rewrite (app_assoc _ nonce).
  rewrite (sub_app_mid _ (pad32 ch)) by len_lia. rewrite (app_assoc _ (pad32 ch)).
  by rewrite (sub_app_r _ (pad32 mac)) by len_lia.
Qed.

Lemma parse_control_connected hp nonce ch mac :
  length nonce = 32%nat -> (length ch <= 32)%nat -> (length mac <= 32)%nat ->
  parse_control {| ControlPacket.msg_type := MessageType.CallConnected;
                   ControlPacket.num_attrs := 1;
                   ControlPacket.attrs := attr_bytes (binding_attr hp nonce ch mac) |}
  = Ok (ControlMessage.CallConnected
          {| CryptoBinding.hash_protocol := hp; CryptoBinding.nonce := nonce;
             CryptoBinding.cert_hash_block := pad32 ch;
             CryptoBinding.compound_mac_block := pad32 mac |}).
Proof.
  intros Hn Hc Hm. unfold parse_control. cbn [ControlPacket.msg_type ControlPacket.attrs].
  rewrite <- (app_nil_r (attr_bytes _)) at 1. rewrite next_attr_bytes; cbn [mbind res_bind].
  - by rewrite as_crypto_binding_attr.
  - apply length_pad32 in Hc, Hm. unfold attr_ok, binding_attr, SSTP_MAX_PACKET_LEN; simpl.
    rewrite !length_app, Hn, Hc, Hm. simpl. lia.
Qed.

(** [parse_control] on the two messages with a mandatory attribute: exactly one attribute, of the
    right kind and size, and nothing after it. *)

Lemma next_none {E} buf rest : @AttrIter.next E buf = Ok (None, rest) -> buf = [].
Proof. rewrite next_eq. destruct buf; repeat case_match; intros; simplify_eq; done. Qed.

Lemma next_some_inv {E} buf a rest :
  @AttrIter.next E buf = Ok (Some (inl a), rest) ->
  len buf = 4 + len (Attribute.value a) + len rest /\
  Attribute.value a = sub buf 4 (4 + len (Attribute.value a)) /\
  byte_at buf 1 = AttributeId.as_u8 (Attribute.id a).
Proof.
  rewrite next_eq. destruct (len buf =? 0) eqn:?; [done|]. destruct (len buf <? 4) eqn:?; [done|].
  destruct (_ || _) eqn:?; [done|].
  destruct (AttributeId.from_u8 (byte_at buf 1)) as [i|] eqn:Hi; intros; simplify_eq/=.
  pose proof (len_sub buf 4 (header_length buf)) as Hl. rewrite Hl by lia.
  split_and!; [len_lia | f_equal; lia |].
  unfold AttributeId.from_u8 in Hi. repeat case_match; simplify_eq; done.
Qed.

Lemma parse_control_connected_inv pkt cb :
  parse_control pkt = Ok (ControlMessage.CallConnected cb) ->
  ControlPacket.msg_type pkt = MessageType.CallConnected /\
  len (ControlPacket.attrs pkt) = 104 /\
  cb = {| CryptoBinding.hash_protocol := byte_at (ControlPacket.attrs pkt) 7;
          CryptoBinding.nonce := sub (ControlPacket.attrs pkt) 8 40;
          CryptoBinding.cert_hash_block := sub (ControlPacket.attrs pkt) 40 72;
          CryptoBinding.compound_mac_block := sub (ControlPacket.attrs pkt) 72 104 |}.
Proof.
  unfold parse_control. destruct (ControlPacket.msg_type pkt); try done.
  { intros H. apply bind_ok in H as ([item it] & Hn & H).
    destruct item as [[a|]|]; try done. apply bind_ok in H as (? & _ & H).
    apply bind_ok in H as ([[]] & _ & H); done. }
  intros H. apply bind_ok in H as ([item it] & Hn & H).
  destruct item as [[a|]|]; try done. apply bind_ok in H as (cb' & Hcb & H).
  apply bind_ok in H as ([[] r] & Hn2 & H); try done. simplify_eq.
  apply next_none in Hn2 as ->. apply next_some_inv in Hn as (Hl & Hv & _).
  split; [done|]. revert Hcb. unfold Attribute.as_crypto_binding, CryptoBinding.VALUE_LEN.
  case_match; [done|]. destruct (negb (len (Attribute.value a) =? 100)) eqn:Hlen; [done|].
  assert (len (Attribute.value a) = 100) as Hlv by lia. rewrite Hlv in *.
  intros Hcb. run_ok_in Hcb. simplify_eq. split; [simpl in Hl; lia|].
  by rewrite Hv, !sub_sub, byte_at_sub by lia.
Qed.

(** An accepted [CallConnected] fills the packet: 112 bytes, the Crypto Binding fields at fixed
    offsets. *)
Lemma call_connected_packet buf ctrl n cb :
  Packet.parse buf = Ok (Packet.Control ctrl, n) ->
  parse_control ctrl = Ok (ControlMessage.CallConnected cb) ->
  n = CALL_CONNECTED_LEN /\ CALL_CONNECTED_LEN <= len buf /\
  cb = {| CryptoBinding.hash_protocol := byte_at buf 15;
          CryptoBinding.nonce := sub buf 16 48;
          CryptoBinding.cert_hash_block := sub buf 48 80;
          CryptoBinding.compound_mac_block := sub buf 80 112 |}.
Proof.
  intros Hp Hc. pose proof (parse_length _ _ _ Hp) as Hn.
  destruct (proj2 (parse_total buf) _ _ Hp) as [? _].
  apply parse_control_connected_inv in Hc as (_ & Hl & ->).
  rewrite parse_eq, <- Hn, parse_body_eq in Hp.
  repeat case_match; simplify_eq/=. simpl in *.
  assert (Hs : len (sub buf 4 (header_length buf)) = header_length buf - 4) by (apply len_sub; lia).
  assert (header_length buf = 112) as Hh by len_lia. rewrite Hh in *. unfold CALL_CONNECTED_LEN.
  replace (drop 4 (sub buf 4 112)) with (sub buf 8 112).
  2: { change 4%nat with (Z.to_nat 4).
       by rewrite <- (sub_to_end _ 4 108), sub_sub by (rewrite ?len_sub; lia). }
  split; [done|]. split; [lia|]. by rewrite !sub_sub, byte_at_sub by lia.
Qed.

Lemma next_ok {E} buf : exists item rest, @AttrIter.next E buf = Ok (item, rest).
Proof. rewrite next_eq. case_match; eauto. repeat case_match; eauto. Qed.

Lemma parse_control_total pkt : parse_control pkt <> Panic.
Proof.
  unfold parse_control. destruct (ControlPacket.msg_type pkt); try done.
  all: destruct (@next_ok ParseError (ControlPacket.attrs pkt)) as ([[a|e]|] & it & ->);
         cbn [mbind res_bind]; try done.
  all: destruct (typed_decoders_total a) as (? & _ & ? & _).
  all: apply bind_not_panic; [done|]; intros; cbv beta.
  all: by destruct (@next_ok ParseError it) as ([] & ? & ->).
Qed.

Lemma put_mac {E} w r lo hi mac :
  lo = len w -> hi = len w + 32 -> len mac <= 32 -> 32 <= len r ->
  @with_sub E (w ++ r) lo hi (fun field =>
    field ← fill_slice field 0 32 0;
    copy_slice field 0 (len mac) mac) = Ok ((w ++ pad32 mac) ++ drop 32 r).
Proof.
  intros. pose proof (length_pad32 mac) as Hp.
  rewrite with_sub_app with (v := pad32 mac); rewrite ?Hp by lia; try done; try lia.
  change (take 32 r) with ([] ++ take 32 r). rewrite fill_slice_app by len_lia.
  cbn [mbind res_bind app]. rewrite drop_ge, app_nil_r by len_lia.
  change (replicate _ 0) with ([] ++ replicate 32 0). rewrite copy_slice_app by len_lia.
  unfold pad32. by rewrite drop_replicate.
Qed.

Lemma install_compound_mac_ok {bp : BuildProfile} {E} hp nonce ch mac :
  length nonce = 32%nat -> (length ch <= 32)%nat -> (length mac = 20 \/ length mac = 32)%nat ->
  @install_compound_mac bp E
    (message_bytes MessageType.CallConnected [binding_attr hp nonce ch []]) mac
  = Ok (message_bytes MessageType.CallConnected [binding_attr hp nonce ch mac]).
Proof.
  intros Hn Hc Hm. unfold install_compound_mac. rewrite debug_assert_ok by lia.
  apply length_pad32 in Hc. cbn [mbind res_bind].
  assert (Hpm : length (pad32 mac) = 32%nat) by (apply length_pad32; lia).
  assert (Hp0 : length (pad32 []) = 32%nat) by done.
  assert (forall m, length (pad32 m) = 32%nat ->
    message_bytes MessageType.CallConnected [binding_attr hp nonce ch m] =
    (header true 112 ++ (to_be16 (MessageType.as_u16 MessageType.CallConnected) ++ to_be16 1) ++
     attr_header AttributeId.CryptoBinding 104 ++ [0; 0; 0; hp] ++ nonce ++ pad32 ch) ++ pad32 m) as Hb.
  { intros m Hm'. rewrite (message_bytes_one _ _ 104)
      by (simpl; rewrite !length_app, Hm', Hc, Hn; simpl; lia).
    by rewrite <- !app_assoc. }
  rewrite !Hb by done. rewrite put_mac by len_lia.
  by rewrite drop_ge, app_nil_r.
Qed.

(** ** Properties *)

(** A Call Connected the server accepts occupies exactly 112 bytes, so the fixed offsets at
    which the driver zeroes the Compound MAC (80..112) are the offsets of the MAC field, and the
    parsed binding is the bytes at the offsets of [MS-SSTP] 2.2.11. *)
Theorem call_connected_has_fixed_layout buf ctrl n cb :
  Packet.parse buf = Ok (Packet.Control ctrl, n) ->
  parse_control ctrl = Ok (ControlMessage.CallConnected cb) ->
  n = CALL_CONNECTED_LEN /\ CALL_CONNECTED_LEN <= len buf /\
  cb = {| CryptoBinding.hash_protocol := byte_at buf 15;
          CryptoBinding.nonce := sub buf 16 48;
          CryptoBinding.cert_hash_block := sub buf 48 80;
          CryptoBinding.compound_mac_block := sub buf 80 112 |}.
Proof. apply call_connected_packet. Qed.

Lemma call_connected_has_fixed_layout_witness :
  let attr := binding_attr 2 (replicate 32 7) (replicate 32 1) (replicate 32 5) in
  let buf := message_bytes MessageType.CallConnected [attr] in
  let cb := {| CryptoBinding.hash_protocol := 2; CryptoBinding.nonce := replicate 32 7;
               CryptoBinding.cert_hash_block := replicate 32 1;
               CryptoBinding.compound_mac_block := replicate 32 5 |} in
  112 = CALL_CONNECTED_LEN /\ CALL_CONNECTED_LEN <= len buf /\
  cb = {| CryptoBinding.hash_protocol := byte_at buf 15;
          CryptoBinding.nonce := sub buf 16 48;
          CryptoBinding.cert_hash_block := sub buf 48 80;
          CryptoBinding.compound_mac_block := sub buf 80 112 |}.
Proof.
  intros attr buf cb.
  apply (call_connected_has_fixed_layout buf
           {| ControlPacket.msg_type := MessageType.CallConnected; ControlPacket.num_attrs := 1;
              ControlPacket.attrs := attr_bytes attr |} 112 cb).
  - vm_compute. reflexivity.
  - vm_compute. reflexivity.
Defined.

(** The Call Connected encoders and the server's parser agree: encoding a binding, installing
    the Compound MAC and parsing the packet gives back the hash protocol, nonce, certificate hash
    and MAC, the two hashes padded to 32 bytes. *)
Theorem call_connected_roundtrip {bp : BuildProfile} hp nonce ch mac out rest :
  length out = 112%nat -> length nonce = 32%nat -> (length ch = 20 \/ length ch = 32)%nat ->
  (length mac = 20 \/ length mac = 32)%nat ->
  hp = CERT_HASH_PROTOCOL_SHA1 \/ hp = CERT_HASH_PROTOCOL_SHA256 ->
  exists pre buf ctrl,
    encode_call_connected_pre_mac (E := ()) out hp nonce ch = Ok pre /\
    install_compound_mac (E := ()) pre mac = Ok buf /\
    Packet.parse (buf ++ rest) = Ok (Packet.Control ctrl, CALL_CONNECTED_LEN) /\
    parse_control ctrl = Ok (ControlMessage.CallConnected
      {| CryptoBinding.hash_protocol := hp; CryptoBinding.nonce := nonce;
         CryptoBinding.cert_hash_block := pad32 ch;
         CryptoBinding.compound_mac_block := pad32 mac |}).
Proof.
  intros Ho Hn Hc Hm Hh. do 3 eexists. split_and!.
  - by apply encode_call_connected_pre_mac_ok.
  - apply install_compound_mac_ok; [done|lia|done].
  - assert (Hl : length (message_bytes MessageType.CallConnected [binding_attr hp nonce ch mac])
                 = 112%nat).
    { rewrite length_message_bytes. simpl. rewrite app_nil_r, !length_app, !length_pad32, Hn; lia. }
    rewrite parse_message_bytes, Hl; [done| |done]. unfold SSTP_MAX_PACKET_LEN. lia.
  - cbn [fmap list_fmap concat]. rewrite app_nil_r. apply parse_control_connected; lia.
Qed.

Lemma call_connected_roundtrip_witness :
  exists pre buf ctrl,
    encode_call_connected_pre_mac (bp := true) (E := ()) (zeros 112) 1 (replicate 32 7)
      (replicate 20 1) = Ok pre /\
    install_compound_mac (bp := true) (E := ()) pre (replicate 20 5) = Ok buf /\
    Packet.parse (buf ++ [0xff]) = Ok (Packet.Control ctrl, CALL_CONNECTED_LEN) /\
    parse_control ctrl = Ok (ControlMessage.CallConnected
      {| CryptoBinding.hash_protocol := 1; CryptoBinding.nonce := replicate 32 7;
         CryptoBinding.cert_hash_block := pad32 (replicate 20 1);
         CryptoBinding.compound_mac_block := pad32 (replicate 20 5) |}).
Proof. apply (call_connected_roundtrip (bp := true)); by auto. Defined.

(** Parsing a control packet the framing accepted never panics, whatever attributes the peer put in
    it. *)
Lemma parse_control_payload_total payload : parse_control_payload payload <> Panic.
Proof.
  unfold parse_control_payload. apply bind_not_panic; [|intros; apply parse_control_total].
  rewrite parse_body_eq. repeat case_match; done.
Qed.
