(* ===== verification/Crypto.v ===== *)
(** The in-tree cryptography wrappers the SSTP layer calls: [src/src/crypto/mod.rs]
    ([const_time_eq]) and [src/src/crypto/hmac.rs] (the HMAC types and the CMK derivation).

    The primitives themselves are AWS-LC's, reached through FFI: the class [AwsLc] has one field per
    foreign function used, and [AwsLcLaws] states what AWS-LC documents about them. *)

From S2P Require Import Prelude.

Inductive Md := Sha1 | Sha256 | Sha384.

Definition SHA1_OUTPUT_LEN : Z := 20.
Definition SHA256_OUTPUT_LEN : Z := 32.
Definition SHA384_OUTPUT_LEN : Z := 48.

Definition md_len (md : Md) : Z :=
  match md with
  | Sha1 => SHA1_OUTPUT_LEN
  | Sha256 => SHA256_OUTPUT_LEN
  | Sha384 => SHA384_OUTPUT_LEN
  end.

Class AwsLc := {
  HMAC_CTX : Type;
  HMAC_Init_ex : Md -> bytes -> HMAC_CTX;
  HMAC_Update : HMAC_CTX -> bytes -> HMAC_CTX;
  HMAC_Final : HMAC_CTX -> bytes;
  HMAC : Md -> bytes -> bytes -> bytes;
  CRYPTO_memcmp : bytes -> bytes -> Z
}.

(** Documented behaviour: the incremental interface computes the one-shot HMAC of the concatenated
    data, a MAC has the digest's length, and [CRYPTO_memcmp] returns zero exactly on equal inputs. *)
Class AwsLcLaws (lib : AwsLc) := {
  HMAC_incremental md key chunks :
    HMAC_Final (fold_left HMAC_Update chunks (HMAC_Init_ex md key)) = HMAC md key (concat chunks);
  HMAC_length md key data : len (HMAC md key data) = md_len md;
  CRYPTO_memcmp_spec a b : length a = length b -> CRYPTO_memcmp a b = 0 <-> a = b
}.

Section Crypto.
Context {lib : AwsLc}.

Definition const_time_eq (a b : bytes) : bool :=
  if negb (len a =? len b) then false
  else if len a =? 0 then true
  else CRYPTO_memcmp a b =? 0.

(** [HmacSha1] / [HmacSha256] / [HmacSha384]: [new], [update], [finish], [oneshot]. *)
Definition hmac_new (md : Md) (key : bytes) : HMAC_CTX := HMAC_Init_ex md key.

Definition hmac_update (ctx : HMAC_CTX) (data : bytes) : HMAC_CTX :=
  if len data =? 0 then ctx else HMAC_Update ctx data.

Definition hmac_finish (ctx : HMAC_CTX) : bytes := HMAC_Final ctx.

Definition hmac_oneshot (md : Md) (key data : bytes) : bytes := HMAC md key data.

Definition to_le16 (v : Z) : bytes := [v mod 256; v / 256 mod 256].

Definition prf_plus_sha1_cmk (key seed : bytes) : bytes :=
  let len_le := to_le16 (as_u16 SHA1_OUTPUT_LEN) in
  let h := hmac_new Sha1 key in
  let h := hmac_update h seed in
  let h := hmac_update h len_le in
  let h := hmac_update h [0x01] in
  hmac_finish h.

Definition prf_plus_sha256_cmk (key seed : bytes) : bytes :=
  let len_le := to_le16 (as_u16 SHA256_OUTPUT_LEN) in
  let h := hmac_new Sha256 key in
  let h := hmac_update h seed in
  let h := hmac_update h len_le in
  let h := hmac_update h [0x01] in
  hmac_finish h.

Context {laws : AwsLcLaws lib}.

Lemma const_time_eq_true a b : const_time_eq a b = true <-> a = b.
Proof.
  unfold const_time_eq. destruct (len a =? len b) eqn:Hl; simpl.
  - destruct (len a =? 0) eqn:H0.
    + destruct a, b; simpl in *; try lia. done.
    + rewrite Z.eqb_eq. apply CRYPTO_memcmp_spec. lia.
  - split; [done|]. intros ->. lia.
Qed.

Lemma prf_plus_sha1_cmk_eq key seed :
  seed <> [] -> prf_plus_sha1_cmk key seed = HMAC Sha1 key (seed ++ [20; 0; 1]).
Proof.
  intros Hs. destruct seed as [|s seed]; [done|].
  exact (HMAC_incremental Sha1 key [s :: seed; [20; 0]; [1]]).
Qed.

Lemma prf_plus_sha256_cmk_eq key seed :
  seed <> [] -> prf_plus_sha256_cmk key seed = HMAC Sha256 key (seed ++ [32; 0; 1]).
Proof.
  intros Hs. destruct seed as [|s seed]; [done|].
  exact (HMAC_incremental Sha256 key [s :: seed; [32; 0]; [1]]).
Qed.

End Crypto.

(** A computable instance: a checksum in place of HMAC, a byte-wise comparison. *)
Module ToyCrypto.

Definition toy_mac (md : Md) (key data : bytes) : bytes :=
  replicate (Z.to_nat (md_len md)) (foldr Z.add (md_len md) (key ++ data) mod 256).

Definition toy : AwsLc := {|
  HMAC_CTX := Md * bytes * bytes;
  HMAC_Init_ex md key := (md, key, []);
  HMAC_Update '(md, key, acc) data := (md, key, acc ++ data);
  HMAC_Final '(md, key, acc) := toy_mac md key acc;
  HMAC := toy_mac;
  CRYPTO_memcmp a b := if bytes_eqb a b then 0 else 1
|}.

#[local] Existing Instance toy.

Lemma toy_fold md key acc chunks :
  fold_left HMAC_Update chunks (md, key, acc) = (md, key, acc ++ concat chunks).
Proof.
  revert acc. induction chunks as [|c cs IH]; intros acc; simpl; [by rewrite app_nil_r|].
  by rewrite IH, app_assoc.
Qed.

Lemma toy_laws : AwsLcLaws toy.
Proof.
  split.
  - intros. cbn [HMAC_Init_ex toy]. by rewrite toy_fold.
  - intros [] ? ?; cbn [HMAC toy]; unfold toy_mac; by rewrite length_replicate.
  - intros a b _. cbn [CRYPTO_memcmp toy]. pose proof (bytes_eqb_eq a b).
    destruct (bytes_eqb a b); naive_solver.
Qed.

End ToyCrypto.
