(* ===== verification/SstpBinding.v ===== *)
(** Crypto Binding verification: [src/src/sstp/binding.rs].

    [verify] checks a received Crypto Binding attribute against the state the server cached when it
    sent its Call Connect Ack.  The theorem states exactly which attributes are accepted, in terms of
    the HMAC of the packet under the Compound MAC Key. *)

From S2P Require Import Prelude SstpFrame SstpAttr SstpMsg Crypto.

(** ["SSTP inner method derived CMK"] *)
Definition CMK_SEED : bytes :=
  [83; 83; 84; 80; 32; 105; 110; 110; 101; 114; 32; 109; 101; 116; 104; 111; 100; 32; 100; 101;
   114; 105; 118; 101; 100; 32; 67; 77; 75].

Module BindingOutcome.

Inductive t := Ok | AttribNotSupportedInMsg | ValueNotSupported.

#[global] Instance t_eq_dec : EqDecision t.
Proof. solve_decision. Defined.

End BindingOutcome.

Module ServerBindingState.

Record t := {
  server_nonce : bytes;
  server_cert_hash_sha1 : bytes;
  server_cert_hash_sha256 : bytes;
  server_hash_protocol_supported : Z;
  hlak : option bytes
}.

End ServerBindingState.

Section Verify.
Context {lib : AwsLc} {E : Type}.

Definition verify (binding : CryptoBinding.t) (state : ServerBindingState.t)
    (received_packet_with_zeroed_mac : bytes) : res E BindingOutcome.t :=
  let hash_protocol := CryptoBinding.hash_protocol binding in
  let proto :=
    if hash_protocol =? CERT_HASH_PROTOCOL_SHA1 then Some (CERT_HASH_PROTOCOL_SHA1, 20)
    else if hash_protocol =? CERT_HASH_PROTOCOL_SHA256 then Some (CERT_HASH_PROTOCOL_SHA256, 32)
    else None in
  match proto with
  | None => Ok BindingOutcome.ValueNotSupported
  | Some (proto_bit, hash_len) =>
      if Z.land (ServerBindingState.server_hash_protocol_supported state) proto_bit =? 0
      then Ok BindingOutcome.ValueNotSupported else
      if negb (bytes_eqb (CryptoBinding.nonce binding) (ServerBindingState.server_nonce state))
      then Ok BindingOutcome.ValueNotSupported else
      server_cert_hash ←
        (if hash_protocol =? CERT_HASH_PROTOCOL_SHA1
         then Ok (ServerBindingState.server_cert_hash_sha1 state)
         else if hash_protocol =? CERT_HASH_PROTOCOL_SHA256
         then Ok (ServerBindingState.server_cert_hash_sha256 state)
         else Panic);
      cert_hash ← slice (CryptoBinding.cert_hash_block binding) 0 hash_len;
      if negb (const_time_eq cert_hash server_cert_hash)
      then Ok BindingOutcome.ValueNotSupported else
      let hlak := default (zeros 32) (ServerBindingState.hlak state) in
      mac_ok ←
        (if hash_protocol =? CERT_HASH_PROTOCOL_SHA1 then
           let cmk := prf_plus_sha1_cmk hlak CMK_SEED in
           let computed := hmac_oneshot Sha1 cmk received_packet_with_zeroed_mac in
           mac ← slice (CryptoBinding.compound_mac_block binding) 0 20;
           Ok (const_time_eq computed mac)
         else if hash_protocol =? CERT_HASH_PROTOCOL_SHA256 then
           let cmk := prf_plus_sha256_cmk hlak CMK_SEED in
           let computed := hmac_oneshot Sha256 cmk received_packet_with_zeroed_mac in
           mac ← slice (CryptoBinding.compound_mac_block binding) 0 32;
           Ok (const_time_eq computed mac)
         else Panic);
      Ok (if (mac_ok : bool) then BindingOutcome.Ok else BindingOutcome.ValueNotSupported)
  end.

End Verify.

(** ** Which bindings are accepted *)

(** The digest a hash-protocol value selects. *)
Definition md_of (hash_protocol : Z) : option Md :=
  if hash_protocol =? 1 then Some Sha1 else if hash_protocol =? 2 then Some Sha256 else None.

Definition cert_hash_of (md : Md) (st : ServerBindingState.t) : bytes :=
  match md with
  | Sha1 => ServerBindingState.server_cert_hash_sha1 st
  | _ => ServerBindingState.server_cert_hash_sha256 st
  end.

(** The Compound MAC Key of [MS-SSTP] 3.2.5.2.2: one PRF+ block over the seed, the output length as
    a little-endian 16-bit integer, and the block counter 1. *)
Definition cmk `{AwsLc} (md : Md) (hlak : bytes) : bytes :=
  HMAC md hlak (CMK_SEED ++ to_le16 (md_len md) ++ [1]).

Definition binding_wf (cb : CryptoBinding.t) : Prop :=
  len (CryptoBinding.cert_hash_block cb) = 32 /\ len (CryptoBinding.compound_mac_block cb) = 32.

Definition binding_valid `{AwsLc} (cb : CryptoBinding.t) (st : ServerBindingState.t)
    (packet : bytes) : Prop :=
  exists md,
    md_of (CryptoBinding.hash_protocol cb) = Some md /\
    Z.land (ServerBindingState.server_hash_protocol_supported st) (CryptoBinding.hash_protocol cb) <> 0 /\
    CryptoBinding.nonce cb = ServerBindingState.server_nonce st /\
    sub (CryptoBinding.cert_hash_block cb) 0 (md_len md) = cert_hash_of md st /\
    sub (CryptoBinding.compound_mac_block cb) 0 (md_len md)
    = HMAC md (cmk md (default (zeros 32) (ServerBindingState.hlak st))) packet.

Section Verify_lemmas.
Context {lib : AwsLc} {laws : AwsLcLaws lib} {E : Type}.

Lemma verify_eq cb st packet md :
  binding_wf cb -> md_of (CryptoBinding.hash_protocol cb) = Some md ->
  @verify lib E cb st packet =
  Ok (if (Z.land (ServerBindingState.server_hash_protocol_supported st)
            (CryptoBinding.hash_protocol cb) =? 0)
         || negb (bytes_eqb (CryptoBinding.nonce cb) (ServerBindingState.server_nonce st))
         || negb (const_time_eq (sub (CryptoBinding.cert_hash_block cb) 0 (md_len md))
                                (cert_hash_of md st))
         || negb (const_time_eq
                    (HMAC md (cmk md (default (zeros 32) (ServerBindingState.hlak st))) packet)
                    (sub (CryptoBinding.compound_mac_block cb) 0 (md_len md)))
      then BindingOutcome.ValueNotSupported else BindingOutcome.Ok).
Proof.
  intros [H1 H2]. unfold md_of, verify, CERT_HASH_PROTOCOL_SHA1, CERT_HASH_PROTOCOL_SHA256.
  destruct (_ =? 1) eqn:Hp1; [|destruct (_ =? 2) eqn:Hp2; [|done]]; intros; simplify_eq.
  all: rewrite ?prf_plus_sha1_cmk_eq, ?prf_plus_sha256_cmk_eq by done.
  all: unfold hmac_oneshot, cmk; cbn [md_len cert_hash_of mbind res_bind].
  all: unfold SHA1_OUTPUT_LEN, SHA256_OUTPUT_LEN; run_ok.
  all: assert (Hp : CryptoBinding.hash_protocol cb = 1 \/ CryptoBinding.hash_protocol cb = 2)
    by lia; destruct Hp as [Hp|Hp]; rewrite Hp in *; try done.
  all: destruct (_ =? 0), (bytes_eqb _ _); cbn [negb orb]; try done.
  all: destruct (const_time_eq (sub _ _ _) _); cbn [negb orb]; try done.
  all: by destruct (const_time_eq _ _).
Qed.

Lemma verify_accepts cb st packet :
  binding_wf cb -> @verify lib E cb st packet = Ok BindingOutcome.Ok <-> binding_valid cb st packet.
Proof.
  intros Hwf. destruct (md_of (CryptoBinding.hash_protocol cb)) as [md|] eqn:Hmd.
  - rewrite (verify_eq _ _ _ md) by done. unfold binding_valid. rewrite Hmd.
    set (b1 := Z.land _ _). set (b2 := bytes_eqb _ _). set (b3 := const_time_eq _ (cert_hash_of _ _)).
    set (b4 := const_time_eq (HMAC _ _ _) _).
    assert (b2 = true <-> CryptoBinding.nonce cb = ServerBindingState.server_nonce st)
      by apply bytes_eqb_eq.
    pose proof (const_time_eq_true (sub (CryptoBinding.cert_hash_block cb) 0 (md_len md))
                  (cert_hash_of md st)) as H3.
    pose proof (const_time_eq_true
      (HMAC md (cmk md (default (zeros 32) (ServerBindingState.hlak st))) packet)
      (sub (CryptoBinding.compound_mac_block cb) 0 (md_len md))) as H4.
    fold b3 in H3. fold b4 in H4.
    destruct (b1 =? 0) eqn:H0; simpl; [split; [done|naive_solver lia]|].
    destruct b2, b3, b4; simpl; split; naive_solver lia.
  - unfold md_of in Hmd. unfold verify, CERT_HASH_PROTOCOL_SHA1, CERT_HASH_PROTOCOL_SHA256.
    repeat case_match; try done. split; [done|]. intros (md & Hmd' & _).
    unfold md_of in Hmd'. repeat case_match; simplify_eq.
Qed.

Lemma verify_total cb st packet :
  binding_wf cb ->
  @verify lib E cb st packet = Ok BindingOutcome.Ok \/
  @verify lib E cb st packet = Ok BindingOutcome.ValueNotSupported.
Proof.
  intros Hwf. destruct (md_of (CryptoBinding.hash_protocol cb)) as [md|] eqn:Hmd.
  - rewrite (verify_eq _ _ _ md) by done. case_match; auto.
  - right. unfold md_of in Hmd. unfold verify, CERT_HASH_PROTOCOL_SHA1, CERT_HASH_PROTOCOL_SHA256.
    repeat case_match; simplify_eq; done.
Qed.

End Verify_lemmas.

(** ** Properties *)

(** C7: A crypto binding is accepted exactly when it names an advertised hash, echoes the server's
    nonce, carries the server's own certificate hash, and its Compound MAC is the HMAC of the
    zeroed packet under the Compound MAC Key derived from the HLAK; every other binding, whatever
    its bytes, is refused with [ValueNotSupported]. *)
Theorem binding_accepted_iff_valid {lib : AwsLc} {laws : AwsLcLaws lib} {E} cb st packet :
  binding_wf cb ->
  (@verify lib E cb st packet = Ok BindingOutcome.Ok <-> binding_valid cb st packet) /\
  (~ binding_valid cb st packet -> @verify lib E cb st packet = Ok BindingOutcome.ValueNotSupported).
Proof.
  intros Hwf. pose proof (verify_accepts (E := E) cb st packet Hwf) as Ha. split; [done|].
  intros Hn. destruct (verify_total (E := E) cb st packet Hwf); naive_solver.
Qed.

Lemma binding_accepted_iff_valid_witness :
  let cb := {| CryptoBinding.hash_protocol := 2; CryptoBinding.nonce := replicate 32 7;
               CryptoBinding.cert_hash_block := replicate 32 1;
               CryptoBinding.compound_mac_block := replicate 32 5 |} in
  let st := {| ServerBindingState.server_nonce := replicate 32 7;
               ServerBindingState.server_cert_hash_sha1 := replicate 20 2;
               ServerBindingState.server_cert_hash_sha256 := replicate 32 1;
               ServerBindingState.server_hash_protocol_supported := 3;
               ServerBindingState.hlak := None |} in
  (@verify ToyCrypto.toy () cb st [] = Ok BindingOutcome.Ok <->
   @binding_valid ToyCrypto.toy cb st []) /\
  (~ @binding_valid ToyCrypto.toy cb st [] ->
   @verify ToyCrypto.toy () cb st [] = Ok BindingOutcome.ValueNotSupported).
Proof.
  intros cb st.
  by apply (@binding_accepted_iff_valid ToyCrypto.toy ToyCrypto.toy_laws () cb st []).
Defined.
