(* ===== verification/SstpState.v ===== *)
(** The server-side SSTP state machine: [src/src/sstp/state.rs].

    [StateMachine.t] is the struct, one definition per method.  A method that takes [tx: &mut [u8]]
    returns the rewritten buffer; the 32 random bytes drawn by [on_call_connect_request] are an
    argument, [nonce].  Durations are in seconds. *)

From S2P Require Import Prelude SstpFrame SstpAttr SstpMsg Crypto SstpBinding.

Definition TIMER_VAL_NEGOTIATION : Z := 60.
Definition TIMER_VAL_ABORT_STATE_TIMER_1 : Z := 3.
Definition TIMER_VAL_ABORT_STATE_TIMER_2 : Z := 1.
Definition TIMER_VAL_DISCONNECT_STATE_TIMER_1 : Z := 5.
Definition TIMER_VAL_DISCONNECT_STATE_TIMER_2 : Z := 1.
Definition TIMER_VAL_HELLO : Z := 60.

Module State.

Inductive t :=
| ServerCallDisconnected
| ServerConnectRequestPending
| ServerCallConnectedPending
| ServerCallConnected
| CallAbortPending
| CallAbortTimeoutPending
| CallDisconnectAckPending
| CallDisconnectTimeoutPending.

#[global] Instance t_eq_dec : EqDecision t.
Proof. solve_decision. Defined.

End State.

Module Timer.

Inductive t := Negotiation | Hello | AbortT1 | AbortT2 | DisconnectT1 | DisconnectT2.

#[global] Instance t_eq_dec : EqDecision t.
Proof. solve_decision. Defined.

End Timer.

Inductive NotifyHigher := StartPpp | SstpEstablished.

Module Terminate.

Inductive t := None | Graceful | Abrupt.

#[global] Instance t_eq_dec : EqDecision t.
Proof. solve_decision. Defined.

End Terminate.

Module StepOut.

Record t := {
  send_len : Z;
  timer_stop : option Timer.t;
  timer_start : option (Timer.t * Z);
  notify : option NotifyHigher;
  terminate : Terminate.t
}.

Definition new : t :=
  {| send_len := 0; timer_stop := None; timer_start := None; notify := None;
     terminate := Terminate.None |}.

(** [StepOut { send_len: n, timer_start: Some(..), ..StepOut::new() }] *)
Definition send_start (n : Z) (timer : Timer.t) (dur : Z) : t :=
  {| send_len := n; timer_stop := None; timer_start := Some (timer, dur); notify := None;
     terminate := Terminate.None |}.

(** [StepOut { terminate: .., ..StepOut::new() }] *)
Definition terminating (how : Terminate.t) : t :=
  {| send_len := 0; timer_stop := None; timer_start := None; notify := None; terminate := how |}.

End StepOut.

Module AbortReason.

Inductive t :=
| CryptoBindingInvalid | CryptoBindingMissing | NegotiationTimeout | UnexpectedMessage | None.

Definition to_status (r : t) : option (Z * StatusCode.t) :=
  match r with
  | CryptoBindingInvalid =>
      Some (AttributeId.as_u8 AttributeId.CryptoBinding, StatusCode.ValueNotSupported)
  | CryptoBindingMissing =>
      Some (AttributeId.as_u8 AttributeId.StatusInfo, StatusCode.AttribNotSupportedInMsg)
  | NegotiationTimeout =>
      Some (AttributeId.as_u8 AttributeId.StatusInfo, StatusCode.NegotiationTimeout)
  | UnexpectedMessage =>
      Some (AttributeId.as_u8 AttributeId.StatusInfo, StatusCode.UnacceptedFrameReceived)
  | None => Datatypes.None
  end.

End AbortReason.

Module StateMachine.

Record t := {
  state : State.t;
  server_cert_hash_sha1 : bytes;
  server_cert_hash_sha256 : bytes;
  binding : option ServerBindingState.t
}.

Definition new (cert_hash_sha1 cert_hash_sha256 : bytes) : t :=
  {| state := State.ServerCallDisconnected;
     server_cert_hash_sha1 := cert_hash_sha1;
     server_cert_hash_sha256 := cert_hash_sha256;
     binding := None |}.

Definition transition (sm : t) (new : State.t) : t :=
  {| state := new;
     server_cert_hash_sha1 := server_cert_hash_sha1 sm;
     server_cert_hash_sha256 := server_cert_hash_sha256 sm;
     binding := binding sm |}.

(** [self.binding = b] *)
Definition set_binding (sm : t) (b : option ServerBindingState.t) : t :=
  {| state := state sm;
     server_cert_hash_sha1 := server_cert_hash_sha1 sm;
     server_cert_hash_sha256 := server_cert_hash_sha256 sm;
     binding := b |}.

Definition is_in_terminal_drain (sm : t) : bool :=
  match state sm with
  | State.CallAbortTimeoutPending | State.CallAbortPending
  | State.CallDisconnectAckPending | State.CallDisconnectTimeoutPending => true
  | _ => false
  end.

Section Steps.
Context {bp : BuildProfile} {lib : AwsLc} {E : Type}.

Definition on_https_accepted (sm : t) : res E (t * StepOut.t) :=
  _ ← debug_assert (bool_decide (state sm = State.ServerCallDisconnected));
  Ok (transition sm State.ServerConnectRequestPending,
      StepOut.send_start 0 Timer.Negotiation TIMER_VAL_NEGOTIATION).

Definition on_data_packet (sm : t) : t * StepOut.t :=
  (sm, if decide (state sm = State.ServerCallConnected)
       then StepOut.send_start 0 Timer.Hello TIMER_VAL_HELLO else StepOut.new).

Definition on_inner_auth_completed (sm : t) (hlak : option bytes) : t :=
  match binding sm with
  | Some b =>
      set_binding sm (Some
        {| ServerBindingState.server_nonce := ServerBindingState.server_nonce b;
           ServerBindingState.server_cert_hash_sha1 := ServerBindingState.server_cert_hash_sha1 b;
           ServerBindingState.server_cert_hash_sha256 := ServerBindingState.server_cert_hash_sha256 b;
           ServerBindingState.server_hash_protocol_supported :=
             ServerBindingState.server_hash_protocol_supported b;
           ServerBindingState.hlak := hlak |})
  | None => sm
  end.

Definition on_higher_layer_disconnect (sm : t) (tx : bytes) : res E (t * bytes * StepOut.t) :=
  '(tx, n) ← encode_call_disconnect tx true;
  Ok (transition sm State.CallDisconnectAckPending, tx,
      StepOut.send_start n Timer.DisconnectT1 TIMER_VAL_DISCONNECT_STATE_TIMER_1).

Definition start_abort (sm : t) (reason : AbortReason.t) (tx : bytes)
    : res E (t * bytes * StepOut.t) :=
  '(tx, n) ← encode_call_abort tx (AbortReason.to_status reason);
  Ok (transition sm State.CallAbortPending, tx,
      StepOut.send_start n Timer.AbortT1 TIMER_VAL_ABORT_STATE_TIMER_1).

Definition unexpected (sm : t) (tx : bytes) : res E (t * bytes * StepOut.t) :=
  start_abort sm AbortReason.UnexpectedMessage tx.

Definition on_hello_expired (sm : t) (tx : bytes) : res E (t * bytes * StepOut.t) :=
  if negb (bool_decide (state sm = State.ServerCallConnected)) then Ok (sm, tx, StepOut.new) else
  '(tx, n) ← encode_empty_control tx MessageType.EchoRequest;
  Ok (sm, tx, StepOut.send_start n Timer.Hello TIMER_VAL_HELLO).

Definition on_hello_timeout_no_response (sm : t) : t * StepOut.t :=
  (sm, StepOut.terminating Terminate.Abrupt).

Definition on_timer (sm : t) (timer : Timer.t) (tx : bytes) : res E (t * bytes * StepOut.t) :=
  match timer with
  | Timer.Negotiation => start_abort sm AbortReason.NegotiationTimeout tx
  | Timer.Hello => on_hello_expired sm tx
  | Timer.AbortT1 =>
      Ok (transition sm State.CallAbortTimeoutPending, tx,
          StepOut.send_start 0 Timer.AbortT2 TIMER_VAL_ABORT_STATE_TIMER_2)
  | Timer.AbortT2 | Timer.DisconnectT1 | Timer.DisconnectT2 =>
      Ok (sm, tx, StepOut.terminating Terminate.Graceful)
  end.

Definition on_call_connect_request (sm : t) (protocol_id : Z) (nonce tx : bytes)
    : res E (t * bytes * StepOut.t) :=
  if is_in_terminal_drain sm then Ok (sm, tx, StepOut.new) else
  if negb (bool_decide (state sm = State.ServerConnectRequestPending))
  then start_abort sm AbortReason.UnexpectedMessage tx else
  if negb (protocol_id =? SSTP_ENCAPSULATED_PROTOCOL_PPP) then
    '(tx, n) ← encode_call_connect_nak tx (AttributeId.as_u8 AttributeId.EncapsulatedProtocolId)
                 StatusCode.ValueNotSupported;
    Ok (sm, tx, {| StepOut.send_len := n; StepOut.timer_stop := None; StepOut.timer_start := None;
                   StepOut.notify := None; StepOut.terminate := Terminate.None |})
  else
    let hash_bitmask := Z.lor CERT_HASH_PROTOCOL_SHA1 CERT_HASH_PROTOCOL_SHA256 in
    '(tx, n) ← encode_call_connect_ack tx hash_bitmask nonce;
    _ ← debug_assert (n =? CALL_CONNECT_ACK_LEN);
    let sm := set_binding sm (Some
      {| ServerBindingState.server_nonce := nonce;
         ServerBindingState.server_cert_hash_sha1 := server_cert_hash_sha1 sm;
         ServerBindingState.server_cert_hash_sha256 := server_cert_hash_sha256 sm;
         ServerBindingState.server_hash_protocol_supported := hash_bitmask;
         ServerBindingState.hlak := None |}) in
    Ok (transition sm State.ServerCallConnectedPending, tx,
        {| StepOut.send_len := n; StepOut.timer_stop := None; StepOut.timer_start := None;
           StepOut.notify := Some StartPpp; StepOut.terminate := Terminate.None |}).

Definition advance_to_connected (sm : t) : t * StepOut.t :=
  (transition sm State.ServerCallConnected,
   {| StepOut.send_len := 0; StepOut.timer_stop := Some Timer.Negotiation;
      StepOut.timer_start := Some (Timer.Hello, TIMER_VAL_HELLO);
      StepOut.notify := Some SstpEstablished; StepOut.terminate := Terminate.None |}).

Definition on_call_connected_structural (sm : t) (cb : CryptoBinding.t) (tx : bytes)
    : res E (t * bytes * StepOut.t) :=
  if is_in_terminal_drain sm then Ok (sm, tx, StepOut.new) else
  if negb (bool_decide (state sm = State.ServerCallConnectedPending))
  then start_abort sm AbortReason.UnexpectedMessage tx else
  match binding sm with
  | None => start_abort sm AbortReason.CryptoBindingMissing tx
  | Some state =>
      outcome ← verify cb state [];
      match outcome with
      | BindingOutcome.Ok => let '(sm, out) := advance_to_connected sm in Ok (sm, tx, out)
      | BindingOutcome.AttribNotSupportedInMsg => start_abort sm AbortReason.CryptoBindingMissing tx
      | BindingOutcome.ValueNotSupported => start_abort sm AbortReason.CryptoBindingInvalid tx
      end
  end.

Definition verify_call_connected (sm : t) (cb : CryptoBinding.t)
    (packet_with_zeroed_mac tx : bytes) : res E (t * bytes * StepOut.t) :=
  if negb (bool_decide (state sm = State.ServerCallConnectedPending))
  then start_abort sm AbortReason.UnexpectedMessage tx else
  match binding sm with
  | None => start_abort sm AbortReason.CryptoBindingMissing tx
  | Some state =>
      outcome ← verify cb state packet_with_zeroed_mac;
      match outcome with
      | BindingOutcome.Ok => let '(sm, out) := advance_to_connected sm in Ok (sm, tx, out)
      | BindingOutcome.AttribNotSupportedInMsg => start_abort sm AbortReason.CryptoBindingMissing tx
      | BindingOutcome.ValueNotSupported => start_abort sm AbortReason.CryptoBindingInvalid tx
      end
  end.

Definition on_call_disconnect (sm : t) (tx : bytes) : res E (t * bytes * StepOut.t) :=
  match state sm with
  | State.CallAbortTimeoutPending | State.CallAbortPending
  | State.CallDisconnectTimeoutPending => Ok (sm, tx, StepOut.new)
  | State.CallDisconnectAckPending =>
      '(tx, n) ← encode_empty_control tx MessageType.CallDisconnectAck;
      Ok (transition sm State.CallDisconnectTimeoutPending, tx,
          {| StepOut.send_len := n; StepOut.timer_stop := Some Timer.DisconnectT1;
             StepOut.timer_start := Some (Timer.DisconnectT2, TIMER_VAL_DISCONNECT_STATE_TIMER_2);
             StepOut.notify := None; StepOut.terminate := Terminate.None |})
  | _ =>
      '(tx, n) ← encode_empty_control tx MessageType.CallDisconnectAck;
      Ok (transition sm State.CallDisconnectTimeoutPending, tx,
          StepOut.send_start n Timer.DisconnectT2 TIMER_VAL_DISCONNECT_STATE_TIMER_2)
  end.

Definition on_call_disconnect_ack (sm : t) (tx : bytes) : res E (t * bytes * StepOut.t) :=
  match state sm with
  | State.CallDisconnectAckPending =>
      Ok (transition sm State.ServerCallDisconnected, tx,
          {| StepOut.send_len := 0; StepOut.timer_stop := Some Timer.DisconnectT1;
             StepOut.timer_start := None; StepOut.notify := None;
             StepOut.terminate := Terminate.Graceful |})
  | State.CallAbortPending | State.CallAbortTimeoutPending
  | State.CallDisconnectTimeoutPending => Ok (sm, tx, StepOut.new)
  | _ => start_abort sm AbortReason.UnexpectedMessage tx
  end.

Definition on_call_abort (sm : t) (tx : bytes) : res E (t * bytes * StepOut.t) :=
  match state sm with
  | State.CallAbortPending =>
      Ok (transition sm State.CallAbortTimeoutPending, tx,
          {| StepOut.send_len := 0; StepOut.timer_stop := Some Timer.AbortT1;
             StepOut.timer_start := Some (Timer.AbortT2, TIMER_VAL_ABORT_STATE_TIMER_2);
             StepOut.notify := None; StepOut.terminate := Terminate.None |})
  | State.CallAbortTimeoutPending | State.CallDisconnectTimeoutPending =>
      Ok (sm, tx, StepOut.new)
  | _ =>
      '(tx, n) ← encode_call_abort tx (AbortReason.to_status AbortReason.None);
      Ok (transition sm State.CallAbortTimeoutPending, tx,
          StepOut.send_start n Timer.AbortT2 TIMER_VAL_ABORT_STATE_TIMER_2)
  end.

Definition on_echo_request (sm : t) (tx : bytes) : res E (t * bytes * StepOut.t) :=
  match state sm with
  | State.ServerCallConnected =>
      '(tx, n) ← encode_empty_control tx MessageType.EchoResponse;
      Ok (sm, tx, StepOut.send_start n Timer.Hello TIMER_VAL_HELLO)
  | State.CallAbortTimeoutPending | State.CallAbortPending
  | State.CallDisconnectAckPending | State.CallDisconnectTimeoutPending => Ok (sm, tx, StepOut.new)
  | _ => start_abort sm AbortReason.UnexpectedMessage tx
  end.

Definition on_echo_response (sm : t) (tx : bytes) : res E (t * bytes * StepOut.t) :=
  match state sm with
  | State.ServerCallConnected => Ok (sm, tx, StepOut.send_start 0 Timer.Hello TIMER_VAL_HELLO)
  | State.CallAbortTimeoutPending | State.CallAbortPending
  | State.CallDisconnectAckPending | State.CallDisconnectTimeoutPending => Ok (sm, tx, StepOut.new)
  | _ => start_abort sm AbortReason.UnexpectedMessage tx
  end.

Definition on_message (sm : t) (msg : ControlMessage.t) (nonce tx : bytes)
    : res E (t * bytes * StepOut.t) :=
  match msg with
  | ControlMessage.CallConnectRequest protocol_id => on_call_connect_request sm protocol_id nonce tx
  | ControlMessage.CallConnected cb => on_call_connected_structural sm cb tx
  | ControlMessage.CallDisconnect => on_call_disconnect sm tx
  | ControlMessage.CallDisconnectAck => on_call_disconnect_ack sm tx
  | ControlMessage.CallAbort => on_call_abort sm tx
  | ControlMessage.EchoRequest => on_echo_request sm tx
  | ControlMessage.EchoResponse => on_echo_response sm tx
  | ControlMessage.Other _ => unexpected sm tx
  end.

End Steps.

End StateMachine.

Definition MIN_TX_BUF : Z :=
  if CALL_CONNECT_ACK_LEN >? EMPTY_CONTROL_LEN then CALL_CONNECT_ACK_LEN else EMPTY_CONTROL_LEN.
