(* ===== verification/SstpServer.v ===== *)
(** The SSTP state machine as the session driver runs it, and what it guarantees.

    [Server.t] is the state machine together with the driver's timer slot and its hello flag
    ([drive_sstp], [handle_sstp_step] and [apply_step] in [src/src/session.rs]); [Server.step] is one
    turn of the driver loop.  [Protocol] is the abstract protocol: states, inputs and actions without
    buffers.  The theorems are the refinement of [Protocol] by [Server.step], the inductive
    invariant, the safety of connection establishment, and termination under timer expiry. *)

From S2P Require Import Prelude SstpFrame SstpAttr SstpMsg Crypto SstpBinding SstpState.

(** * The driver's turn *)

Module Server.

Record t := {
  ssm : StateMachine.t;
  sstp_timer : option Timer.t;
  hello_echo_pending : bool
}.

(** What one turn of the driver loop delivers to the SSTP state machine. *)
Inductive event :=
| Control (msg : ControlMessage.t) (packet nonce : bytes)  (* a parsed control packet, its raw bytes *)
| Data                                                     (* an SSTP data packet *)
| InnerAuth (hlak : bytes)                                 (* the pending HLAK, after authentication *)
| Disconnect                                               (* drain, or an operator / CoA disconnect *)
| SstpTimer                                                (* the armed timer fires *)
| PeriodicTick (idle : Z).                                 (* worker tick, seconds since the last rx *)

(** The timer part of [apply_step]. *)
Definition apply_timers (active_timer : option Timer.t) (out : StepOut.t) : option Timer.t :=
  let active_timer :=
    match StepOut.timer_stop out with
    | Some stop => if decide (active_timer = Some stop) then None else active_timer
    | None => active_timer
    end in
  match StepOut.timer_start out with
  | Some (which, _) => if decide (which <> Timer.Hello) then Some which else active_timer
  | None => active_timer
  end.

(** [apply_step] returns [SstpOutcome::stop()] exactly when the step terminates. *)
Definition keep_going (out : StepOut.t) : bool :=
  bool_decide (StepOut.terminate out = Terminate.None).

Section Step.
Context {bp : BuildProfile} {lib : AwsLc} {E : Type}.

Definition init (cert_hash_sha1 cert_hash_sha256 : bytes) : res E (t * StepOut.t) :=
  '(ssm, out) ← StateMachine.on_https_accepted (StateMachine.new cert_hash_sha1 cert_hash_sha256);
  Ok ({| ssm := ssm; sstp_timer := apply_timers None out; hello_echo_pending := false |}, out).

(** Dispatch of one control packet: a Call Connected is verified over its 112 bytes with the Compound
    MAC field zeroed, anything else goes to [on_message]. *)
Definition on_control (sm : StateMachine.t) (msg : ControlMessage.t) (packet nonce tx : bytes)
    : res E (StateMachine.t * bytes * StepOut.t) :=
  match msg with
  | ControlMessage.CallConnected cb =>
      zeroed ← copy_slice (zeros CALL_CONNECTED_LEN) 0 CALL_CONNECTED_LEN packet;
      zeroed ← fill_slice zeroed 80 112 0;
      StateMachine.verify_call_connected sm cb zeroed tx
  | other => StateMachine.on_message sm other nonce tx
  end.

(** The hello keep-alive check of [PeriodicTick]. *)
Definition on_tick (s : t) (idle : Z) (tx : bytes) : res E (t * bytes * StepOut.t) :=
  if bool_decide (StateMachine.state (ssm s) = State.ServerCallConnected) then
    if hello_echo_pending s && (idle >=? TIMER_VAL_HELLO + TIMER_VAL_HELLO) then
      let '(sm, out) := StateMachine.on_hello_timeout_no_response (ssm s) in
      Ok ({| ssm := sm; sstp_timer := apply_timers (sstp_timer s) out;
             hello_echo_pending := hello_echo_pending s |}, tx, out)
    else if negb (hello_echo_pending s) && (idle >=? TIMER_VAL_HELLO) then
      '(sm, tx, out) ← StateMachine.on_timer (ssm s) Timer.Hello tx;
      Ok ({| ssm := sm; sstp_timer := apply_timers (sstp_timer s) out;
             hello_echo_pending := true |}, tx, out)
    else Ok (s, tx, StepOut.new)
  else Ok (s, tx, StepOut.new).

Definition step (s : t) (tx : bytes) (ev : event) : res E (t * bytes * StepOut.t) :=
  match ev with
  | Control msg packet nonce =>
      '(sm, tx, out) ← on_control (ssm s) msg packet nonce tx;
      Ok ({| ssm := sm; sstp_timer := apply_timers (sstp_timer s) out;
             hello_echo_pending := false |}, tx, out)
  | Data =>
      let '(sm, out) := StateMachine.on_data_packet (ssm s) in
      Ok ({| ssm := sm; sstp_timer := apply_timers (sstp_timer s) out;
             hello_echo_pending := false |}, tx, out)
  | InnerAuth hlak =>
      Ok ({| ssm := StateMachine.on_inner_auth_completed (ssm s) (Some hlak);
             sstp_timer := sstp_timer s; hello_echo_pending := hello_echo_pending s |},
          tx, StepOut.new)
  | Disconnect =>
      '(sm, tx, out) ← StateMachine.on_higher_layer_disconnect (ssm s) tx;
      Ok ({| ssm := sm; sstp_timer := apply_timers (sstp_timer s) out;
             hello_echo_pending := hello_echo_pending s |}, tx, out)
  | SstpTimer =>
      match sstp_timer s with
      | None => Panic
      | Some which =>
          '(sm, tx, out) ← StateMachine.on_timer (ssm s) which tx;
          Ok ({| ssm := sm; sstp_timer := apply_timers None out;
                 hello_echo_pending := hello_echo_pending s |}, tx, out)
      end
  | PeriodicTick idle => on_tick s idle tx
  end.

End Step.

End Server.

(** * The abstract protocol *)

Module Protocol.

(** An input, without bytes: [Connected valid] carries whether the crypto binding verifies. *)
Inductive input :=
| ConnectRequest (ppp : bool) (nonce : bytes)
| Connected (valid : bool)
| PeerDisconnect
| PeerDisconnectAck
| PeerAbort
| EchoRequest
| EchoResponse
| Unexpected
| Data
| LocalDisconnect
| Expired (timer : Timer.t)
| HelloTimeout
| Idle.

Record action := {
  next : State.t;
  reply : option (MessageType.t * list Attribute.t);
  stop : option Timer.t;
  start : option (Timer.t * Z);
  notify : option NotifyHigher;
  terminate : Terminate.t
}.

Definition quiet (st : State.t) : action :=
  {| next := st; reply := None; stop := None; start := None; notify := None;
     terminate := Terminate.None |}.

Definition go (st : State.t) (r : option (MessageType.t * list Attribute.t))
    (stop : option Timer.t) (timer : Timer.t) (secs : Z) : action :=
  {| next := st; reply := r; stop := stop; start := Some (timer, secs); notify := None;
     terminate := Terminate.None |}.

Definition finish (st : State.t) (stop : option Timer.t) (how : Terminate.t) : action :=
  {| next := st; reply := None; stop := stop; start := None; notify := None; terminate := how |}.

Definition abort (attr : AttributeId.t) (status : StatusCode.t) : action :=
  go State.CallAbortPending
     (Some (MessageType.CallAbort, [status_info_attr (AttributeId.as_u8 attr, status)]))
     None Timer.AbortT1 3.

Definition abort_unexpected : action :=
  abort AttributeId.StatusInfo StatusCode.UnacceptedFrameReceived.

Definition draining (st : State.t) : bool :=
  match st with
  | State.CallAbortTimeoutPending | State.CallAbortPending
  | State.CallDisconnectAckPending | State.CallDisconnectTimeoutPending => true
  | _ => false
  end.

(** Call establishment and the connected phase ([MS-SSTP] 3.3.5.2, 3.1.2.3). *)
Definition active (st : State.t) (i : input) : action :=
  match st, i with
  | State.ServerConnectRequestPending, ConnectRequest true nonce =>
      {| next := State.ServerCallConnectedPending;
         reply := Some (MessageType.CallConnectAck, [binding_req_attr 3 nonce]);
         stop := None; start := None; notify := Some StartPpp; terminate := Terminate.None |}
  | State.ServerConnectRequestPending, ConnectRequest false _ =>
      {| next := st;
         reply := Some (MessageType.CallConnectNak,
                        [status_info_attr (AttributeId.as_u8 AttributeId.EncapsulatedProtocolId,
                                           StatusCode.ValueNotSupported)]);
         stop := None; start := None; notify := None; terminate := Terminate.None |}
  | State.ServerCallConnectedPending, Connected true =>
      {| next := State.ServerCallConnected; reply := None; stop := Some Timer.Negotiation;
         start := Some (Timer.Hello, 60); notify := Some SstpEstablished;
         terminate := Terminate.None |}
  | State.ServerCallConnectedPending, Connected false =>
      abort AttributeId.CryptoBinding StatusCode.ValueNotSupported
  | State.ServerCallConnected, EchoRequest =>
      go st (Some (MessageType.EchoResponse, [])) None Timer.Hello 60
  | State.ServerCallConnected, EchoResponse | State.ServerCallConnected, Data =>
      go st None None Timer.Hello 60
  | State.ServerCallConnected, Expired Timer.Hello =>
      go st (Some (MessageType.EchoRequest, [])) None Timer.Hello 60
  | State.ServerCallConnected, HelloTimeout => finish st None Terminate.Abrupt
  | State.ServerCallConnected, Expired Timer.Negotiation => quiet st
  | _, Expired Timer.Negotiation => abort AttributeId.StatusInfo StatusCode.NegotiationTimeout
  | _, PeerDisconnect =>
      go State.CallDisconnectTimeoutPending (Some (MessageType.CallDisconnectAck, []))
         None Timer.DisconnectT2 1
  | _, PeerAbort =>
      go State.CallAbortTimeoutPending (Some (MessageType.CallAbort, [])) None Timer.AbortT2 1
  | _, LocalDisconnect =>
      go State.CallDisconnectAckPending
         (Some (MessageType.CallDisconnect, [status_info_attr (0, StatusCode.NoError)]))
         None Timer.DisconnectT1 5
  | _, Data | _, Expired _ | _, HelloTimeout | _, Idle => quiet st
  | _, _ => abort_unexpected
  end.

(** The abort and disconnect exchanges ([MS-SSTP] 3.1.1.1): late messages are ignored. *)
Definition drain (st : State.t) (i : input) : action :=
  match st, i with
  | State.CallAbortPending, PeerAbort =>
      go State.CallAbortTimeoutPending None (Some Timer.AbortT1) Timer.AbortT2 1
  | State.CallAbortPending, Expired Timer.AbortT1 =>
      go State.CallAbortTimeoutPending None None Timer.AbortT2 1
  | State.CallAbortTimeoutPending, Expired Timer.AbortT2
  | State.CallDisconnectAckPending, Expired Timer.DisconnectT1
  | State.CallDisconnectTimeoutPending, Expired Timer.DisconnectT2 =>
      finish st None Terminate.Graceful
  | State.CallDisconnectAckPending, PeerDisconnect =>
      go State.CallDisconnectTimeoutPending (Some (MessageType.CallDisconnectAck, []))
         (Some Timer.DisconnectT1) Timer.DisconnectT2 1
  | State.CallDisconnectAckPending, PeerDisconnectAck =>
      finish State.ServerCallDisconnected (Some Timer.DisconnectT1) Terminate.Graceful
  | State.CallDisconnectAckPending, PeerAbort =>
      go State.CallAbortTimeoutPending (Some (MessageType.CallAbort, [])) None Timer.AbortT2 1
  | _, _ => quiet st
  end.

Definition step (st : State.t) (i : input) : action :=
  if draining st then drain st i else active st i.

(** Where the implementation departs from the protocol: while draining it does not ignore a Call
    Connected, an unexpected message type, or a local disconnect, but restarts the exchange. *)
Definition departs (st : State.t) (i : input) : bool :=
  draining st &&
  match i with Connected _ | Unexpected | LocalDisconnect => true | _ => false end.

(** What it does there instead. *)
Definition departure (i : input) : action :=
  match i with
  | LocalDisconnect => active State.ServerCallConnected LocalDisconnect
  | _ => abort_unexpected
  end.

Definition implemented (st : State.t) (i : input) : action :=
  if departs st i then departure i else step st i.

End Protocol.

(** * Refinement *)

(** The packet the Compound MAC is computed over. *)
Definition zero_mac (packet : bytes) : bytes := sub packet 0 80 ++ zeros 32.

Definition verifies `{AwsLc} (sm : StateMachine.t) (cb : CryptoBinding.t) (packet : bytes) : bool :=
  match StateMachine.binding sm with
  | Some b =>
      match verify (E := ()) cb b (zero_mac packet) with Ok BindingOutcome.Ok => true | _ => false end
  | None => false
  end.

Definition message_input `{AwsLc} (sm : StateMachine.t) (msg : ControlMessage.t)
    (packet nonce : bytes) : Protocol.input :=
  match msg with
  | ControlMessage.CallConnectRequest p => Protocol.ConnectRequest (p =? 1) nonce
  | ControlMessage.CallConnected cb => Protocol.Connected (verifies sm cb packet)
  | ControlMessage.CallDisconnect => Protocol.PeerDisconnect
  | ControlMessage.CallDisconnectAck => Protocol.PeerDisconnectAck
  | ControlMessage.CallAbort => Protocol.PeerAbort
  | ControlMessage.EchoRequest => Protocol.EchoRequest
  | ControlMessage.EchoResponse => Protocol.EchoResponse
  | ControlMessage.Other _ => Protocol.Unexpected
  end.

Definition input_of `{AwsLc} (s : Server.t) (ev : Server.event) : Protocol.input :=
  match ev with
  | Server.Control msg packet nonce => message_input (Server.ssm s) msg packet nonce
  | Server.Data => Protocol.Data
  | Server.InnerAuth _ => Protocol.Idle
  | Server.Disconnect => Protocol.LocalDisconnect
  | Server.SstpTimer =>
      match Server.sstp_timer s with Some t => Protocol.Expired t | None => Protocol.Idle end
  | Server.PeriodicTick idle =>
      if Server.hello_echo_pending s && (idle >=? 120) then Protocol.HelloTimeout
      else if negb (Server.hello_echo_pending s) && (idle >=? 60) then Protocol.Expired Timer.Hello
      else Protocol.Idle
  end.

(** The bytes and the [StepOut] of an action. *)
Definition emit (tx : bytes) (a : Protocol.action) : bytes :=
  match Protocol.reply a with Some (ty, attrs) => (written tx ty attrs).1 | None => tx end.

Definition out_of (a : Protocol.action) : StepOut.t :=
  {| StepOut.send_len :=
       match Protocol.reply a with Some (ty, attrs) => len (message_bytes ty attrs) | None => 0 end;
     StepOut.timer_stop := Protocol.stop a; StepOut.timer_start := Protocol.start a;
     StepOut.notify := Protocol.notify a; StepOut.terminate := Protocol.terminate a |}.

(** What the driver guarantees of an event: the shape of a parsed control packet, 32 random bytes,
    and that a timer fires only while it is armed. *)
Definition event_ok (s : Server.t) (ev : Server.event) : Prop :=
  match ev with
  | Server.SstpTimer => is_Some (Server.sstp_timer s)
  | Server.Control msg packet nonce =>
      length nonce = 32%nat /\
      match msg with
      | ControlMessage.CallConnected cb => binding_wf cb /\ len packet = 112
      | _ => True
      end
  | _ => True
  end.

(** The timer a state waits on. *)
Definition awaited (st : State.t) : option Timer.t :=
  match st with
  | State.ServerConnectRequestPending | State.ServerCallConnectedPending => Some Timer.Negotiation
  | State.CallAbortPending => Some Timer.AbortT1
  | State.CallAbortTimeoutPending => Some Timer.AbortT2
  | State.CallDisconnectAckPending => Some Timer.DisconnectT1
  | State.CallDisconnectTimeoutPending => Some Timer.DisconnectT2
  | State.ServerCallConnected | State.ServerCallDisconnected => None
  end.

(** A live session: the timer slot holds the timer its state waits on, and the binding state was
    recorded before Call Connected is awaited. *)
Record inv (s : Server.t) : Prop := {
  inv_live : StateMachine.state (Server.ssm s) <> State.ServerCallDisconnected;
  inv_timer : Server.sstp_timer s = awaited (StateMachine.state (Server.ssm s));
  inv_binding : StateMachine.state (Server.ssm s) = State.ServerCallConnectedPending ->
                is_Some (StateMachine.binding (Server.ssm s))
}.

Section Refinement.
Context {bp : BuildProfile} {lib : AwsLc} {laws : AwsLcLaws lib} {E : Type}.

Lemma start_abort_ok sm reason attr status tx :
  AbortReason.to_status reason = Some (AttributeId.as_u8 attr, status) -> 20 <= len tx ->
  @StateMachine.start_abort bp E sm reason tx =
  Ok (StateMachine.transition sm State.CallAbortPending, emit tx (Protocol.abort attr status),
      out_of (Protocol.abort attr status)).
Proof.
  intros Hs Htx. unfold StateMachine.start_abort, encode_call_abort.
  rewrite encode_status_info_message_ok, Hs; [done | lia | auto].
Qed.

Lemma zeroed_ok packet :
  len packet = 112 ->
  (zeroed ← copy_slice (zeros CALL_CONNECTED_LEN) 0 CALL_CONNECTED_LEN packet;
   fill_slice zeroed 80 112 0) = @Ok E _ (zero_mac packet).
Proof.
  intros Hp. change (zeros CALL_CONNECTED_LEN) with ([] ++ zeros 112).
  rewrite copy_slice_app; [|done|unfold CALL_CONNECTED_LEN; simpl; lia|simpl; lia].
  cbn [mbind res_bind app]. rewrite drop_ge by (simpl; lia). rewrite app_nil_r.
  rewrite <- (take_drop 80 packet) at 1. rewrite fill_slice_app by len_lia.
  rewrite drop_ge by len_lia. rewrite app_nil_r. by unfold zero_mac, sub.
Qed.

Lemma on_control_connected_eq sm cb packet nonce tx :
  len packet = 112 ->
  @Server.on_control bp lib E sm (ControlMessage.CallConnected cb) packet nonce tx =
  StateMachine.verify_call_connected sm cb (zero_mac packet) tx.
Proof.
  intros Hp. unfold Server.on_control. pose proof (zeroed_ok packet Hp) as Hz.
  apply bind_ok in Hz as (z & Hz1 & Hz2). rewrite Hz1. cbn [mbind res_bind]. by rewrite Hz2.
Qed.

(** The state machine's own state after an accepted Call Connect Request carries the binding. *)
Definition bind_nonce (sm : StateMachine.t) (nonce : bytes) : StateMachine.t :=
  StateMachine.set_binding sm (Some
    {| ServerBindingState.server_nonce := nonce;
       ServerBindingState.server_cert_hash_sha1 := StateMachine.server_cert_hash_sha1 sm;
       ServerBindingState.server_cert_hash_sha256 := StateMachine.server_cert_hash_sha256 sm;
       ServerBindingState.server_hash_protocol_supported := 3;
       ServerBindingState.hlak := None |}).

Definition next_binding (sm : StateMachine.t) (i : Protocol.input) : StateMachine.t :=
  match StateMachine.state sm, i with
  | State.ServerConnectRequestPending, Protocol.ConnectRequest true nonce => bind_nonce sm nonce
  | _, _ => sm
  end.

(** Every handler of the state machine computes the protocol action. *)
Definition handles (sm : StateMachine.t) (tx : bytes) (i : Protocol.input)
    (r : res E (StateMachine.t * bytes * StepOut.t)) : Prop :=
  let a := Protocol.implemented (StateMachine.state sm) i in
  r = Ok (StateMachine.transition (next_binding sm i) (Protocol.next a), emit tx a, out_of a).

Lemma transition_same sm st : StateMachine.state sm = st -> StateMachine.transition sm st = sm.
Proof. intros <-. by destruct sm. Qed.

End Refinement.

#[local] Arguments encode_empty_control : simpl never.
#[local] Arguments encode_status_info_message : simpl never.
#[local] Arguments encode_call_connect_ack : simpl never.
#[local] Arguments encode_call_connect_nak : simpl never.
#[local] Arguments StateMachine.start_abort : simpl never.
#[local] Arguments message_bytes : simpl never.
#[local] Arguments status_info_attr : simpl never.
#[local] Arguments binding_req_attr : simpl never.

(** [handler] runs one branch of a handler and compares it with the protocol action. *)
#[local] Ltac handler :=
  cbn in *;
  repeat first [ rewrite (start_abort_ok _ _ AttributeId.StatusInfo StatusCode.UnacceptedFrameReceived)
                   by (done || lia)
               | rewrite encode_status_info_message_ok by (simpl; (lia || done))
               | rewrite encode_empty_control_ok by (lia || auto) ];
  cbn in *; done.

Section Handlers.
Context {bp : BuildProfile} {lib : AwsLc} {laws : AwsLcLaws lib} {E : Type}.
Variables (sm : StateMachine.t) (tx : bytes).
Hypothesis tx_len : 48 <= len tx.

#[local] Abbreviation handles := (@handles E sm tx).

Lemma on_call_disconnect_handles :
  handles Protocol.PeerDisconnect (StateMachine.on_call_disconnect sm tx).
Proof using tx_len.
  destruct sm as [st ???]. unfold SstpServer.handles, StateMachine.on_call_disconnect.
  destruct st; handler.
Qed.

Lemma on_call_disconnect_ack_handles :
  handles Protocol.PeerDisconnectAck (StateMachine.on_call_disconnect_ack sm tx).
Proof using tx_len.
  destruct sm as [st ???]. unfold SstpServer.handles, StateMachine.on_call_disconnect_ack.
  destruct st; handler.
Qed.

Lemma on_call_abort_handles : handles Protocol.PeerAbort (StateMachine.on_call_abort sm tx).
Proof using tx_len.
  destruct sm as [st ???]. unfold SstpServer.handles, StateMachine.on_call_abort, encode_call_abort.
  destruct st; handler.
Qed.

Lemma on_echo_request_handles : handles Protocol.EchoRequest (StateMachine.on_echo_request sm tx).
Proof using tx_len.
  destruct sm as [st ???]. unfold SstpServer.handles, StateMachine.on_echo_request.
  destruct st; handler.
Qed.

Lemma on_echo_response_handles : handles Protocol.EchoResponse (StateMachine.on_echo_response sm tx).
Proof using tx_len.
  destruct sm as [st ???]. unfold SstpServer.handles, StateMachine.on_echo_response.
  destruct st; handler.
Qed.

Lemma unexpected_handles : handles Protocol.Unexpected (StateMachine.unexpected sm tx).
Proof using tx_len.
  destruct sm as [st ???]. unfold SstpServer.handles, StateMachine.unexpected.
  destruct st; handler.
Qed.

Lemma on_higher_layer_disconnect_handles :
  handles Protocol.LocalDisconnect (StateMachine.on_higher_layer_disconnect sm tx).
Proof using tx_len.
  destruct sm as [st ???]. unfold SstpServer.handles, StateMachine.on_higher_layer_disconnect,
    encode_call_disconnect.
  destruct st; handler.
Qed.

Lemma on_call_connect_request_handles p nonce :
  length nonce = 32%nat ->
  handles (Protocol.ConnectRequest (p =? 1) nonce)
    (StateMachine.on_call_connect_request sm p nonce tx).
Proof using tx_len.
  intros Hn. destruct sm as [st ???].
  unfold SstpServer.handles, StateMachine.on_call_connect_request, SSTP_ENCAPSULATED_PROTOCOL_PPP.
  destruct st, (p =? 1); try handler; cbn.
  - rewrite encode_call_connect_ack_ok by (lia || done). cbn [mbind res_bind written].
    rewrite debug_assert_ok; [done|]. rewrite length_message_bytes. unfold CALL_CONNECT_ACK_LEN.
    apply Z.eqb_eq. simpl length. rewrite app_nil_r. lia.
  - by rewrite encode_call_connect_nak_ok by lia.
Qed.

Lemma verify_verifies cb b packet :
  binding_wf cb -> StateMachine.binding sm = Some b ->
  @verify lib E cb b (zero_mac packet) =
  Ok (if verifies sm cb packet then BindingOutcome.Ok else BindingOutcome.ValueNotSupported).
Proof using laws.
  intros Hwf Hb. unfold verifies. rewrite Hb.
  pose proof (verify_accepts (E := E) cb b (zero_mac packet) Hwf) as HE.
  pose proof (verify_accepts (E := ()) cb b (zero_mac packet) Hwf) as Hu.
  destruct (verify_total (E := E) cb b (zero_mac packet) Hwf) as [H|H], 
    (verify_total (E := ()) cb b (zero_mac packet) Hwf) as [H'|H'];
    rewrite H, H' in *; naive_solver.
Qed.

Lemma verify_call_connected_handles cb packet :
  binding_wf cb ->
  (StateMachine.state sm = State.ServerCallConnectedPending -> is_Some (StateMachine.binding sm)) ->
  handles (Protocol.Connected (verifies sm cb packet))
    (StateMachine.verify_call_connected sm cb (zero_mac packet) tx).
Proof using laws tx_len.
  intros Hwf Hb. unfold SstpServer.handles, StateMachine.verify_call_connected.
  destruct (decide (StateMachine.state sm = State.ServerCallConnectedPending)) as [Hst|Hst].
  - rewrite bool_decide_true by done. cbn [negb].
    destruct (Hb Hst) as [b Hsb]. rewrite Hsb, (verify_verifies _ b) by done. cbn [mbind res_bind].
    unfold next_binding. rewrite Hst.
    destruct (verifies sm cb packet); [done|].
    by apply (start_abort_ok _ _ AttributeId.CryptoBinding StatusCode.ValueNotSupported); [|lia].
  - rewrite bool_decide_false by done. destruct sm as [st ???].
    generalize (verifies sm cb packet). intros v. destruct st; try handler; done.
Qed.

Lemma on_timer_handles timer :
  awaited (StateMachine.state sm) = Some timer ->
  handles (Protocol.Expired timer) (StateMachine.on_timer sm timer tx).
Proof using tx_len.
  intros Ht. destruct sm as [st ???]. unfold SstpServer.handles.
  destruct st; simplify_eq/=; try done.
  all: by apply (start_abort_ok _ _ AttributeId.StatusInfo StatusCode.NegotiationTimeout); [|lia].
Qed.

Lemma on_message_handles msg packet nonce :
  length nonce = 32%nat ->
  (forall cb, msg <> ControlMessage.CallConnected cb) ->
  handles (message_input sm msg packet nonce) (StateMachine.on_message sm msg nonce tx).
Proof using tx_len.
  intros Hn Hmsg. destruct msg; cbn [message_input StateMachine.on_message].
  - by apply on_call_connect_request_handles.
  - by destruct (Hmsg cb).
  - apply on_call_disconnect_handles.
  - apply on_call_disconnect_ack_handles.
  - apply on_echo_request_handles.
  - apply on_echo_response_handles.
  - apply on_call_abort_handles.
  - apply unexpected_handles.
Qed.

End Handlers.

Section Server_refinement.
Context {bp : BuildProfile} {lib : AwsLc} {laws : AwsLcLaws lib} {E : Type}.

Lemma on_control_handles sm tx msg packet nonce :
  48 <= len tx -> length nonce = 32%nat ->
  (forall cb, msg = ControlMessage.CallConnected cb -> binding_wf cb /\ len packet = 112) ->
  (StateMachine.state sm = State.ServerCallConnectedPending -> is_Some (StateMachine.binding sm)) ->
  @handles E sm tx (message_input sm msg packet nonce) (Server.on_control sm msg packet nonce tx).
Proof using laws.
  intros Htx Hn Hmsg Hb.
  destruct msg; try (by apply on_message_handles).
  destruct (Hmsg cb) as [Hwf Hp]; [done|]. rewrite on_control_connected_eq by done.
  by apply verify_call_connected_handles.
Qed.

(** The state machine after an event: the HLAK of an [InnerAuth] event, the protocol's next state. *)
Definition next_ssm (s : Server.t) (ev : Server.event) : StateMachine.t :=
  let sm := Server.ssm s in
  let i := input_of s ev in
  match ev with
  | Server.InnerAuth hlak => StateMachine.on_inner_auth_completed sm (Some hlak)
  | _ => StateMachine.transition (next_binding sm i)
           (Protocol.next (Protocol.implemented (StateMachine.state sm) i))
  end.

(** One turn of the driver performs the protocol action on the abstracted input. *)
Lemma step_refines s tx ev :
  inv s -> event_ok s ev -> 48 <= len tx ->
  let a := Protocol.implemented (StateMachine.state (Server.ssm s)) (input_of s ev) in
  exists s',
    @Server.step bp lib E s tx ev = Ok (s', emit tx a, out_of a) /\
    Server.ssm s' = next_ssm s ev /\
    Server.sstp_timer s' =
      Server.apply_timers
        match ev with Server.SstpTimer => None | _ => Server.sstp_timer s end (out_of a).
Proof using laws.
  intros [Hlive Htimer Hb] Hev Htx a.
  destruct ev as [msg packet nonce| |hlak| | |idle]; cbn [Server.step input_of next_ssm] in *;
    subst a.
  - destruct Hev as [Hn Hmsg].
    assert (Hh : handles (Server.ssm s) tx (message_input (Server.ssm s) msg packet nonce)
              (@Server.on_control bp lib E (Server.ssm s) msg packet nonce tx)).
    { apply on_control_handles; try done. by intros cb ->. }
    unfold handles in Hh. rewrite Hh. cbn [mbind res_bind]. eauto.
  - destruct s as [[st ???] slot h]. destruct st; cbn in *; eauto.
  - destruct s as [[st ???] slot h]. destruct st; cbn in *; eauto.
  - pose proof (on_higher_layer_disconnect_handles (E := E) (Server.ssm s) tx Htx) as Hh.
    unfold handles in Hh. rewrite Hh. cbn [mbind res_bind]. eauto.
  - destruct Hev as [which Hw]. rewrite Hw in *.
    pose proof (on_timer_handles (E := E) (Server.ssm s) tx Htx which (eq_sym Htimer)) as Hh.
    unfold handles in Hh. rewrite Hh. cbn [mbind res_bind]. eauto.
  - destruct s as [[st ???] slot h].
    unfold Server.on_tick, TIMER_VAL_HELLO. change (60 + 60) with 120.
    destruct h, (idle >=? 120), (idle >=? 60), st; try handler; cbn in *; eauto.
    all: unfold StateMachine.on_hello_expired; rewrite bool_decide_true by done; cbn.
    all: rewrite encode_empty_control_ok by (lia || auto); cbn; eauto.
Qed.

(** Every protocol action that keeps the session alive leaves the slot on the timer its new state
    waits on. *)
Lemma protocol_waits st i :
  let a := Protocol.implemented st i in
  st <> State.ServerCallDisconnected -> Protocol.terminate a = Terminate.None ->
  (forall t, i = Protocol.Expired t -> t = Timer.Hello \/ awaited st = Some t) ->
  Protocol.next a <> State.ServerCallDisconnected /\
  Server.apply_timers
    match i with
    | Protocol.Expired t => if decide (t = Timer.Hello) then awaited st else None
    | _ => awaited st
    end (out_of a) = awaited (Protocol.next a).
Proof.
  intros a. subst a. destruct i as [[]|[]| | | | | | | | |[]| |], st; cbn; naive_solver.
Qed.

Lemma next_ssm_state s ev :
  StateMachine.state (next_ssm s ev)
  = Protocol.next (Protocol.implemented (StateMachine.state (Server.ssm s)) (input_of s ev)).
Proof.
  destruct ev; try done. destruct s as [[st ?? []] ??]; destruct st; done.
Qed.

Lemma next_ssm_binding s ev :
  (StateMachine.state (Server.ssm s) = State.ServerCallConnectedPending ->
   is_Some (StateMachine.binding (Server.ssm s))) ->
  StateMachine.state (next_ssm s ev) = State.ServerCallConnectedPending ->
  is_Some (StateMachine.binding (next_ssm s ev)).
Proof.
  rewrite next_ssm_state. intros Hb.
  assert (Hi : forall i, Protocol.next (Protocol.implemented (StateMachine.state (Server.ssm s)) i)
    = State.ServerCallConnectedPending -> is_Some (StateMachine.binding (next_binding (Server.ssm s) i))).
  { destruct s as [[st h1 h2 b] slot h]. intros i.
    destruct i as [[]|[]| | | | | | | | |[]| |], st; cbn in *; naive_solver. }
  intros Hst%Hi. destruct ev; try done. revert Hst. destruct s as [[[] ?? []] ??]; cbn; naive_solver.
Qed.

Lemma inv_step s tx ev s' tx' out :
  inv s -> event_ok s ev -> 48 <= len tx ->
  @Server.step bp lib E s tx ev = Ok (s', tx', out) -> Server.keep_going out = true -> inv s'.
Proof using laws.
  intros Hinv Hev Htx Hstep Hgo.
  destruct (step_refines s tx ev) as (s'' & Hs & Hssm & Ht); try done.
  rewrite Hs in Hstep. simplify_eq. clear Hs. destruct Hinv as [Hlive Htimer Hb].
  apply bool_decide_eq_true in Hgo. cbn [out_of StepOut.terminate] in Hgo.
  destruct (protocol_waits _ _ Hlive Hgo) as [Hn Hw].
  { destruct ev; cbn; try done; [by destruct msg| |by repeat case_match; naive_solver].
    rewrite Htimer. case_match; naive_solver. }
  split; rewrite Hssm, ?next_ssm_state; try done.
  - rewrite Ht, <- Hw. f_equal. destruct ev; cbn; try done.
    + by destruct msg.
    + rewrite Htimer. destruct (StateMachine.state (Server.ssm s)); done.
    + rewrite Htimer. repeat case_match; simplify_eq; done.
  - rewrite <- next_ssm_state. by apply next_ssm_binding.
Qed.

End Server_refinement.

(** * Executions *)

Abbreviation trace := (list (Server.event * StepOut.t)).

Section Runs.
Context {bp : BuildProfile} {lib : AwsLc} {E : Type}.

(** The executions of one session: each turn is a [Server.step] with a transmit buffer of at least
    [MIN_TX_BUF] bytes, until a step terminates the session. *)
Inductive run (h1 h2 : bytes) : trace -> Server.t -> Prop :=
| run_init s out :
    @Server.init bp E h1 h2 = Ok (s, out) -> run h1 h2 [] s
| run_step tr s ev tx s' tx' out :
    run h1 h2 tr s -> Forall (fun p => Server.keep_going p.2 = true) tr ->
    event_ok s ev -> MIN_TX_BUF <= len tx ->
    @Server.step bp lib E s tx ev = Ok (s', tx', out) ->
    run h1 h2 (tr ++ [(ev, out)]) s'.

End Runs.

(** The HLAK last handed over by the authentication layer in a trace. *)
Definition last_hlak (tr : trace) : option bytes :=
  fold_left (fun acc p => match p.1 with Server.InnerAuth h => Some h | _ => acc end) tr None.

Definition notifications (tr : trace) : list NotifyHigher :=
  omap (fun p => StepOut.notify p.2) tr.

(** What a Call Connected must satisfy after the exchange [tr]. *)
Definition bound_by (h1 h2 : bytes) (tr : trace) (b : ServerBindingState.t) : Prop :=
  exists pre packet nonce out post,
    tr = pre ++ (Server.Control (ControlMessage.CallConnectRequest 1) packet nonce, out) :: post /\
    StepOut.notify out = Some StartPpp /\
    b = {| ServerBindingState.server_nonce := nonce;
           ServerBindingState.server_cert_hash_sha1 := h1;
           ServerBindingState.server_cert_hash_sha256 := h2;
           ServerBindingState.server_hash_protocol_supported := 3;
           ServerBindingState.hlak := last_hlak post |}.

Definition phase (st : State.t) : Z :=
  match st with
  | State.ServerConnectRequestPending => 0
  | State.ServerCallConnectedPending => 1
  | State.ServerCallConnected => 2
  | _ => 3
  end.

Definition first_notifications (st : State.t) (ns : list NotifyHigher) : Prop :=
  match st with
  | State.ServerConnectRequestPending => ns = []
  | State.ServerCallConnectedPending => ns = [StartPpp]
  | State.ServerCallConnected => ns = [StartPpp; SstpEstablished]
  | _ => ns `prefix_of` [StartPpp; SstpEstablished]
  end.

Section Executions.
Context {bp : BuildProfile} {lib : AwsLc} {laws : AwsLcLaws lib} {E : Type}.
Variables h1 h2 : bytes.

#[local] Abbreviation run := (@run bp lib E h1 h2).

Record trace_inv (tr : trace) (s : Server.t) : Prop := {
  ti_sha1 : StateMachine.server_cert_hash_sha1 (Server.ssm s) = h1;
  ti_sha256 : StateMachine.server_cert_hash_sha256 (Server.ssm s) = h2;
  ti_binding : forall b, StateMachine.binding (Server.ssm s) = Some b -> bound_by h1 h2 tr b;
  ti_notify : first_notifications (StateMachine.state (Server.ssm s)) (notifications tr)
}.

Lemma min_tx_buf (tx : bytes) : MIN_TX_BUF <= len tx -> 48 <= len tx.
Proof. done. Qed.

Lemma init_ok :
  @Server.init bp E h1 h2 =
  Ok ({| Server.ssm := StateMachine.transition (StateMachine.new h1 h2)
                         State.ServerConnectRequestPending;
         Server.sstp_timer := Some Timer.Negotiation; Server.hello_echo_pending := false |},
      StepOut.send_start 0 Timer.Negotiation TIMER_VAL_NEGOTIATION).
Proof.
  unfold Server.init, StateMachine.on_https_accepted.
  by rewrite debug_assert_ok by (by apply bool_decide_eq_true).
Qed.

Lemma run_inv tr s :
  run tr s -> Forall (fun p => Server.keep_going p.2 = true) tr -> inv s.
Proof using laws.
  induction 1 as [s out Hi | tr s ev tx s' tx' out Hrun IH Hgo Hev Htx Hstep]; intros Ha.
  - rewrite init_ok in Hi. by simplify_eq/=.
  - apply Forall_app in Ha as [_ Ha]. apply Forall_cons_1 in Ha as [Ha _].
    by apply (inv_step (E := E) s tx ev s' tx' out); [apply IH|..].
Qed.

Lemma last_hlak_snoc tr ev out :
  last_hlak (tr ++ [(ev, out)]) =
  match ev with Server.InnerAuth h => Some h | _ => last_hlak tr end.
Proof. unfold last_hlak. by rewrite fold_left_app. Qed.

Lemma bound_by_snoc tr b ev out :
  bound_by h1 h2 tr b -> (forall h, ev <> Server.InnerAuth h) -> bound_by h1 h2 (tr ++ [(ev, out)]) b.
Proof.
  intros (pre & p & nonce & o & post & -> & Ho & ->) Hev.
  exists pre, p, nonce, o, (post ++ [(ev, out)]). rewrite <- app_assoc. split_and!; [done..|].
  rewrite last_hlak_snoc. destruct ev; naive_solver.
Qed.

Lemma protocol_notifies st i ns :
  st <> State.ServerCallDisconnected -> 
  first_notifications st ns ->
  let a := Protocol.implemented st i in
  first_notifications (Protocol.next a) (ns ++ option_list (Protocol.notify a)).
Proof.
  intros Hst. cbn zeta. destruct i as [[]|[]| | | | | | | | |[]| |], st; cbn; try done.
  all: intros Hns; rewrite ?app_nil_r; try done; try by subst.
  all: subst; (by exists [StartPpp; SstpEstablished]) || (by exists [SstpEstablished]).
Qed.

Lemma next_binding_cases sm i b :
  StateMachine.binding (next_binding sm i) = Some b ->
  StateMachine.binding sm = Some b \/
  exists nonce, StateMachine.state sm = State.ServerConnectRequestPending /\
    i = Protocol.ConnectRequest true nonce /\ StateMachine.binding (bind_nonce sm nonce) = Some b.
Proof. unfold next_binding. repeat case_match; naive_solver. Qed.

Lemma next_ssm_bound tr s ev b :
  StateMachine.server_cert_hash_sha1 (Server.ssm s) = h1 ->
  StateMachine.server_cert_hash_sha256 (Server.ssm s) = h2 ->
  (forall b, StateMachine.binding (Server.ssm s) = Some b -> bound_by h1 h2 tr b) ->
  StateMachine.binding (next_ssm s ev) = Some b ->
  bound_by h1 h2 (tr ++ [(ev, out_of (Protocol.implemented (StateMachine.state (Server.ssm s))
                                        (input_of s ev)))]) b.
Proof.
  intros H1 H2 Hb Hn.
  assert (Hcase : (exists hlak, ev = Server.InnerAuth hlak) \/
                  ((forall h, ev <> Server.InnerAuth h) /\
                   StateMachine.binding (next_binding (Server.ssm s) (input_of s ev)) = Some b)).
  { destruct ev; naive_solver. }
  destruct Hcase as [[hlak ->]|[Hne Hnb]].
  - cbn in Hn. unfold StateMachine.on_inner_auth_completed in Hn.
    destruct (StateMachine.binding (Server.ssm s)) as [b0|] eqn:E0; [|congruence].
    destruct (Hb b0 eq_refl) as (pre & p & nonce & o & post & -> & Ho & ->). cbn in Hn. simplify_eq.
    eexists pre, p, nonce, o, (post ++ [_]). rewrite <- app_assoc. split_and!; [done..|].
    by rewrite last_hlak_snoc.
  - apply next_binding_cases in Hnb as [Hs | (nonce & Hst & Hi & Hs)].
    + apply bound_by_snoc; auto.
    + rewrite Hi, Hst. destruct ev as [msg packet nonce'| | | | |]; cbn in Hi; try done.
      2,3: repeat case_match; done.
      destruct msg; cbn in Hi; simplify_eq.
      assert (protocol_id = 1) as -> by lia.
      eexists tr, packet, nonce, _, []. split_and!; [done..|].
      cbn in Hs. by injection Hs as <-.
Qed.

Lemma run_trace_inv tr s : run tr s -> trace_inv tr s.
Proof using laws.
  induction 1 as [s out Hi | tr s ev tx s' tx' out Hrun IH Hgo Hev Htx Hstep].
  - rewrite init_ok in Hi. by simplify_eq/=.
  - pose proof (run_inv _ _ Hrun Hgo) as Hinv.
    destruct (step_refines (E := E) s tx ev) as (s'' & Hs & Hssm & _); auto using min_tx_buf.
    rewrite Hs in Hstep. simplify_eq. destruct IH as [I1 I2 I3 I4], Hinv as [Hlive _ _].
    split; rewrite Hssm.
    + destruct s as [[??? []] ??], ev; cbn in *; try done; unfold next_binding; repeat case_match; done.
    + destruct s as [[??? []] ??], ev; cbn in *; try done; unfold next_binding; repeat case_match; done.
    + intros b. by apply next_ssm_bound.
    + rewrite next_ssm_state. unfold notifications. rewrite omap_app. cbn [omap list_omap snd out_of StepOut.notify].
      pose proof (protocol_notifies _ (input_of s ev) _ Hlive I4) as H. cbn zeta in H. 
      by destruct (Protocol.notify _).
Qed.

Lemma run_split tr1 ev out tr2 s :
  run (tr1 ++ (ev, out) :: tr2) s ->
  exists s1 tx s2 tx',
    run tr1 s1 /\ Forall (fun p => Server.keep_going p.2 = true) tr1 /\ event_ok s1 ev /\
    MIN_TX_BUF <= len tx /\ @Server.step bp lib E s1 tx ev = Ok (s2, tx', out) /\
    run (tr1 ++ [(ev, out)]) s2.
Proof.
  remember (tr1 ++ (ev, out) :: tr2) as tr eqn:Htr. intros Hrun. revert tr2 Htr.
  induction Hrun as [s ? Hi | tr s ev' tx s' tx' out' Hrun IH Hgo Hev Htx Hstep]; intros tr2 Htr.
  - by destruct tr1.
  - destruct tr2 as [|p tr2 _] using rev_ind.
    + apply app_inj_tail in Htr as [-> Heq]. simplify_eq.
      exists s, tx, s', tx'. split_and!; try done. by eapply run_step.
    + rewrite app_comm_cons, app_assoc in Htr. apply app_inj_tail in Htr as [-> _]. by eapply IH.
Qed.

(** Only a verified Call Connected notifies that the tunnel is established. *)
Lemma established_inv st i :
  Protocol.notify (Protocol.implemented st i) = Some SstpEstablished -> i = Protocol.Connected true.
Proof. destruct i as [[]|[]| | | | | | | | |[]| |], st; done. Qed.

Lemma input_connected s ev :
  input_of s ev = Protocol.Connected true ->
  exists cb packet nonce, ev = Server.Control (ControlMessage.CallConnected cb) packet nonce /\
    verifies (Server.ssm s) cb packet = true.
Proof.
  destruct ev as [[]| | | | |]; cbn; try done; intros; repeat case_match; naive_solver.
Qed.

Lemma verifies_valid sm cb packet :
  binding_wf cb -> verifies sm cb packet = true ->
  exists b, StateMachine.binding sm = Some b /\ binding_valid cb b (zero_mac packet).
Proof using laws.
  unfold verifies. intros Hwf. destruct (StateMachine.binding sm) as [b|]; [|done]. intros Hv.
  exists b. split; [done|]. apply (verify_accepts (E := ())); [done|]. repeat case_match; naive_solver.
Qed.

(** C2: SSTP is reported established only by a Call Connected whose crypto binding verifies: its
    nonce is the one sent in the Call Connect Ack of this session, its certificate hash is the hash
    of the server's own certificate, and its Compound MAC is the HMAC of the packet under the key
    derived from the HLAK that authentication handed over since. *)
Theorem established_only_after_verified_binding tr1 ev out tr2 s :
  run (tr1 ++ (ev, out) :: tr2) s -> StepOut.notify out = Some SstpEstablished ->
  exists cb packet nonce b,
    ev = Server.Control (ControlMessage.CallConnected cb) packet nonce /\
    bound_by h1 h2 tr1 b /\ binding_valid cb b (zero_mac packet).
Proof using laws.
  intros (s1 & tx & s2 & tx' & Hrun & Hgo & Hev & Htx & Hstep & _)%run_split Hn.
  pose proof (run_inv _ _ Hrun Hgo) as Hinv.
  destruct (step_refines (E := E) s1 tx ev) as (s'' & Hs & _); auto using min_tx_buf.
  rewrite Hs in Hstep. simplify_eq.
  apply established_inv, input_connected in Hn as (cb & packet & nonce & -> & Hv).
  destruct Hev as (_ & Hwf & _). apply verifies_valid in Hv as (b & Hb & Hvalid); [|done].
  destruct (run_trace_inv _ _ Hrun) as [_ _ I3 _]. eauto 10.
Qed.

(** The server is in [Server_Call_Connected] only if PPP was started and then the tunnel was
    reported established, each exactly once and in that order; in every other state the
    notifications of the session are a prefix of that sequence. *)
Theorem notifications_in_order tr s :
  run tr s -> first_notifications (StateMachine.state (Server.ssm s)) (notifications tr).
Proof using laws. apply run_trace_inv. Qed.

End Executions.

(** * Guarantees of one turn *)

Section Guarantees.
Context {bp : BuildProfile} {lib : AwsLc} {laws : AwsLcLaws lib} {E : Type}.

Lemma implemented_step st i :
  Protocol.departs st i = false -> Protocol.implemented st i = Protocol.step st i.
Proof. unfold Protocol.implemented. by intros ->. Qed.


(** In the departures, all of them while an abort or a disconnect is already in progress, the
    driver restarts the exchange instead of ignoring the input: a Call Connected or an unexpected
    message type sends a second Call Abort and returns to [Call_Abort_Pending], a local disconnect
    sends a Call Disconnect even after an abort. *)
Theorem departures_restart_the_exchange s tx ev :
  inv s -> event_ok s ev -> MIN_TX_BUF <= len tx ->
  Protocol.departs (StateMachine.state (Server.ssm s)) (input_of s ev) = true ->
  exists s' tx' out,
    @Server.step bp lib E s tx ev = Ok (s', tx', out) /\ 0 < StepOut.send_len out /\
    StateMachine.state (Server.ssm s') =
      match ev with
      | Server.Disconnect => State.CallDisconnectAckPending
      | _ => State.CallAbortPending
      end.
Proof using laws.
  intros Hinv Hev Htx%min_tx_buf Hd.
  destruct (step_refines (E := E) s tx ev) as (s' & Hs & Hssm & _); [done..|].
  eexists s', _, _. split; [exact Hs|]. rewrite Hssm, next_ssm_state.
  unfold Protocol.implemented. rewrite Hd. apply andb_true_iff in Hd as [_ Hd].
  destruct ev as [[]| | | | |]; cbn in Hd |- *; try done; repeat case_match; done.
Qed.

(** Every packet the server sends is one of these. *)
Definition server_reply (ty : MessageType.t) (attrs : list Attribute.t) : Prop :=
  (ty = MessageType.CallConnectAck /\
    exists nonce, length nonce = 32%nat /\ attrs = [binding_req_attr 3 nonce]) \/
  ((ty = MessageType.CallConnectNak \/ ty = MessageType.CallAbort \/ ty = MessageType.CallDisconnect) /\
    exists info, attrs = [status_info_attr info]) \/
  ((ty = MessageType.CallAbort \/ ty = MessageType.CallDisconnectAck \/
    ty = MessageType.EchoRequest \/ ty = MessageType.EchoResponse) /\ attrs = []).

Lemma protocol_reply st i ty attrs :
  (forall ppp nonce, i = Protocol.ConnectRequest ppp nonce -> length nonce = 32%nat) ->
  Protocol.reply (Protocol.implemented st i) = Some (ty, attrs) -> server_reply ty attrs.
Proof.
  unfold server_reply. intros Hn.
  destruct i as [[]|[]| | | | | | | | |[]| |], st; cbn; intros; simplify_eq.
  all: first [ left; split; [done|]; eexists; split; [|done]; by eapply Hn
             | right; left; split; [by eauto|]; eexists; done
             | right; right; split; [by eauto|done] ].
Qed.

Lemma server_reply_length ty attrs :
  server_reply ty attrs -> len (message_bytes ty attrs) <= 48 /\ len attrs <= 1.
Proof.
  intros [(_ & nonce & Hn & ->) | [(_ & [i s] & ->) | (_ & ->)]]; rewrite length_message_bytes.
  - simpl. rewrite app_nil_r. lia.
  - simpl. lia.
  - simpl. lia.
Qed.

Lemma server_turn_total s tx ev :
  inv s -> event_ok s ev -> MIN_TX_BUF <= len tx ->
  exists s' tx' out,
    @Server.step bp lib E s tx ev = Ok (s', tx', out) /\
    (Server.keep_going out = true -> inv s') /\
    (StepOut.send_len out = 0 /\ tx' = tx \/
     exists ty attrs rest, server_reply ty attrs /\ StepOut.send_len out = len (message_bytes ty attrs) /\
       tx' = message_bytes ty attrs ++ rest /\ len tx' = len tx).
Proof using laws.
  intros Hinv Hev Htx%min_tx_buf.
  destruct (step_refines (E := E) s tx ev) as (s' & Hs & _); [done..|].
  eexists s', _, _. split; [exact Hs|]. split; [by eapply inv_step|].
  unfold emit, out_of; cbn [StepOut.send_len].
  destruct (Protocol.reply _) as [[ty attrs]|] eqn:Hr; [right|by left].
  assert (Hreply : server_reply ty attrs).
  { eapply protocol_reply; [|done]. destruct ev as [[]| | | | |]; cbn; intros; simplify_eq.
    - by destruct Hev.
    - repeat case_match; done.
    - repeat case_match; done. }
  pose proof (server_reply_length _ _ Hreply) as [Hl _]. eexists ty, attrs, _. split; [done|].
  split; [done|]. split; [done|]. cbn [written fst].
  rewrite length_app, length_drop. lia.
Qed.

(** C12: From any state of the invariant and for any event, a turn of the driver never panics; it
    either sends nothing or leaves at the front of the transmit buffer one of the server's control
    messages, at most 48 bytes long, which the packet parser reads back exactly; and unless it
    terminates the session it re-establishes the invariant. *)
Theorem turn_total_and_replies_parse s tx ev :
  inv s -> event_ok s ev -> MIN_TX_BUF <= len tx ->
  exists s' tx' out,
    @Server.step bp lib E s tx ev = Ok (s', tx', out) /\
    (Server.keep_going out = true -> inv s') /\
    (StepOut.send_len out = 0 /\ tx' = tx \/
     exists ty attrs, server_reply ty attrs /\ 0 < StepOut.send_len out <= 48 /\
       Packet.parse tx' = Ok (control_packet ty attrs, StepOut.send_len out)).
Proof using laws.
  intros Hinv Hev Htx. destruct (server_turn_total s tx ev) as (s' & tx' & out & Hs & Hi & Ho); [done..|].
  exists s', tx', out. split; [done|]. split; [done|].
  destruct Ho as [Ho | (ty & attrs & rest & Hr & Hl & -> & _)]; [by left|right].
  pose proof (server_reply_length _ _ Hr). exists ty, attrs. split; [done|]. rewrite Hl.
  rewrite length_message_bytes in *. split; [lia|].
  rewrite <- (length_message_bytes ty attrs). apply parse_message_bytes; unfold SSTP_MAX_PACKET_LEN; len_lia.
Qed.

Lemma protocol_phase st i :
  st <> State.ServerCallDisconnected ->
  phase st <= phase (Protocol.next (Protocol.implemented st i)).
Proof. intros. destruct i as [[]|[]| | | | | | | | |[]| |], st; cbn; done || lia. Qed.

(** A session only moves forward: request pending, connected pending, connected, teardown.  In
    particular once an abort or a disconnect has begun no event brings it back to connected. *)
Theorem session_moves_forward s tx ev s' tx' out :
  inv s -> event_ok s ev -> MIN_TX_BUF <= len tx ->
  @Server.step bp lib E s tx ev = Ok (s', tx', out) ->
  phase (StateMachine.state (Server.ssm s)) <= phase (StateMachine.state (Server.ssm s')).
Proof using laws.
  intros Hinv Hev Htx%min_tx_buf Hstep.
  destruct (step_refines (E := E) s tx ev) as (s'' & Hs & Hssm & _); [done..|].
  rewrite Hs in Hstep. simplify_eq. rewrite Hssm, next_ssm_state.
  apply protocol_phase, Hinv.
Qed.

(** Firing the armed timer until the session terminates, at most [n] times. *)
Fixpoint expire (n : nat) (s : Server.t) (tx : bytes) : option Terminate.t :=
  match n with
  | O => None
  | S n =>
      match @Server.step bp lib E s tx Server.SstpTimer with
      | Ok (s', tx', out) =>
          if Server.keep_going out then expire n s' tx' else Some (StepOut.terminate out)
      | _ => None
      end
  end.

(** Expirations a state is away from termination. *)
Definition expirations_left (st : State.t) : nat :=
  match st with
  | State.ServerConnectRequestPending | State.ServerCallConnectedPending => 3
  | State.CallAbortPending => 2
  | _ => 1
  end.

Lemma protocol_expires st t :
  awaited st = Some t ->
  let a := Protocol.implemented st (Protocol.Expired t) in
  Protocol.terminate a = Terminate.Graceful \/
  (Protocol.terminate a = Terminate.None /\ is_Some (awaited (Protocol.next a)) /\
   (expirations_left (Protocol.next a) < expirations_left st)%nat).
Proof.
  destruct st, t; cbn; try done; intros _.
  all: first [by left | right; split_and!; [done | by eexists | lia]].
Qed.

Lemma expire_ends n s tx :
  inv s -> is_Some (awaited (StateMachine.state (Server.ssm s))) -> 48 <= len tx ->
  (expirations_left (StateMachine.state (Server.ssm s)) <= n)%nat ->
  expire n s tx = Some Terminate.Graceful.
Proof using laws.
  revert s tx. induction n as [|n IH]; intros s tx Hinv [t Ht] Htx Hn.
  { by destruct (StateMachine.state _); simpl in Hn; lia. }
  assert (Hev : event_ok s Server.SstpTimer) by (cbn; rewrite (inv_timer _ Hinv), Ht; eauto).
  destruct (step_refines (E := E) s tx Server.SstpTimer) as (s' & Hs & Hssm & _); [done..|].
  pose proof (inv_step (E := E) _ _ _ _ _ _ Hinv Hev Htx Hs) as Hinv'.
  pose proof (next_ssm_state s Server.SstpTimer) as Hst. rewrite <- Hssm in Hst.
  cbn [expire]. rewrite Hs. unfold Server.keep_going in *. cbn [input_of] in *.
  rewrite (inv_timer _ Hinv), Ht in *. cbn [out_of StepOut.terminate] in *.
  destruct (protocol_expires _ _ Ht) as [Hg | (Hg & Hw & Hl)]; rewrite Hg in *; [done|].
  rewrite bool_decide_true in * by done. apply IH; rewrite ?Hst; auto; [|lia].
  destruct (StateMachine.state (Server.ssm s)), t; try done; cbn; rewrite ?length_app; len_lia.
Qed.

(** C13: A peer that goes silent cannot hold a session: from every state but connected, three timer
    expirations at most terminate it gracefully, with no further input. *)
Theorem silent_peer_is_dropped s tx :
  inv s -> MIN_TX_BUF <= len tx -> 
  StateMachine.state (Server.ssm s) <> State.ServerCallConnected ->
  expire 3 s tx = Some Terminate.Graceful.
Proof using laws.
  intros Hinv Htx%min_tx_buf Hc. apply expire_ends; [done| |done|].
  - destruct Hinv as [Hlive _ _]. destruct (StateMachine.state _); naive_solver.
  - destruct (StateMachine.state _); cbn; lia.
Qed.

(** When connected, a minute without traffic sends an Echo Request and a second silent minute
    drops the connection without sending anything. *)
Theorem hello_timeout_drops s tx idle1 idle2 :
  StateMachine.state (Server.ssm s) = State.ServerCallConnected ->
  Server.hello_echo_pending s = false -> MIN_TX_BUF <= len tx -> 60 <= idle1 -> 120 <= idle2 ->
  exists s1 out1 s2 out2,
    let tx1 := message_bytes MessageType.EchoRequest [] ++ drop 8 tx in
    @Server.step bp lib E s tx (Server.PeriodicTick idle1) = Ok (s1, tx1, out1) /\
    StepOut.send_len out1 = 8 /\ Server.keep_going out1 = true /\
    @Server.step bp lib E s1 tx1 (Server.PeriodicTick idle2) = Ok (s2, tx1, out2) /\
    StepOut.send_len out2 = 0 /\ StepOut.terminate out2 = Terminate.Abrupt.
Proof.
  intros Hst Hh Htx%min_tx_buf H1 H2. destruct s as [[st ???] slot h]. cbn in Hst, Hh. subst.
  cbn [Server.step]. unfold Server.on_tick, TIMER_VAL_HELLO. cbn.
  replace (idle1 >=? 60) with true by lia. rewrite bool_decide_true by done. cbn.
  unfold StateMachine.on_hello_expired. rewrite bool_decide_true by done. cbn.
  rewrite encode_empty_control_ok by (lia || auto). cbn. do 4 eexists. split_and!; try done.
  all: cbn; try rewrite bool_decide_true by done.
  all: try replace (idle2 >=? 60 + 60) with true by lia; done.
Qed.

End Guarantees.

(** * A complete exchange, with a computable stand-in for AWS-LC *)

Module Exchange.

#[local] Instance profile : BuildProfile := true.
#[local] Existing Instance ToyCrypto.toy.
#[local] Existing Instance ToyCrypto.toy_laws.

Definition cert1 : bytes := replicate 20 1.
Definition cert2 : bytes := replicate 32 2.
Definition nonce : bytes := replicate 32 7.
Definition hlak : bytes := replicate 32 9.

Definition connected_packet (mac : bytes) : bytes :=
  message_bytes MessageType.CallConnected [binding_attr 2 nonce cert2 mac].

Definition mac : bytes := HMAC Sha256 (cmk Sha256 hlak) (connected_packet (zeros 32)).

Definition client_binding : CryptoBinding.t :=
  {| CryptoBinding.hash_protocol := 2; CryptoBinding.nonce := nonce;
     CryptoBinding.cert_hash_block := cert2; CryptoBinding.compound_mac_block := mac |}.

Definition request : Server.event :=
  Server.Control (ControlMessage.CallConnectRequest 1) [] nonce.
Definition connected : Server.event :=
  Server.Control (ControlMessage.CallConnected client_binding) (connected_packet mac) nonce.

Definition start : Server.t :=
  match @Server.init _ () cert1 cert2 with Ok (s, _) => s
  | _ => {| Server.ssm := StateMachine.new cert1 cert2; Server.sstp_timer := None;
            Server.hello_echo_pending := false |} end.

Definition turn (s : Server.t) (ev : Server.event) : Server.t * StepOut.t :=
  match Server.step (E := ()) s (zeros 64) ev with Ok (s', _, out) => (s', out)
  | _ => (s, StepOut.new) end.

Definition pending : Server.t := (turn start request).1.
Definition authenticated : Server.t := (turn pending (Server.InnerAuth hlak)).1.
Definition established : Server.t := (turn authenticated connected).1.

Definition exchange : trace :=
  [(request, (turn start request).2); (Server.InnerAuth hlak, StepOut.new)].
Definition established_out : StepOut.t := (turn authenticated connected).2.

Lemma run_exchange : run (E := ()) cert1 cert2 exchange authenticated.
Proof.
  apply (run_step (E := ()) cert1 cert2 [(request, (turn start request).2)] pending
           (Server.InnerAuth hlak) (zeros 64) authenticated (zeros 64) StepOut.new).
  - eapply (run_step (E := ()) cert1 cert2 [] start request (zeros 64)).
    + by eapply run_init.
    + done.
    + by split.
    + done.
    + by vm_compute.
  - by repeat constructor.
  - done.
  - done.
  - by vm_compute.
Qed.

Lemma run_established :
  run (E := ()) cert1 cert2 (exchange ++ [(connected, established_out)]) established.
Proof.
  eapply (run_step (E := ()) cert1 cert2 exchange authenticated connected (zeros 64) established).
  - apply run_exchange.
  - by repeat constructor.
  - by repeat split.
  - done.
  - by vm_compute.
Qed.

Lemma inv_start : inv start.
Proof. by split; vm_compute. Qed.

Lemma inv_pending : inv pending.
Proof. split; vm_compute; eauto; done. Qed.

Lemma inv_authenticated : inv authenticated.
Proof. split; vm_compute; eauto; done. Qed.

Definition draining : Server.t := (turn start Server.Disconnect).1.

Lemma inv_draining : inv draining.
Proof. by split; vm_compute. Qed.

Lemma established_only_after_verified_binding_witness :
  StepOut.notify established_out = Some SstpEstablished /\
  exists cb packet n b,
    connected = Server.Control (ControlMessage.CallConnected cb) packet n /\
    bound_by cert1 cert2 exchange b /\ binding_valid cb b (zero_mac packet).
Proof.
  split; [by vm_compute|].
  apply (established_only_after_verified_binding (E := ()) cert1 cert2 exchange connected
           established_out [] established run_established).
  by vm_compute.
Defined.

Lemma notifications_in_order_witness :
  StateMachine.state (Server.ssm established) = State.ServerCallConnected /\
  first_notifications (StateMachine.state (Server.ssm established))
    (notifications (exchange ++ [(connected, established_out)])).
Proof.
  split; [by vm_compute|].
  exact (notifications_in_order (E := ()) cert1 cert2 _ _ run_established).
Defined.


Lemma departures_restart_the_exchange_witness :
  exists s' tx' out,
    Server.step (E := ()) draining (zeros 48) connected = Ok (s', tx', out) /\
    0 < StepOut.send_len out /\ StateMachine.state (Server.ssm s') = State.CallAbortPending.
Proof.
  apply (departures_restart_the_exchange (E := ()) draining (zeros 48) connected inv_draining).
  - by repeat split.
  - done.
  - by vm_compute.
Defined.

Lemma turn_total_and_replies_parse_witness :
  exists s' tx' out,
    Server.step (E := ()) start (zeros 48) request = Ok (s', tx', out) /\
    (Server.keep_going out = true -> inv s') /\
    (StepOut.send_len out = 0 /\ tx' = zeros 48 \/
     exists ty attrs, server_reply ty attrs /\ 0 < StepOut.send_len out <= 48 /\
       Packet.parse tx' = Ok (control_packet ty attrs, StepOut.send_len out)).
Proof.
  apply (turn_total_and_replies_parse (E := ()) start (zeros 48) request inv_start); [by split|done].
Defined.

Lemma session_moves_forward_witness :
  phase (StateMachine.state (Server.ssm start)) <= phase (StateMachine.state (Server.ssm draining)).
Proof.
  eapply (session_moves_forward (E := ()) start (zeros 64) Server.Disconnect draining _ _ inv_start).
  - done.
  - done.
  - by vm_compute.
Defined.

Lemma silent_peer_is_dropped_witness :
  expire (E := ()) 3 pending (zeros 48) = Some Terminate.Graceful.
Proof.
  by apply (silent_peer_is_dropped (E := ()) pending (zeros 48) inv_pending); [|vm_compute].
Defined.

Lemma hello_timeout_drops_witness :
  exists s1 out1 s2 out2,
    let tx1 := message_bytes MessageType.EchoRequest [] ++ drop 8 (zeros 64) in
    Server.step (E := ()) established (zeros 64) (Server.PeriodicTick 61) = Ok (s1, tx1, out1) /\
    StepOut.send_len out1 = 8 /\ Server.keep_going out1 = true /\
    Server.step (E := ()) s1 tx1 (Server.PeriodicTick 121) = Ok (s2, tx1, out2) /\
    StepOut.send_len out2 = 0 /\ StepOut.terminate out2 = Terminate.Abrupt.
Proof. apply (hello_timeout_drops (E := ()) established (zeros 64) 61 121); by vm_compute. Defined.

End Exchange.
