(* ===== verification/PppFrame.v ===== *)
(** The PPP frame layer: [src/src/ppp/frame.rs].

    Protocol numbers, decoding of a frame with or without address/control and protocol field
    compression, and the two encoders.  The theorems say exactly which byte strings decode and that
    both encodings read back. *)

From S2P Require Import Prelude.

Definition ADDRESS_ALL_STATIONS : Z := 0xFF.
Definition CONTROL_UI : Z := 0x03.

Module ProtocolId.

Inductive t := Ip | Ipv6 | Ipcp | Ipv6cp | Lcp | Pap | Chap | Eap.

#[global] Instance t_eq_dec : EqDecision t.
Proof. solve_decision. Defined.

Definition from_u16 (v : Z) : option t :=
  if v =? 0x0021 then Some Ip
  else if v =? 0x0057 then Some Ipv6
  else if v =? 0x8021 then Some Ipcp
  else if v =? 0x8057 then Some Ipv6cp
  else if v =? 0xC021 then Some Lcp
  else if v =? 0xC023 then Some Pap
  else if v =? 0xC223 then Some Chap
  else if v =? 0xC227 then Some Eap
  else None.

Definition as_u16 (p : t) : Z :=
  match p with
  | Ip => 0x0021
  | Ipv6 => 0x0057
  | Ipcp => 0x8021
  | Ipv6cp => 0x8057
  | Lcp => 0xC021
  | Pap => 0xC023
  | Chap => 0xC223
  | Eap => 0xC227
  end.

Definition is_network_layer (p : t) : bool :=
  match p with Ip | Ipv6 => true | _ => false end.

Lemma protocol_roundtrip p : from_u16 (as_u16 p) = Some p.
Proof. by destruct p. Qed.

Lemma protocol_inv v p : from_u16 v = Some p -> v = as_u16 p.
Proof. unfold from_u16. repeat case_match; intros; simplify_eq/=; lia. Qed.

End ProtocolId.

Inductive FrameError :=
| FrameTruncated (need have : Z)
| BadProtocolParity (v : Z).

Module PppFrame.

Record t := { protocol : Z; info : bytes }.

End PppFrame.

Definition decode_frame (buf : bytes) : res FrameError PppFrame.t :=
  let p := buf in
  b ← (if len p >=? 2 then
         b0 ← idx p 0;
         b1 ← idx p 1;
         Ok ((b0 =? ADDRESS_ALL_STATIONS) && (b1 =? CONTROL_UI))
       else Ok false);
  p ← (if (b : bool) then slice_from p 2 else Ok p);
  if len p =? 0 then Err (FrameTruncated 1 (len buf)) else
  b0 ← idx p 0;
  '(protocol, rest) ←
    (if Z.land b0 0x01 =? 0x01 then
       rest ← slice_from p 1;
       Ok (b0, rest)
     else if len p <? 2 then Err (FrameTruncated 2 (len p))
     else
       b1 ← idx p 1;
       let v := be16 b0 b1 in
       if negb (Z.land v 0x0101 =? 0x0001) then Err (BadProtocolParity v) else
       rest ← slice_from p 2;
       Ok (v, rest));
  Ok {| PppFrame.protocol := protocol; PppFrame.info := rest |}.

Definition encode_frame {E} (out : bytes) (protocol : Z) (info : bytes) : res E (bytes * Z) :=
  let need := 4 + len info in
  _ ← assert_ (len out >=? need);
  out ← set_at out 0 ADDRESS_ALL_STATIONS;
  out ← set_at out 1 CONTROL_UI;
  out ← copy_slice out 2 4 (to_be16 protocol);
  out ← copy_slice out 4 need info;
  Ok (out, need).

Definition encode_frame_compressed {E} (out : bytes) (protocol : Z) (info : bytes)
    : res E (bytes * Z) :=
  if protocol <=? 0xFF then
    let need := 1 + len info in
    _ ← assert_ (len out >=? need);
    out ← set_at out 0 (as_u8 protocol);
    out ← copy_slice out 1 need info;
    Ok (out, need)
  else
    let need := 2 + len info in
    _ ← assert_ (len out >=? need);
    out ← copy_slice out 0 2 (to_be16 protocol);
    out ← copy_slice out 2 need info;
    Ok (out, need).

(** ** Which frames decode *)

(** A two-byte Protocol value: even high byte, odd low byte. *)
Definition wide_protocol (v : Z) : Prop := u16 v /\ v / 256 mod 2 = 0 /\ v mod 2 = 1.

(** A one-byte Protocol value. *)
Definition narrow_protocol (v : Z) : Prop := u8 v /\ v mod 2 = 1.

Definition has_address (buf : bytes) : bool :=
  match buf with a :: c :: _ => (a =? 0xFF) && (c =? 0x03) | _ => false end.

Lemma land_257 v : Z.land v 257 = 256 * (v / 256 mod 2) + v mod 2.
Proof.
  change 257 with (Z.lor 256 1). rewrite Z.land_lor_distr_r, land_1bit.
  assert (Z.land v 256 = 256 * (v / 256 mod 2)) as ->.
  { replace (256 * (v / 256 mod 2)) with (Z.shiftl (Z.land (Z.shiftr v 8) 1) 8)
      by (rewrite Z.shiftl_mul_pow2, land_1bit, Z.shiftr_div_pow2 by lia; lia).
    rewrite Z.shiftl_land. apply Z.bits_inj'. intros n Hn.
    change (Z.shiftl 1 8) with (2 ^ 8). change 256 with (2 ^ 8).
    rewrite !Z.land_spec, Z.shiftl_spec, Z.pow2_bits_eqb by lia.
    destruct (8 =? n) eqn:He; [|by rewrite !andb_false_r].
    rewrite Z.shiftr_spec by lia. by replace (n - 8 + 8) with n by lia. }
  pose proof (Z.mod_pos_bound (v / 256) 2). pose proof (Z.mod_pos_bound v 2).
  assert (v / 256 mod 2 = 0 \/ v / 256 mod 2 = 1) as [-> | ->] by lia;
    assert (v mod 2 = 0 \/ v mod 2 = 1) as [-> | ->] by lia; done.
Qed.

(** The frame after the optional address and control bytes. *)
Definition decode_body (n : Z) (p : bytes) : res FrameError PppFrame.t :=
  match p with
  | [] => Err (FrameTruncated 1 n)
  | b0 :: rest =>
      if b0 mod 2 =? 1 then Ok {| PppFrame.protocol := b0; PppFrame.info := rest |}
      else match rest with
           | [] => Err (FrameTruncated 2 1)
           | b1 :: rest =>
               if (be16 b0 b1 / 256 mod 2 =? 0) && (be16 b0 b1 mod 2 =? 1)
               then Ok {| PppFrame.protocol := be16 b0 b1; PppFrame.info := rest |}
               else Err (BadProtocolParity (be16 b0 b1))
           end
  end.

Lemma decode_frame_eq buf :
  decode_frame buf = decode_body (len buf) (if has_address buf then drop 2 buf else buf).
Proof.
  unfold decode_frame.
  assert ((if len buf >=? 2 then b0 ← idx buf 0; b1 ← idx buf 1;
      Ok ((b0 =? ADDRESS_ALL_STATIONS) && (b1 =? CONTROL_UI)) else Ok false)
    = @Ok FrameError _ (has_address buf)) as ->.
  { destruct buf as [|a [|c r]]; [done|done|]. 
    replace (_ >=? _) with true by (simpl; lia). run_ok. done. }
  cbn [mbind res_bind].
  assert ((if has_address buf then slice_from buf 2 else Ok buf)
    = @Ok FrameError _ (if has_address buf then drop 2 buf else buf)) as ->.
  { destruct (has_address buf) eqn:?; [|done]. destruct buf as [|a [|c r]]; try done.
    by rewrite slice_from_ok by (simpl; lia). }
  cbn [mbind res_bind]. generalize (if has_address buf then drop 2 buf else buf). intros p.
  destruct p as [|b0 rest]; [done|]. replace (len (b0 :: rest) =? 0) with false by (simpl; lia).
  rewrite (idx_ok _ 0) by (simpl; lia). cbn [mbind res_bind].
  change (byte_at _ 0) with b0. rewrite land_1bit. cbn [decode_body].
  destruct (b0 mod 2 =? 1); [run_ok; done|].
  destruct rest as [|b1 rest]; [done|]. replace (len (b0 :: b1 :: rest) <? 2) with false by (simpl; lia).
  run_ok. change (byte_at _ 1) with b1. rewrite land_257.
  pose proof (Z.mod_pos_bound (be16 b0 b1 / 256) 2). pose proof (Z.mod_pos_bound (be16 b0 b1) 2).
  destruct (_ && _) eqn:Hc.
  - replace (negb _) with false by lia. done.
  - replace (negb _) with true by lia. done.
Qed.

Lemma decode_body_wide n protocol info :
  wide_protocol protocol ->
  decode_body n (to_be16 protocol ++ info)
  = Ok {| PppFrame.protocol := protocol; PppFrame.info := info |}.
Proof.
  intros (Hv & Hh & Hl). cbn [to_be16 app decode_body]. rewrite be16_to_be16 by done.
  replace (protocol / 256 mod 256 mod 2 =? 1) with false by (Z.div_mod_to_equations; lia).
  by rewrite Hh, Hl.
Qed.

Lemma decode_body_narrow n protocol info :
  narrow_protocol protocol ->
  decode_body n (protocol :: info)
  = Ok {| PppFrame.protocol := protocol; PppFrame.info := info |}.
Proof. intros [_ Ho]. cbn [decode_body]. by rewrite Ho. Qed.

Lemma decode_body_ok n p f :
  u8s p ->
  decode_body n p = Ok f <->
  (p = [PppFrame.protocol f] ++ PppFrame.info f /\ narrow_protocol (PppFrame.protocol f)) \/
  (p = to_be16 (PppFrame.protocol f) ++ PppFrame.info f /\ wide_protocol (PppFrame.protocol f)).
Proof.
  intros Hp. unfold narrow_protocol, wide_protocol. split.
  - destruct p as [|b0 rest]; [done|]. apply Forall_cons in Hp as [H0 Hp]. cbn [decode_body].
    destruct (b0 mod 2 =? 1) eqn:?; [intros; simplify_eq; left; simpl; split_and!; done || lia|].
    destruct rest as [|b1 rest]; [done|]. apply Forall_cons in Hp as [H1 Hp].
    destruct (_ && _) eqn:?; [|done]. intros; simplify_eq; right.
    cbn [PppFrame.protocol PppFrame.info].
    rewrite to_be16_be16 by done. pose proof (be16_u16 b0 b1 H0 H1). split_and!; done || lia.
  - destruct f as [v info]; cbn [PppFrame.protocol PppFrame.info].
    intros [[-> Hv] | [-> Hv]]; [by apply decode_body_narrow | by apply decode_body_wide].
Qed.

Lemma decode_frame_total buf : decode_frame buf <> Panic.
Proof. rewrite decode_frame_eq. unfold decode_body. repeat case_match; done. Qed.

(** The uncompressed frame. *)
Definition frame_bytes (protocol : Z) (info : bytes) : bytes :=
  [0xFF; 0x03] ++ to_be16 protocol ++ info.

Definition compressed_bytes (protocol : Z) (info : bytes) : bytes :=
  (if protocol <=? 0xFF then [protocol] else to_be16 protocol) ++ info.

Lemma length_frame_bytes p i : length (frame_bytes p i) = (4 + length i)%nat.
Proof. done. Qed.

#[export] Hint Rewrite length_frame_bytes : lens.

Lemma encode_frame_ok {E} out protocol info :
  4 + len info <= len out ->
  @encode_frame E out protocol info
  = Ok (frame_bytes protocol info ++ drop (4 + length info) out, 4 + len info).
Proof.
  intros. unfold encode_frame. rewrite assert_ok by lia. cbn [mbind res_bind].
  change out with ([] ++ out) at 1.
  do 2 (rewrite set_at_app by len_lia; cbn [mbind res_bind]).
  do 2 (rewrite copy_slice_app by len_lia; cbn [mbind res_bind]).
  rewrite !drop_drop. done.
Qed.

Lemma encode_frame_compressed_ok {E} out protocol info :
  len (compressed_bytes protocol info) <= len out -> 0 <= protocol ->
  @encode_frame_compressed E out protocol info
  = Ok (compressed_bytes protocol info ++ drop (length (compressed_bytes protocol info)) out,
        len (compressed_bytes protocol info)).
Proof.
  unfold encode_frame_compressed, compressed_bytes, as_u8.
  destruct (protocol <=? 255) eqn:?; intros; autorewrite with lens in *;
    rewrite assert_ok by (cbn [length] in *; lia); cbn [mbind res_bind]; change out with ([] ++ out) at 1.
  - rewrite set_at_app by len_lia; cbn [mbind res_bind].
    rewrite copy_slice_app by len_lia; cbn [mbind res_bind].
    rewrite !drop_drop, Z.mod_small by lia. f_equal. f_equal; done || len_lia.
  - do 2 (rewrite copy_slice_app by len_lia; cbn [mbind res_bind]).
    rewrite !drop_drop. f_equal. f_equal; done || len_lia.
Qed.

Lemma decode_frame_bytes protocol info :
  wide_protocol protocol ->
  decode_frame (frame_bytes protocol info)
  = Ok {| PppFrame.protocol := protocol; PppFrame.info := info |}.
Proof.
  intros Hv. rewrite decode_frame_eq. by apply decode_body_wide.
Qed.

(** Legal PPP protocol numbers: the two-byte form is well-formed, and the one-byte form is not the
    address byte. *)
Definition legal_protocol (v : Z) : Prop := wide_protocol v /\ v <> 0xFF.

Lemma decode_compressed_bytes protocol info :
  legal_protocol protocol ->
  decode_frame (compressed_bytes protocol info)
  = Ok {| PppFrame.protocol := protocol; PppFrame.info := info |}.
Proof.
  intros [(Hv & Hh & Hl) Hff]. unfold u16 in Hv. rewrite decode_frame_eq. unfold compressed_bytes.
  destruct (protocol <=? 255) eqn:Hp.
  - replace (has_address _) with false by (destruct info; simpl; [done|]; lia).
    apply decode_body_narrow. unfold narrow_protocol, u8. lia.
  - replace (has_address _) with false.
    2: { simpl. replace (_ =? 255) with false; [done|]. Z.div_mod_to_equations; lia. }
    by apply decode_body_wide.
Qed.

(** ** Properties *)

(** Decoding accepts exactly the PPP frame formats: an optional FF 03 prefix (stripped whenever
    present), then a one-byte odd protocol or a two-byte protocol with an even high and an odd low
    byte, then the information field; and it never panics. *)
Theorem decode_frame_accepts_exactly buf f :
  u8s buf ->
  decode_frame buf <> Panic /\
  (decode_frame buf = Ok f <->
   let p := if has_address buf then drop 2 buf else buf in
   (p = [PppFrame.protocol f] ++ PppFrame.info f /\ narrow_protocol (PppFrame.protocol f)) \/
   (p = to_be16 (PppFrame.protocol f) ++ PppFrame.info f /\ wide_protocol (PppFrame.protocol f))).
Proof.
  intros Hb. split; [apply decode_frame_total|]. rewrite decode_frame_eq. apply decode_body_ok.
  destruct (has_address buf); [by apply Forall_drop|done].
Qed.

Lemma decode_frame_accepts_exactly_witness :
  let buf := [0xFF; 0x03; 0x21; 0x45] in
  let f := {| PppFrame.protocol := 0x21; PppFrame.info := [0x45] |} in
  decode_frame buf <> Panic /\
  (decode_frame buf = Ok f <->
   let p := if has_address buf then drop 2 buf else buf in
   (p = [PppFrame.protocol f] ++ PppFrame.info f /\ narrow_protocol (PppFrame.protocol f)) \/
   (p = to_be16 (PppFrame.protocol f) ++ PppFrame.info f /\ wide_protocol (PppFrame.protocol f))).
Proof.
  intros buf f. apply (decode_frame_accepts_exactly buf f). repeat constructor; done.
Defined.

(** Both encoders read back: an uncompressed frame of any well-formed protocol, and a compressed
    frame of any legal protocol, decode to the protocol and information they were given. *)
Theorem frames_roundtrip protocol info out :
  legal_protocol protocol -> 4 + len info <= len out ->
  exists out1 n1 out2 n2,
    @encode_frame () out protocol info = Ok (out1, n1) /\
    @encode_frame_compressed () out protocol info = Ok (out2, n2) /\
    n2 < n1 /\
    decode_frame (sub out1 0 n1) = Ok {| PppFrame.protocol := protocol; PppFrame.info := info |} /\
    decode_frame (sub out2 0 n2) = Ok {| PppFrame.protocol := protocol; PppFrame.info := info |}.
Proof.
  intros Hp Hl. pose proof Hp as [[[Hlo Hhi] _] _].
  assert (Hc : len (compressed_bytes protocol info) <= 2 + len info)
    by (unfold compressed_bytes; case_match; len_lia).
  do 4 eexists. split_and!.
  - by apply encode_frame_ok.
  - apply encode_frame_compressed_ok; lia.
  - lia.
  - rewrite sub_prefix by len_lia. apply decode_frame_bytes, Hp.
  - rewrite sub_prefix by done. by apply decode_compressed_bytes.
Qed.

Lemma frames_roundtrip_witness :
  exists out1 n1 out2 n2,
    @encode_frame () (zeros 16) 0xC021 [1; 2] = Ok (out1, n1) /\
    @encode_frame_compressed () (zeros 16) 0xC021 [1; 2] = Ok (out2, n2) /\
    n2 < n1 /\
    decode_frame (sub out1 0 n1) = Ok {| PppFrame.protocol := 0xC021; PppFrame.info := [1; 2] |} /\
    decode_frame (sub out2 0 n2) = Ok {| PppFrame.protocol := 0xC021; PppFrame.info := [1; 2] |}.
Proof. by apply (frames_roundtrip 0xC021 [1; 2] (zeros 16)). Defined.
