(* ===== verification/Lcp.v ===== *)
(** LCP and IPCP packet and option codecs: [src/src/ppp/lcp.rs] and [src/src/ppp/ipcp.rs].

    The packet header decoder, the option iterator with its typed decoders, and the encoders.  The
    theorems characterise the packets that decode, and relate the iterator to option lists. *)

From S2P Require Import Prelude PppFrame.

Definition LCP_HEADER_LEN : Z := 4.
Definition LCP_OPT_HEADER_LEN : Z := 2.
Definition DEFAULT_MRU : Z := 1500.

Module LcpCode.

Inductive t :=
| ConfigureRequest | ConfigureAck | ConfigureNak | ConfigureReject | TerminateRequest
| TerminateAck | CodeReject | ProtocolReject | EchoRequest | EchoReply | DiscardRequest.

#[global] Instance t_eq_dec : EqDecision t.
Proof. solve_decision. Defined.

Definition from_u8 (v : Z) : option t :=
  if v =? 1 then Some ConfigureRequest
  else if v =? 2 then Some ConfigureAck
  else if v =? 3 then Some ConfigureNak
  else if v =? 4 then Some ConfigureReject
  else if v =? 5 then Some TerminateRequest
  else if v =? 6 then Some TerminateAck
  else if v =? 7 then Some CodeReject
  else if v =? 8 then Some ProtocolReject
  else if v =? 9 then Some EchoRequest
  else if v =? 10 then Some EchoReply
  else if v =? 11 then Some DiscardRequest
  else None.

Definition as_u8 (c : t) : Z :=
  match c with
  | ConfigureRequest => 1
  | ConfigureAck => 2
  | ConfigureNak => 3
  | ConfigureReject => 4
  | TerminateRequest => 5
  | TerminateAck => 6
  | CodeReject => 7
  | ProtocolReject => 8
  | EchoRequest => 9
  | EchoReply => 10
  | DiscardRequest => 11
  end.

Definition is_configure (c : t) : bool :=
  match c with
  | ConfigureRequest | ConfigureAck | ConfigureNak | ConfigureReject => true
  | _ => false
  end.

Lemma lcp_code_roundtrip c : from_u8 (as_u8 c) = Some c.
Proof. by destruct c. Qed.

Lemma lcp_code_inv v c : from_u8 v = Some c -> v = as_u8 c.
Proof. unfold from_u8. repeat case_match; intros; simplify_eq/=; lia. Qed.

End LcpCode.

Module LcpOptionId.

Inductive t :=
| Mru | AuthProtocol | QualityProtocol | MagicNumber | ProtocolFieldCompression
| AddressControlFieldCompression.

#[global] Instance t_eq_dec : EqDecision t.
Proof. solve_decision. Defined.

Definition from_u8 (v : Z) : option t :=
  if v =? 1 then Some Mru
  else if v =? 3 then Some AuthProtocol
  else if v =? 4 then Some QualityProtocol
  else if v =? 5 then Some MagicNumber
  else if v =? 7 then Some ProtocolFieldCompression
  else if v =? 8 then Some AddressControlFieldCompression
  else None.

Definition as_u8 (o : t) : Z :=
  match o with
  | Mru => 1
  | AuthProtocol => 3
  | QualityProtocol => 4
  | MagicNumber => 5
  | ProtocolFieldCompression => 7
  | AddressControlFieldCompression => 8
  end.

Lemma lcp_option_roundtrip o : from_u8 (as_u8 o) = Some o.
Proof. by destruct o. Qed.

Lemma lcp_option_inv v o : from_u8 v = Some o -> v = as_u8 o.
Proof. unfold from_u8. repeat case_match; intros; simplify_eq/=; lia. Qed.

End LcpOptionId.

Inductive LcpPacketError :=
| LcpTruncated (need have : Z)
| LcpLengthTooSmall (declared : Z)
| LcpLengthExceedsBuffer (declared available : Z)
| OptionLengthTooSmall (declared : Z)
| OptionLengthExceedsBuffer (declared available : Z).

Module LcpPacket.

Record t := { code : Z; identifier : Z; data : bytes }.

Definition typed_code (p : t) : option LcpCode.t := LcpCode.from_u8 (code p).

End LcpPacket.

Definition decode_lcp_packet (buf : bytes) : res LcpPacketError LcpPacket.t :=
  if len buf <? LCP_HEADER_LEN then Err (LcpTruncated LCP_HEADER_LEN (len buf)) else
  code ← idx buf 0;
  identifier ← idx buf 1;
  b2 ← idx buf 2;
  b3 ← idx buf 3;
  let declared := be16 b2 b3 in
  if declared <? LCP_HEADER_LEN then Err (LcpLengthTooSmall declared) else
  if declared >? len buf then Err (LcpLengthExceedsBuffer declared (len buf)) else
  data ← slice buf LCP_HEADER_LEN declared;
  Ok {| LcpPacket.code := code; LcpPacket.identifier := identifier; LcpPacket.data := data |}.

Module ConfigOption.

Record t := { option_type : Z; value : bytes }.

Definition encoded_len (o : t) : Z := LCP_OPT_HEADER_LEN + len (value o).

Definition typed (o : t) : option LcpOptionId.t := LcpOptionId.from_u8 (option_type o).

Definition as_mru (o : t) : res LcpPacketError Z :=
  if negb (len (value o) =? 2)
  then Err (OptionLengthTooSmall (len (value o) + LCP_OPT_HEADER_LEN)) else
  b0 ← idx (value o) 0;
  b1 ← idx (value o) 1;
  Ok (be16 b0 b1).

Definition as_magic_number (o : t) : res LcpPacketError Z :=
  if negb (len (value o) =? 4)
  then Err (OptionLengthTooSmall (len (value o) + LCP_OPT_HEADER_LEN)) else
  b0 ← idx (value o) 0;
  b1 ← idx (value o) 1;
  b2 ← idx (value o) 2;
  b3 ← idx (value o) 3;
  Ok (be32 b0 b1 b2 b3).

Definition as_auth_protocol (o : t) : res LcpPacketError (Z * bytes) :=
  if len (value o) <? 2
  then Err (OptionLengthTooSmall (len (value o) + LCP_OPT_HEADER_LEN)) else
  b0 ← idx (value o) 0;
  b1 ← idx (value o) 1;
  rest ← slice_from (value o) 2;
  Ok (be16 b0 b1, rest).

End ConfigOption.

Module ConfigOptionIter.

(** [next] on the cursor: the item, if any, and the remaining cursor. *)
Definition next {E} (cursor : bytes)
    : res E (option (ConfigOption.t + LcpPacketError) * bytes) :=
  if len cursor =? 0 then Ok (None, cursor) else
  if len cursor <? LCP_OPT_HEADER_LEN
  then Ok (Some (inr (LcpTruncated LCP_OPT_HEADER_LEN (len cursor))), []) else
  option_type ← idx cursor 0;
  declared ← idx cursor 1;
  if declared <? LCP_OPT_HEADER_LEN then Ok (Some (inr (OptionLengthTooSmall declared)), []) else
  if declared >? len cursor
  then Ok (Some (inr (OptionLengthExceedsBuffer declared (len cursor))), []) else
  value ← slice cursor LCP_OPT_HEADER_LEN declared;
  cursor ← slice_from cursor declared;
  Ok (Some (inl {| ConfigOption.option_type := option_type; ConfigOption.value := value |}), cursor).

(** The items a [for] loop sees. *)
Fixpoint collect {E} (fuel : nat) (cursor : bytes)
    : res E (list (ConfigOption.t + LcpPacketError)) :=
  match fuel with
  | O => Panic
  | S fuel =>
      '(item, cursor) ← next cursor;
      match item with
      | None => Ok []
      | Some x => xs ← collect fuel cursor; Ok (x :: xs)
      end
  end.

(** [ConfigOptionIter::new(buf)], run to the end. *)
Definition items {E} (buf : bytes) : res E (list (ConfigOption.t + LcpPacketError)) :=
  collect (S (length buf)) buf.

End ConfigOptionIter.

Section Encoders.
Context {bp : BuildProfile} {E : Type}.

Definition write_lcp_header (out : bytes) (code identifier total_len : Z) : res E bytes :=
  out ← set_at out 0 code;
  out ← set_at out 1 identifier;
  copy_slice out 2 4 (to_be16 total_len).

Definition write_option (out : bytes) (option_type : Z) (value : bytes) : res E (bytes * Z) :=
  let total := LCP_OPT_HEADER_LEN + len value in
  _ ← assert_ (len out >=? total);
  _ ← debug_assert (total <=? 255);
  out ← set_at out 0 option_type;
  out ← set_at out 1 (as_u8 total);
  out ← copy_slice out LCP_OPT_HEADER_LEN total value;
  Ok (out, total).

End Encoders.

Definition auth_protocol_pap : bytes := to_be16 (ProtocolId.as_u16 ProtocolId.Pap).
Definition auth_protocol_mschapv2 : bytes := to_be16 (ProtocolId.as_u16 ProtocolId.Chap) ++ [0x81].
Definition auth_protocol_chap_md5 : bytes := to_be16 (ProtocolId.as_u16 ProtocolId.Chap) ++ [0x05].
Definition auth_protocol_eap : bytes := to_be16 (ProtocolId.as_u16 ProtocolId.Eap).

(** ** IPCP *)

Module IpcpCode.

Inductive t :=
| ConfigureRequest | ConfigureAck | ConfigureNak | ConfigureReject | TerminateRequest
| TerminateAck | CodeReject.

Definition from_u8 (v : Z) : option t :=
  if v =? 1 then Some ConfigureRequest
  else if v =? 2 then Some ConfigureAck
  else if v =? 3 then Some ConfigureNak
  else if v =? 4 then Some ConfigureReject
  else if v =? 5 then Some TerminateRequest
  else if v =? 6 then Some TerminateAck
  else if v =? 7 then Some CodeReject
  else None.

Definition as_u8 (c : t) : Z :=
  match c with
  | ConfigureRequest => 1
  | ConfigureAck => 2
  | ConfigureNak => 3
  | ConfigureReject => 4
  | TerminateRequest => 5
  | TerminateAck => 6
  | CodeReject => 7
  end.

Lemma ipcp_code_roundtrip c : from_u8 (as_u8 c) = Some c.
Proof. by destruct c. Qed.

Lemma ipcp_code_inv v c : from_u8 v = Some c -> v = as_u8 c.
Proof. unfold from_u8. repeat case_match; intros; simplify_eq/=; lia. Qed.

End IpcpCode.

Module IpcpOptionId.

Inductive t :=
| IpCompressionProtocol | IpAddress | MobileIpv4 | PrimaryDns | PrimaryNbns | SecondaryDns
| SecondaryNbns.

#[global] Instance t_eq_dec : EqDecision t.
Proof. solve_decision. Defined.

Definition from_u8 (v : Z) : option t :=
  if v =? 2 then Some IpCompressionProtocol
  else if v =? 3 then Some IpAddress
  else if v =? 4 then Some MobileIpv4
  else if v =? 129 then Some PrimaryDns
  else if v =? 130 then Some PrimaryNbns
  else if v =? 131 then Some SecondaryDns
  else if v =? 132 then Some SecondaryNbns
  else None.

Definition as_u8 (o : t) : Z :=
  match o with
  | IpCompressionProtocol => 2
  | IpAddress => 3
  | MobileIpv4 => 4
  | PrimaryDns => 129
  | PrimaryNbns => 130
  | SecondaryDns => 131
  | SecondaryNbns => 132
  end.

Lemma ipcp_option_roundtrip o : from_u8 (as_u8 o) = Some o.
Proof. by destruct o. Qed.

Lemma ipcp_option_inv v o : from_u8 v = Some o -> v = as_u8 o.
Proof. unfold from_u8. repeat case_match; intros; simplify_eq/=; lia. Qed.

End IpcpOptionId.

Inductive IpcpError := BadOptionLength (expected actual : Z).

Definition IPV4_OPTION_VALUE_LEN : Z := 4.
Definition IPV4_OPTION_TOTAL_LEN : Z := 2 + IPV4_OPTION_VALUE_LEN.

Definition read_ipv4_value (value : bytes) : res IpcpError bytes :=
  if negb (len value =? IPV4_OPTION_VALUE_LEN)
  then Err (BadOptionLength IPV4_OPTION_VALUE_LEN (len value)) else
  copy_slice (zeros 4) 0 4 value.

Definition write_ipv4_option {E} (out : bytes) (option_type : Z) (addr : bytes)
    : res E (bytes * Z) :=
  _ ← assert_ (len out >=? IPV4_OPTION_TOTAL_LEN);
  out ← set_at out 0 option_type;
  out ← set_at out 1 (as_u8 IPV4_OPTION_TOTAL_LEN);
  out ← copy_slice out 2 IPV4_OPTION_TOTAL_LEN addr;
  Ok (out, IPV4_OPTION_TOTAL_LEN).

(** ** Packets on the wire *)

Definition lcp_bytes (p : LcpPacket.t) : bytes :=
  [LcpPacket.code p; LcpPacket.identifier p] ++ to_be16 (4 + len (LcpPacket.data p)) ++
  LcpPacket.data p.

Definition lcp_ok (p : LcpPacket.t) : Prop := 4 + len (LcpPacket.data p) < 65536.

Lemma length_lcp_bytes p : length (lcp_bytes p) = (4 + length (LcpPacket.data p))%nat.
Proof. done. Qed.

Lemma lcp_data c i d :
  LcpPacket.data {| LcpPacket.code := c; LcpPacket.identifier := i; LcpPacket.data := d |} = d.
Proof. done. Qed.

#[export] Hint Rewrite length_lcp_bytes lcp_data : lens.

Lemma decode_lcp_packet_eq buf :
  decode_lcp_packet buf =
  if len buf <? 4 then Err (LcpTruncated 4 (len buf))
  else let declared := be16 (byte_at buf 2) (byte_at buf 3) in
  if declared <? 4 then Err (LcpLengthTooSmall declared)
  else if declared >? len buf then Err (LcpLengthExceedsBuffer declared (len buf))
  else Ok {| LcpPacket.code := byte_at buf 0; LcpPacket.identifier := byte_at buf 1;
             LcpPacket.data := sub buf 4 declared |}.
Proof.
  unfold decode_lcp_packet, LCP_HEADER_LEN. case_match; [done|]. run_ok. cbn zeta.
  case_match; [done|]. case_match; [done|]. run_ok. done.
Qed.

Lemma decode_lcp_bytes p rest :
  lcp_ok p -> decode_lcp_packet (lcp_bytes p ++ rest) = Ok p.
Proof.
  intros Hp. unfold lcp_ok in Hp. rewrite decode_lcp_packet_eq.
  rewrite length_app, length_lcp_bytes. case_match; [lia|]. cbn zeta.
  change (byte_at (lcp_bytes p ++ rest) 2) with ((4 + len (LcpPacket.data p)) / 256 mod 256).
  change (byte_at (lcp_bytes p ++ rest) 3) with ((4 + len (LcpPacket.data p)) mod 256).
  rewrite be16_to_be16 by (unfold u16; lia).
  case_match; [lia|]. case_match; [lia|]. f_equal. destruct p as [c i d]. f_equal; try done.
  unfold lcp_bytes. cbn [LcpPacket.code LcpPacket.identifier LcpPacket.data] in *.
  rewrite <- !app_assoc. rewrite (app_assoc [_; _]). apply (sub_app_mid _ d rest); len_lia.
Qed.

Lemma decode_lcp_inv buf p :
  u8s buf -> decode_lcp_packet buf = Ok p ->
  lcp_ok p /\ exists rest, buf = lcp_bytes p ++ rest.
Proof.
  intros Hb. rewrite decode_lcp_packet_eq. destruct (len buf <? 4) eqn:?; [done|]. cbn zeta.
  destruct buf as [|b0 [|b1 [|b2 [|b3 r]]]]; try (simpl in *; lia).
  change (byte_at _ 2) with b2. change (byte_at _ 3) with b3.
  repeat match goal with H : u8s (_ :: _) |- _ => apply Forall_cons in H as [? ?] end.
  pose proof (be16_u16 b2 b3) as Hr. unfold u16 in Hr.
  repeat case_match; try done. intros; simplify_eq.
  assert (Hd : sub (b0 :: b1 :: b2 :: b3 :: r) 4 (be16 b2 b3)
               = take (Z.to_nat (be16 b2 b3 - 4)) r) by done.
  rewrite Hd. unfold lcp_ok, lcp_bytes; cbn [LcpPacket.code LcpPacket.identifier LcpPacket.data].
  simpl length in *. assert (len (take (Z.to_nat (be16 b2 b3 - 4)) r) = be16 b2 b3 - 4) as -> by len_lia.
  split; [lia|]. exists (drop (Z.to_nat (be16 b2 b3 - 4)) r).
  replace (4 + (be16 b2 b3 - 4)) with (be16 b2 b3) by lia. rewrite to_be16_be16 by done.
  cbn [app]. by rewrite take_drop.
Qed.

(** ** Option lists *)

Definition option_bytes (o : ConfigOption.t) : bytes :=
  [ConfigOption.option_type o; 2 + len (ConfigOption.value o)] ++ ConfigOption.value o.

Definition option_ok (o : ConfigOption.t) : Prop := 2 + len (ConfigOption.value o) <= 255.

Definition opts_bytes (opts : list ConfigOption.t) : bytes := concat (option_bytes <$> opts).

Lemma length_option_bytes o :
  length (option_bytes o) = (2 + length (ConfigOption.value o))%nat.
Proof. done. Qed.

Lemma option_value t v :
  ConfigOption.value {| ConfigOption.option_type := t; ConfigOption.value := v |} = v.
Proof. done. Qed.

#[export] Hint Rewrite length_option_bytes option_value : lens.

Lemma opts_bytes_cons o opts : opts_bytes (o :: opts) = option_bytes o ++ opts_bytes opts.
Proof. done. Qed.

Lemma opts_bytes_app o1 o2 : opts_bytes (o1 ++ o2) = opts_bytes o1 ++ opts_bytes o2.
Proof. unfold opts_bytes. by rewrite fmap_app, concat_app. Qed.

#[global] Arguments ConfigOptionIter.next : simpl never.

Lemma opt_next_eq {E} cursor :
  @ConfigOptionIter.next E cursor =
  Ok match cursor with
     | [] => (None, [])
     | [_] => (Some (inr (LcpTruncated 2 1)), [])
     | ty :: n :: r =>
         if n <? 2 then (Some (inr (OptionLengthTooSmall n)), [])
         else if n >? len cursor then (Some (inr (OptionLengthExceedsBuffer n (len cursor))), [])
         else (Some (inl {| ConfigOption.option_type := ty;
                            ConfigOption.value := take (Z.to_nat (n - 2)) r |}),
               drop (Z.to_nat (n - 2)) r)
     end.
Proof.
  unfold ConfigOptionIter.next, LCP_OPT_HEADER_LEN.
  destruct cursor as [|ty [|n r]]; [done|done|].
  replace (len _ =? 0) with false by (simpl; lia). replace (len _ <? 2) with false by (simpl; lia).
  run_ok. change (byte_at _ 1) with n. change (byte_at _ 0) with ty.
  destruct (n <? 2) eqn:?; [done|]. destruct (n >? _) eqn:?; [done|]. run_ok.
  do 2 f_equal. replace (Z.to_nat n) with (2 + Z.to_nat (n - 2))%nat by lia. done.
Qed.

Lemma opt_next_shrinks {E} cursor x rest :
  @ConfigOptionIter.next E cursor = Ok (Some x, rest) -> (length rest < length cursor)%nat.
Proof. rewrite opt_next_eq. repeat case_match; intros; simplify_eq; len_lia. Qed.

Lemma opt_collect_enough {E} fuel buf :
  (length buf < fuel)%nat -> @ConfigOptionIter.collect E fuel buf = ConfigOptionIter.items buf.
Proof.
  unfold ConfigOptionIter.items. revert buf.
  assert (H : forall f1 f2 buf, (length buf < f1)%nat -> (length buf < f2)%nat ->
    @ConfigOptionIter.collect E f1 buf = ConfigOptionIter.collect f2 buf).
  { induction f1 as [|f1 IH]; intros f2 buf ??; [lia|]. destruct f2 as [|f2]; [lia|]. simpl.
    destruct (@ConfigOptionIter.next E buf) as [[[x|] rest]| |] eqn:Hn; [|done..].
    apply opt_next_shrinks in Hn. simpl. by rewrite (IH f2) by lia. }
  intros. apply H; lia.
Qed.

Lemma items_eq {E} buf :
  @ConfigOptionIter.items E buf =
  '(item, cursor) ← ConfigOptionIter.next buf;
  match item with
  | None => Ok []
  | Some x => xs ← ConfigOptionIter.items cursor; Ok (x :: xs)
  end.
Proof.
  unfold ConfigOptionIter.items at 1. cbn [ConfigOptionIter.collect].
  destruct (@ConfigOptionIter.next E buf) as [[[x|] rest]| |] eqn:Hn; [|done..].
  apply opt_next_shrinks in Hn. cbn [mbind res_bind]. by rewrite opt_collect_enough by lia.
Qed.

(** Iteration over any bytes ends: well-formed options, then at most one error. *)
Lemma items_total buf :
  exists opts err tail, (forall E, @ConfigOptionIter.items E buf = Ok ((inl <$> opts) ++ (inr <$> err)))
    /\ (u8s buf -> buf = opts_bytes opts ++ tail /\ Forall option_ok opts)
    /\ (length err <= 1)%nat /\ (err = [] -> tail = []).
Proof.
  induction buf as [buf IH] using (induction_ltof1 _ (@length Z)). unfold ltof in IH.
  destruct buf as [|ty [|n r]].
  - exists [], [], []. split_and!; [done | intros _; by split | simpl; lia | done].
  - eexists [], [_], [ty]. split_and!; [|intros _; by split|simpl; lia|done].
    intros E. by rewrite items_eq, opt_next_eq.
  - destruct (n <? 2) eqn:H1; [|destruct (n >? len (ty :: n :: r)) eqn:H2].
    + eexists [], [_], (ty :: n :: r). split_and!; [|intros _; by split|simpl; lia|done].
      intros E. by rewrite items_eq, opt_next_eq, H1.
    + eexists [], [_], (ty :: n :: r). split_and!; [|intros _; by split|simpl; lia|done].
      intros E. by rewrite items_eq, opt_next_eq, H1, H2.
    + destruct (IH (drop (Z.to_nat (n - 2)) r)) as (opts & err & tail & Hi & Hb & Hl & Ht); [len_lia|].
      eexists ({| ConfigOption.option_type := ty;
                  ConfigOption.value := take (Z.to_nat (n - 2)) r |} :: opts), err, tail.
      split_and!; try done.
      * intros E. rewrite items_eq, opt_next_eq, H1, H2. cbn [mbind res_bind]. by rewrite Hi.
      * intros Hu. apply Forall_cons in Hu as [_ Hu]. apply Forall_cons in Hu as [Hn Hu].
        destruct Hb as [Hb Hok]; [by apply Forall_drop|].
        simpl length in H2. assert (len (take (Z.to_nat (n - 2)) r) = n - 2) as Hv by len_lia.
        split.
        -- rewrite opts_bytes_cons, <- app_assoc, <- Hb. unfold option_bytes.
           cbn [ConfigOption.option_type ConfigOption.value]. rewrite Hv. cbn [app].
           rewrite take_drop. do 2 f_equal. lia.
        -- constructor; [|done]. unfold option_ok, u8 in *. cbn [ConfigOption.value]. lia.
Qed.

Lemma items_opts_bytes {E} opts :
  Forall option_ok opts -> @ConfigOptionIter.items E (opts_bytes opts) = Ok (inl <$> opts).
Proof.
  induction 1 as [|o opts Ho _ IH]; [done|].
  rewrite items_eq, opts_bytes_cons, opt_next_eq. unfold option_bytes, option_ok in *. cbn [app].
  replace (_ <? 2) with false by lia. replace (_ >? _) with false by len_lia.
  replace (Z.to_nat _) with (length (ConfigOption.value o)) by lia.
  cbn [mbind res_bind]. rewrite drop_app_length, take_app_length, IH. by destruct o.
Qed.

(** ** Encoders *)

Section Encoder_lemmas.
Context {bp : BuildProfile} {E : Type}.

Lemma write_lcp_header_ok out code identifier n :
  length out = 4%nat ->
  @write_lcp_header E out code identifier n = Ok ([code; identifier] ++ to_be16 n).
Proof. intros. by destruct out as [|? [|? [|? [|? [|??]]]]]. Qed.

Lemma write_option_ok r ty v :
  option_ok {| ConfigOption.option_type := ty; ConfigOption.value := v |} -> 2 + len v <= len r ->
  @write_option bp E r ty v
  = Ok (option_bytes {| ConfigOption.option_type := ty; ConfigOption.value := v |}
        ++ drop (2 + length v) r, 2 + len v).
Proof.
  unfold option_ok; cbn [ConfigOption.value]. intros Ho Hr.
  unfold write_option, LCP_OPT_HEADER_LEN. rewrite assert_ok, debug_assert_ok by lia.
  cbn [mbind res_bind]. change r with ([] ++ r) at 1. unfold as_u8. rewrite Z.mod_small by lia.
  do 2 (rewrite set_at_app by len_lia; cbn [mbind res_bind]).
  rewrite copy_slice_app by len_lia. cbn [mbind res_bind]. by rewrite !drop_drop.
Qed.

Lemma write_ipv4_option_ok out ty addr :
  length addr = 4%nat -> 6 <= len out ->
  @write_ipv4_option E out ty addr
  = Ok (option_bytes {| ConfigOption.option_type := ty; ConfigOption.value := addr |} ++ drop 6 out, 6).
Proof.
  intros Ha Ho. unfold write_ipv4_option, IPV4_OPTION_TOTAL_LEN, IPV4_OPTION_VALUE_LEN, as_u8.
  rewrite assert_ok by lia. cbn [mbind res_bind]. change out with ([] ++ out) at 1.
  do 2 (rewrite set_at_app by len_lia; cbn [mbind res_bind]).
  rewrite copy_slice_app by len_lia. cbn [mbind res_bind]. rewrite Ha, !drop_drop.
  unfold option_bytes; cbn [ConfigOption.value ConfigOption.option_type]. by rewrite Ha.
Qed.

End Encoder_lemmas.

Lemma read_ipv4_value_eq value :
  read_ipv4_value value = if len value =? 4 then Ok value else Err (BadOptionLength 4 (len value)).
Proof.
  unfold read_ipv4_value, IPV4_OPTION_VALUE_LEN. destruct (len value =? 4) eqn:Hv; [|done]. simpl negb.
  cbn iota. change (zeros 4) with ([] ++ zeros 4). rewrite copy_slice_app by (simpl; lia).
  rewrite drop_ge by (simpl; lia). by rewrite app_nil_r.
Qed.

(** ** Properties *)

(** A control packet decodes to code, identifier and data exactly when the buffer starts with
    their encoding, whatever padding follows; anything else is an error, never a panic. *)
Theorem lcp_packet_decodes_exactly buf p :
  u8s buf ->
  decode_lcp_packet buf <> Panic /\
  (decode_lcp_packet buf = Ok p <-> lcp_ok p /\ exists rest, buf = lcp_bytes p ++ rest).
Proof.
  intros Hb. split.
  - rewrite decode_lcp_packet_eq. cbn zeta. repeat case_match; done.
  - split; [by apply decode_lcp_inv|]. intros (Hp & rest & ->). by apply decode_lcp_bytes.
Qed.

Lemma lcp_packet_decodes_exactly_witness :
  let p := {| LcpPacket.code := 1; LcpPacket.identifier := 7; LcpPacket.data := [1; 4; 5; 0] |} in
  let buf := [1; 7; 0; 8; 1; 4; 5; 0; 0xee] in
  decode_lcp_packet buf <> Panic /\
  (decode_lcp_packet buf = Ok p <-> lcp_ok p /\ exists rest, buf = lcp_bytes p ++ rest).
Proof. intros p buf. apply (lcp_packet_decodes_exactly buf p). repeat constructor; done. Defined.

(** The option iterator ends on any bytes without a panic, after reading the well-formed options
    at the front of the buffer and reporting at most one error; a list of options of at most 255
    bytes each iterates back to itself. *)
Theorem option_lists_iterate buf opts :
  (exists os err tail,
     (forall E, @ConfigOptionIter.items E buf = Ok ((inl <$> os) ++ (inr <$> err))) /\
     (u8s buf -> buf = opts_bytes os ++ tail /\ Forall option_ok os) /\
     (length err <= 1)%nat /\ (err = [] -> tail = [])) /\
  (Forall option_ok opts -> @ConfigOptionIter.items () (opts_bytes opts) = Ok (inl <$> opts)).
Proof. split; [apply items_total | apply items_opts_bytes]. Qed.
