(* ===== verification/PppFsm.v ===== *)
(** The PPP option negotiation automaton: [src/src/ppp/fsm.rs].

    [Fsm.step] is split into one definition per event, the arms of the source's match in the order of
    the states.  [Rfc1661] is the state transition table of RFC 1661 section 4.1 as data.  The
    theorems compare the two cell by cell, and show when the layer goes up and down and that restart
    timeouts end a negotiation. *)

From S2P Require Import Prelude.

Definition DEFAULT_RESTART : Z := 3.
Definition DEFAULT_MAX_CONFIGURE : Z := 10.
Definition DEFAULT_MAX_TERMINATE : Z := 2.
Definition DEFAULT_MAX_FAILURE : Z := 5.

Module FsmState.

Inductive t :=
| Initial | Starting | Closed | Stopped | Closing | Stopping | ReqSent | AckRcvd | AckSent | Opened.

#[global] Instance t_eq_dec : EqDecision t.
Proof. solve_decision. Defined.

End FsmState.

Module FsmEvent.

Inductive t :=
| Up | Down | Open | Close | RestartTimeout | RcvConfigReqGood | RcvConfigReqBad | RcvConfigAck
| RcvConfigNak | RcvTerminateReq | RcvTerminateAck | RcvCodeRejPermitted | RcvCodeRejCatastrophic
| RcvUnknownCode | RcvEcho.

End FsmEvent.

Module RestartTimer.

Inductive t := Start | Stop.

#[global] Instance t_eq_dec : EqDecision t.
Proof. solve_decision. Defined.

End RestartTimer.

Module Send.

Inductive t :=
| ConfigureRequest | ConfigureAck | ConfigureNak | TerminateReq | TerminateAck | CodeReject
| EchoReply.

#[global] Instance t_eq_dec : EqDecision t.
Proof. solve_decision. Defined.

End Send.

Module Notify.

Record t := { up : bool; down : bool; started : bool; finished : bool }.

#[global] Instance t_eq_dec : EqDecision t.
Proof. solve_decision. Defined.

Definition none : t := {| up := false; down := false; started := false; finished := false |}.
Definition just_up : t := {| up := true; down := false; started := false; finished := false |}.
Definition just_down : t := {| up := false; down := true; started := false; finished := false |}.
Definition just_started : t := {| up := false; down := false; started := true; finished := false |}.
Definition just_finished : t := {| up := false; down := false; started := false; finished := true |}.

End Notify.

Module FsmOut.

(** The source's [StepOut]. *)
Record t := {
  new_state : FsmState.t;
  send : option Send.t;
  send_extra : option Send.t;
  restart_timer : option RestartTimer.t;
  notify : Notify.t
}.

Definition make (s : FsmState.t) (send extra : option Send.t) (timer : option RestartTimer.t)
    (n : Notify.t) : t :=
  {| new_state := s; send := send; send_extra := extra; restart_timer := timer; notify := n |}.

Definition just (new_state : FsmState.t) : t := make new_state None None None Notify.none.

End FsmOut.

Module Fsm.
Import FsmState.

Record t := {
  state : FsmState.t;
  identifier : Z;
  restart_counter : Z;
  failure_counter : Z;
  max_configure : Z;
  max_terminate : Z;
  max_failure : Z
}.

Definition new : t :=
  {| state := Initial; identifier := 0; restart_counter := 0; failure_counter := 0;
     max_configure := DEFAULT_MAX_CONFIGURE; max_terminate := DEFAULT_MAX_TERMINATE;
     max_failure := DEFAULT_MAX_FAILURE |}.

(** [self.restart_counter = c; self.failure_counter = f] *)
Definition with_counters (s : t) (c f : Z) : t :=
  {| state := state s; identifier := identifier s; restart_counter := c; failure_counter := f;
     max_configure := max_configure s; max_terminate := max_terminate s;
     max_failure := max_failure s |}.

Definition with_state (s : t) (st : FsmState.t) : t :=
  {| state := st; identifier := identifier s; restart_counter := restart_counter s;
     failure_counter := failure_counter s; max_configure := max_configure s;
     max_terminate := max_terminate s; max_failure := max_failure s |}.

Definition irc_configure (s : t) : t := with_counters s (max_configure s) (max_failure s).

Definition irc_terminate (s : t) : t := with_counters s (max_terminate s) (failure_counter s).

Definition bump_identifier (s : t) : t * Z :=
  let id := wrapping_add_u8 (identifier s) 1 in
  ({| state := state s; identifier := id; restart_counter := restart_counter s;
      failure_counter := failure_counter s; max_configure := max_configure s;
      max_terminate := max_terminate s; max_failure := max_failure s |}, id).

#[local] Abbreviation scr := (Some Send.ConfigureRequest).
#[local] Abbreviation sca := (Some Send.ConfigureAck).
#[local] Abbreviation scn := (Some Send.ConfigureNak).
#[local] Abbreviation str := (Some Send.TerminateReq).
#[local] Abbreviation sta := (Some Send.TerminateAck).
#[local] Abbreviation scj := (Some Send.CodeReject).
#[local] Abbreviation arm := (Some RestartTimer.Start).
#[local] Abbreviation cancel := (Some RestartTimer.Stop).

Definition on_up (s : t) : t * FsmOut.t :=
  match state s with
  | Initial => (s, FsmOut.just Closed)
  | Starting => (irc_configure s, FsmOut.make ReqSent scr None arm Notify.none)
  | from => (s, FsmOut.just from)
  end.

Definition on_down (s : t) : t * FsmOut.t :=
  match state s with
  | Closed => (s, FsmOut.just Initial)
  | Stopped => (s, FsmOut.make Starting None None None Notify.just_started)
  | Closing => (s, FsmOut.just Initial)
  | Stopping | ReqSent | AckRcvd | AckSent => (s, FsmOut.just Starting)
  | Opened => (s, FsmOut.make Starting None None None Notify.just_down)
  | from => (s, FsmOut.just from)
  end.

Definition on_open (s : t) : t * FsmOut.t :=
  match state s with
  | Initial => (s, FsmOut.make Starting None None None Notify.just_started)
  | Starting => (s, FsmOut.just Starting)
  | Closed => (irc_configure s, FsmOut.make ReqSent scr None arm Notify.none)
  | from => (s, FsmOut.just from)
  end.

Definition on_close (s : t) : t * FsmOut.t :=
  match state s with
  | Initial => (s, FsmOut.just Initial)
  | Starting => (s, FsmOut.make Initial None None None Notify.just_finished)
  | Closed | Stopped => (s, FsmOut.just Closed)
  | Closing | Stopping => (s, FsmOut.just Closing)
  | ReqSent | AckRcvd | AckSent =>
      (irc_terminate s, FsmOut.make Closing str None arm Notify.none)
  | Opened => (irc_terminate s, FsmOut.make Closing str None arm Notify.just_down)
  end.

Definition on_restart_timeout (s : t) (from : FsmState.t) : FsmOut.t :=
  if restart_counter s >? 0 then
    match from with
    | Closing | Stopping => FsmOut.make from str None arm Notify.none
    | ReqSent | AckRcvd => FsmOut.make ReqSent scr None arm Notify.none
    | AckSent => FsmOut.make AckSent scr None arm Notify.none
    | _ => FsmOut.just from
    end
  else
    match from with
    | Closing => FsmOut.make Closed None None None Notify.just_finished
    | Stopping | ReqSent | AckRcvd | AckSent =>
        FsmOut.make Stopped None None None Notify.just_finished
    | _ => FsmOut.just from
    end.

Definition on_timeout (s : t) : t * FsmOut.t :=
  match state s with
  | (Closing | Stopping | ReqSent | AckRcvd | AckSent) as from => (s, on_restart_timeout s from)
  | from => (s, FsmOut.just from)
  end.

Definition on_config_req_good (s : t) : t * FsmOut.t :=
  match state s with
  | Closed => (s, FsmOut.make Closed sta None None Notify.none)
  | Stopped => (irc_configure s, FsmOut.make AckSent scr sca arm Notify.none)
  | (Closing | Stopping) as from => (s, FsmOut.just from)
  | ReqSent => (s, FsmOut.make AckSent sca None None Notify.none)
  | AckRcvd => (s, FsmOut.make Opened sca None None Notify.just_up)
  | AckSent => (s, FsmOut.make AckSent sca None None Notify.none)
  | Opened => (s, FsmOut.make AckSent scr sca arm Notify.just_down)
  | from => (s, FsmOut.just from)
  end.

Definition on_config_req_bad (s : t) : t * FsmOut.t :=
  match state s with
  | Closed => (s, FsmOut.make Closed sta None None Notify.none)
  | (Closing | Stopping) as from => (s, FsmOut.just from)
  | Stopped => (irc_configure s, FsmOut.make ReqSent scr scn arm Notify.none)
  | ReqSent | AckSent => (s, FsmOut.make ReqSent scn None None Notify.none)
  | AckRcvd => (s, FsmOut.make AckRcvd scn None None Notify.none)
  | Opened => (s, FsmOut.make ReqSent scr scn arm Notify.just_down)
  | from => (s, FsmOut.just from)
  end.

Definition on_config_ack (s : t) : t * FsmOut.t :=
  match state s with
  | (Closed | Stopped) as from => (s, FsmOut.make from scj None None Notify.none)
  | (Closing | Stopping) as from => (s, FsmOut.just from)
  | ReqSent => (irc_configure s, FsmOut.make AckRcvd None None cancel Notify.none)
  | AckRcvd => (s, FsmOut.make ReqSent scr None None Notify.none)
  | AckSent => (irc_configure s, FsmOut.make Opened None None cancel Notify.just_up)
  | Opened => (s, FsmOut.make ReqSent scr None None Notify.just_down)
  | from => (s, FsmOut.just from)
  end.

Definition on_config_nak (s : t) : t * FsmOut.t :=
  match state s with
  | (Closed | Stopped) as from => (s, FsmOut.make from scj None None Notify.none)
  | (Closing | Stopping) as from => (s, FsmOut.just from)
  | (ReqSent | AckSent) as from => (irc_configure s, FsmOut.make from scr None None Notify.none)
  | AckRcvd => (s, FsmOut.make ReqSent scr None None Notify.none)
  | Opened => (s, FsmOut.make ReqSent scr None None Notify.just_down)
  | from => (s, FsmOut.just from)
  end.

Definition on_terminate_req (s : t) : t * FsmOut.t :=
  match state s with
  | (Closed | Stopped | Closing | Stopping | ReqSent | AckRcvd | AckSent) as from =>
      (s, FsmOut.make
            (match from with
             | Closed | Stopped | Closing | Stopping => from
             | _ => ReqSent
             end) sta None None Notify.none)
  | Opened =>
      (with_counters s 0 (failure_counter s), FsmOut.make Stopping sta None arm Notify.just_down)
  | from => (s, FsmOut.just from)
  end.

Definition on_terminate_ack (s : t) : t * FsmOut.t :=
  match state s with
  | (Closed | Stopped) as from => (s, FsmOut.just from)
  | Closing => (s, FsmOut.make Closed None None None Notify.just_finished)
  | Stopping => (s, FsmOut.make Stopped None None None Notify.just_finished)
  | (ReqSent | AckSent) as from => (s, FsmOut.just from)
  | AckRcvd => (s, FsmOut.just ReqSent)
  | Opened => (s, FsmOut.make ReqSent scr None None Notify.just_down)
  | from => (s, FsmOut.just from)
  end.

Definition on_unknown_code (s : t) : t * FsmOut.t :=
  (s, FsmOut.make (state s) scj None None Notify.none).

Definition on_code_rej_catastrophic (s : t) : t * FsmOut.t :=
  match state s with
  | (Closed | Stopped) as from =>
      (s, FsmOut.make (if decide (from = Closed) then Closed else Stopped) None None None
            Notify.just_finished)
  | Closing => (s, FsmOut.make Closed None None None Notify.just_finished)
  | Stopping | ReqSent | AckRcvd | AckSent =>
      (s, FsmOut.make Stopped None None None Notify.just_finished)
  | Opened => (irc_terminate s, FsmOut.make Stopping str None arm Notify.just_down)
  | from => (s, FsmOut.just from)
  end.

Definition on_echo (s : t) : t * FsmOut.t :=
  match state s with
  | Opened => (s, FsmOut.make Opened (Some Send.EchoReply) None None Notify.none)
  | from => (s, FsmOut.just from)
  end.

Definition transmits (send : option Send.t) : bool :=
  match send with Some (Send.ConfigureRequest | Send.TerminateReq) => true | _ => false end.

(** [if matches!(send, ..) { self.restart_counter = self.restart_counter.saturating_sub(1) }] *)
Definition consume (s : t) (send : option Send.t) : t :=
  if transmits send
  then with_counters s (saturating_sub (restart_counter s) 1) (failure_counter s) else s.

Definition transition (s : t) (event : FsmEvent.t) : t * FsmOut.t :=
  match event with
  | FsmEvent.Up => on_up s
  | FsmEvent.Down => on_down s
  | FsmEvent.Open => on_open s
  | FsmEvent.Close => on_close s
  | FsmEvent.RestartTimeout => on_timeout s
  | FsmEvent.RcvConfigReqGood => on_config_req_good s
  | FsmEvent.RcvConfigReqBad => on_config_req_bad s
  | FsmEvent.RcvConfigAck => on_config_ack s
  | FsmEvent.RcvConfigNak => on_config_nak s
  | FsmEvent.RcvTerminateReq => on_terminate_req s
  | FsmEvent.RcvTerminateAck => on_terminate_ack s
  | FsmEvent.RcvUnknownCode => on_unknown_code s
  | FsmEvent.RcvCodeRejPermitted => (s, FsmOut.just (state s))
  | FsmEvent.RcvCodeRejCatastrophic => on_code_rej_catastrophic s
  | FsmEvent.RcvEcho => on_echo s
  end.

Definition step (s : t) (event : FsmEvent.t) : t * FsmOut.t :=
  let '(s, out) := transition s event in
  let s := consume s (FsmOut.send out) in
  let s := consume s (FsmOut.send_extra out) in
  (with_state s (FsmOut.new_state out), out).

End Fsm.

(** * The table of RFC 1661, section 4.1 *)

Module Rfc1661.
Import FsmState.

Inductive action := tlu | tld | tls | tlf | irc | zrc | scr | sca | scn | str | sta | scj | ser.

#[global] Instance action_eq_dec : EqDecision action.
Proof. solve_decision. Defined.

(** The rows; the restart timeout has two, by the restart counter. *)
Inductive row :=
| Up | Down | Open | Close | TOp | TOm | RCRp | RCRm | RCA | RCN | RTR | RTA | RUC | RXJp | RXJm | RXR.

Definition row_of (counter : Z) (ev : FsmEvent.t) : row :=
  match ev with
  | FsmEvent.Up => Up
  | FsmEvent.Down => Down
  | FsmEvent.Open => Open
  | FsmEvent.Close => Close
  | FsmEvent.RestartTimeout => if counter >? 0 then TOp else TOm
  | FsmEvent.RcvConfigReqGood => RCRp
  | FsmEvent.RcvConfigReqBad => RCRm
  | FsmEvent.RcvConfigAck => RCA
  | FsmEvent.RcvConfigNak => RCN
  | FsmEvent.RcvTerminateReq => RTR
  | FsmEvent.RcvTerminateAck => RTA
  | FsmEvent.RcvUnknownCode => RUC
  | FsmEvent.RcvCodeRejPermitted => RXJp
  | FsmEvent.RcvCodeRejCatastrophic => RXJm
  | FsmEvent.RcvEcho => RXR
  end.

#[local] Abbreviation __ := (@None (list action * FsmState.t)).
#[local] Notation "a ~> s" := (Some (a, s)) (at level 50).

(** Columns: Initial, Starting, Closed, Stopped, Closing, Stopping, ReqSent, AckRcvd, AckSent,
    Opened.  [__] is a cell the RFC leaves empty. *)
Definition columns (r : row) : list (option (list action * FsmState.t)) :=
  match r with
  | Up =>    [[] ~> Closed; [irc;scr] ~> ReqSent; __; __; __; __; __; __; __; __]
  | Down =>  [__; __; [] ~> Initial; [tls] ~> Starting; [] ~> Initial; [] ~> Starting; [] ~> Starting; [] ~> Starting;
              [] ~> Starting; [tld] ~> Starting]
  | Open =>  [[tls] ~> Starting; [] ~> Starting; [irc;scr] ~> ReqSent; [] ~> Stopped; [] ~> Stopping; [] ~> Stopping;
              [] ~> ReqSent; [] ~> AckRcvd; [] ~> AckSent; [] ~> Opened]
  | Close => [[] ~> Initial; [tlf] ~> Initial; [] ~> Closed; [] ~> Closed; [] ~> Closing; [] ~> Closing;
              [irc;str] ~> Closing; [irc;str] ~> Closing; [irc;str] ~> Closing; [tld;irc;str] ~> Closing]
  | TOp =>   [__; __; __; __; [str] ~> Closing; [str] ~> Stopping; [scr] ~> ReqSent; [scr] ~> ReqSent;
              [scr] ~> AckSent; __]
  | TOm =>   [__; __; __; __; [tlf] ~> Closed; [tlf] ~> Stopped; [tlf] ~> Stopped; [tlf] ~> Stopped;
              [tlf] ~> Stopped; __]
  | RCRp =>  [__; __; [sta] ~> Closed; [irc;scr;sca] ~> AckSent; [] ~> Closing; [] ~> Stopping; [sca] ~> AckSent;
              [sca;tlu] ~> Opened; [sca] ~> AckSent; [tld;scr;sca] ~> AckSent]
  | RCRm =>  [__; __; [sta] ~> Closed; [irc;scr;scn] ~> ReqSent; [] ~> Closing; [] ~> Stopping; [scn] ~> ReqSent;
              [scn] ~> AckRcvd; [scn] ~> ReqSent; [tld;scr;scn] ~> ReqSent]
  | RCA =>   [__; __; [sta] ~> Closed; [sta] ~> Stopped; [] ~> Closing; [] ~> Stopping; [irc] ~> AckRcvd;
              [scr] ~> ReqSent; [irc;tlu] ~> Opened; [tld;scr] ~> ReqSent]
  | RCN =>   [__; __; [sta] ~> Closed; [sta] ~> Stopped; [] ~> Closing; [] ~> Stopping; [irc;scr] ~> ReqSent;
              [scr] ~> ReqSent; [irc;scr] ~> AckSent; [tld;scr] ~> ReqSent]
  | RTR =>   [__; __; [sta] ~> Closed; [sta] ~> Stopped; [sta] ~> Closing; [sta] ~> Stopping; [sta] ~> ReqSent;
              [sta] ~> ReqSent; [sta] ~> ReqSent; [tld;zrc;sta] ~> Stopping]
  | RTA =>   [__; __; [] ~> Closed; [] ~> Stopped; [tlf] ~> Closed; [tlf] ~> Stopped; [] ~> ReqSent; [] ~> ReqSent;
              [] ~> AckSent; [tld;scr] ~> ReqSent]
  | RUC =>   [__; __; [scj] ~> Closed; [scj] ~> Stopped; [scj] ~> Closing; [scj] ~> Stopping; [scj] ~> ReqSent;
              [scj] ~> AckRcvd; [scj] ~> AckSent; [scj] ~> Opened]
  | RXJp =>  [__; __; [] ~> Closed; [] ~> Stopped; [] ~> Closing; [] ~> Stopping; [] ~> ReqSent; [] ~> ReqSent;
              [] ~> AckSent; [] ~> Opened]
  | RXJm =>  [__; __; [tlf] ~> Closed; [tlf] ~> Stopped; [tlf] ~> Closed; [tlf] ~> Stopped; [tlf] ~> Stopped;
              [tlf] ~> Stopped; [tlf] ~> Stopped; [tld;irc;str] ~> Stopping]
  | RXR =>   [__; __; [] ~> Closed; [] ~> Stopped; [] ~> Closing; [] ~> Stopping; [] ~> ReqSent; [] ~> AckRcvd;
              [] ~> AckSent; [ser] ~> Opened]
  end.

Definition column (s : FsmState.t) : nat :=
  match s with
  | Initial => 0 | Starting => 1 | Closed => 2 | Stopped => 3 | Closing => 4 | Stopping => 5
  | ReqSent => 6 | AckRcvd => 7 | AckSent => 8 | Opened => 9
  end.

(** The actions and next state of a cell; an empty cell does nothing. *)
Definition cell (s : FsmState.t) (r : row) : list action * FsmState.t :=
  default ([], s) (mjoin (columns r !! column s)).

Definition packet (a : action) : option Send.t :=
  match a with
  | scr => Some Send.ConfigureRequest
  | sca => Some Send.ConfigureAck
  | scn => Some Send.ConfigureNak
  | str => Some Send.TerminateReq
  | sta => Some Send.TerminateAck
  | scj => Some Send.CodeReject
  | ser => Some Send.EchoReply
  | _ => None
  end.

Definition notified (acts : list action) : Notify.t :=
  {| Notify.up := bool_decide (tlu ∈ acts); Notify.down := bool_decide (tld ∈ acts);
     Notify.started := bool_decide (tls ∈ acts); Notify.finished := bool_decide (tlf ∈ acts) |}.

(** The restart counter: [irc] initialises it to Max-Terminate when a Terminate-Request follows and
    to Max-Configure otherwise, [zrc] zeroes it, every request sent takes one off. *)
Definition counter (max_configure max_terminate : Z) (acts : list action) (c : Z) : Z :=
  fold_left (fun c a =>
    match a with
    | irc => if bool_decide (str ∈ acts) then max_terminate else max_configure
    | zrc => 0
    | scr | str => Z.max 0 (c - 1)
    | _ => c
    end) acts c.

(** The cells on which the source does not follow the table. *)
Definition deviates (s : FsmState.t) (r : row) : bool :=
  match s, r with
  | Closing, Open => true
  | (Closed | Stopped), (RCA | RCN) => true
  | AckRcvd, RXJp => true
  | (Initial | Starting), RUC => true
  | _, _ => false
  end.

End Rfc1661.

Definition packets (out : FsmOut.t) : list Send.t :=
  option_list (FsmOut.send out) ++ option_list (FsmOut.send_extra out).

(** The step taken by [Fsm.step] is the one in the table. *)
Definition follows_table (s : Fsm.t) (ev : FsmEvent.t) : Prop :=
  let '(acts, st) := Rfc1661.cell (Fsm.state s) (Rfc1661.row_of (Fsm.restart_counter s) ev) in
  let '(s', out) := Fsm.step s ev in
  Fsm.state s' = st /\ packets out = omap Rfc1661.packet acts /\
  FsmOut.notify out = Rfc1661.notified acts /\
  Fsm.restart_counter s' =
    Rfc1661.counter (Fsm.max_configure s) (Fsm.max_terminate s) acts (Fsm.restart_counter s).

(** C10: The automaton follows the RFC 1661 table on every state and event, in next state, packets
    sent and their order, layer notifications and restart counter, except on exactly the eight cells
    of [Rfc1661.deviates], on which it does not. *)
Theorem fsm_follows_rfc1661 s ev :
  follows_table s ev <->
  Rfc1661.deviates (Fsm.state s) (Rfc1661.row_of (Fsm.restart_counter s) ev) = false.
Proof.
  destruct s as [st i c f mc mt mf]. unfold follows_table.
  destruct ev; cbn [Rfc1661.row_of Fsm.restart_counter Fsm.state];
    try (destruct (c >? 0) eqn:Hc); destruct st;
    cbn -[Z.max Z.sub Z.gtb]; unfold Fsm.on_restart_timeout; cbn [Fsm.restart_counter];
    rewrite ?Hc;
    cbn -[Z.max Z.sub Z.gtb];
    (split; [try done; naive_solver | try done; intros _; split_and!; try done; lia]).
Qed.

Lemma fsm_layer s ev :
  let '(s', out) := Fsm.step s ev in
  (Notify.up (FsmOut.notify out) = true <->
   Fsm.state s <> FsmState.Opened /\ Fsm.state s' = FsmState.Opened) /\
  (Notify.down (FsmOut.notify out) = true <->
   Fsm.state s = FsmState.Opened /\ Fsm.state s' <> FsmState.Opened).
Proof.
  destruct s as [st i c f mc mt mf].
  destruct ev, st; cbn -[Z.max Z.sub Z.gtb]; unfold Fsm.on_restart_timeout;
    try (destruct (_ >? 0)); cbn; naive_solver.
Qed.

(** This-Layer-Up is signalled exactly on entering Opened, and This-Layer-Down exactly on leaving
    it. *)
Theorem layer_up_down_iff_opened s ev :
  let '(s', out) := Fsm.step s ev in
  (Notify.up (FsmOut.notify out) = true <->
   Fsm.state s <> FsmState.Opened /\ Fsm.state s' = FsmState.Opened) /\
  (Notify.down (FsmOut.notify out) = true <->
   Fsm.state s = FsmState.Opened /\ Fsm.state s' <> FsmState.Opened).
Proof. apply fsm_layer. Qed.

(** ** Restart timeouts *)

(** A negotiation or termination exchange that only the restart timer moves. *)
Definition retransmitting (st : FsmState.t) : bool :=
  match st with
  | FsmState.Closing | FsmState.Stopping | FsmState.ReqSent | FsmState.AckRcvd
  | FsmState.AckSent => true
  | _ => false
  end.

(** [timeouts n s]: the packets of [n] consecutive restart timeouts, stopping at This-Layer-Finished;
    the second component tells whether it was reached. *)
Fixpoint timeouts (n : nat) (s : Fsm.t) : list Send.t * bool * Fsm.t :=
  match n with
  | O => ([], false, s)
  | S n =>
      let '(s', out) := Fsm.step s FsmEvent.RestartTimeout in
      if Notify.finished (FsmOut.notify out) then (packets out, true, s')
      else let '(ps, fin, s'') := timeouts n s' in (packets out ++ ps, fin, s'')
  end.

Lemma timeout_retransmits s :
  retransmitting (Fsm.state s) = true -> 0 < Fsm.restart_counter s ->
  let '(s', out) := Fsm.step s FsmEvent.RestartTimeout in
  Notify.finished (FsmOut.notify out) = false /\
  (packets out = [Send.ConfigureRequest] \/ packets out = [Send.TerminateReq]) /\
  retransmitting (Fsm.state s') = true /\ Fsm.restart_counter s' = Fsm.restart_counter s - 1.
Proof.
  destruct s as [st i c f mc mt mf]. intros Hr Hc. cbn in Hc.
  unfold Fsm.step, Fsm.transition, Fsm.on_timeout, Fsm.on_restart_timeout.
  cbn [Fsm.state Fsm.restart_counter]. replace (c >? 0) with true by lia.
  destruct st; try done; cbn -[Z.sub Z.max]; unfold saturating_sub; split_and!; auto; lia.
Qed.

Lemma timeout_gives_up s :
  retransmitting (Fsm.state s) = true -> Fsm.restart_counter s = 0 ->
  let '(s', out) := Fsm.step s FsmEvent.RestartTimeout in
  Notify.finished (FsmOut.notify out) = true /\ packets out = [] /\
  (Fsm.state s' = FsmState.Closed \/ Fsm.state s' = FsmState.Stopped).
Proof.
  destruct s as [st i c f mc mt mf]. intros Hr Hc. cbn in Hc. subst c.
  destruct st; try done; cbn; auto.
Qed.

(** If the peer stays silent, a layer that is negotiating or terminating retransmits its request
    once per remaining restart count and then, on the next timeout, reports This-Layer-Finished in
    Closed or Stopped. *)
Theorem timeouts_end_negotiation s n :
  retransmitting (Fsm.state s) = true -> Fsm.restart_counter s = Z.of_nat n ->
  exists ps s', timeouts (S n) s = (ps, true, s') /\ length ps = n /\
    Forall (fun p => p = Send.ConfigureRequest \/ p = Send.TerminateReq) ps /\
    (Fsm.state s' = FsmState.Closed \/ Fsm.state s' = FsmState.Stopped).
Proof.
  revert s. induction n as [|n IH]; intros s Hr Hc.
  - pose proof (timeout_gives_up s Hr) as Hg. cbn [timeouts].
    destruct (Fsm.step s FsmEvent.RestartTimeout) as [s' out].
    destruct Hg as (Hf & Hp & Hst); [lia|]. rewrite Hf, Hp. eauto 10.
  - pose proof (timeout_retransmits s Hr) as Hg. remember (S n) as m. cbn [timeouts].
    destruct (Fsm.step s FsmEvent.RestartTimeout) as [s' out].
    destruct Hg as (Hf & Hp & Hr' & Hc'); [lia|]. rewrite Hf.
    destruct (IH s' Hr') as (ps & s'' & Ht & Hl & Hall & Hst); [lia|]. subst m. rewrite Ht.
    exists (packets out ++ ps), s''. split_and!; [done| | |done].
    + destruct Hp as [-> | ->]; simpl; lia.
    + apply Forall_app. split; [destruct Hp as [-> | ->]; constructor; auto|done].
Qed.

Lemma timeouts_end_negotiation_witness :
  let s := (Fsm.step (Fsm.step Fsm.new FsmEvent.Open).1 FsmEvent.Up).1 in
  exists ps s', timeouts 10 s = (ps, true, s') /\ length ps = 9%nat /\
    Forall (fun p => p = Send.ConfigureRequest \/ p = Send.TerminateReq) ps /\
    (Fsm.state s' = FsmState.Closed \/ Fsm.state s' = FsmState.Stopped).
Proof. intros s. by apply (timeouts_end_negotiation s 9). Defined.

(** ** The restart timer *)

(** The restart timer as the driver keeps it: a timeout consumes it. *)
Definition timer_after (running : bool) (ev : FsmEvent.t) (out : FsmOut.t) : bool :=
  match FsmOut.restart_timer out with
  | Some RestartTimer.Start => true
  | Some RestartTimer.Stop => false
  | None => match ev with FsmEvent.RestartTimeout => false | _ => running end
  end.

(** The automaton with its timer, driven by any sequence of events in which a restart timeout occurs
    only while the timer runs. *)
Inductive fsm_reach : Fsm.t -> bool -> Prop :=
| fsm_reach_new : fsm_reach Fsm.new false
| fsm_reach_step s running ev :
    fsm_reach s running -> (ev = FsmEvent.RestartTimeout -> running = true) ->
    fsm_reach (Fsm.step s ev).1 (timer_after running ev (Fsm.step s ev).2).

Record fsm_inv (s : Fsm.t) (running : bool) : Prop := {
  fsm_inv_counter : 0 <= Fsm.restart_counter s <= 10;
  fsm_inv_max : Fsm.max_configure s = 10 /\ Fsm.max_terminate s = 2;
  fsm_inv_closing : Fsm.state s = FsmState.Closing \/ Fsm.state s = FsmState.Stopping -> running = true;
  fsm_inv_off : Fsm.state s = FsmState.AckRcvd \/ Fsm.state s = FsmState.Opened -> running = false
}.

Lemma fsm_step_inv s running ev :
  fsm_inv s running -> (ev = FsmEvent.RestartTimeout -> running = true) ->
  fsm_inv (Fsm.step s ev).1 (timer_after running ev (Fsm.step s ev).2).
Proof.
  destruct s as [st i c f mc mt mf]. intros [Hc [Hm1 Hm2] Hclos Hoff] Hev. cbn in *. subst.
  unfold Fsm.step.
  destruct ev, st; cbn -[Z.gtb Z.sub Z.max]; unfold Fsm.on_restart_timeout; cbn [Fsm.restart_counter];
    try (destruct (_ >? 0)); cbn -[Z.gtb Z.sub Z.max]; unfold saturating_sub;
    split; cbn -[Z.max Z.sub]; try lia; try naive_solver.
Qed.

Lemma fsm_reach_inv s running : fsm_reach s running -> fsm_inv s running.
Proof.
  induction 1 as [|s running ev _ IH Hev]; [|by apply fsm_step_inv].
  split; cbn; unfold DEFAULT_MAX_CONFIGURE, DEFAULT_MAX_TERMINATE; naive_solver lia.
Qed.

(** Whatever the peer sends, the restart timer always runs while a Terminate-Request is
    outstanding, so a termination always ends; and it never runs in Opened or AckRcvd.  The restart
    counter stays between 0 and 10. *)
Theorem termination_always_timed s running :
  fsm_reach s running ->
  0 <= Fsm.restart_counter s <= 10 /\
  (Fsm.state s = FsmState.Closing \/ Fsm.state s = FsmState.Stopping -> running = true) /\
  (Fsm.state s = FsmState.AckRcvd \/ Fsm.state s = FsmState.Opened -> running = false).
Proof. intros [? _ ? ?]%fsm_reach_inv. auto. Qed.

Definition fsm_at_closing : Fsm.t :=
  (Fsm.step (Fsm.step (Fsm.step Fsm.new FsmEvent.Open).1 FsmEvent.Up).1 FsmEvent.Close).1.

Lemma fsm_reach_closing : fsm_reach fsm_at_closing true.
Proof.
  apply (fsm_reach_step (Fsm.step (Fsm.step Fsm.new FsmEvent.Open).1 FsmEvent.Up).1 true FsmEvent.Close);
    [|done].
  apply (fsm_reach_step (Fsm.step Fsm.new FsmEvent.Open).1 false FsmEvent.Up); [|done].
  apply (fsm_reach_step Fsm.new false FsmEvent.Open); [constructor|done].
Qed.

Lemma termination_always_timed_witness :
  0 <= Fsm.restart_counter fsm_at_closing <= 10 /\
  (Fsm.state fsm_at_closing = FsmState.Closing \/ Fsm.state fsm_at_closing = FsmState.Stopping ->
   true = true) /\
  (Fsm.state fsm_at_closing = FsmState.AckRcvd \/ Fsm.state fsm_at_closing = FsmState.Opened ->
   true = false).
Proof. exact (termination_always_timed fsm_at_closing true fsm_reach_closing). Defined.

(** The negotiation states are not always timed: a duplicate Configure-Ack takes the automaton
    from AckRcvd back to ReqSent with a Configure-Request outstanding and no restart timer, although
    RFC 1661 4.1 has the timer running there. *)
Theorem request_outstanding_without_timer :
  exists s, fsm_reach s false /\ Fsm.state s = FsmState.ReqSent /\
    0 < Fsm.restart_counter s.
Proof.
  eexists. split.
  - apply (fsm_reach_step (Fsm.step (Fsm.step (Fsm.step Fsm.new FsmEvent.Open).1 FsmEvent.Up).1
             FsmEvent.RcvConfigAck).1 false FsmEvent.RcvConfigAck); [|done].
    apply (fsm_reach_step (Fsm.step (Fsm.step Fsm.new FsmEvent.Open).1 FsmEvent.Up).1 true
             FsmEvent.RcvConfigAck); [|done].
    apply (fsm_reach_step (Fsm.step Fsm.new FsmEvent.Open).1 false FsmEvent.Up); [|done].
    apply (fsm_reach_step Fsm.new false FsmEvent.Open); [constructor|done].
  - done.
Qed.
