(* ===== verification/PppAuth.v ===== *)
(** PPP authentication packet codecs: [src/src/ppp/auth.rs].

    Modules [Pap], [Chap] and [Eap] are the source's submodules.  All three share the control packet
    envelope (code, identifier, length), [lcp_bytes] of [Lcp].  The theorems are that no decoder
    panics and that every encoder's output decodes to what was encoded. *)

From S2P Require Import Prelude PppFrame Lcp.

Inductive AuthError :=
| AuthTruncated (need have : Z)
| AuthLengthTooSmall (declared : Z)
| AuthLengthExceedsBuffer (declared available : Z)
| UnexpectedCode (expected actual : Z).

Definition HEADER_LEN : Z := 4.

Module Pap.

Inductive Code := AuthenticateRequest | AuthenticateAck | AuthenticateNak.

#[global] Instance Code_eq_dec : EqDecision Code.
Proof. solve_decision. Defined.

Definition from_u8 (v : Z) : option Code :=
  if v =? 1 then Some AuthenticateRequest
  else if v =? 2 then Some AuthenticateAck
  else if v =? 3 then Some AuthenticateNak
  else None.

Definition as_u8 (c : Code) : Z :=
  match c with AuthenticateRequest => 1 | AuthenticateAck => 2 | AuthenticateNak => 3 end.

(** The decoded Authenticate-Request. *)
Record request := { identifier : Z; peer_id : bytes; password : bytes }.

Definition decode_header (buf : bytes) (expect : Code) : res AuthError (Z * bytes) :=
  if len buf <? HEADER_LEN then Err (AuthTruncated HEADER_LEN (len buf)) else
  code ← idx buf 0;
  if negb (code =? as_u8 expect) then Err (UnexpectedCode (as_u8 expect) code) else
  identifier ← idx buf 1;
  b2 ← idx buf 2;
  b3 ← idx buf 3;
  let length := be16 b2 b3 in
  if length <? HEADER_LEN then Err (AuthLengthTooSmall length) else
  if length >? len buf then Err (AuthLengthExceedsBuffer length (len buf)) else
  body ← slice buf HEADER_LEN length;
  Ok (identifier, body).

(** The part of [decode_authenticate_request] after the header. *)
Definition decode_body (id : Z) (body : bytes) : res AuthError request :=
  if len body =? 0 then Err (AuthTruncated 1 0) else
  peer_len ← idx body 0;
  if len body <? 1 + peer_len + 1 then Err (AuthTruncated (1 + peer_len + 1) (len body)) else
  peer_id ← slice body 1 (peer_len + 1);
  let pw_off := 1 + peer_len in
  pw_len ← idx body pw_off;
  let pw_start := pw_off + 1 in
  if len body <? pw_start + pw_len then Err (AuthTruncated (pw_start + pw_len) (len body)) else
  password ← slice body pw_start (pw_start + pw_len);
  Ok {| identifier := id; peer_id := peer_id; password := password |}.

Definition decode_authenticate_request (buf : bytes) : res AuthError request :=
  '(id, body) ← decode_header buf AuthenticateRequest;
  decode_body id body.

Definition encode_response {E} (out : bytes) (code : Code) (identifier : Z) (message : bytes)
    : res E (bytes * Z) :=
  _ ← assert_ (match code with AuthenticateAck | AuthenticateNak => true | _ => false end);
  let msg_len := len message in
  let total := HEADER_LEN + 1 + msg_len in
  _ ← assert_ (len out >=? total);
  _ ← assert_ (msg_len <=? 255);
  _ ← assert_ (total <=? 65535);
  out ← set_at out 0 (as_u8 code);
  out ← set_at out 1 identifier;
  out ← copy_slice out 2 4 (to_be16 (as_u16 total));
  out ← set_at out 4 (Prelude.as_u8 msg_len);
  out ← copy_slice out 5 (5 + msg_len) message;
  Ok (out, total).

End Pap.

Module Chap.

Inductive Code := Challenge | Response | Success | Failure.

#[global] Instance Code_eq_dec : EqDecision Code.
Proof. solve_decision. Defined.

Definition from_u8 (v : Z) : option Code :=
  if v =? 1 then Some Challenge
  else if v =? 2 then Some Response
  else if v =? 3 then Some Success
  else if v =? 4 then Some Failure
  else None.

Definition as_u8 (c : Code) : Z :=
  match c with Challenge => 1 | Response => 2 | Success => 3 | Failure => 4 end.

(** The decoded Challenge or Response. *)
Record challenge_response := { identifier : Z; value : bytes; name : bytes }.

Definition decode_header (buf accept : bytes) : res AuthError (Z * bytes) :=
  if len buf <? HEADER_LEN then Err (AuthTruncated HEADER_LEN (len buf)) else
  code ← idx buf 0;
  if negb (existsb (Z.eqb code) accept) then
    expected ← idx accept 0;
    Err (UnexpectedCode expected code)
  else
  identifier ← idx buf 1;
  b2 ← idx buf 2;
  b3 ← idx buf 3;
  let length := be16 b2 b3 in
  if length <? HEADER_LEN then Err (AuthLengthTooSmall length) else
  if length >? len buf then Err (AuthLengthExceedsBuffer length (len buf)) else
  body ← slice buf HEADER_LEN length;
  Ok (identifier, body).

(** The part of [decode_challenge_response] after the header. *)
Definition decode_body (id : Z) (body : bytes) : res AuthError challenge_response :=
  if len body =? 0 then Err (AuthTruncated 1 0) else
  value_size ← idx body 0;
  if len body <? 1 + value_size then Err (AuthTruncated (1 + value_size) (len body)) else
  value ← slice body 1 (value_size + 1);
  name ← slice_from body (1 + value_size);
  Ok {| identifier := id; value := value; name := name |}.

Definition decode_challenge_response (buf : bytes) : res AuthError challenge_response :=
  '(id, body) ← decode_header buf [as_u8 Challenge; as_u8 Response];
  decode_body id body.

Definition encode_challenge_response {E} (out : bytes) (code : Code) (identifier : Z)
    (value name : bytes) : res E (bytes * Z) :=
  _ ← assert_ (match code with Challenge | Response => true | _ => false end);
  let total := HEADER_LEN + 1 + len value + len name in
  _ ← assert_ (len out >=? total);
  _ ← assert_ (len value <=? 255);
  _ ← assert_ (total <=? 65535);
  out ← set_at out 0 (as_u8 code);
  out ← set_at out 1 identifier;
  out ← copy_slice out 2 4 (to_be16 (as_u16 total));
  out ← set_at out 4 (Prelude.as_u8 (len value));
  out ← copy_slice out 5 (5 + len value) value;
  out ← copy_slice out (5 + len value) total name;
  Ok (out, total).

Definition encode_terminal {E} (out : bytes) (code : Code) (identifier : Z) (message : bytes)
    : res E (bytes * Z) :=
  _ ← assert_ (match code with Success | Failure => true | _ => false end);
  let total := HEADER_LEN + len message in
  _ ← assert_ (len out >=? total);
  _ ← assert_ (total <=? 65535);
  out ← set_at out 0 (as_u8 code);
  out ← set_at out 1 identifier;
  out ← copy_slice out 2 4 (to_be16 (as_u16 total));
  out ← copy_slice out HEADER_LEN total message;
  Ok (out, total).

End Chap.

Module Eap.

Inductive Code := Request | Response | Success | Failure.

#[global] Instance Code_eq_dec : EqDecision Code.
Proof. solve_decision. Defined.

Definition from_u8 (v : Z) : option Code :=
  if v =? 1 then Some Request
  else if v =? 2 then Some Response
  else if v =? 3 then Some Success
  else if v =? 4 then Some Failure
  else None.

Definition as_u8 (c : Code) : Z :=
  match c with Request => 1 | Response => 2 | Success => 3 | Failure => 4 end.

Definition REQ_RESP_HEADER_LEN : Z := HEADER_LEN + 1.

Record packet := { code : Z; identifier : Z; payload : bytes }.

Definition typed (p : packet) : option (Z * bytes) :=
  match from_u8 (code p) with
  | Some (Request | Response) =>
      match payload p with t :: data => Some (t, data) | [] => None end
  | _ => None
  end.

Definition decode (buf : bytes) : res AuthError packet :=
  if len buf <? HEADER_LEN then Err (AuthTruncated HEADER_LEN (len buf)) else
  code ← idx buf 0;
  identifier ← idx buf 1;
  b2 ← idx buf 2;
  b3 ← idx buf 3;
  let length := be16 b2 b3 in
  if length <? HEADER_LEN then Err (AuthLengthTooSmall length) else
  if length >? len buf then Err (AuthLengthExceedsBuffer length (len buf)) else
  payload ← slice buf HEADER_LEN length;
  Ok {| code := code; identifier := identifier; payload := payload |}.

Definition encode_request_response {E} (out : bytes) (code : Code) (identifier type_code : Z)
    (type_data : bytes) : res E (bytes * Z) :=
  _ ← assert_ (match code with Request | Response => true | _ => false end);
  let total := REQ_RESP_HEADER_LEN + len type_data in
  _ ← assert_ (len out >=? total);
  _ ← assert_ (total <=? 65535);
  out ← set_at out 0 (as_u8 code);
  out ← set_at out 1 identifier;
  out ← copy_slice out 2 4 (to_be16 (as_u16 total));
  out ← set_at out 4 type_code;
  out ← copy_slice out 5 total type_data;
  Ok (out, total).

Definition encode_terminal {E} (out : bytes) (code : Code) (identifier : Z) : res E (bytes * Z) :=
  _ ← assert_ (match code with Success | Failure => true | _ => false end);
  _ ← assert_ (len out >=? HEADER_LEN);
  out ← set_at out 0 (as_u8 code);
  out ← set_at out 1 identifier;
  out ← copy_slice out 2 4 (to_be16 (as_u16 HEADER_LEN));
  Ok (out, HEADER_LEN).

End Eap.

(** ** Decoders *)

#[local] Abbreviation envelope c i d :=
  (lcp_bytes {| LcpPacket.code := c; LcpPacket.identifier := i; LcpPacket.data := d |}).

(** Every decoder reads the envelope as [decode_lcp_packet] does. *)
Definition enveloped {A} (buf : bytes) (accept : Z -> bool) (k : LcpPacket.t -> res AuthError A)
    : res AuthError A :=
  match decode_lcp_packet buf with
  | Ok p => if accept (LcpPacket.code p) then k p else Err (UnexpectedCode 1 (LcpPacket.code p))
  | Err (LcpTruncated n h) => Err (AuthTruncated n h)
  | Err (LcpLengthTooSmall d) =>
      if accept (byte_at buf 0) then Err (AuthLengthTooSmall d)
      else Err (UnexpectedCode 1 (byte_at buf 0))
  | Err (LcpLengthExceedsBuffer d a) =>
      if accept (byte_at buf 0) then Err (AuthLengthExceedsBuffer d a)
      else Err (UnexpectedCode 1 (byte_at buf 0))
  | _ => Panic
  end.

Lemma pap_header_eq buf :
  Pap.decode_header buf Pap.AuthenticateRequest =
  enveloped buf (fun c => c =? 1) (fun p => Ok (LcpPacket.identifier p, LcpPacket.data p)).
Proof.
  unfold Pap.decode_header, enveloped, HEADER_LEN. rewrite decode_lcp_packet_eq. cbn zeta.
  destruct (len buf <? 4) eqn:?; [done|]. rewrite (idx_ok buf 0) by lia. cbn [mbind res_bind Pap.as_u8].
  destruct (byte_at buf 0 =? 1) eqn:Hc; cbn [negb].
  - rewrite (idx_ok buf 1), (idx_ok buf 2), (idx_ok buf 3) by lia. cbn [mbind res_bind].
    set (d := be16 (byte_at buf 2) (byte_at buf 3)).
    destruct (d <? 4) eqn:?; [done|]. destruct (d >? len buf) eqn:?; [done|].
    cbn beta iota delta [LcpPacket.code]. rewrite Hc. run_ok. done.
  - set (d := be16 (byte_at buf 2) (byte_at buf 3)).
    destruct (d <? 4) eqn:?; [done|]. destruct (d >? len buf) eqn:?; [done|].
    cbn beta iota delta [LcpPacket.code]. by rewrite Hc.
Qed.

Lemma chap_header_eq buf :
  Chap.decode_header buf [1; 2] =
  enveloped buf (fun c => (c =? 1) || (c =? 2))
    (fun p => Ok (LcpPacket.identifier p, LcpPacket.data p)).
Proof.
  unfold Chap.decode_header, enveloped, HEADER_LEN. rewrite decode_lcp_packet_eq. cbn zeta.
  destruct (len buf <? 4) eqn:?; [done|]. rewrite (idx_ok buf 0) by lia. cbn [mbind res_bind existsb].
  rewrite orb_false_r. destruct ((byte_at buf 0 =? 1) || (byte_at buf 0 =? 2)) eqn:Hc; cbn [negb].
  - rewrite (idx_ok buf 1), (idx_ok buf 2), (idx_ok buf 3) by lia. cbn [mbind res_bind].
    set (d := be16 (byte_at buf 2) (byte_at buf 3)).
    destruct (d <? 4) eqn:?; [done|]. destruct (d >? len buf) eqn:?; [done|].
    cbn beta iota delta [LcpPacket.code]. rewrite Hc. run_ok. done.
  - set (d := be16 (byte_at buf 2) (byte_at buf 3)).
    destruct (d <? 4) eqn:?; [done|]. destruct (d >? len buf) eqn:?; [done|].
    cbn beta iota delta [LcpPacket.code]. by rewrite Hc.
Qed.

Lemma eap_decode_eq buf :
  Eap.decode buf =
  enveloped buf (fun _ => true)
    (fun p => Ok {| Eap.code := LcpPacket.code p; Eap.identifier := LcpPacket.identifier p;
                    Eap.payload := LcpPacket.data p |}).
Proof.
  unfold Eap.decode, enveloped, HEADER_LEN. rewrite decode_lcp_packet_eq. cbn zeta.
  destruct (len buf <? 4) eqn:?; [done|].
  rewrite (idx_ok buf 0), (idx_ok buf 1), (idx_ok buf 2), (idx_ok buf 3) by lia. cbn [mbind res_bind].
  set (d := be16 (byte_at buf 2) (byte_at buf 3)).
  destruct (d <? 4) eqn:?; [done|]. destruct (d >? len buf) eqn:?; [done|]. run_ok. done.
Qed.

Lemma enveloped_bind {A B} buf accept k (f : A -> res AuthError B) :
  enveloped buf accept k ≫= f = enveloped buf accept (fun p => k p ≫= f).
Proof. unfold enveloped. repeat case_match; done. Qed.

Lemma u8s_envelope p rest : u8s (lcp_bytes p ++ rest) -> u8s (LcpPacket.data p).
Proof. intros [H _]%Forall_app. by do 4 apply Forall_cons in H as [_ H]. Qed.

Lemma enveloped_total {A} buf accept (k : LcpPacket.t -> res AuthError A) :
  u8s buf -> (forall p, u8s (LcpPacket.data p) -> k p <> Panic) -> enveloped buf accept k <> Panic.
Proof.
  intros Hb Hk. unfold enveloped.
  destruct (decode_lcp_packet buf) as [p|e|] eqn:Hd.
  - apply decode_lcp_inv in Hd as (_ & rest & ->); [|done].
    case_match; [|done]. by eapply Hk, u8s_envelope.
  - rewrite decode_lcp_packet_eq in Hd. cbn zeta in Hd. repeat case_match; simplify_eq; done.
  - rewrite decode_lcp_packet_eq in Hd. cbn zeta in Hd. repeat case_match; done.
Qed.

Lemma enveloped_ok {A} buf accept (k : LcpPacket.t -> res AuthError A) a :
  u8s buf ->
  enveloped buf accept k = Ok a <->
  exists p rest, buf = lcp_bytes p ++ rest /\ lcp_ok p /\ accept (LcpPacket.code p) = true /\ k p = Ok a.
Proof.
  intros Hb. unfold enveloped. split.
  - destruct (decode_lcp_packet buf) as [p|e|] eqn:Hd; [|repeat case_match; done|done].
    apply decode_lcp_inv in Hd as (Hok & rest & ->); [|done]. case_match; [|done]. eauto 10.
  - intros (p & rest & -> & Hok & Ha & Hk). rewrite decode_lcp_bytes by done. by rewrite Ha.
Qed.

(** The body of an Authenticate-Request. *)
Definition pap_body (r : Pap.request) : bytes :=
  [len (Pap.peer_id r)] ++ Pap.peer_id r ++ [len (Pap.password r)] ++ Pap.password r.

Definition chap_body (c : Chap.challenge_response) : bytes :=
  [len (Chap.value c)] ++ Chap.value c ++ Chap.name c.

Lemma length_chap_body i v n :
  length (chap_body {| Chap.identifier := i; Chap.value := v; Chap.name := n |})
  = (1 + length v + length n)%nat.
Proof. unfold chap_body; cbn [Chap.value Chap.name]. by rewrite !length_app. Qed.

#[export] Hint Rewrite length_chap_body : lens.


Lemma split_len (l : bytes) n : 0 <= n <= len l -> exists p r, l = p ++ r /\ len p = n.
Proof.
  intros. exists (take (Z.to_nat n) l), (drop (Z.to_nat n) l). split; [by rewrite take_drop|len_lia].
Qed.

Lemma split_cons (l : bytes) n :
  0 <= n < len l -> exists p b r, l = p ++ b :: r /\ len p = n.
Proof.
  intros. destruct (split_len l n) as (p & [|b r] & -> & Hp); [lia| |eauto].
  rewrite app_nil_r in *. lia.
Qed.

Lemma pap_body_decodes id peer pw tail :
  Pap.decode_body id ([len peer] ++ peer ++ [len pw] ++ pw ++ tail)
  = Ok {| Pap.identifier := id; Pap.peer_id := peer; Pap.password := pw |}.
Proof.
  unfold Pap.decode_body. replace (len _ =? 0) with false by len_lia.
  rewrite (idx_ok _ 0) by len_lia. cbn [mbind res_bind]. change (byte_at _ 0) with (len peer).
  replace (_ <? _) with false by len_lia. rewrite slice_ok by len_lia. cbn [mbind res_bind].
  rewrite (sub_app_mid [len peer] peer) by len_lia. rewrite idx_ok by len_lia. cbn [mbind res_bind].
  rewrite app_assoc, byte_at_app_r by len_lia.
  replace (1 + len peer - _) with 0 by len_lia. change (byte_at _ 0) with (len pw).
  replace (_ <? _) with false by len_lia. rewrite slice_ok by len_lia. cbn [mbind res_bind].
  rewrite (app_assoc _ [len pw]). by rewrite (sub_app_mid _ pw) by len_lia.
Qed.

Lemma pap_body_no_password id n rest :
  len rest <= n -> Pap.decode_body id (n :: rest) = Err (AuthTruncated (1 + n + 1) (len (n :: rest))).
Proof.
  intros. unfold Pap.decode_body. replace (len _ =? 0) with false by len_lia.
  rewrite (idx_ok _ 0) by len_lia. cbn [mbind res_bind]. change (byte_at _ 0) with n.
  by replace (_ <? _) with true by len_lia.
Qed.

Lemma pap_body_short_password id peer m r :
  len r < m ->
  Pap.decode_body id (len peer :: peer ++ m :: r)
  = Err (AuthTruncated (1 + len peer + 1 + m) (len (len peer :: peer ++ m :: r))).
Proof.
  intros. unfold Pap.decode_body. replace (len _ =? 0) with false by len_lia.
  rewrite (idx_ok _ 0) by len_lia. cbn [mbind res_bind]. change (byte_at _ 0) with (len peer).
  replace (_ <? _) with false by len_lia. rewrite slice_ok by len_lia. cbn [mbind res_bind].
  rewrite idx_ok by len_lia. cbn [mbind res_bind].
  assert (byte_at (len peer :: peer ++ m :: r) (1 + len peer) = m) as ->.
  { change (len peer :: peer ++ m :: r) with ((len peer :: peer) ++ m :: r).
    rewrite byte_at_app_r by len_lia. by replace (1 + len peer - _) with 0 by len_lia. }
  by replace (_ <? _) with true by len_lia.
Qed.

Lemma pap_body_ok id body r :
  u8s body ->
  Pap.decode_body id body <> Panic /\
  (Pap.decode_body id body = Ok r <->
   Pap.identifier r = id /\ len (Pap.peer_id r) <= 255 /\ len (Pap.password r) <= 255 /\
   exists tail, body = pap_body r ++ tail).
Proof.
  intros Hb.
  assert (Hback : Pap.identifier r = id /\ len (Pap.peer_id r) <= 255 /\ len (Pap.password r) <= 255 /\
                  (exists tail, body = pap_body r ++ tail) -> Pap.decode_body id body = Ok r).
  { intros (<- & _ & _ & tail & ->). unfold pap_body. rewrite <- !app_assoc, pap_body_decodes.
    by destruct r. }
  destruct body as [|n rest]; [done|].
  apply Forall_cons in Hb as [Hn Hb]. unfold u8 in Hn.
  destruct (decide (n < len rest)) as [Hl|Hl].
  2: { rewrite pap_body_no_password in * by lia. done. }
  destruct (split_cons rest n) as (peer & m & r2 & -> & <-); [lia|].
  apply Forall_app in Hb as [_ Hb]. apply Forall_cons in Hb as [Hm Hb]. unfold u8 in Hm.
  destruct (decide (m <= len r2)) as [Hl2|Hl2].
  2: { rewrite pap_body_short_password in * by lia. done. }
  destruct (split_len r2 m) as (pw & tail & -> & <-); [lia|].
  pose proof (pap_body_decodes id peer pw tail) as Hd. cbn [app] in Hd. rewrite Hd in *.
  split; [done|]. split; [|done]. intros; simplify_eq/=. split_and!; try lia.
  exists tail. unfold pap_body; cbn. by rewrite <- app_assoc.
Qed.

Lemma chap_body_decodes id value name :
  Chap.decode_body id ([len value] ++ value ++ name)
  = Ok {| Chap.identifier := id; Chap.value := value; Chap.name := name |}.
Proof.
  unfold Chap.decode_body. replace (len _ =? 0) with false by len_lia.
  rewrite (idx_ok _ 0) by len_lia. cbn [mbind res_bind]. change (byte_at _ 0) with (len value).
  replace (_ <? _) with false by len_lia. rewrite slice_ok by len_lia. cbn [mbind res_bind].
  rewrite (sub_app_mid [len value] value) by len_lia. rewrite slice_from_ok by len_lia.
  cbn [mbind res_bind]. by rewrite app_assoc, drop_app_length' by len_lia.
Qed.

Lemma chap_body_ok id body r :
  u8s body ->
  Chap.decode_body id body <> Panic /\
  (Chap.decode_body id body = Ok r <->
   Chap.identifier r = id /\ len (Chap.value r) <= 255 /\ body = chap_body r).
Proof.
  intros Hb.
  assert (Hback : Chap.identifier r = id /\ len (Chap.value r) <= 255 /\ body = chap_body r ->
                  Chap.decode_body id body = Ok r).
  { intros (<- & _ & ->). unfold chap_body. rewrite chap_body_decodes. by destruct r. }
  destruct body as [|n rest]; [done|].
  apply Forall_cons in Hb as [Hn Hb]. unfold u8 in Hn.
  destruct (decide (n <= len rest)) as [Hl|Hl].
  2: { assert (Chap.decode_body id (n :: rest) = Err (AuthTruncated (1 + n) (len (n :: rest)))) as He.
       { unfold Chap.decode_body. replace (len _ =? 0) with false by len_lia.
         rewrite (idx_ok _ 0) by len_lia. cbn [mbind res_bind]. change (byte_at _ 0) with n.
         by replace (_ <? _) with true by len_lia. }
       rewrite He in *. done. }
  destruct (split_len rest n) as (value & name & -> & <-); [lia|].
  pose proof (chap_body_decodes id value name) as Hd. cbn [app] in Hd. rewrite Hd in *.
  split; [done|]. split; [|done]. intros; simplify_eq/=. split_and!; done || lia.
Qed.

(** ** Encoders *)

(** [put_bytes] runs the byte and slice writes that fill a buffer from left to right. *)
#[local] Ltac put_bytes :=
  repeat (first [ rewrite set_at_app by len_lia | rewrite copy_slice_app by len_lia ];
          cbn [mbind res_bind]).

Section Encoders.
Context {E : Type}.

Lemma pap_encode_response_ok out code id msg :
  code <> Pap.AuthenticateRequest -> len msg <= 255 -> 5 + len msg <= len out ->
  @Pap.encode_response E out code id msg
  = Ok (envelope (Pap.as_u8 code) id ([len msg] ++ msg) ++ drop (5 + length msg) out, 5 + len msg).
Proof.
  intros Hc Hm Ho. unfold Pap.encode_response, HEADER_LEN, as_u16, Prelude.as_u8.
  rewrite (Z.mod_small (len msg)), (Z.mod_small (4 + 1 + len msg)) by lia.
  rewrite !assert_ok by (destruct code; done || lia). cbn [mbind res_bind].
  change out with ([] ++ out) at 1. put_bytes. rewrite !drop_drop.
  unfold lcp_bytes; cbn [LcpPacket.code LcpPacket.identifier LcpPacket.data app].
  replace (4 + len (len msg :: msg)) with (4 + 1 + len msg) by len_lia. done.
Qed.

Lemma chap_encode_challenge_response_ok out code id value name :
  code = Chap.Challenge \/ code = Chap.Response -> len value <= 255 ->
  5 + len value + len name <= 65535 -> 5 + len value + len name <= len out ->
  @Chap.encode_challenge_response E out code id value name
  = Ok (envelope (Chap.as_u8 code) id
          (chap_body {| Chap.identifier := id; Chap.value := value; Chap.name := name |})
        ++ drop (5 + length value + length name) out, 5 + len value + len name).
Proof.
  intros Hc Hv Ht Ho. unfold Chap.encode_challenge_response, HEADER_LEN, as_u16, Prelude.as_u8.
  rewrite (Z.mod_small (len value)), (Z.mod_small (4 + 1 + len value + len name)) by lia.
  rewrite !assert_ok by (destruct Hc as [-> | ->]; done || lia). cbn [mbind res_bind].
  change out with ([] ++ out) at 1. put_bytes. rewrite !drop_drop.
  unfold lcp_bytes, chap_body;
    cbn [LcpPacket.code LcpPacket.identifier LcpPacket.data Chap.value Chap.name].
  replace (4 + len ([len value] ++ value ++ name)) with (4 + 1 + len value + len name) by len_lia.
  by rewrite <- !app_assoc.
Qed.

Lemma chap_encode_terminal_ok out code id msg :
  code = Chap.Success \/ code = Chap.Failure -> 4 + len msg <= 65535 -> 4 + len msg <= len out ->
  @Chap.encode_terminal E out code id msg
  = Ok (envelope (Chap.as_u8 code) id msg ++ drop (4 + length msg) out, 4 + len msg).
Proof.
  intros Hc Hm Ho. unfold Chap.encode_terminal, HEADER_LEN, as_u16.
  rewrite (Z.mod_small (4 + len msg)) by lia.
  rewrite !assert_ok by (destruct Hc as [-> | ->]; done || lia). cbn [mbind res_bind].
  change out with ([] ++ out) at 1. put_bytes. by rewrite !drop_drop.
Qed.

Lemma eap_encode_request_response_ok out code id ty data :
  code = Eap.Request \/ code = Eap.Response -> 5 + len data <= 65535 -> 5 + len data <= len out ->
  @Eap.encode_request_response E out code id ty data
  = Ok (envelope (Eap.as_u8 code) id ([ty] ++ data) ++ drop (5 + length data) out, 5 + len data).
Proof.
  intros Hc Hm Ho. unfold Eap.encode_request_response, Eap.REQ_RESP_HEADER_LEN, HEADER_LEN, as_u16.
  rewrite (Z.mod_small (4 + 1 + len data)) by lia.
  rewrite !assert_ok by (destruct Hc as [-> | ->]; done || lia). cbn [mbind res_bind].
  change out with ([] ++ out) at 1. put_bytes. rewrite !drop_drop.
  unfold lcp_bytes; cbn [LcpPacket.code LcpPacket.identifier LcpPacket.data app].
  replace (4 + len (ty :: data)) with (4 + 1 + len data) by len_lia. done.
Qed.

Lemma eap_encode_terminal_ok out code id :
  code = Eap.Success \/ code = Eap.Failure -> 4 <= len out ->
  @Eap.encode_terminal E out code id = Ok (envelope (Eap.as_u8 code) id [] ++ drop 4 out, 4).
Proof.
  intros Hc Ho. unfold Eap.encode_terminal, HEADER_LEN, as_u16.
  rewrite !assert_ok by (destruct Hc as [-> | ->]; done || lia). cbn [mbind res_bind].
  change out with ([] ++ out) at 1. put_bytes. by rewrite !drop_drop.
Qed.

End Encoders.

(** Decoding what a peer encodes. *)
Lemma pap_request_of r :
  len (Pap.peer_id r) <= 255 -> len (Pap.password r) <= 255 ->
  Pap.decode_authenticate_request (envelope 1 (Pap.identifier r) (pap_body r)) = Ok r.
Proof.
  intros H1 H2. unfold Pap.decode_authenticate_request. rewrite pap_header_eq, enveloped_bind.
  unfold enveloped. rewrite <- (app_nil_r (envelope 1 _ _)), decode_lcp_bytes.
  - cbn [LcpPacket.code LcpPacket.identifier LcpPacket.data mbind res_bind].
    change (1 =? 1) with true. cbn iota. unfold pap_body.
    rewrite <- (app_nil_r (Pap.password r)) at 2. rewrite pap_body_decodes. by destruct r.
  - unfold lcp_ok, pap_body. cbn [LcpPacket.data]. len_lia.
Qed.

Lemma chap_response_of code r :
  code = 1 \/ code = 2 -> len (Chap.value r) <= 255 -> 4 + len (chap_body r) < 65536 ->
  Chap.decode_challenge_response (envelope code (Chap.identifier r) (chap_body r)) = Ok r.
Proof.
  intros Hc H1 H2. unfold Chap.decode_challenge_response. cbn [Chap.as_u8].
  rewrite chap_header_eq, enveloped_bind.
  unfold enveloped. rewrite <- (app_nil_r (envelope code _ _)), decode_lcp_bytes by done.
  cbn [LcpPacket.code LcpPacket.identifier LcpPacket.data mbind res_bind].
  replace (_ || _) with true by (destruct Hc as [-> | ->]; done). cbn iota. unfold chap_body.
  rewrite chap_body_decodes. by destruct r.
Qed.

Lemma pap_request_total buf : u8s buf -> Pap.decode_authenticate_request buf <> Panic.
Proof.
  intros Hb. unfold Pap.decode_authenticate_request. rewrite pap_header_eq, enveloped_bind.
  apply enveloped_total; [done|]. intros p Hp.
  by apply (pap_body_ok _ _ {| Pap.identifier := 0; Pap.peer_id := []; Pap.password := [] |} Hp).
Qed.

Lemma chap_response_total buf : u8s buf -> Chap.decode_challenge_response buf <> Panic.
Proof.
  intros Hb. unfold Chap.decode_challenge_response. cbn [Chap.as_u8].
  rewrite chap_header_eq, enveloped_bind. apply enveloped_total; [done|]. intros p Hp.
  by apply (chap_body_ok _ _ {| Chap.identifier := 0; Chap.value := []; Chap.name := [] |} Hp).
Qed.

(** ** Properties *)

(** A PAP Authenticate-Request decodes to a peer id and password exactly when the packet has the
    RFC 1334 layout; any other bytes give an error, never a panic. *)
Theorem pap_request_decodes_exactly buf r :
  u8s buf ->
  Pap.decode_authenticate_request buf <> Panic /\
  (Pap.decode_authenticate_request buf = Ok r <->
   exists tail rest,
     let body := pap_body r ++ tail in
     buf = envelope 1 (Pap.identifier r) body ++ rest /\ 4 + len body < 65536 /\
     len (Pap.peer_id r) <= 255 /\ len (Pap.password r) <= 255).
Proof.
  intros Hb. split; [by apply pap_request_total|].
  unfold Pap.decode_authenticate_request. rewrite pap_header_eq, enveloped_bind.
  rewrite enveloped_ok by done. split.
  - intros (p & rest & -> & Hok & Hc & Hd). cbn [mbind res_bind] in Hd.
    apply pap_body_ok in Hd as (Hid & H1 & H2 & tail & Hbody); [|by eapply u8s_envelope].
    exists tail, rest. cbn zeta. rewrite <- Hbody, Hid. destruct p as [c i d]; cbn in *.
    split_and!; try done. repeat f_equal. lia.
  - intros (tail & rest & -> & Hlen & H1 & H2). pose proof (u8s_envelope _ _ Hb) as Hd. cbn in Hd.
    do 2 eexists. split_and!; [done..|]. cbn. apply pap_body_ok; eauto.
Qed.

Lemma pap_request_decodes_exactly_witness :
  let r := {| Pap.identifier := 9; Pap.peer_id := [0x62; 0x6f; 0x62]; Pap.password := [0x78] |} in
  let buf := [1; 9; 0; 10; 3; 0x62; 0x6f; 0x62; 1; 0x78] in
  Pap.decode_authenticate_request buf <> Panic /\
  (Pap.decode_authenticate_request buf = Ok r <->
   exists tail rest,
     let body := pap_body r ++ tail in
     buf = lcp_bytes {| LcpPacket.code := 1; LcpPacket.identifier := Pap.identifier r;
                        LcpPacket.data := body |} ++ rest /\ 4 + len body < 65536 /\
     len (Pap.peer_id r) <= 255 /\ len (Pap.password r) <= 255).
Proof. intros r buf. apply (pap_request_decodes_exactly buf r). repeat constructor; done. Defined.

(** A CHAP Challenge or Response decodes to value and name exactly when the packet has the RFC
    1994 layout; any other bytes give an error, never a panic. *)
Theorem chap_decodes_exactly buf r :
  u8s buf ->
  Chap.decode_challenge_response buf <> Panic /\
  (Chap.decode_challenge_response buf = Ok r <->
   exists code rest, (code = 1 \/ code = 2) /\
     buf = envelope code (Chap.identifier r) (chap_body r) ++ rest /\
     4 + len (chap_body r) < 65536 /\ len (Chap.value r) <= 255).
Proof.
  intros Hb. split; [by apply chap_response_total|].
  unfold Chap.decode_challenge_response. cbn [Chap.as_u8]. rewrite chap_header_eq, enveloped_bind.
  rewrite enveloped_ok by done. split.
  - intros (p & rest & -> & Hok & Hc & Hd). cbn [mbind res_bind] in Hd.
    apply chap_body_ok in Hd as (Hid & H1 & Hbody); [|by eapply u8s_envelope].
    exists (LcpPacket.code p), rest. rewrite <- Hbody, Hid. destruct p as [c i d]; cbn in *.
    split_and!; try done. lia.
  - intros (code & rest & Hc & -> & Hlen & H1). pose proof (u8s_envelope _ _ Hb) as Hd. cbn in Hd.
    do 2 eexists. split_and!; [done|done|cbn; lia|]. cbn. apply chap_body_ok; eauto.
Qed.

Lemma chap_decodes_exactly_witness :
  let r := {| Chap.identifier := 3; Chap.value := [7; 8]; Chap.name := [0x62] |} in
  let buf := [2; 3; 0; 8; 2; 7; 8; 0x62] in
  Chap.decode_challenge_response buf <> Panic /\
  (Chap.decode_challenge_response buf = Ok r <->
   exists code rest, (code = 1 \/ code = 2) /\
     buf = lcp_bytes {| LcpPacket.code := code; LcpPacket.identifier := Chap.identifier r;
                        LcpPacket.data := chap_body r |} ++ rest /\
     4 + len (chap_body r) < 65536 /\ len (Chap.value r) <= 255).
Proof. intros r buf. apply (chap_decodes_exactly buf r). repeat constructor; done. Defined.

(** A CHAP Challenge the server encodes decodes back to its identifier, value and name; an EAP
    request or response decodes back to its type and data. *)
Theorem challenges_and_eap_roundtrip out id value name ty data rest :
  len value <= 255 -> 5 + len value + len name <= 65535 -> 5 + len value + len name <= len out ->
  5 + len data <= 65535 -> 5 + len data <= len out ->
  exists out1 n1 out2 n2,
    @Chap.encode_challenge_response () out Chap.Challenge id value name = Ok (out1, n1) /\
    Chap.decode_challenge_response (sub out1 0 n1 ++ rest)
      = Ok {| Chap.identifier := id; Chap.value := value; Chap.name := name |} /\
    @Eap.encode_request_response () out Eap.Request id ty data = Ok (out2, n2) /\
    exists p, Eap.decode (sub out2 0 n2 ++ rest) = Ok p /\ Eap.identifier p = id /\
      Eap.typed p = Some (ty, data).
Proof.
  intros Hv Ht Ho Hd Ho2. do 4 eexists. split_and!.
  - apply chap_encode_challenge_response_ok; auto.
  - rewrite sub_prefix by len_lia.
    unfold Chap.decode_challenge_response. cbn [Chap.as_u8].
    rewrite chap_header_eq, enveloped_bind. unfold enveloped.
    rewrite decode_lcp_bytes by (unfold lcp_ok; len_lia).
    apply chap_body_decodes.
  - apply eap_encode_request_response_ok; auto.
  - rewrite sub_prefix by len_lia. rewrite eap_decode_eq. unfold enveloped.
    rewrite decode_lcp_bytes by (unfold lcp_ok; len_lia). eauto.
Qed.

Lemma challenges_and_eap_roundtrip_witness :
  exists out1 n1 out2 n2,
    @Chap.encode_challenge_response () (zeros 32) Chap.Challenge 5 [1; 2; 3] [0x73] = Ok (out1, n1) /\
    Chap.decode_challenge_response (sub out1 0 n1 ++ [])
      = Ok {| Chap.identifier := 5; Chap.value := [1; 2; 3]; Chap.name := [0x73] |} /\
    @Eap.encode_request_response () (zeros 32) Eap.Request 5 1 [9] = Ok (out2, n2) /\
    exists p, Eap.decode (sub out2 0 n2 ++ []) = Ok p /\ Eap.identifier p = 5 /\
      Eap.typed p = Some (1, [9]).
Proof. by apply (challenges_and_eap_roundtrip (zeros 32) 5 [1; 2; 3] [0x73] 1 [9] []). Defined.
