(* ===== verification/PppDriver.v ===== *)
(** The PPP driver: [src/src/ppp/driver.rs].

    [LcpServer], [IpcpServer] and [Ppp] are the source's structs, each operation one definition.
    Outbound frames are the encoded byte strings the source returns in [PppStep].  The 16 random
    bytes of a CHAP challenge are an argument, [rand], of the operations that may draw them. *)

From S2P Require Import Prelude PppFrame Lcp PppFsm PppAuth.

Inductive TimerOwner := TimerLcp | TimerIpcp.

#[export] Instance TimerOwner_eq_dec : EqDecision TimerOwner.
Proof. solve_decision. Defined.

Module AssignedAddrs.

Record t := {
  ip : bytes;
  mtu : option Z;
  dns1 : option bytes;
  dns2 : option bytes;
  nbns1 : option bytes;
  nbns2 : option bytes
}.

Definition with_mtu (a : t) (m : option Z) : t :=
  {| ip := ip a; mtu := m; dns1 := dns1 a; dns2 := dns2 a; nbns1 := nbns1 a; nbns2 := nbns2 a |}.

End AssignedAddrs.

Module AuthVerdict.

Inductive t :=
| Accept (addrs : AssignedAddrs.t)
| Reject (message : bytes).

End AuthVerdict.

Module AuthMethod.

Inductive t := Pap | ChapMd5 | MsChapV2.

#[global] Instance t_eq_dec : EqDecision t.
Proof. solve_decision. Defined.

End AuthMethod.

Module PppEvent.

Inductive t :=
| NeedPapAuth (peer_id password : bytes)
| NeedChapAuth (username : bytes) (chap_id : Z) (challenge response : bytes)
| NeedMsChapV2Auth (username : bytes) (chap_id : Z)
    (authenticator_challenge peer_challenge nt_response : bytes) (flags : Z)
| NetworkUp (addrs : AssignedAddrs.t).

End PppEvent.

Module PppStep.

Record t := {
  frames : list bytes;
  timer_starts : list (TimerOwner * Z);
  timer_stops : list TimerOwner;
  event : option PppEvent.t;
  finished : bool
}.

Definition default : t :=
  {| frames := []; timer_starts := []; timer_stops := []; event := None; finished := false |}.

Definition push_frame (s : t) (frame : bytes) : t :=
  {| frames := frames s ++ [frame]; timer_starts := timer_starts s; timer_stops := timer_stops s;
     event := event s; finished := finished s |}.

Definition with_event (s : t) (e : option PppEvent.t) : t :=
  {| frames := frames s; timer_starts := timer_starts s; timer_stops := timer_stops s;
     event := e; finished := finished s |}.

Definition with_finished (s : t) (b : bool) : t :=
  {| frames := frames s; timer_starts := timer_starts s; timer_stops := timer_stops s;
     event := event s; finished := b |}.

(** [step.frames.extend(..); step.timer_starts.extend(..); step.timer_stops.extend(..)] *)
Definition extend (s other : t) : t :=
  {| frames := frames s ++ frames other; timer_starts := timer_starts s ++ timer_starts other;
     timer_stops := timer_stops s ++ timer_stops other; event := event s;
     finished := finished s |}.

End PppStep.

(** ** Frame building *)

Section Frames.
Context {bp : BuildProfile} {E : Type}.

Definition encode_protocol_packet (protocol code identifier : Z) (body : bytes) : res E bytes :=
  let total := LCP_HEADER_LEN + len body in
  _ ← debug_assert (total <=? 65535);
  header ← write_lcp_header (zeros LCP_HEADER_LEN) code identifier (as_u16 total);
  let out := zeros (4 + total) in
  out ← set_at out 0 ADDRESS_ALL_STATIONS;
  out ← set_at out 1 CONTROL_UI;
  out ← copy_slice out 2 4 (to_be16 protocol);
  out ← copy_slice out 4 (4 + LCP_HEADER_LEN) header;
  copy_slice out (4 + LCP_HEADER_LEN) (len out) body.

Definition encode_lcp_frame (code : LcpCode.t) (identifier : Z) (body : bytes) : res E bytes :=
  encode_protocol_packet (ProtocolId.as_u16 ProtocolId.Lcp) (LcpCode.as_u8 code) identifier body.

Definition encode_ipcp_frame (code : IpcpCode.t) (identifier : Z) (body : bytes) : res E bytes :=
  encode_protocol_packet (ProtocolId.as_u16 ProtocolId.Ipcp) (IpcpCode.as_u8 code) identifier body.

(** [out.truncate(n)] *)
Definition truncate (out : bytes) (n : Z) : bytes := take (Z.to_nat n) out.

Definition encode_pap_frame (packet : bytes) : res E bytes :=
  '(out, n) ← encode_frame (zeros (4 + len packet)) (ProtocolId.as_u16 ProtocolId.Pap) packet;
  Ok (truncate out n).

Definition encode_chap_frame (packet : bytes) : res E bytes :=
  '(out, n) ← encode_frame (zeros (4 + len packet)) (ProtocolId.as_u16 ProtocolId.Chap) packet;
  Ok (truncate out n).

(** ["sstp-server"] *)
Definition NAME : bytes := [115; 115; 116; 112; 45; 115; 101; 114; 118; 101; 114].

Definition encode_chap_challenge (identifier : Z) (challenge : bytes) : res E bytes :=
  let total := HEADER_LEN + 1 + len challenge + len NAME in
  '(packet, n) ← Chap.encode_challenge_response (zeros total) Chap.Challenge identifier challenge NAME;
  encode_chap_frame (truncate packet n).

Definition encode_chap_terminal (code : Chap.Code) (identifier : Z) (message : bytes) : res E bytes :=
  let total := HEADER_LEN + len message in
  '(packet, n) ← Chap.encode_terminal (zeros total) code identifier message;
  encode_chap_frame (truncate packet n).

Definition push_v4_option (buf : bytes) (opt_type : Z) (addr : bytes) : res E bytes :=
  '(tmp, n) ← write_ipv4_option (zeros IPV4_OPTION_TOTAL_LEN) opt_type addr;
  tmp ← slice tmp 0 n;
  Ok (buf ++ tmp).

(** The three pushes that echo an option verbatim into a Configure-Reject body. *)
Definition push_option (buf : bytes) (opt_type : Z) (opt : ConfigOption.t) : res E bytes :=
  let total := ConfigOption.encoded_len opt in
  _ ← debug_assert (total <=? 255);
  Ok (buf ++ [opt_type; as_u8 total] ++ ConfigOption.value opt).

End Frames.

(** ** LCP server *)

Module LcpServer.

Record t := {
  fsm : Fsm.t;
  last_cr_id : Z;
  last_cr_options : bytes;
  pending_nak : bytes;
  pending_nak_is_reject : bool;
  last_rxr_code : Z;
  last_echo_id : Z;
  last_echo_data : bytes;
  opened : bool;
  auth_method : AuthMethod.t;
  peer_mru : option Z
}.

Definition new (method : AuthMethod.t) : t :=
  {| fsm := Fsm.new; last_cr_id := 0; last_cr_options := []; pending_nak := [];
     pending_nak_is_reject := false; last_rxr_code := 0; last_echo_id := 0; last_echo_data := [];
     opened := false; auth_method := method; peer_mru := None |}.

Definition with_fsm (s : t) (f : Fsm.t) : t :=
  {| fsm := f; last_cr_id := last_cr_id s; last_cr_options := last_cr_options s;
     pending_nak := pending_nak s; pending_nak_is_reject := pending_nak_is_reject s;
     last_rxr_code := last_rxr_code s; last_echo_id := last_echo_id s;
     last_echo_data := last_echo_data s; opened := opened s; auth_method := auth_method s;
     peer_mru := peer_mru s |}.

Definition with_opened (s : t) (b : bool) : t :=
  {| fsm := fsm s; last_cr_id := last_cr_id s; last_cr_options := last_cr_options s;
     pending_nak := pending_nak s; pending_nak_is_reject := pending_nak_is_reject s;
     last_rxr_code := last_rxr_code s; last_echo_id := last_echo_id s;
     last_echo_data := last_echo_data s; opened := b; auth_method := auth_method s;
     peer_mru := peer_mru s |}.

Definition with_cr (s : t) (id : Z) (options nak : bytes) (is_reject : bool) (mru : option Z) : t :=
  {| fsm := fsm s; last_cr_id := id; last_cr_options := options; pending_nak := nak;
     pending_nak_is_reject := is_reject; last_rxr_code := last_rxr_code s;
     last_echo_id := last_echo_id s; last_echo_data := last_echo_data s; opened := opened s;
     auth_method := auth_method s; peer_mru := mru |}.

Definition with_echo (s : t) (code id : Z) (data : bytes) : t :=
  {| fsm := fsm s; last_cr_id := last_cr_id s; last_cr_options := last_cr_options s;
     pending_nak := pending_nak s; pending_nak_is_reject := pending_nak_is_reject s;
     last_rxr_code := code; last_echo_id := id; last_echo_data := data; opened := opened s;
     auth_method := auth_method s; peer_mru := peer_mru s |}.

(** [step_traced(&mut self.fsm, ..)] *)
Definition drive (s : t) (ev : FsmEvent.t) : t * FsmOut.t :=
  let '(f, out) := Fsm.step (fsm s) ev in (with_fsm s f, out).

Definition open (s : t) : t * FsmOut.t :=
  let '(s, _) := drive s FsmEvent.Open in
  drive s FsmEvent.Up.

(** Options accepted with any value. *)
Definition accepted (o : option LcpOptionId.t) : bool :=
  match o with
  | Some (LcpOptionId.Mru | LcpOptionId.MagicNumber | LcpOptionId.ProtocolFieldCompression
         | LcpOptionId.AddressControlFieldCompression | LcpOptionId.AuthProtocol) => true
  | _ => false
  end.

Section Ops.
Context {bp : BuildProfile} {E : Type}.

(** The loop of [classify_configure_request]: pending body, captured MRU, and whether an option was
    bad. *)
Fixpoint classify_loop (items : list (ConfigOption.t + LcpPacketError)) (nak : bytes)
    (mru : option Z) (any_bad : bool) : res E (bytes * option Z * bool) :=
  match items with
  | [] => Ok (nak, mru, any_bad)
  | inr _ :: _ => Ok (nak, mru, true)
  | inl opt :: items =>
      mru ← (if bool_decide (ConfigOption.typed opt = Some LcpOptionId.Mru) then
               v ← catch (ConfigOption.as_mru opt);
               Ok (match v with inl v => Some v | inr _ => mru end)
             else Ok mru);
      if accepted (ConfigOption.typed opt) then classify_loop items nak mru any_bad
      else
        nak ← push_option nak (ConfigOption.option_type opt) opt;
        classify_loop items nak mru true
  end.

Definition classify_configure_request (s : t) (id : Z) (opts : bytes) : res E (t * FsmEvent.t) :=
  items ← ConfigOptionIter.items opts;
  '(nak, mru, any_bad) ← classify_loop items [] (peer_mru s) false;
  Ok (with_cr s id opts nak true mru,
      if (any_bad : bool) then FsmEvent.RcvConfigReqBad else FsmEvent.RcvConfigReqGood).

Definition on_packet (s : t) (packet : LcpPacket.t) : res E (t * FsmOut.t) :=
  let id := LcpPacket.identifier packet in
  '(s, event) ←
    match LcpPacket.typed_code packet with
    | Some LcpCode.ConfigureRequest => classify_configure_request s id (LcpPacket.data packet)
    | Some LcpCode.ConfigureAck => Ok (s, FsmEvent.RcvConfigAck)
    | Some (LcpCode.ConfigureNak | LcpCode.ConfigureReject) => Ok (s, FsmEvent.RcvConfigNak)
    | Some LcpCode.TerminateRequest => Ok (s, FsmEvent.RcvTerminateReq)
    | Some LcpCode.TerminateAck => Ok (s, FsmEvent.RcvTerminateAck)
    | Some (LcpCode.CodeReject | LcpCode.ProtocolReject) => Ok (s, FsmEvent.RcvCodeRejPermitted)
    | Some (LcpCode.EchoRequest | LcpCode.EchoReply | LcpCode.DiscardRequest) =>
        Ok (with_echo s (LcpPacket.code packet) id (LcpPacket.data packet), FsmEvent.RcvEcho)
    | None => Ok (s, FsmEvent.RcvUnknownCode)
    end;
  Ok (drive s event).

Definition write_own_cr_options (s : t) (buf : bytes) : res E bytes :=
  let '(size, proto) :=
    match auth_method s with
    | AuthMethod.Pap => (LCP_OPT_HEADER_LEN + 2, auth_protocol_pap)
    | AuthMethod.ChapMd5 => (LCP_OPT_HEADER_LEN + 3, auth_protocol_chap_md5)
    | AuthMethod.MsChapV2 => (LCP_OPT_HEADER_LEN + 3, auth_protocol_mschapv2)
    end in
  '(tmp, n) ← write_option (zeros size) (LcpOptionId.as_u8 LcpOptionId.AuthProtocol) proto;
  tmp ← slice tmp 0 n;
  Ok (buf ++ tmp).

(** [lcp.fsm.bump_identifier()] *)
Definition bump (s : t) : t * Z :=
  let '(f, id) := Fsm.bump_identifier (fsm s) in (with_fsm s f, id).

Definition render_send (out : PppStep.t) (lcp : t) (send : option Send.t) : res E (PppStep.t * t) :=
  match send with
  | None => Ok (out, lcp)
  | Some send =>
      '(packet, lcp) ←
        match send with
        | Send.ConfigureRequest =>
            let '(lcp, id) := bump lcp in
            body ← write_own_cr_options lcp [];
            Ok (Some (LcpCode.ConfigureRequest, id, body), lcp)
        | Send.ConfigureAck =>
            Ok (Some (LcpCode.ConfigureAck, last_cr_id lcp, last_cr_options lcp), lcp)
        | Send.ConfigureNak =>
            let code := if pending_nak_is_reject lcp then LcpCode.ConfigureReject
                        else LcpCode.ConfigureNak in
            Ok (Some (code, last_cr_id lcp, pending_nak lcp), lcp)
        | Send.TerminateReq =>
            let '(lcp, id) := bump lcp in
            Ok (Some (LcpCode.TerminateRequest, id, []), lcp)
        | Send.TerminateAck => Ok (Some (LcpCode.TerminateAck, last_cr_id lcp, []), lcp)
        | Send.EchoReply =>
            if negb (last_rxr_code lcp =? LcpCode.as_u8 LcpCode.EchoRequest) then Ok (None, lcp)
            else
              tail ← (if len (last_echo_data lcp) >? 4 then slice_from (last_echo_data lcp) 4
                      else Ok []);
              Ok (Some (LcpCode.EchoReply, last_echo_id lcp, [0; 0; 0; 0] ++ tail), lcp)
        | Send.CodeReject => Ok (None, lcp)
        end;
      match packet with
      | None => Ok (out, lcp)
      | Some (code, identifier, body) =>
          frame ← encode_lcp_frame code identifier body;
          Ok (PppStep.push_frame out frame, lcp)
      end
  end.

End Ops.

End LcpServer.

(** ** IPCP server *)

Module IpcpServer.

Record t := {
  fsm : Fsm.t;
  addrs : AssignedAddrs.t;
  local_ip : bytes;
  last_cr_id : Z;
  last_cr_options : bytes;
  pending_nak : bytes;
  pending_nak_is_reject : bool;
  opened : bool
}.

Definition new (a : AssignedAddrs.t) (local : bytes) : t :=
  {| fsm := Fsm.new; addrs := a; local_ip := local; last_cr_id := 0; last_cr_options := [];
     pending_nak := []; pending_nak_is_reject := false; opened := false |}.

Definition with_fsm (s : t) (f : Fsm.t) : t :=
  {| fsm := f; addrs := addrs s; local_ip := local_ip s; last_cr_id := last_cr_id s;
     last_cr_options := last_cr_options s; pending_nak := pending_nak s;
     pending_nak_is_reject := pending_nak_is_reject s; opened := opened s |}.

Definition with_opened (s : t) (b : bool) : t :=
  {| fsm := fsm s; addrs := addrs s; local_ip := local_ip s; last_cr_id := last_cr_id s;
     last_cr_options := last_cr_options s; pending_nak := pending_nak s;
     pending_nak_is_reject := pending_nak_is_reject s; opened := b |}.

Definition with_cr (s : t) (id : Z) (options nak : bytes) (is_reject : bool) : t :=
  {| fsm := fsm s; addrs := addrs s; local_ip := local_ip s; last_cr_id := id;
     last_cr_options := options; pending_nak := nak; pending_nak_is_reject := is_reject;
     opened := opened s |}.

Definition drive (s : t) (ev : FsmEvent.t) : t * FsmOut.t :=
  let '(f, out) := Fsm.step (fsm s) ev in (with_fsm s f, out).

Definition open (s : t) : t * FsmOut.t :=
  let '(s, _) := drive s FsmEvent.Open in
  drive s FsmEvent.Up.

Section Ops.
Context {bp : BuildProfile} {E : Type}.

Definition handle_optional_dns_like (nak reject : bytes) (opt : ConfigOption.t)
    (ours : option bytes) (opt_type : Z) : res E (bytes * bytes) :=
  client ← catch (read_ipv4_value (ConfigOption.value opt));
  match ours with
  | Some v =>
      if match client with inl c => bytes_eqb c v | inr _ => false end then Ok (nak, reject)
      else nak ← push_v4_option nak opt_type v; Ok (nak, reject)
  | None => reject ← push_option reject opt_type opt; Ok (nak, reject)
  end.

(** The body of the loop of [classify_configure_request] on one option. *)
Definition classify_option (a : AssignedAddrs.t) (nak reject : bytes) (opt : ConfigOption.t)
    : res E (bytes * bytes) :=
  match IpcpOptionId.from_u8 (ConfigOption.option_type opt) with
  | Some IpcpOptionId.IpAddress =>
      v ← catch (read_ipv4_value (ConfigOption.value opt));
      if match v with inl v => bytes_eqb v (AssignedAddrs.ip a) | inr _ => false end
      then Ok (nak, reject)
      else
        nak ← push_v4_option nak (IpcpOptionId.as_u8 IpcpOptionId.IpAddress) (AssignedAddrs.ip a);
        Ok (nak, reject)
  | Some IpcpOptionId.PrimaryDns =>
      handle_optional_dns_like nak reject opt (AssignedAddrs.dns1 a)
        (IpcpOptionId.as_u8 IpcpOptionId.PrimaryDns)
  | Some IpcpOptionId.SecondaryDns =>
      handle_optional_dns_like nak reject opt (AssignedAddrs.dns2 a)
        (IpcpOptionId.as_u8 IpcpOptionId.SecondaryDns)
  | Some IpcpOptionId.PrimaryNbns =>
      handle_optional_dns_like nak reject opt (AssignedAddrs.nbns1 a)
        (IpcpOptionId.as_u8 IpcpOptionId.PrimaryNbns)
  | Some IpcpOptionId.SecondaryNbns =>
      handle_optional_dns_like nak reject opt (AssignedAddrs.nbns2 a)
        (IpcpOptionId.as_u8 IpcpOptionId.SecondaryNbns)
  | Some (IpcpOptionId.IpCompressionProtocol | IpcpOptionId.MobileIpv4) | None =>
      reject ← push_option reject (ConfigOption.option_type opt) opt;
      Ok (nak, reject)
  end.

(** The loop; [None] is the early return on a malformed option. *)
Fixpoint classify_loop (a : AssignedAddrs.t) (items : list (ConfigOption.t + LcpPacketError))
    (nak reject : bytes) : res E (option (bytes * bytes)) :=
  match items with
  | [] => Ok (Some (nak, reject))
  | inr _ :: _ => Ok None
  | inl opt :: items =>
      '(nak, reject) ← classify_option a nak reject opt;
      classify_loop a items nak reject
  end.

Definition classify_configure_request (s : t) (id : Z) (opts : bytes) : res E (t * FsmEvent.t) :=
  items ← ConfigOptionIter.items opts;
  bodies ← classify_loop (addrs s) items [] [];
  Ok match bodies with
     | None => (with_cr s id opts [] false, FsmEvent.RcvConfigReqBad)
     | Some (nak_body, reject_body) =>
         if negb (len reject_body =? 0)
         then (with_cr s id opts reject_body true, FsmEvent.RcvConfigReqBad)
         else if negb (len nak_body =? 0)
         then (with_cr s id opts nak_body false, FsmEvent.RcvConfigReqBad)
         else (with_cr s id opts [] false, FsmEvent.RcvConfigReqGood)
     end.

Definition on_packet (s : t) (packet : LcpPacket.t) : res E (t * FsmOut.t) :=
  let id := LcpPacket.identifier packet in
  '(s, event) ←
    match IpcpCode.from_u8 (LcpPacket.code packet) with
    | Some IpcpCode.ConfigureRequest => classify_configure_request s id (LcpPacket.data packet)
    | Some IpcpCode.ConfigureAck => Ok (s, FsmEvent.RcvConfigAck)
    | Some (IpcpCode.ConfigureNak | IpcpCode.ConfigureReject) => Ok (s, FsmEvent.RcvConfigNak)
    | Some IpcpCode.TerminateRequest => Ok (s, FsmEvent.RcvTerminateReq)
    | Some IpcpCode.TerminateAck => Ok (s, FsmEvent.RcvTerminateAck)
    | Some IpcpCode.CodeReject => Ok (s, FsmEvent.RcvCodeRejPermitted)
    | None => Ok (s, FsmEvent.RcvUnknownCode)
    end;
  Ok (drive s event).

Definition bump (s : t) : t * Z :=
  let '(f, id) := Fsm.bump_identifier (fsm s) in (with_fsm s f, id).

Definition render_ipcp_send (out : PppStep.t) (ipcp : t) (send : option Send.t)
    : res E (PppStep.t * t) :=
  match send with
  | None => Ok (out, ipcp)
  | Some send =>
      '(packet, ipcp) ←
        match send with
        | Send.ConfigureRequest =>
            let '(ipcp, id) := bump ipcp in
            body ← push_v4_option [] (IpcpOptionId.as_u8 IpcpOptionId.IpAddress) (local_ip ipcp);
            Ok (Some (IpcpCode.ConfigureRequest, id, body), ipcp)
        | Send.ConfigureAck =>
            Ok (Some (IpcpCode.ConfigureAck, last_cr_id ipcp, last_cr_options ipcp), ipcp)
        | Send.ConfigureNak =>
            let code := if pending_nak_is_reject ipcp then IpcpCode.ConfigureReject
                        else IpcpCode.ConfigureNak in
            Ok (Some (code, last_cr_id ipcp, pending_nak ipcp), ipcp)
        | Send.TerminateReq =>
            let '(ipcp, id) := bump ipcp in
            Ok (Some (IpcpCode.TerminateRequest, id, []), ipcp)
        | Send.TerminateAck => Ok (Some (IpcpCode.TerminateAck, last_cr_id ipcp, []), ipcp)
        | Send.CodeReject | Send.EchoReply => Ok (None, ipcp)
        end;
      match packet with
      | None => Ok (out, ipcp)
      | Some (code, identifier, body) =>
          frame ← encode_ipcp_frame code identifier body;
          Ok (PppStep.push_frame out frame, ipcp)
      end
  end.

End Ops.

End IpcpServer.

(** ** [String::from_utf8_lossy] *)

Module Utf8.

Definition is_cont (b : Z) : bool := Z.land b 192 =? 128.

(** Width of the scalar a lead byte announces; 0 for a byte that cannot lead. *)
Definition width (b : Z) : Z :=
  if b <? 128 then 1
  else if (194 <=? b) && (b <=? 223) then 2
  else if (224 <=? b) && (b <=? 239) then 3
  else if (240 <=? b) && (b <=? 244) then 4
  else 0.

(** Whether the second byte is allowed after the lead byte. *)
Definition second_ok (lead b : Z) : bool :=
  if width lead =? 2 then is_cont b
  else if lead =? 224 then (160 <=? b) && (b <=? 191)
  else if lead =? 237 then (128 <=? b) && (b <=? 159)
  else if lead =? 240 then (144 <=? b) && (b <=? 191)
  else if lead =? 244 then (128 <=? b) && (b <=? 143)
  else (128 <=? b) && (b <=? 191).

Definition get (l : bytes) (i : Z) : Z := if i <? len l then byte_at l i else 0.

(** Bytes consumed by the sequence at the front of [l], and whether it is valid. *)
Definition scan (l : bytes) : Z * bool :=
  let b := get l 0 in
  let w := width b in
  if w =? 0 then (1, false)
  else if w =? 1 then (1, true)
  else if negb (second_ok b (get l 1)) then (1, false)
  else if w =? 2 then (2, true)
  else if negb (is_cont (get l 2)) then (2, false)
  else if w =? 3 then (3, true)
  else if negb (is_cont (get l 3)) then (3, false)
  else (4, true).

Fixpoint lossy_from (fuel : nat) (l : bytes) : bytes :=
  match fuel, l with
  | S fuel, _ :: _ =>
      let '(n, ok) := scan l in
      (if (ok : bool) then take (Z.to_nat n) l else [0xEF; 0xBF; 0xBD]) ++
      lossy_from fuel (drop (Z.to_nat n) l)
  | _, _ => []
  end.

Definition from_utf8_lossy (l : bytes) : bytes := lossy_from (length l) l.

End Utf8.

(** ** The orchestrator *)

Module InFlightMethod.

Inductive t := Pap (pap_id : Z) | Chap (chap_id : Z) | MsChapV2 (chap_id : Z).

End InFlightMethod.

Module Phase.

Inductive t := Establish | AuthPending | AuthInFlight (method : InFlightMethod.t) | Network | Dead.

End Phase.

Module Ppp.

Record t := {
  phase : Phase.t;
  lcp : LcpServer.t;
  ipcp : option IpcpServer.t;
  pending_addrs : option AssignedAddrs.t;
  local_ip : bytes;
  chap_challenge : option bytes;
  chap_id_counter : Z;
  lcp_extra_id_counter : Z
}.

Definition new (local : bytes) (method : AuthMethod.t) : t :=
  {| phase := Phase.Establish; lcp := LcpServer.new method; ipcp := None; pending_addrs := None;
     local_ip := local; chap_challenge := None; chap_id_counter := 0; lcp_extra_id_counter := 0 |}.

Definition with_phase (p : t) (x : Phase.t) : t :=
  {| phase := x; lcp := lcp p; ipcp := ipcp p; pending_addrs := pending_addrs p;
     local_ip := local_ip p; chap_challenge := chap_challenge p;
     chap_id_counter := chap_id_counter p; lcp_extra_id_counter := lcp_extra_id_counter p |}.

Definition with_lcp (p : t) (x : LcpServer.t) : t :=
  {| phase := phase p; lcp := x; ipcp := ipcp p; pending_addrs := pending_addrs p;
     local_ip := local_ip p; chap_challenge := chap_challenge p;
     chap_id_counter := chap_id_counter p; lcp_extra_id_counter := lcp_extra_id_counter p |}.

Definition with_ipcp (p : t) (x : option IpcpServer.t) : t :=
  {| phase := phase p; lcp := lcp p; ipcp := x; pending_addrs := pending_addrs p;
     local_ip := local_ip p; chap_challenge := chap_challenge p;
     chap_id_counter := chap_id_counter p; lcp_extra_id_counter := lcp_extra_id_counter p |}.

Definition with_addrs (p : t) (x : option AssignedAddrs.t) : t :=
  {| phase := phase p; lcp := lcp p; ipcp := ipcp p; pending_addrs := x;
     local_ip := local_ip p; chap_challenge := chap_challenge p;
     chap_id_counter := chap_id_counter p; lcp_extra_id_counter := lcp_extra_id_counter p |}.

Definition with_challenge (p : t) (c : option bytes) (id : Z) : t :=
  {| phase := phase p; lcp := lcp p; ipcp := ipcp p; pending_addrs := pending_addrs p;
     local_ip := local_ip p; chap_challenge := c; chap_id_counter := id;
     lcp_extra_id_counter := lcp_extra_id_counter p |}.

Definition with_extra_id (p : t) (id : Z) : t :=
  {| phase := phase p; lcp := lcp p; ipcp := ipcp p; pending_addrs := pending_addrs p;
     local_ip := local_ip p; chap_challenge := chap_challenge p;
     chap_id_counter := chap_id_counter p; lcp_extra_id_counter := id |}.

Definition apply_timer (out : PppStep.t) (op : option RestartTimer.t) (owner : TimerOwner) : PppStep.t :=
  match op with
  | Some RestartTimer.Start =>
      {| PppStep.frames := PppStep.frames out;
         PppStep.timer_starts := PppStep.timer_starts out ++ [(owner, DEFAULT_RESTART)];
         PppStep.timer_stops := PppStep.timer_stops out; PppStep.event := PppStep.event out;
         PppStep.finished := PppStep.finished out |}
  | Some RestartTimer.Stop =>
      {| PppStep.frames := PppStep.frames out; PppStep.timer_starts := PppStep.timer_starts out;
         PppStep.timer_stops := PppStep.timer_stops out ++ [owner];
         PppStep.event := PppStep.event out; PppStep.finished := PppStep.finished out |}
  | None => out
  end.

Section Ops.
Context {bp : BuildProfile} {E : Type}.

Definition next_chap_id (p : t) : t * Z :=
  (with_challenge p (chap_challenge p) (wrapping_add_u8 (chap_id_counter p) 1), chap_id_counter p).

(** LCP came up: enter the authentication phase, with a challenge under CHAP. *)
Definition on_lcp_up (p : t) (rand : bytes) (out : PppStep.t) : res E (t * PppStep.t) :=
  let p := with_lcp p (LcpServer.with_opened (lcp p) true) in
  let p := with_phase p Phase.AuthPending in
  if bool_decide (LcpServer.auth_method (lcp p) = AuthMethod.ChapMd5)
     || bool_decide (LcpServer.auth_method (lcp p) = AuthMethod.MsChapV2) then
    let '(p, chap_id) := next_chap_id p in
    frame ← encode_chap_challenge chap_id rand;
    Ok (with_challenge p (Some rand) (chap_id_counter p), PppStep.push_frame out frame)
  else Ok (p, out).

Definition render_lcp_step (p : t) (rand : bytes) (step : FsmOut.t) : res E (t * PppStep.t) :=
  '(out, l) ← LcpServer.render_send PppStep.default (lcp p) (FsmOut.send step);
  '(out, l) ← LcpServer.render_send out l (FsmOut.send_extra step);
  let p := with_lcp p l in
  let out := apply_timer out (FsmOut.restart_timer step) TimerLcp in
  let notify := FsmOut.notify step in
  '(p, out) ← (if Notify.up notify && negb (LcpServer.opened (lcp p)) then on_lcp_up p rand out
               else Ok (p, out));
  let p := if Notify.down notify then with_lcp p (LcpServer.with_opened (lcp p) false) else p in
  Ok (if Notify.finished notify
      then (with_phase p Phase.Dead, PppStep.with_finished out true) else (p, out)).

Definition render_ipcp_step (p : t) (step : FsmOut.t) : res E (t * PppStep.t) :=
  match ipcp p with
  | None => Panic
  | Some i =>
      '(out, i) ← IpcpServer.render_ipcp_send PppStep.default i (FsmOut.send step);
      '(out, i) ← IpcpServer.render_ipcp_send out i (FsmOut.send_extra step);
      let out := apply_timer out (FsmOut.restart_timer step) TimerIpcp in
      let notify := FsmOut.notify step in
      let '(i, out) :=
        if Notify.up notify && negb (IpcpServer.opened i) then
          (IpcpServer.with_opened i true,
           match pending_addrs p with
           | Some addrs => PppStep.with_event out (Some (PppEvent.NetworkUp addrs))
           | None => out
           end)
        else (i, out) in
      Ok (with_ipcp p (Some i),
          if Notify.finished notify then PppStep.with_finished out true else out)
  end.

Definition open (p : t) (rand : bytes) : res E (t * PppStep.t) :=
  let '(l, step) := LcpServer.open (lcp p) in
  render_lcp_step (with_lcp p l) rand step.

Definition protocol_reject (p : t) (rejected_protocol : Z) (rejected_info : bytes)
    : res E (t * PppStep.t) :=
  if negb (LcpServer.opened (lcp p)) then Ok (p, PppStep.default) else
  let max_body := saturating_sub (saturating_sub DEFAULT_MRU LCP_HEADER_LEN) 2 in
  let info_len := Z.min (len rejected_info) max_body in
  info ← slice rejected_info 0 info_len;
  let body := to_be16 rejected_protocol ++ info in
  let id := lcp_extra_id_counter p in
  let p := with_extra_id p (wrapping_add_u8 id 1) in
  frame ← encode_lcp_frame LcpCode.ProtocolReject id body;
  Ok (p, PppStep.push_frame PppStep.default frame).

Definition on_timer (p : t) (rand : bytes) (owner : TimerOwner) : res E (t * PppStep.t) :=
  match owner with
  | TimerLcp =>
      let '(l, step) := LcpServer.drive (lcp p) FsmEvent.RestartTimeout in
      render_lcp_step (with_lcp p l) rand step
  | TimerIpcp =>
      match ipcp p with
      | Some i =>
          let '(i, step) := IpcpServer.drive i FsmEvent.RestartTimeout in
          render_ipcp_step (with_ipcp p (Some i)) step
      | None => Ok (p, PppStep.default)
      end
  end.

(** The netdev MTU: the smaller of [Framed-MTU] and the peer's MRU. *)
Definition merge_mtu (framed peer_mru : option Z) : option Z :=
  match framed, peer_mru with
  | Some framed, Some peer => Some (Z.min framed peer)
  | Some framed, None => Some framed
  | None, Some peer => Some peer
  | None, None => None
  end.

Definition advance_to_network (p : t) (step : PppStep.t) (addrs : AssignedAddrs.t)
    : res E (t * PppStep.t) :=
  let addrs := AssignedAddrs.with_mtu addrs
                 (merge_mtu (AssignedAddrs.mtu addrs) (LcpServer.peer_mru (lcp p))) in
  let p := with_addrs p (Some addrs) in
  let p := with_phase p Phase.Network in
  let '(i, fsm_step) := IpcpServer.open (IpcpServer.new addrs (local_ip p)) in
  let p := with_ipcp p (Some i) in
  '(p, ipcp_step) ← render_ipcp_step p fsm_step;
  let step := PppStep.extend step ipcp_step in
  let step := match PppStep.event ipcp_step with
              | Some e => PppStep.with_event step (Some e)
              | None => step
              end in
  Ok (p, PppStep.with_finished step (PppStep.finished step || PppStep.finished ipcp_step)).

Definition tear_down_after_reject (p : t) (rand : bytes) (step : PppStep.t) : res E (t * PppStep.t) :=
  let '(l, close) := LcpServer.drive (lcp p) FsmEvent.Close in
  '(p, close_step) ← render_lcp_step (with_lcp p l) rand close;
  Ok (with_phase p Phase.Dead, PppStep.with_finished (PppStep.extend step close_step) true).

(** [msg.get(..msg.len().min(n)).unwrap_or(&[])] *)
Definition capped (n : Z) (msg : bytes) : bytes := sub msg 0 (Z.min (len msg) n).

Definition on_auth_result (p : t) (rand : bytes) (verdict : AuthVerdict.t) : res E (t * PppStep.t) :=
  match phase p with
  | Phase.AuthInFlight method =>
      let step := PppStep.default in
      match method, verdict with
      | InFlightMethod.Pap pap_id, AuthVerdict.Accept addrs =>
          '(body, n) ← Pap.encode_response (zeros 16) Pap.AuthenticateAck pap_id [];
          body ← slice body 0 n;
          frame ← encode_pap_frame body;
          advance_to_network p (PppStep.push_frame step frame) addrs
      | InFlightMethod.Pap pap_id, AuthVerdict.Reject message =>
          '(body, n) ← Pap.encode_response (zeros 16) Pap.AuthenticateNak pap_id (capped 11 message);
          body ← slice body 0 n;
          frame ← encode_pap_frame body;
          tear_down_after_reject p rand (PppStep.push_frame step frame)
      | InFlightMethod.Chap chap_id, AuthVerdict.Accept addrs =>
          frame ← encode_chap_terminal Chap.Success chap_id [];
          advance_to_network p (PppStep.push_frame step frame) addrs
      | InFlightMethod.Chap chap_id, AuthVerdict.Reject message =>
          frame ← encode_chap_terminal Chap.Failure chap_id (capped 255 message);
          tear_down_after_reject p rand (PppStep.push_frame step frame)
      | InFlightMethod.MsChapV2 _, _ => Ok (p, step)
      end
  | _ => Ok (p, PppStep.default)
  end.

(** ["E=691 R=0 V=3 M="] *)
Definition MSCHAP_ERROR : bytes :=
  [69; 61; 54; 57; 49; 32; 82; 61; 48; 32; 86; 61; 51; 32; 77; 61].

Definition on_mschap_result (p : t) (rand : bytes) (verdict : AuthVerdict.t)
    (auth_response error_string : option bytes) : res E (t * PppStep.t) :=
  match phase p with
  | Phase.AuthInFlight (InFlightMethod.MsChapV2 chap_id) =>
      let step := PppStep.default in
      match verdict with
      | AuthVerdict.Accept addrs =>
          frame ← encode_chap_terminal Chap.Success chap_id (capped 255 (default [] auth_response));
          advance_to_network p (PppStep.push_frame step frame) addrs
      | AuthVerdict.Reject message =>
          let body := match error_string with
                      | Some s => s
                      | None => MSCHAP_ERROR ++ Utf8.from_utf8_lossy message
                      end in
          frame ← encode_chap_terminal Chap.Failure chap_id (capped 255 body);
          tear_down_after_reject p rand (PppStep.push_frame step frame)
      end
  | _ => Ok (p, PppStep.default)
  end.

Definition handle_lcp (p : t) (rand info : bytes) : res E (t * PppStep.t) :=
  packet ← catch (decode_lcp_packet info);
  match packet with
  | inr _ => Ok (p, PppStep.default)
  | inl packet =>
      '(l, step) ← LcpServer.on_packet (lcp p) packet;
      render_lcp_step (with_lcp p l) rand step
  end.

Definition handle_pap (p : t) (info : bytes) : res E (t * PppStep.t) :=
  req ← catch (Pap.decode_authenticate_request info);
  match req with
  | inr _ => Ok (p, PppStep.default)
  | inl req =>
      Ok (with_phase p (Phase.AuthInFlight (InFlightMethod.Pap (Pap.identifier req))),
          PppStep.with_event PppStep.default
            (Some (PppEvent.NeedPapAuth (Pap.peer_id req) (Pap.password req))))
  end.

Definition handle_chap (p : t) (info : bytes) : res E (t * PppStep.t) :=
  resp ← catch (Chap.decode_challenge_response info);
  match resp with
  | inr _ => Ok (p, PppStep.default)
  | inl resp =>
      match LcpServer.auth_method (lcp p) with
      | AuthMethod.ChapMd5 =>
          if negb (len (Chap.value resp) =? 16) then Ok (p, PppStep.default) else
          response ← copy_slice (zeros 16) 0 16 (Chap.value resp);
          match chap_challenge p with
          | None => Ok (p, PppStep.default)
          | Some challenge =>
              Ok (with_phase p (Phase.AuthInFlight (InFlightMethod.Chap (Chap.identifier resp))),
                  PppStep.with_event PppStep.default
                    (Some (PppEvent.NeedChapAuth (Chap.name resp) (Chap.identifier resp) challenge
                             response)))
          end
      | AuthMethod.MsChapV2 =>
          let value := Chap.value resp in
          if negb (len value =? 49) then Ok (p, PppStep.default) else
          reserved ← slice value 16 24;
          if existsb (fun b => negb (b =? 0)) reserved then Ok (p, PppStep.default) else
          peer_challenge ← slice value 0 16;
          nt_response ← slice value 24 48;
          flags ← idx value 48;
          match chap_challenge p with
          | None => Ok (p, PppStep.default)
          | Some challenge =>
              authenticator_challenge ← copy_slice (zeros 16) 0 16 challenge;
              Ok (with_phase p (Phase.AuthInFlight (InFlightMethod.MsChapV2 (Chap.identifier resp))),
                  PppStep.with_event PppStep.default
                    (Some (PppEvent.NeedMsChapV2Auth (Chap.name resp) (Chap.identifier resp)
                             authenticator_challenge peer_challenge nt_response flags)))
          end
      | AuthMethod.Pap => Ok (p, PppStep.default)
      end
  end.

Definition handle_ipcp (p : t) (info : bytes) : res E (t * PppStep.t) :=
  packet ← catch (decode_lcp_packet info);
  match packet with
  | inr _ => Ok (p, PppStep.default)
  | inl packet =>
      match ipcp p with
      | None => Ok (p, PppStep.default)
      | Some i =>
          '(i, step) ← IpcpServer.on_packet i packet;
          render_ipcp_step (with_ipcp p (Some i)) step
      end
  end.

Definition on_frame (p : t) (rand payload : bytes) : res E (t * PppStep.t) :=
  frame ← catch (decode_frame payload);
  match frame with
  | inr _ => Ok (p, PppStep.default)
  | inl frame =>
      let info := PppFrame.info frame in
      match phase p, ProtocolId.from_u16 (PppFrame.protocol frame) with
      | _, Some ProtocolId.Lcp => handle_lcp p rand info
      | (Phase.AuthPending | Phase.AuthInFlight _), Some ProtocolId.Pap => handle_pap p info
      | (Phase.AuthPending | Phase.AuthInFlight _), Some ProtocolId.Chap => handle_chap p info
      | _, Some (ProtocolId.Pap | ProtocolId.Chap) => Ok (p, PppStep.default)
      | Phase.Network, Some ProtocolId.Ipcp => handle_ipcp p info
      | _, Some ProtocolId.Ipcp => Ok (p, PppStep.default)
      | _, _ => protocol_reject p (PppFrame.protocol frame) info
      end
  end.

End Ops.

End Ppp.
