(* ===== verification/PppClassify.v ===== *)
(** How the PPP driver answers Configure-Requests ([classify_configure_request] of [LcpServer] and
    [IpcpServer] in [src/src/ppp/driver.rs]) and the frames it builds.

    The negotiation policy is stated once per layer as a function of one option ([lcp_acceptable],
    [IpcpPolicy.judge]); the theorems are that the drivers' loops compute the answer this policy
    gives on every option list, well-formed or not. *)

From S2P Require Import Prelude PppFrame Lcp PppFsm PppAuth PppDriver.

#[local] Arguments write_lcp_header : simpl never.
#[local] Arguments write_option : simpl never.
#[local] Arguments write_ipv4_option : simpl never.
#[local] Arguments encode_frame : simpl never.

(** ** Frames *)

Abbreviation packet c i d :=
  {| LcpPacket.code := c; LcpPacket.identifier := i; LcpPacket.data := d |}.

Section Frames.
Context {bp : BuildProfile} {E : Type}.

Lemma encode_protocol_packet_ok protocol code id body :
  4 + len body <= 65535 ->
  @encode_protocol_packet bp E protocol code id body
  = Ok (frame_bytes protocol (lcp_bytes (packet code id body))).
Proof.
  intros Hb. unfold encode_protocol_packet, LCP_HEADER_LEN, as_u16.
  rewrite debug_assert_ok by lia. cbn [mbind res_bind].
  rewrite write_lcp_header_ok by done. cbn [mbind res_bind].
  rewrite Z.mod_small by lia. change (zeros (4 + (4 + len body))) with ([] ++ zeros (4 + (4 + len body))).
  unfold zeros.
  do 2 (rewrite set_at_app by len_lia; cbn [mbind res_bind]).
  do 2 (rewrite copy_slice_app by len_lia; cbn [mbind res_bind]).
  rewrite copy_slice_app by len_lia. rewrite drop_ge by len_lia. by rewrite app_nil_r.
Qed.

Lemma encode_pap_frame_ok p : @encode_pap_frame E p = Ok (frame_bytes 0xC023 p).
Proof.
  unfold encode_pap_frame, truncate, zeros. rewrite encode_frame_ok by len_lia.
  cbn [mbind res_bind]. rewrite take_app_length'; [done|len_lia].
Qed.

Lemma encode_chap_frame_ok p : @encode_chap_frame E p = Ok (frame_bytes 0xC223 p).
Proof.
  unfold encode_chap_frame, truncate, zeros. rewrite encode_frame_ok by len_lia.
  cbn [mbind res_bind]. rewrite take_app_length'; [done|len_lia].
Qed.

Lemma encode_chap_challenge_ok id c :
  length c = 16%nat ->
  @encode_chap_challenge E id c
  = Ok (frame_bytes 0xC223 (lcp_bytes (packet 1 id ([16] ++ c ++ NAME)))).
Proof.
  intros Hc. unfold encode_chap_challenge, truncate, zeros, HEADER_LEN.
  rewrite chap_encode_challenge_response_ok by (auto; unfold NAME; len_lia). cbn [mbind res_bind].
  rewrite encode_chap_frame_ok, take_app_length' by (unfold NAME; len_lia).
  unfold chap_body; cbn [Chap.value Chap.name]. by rewrite Hc.
Qed.

Lemma encode_chap_terminal_ok code id msg :
  code = Chap.Success \/ code = Chap.Failure -> len msg <= 255 ->
  @encode_chap_terminal E code id msg
  = Ok (frame_bytes 0xC223 (lcp_bytes (packet (Chap.as_u8 code) id msg))).
Proof.
  intros Hc Hm. unfold encode_chap_terminal, truncate, zeros, HEADER_LEN.
  rewrite chap_encode_terminal_ok by (done || len_lia). cbn [mbind res_bind].
  by rewrite encode_chap_frame_ok, take_app_length' by len_lia.
Qed.

Lemma push_v4_option_ok buf ty addr :
  length addr = 4%nat ->
  @push_v4_option E buf ty addr
  = Ok (buf ++ option_bytes {| ConfigOption.option_type := ty; ConfigOption.value := addr |}).
Proof.
  intros Ha. unfold push_v4_option, IPV4_OPTION_TOTAL_LEN. rewrite write_ipv4_option_ok by (done || len_lia).
  cbn [mbind res_bind]. rewrite slice_ok by len_lia. cbn [mbind res_bind].
  by rewrite sub_prefix by len_lia.
Qed.

Lemma push_option_ok buf o :
  option_ok o -> @push_option bp E buf (ConfigOption.option_type o) o = Ok (buf ++ option_bytes o).
Proof.
  unfold option_ok, push_option, ConfigOption.encoded_len, LCP_OPT_HEADER_LEN, as_u8. intros Ho.
  rewrite debug_assert_ok by lia. cbn [mbind res_bind]. by rewrite Z.mod_small by lia.
Qed.

End Frames.

(** ** LCP *)

(** Options the server accepts with any value: MRU, Authentication-Protocol, Magic-Number, PFC and
    ACFC. *)
Definition lcp_acceptable (o : ConfigOption.t) : bool :=
  bool_decide (ConfigOption.option_type o ∈ [1; 3; 5; 7; 8]).

Definition lcp_refused (os : list ConfigOption.t) : list ConfigOption.t :=
  filter (fun o => lcp_acceptable o = false) os.

(** The MRU an option announces. *)
Definition announced_mru (o : ConfigOption.t) : option Z :=
  match ConfigOption.option_type o, ConfigOption.value o with
  | 1, [a; b] => Some (be16 a b)
  | _, _ => None
  end.

(** The last MRU announced, [m] if there is none. *)
Definition last_mru (m : option Z) (os : list ConfigOption.t) : option Z :=
  fold_left (fun m o => match announced_mru o with Some v => Some v | None => m end) os m.

Lemma accepted_acceptable o : LcpServer.accepted (ConfigOption.typed o) = lcp_acceptable o.
Proof.
  unfold ConfigOption.typed, lcp_acceptable, LcpOptionId.from_u8, LcpServer.accepted.
  symmetry. repeat case_match; simplify_eq; try (apply bool_decide_eq_true; set_solver by lia);
    apply bool_decide_eq_false; set_solver by lia.
Qed.

Lemma captured_mru {E} o m :
  (if bool_decide (ConfigOption.typed o = Some LcpOptionId.Mru) then
     v ← catch (ConfigOption.as_mru o);
     Ok (match v with inl v => Some v | inr _ => m end)
   else Ok m)
  = @Ok E _ (match announced_mru o with Some v => Some v | None => m end).
Proof.
  unfold announced_mru, ConfigOption.typed. case_bool_decide as Ht.
  - apply LcpOptionId.lcp_option_inv in Ht. rewrite Ht. cbn [LcpOptionId.as_u8].
    unfold ConfigOption.as_mru.
    destruct (ConfigOption.value o) as [|a [|b [|c l]]]; try done.
    by replace (_ =? 2) with false by len_lia.
  - destruct (ConfigOption.option_type o) as [|[| |]|]; naive_solver.
Qed.

(** The items of any buffer: a well-formed prefix, and an error item exactly when a tail remains. *)
Lemma items_split buf :
  u8s buf ->
  exists os err tail, Forall option_ok os /\ buf = opts_bytes os ++ tail /\
    (forall E, @ConfigOptionIter.items E buf = Ok ((inl <$> os) ++ (inr <$> err))) /\
    match err with [] => tail = [] | e :: err => err = [] /\ tail <> [] end.
Proof.
  intros Hb. destruct (items_total buf) as (os & err & tail & Hi & Hd & Herr & Ht).
  destruct (Hd Hb) as [Hbuf Hos]. exists os, err, tail. split_and!; [done..|].
  destruct err as [|e [|]]; [by auto| |cbn in Herr; lia]. split; [done|]. intros ->.
  rewrite app_nil_r in Hbuf. subst buf. specialize (Hi unit).
  rewrite items_opts_bytes in Hi by done. injection Hi as Hi.
  rewrite <- (app_nil_r (inl <$> os)) in Hi at 1. by apply app_inv_head in Hi.
Qed.

Section LcpClassify.
Context {bp : BuildProfile} {E : Type}.

Lemma lcp_classify_loop os rest nak mru any_bad :
  Forall option_ok os ->
  @LcpServer.classify_loop bp E ((inl <$> os) ++ rest) nak mru any_bad
  = LcpServer.classify_loop rest (nak ++ opts_bytes (lcp_refused os)) (last_mru mru os)
      (any_bad || negb (forallb lcp_acceptable os)).
Proof.
  intros Hos. revert nak mru any_bad. induction Hos as [|o os Ho Hos IH]; intros nak mru any_bad.
  - cbn. by rewrite app_nil_r, orb_false_r.
  - cbn [fmap list_fmap app LcpServer.classify_loop]. rewrite captured_mru. cbn [mbind res_bind].
    rewrite accepted_acceptable. cbn [forallb]. unfold lcp_refused. rewrite filter_cons.
    destruct (lcp_acceptable o) eqn:Ha.
    + rewrite decide_False by done. rewrite IH. by destruct any_bad.
    + rewrite decide_True by done. rewrite push_option_ok by done. cbn [mbind res_bind].
      rewrite IH, opts_bytes_cons, <- app_assoc. by rewrite !orb_true_r.
Qed.

(** The answer to an LCP Configure-Request whose options parse as [os], [complete] telling whether
    the list parses to its end. *)
Definition lcp_answer (s : LcpServer.t) (id : Z) (buf : bytes) (os : list ConfigOption.t)
    (complete : bool) : LcpServer.t * FsmEvent.t :=
  (LcpServer.with_cr s id buf (opts_bytes (lcp_refused os)) true (last_mru (LcpServer.peer_mru s) os),
   if forallb lcp_acceptable os && complete then FsmEvent.RcvConfigReqGood
   else FsmEvent.RcvConfigReqBad).

Lemma lcp_classify_wf s id os :
  Forall option_ok os ->
  @LcpServer.classify_configure_request bp E s id (opts_bytes os)
  = Ok (LcpServer.with_cr s id (opts_bytes os) (opts_bytes (lcp_refused os)) true
          (last_mru (LcpServer.peer_mru s) os),
        if forallb lcp_acceptable os then FsmEvent.RcvConfigReqGood else FsmEvent.RcvConfigReqBad).
Proof.
  intros Hos. unfold LcpServer.classify_configure_request.
  rewrite items_opts_bytes by done. cbn [mbind res_bind].
  rewrite <- (app_nil_r (inl <$> os)), lcp_classify_loop by done. cbn. by destruct (forallb _ _).
Qed.

Lemma lcp_classify s id buf :
  u8s buf ->
  exists os tail, Forall option_ok os /\ buf = opts_bytes os ++ tail /\
    @LcpServer.classify_configure_request bp E s id buf
    = Ok (lcp_answer s id buf os (bool_decide (tail = []))).
Proof.
  intros Hb. destruct (items_split buf Hb) as (os & err & tail & Hos & Hbuf & Hi & Herr).
  exists os, tail. split_and!; [done..|].
  unfold LcpServer.classify_configure_request, lcp_answer. rewrite Hi. cbn [mbind res_bind].
  rewrite lcp_classify_loop by done. destruct err as [|e err]; cbn.
  - rewrite bool_decide_true by done. by destruct (forallb _ _).
  - rewrite bool_decide_false by naive_solver. by destruct (forallb _ _).
Qed.

End LcpClassify.

(** ** IPCP *)

Module IpcpPolicy.

(** The value the server wants for an option type, if it has one to give: IP-Address, then the two
    DNS and two NBNS server addresses. *)
Definition desired (a : AssignedAddrs.t) (ty : Z) : option bytes :=
  match ty with
  | 3 => Some (AssignedAddrs.ip a)
  | 129 => AssignedAddrs.dns1 a
  | 130 => AssignedAddrs.nbns1 a
  | 131 => AssignedAddrs.dns2 a
  | 132 => AssignedAddrs.nbns2 a
  | _ => None
  end.

(** The three answers to one option: agree, suggest another value (Nak), refuse it (Reject). *)
Inductive opinion := Agree | Suggest (v : bytes) | Refuse.

Definition judge (a : AssignedAddrs.t) (o : ConfigOption.t) : opinion :=
  match desired a (ConfigOption.option_type o) with
  | None => Refuse
  | Some v => if bytes_eqb (ConfigOption.value o) v then Agree else Suggest v
  end.

Definition agrees (a : AssignedAddrs.t) (o : ConfigOption.t) : bool :=
  match judge a o with Agree => true | _ => false end.

Definition suggestion (a : AssignedAddrs.t) (o : ConfigOption.t) : option ConfigOption.t :=
  match judge a o with
  | Suggest v =>
      Some {| ConfigOption.option_type := ConfigOption.option_type o; ConfigOption.value := v |}
  | _ => None
  end.

Definition refusal (a : AssignedAddrs.t) (o : ConfigOption.t) : option ConfigOption.t :=
  match judge a o with Refuse => Some o | _ => None end.

(** The answer to a whole list: refusals take precedence over suggestions. *)
Definition answer (s : IpcpServer.t) (id : Z) (buf : bytes) (os : list ConfigOption.t)
    : IpcpServer.t * FsmEvent.t :=
  let a := IpcpServer.addrs s in
  match omap (refusal a) os, omap (suggestion a) os with
  | [], [] => (IpcpServer.with_cr s id buf [] false, FsmEvent.RcvConfigReqGood)
  | [], naks => (IpcpServer.with_cr s id buf (opts_bytes naks) false, FsmEvent.RcvConfigReqBad)
  | refused, _ => (IpcpServer.with_cr s id buf (opts_bytes refused) true, FsmEvent.RcvConfigReqBad)
  end.

End IpcpPolicy.

(** The source's [[u8; 4]] fields. *)
Definition is_v4 (v : bytes) : Prop := length v = 4%nat.

Definition addrs_ok (a : AssignedAddrs.t) : Prop :=
  is_v4 (AssignedAddrs.ip a) /\
  forall v, AssignedAddrs.dns1 a = Some v \/ AssignedAddrs.dns2 a = Some v \/
    AssignedAddrs.nbns1 a = Some v \/ AssignedAddrs.nbns2 a = Some v -> is_v4 v.

Lemma desired_v4 a ty v : addrs_ok a -> IpcpPolicy.desired a ty = Some v -> is_v4 v.
Proof.
  intros [Hip Ha]. unfold IpcpPolicy.desired. repeat case_match; naive_solver.
Qed.

Section IpcpClassify.
Context {bp : BuildProfile} {E : Type}.

(** The effect of one option on the two bodies. *)
Definition judged (a : AssignedAddrs.t) (nak reject : bytes) (o : ConfigOption.t) : bytes * bytes :=
  (nak ++ opts_bytes (option_list (IpcpPolicy.suggestion a o)),
   reject ++ opts_bytes (option_list (IpcpPolicy.refusal a o))).

Lemma opts_bytes_one o : opts_bytes [o] = option_bytes o.
Proof. unfold opts_bytes. cbn. by rewrite app_nil_r. Qed.

#[local] Arguments opts_bytes : simpl never.
#[local] Arguments bytes_eqb : simpl never.

#[local] Ltac bodies :=
  cbn; rewrite ?push_v4_option_ok, ?push_option_ok by done; cbn;
  change (opts_bytes []) with (@nil Z); by rewrite ?opts_bytes_one, ?app_nil_r.

(** [handle_optional_dns_like], which is also what the IP-Address arm does with [ours] present. *)
Lemma dns_like_judged a nak reject o ours :
  addrs_ok a -> option_ok o -> IpcpPolicy.desired a (ConfigOption.option_type o) = ours ->
  @IpcpServer.handle_optional_dns_like bp E nak reject o ours (ConfigOption.option_type o)
  = Ok (judged a nak reject o).
Proof.
  intros Ha Ho Hd. unfold IpcpServer.handle_optional_dns_like, judged, IpcpPolicy.suggestion,
    IpcpPolicy.refusal, IpcpPolicy.judge. rewrite Hd, read_ipv4_value_eq. destruct ours as [v|].
  - pose proof (desired_v4 _ _ _ Ha Hd) as Hv. destruct (len _ =? 4) eqn:Hl; cbn.
    + destruct (bytes_eqb _ v); bodies.
    + replace (bytes_eqb _ v) with false
        by (symmetry; apply bool_decide_eq_false; unfold is_v4 in Hv; intros <-; lia).
      bodies.
  - destruct (len _ =? 4); bodies.
Qed.

Lemma ip_address_judged a nak reject o :
  @IpcpServer.handle_optional_dns_like bp E nak reject o (Some (AssignedAddrs.ip a)) 3
  = (v ← catch (read_ipv4_value (ConfigOption.value o));
     if match v with inl v => bytes_eqb v (AssignedAddrs.ip a) | inr _ => false end
     then Ok (nak, reject)
     else nak ← push_v4_option nak 3 (AssignedAddrs.ip a); Ok (nak, reject)).
Proof. done. Qed.

Lemma refused_judged a nak reject o :
  option_ok o -> IpcpPolicy.desired a (ConfigOption.option_type o) = None ->
  (reject ← @push_option bp E reject (ConfigOption.option_type o) o; Ok (nak, reject))
  = Ok (judged a nak reject o).
Proof.
  intros Ho Hd. unfold judged, IpcpPolicy.suggestion, IpcpPolicy.refusal, IpcpPolicy.judge.
  rewrite Hd. bodies.
Qed.

Lemma classify_option_judged a nak reject o :
  addrs_ok a -> option_ok o ->
  @IpcpServer.classify_option bp E a nak reject o = Ok (judged a nak reject o).
Proof.
  intros Ha Ho. unfold IpcpServer.classify_option.
  destruct (IpcpOptionId.from_u8 _) as [ty|] eqn:Hty.
  - apply IpcpOptionId.ipcp_option_inv in Hty.
    destruct ty; cbn [IpcpOptionId.as_u8] in *;
      try (apply refused_judged; by rewrite ?Hty);
      try (rewrite <- Hty; apply dns_like_judged; by rewrite ?Hty).
    rewrite <- ip_address_judged, <- Hty. apply dns_like_judged; by rewrite ?Hty.
  - apply refused_judged; [done|].
    unfold IpcpPolicy.desired, IpcpOptionId.from_u8 in *. repeat case_match; done || lia.
Qed.

Lemma ipcp_classify_loop a os rest nak reject :
  addrs_ok a -> Forall option_ok os ->
  @IpcpServer.classify_loop bp E a ((inl <$> os) ++ rest) nak reject
  = IpcpServer.classify_loop a rest (nak ++ opts_bytes (omap (IpcpPolicy.suggestion a) os))
      (reject ++ opts_bytes (omap (IpcpPolicy.refusal a) os)).
Proof.
  intros Ha Hos. revert nak reject. induction Hos as [|o os Ho Hos IH]; intros nak reject.
  - cbn. change (opts_bytes []) with (@nil Z). by rewrite !app_nil_r.
  - cbn [fmap list_fmap app IpcpServer.classify_loop]. rewrite classify_option_judged by done.
    unfold judged. cbn [mbind res_bind omap list_omap]. rewrite IH, <- !app_assoc, <- !opts_bytes_app.
    by destruct (IpcpPolicy.suggestion a o), (IpcpPolicy.refusal a o).
Qed.

Lemma opts_bytes_len_0 os : (len (opts_bytes os) =? 0) = match os with [] => true | _ => false end.
Proof. destruct os; [done|]. rewrite opts_bytes_cons. len_lia. Qed.

Lemma ipcp_classify_wf s id os :
  addrs_ok (IpcpServer.addrs s) -> Forall option_ok os ->
  @IpcpServer.classify_configure_request bp E s id (opts_bytes os)
  = Ok (IpcpPolicy.answer s id (opts_bytes os) os).
Proof.
  intros Ha Hos. unfold IpcpServer.classify_configure_request, IpcpPolicy.answer.
  rewrite items_opts_bytes by done. cbn [mbind res_bind].
  rewrite <- (app_nil_r (inl <$> os)), ipcp_classify_loop by done. cbn -[opts_bytes].
  rewrite !opts_bytes_len_0.
  by destruct (omap (IpcpPolicy.refusal _) os), (omap (IpcpPolicy.suggestion _) os).
Qed.

Lemma ipcp_classify s id buf :
  u8s buf -> addrs_ok (IpcpServer.addrs s) ->
  exists os tail, Forall option_ok os /\ buf = opts_bytes os ++ tail /\
    @IpcpServer.classify_configure_request bp E s id buf
    = Ok (if bool_decide (tail = []) then IpcpPolicy.answer s id buf os
          else (IpcpServer.with_cr s id buf [] false, FsmEvent.RcvConfigReqBad)).
Proof.
  intros Hb Ha. destruct (items_split buf Hb) as (os & err & tail & Hos & Hbuf & Hi & Herr).
  exists os, tail. split_and!; [done..|].
  unfold IpcpServer.classify_configure_request, IpcpPolicy.answer. rewrite Hi. cbn [mbind res_bind].
  rewrite ipcp_classify_loop by done. destruct err as [|e err]; cbn -[opts_bytes].
  - rewrite bool_decide_true by done. rewrite !opts_bytes_len_0.
    by destruct (omap (IpcpPolicy.refusal _) os), (omap (IpcpPolicy.suggestion _) os).
  - by rewrite bool_decide_false by naive_solver.
Qed.

End IpcpClassify.

(** ** Properties *)

Section Properties.
Context {bp : BuildProfile}.

(** An LCP Configure-Request is acknowledged exactly when its option list is well-formed and every
    option is one of MRU, Authentication-Protocol, Magic-Number, PFC and ACFC; otherwise the body
    kept for the Configure-Reject is the list of the other options, verbatim and in order.  The last
    two-byte MRU option is the peer's MRU.  A malformed list is never acknowledged. *)
Theorem lcp_requests_classified s id :
  (forall os, Forall option_ok os ->
     @LcpServer.classify_configure_request bp unit s id (opts_bytes os)
     = Ok (LcpServer.with_cr s id (opts_bytes os) (opts_bytes (lcp_refused os)) true
             (last_mru (LcpServer.peer_mru s) os),
           if forallb lcp_acceptable os then FsmEvent.RcvConfigReqGood
           else FsmEvent.RcvConfigReqBad)) /\
  (forall buf, u8s buf -> (forall os, Forall option_ok os -> buf <> opts_bytes os) ->
     exists s', @LcpServer.classify_configure_request bp unit s id buf
                = Ok (s', FsmEvent.RcvConfigReqBad)).
Proof.
  split.
  - apply lcp_classify_wf.
  - intros buf Hb Hbad. destruct (lcp_classify (bp := bp) (E := unit) s id buf Hb)
      as (os & tail & Hos & -> & ->).
    unfold lcp_answer. rewrite (bool_decide_false (tail = [])), andb_false_r; [by eexists|].
    intros ->. by apply (Hbad os); [|rewrite app_nil_r].
Qed.

Lemma answer_good a s id buf os :
  IpcpServer.addrs s = a ->
  (IpcpPolicy.answer s id buf os).2 = FsmEvent.RcvConfigReqGood <->
  Forall (fun o => IpcpPolicy.desired a (ConfigOption.option_type o) = Some (ConfigOption.value o)) os.
Proof.
  intros Ha. unfold IpcpPolicy.answer. rewrite Ha.
  transitivity (omap (IpcpPolicy.refusal a) os = [] /\ omap (IpcpPolicy.suggestion a) os = []).
  { repeat case_match; naive_solver. }
  induction os as [|o os IH]; [done|]. rewrite Forall_cons, <- IH. cbn.
  unfold IpcpPolicy.refusal at 1, IpcpPolicy.suggestion at 1, IpcpPolicy.judge.
  destruct (IpcpPolicy.desired _ _) as [v|]; [|naive_solver].
  destruct (bytes_eqb _ v) eqn:Hv.
  - apply bytes_eqb_eq in Hv as ->. naive_solver.
  - assert (ConfigOption.value o <> v) by (intros ?%bytes_eqb_eq; congruence). naive_solver.
Qed.

(** C9: An IPCP Configure-Request is acknowledged exactly when its option list is well-formed and
    every option carries the value the server assigned for it: the peer's address for IP-Address, the
    configured servers for the DNS and NBNS options.  Otherwise the answer is a Configure-Reject of
    the options the server has no value for, verbatim, or, if there are none, a Configure-Nak with
    the assigned value of each option that differs; a malformed list gets an empty Configure-Nak. *)
Theorem ipcp_acks_only_assigned s id :
  addrs_ok (IpcpServer.addrs s) ->
  (forall os, Forall option_ok os ->
     @IpcpServer.classify_configure_request bp unit s id (opts_bytes os)
     = Ok (IpcpPolicy.answer s id (opts_bytes os) os) /\
     ((IpcpPolicy.answer s id (opts_bytes os) os).2 = FsmEvent.RcvConfigReqGood <->
      Forall (fun o => IpcpPolicy.desired (IpcpServer.addrs s) (ConfigOption.option_type o)
                       = Some (ConfigOption.value o)) os)) /\
  (forall buf, u8s buf -> (forall os, Forall option_ok os -> buf <> opts_bytes os) ->
     @IpcpServer.classify_configure_request bp unit s id buf
     = Ok (IpcpServer.with_cr s id buf [] false, FsmEvent.RcvConfigReqBad)).
Proof.
  intros Ha. split.
  - intros os Hos. split; [by apply ipcp_classify_wf|by apply answer_good].
  - intros buf Hb Hbad. destruct (ipcp_classify (bp := bp) (E := unit) s id buf Hb Ha)
      as (os & tail & Hos & -> & ->).
    rewrite bool_decide_false; [done|]. intros ->. by apply (Hbad os); [|rewrite app_nil_r].
Qed.

End Properties.

Definition sample_addrs : AssignedAddrs.t :=
  {| AssignedAddrs.ip := [10; 0; 0; 7]; AssignedAddrs.mtu := Some 1400;
     AssignedAddrs.dns1 := Some [9; 9; 9; 9]; AssignedAddrs.dns2 := None;
     AssignedAddrs.nbns1 := None; AssignedAddrs.nbns2 := None |}.

Lemma sample_addrs_ok : addrs_ok sample_addrs.
Proof. split; [done|]. cbn. intros v [?|[?|[?|?]]]; by simplify_eq. Qed.

Lemma ipcp_acks_only_assigned_witness :
  let s := IpcpServer.new sample_addrs [10; 0; 0; 1] in
  let os := [{| ConfigOption.option_type := 3; ConfigOption.value := [10; 0; 0; 7] |};
             {| ConfigOption.option_type := 129; ConfigOption.value := [0; 0; 0; 0] |}] in
  @IpcpServer.classify_configure_request true unit s 5 (opts_bytes os)
  = Ok (IpcpServer.with_cr s 5 (opts_bytes os) [129; 6; 9; 9; 9; 9] false, FsmEvent.RcvConfigReqBad).
Proof.
  intros s os. apply (ipcp_acks_only_assigned (bp := true) s 5 sample_addrs_ok).
  repeat (constructor; [done|]). constructor.
Defined.
