(* ===== verification/PppAccess.v ===== *)
(** The PPP driver as an access gate: theorems on [Ppp] of [src/src/ppp/driver.rs].

    [input] and [step] are the five entry points the session calls.  [inv] is the driver's invariant,
    [Access] the abstract specification: a peer is asked for credentials, a positive verdict on them
    grants it addresses, and only then may the network come up.  [turn_ok] is what one entry point
    guarantees; it is proved handler by handler, and the theorems over whole sessions follow. *)

From S2P Require Import Prelude PppFrame Lcp PppFsm PppAuth PppDriver PppClassify.

#[local] Arguments encode_protocol_packet : simpl never.
#[local] Arguments encode_chap_challenge : simpl never.
#[local] Arguments encode_chap_terminal : simpl never.
#[local] Arguments push_v4_option : simpl never.
#[local] Arguments write_option : simpl never.
#[local] Arguments lcp_bytes : simpl never.
#[local] Arguments frame_bytes : simpl never.
#[local] Arguments option_bytes : simpl never.
#[local] Arguments opts_bytes : simpl never.
#[local] Arguments bytes_eqb : simpl never.
#[local] Arguments Fsm.step : simpl never.
#[local] Arguments wrapping_add_u8 : simpl never.

(** ** Sizes *)

(** The largest frame the driver is given and the largest packet body it sends.  A Configure-Nak can be
    three times as long as the request, and a Protocol-Reject carries up to 1496 bytes. *)
Class Limits := {
  frame_in : Z;
  body_out : Z;
  limits_ok : 1496 <= body_out <= 65531 /\ 3 * frame_in <= body_out
}.

(** Any frame an SSTP data packet can carry. *)
Definition sstp_limits : Limits := Build_Limits 4091 65531 ltac:(lia).

(** Frames short enough for every answer to fit an SSTP data packet. *)
Definition small_limits : Limits := Build_Limits 1361 4083 ltac:(lia).

(** ** Frames sent *)

Definition push_frames (out : PppStep.t) (fs : list bytes) : PppStep.t :=
  {| PppStep.frames := PppStep.frames out ++ fs; PppStep.timer_starts := PppStep.timer_starts out;
     PppStep.timer_stops := PppStep.timer_stops out; PppStep.event := PppStep.event out;
     PppStep.finished := PppStep.finished out |}.

(** A frame the peer can decode: a control-protocol packet with an exact length field. *)
Definition wf_frame {lim : Limits} (f : bytes) : Prop :=
  exists protocol p, protocol ∈ [0xC021; 0xC023; 0xC223; 0x8021] /\
    len (LcpPacket.data p) <= body_out /\ f = frame_bytes protocol (lcp_bytes p).

Definition lcp_frame (p : LcpPacket.t) : bytes := frame_bytes 0xC021 (lcp_bytes p).
Definition ipcp_frame (p : LcpPacket.t) : bytes := frame_bytes 0x8021 (lcp_bytes p).

(** The Authentication-Protocol option of the server's own Configure-Request. *)
Definition own_option (m : AuthMethod.t) : ConfigOption.t :=
  {| ConfigOption.option_type := 3;
     ConfigOption.value := match m with
                           | AuthMethod.Pap => [0xC0; 0x23]
                           | AuthMethod.ChapMd5 => [0xC2; 0x23; 5]
                           | AuthMethod.MsChapV2 => [0xC2; 0x23; 0x81]
                           end |}.

(** The packet an action of the automaton becomes. *)
Definition lcp_packet (s : LcpServer.t) (send : Send.t) : option LcpPacket.t :=
  let fresh := wrapping_add_u8 (Fsm.identifier (LcpServer.fsm s)) 1 in
  match send with
  | Send.ConfigureRequest => Some (packet 1 fresh (option_bytes (own_option (LcpServer.auth_method s))))
  | Send.ConfigureAck => Some (packet 2 (LcpServer.last_cr_id s) (LcpServer.last_cr_options s))
  | Send.ConfigureNak =>
      Some (packet (if LcpServer.pending_nak_is_reject s then 4 else 3) (LcpServer.last_cr_id s)
              (LcpServer.pending_nak s))
  | Send.TerminateReq => Some (packet 5 fresh [])
  | Send.TerminateAck => Some (packet 6 (LcpServer.last_cr_id s) [])
  | Send.EchoReply =>
      if LcpServer.last_rxr_code s =? 9
      then Some (packet 10 (LcpServer.last_echo_id s)
                   ([0; 0; 0; 0] ++ drop 4 (LcpServer.last_echo_data s)))
      else None
  | Send.CodeReject => None
  end.

Definition ipcp_packet (s : IpcpServer.t) (send : Send.t) : option LcpPacket.t :=
  let fresh := wrapping_add_u8 (Fsm.identifier (IpcpServer.fsm s)) 1 in
  match send with
  | Send.ConfigureRequest =>
      Some (packet 1 fresh (option_bytes {| ConfigOption.option_type := 3;
                                            ConfigOption.value := IpcpServer.local_ip s |}))
  | Send.ConfigureAck => Some (packet 2 (IpcpServer.last_cr_id s) (IpcpServer.last_cr_options s))
  | Send.ConfigureNak =>
      Some (packet (if IpcpServer.pending_nak_is_reject s then 4 else 3) (IpcpServer.last_cr_id s)
              (IpcpServer.pending_nak s))
  | Send.TerminateReq => Some (packet 5 fresh [])
  | Send.TerminateAck => Some (packet 6 (IpcpServer.last_cr_id s) [])
  | Send.CodeReject | Send.EchoReply => None
  end.

Definition lcp_bumped (s : LcpServer.t) (send : option Send.t) : LcpServer.t :=
  if Fsm.transmits send then (LcpServer.bump s).1 else s.

Definition ipcp_bumped (s : IpcpServer.t) (send : option Send.t) : IpcpServer.t :=
  if Fsm.transmits send then (IpcpServer.bump s).1 else s.

(** The frames of one output of the automaton. *)
Definition lcp_sends (s : LcpServer.t) (st : FsmOut.t) : list bytes :=
  (lcp_frame <$> option_list (FsmOut.send st ≫= lcp_packet s)) ++
  (lcp_frame <$> option_list (FsmOut.send_extra st ≫= lcp_packet (lcp_bumped s (FsmOut.send st)))).

Definition ipcp_sends (s : IpcpServer.t) (st : FsmOut.t) : list bytes :=
  (ipcp_frame <$> option_list (FsmOut.send st ≫= ipcp_packet s)) ++
  (ipcp_frame <$> option_list (FsmOut.send_extra st ≫= ipcp_packet (ipcp_bumped s (FsmOut.send st)))).

(** Every stored body fits an LCP packet. *)
Definition lcp_bounded {lim : Limits} (s : LcpServer.t) : Prop :=
  len (LcpServer.last_cr_options s) <= body_out /\ len (LcpServer.pending_nak s) <= body_out /\
  len (LcpServer.last_echo_data s) <= body_out.

Definition ipcp_bounded {lim : Limits} (s : IpcpServer.t) : Prop :=
  len (IpcpServer.last_cr_options s) <= body_out /\ len (IpcpServer.pending_nak s) <= body_out /\
  is_v4 (IpcpServer.local_ip s) /\ addrs_ok (IpcpServer.addrs s).

Section Render.
Context {lim : Limits} {bp : BuildProfile} {E : Type}.

Lemma write_own_cr_options_ok s :
  @LcpServer.write_own_cr_options bp E s [] = Ok (option_bytes (own_option (LcpServer.auth_method s))).
Proof.
  unfold LcpServer.write_own_cr_options, own_option.
  destruct (LcpServer.auth_method s); by vm_compute; destruct bp.
Qed.

Lemma lcp_packet_ok s send p :
  lcp_bounded s -> lcp_packet s send = Some p -> len (LcpPacket.data p) <= body_out.
Proof.
  intros (Ho & Hn & He). pose proof limits_ok as [Hlim _].
  destruct send; cbn; try case_match; intros; simplify_eq; cbn [LcpPacket.data]; try len_lia.
  rewrite length_option_bytes. destruct (LcpServer.auth_method s); cbn; lia.
Qed.

Lemma ipcp_packet_ok s send p :
  ipcp_bounded s -> ipcp_packet s send = Some p -> len (LcpPacket.data p) <= body_out.
Proof.
  intros (Ho & Hn & Hl & _). pose proof limits_ok as [Hlim _]. unfold is_v4 in *.
  destruct send; cbn; try case_match; intros; simplify_eq; cbn [LcpPacket.data]; len_lia.
Qed.

Lemma lcp_render_ok out s send :
  lcp_bounded s ->
  @LcpServer.render_send bp E out s send
  = Ok (push_frames out (lcp_frame <$> option_list (send ≫= lcp_packet s)), lcp_bumped s send).
Proof.
  intros Hb. unfold LcpServer.render_send, lcp_bumped. destruct send as [send|].
  2: { cbn. unfold push_frames. rewrite app_nil_r. by destruct out. }
  assert (forall c i d, len d <= body_out ->
    @encode_lcp_frame bp E c i d = Ok (lcp_frame (packet (LcpCode.as_u8 c) i d))) as Henc.
  { intros c i d Hd. unfold encode_lcp_frame. pose proof limits_ok as [Hlim _].
    by rewrite encode_protocol_packet_ok by lia. }
  assert (forall c i d, lcp_packet s send = Some (packet c i d) -> len d <= body_out) as Hok
    by (intros c i d; apply (lcp_packet_ok s send (packet c i d) Hb)).
  destruct Hb as (_ & _ & He).
  destruct send; cbn in *; rewrite ?write_own_cr_options_ok; cbn.
  all: try (unfold push_frames; rewrite app_nil_r; by destruct out).
  - rewrite Henc; [done|]. by eapply Hok.
  - rewrite Henc; [done|]. by eapply Hok.
  - rewrite Henc; [|by eapply Hok]; by destruct (LcpServer.pending_nak_is_reject s).
  - rewrite Henc; [done|]. by eapply Hok.
  - rewrite Henc; [done|]. by eapply Hok.
  - destruct (LcpServer.last_rxr_code s =? 9); cbn.
    2: { unfold push_frames. rewrite app_nil_r. by destruct out. }
    replace (if _ >? 4 then _ else _) with (@Ok E _ (drop 4 (LcpServer.last_echo_data s))).
    + cbn. rewrite Henc; [done|]. by eapply Hok.
    + destruct (_ >? 4) eqn:H4; [|by rewrite drop_ge by lia].
      rewrite slice_from_ok by lia. done.
Qed.

Lemma ipcp_render_ok out s send :
  ipcp_bounded s ->
  @IpcpServer.render_ipcp_send bp E out s send
  = Ok (push_frames out (ipcp_frame <$> option_list (send ≫= ipcp_packet s)), ipcp_bumped s send).
Proof.
  intros Hb. unfold IpcpServer.render_ipcp_send, ipcp_bumped. destruct send as [send|].
  2: { cbn. unfold push_frames. rewrite app_nil_r. by destruct out. }
  assert (forall c i d, len d <= body_out ->
    @encode_ipcp_frame bp E c i d = Ok (ipcp_frame (packet (IpcpCode.as_u8 c) i d))) as Henc.
  { intros c i d Hd. unfold encode_ipcp_frame. pose proof limits_ok as [Hlim _].
    by rewrite encode_protocol_packet_ok by lia. }
  assert (forall c i d, ipcp_packet s send = Some (packet c i d) -> len d <= body_out) as Hok
    by (intros c i d; apply (ipcp_packet_ok s send (packet c i d) Hb)).
  destruct Hb as (_ & _ & Hl & _).
  destruct send; cbn in *; rewrite ?push_v4_option_ok by done; cbn.
  all: try (unfold push_frames; rewrite app_nil_r; by destruct out).
  1, 2, 4, 5: rewrite Henc; [done|]; by eapply Hok.
  rewrite Henc; [|by eapply Hok]; by destruct (IpcpServer.pending_nak_is_reject s).
Qed.

End Render.

(** ** Entry points *)

Inductive input :=
| Open
| Frame (payload : bytes)
| Timer (owner : TimerOwner)
| AuthResult (verdict : AuthVerdict.t)
| MsChapResult (verdict : AuthVerdict.t) (auth_response error_string : option bytes).

Definition verdict_ok (v : AuthVerdict.t) : Prop :=
  match v with AuthVerdict.Accept a => addrs_ok a | AuthVerdict.Reject _ => True end.

Definition input_ok {lim : Limits} (i : input) : Prop :=
  match i with
  | Frame payload => u8s payload /\ len payload <= frame_in
  | AuthResult v | MsChapResult v _ _ => verdict_ok v
  | _ => True
  end.

Definition step {bp : BuildProfile} {E} (p : Ppp.t) (rand : bytes) (i : input)
    : res E (Ppp.t * PppStep.t) :=
  match i with
  | Open => Ppp.open p rand
  | Frame payload => Ppp.on_frame p rand payload
  | Timer owner => Ppp.on_timer p rand owner
  | AuthResult v => Ppp.on_auth_result p rand v
  | MsChapResult v resp err => Ppp.on_mschap_result p rand v resp err
  end.

(** ** Access specification *)

Module Access.

Inductive t :=
| Closed
| Awaiting
| Asked (m : InFlightMethod.t)
| Granted (a : AssignedAddrs.t).

(** The credentials handed out belong to the method in flight. *)
Definition asks (e : PppEvent.t) (m : InFlightMethod.t) : Prop :=
  match e, m with
  | PppEvent.NeedPapAuth _ _, InFlightMethod.Pap _ => True
  | PppEvent.NeedChapAuth _ id challenge response, InFlightMethod.Chap id' =>
      id = id' /\ length challenge = 16%nat /\ length response = 16%nat
  | PppEvent.NeedMsChapV2Auth _ id ours peers nt _, InFlightMethod.MsChapV2 id' =>
      id = id' /\ length ours = 16%nat /\ length peers = 16%nat /\ length nt = 24%nat
  | _, _ => False
  end.

(** The input is a positive verdict on method [m]. *)
Definition accepts (i : input) (m : InFlightMethod.t) (a : AssignedAddrs.t) : Prop :=
  match i, m with
  | AuthResult (AuthVerdict.Accept a'), (InFlightMethod.Pap _ | InFlightMethod.Chap _) => a' = a
  | MsChapResult (AuthVerdict.Accept a') _ _, InFlightMethod.MsChapV2 _ => a' = a
  | _, _ => False
  end.

(** [a] with its MTU lowered to the peer's MRU. *)
Definition clamped (a a' : AssignedAddrs.t) : Prop :=
  exists peer_mru, a' = AssignedAddrs.with_mtu a (Ppp.merge_mtu (AssignedAddrs.mtu a) peer_mru).

Inductive step : t -> input -> option PppEvent.t -> t -> Prop :=
| stay s i : step s i None s
| link_up s i : step s i None Awaiting
| shut s i : step s i None Closed
| ask s f e m : s = Awaiting \/ (exists m', s = Asked m') -> asks e m -> step s (Frame f) (Some e) (Asked m)
| grant m i a a' : accepts i m a -> clamped a a' -> step (Asked m) i None (Granted a')
| network_up a f : step (Granted a) (Frame f) (Some (PppEvent.NetworkUp a)) (Granted a).

End Access.

Definition abs (p : Ppp.t) : Access.t :=
  match Ppp.phase p, Ppp.pending_addrs p with
  | Phase.AuthPending, _ => Access.Awaiting
  | Phase.AuthInFlight m, _ => Access.Asked m
  | Phase.Network, Some a => Access.Granted a
  | _, _ => Access.Closed
  end.

(** ** Invariant *)

Record inv {lim : Limits} (p : Ppp.t) : Prop := {
  inv_lcp : lcp_bounded (Ppp.lcp p);
  inv_opened : LcpServer.opened (Ppp.lcp p)
               = bool_decide (Fsm.state (LcpServer.fsm (Ppp.lcp p)) = FsmState.Opened);
  inv_local : is_v4 (Ppp.local_ip p);
  inv_challenge : forall c, Ppp.chap_challenge p = Some c -> length c = 16%nat;
  inv_ipcp : match Ppp.ipcp p with
             | Some i => ipcp_bounded i /\ Ppp.pending_addrs p = Some (IpcpServer.addrs i)
             | None => Ppp.phase p <> Phase.Network
             end
}.

(** What one entry point guarantees on input [i]. *)
Definition turn_ok {lim : Limits} {E} (p : Ppp.t) (i : input) (m : res E (Ppp.t * PppStep.t)) : Prop :=
  exists p' out, m = Ok (p', out) /\ inv p' /\ Forall wf_frame (PppStep.frames out) /\
    Access.step (abs p) i (PppStep.event out) (abs p').

Lemma inv_new {lim : Limits} local m : is_v4 local -> inv (Ppp.new local m).
Proof. pose proof limits_ok as [? _]. split; cbn; unfold lcp_bounded; cbn; done || lia. Qed.

Lemma wf_lcp_frames {lim : Limits} s send :
  lcp_bounded s -> Forall wf_frame (lcp_frame <$> option_list (send ≫= lcp_packet s)).
Proof.
  intros Hb. destruct send as [send|]; cbn; [|done].
  destruct (lcp_packet s send) as [p|] eqn:Hp; cbn; [|done].
  apply Forall_singleton. exists 0xC021, p.
  split_and!; [set_solver|by eapply lcp_packet_ok|done].
Qed.

Lemma wf_ipcp_frames {lim : Limits} s send :
  ipcp_bounded s -> Forall wf_frame (ipcp_frame <$> option_list (send ≫= ipcp_packet s)).
Proof.
  intros Hb. destruct send as [send|]; cbn; [|done].
  destruct (ipcp_packet s send) as [p|] eqn:Hp; cbn; [|done].
  apply Forall_singleton. exists 0x8021, p.
  split_and!; [set_solver|by eapply ipcp_packet_ok|done].
Qed.

Lemma apply_timer_same out op owner :
  PppStep.frames (Ppp.apply_timer out op owner) = PppStep.frames out /\
  PppStep.event (Ppp.apply_timer out op owner) = PppStep.event out.
Proof. by destruct op as [[]|]. Qed.

Lemma lcp_bumped_same s send :
  LcpServer.with_fsm (lcp_bumped s send) (LcpServer.fsm s) = s /\
  Fsm.state (LcpServer.fsm (lcp_bumped s send)) = Fsm.state (LcpServer.fsm s).
Proof. unfold lcp_bumped. by destruct (Fsm.transmits send), s. Qed.

Lemma ipcp_bumped_same s send : IpcpServer.with_fsm (ipcp_bumped s send) (IpcpServer.fsm s) = s.
Proof. unfold ipcp_bumped. by destruct (Fsm.transmits send), s. Qed.

(** What [render_lcp_step] does to the driver, given the automaton's output. *)
Record lcp_rendered {lim : Limits} (p : Ppp.t) (rand : bytes) (n : Notify.t) (p' : Ppp.t) : Prop := {
  ren_bounded : lcp_bounded (Ppp.lcp p');
  ren_state : Fsm.state (LcpServer.fsm (Ppp.lcp p')) = Fsm.state (LcpServer.fsm (Ppp.lcp p));
  ren_opened : LcpServer.opened (Ppp.lcp p')
               = (LcpServer.opened (Ppp.lcp p) || Notify.up n) && negb (Notify.down n);
  ren_phase : Ppp.phase p' =
    if Notify.finished n then Phase.Dead
    else if Notify.up n && negb (LcpServer.opened (Ppp.lcp p)) then Phase.AuthPending
    else Ppp.phase p;
  ren_challenge : Ppp.chap_challenge p' = Ppp.chap_challenge p \/ Ppp.chap_challenge p' = Some rand;
  ren_rest : Ppp.ipcp p' = Ppp.ipcp p /\ Ppp.pending_addrs p' = Ppp.pending_addrs p /\
             Ppp.local_ip p' = Ppp.local_ip p
}.

Section Turns.
Context {lim : Limits} {bp : BuildProfile} {E : Type}.

Lemma on_lcp_up_ok p rand out :
  length rand = 16%nat -> lcp_bounded (Ppp.lcp p) ->
  exists p' fs, @Ppp.on_lcp_up E p rand out = Ok (p', push_frames out fs) /\ Forall wf_frame fs /\
    Ppp.lcp p' = LcpServer.with_opened (Ppp.lcp p) true /\ Ppp.phase p' = Phase.AuthPending /\
    (Ppp.chap_challenge p' = Ppp.chap_challenge p \/ Ppp.chap_challenge p' = Some rand) /\
    Ppp.ipcp p' = Ppp.ipcp p /\ Ppp.pending_addrs p' = Ppp.pending_addrs p /\
    Ppp.local_ip p' = Ppp.local_ip p.
Proof.
  intros Hr Hb. unfold Ppp.on_lcp_up. cbn. destruct (_ || _).
  - rewrite encode_chap_challenge_ok by done. cbn. eexists _, [_]. split; [done|]. split_and!; auto.
    apply Forall_singleton. eexists 0xC223, _. split_and!; [set_solver| |done].
    unfold NAME. cbn [LcpPacket.data]. pose proof limits_ok as [? _]. len_lia.
  - eexists _, []. unfold push_frames. rewrite app_nil_r. split; [by destruct out|].
    split_and!; auto.
Qed.

Lemma render_lcp_step_ok p rand st :
  length rand = 16%nat -> lcp_bounded (Ppp.lcp p) ->
  exists p' out, Ppp.render_lcp_step (E := E) p rand st = Ok (p', out) /\
    Forall wf_frame (PppStep.frames out) /\ PppStep.event out = None /\
    lcp_rendered p rand (FsmOut.notify st) p' /\
    lcp_sends (Ppp.lcp p) st `prefix_of` PppStep.frames out.
Proof.
  intros Hr Hb. unfold Ppp.render_lcp_step.
  rewrite lcp_render_ok by done. cbn [mbind res_bind].
  set (s1 := lcp_bumped (Ppp.lcp p) (FsmOut.send st)).
  assert (lcp_bounded s1) as Hb1 by (unfold s1, lcp_bumped; by destruct (Fsm.transmits _)).
  rewrite lcp_render_ok by done. cbn [mbind res_bind].
  set (s2 := lcp_bumped s1 (FsmOut.send_extra st)).
  assert (lcp_bounded s2 /\ LcpServer.opened s2 = LcpServer.opened (Ppp.lcp p) /\
    Fsm.state (LcpServer.fsm s2) = Fsm.state (LcpServer.fsm (Ppp.lcp p))) as (Hb2 & Ho2 & Hs2).
  { unfold s2, s1, lcp_bumped. by repeat destruct (Fsm.transmits _). }
  pose proof (wf_lcp_frames _ (FsmOut.send st) Hb) as Hf1.
  pose proof (wf_lcp_frames _ (FsmOut.send_extra st) Hb1) as Hf2.
  set (out := push_frames _ _).
  assert (Forall wf_frame (PppStep.frames out)) as Hf by (by apply Forall_app).
  assert (PppStep.frames out = lcp_sends (Ppp.lcp p) st) as Hsent by done.
  destruct (apply_timer_same out (FsmOut.restart_timer st) TimerLcp) as [Ht1 Ht2].
  set (out' := Ppp.apply_timer _ _ _) in *. clearbody s2.
  destruct (FsmOut.notify st) as [up down started fin]. cbn. rewrite Ho2.
  destruct (up && negb (LcpServer.opened (Ppp.lcp p))) eqn:Hup.
  - destruct (on_lcp_up_ok (Ppp.with_lcp p s2) rand out' Hr Hb2)
      as (p' & fs & -> & Hfs & Hl & Hph & Hc & Hi & Ha & Hloc). cbn.
    eexists _, _. split; [by rewrite <- surjective_pairing|].
    apply andb_true_iff in Hup as [-> Hop%negb_true_iff]. rewrite Hop in *.
    assert (Forall wf_frame (PppStep.frames (push_frames out' fs)))
      by (cbn; rewrite Ht1; by apply Forall_app).
    destruct down, fin; (split; [done|]); (split; [done|]);
      (split; [split; cbn; rewrite ?Hl; cbn; rewrite ?Hs2, ?Ho2, ?Hop; auto|]);
      cbn; rewrite Ht1, Hsent; by apply prefix_app_r.
  - cbn. eexists _, _. split; [by rewrite <- surjective_pairing|].
    assert (LcpServer.opened (Ppp.lcp p) || up = LcpServer.opened (Ppp.lcp p)) as Hop
      by (by destruct up, (LcpServer.opened (Ppp.lcp p))).
    destruct down, fin; (split; [cbn; by rewrite Ht1|]); (split; [done|]);
      (split; [split; cbn; rewrite ?Hs2, ?Ho2, ?Hop, ?andb_true_r, ?andb_false_r, ?Hup; auto|]);
      cbn; by rewrite Ht1, Hsent.
Qed.

Lemma lcp_turn p rand s ev :
  inv p -> length rand = 16%nat -> lcp_bounded s ->
  LcpServer.opened s = bool_decide (Fsm.state (LcpServer.fsm s) = FsmState.Opened) ->
  let '(l, st) := LcpServer.drive s ev in
  exists p' out, Ppp.render_lcp_step (E := E) (Ppp.with_lcp p l) rand st = Ok (p', out) /\ inv p' /\
    Forall wf_frame (PppStep.frames out) /\ PppStep.event out = None /\
    (forall i, Access.step (abs p) i None (abs p')).
Proof.
  intros Hinv Hr Hb Ho. unfold LcpServer.drive.
  pose proof (fsm_layer (LcpServer.fsm s) ev) as Hlay.
  destruct (Fsm.step (LcpServer.fsm s) ev) as [f st]. destruct Hlay as [Hup Hdown].
  destruct (render_lcp_step_ok (Ppp.with_lcp p (LcpServer.with_fsm s f)) rand st Hr Hb)
    as (p' & out & Heq & Hf & He & [Rb Rs Ro Rp Rc (Ri & Ra & Rl)] & _).
  cbn in Rs, Ro, Rp, Rc, Ri, Ra, Rl.
  exists p', out. split_and!; try done.
  - destruct Hinv as [_ _ Hloc Hch Hip]. split; [done| | | |].
    + rewrite Ro, Rs, Ho. clear - Hup Hdown. do 2 case_bool_decide;
        destruct (Notify.up _), (Notify.down _); cbn; naive_solver.
    + congruence.
    + intros c Hc. destruct Rc as [Rc|Rc]; [apply Hch; congruence|congruence].
    + rewrite Ri, Ra. destruct (Ppp.ipcp p); [done|]. rewrite Rp. by repeat case_match.
  - intros i. unfold abs. rewrite Rp, Ra.
    repeat case_match; solve [constructor | congruence].
Qed.

Lemma lcp_turn_ok p rand s ev i :
  inv p -> length rand = 16%nat -> lcp_bounded s ->
  LcpServer.opened s = bool_decide (Fsm.state (LcpServer.fsm s) = FsmState.Opened) ->
  turn_ok p i (let '(l, st) := LcpServer.drive s ev in
               Ppp.render_lcp_step (E := E) (Ppp.with_lcp p l) rand st).
Proof.
  intros Hinv Hr Hb Ho. pose proof (lcp_turn p rand s ev Hinv Hr Hb Ho) as Ht.
  destruct (LcpServer.drive s ev) as [l st].
  destruct Ht as (p' & out & Heq & Hinv' & Hf & He & Ha). exists p', out. by rewrite He.
Qed.

(** What [render_ipcp_step] does to the driver. *)
Lemma render_ipcp_step_ok p s st :
  inv p -> ipcp_bounded s -> Ppp.pending_addrs p = Some (IpcpServer.addrs s) ->
  exists p' out, Ppp.render_ipcp_step (E := E) (Ppp.with_ipcp p (Some s)) st = Ok (p', out) /\ inv p' /\
    Forall wf_frame (PppStep.frames out) /\ abs p' = abs p /\
    (PppStep.event out = None \/
     Notify.up (FsmOut.notify st) = true /\
     PppStep.event out = Some (PppEvent.NetworkUp (IpcpServer.addrs s))) /\
    PppStep.frames out = ipcp_sends s st.
Proof.
  intros [Hl Ho Hloc Hch Hip] Hb Ha. unfold Ppp.render_ipcp_step. cbn.
  rewrite ipcp_render_ok by done. cbn [mbind res_bind].
  set (s1 := ipcp_bumped s (FsmOut.send st)).
  assert (ipcp_bounded s1) as Hb1 by (unfold s1, ipcp_bumped; by destruct (Fsm.transmits _)).
  rewrite ipcp_render_ok by done. cbn [mbind res_bind].
  set (s2 := ipcp_bumped s1 (FsmOut.send_extra st)).
  assert (ipcp_bounded s2 /\ IpcpServer.addrs s2 = IpcpServer.addrs s) as (Hb2 & Ha2).
  { unfold s2, s1, ipcp_bumped. by repeat destruct (Fsm.transmits _). }
  pose proof (wf_ipcp_frames _ (FsmOut.send st) Hb) as Hf1.
  pose proof (wf_ipcp_frames _ (FsmOut.send_extra st) Hb1) as Hf2.
  set (out := push_frames _ _).
  assert (Forall wf_frame (PppStep.frames out)) as Hf by (by apply Forall_app).
  destruct (apply_timer_same out (FsmOut.restart_timer st) TimerIpcp) as [Ht1 Ht2].
  set (out' := Ppp.apply_timer _ _ _) in *. clearbody s2. rewrite Ha.
  destruct (FsmOut.notify st) as [up down started fin]. cbn.
  destruct (up && negb (IpcpServer.opened s2)) eqn:Hup; cbn;
    eexists _, _; (split; [done|]); (split; [|split_and!]).
  all: try (split; cbn; [done..|]; rewrite Ha; cbn; by rewrite ?Ha2).
  all: try (destruct fin; cbn; by rewrite Ht1).
  all: try done.
  - right. apply andb_true_iff in Hup as [-> _]. by destruct fin.
  - left. by destruct fin.
Qed.

(** Bodies built by the classifiers. *)
Lemma len_opts_refused os : len (opts_bytes (lcp_refused os)) <= len (opts_bytes os).
Proof.
  unfold lcp_refused. induction os as [|o os IH]; [done|]. rewrite filter_cons.
  destruct (decide _); rewrite ?opts_bytes_cons; len_lia.
Qed.

Lemma len_opts_answer a os :
  addrs_ok a ->
  len (opts_bytes (omap (IpcpPolicy.refusal a) os)) <= len (opts_bytes os) /\
  len (opts_bytes (omap (IpcpPolicy.suggestion a) os)) <= 3 * len (opts_bytes os).
Proof.
  intros Ha. induction os as [|o os [IH1 IH2]]; [done|].
  cbn. unfold IpcpPolicy.refusal at 1, IpcpPolicy.suggestion at 1, IpcpPolicy.judge.
  destruct (IpcpPolicy.desired a _) as [v|] eqn:Hd; [apply desired_v4 in Hd; [|done]; unfold is_v4 in Hd|];
    [destruct (bytes_eqb _ _)|]; rewrite ?opts_bytes_cons, ?length_app, ?length_option_bytes;
    cbn [ConfigOption.value]; lia.
Qed.

Lemma lcp_on_packet_ok s pkt :
  lcp_bounded s -> u8s (LcpPacket.data pkt) -> len (LcpPacket.data pkt) <= frame_in ->
  exists s' ev, @LcpServer.on_packet bp E s pkt = Ok (LcpServer.drive s' ev) /\ lcp_bounded s' /\
    LcpServer.fsm s' = LcpServer.fsm s /\ LcpServer.opened s' = LcpServer.opened s.
Proof.
  intros Hb Hd Hl. pose proof limits_ok as [_ ?]. unfold LcpServer.on_packet.
  destruct (LcpPacket.typed_code pkt) as [[]|]; cbn [mbind res_bind]; try by eexists _, _.
  - destruct (lcp_classify (bp := bp) (E := E) s (LcpPacket.identifier pkt) _ Hd)
      as (os & tail & Hos & Heq & ->).
    cbn [mbind res_bind]. eexists _, _. split; [done|]. split_and!; [|done..].
    pose proof (len_opts_refused os) as Hr. apply (f_equal length) in Heq. rewrite length_app in Heq.
    destruct Hb as (? & ? & ?). unfold lcp_bounded. cbn. lia.
  - eexists _, _. split; [done|]. destruct Hb as (? & ? & ?). unfold lcp_bounded. cbn. split_and!; done || lia.
  - eexists _, _. split; [done|]. destruct Hb as (? & ? & ?). unfold lcp_bounded. cbn. split_and!; done || lia.
  - eexists _, _. split; [done|]. destruct Hb as (? & ? & ?). unfold lcp_bounded. cbn. split_and!; done || lia.
Qed.

Lemma answer_ok s id buf os :
  ipcp_bounded s -> len buf <= frame_in -> len (opts_bytes os) <= len buf ->
  ipcp_bounded (IpcpPolicy.answer s id buf os).1 /\
  IpcpServer.addrs (IpcpPolicy.answer s id buf os).1 = IpcpServer.addrs s.
Proof.
  intros (Ho & Hn & Hl & Ha) Hb Hos. pose proof limits_ok as [_ ?].
  destruct (len_opts_answer (IpcpServer.addrs s) os Ha) as [H1 H2].
  unfold IpcpPolicy.answer, ipcp_bounded. repeat case_match; cbn; split_and!; done || lia.
Qed.

Lemma ipcp_on_packet_ok s pkt :
  ipcp_bounded s -> u8s (LcpPacket.data pkt) -> len (LcpPacket.data pkt) <= frame_in ->
  exists s' ev, @IpcpServer.on_packet bp E s pkt = Ok (IpcpServer.drive s' ev) /\ ipcp_bounded s' /\
    IpcpServer.addrs s' = IpcpServer.addrs s.
Proof.
  intros Hb Hd Hl. pose proof limits_ok as [_ ?]. unfold IpcpServer.on_packet.
  destruct (IpcpCode.from_u8 _) as [[]|]; cbn [mbind res_bind]; try by eexists _, _.
  destruct (ipcp_classify (bp := bp) (E := E) s (LcpPacket.identifier pkt) _ Hd)
    as (os & tail & Hos & Heq & ->); [apply Hb|].
  cbn [mbind res_bind]. case_bool_decide.
  - pose proof (answer_ok s (LcpPacket.identifier pkt) (LcpPacket.data pkt) os Hb Hl) as Hans.
    destruct (IpcpPolicy.answer _ _ _ _) as [s' ev]. eexists _, _. split; [done|]. apply Hans.
    rewrite Heq at 1. len_lia.
  - eexists _, _. split; [done|]. split; [|done].
    destruct Hb as (? & ? & ? & ?). unfold ipcp_bounded. cbn. split_and!; done || lia.
Qed.

(** ** Handlers *)

(** The data of a decoded packet is part of the buffer. *)
Lemma decoded_data buf pkt :
  u8s buf -> decode_lcp_packet buf = Ok pkt ->
  u8s (LcpPacket.data pkt) /\ len (LcpPacket.data pkt) <= len buf.
Proof.
  intros Hb Hd. destruct (decode_lcp_inv _ _ Hb Hd) as [_ [rest ->]].
  split; [by eapply u8s_envelope|len_lia].
Qed.

Lemma dropped_ok p i : inv p -> turn_ok p i (@Ok E _ (p, PppStep.default)).
Proof. intros. eexists _, _. split; [done|]. split_and!; [done..|constructor]. Qed.

Lemma handle_lcp_ok p rand info i :
  inv p -> length rand = 16%nat -> u8s info -> len info <= frame_in ->
  turn_ok p i (Ppp.handle_lcp (E := E) p rand info).
Proof.
  intros Hinv Hr Hu Hl. unfold Ppp.handle_lcp.
  destruct (decode_lcp_packet info) as [pkt|e|] eqn:Hd; cbn [catch mbind res_bind].
  - destruct (decoded_data _ _ Hu Hd) as [Hu' Hl'].
    destruct (lcp_on_packet_ok (Ppp.lcp p) pkt) as (s & ev & -> & Hb & Hf & Ho); [apply Hinv|done|lia|].
    pose proof (lcp_turn_ok p rand s ev i Hinv Hr Hb) as Ht. cbn [mbind res_bind].
    destruct (LcpServer.drive s ev) as [l st]. apply Ht. rewrite Ho, Hf. apply Hinv.
  - by apply dropped_ok.
  - rewrite decode_lcp_packet_eq in Hd. cbn zeta in Hd. by repeat case_match.
Qed.

Lemma handle_ipcp_ok p info f :
  inv p -> Ppp.phase p = Phase.Network -> u8s info -> len info <= frame_in ->
  turn_ok p (Frame f) (Ppp.handle_ipcp (E := E) p info).
Proof.
  intros Hinv Hph Hu Hl. unfold Ppp.handle_ipcp.
  destruct (decode_lcp_packet info) as [pkt|e|] eqn:Hd; cbn [catch mbind res_bind].
  - destruct (Ppp.ipcp p) as [s|] eqn:Hi; [|by apply dropped_ok].
    pose proof (inv_ipcp _ Hinv) as Hip. rewrite Hi in Hip. destruct Hip as [Hb Ha].
    destruct (decoded_data _ _ Hu Hd) as [Hu' Hl'].
    destruct (ipcp_on_packet_ok s pkt Hb) as (s' & ev & -> & Hb' & Ha'); [done|lia|].
    cbn [mbind res_bind]. unfold IpcpServer.drive. destruct (Fsm.step _ ev) as [fsm st].
    destruct (render_ipcp_step_ok p (IpcpServer.with_fsm s' fsm) st Hinv Hb')
      as (p' & out & -> & Hinv' & Hf & Habs & He & _); [cbn; congruence|].
    exists p', out. split_and!; [done..|]. rewrite Habs.
    destruct He as [-> | [_ ->]]; [constructor|]. unfold abs. rewrite Hph, Ha. cbn. rewrite Ha'.
    constructor.
  - by apply dropped_ok.
  - rewrite decode_lcp_packet_eq in Hd. cbn zeta in Hd. by repeat case_match.
Qed.

(** Entering [AuthInFlight] with the credentials of a frame. *)
Lemma asked_ok p f m e :
  inv p -> Ppp.phase p = Phase.AuthPending \/ (exists m', Ppp.phase p = Phase.AuthInFlight m') ->
  Access.asks e m ->
  turn_ok p (Frame f)
    (@Ok E _ (Ppp.with_phase p (Phase.AuthInFlight m), PppStep.with_event PppStep.default (Some e))).
Proof.
  intros [? ? ? ? Hi] Hph He. eexists _, _. split; [done|]. split_and!; [|done|].
  - split; cbn; [done..|]. by destruct (Ppp.ipcp p).
  - cbn. constructor; [|done]. unfold abs. destruct Hph as [-> | [m' ->]]; eauto.
Qed.

Lemma handle_pap_ok p info f :
  inv p -> Ppp.phase p = Phase.AuthPending \/ (exists m', Ppp.phase p = Phase.AuthInFlight m') ->
  u8s info -> turn_ok p (Frame f) (Ppp.handle_pap (E := E) p info).
Proof.
  intros Hinv Hph Hu. unfold Ppp.handle_pap.
  destruct (Pap.decode_authenticate_request info) as [req|e|] eqn:Hd; cbn [catch mbind res_bind].
  - by apply asked_ok.
  - by apply dropped_ok.
  - by apply pap_request_total in Hd.
Qed.

Lemma handle_chap_ok p info f :
  inv p -> Ppp.phase p = Phase.AuthPending \/ (exists m', Ppp.phase p = Phase.AuthInFlight m') ->
  u8s info -> turn_ok p (Frame f) (Ppp.handle_chap (E := E) p info).
Proof.
  intros Hinv Hph Hu. unfold Ppp.handle_chap.
  destruct (Chap.decode_challenge_response info) as [resp|e|] eqn:Hd; cbn [catch mbind res_bind];
    [|by apply dropped_ok|by apply chap_response_total in Hd].
  destruct (LcpServer.auth_method _); [by apply dropped_ok| |].
  - destruct (len _ =? 16) eqn:Hl; cbn [negb]; [|by apply dropped_ok].
    change (zeros 16) with ([] ++ zeros 16). rewrite copy_slice_app by (unfold zeros; len_lia).
    cbn [mbind res_bind]. destruct (Ppp.chap_challenge p) as [c|] eqn:Hc; [|by apply dropped_ok].
    apply asked_ok; [done..|]. apply inv_challenge in Hc; [|done]. cbn. split_and!; [done..|].
    unfold zeros. len_lia.
  - destruct (len _ =? 49) eqn:Hl; cbn [negb]; [|by apply dropped_ok].
    rewrite !slice_ok by lia. cbn [mbind res_bind].
    destruct (existsb _ _); [by apply dropped_ok|]. rewrite idx_ok by lia. cbn [mbind res_bind].
    destruct (Ppp.chap_challenge p) as [c|] eqn:Hc; [|by apply dropped_ok].
    apply inv_challenge in Hc; [|done].
    change (zeros 16) with ([] ++ zeros 16). rewrite copy_slice_app by (unfold zeros; len_lia).
    cbn [mbind res_bind]. apply asked_ok; [done..|]. cbn.
    pose proof (len_sub (Chap.value resp) 0 16). pose proof (len_sub (Chap.value resp) 24 48).
    split_and!; [done|unfold zeros; len_lia|lia..].
Qed.

Lemma protocol_reject_ok p proto info i :
  inv p -> turn_ok p i (Ppp.protocol_reject (E := E) p proto info).
Proof.
  intros Hinv. unfold Ppp.protocol_reject, DEFAULT_MRU, LCP_HEADER_LEN, saturating_sub.
  destruct (LcpServer.opened _); cbn [negb]; [|by apply dropped_ok].
  rewrite slice_ok by lia. cbn [mbind res_bind].
  pose proof (len_sub info 0 (Z.min (len info) (Z.max 0 (Z.max 0 (1500 - 4) - 2)))) as Hs.
  set (body := to_be16 proto ++ _). assert (len body <= 1496) by (unfold body; len_lia).
  unfold encode_lcp_frame. rewrite encode_protocol_packet_ok by lia. cbn [mbind res_bind].
  eexists _, _. split; [done|]. split_and!.
  - by destruct Hinv.
  - apply Forall_singleton. eexists 0xC021, _. split_and!; [set_solver| |done].
    cbn [LcpPacket.data]. pose proof limits_ok as [? _]. lia.
  - constructor.
Qed.

Lemma timeout_not_up s :
  let '(_, out) := Fsm.step s FsmEvent.RestartTimeout in Notify.up (FsmOut.notify out) = false.
Proof.
  destruct s as [st i c f mc mt mf]. unfold Fsm.step.
  destruct st; cbn; unfold Fsm.on_restart_timeout; try (destruct (_ >? 0)); done.
Qed.

Lemma on_timer_ok p rand owner :
  inv p -> length rand = 16%nat -> turn_ok p (Timer owner) (Ppp.on_timer (E := E) p rand owner).
Proof.
  intros Hinv Hr. destruct owner; cbn [Ppp.on_timer].
  - apply (lcp_turn_ok p rand (Ppp.lcp p)); [done|done|apply Hinv..].
  - destruct (Ppp.ipcp p) as [s|] eqn:Hi; [|by apply dropped_ok].
    pose proof (inv_ipcp _ Hinv) as Hip. rewrite Hi in Hip. destruct Hip as [Hb Ha].
    unfold IpcpServer.drive. pose proof (timeout_not_up (IpcpServer.fsm s)) as Hup.
    destruct (Fsm.step _ _) as [fsm st].
    destruct (render_ipcp_step_ok p (IpcpServer.with_fsm s fsm) st Hinv Hb)
      as (p' & out & -> & Hinv' & Hf & Habs & He & _); [done|].
    exists p', out. split_and!; [done..|]. rewrite Habs.
    destruct He as [-> | [? _]]; [constructor|congruence].
Qed.

(** [Open] neither enters nor leaves Opened. *)
Lemma open_keeps_opened s :
  Fsm.state (Fsm.step s FsmEvent.Open).1 = FsmState.Opened <-> Fsm.state s = FsmState.Opened.
Proof. destruct s as [st i c f mc mt mf]. by destruct st. Qed.

Lemma open_ok p (rand : bytes) :
  inv p -> length rand = 16%nat -> turn_ok p Open (Ppp.open (E := E) p rand).
Proof.
  intros Hinv Hr. unfold Ppp.open, LcpServer.open, LcpServer.drive at 1.
  pose proof (open_keeps_opened (LcpServer.fsm (Ppp.lcp p))) as Hop.
  destruct (Fsm.step _ FsmEvent.Open) as [f st].
  apply (lcp_turn_ok p rand (LcpServer.with_fsm (Ppp.lcp p) f)); [done|done|apply Hinv|].
  cbn in *. rewrite (inv_opened _ Hinv). by apply bool_decide_ext.
Qed.

Lemma ipcp_open_new a local :
  addrs_ok a -> is_v4 local ->
  let '(s, st) := IpcpServer.open (IpcpServer.new a local) in
  ipcp_bounded s /\ IpcpServer.addrs s = a /\ Notify.up (FsmOut.notify st) = false.
Proof.
  intros Ha Hl. pose proof limits_ok as [? _]. unfold IpcpServer.open, IpcpServer.drive, Fsm.step. cbn.
  unfold ipcp_bounded. cbn. split_and!; done || lia.
Qed.

(** A positive verdict: one well-formed frame, then IPCP opens with the assigned addresses. *)
Lemma advance_ok p m i a frame :
  inv p -> addrs_ok a -> Ppp.phase p = Phase.AuthInFlight m -> Access.accepts i m a ->
  wf_frame frame ->
  turn_ok p i (Ppp.advance_to_network (E := E) p (PppStep.push_frame PppStep.default frame) a).
Proof.
  intros Hinv Ha Hph Hacc Hfr. unfold Ppp.advance_to_network. cbn zeta.
  set (a' := AssignedAddrs.with_mtu a _).
  pose proof (ipcp_open_new a' (Ppp.local_ip p) Ha (inv_local _ Hinv)) as Hop. cbn [Ppp.local_ip Ppp.with_phase Ppp.with_addrs].
  destruct (IpcpServer.open _) as [s st]. destruct Hop as (Hb & Has & Hup).
  set (p1 := Ppp.with_phase _ _).
  assert (inv (Ppp.with_ipcp p1 (Some s))) as Hinv1.
  { destruct Hinv as [? ? ? ? _]. split; cbn; [done..|]. by rewrite Has. }
  destruct (render_ipcp_step_ok (Ppp.with_ipcp p1 (Some s)) s st Hinv1 Hb)
    as (p' & out & Heq & Hinv' & Hf & Habs & He & _); [cbn; by rewrite Has|].
  change (Ppp.with_ipcp (Ppp.with_ipcp p1 (Some s)) (Some s)) with (Ppp.with_ipcp p1 (Some s)) in Heq.
  rewrite Heq. cbn [mbind res_bind]. destruct He as [He|[? _]]; [|congruence].
  eexists _, _. split; [done|]. split_and!; [done| |].
  - rewrite He. cbn. by constructor.
  - rewrite He, Habs. cbn. unfold abs. rewrite Hph. cbn.
    eapply Access.grant; [done|]. by eexists.
Qed.

(** A negative verdict: one well-formed frame, then LCP closes. *)
Lemma tear_down_ok p rand i frame :
  inv p -> length (rand : bytes) = 16%nat -> wf_frame frame ->
  turn_ok p i (Ppp.tear_down_after_reject (E := E) p rand (PppStep.push_frame PppStep.default frame)).
Proof.
  intros Hinv Hr Hfr. unfold Ppp.tear_down_after_reject.
  pose proof (lcp_turn p rand (Ppp.lcp p) FsmEvent.Close Hinv Hr) as Ht.
  destruct (LcpServer.drive _ _) as [l st].
  destruct Ht as (p' & out & -> & Hinv' & Hf & He & _); [apply Hinv..|]. cbn [mbind res_bind].
  eexists _, _. split; [done|]. split_and!.
  - destruct Hinv' as [? ? ? ? Hi]. split; cbn; [done..|]. by destruct (Ppp.ipcp p').
  - cbn. by constructor.
  - constructor.
Qed.

Lemma capped_len n msg : 0 <= n -> len (Ppp.capped n msg) <= n.
Proof. intros. unfold Ppp.capped. pose proof (len_sub msg 0 (Z.min (len msg) n)). lia. Qed.

(** The PAP answer to a verdict. *)
Lemma pap_answer_ok code id msg :
  code <> Pap.AuthenticateRequest -> len msg <= 11 ->
  exists f, wf_frame f /\
    (forall (A : Type) (k : bytes -> res E A),
       ('(body, n) ← Pap.encode_response (zeros 16) code id msg;
        body ← slice body 0 n; frame ← encode_pap_frame body; k frame) = k f).
Proof.
  intros Hc Hm. unfold zeros. eexists. split; cycle 1.
  - intros A k. rewrite pap_encode_response_ok by (done || len_lia). cbn [mbind res_bind].
    rewrite slice_ok by len_lia. cbn [mbind res_bind]. rewrite sub_prefix by len_lia.
    rewrite encode_pap_frame_ok. done.
  - eexists 0xC023, _. split_and!; [set_solver| |done]. pose proof limits_ok as [? _].
    cbn [LcpPacket.data]. len_lia.
Qed.

Lemma chap_answer_ok code id msg :
  code = Chap.Success \/ code = Chap.Failure -> len msg <= 255 ->
  exists f, wf_frame f /\ @encode_chap_terminal E code id msg = Ok f.
Proof.
  intros Hc Hm. eexists. rewrite encode_chap_terminal_ok by done. split; [|done].
  eexists 0xC223, _. split_and!; [set_solver| |done]. pose proof limits_ok as [? _]. cbn [LcpPacket.data]. lia.
Qed.

Lemma on_auth_result_ok p rand v :
  inv p -> length (rand : bytes) = 16%nat -> verdict_ok v ->
  turn_ok p (AuthResult v) (Ppp.on_auth_result (E := E) p rand v).
Proof.
  intros Hinv Hr Hv. unfold Ppp.on_auth_result.
  destruct (Ppp.phase p) as [| |m| |] eqn:Hph; try by apply dropped_ok.
  pose proof (fun v => capped_len 11 v) as H11. pose proof (fun v => capped_len 255 v) as H255.
  destruct m, v; try by apply dropped_ok.
  - destruct (pap_answer_ok Pap.AuthenticateAck pap_id []) as (f & Hf & ->); [done|cbn; lia|].
    by eapply advance_ok.
  - destruct (pap_answer_ok Pap.AuthenticateNak pap_id (Ppp.capped 11 message)) as (f & Hf & ->);
      [done|by apply H11|]. by apply tear_down_ok.
  - destruct (chap_answer_ok Chap.Success chap_id []) as (f & Hf & ->); [auto|cbn; lia|].
    by eapply advance_ok.
  - destruct (chap_answer_ok Chap.Failure chap_id (Ppp.capped 255 message)) as (f & Hf & ->);
      [auto|by apply H255|]. by apply tear_down_ok.
Qed.

Lemma on_mschap_result_ok p rand v resp err :
  inv p -> length (rand : bytes) = 16%nat -> verdict_ok v ->
  turn_ok p (MsChapResult v resp err) (Ppp.on_mschap_result (E := E) p rand v resp err).
Proof.
  intros Hinv Hr Hv. unfold Ppp.on_mschap_result.
  destruct (Ppp.phase p) as [| |[| |]| |] eqn:Hph; try by apply dropped_ok.
  destruct v; cbn zeta.
  - destruct (chap_answer_ok Chap.Success chap_id (Ppp.capped 255 (default [] resp)))
      as (f & Hf & ->); [auto|by apply capped_len|]. by eapply advance_ok.
  - set (body := match err with Some s => s | None => _ end).
    destruct (chap_answer_ok Chap.Failure chap_id (Ppp.capped 255 body))
      as (f & Hf & ->); [auto|by apply capped_len|]. by apply tear_down_ok.
Qed.

Lemma decoded_info payload f :
  u8s payload -> decode_frame payload = Ok f ->
  u8s (PppFrame.info f) /\ len (PppFrame.info f) <= len payload.
Proof.
  intros Hu. rewrite decode_frame_eq. set (p := if has_address payload then _ else _).
  assert (u8s p /\ len p <= len payload) as [Hp Hl].
  { unfold p. destruct (has_address payload); [split; [by apply Forall_drop|len_lia]|done]. }
  intros Hd. apply decode_body_ok in Hd; [|done].
  destruct Hd as [[-> _] | [-> _]]; apply Forall_app in Hp as [_ Hp]; split; len_lia || done.
Qed.

Lemma on_frame_ok p rand payload :
  inv p -> length (rand : bytes) = 16%nat -> u8s payload -> len payload <= frame_in ->
  turn_ok p (Frame payload) (Ppp.on_frame (E := E) p rand payload).
Proof.
  intros Hinv Hr Hu Hl. unfold Ppp.on_frame.
  destruct (decode_frame payload) as [f|e|] eqn:Hd; cbn [catch mbind res_bind];
    [|by apply dropped_ok|by apply decode_frame_total in Hd].
  destruct (decoded_info _ _ Hu Hd) as [Hi Hil].
  assert (len (PppFrame.info f) <= frame_in) by lia. cbn zeta.
  destruct (Ppp.phase p) eqn:Hph, (ProtocolId.from_u16 _) as [[]|];
    eauto using dropped_ok, handle_lcp_ok, protocol_reject_ok, handle_pap_ok, handle_chap_ok,
      handle_ipcp_ok.
Qed.

Lemma step_ok p rand i :
  inv p -> length (rand : bytes) = 16%nat -> input_ok i -> turn_ok p i (step (E := E) p rand i).
Proof.
  intros Hinv Hr Hi. destruct i; cbn [step input_ok] in *.
  - by apply open_ok.
  - destruct Hi. by apply on_frame_ok.
  - by apply on_timer_ok.
  - by apply on_auth_result_ok.
  - by apply on_mschap_result_ok.
Qed.

End Turns.

(** ** Properties *)

(** A frame that decodes to a control-protocol packet filling it exactly. *)
Definition decodes (f : bytes) : Prop :=
  exists protocol p, protocol ∈ [0xC021; 0xC023; 0xC223; 0x8021] /\
    decode_frame f = Ok {| PppFrame.protocol := protocol; PppFrame.info := lcp_bytes p |} /\
    decode_lcp_packet (lcp_bytes p) = Ok p.

Lemma wf_frame_decodes {lim : Limits} f : wf_frame f -> decodes f /\ len f <= 8 + body_out.
Proof.
  intros (protocol & p & Hp & Hok & ->). split; [|len_lia].
  exists protocol, p. split; [done|]. split.
  - apply decode_frame_bytes. unfold wide_protocol, u16.
    repeat (apply elem_of_cons in Hp as [->|Hp]; [done|]). by apply elem_of_nil in Hp.
  - rewrite <- (app_nil_r (lcp_bytes p)). apply decode_lcp_bytes.
    pose proof limits_ok as [? _]. unfold lcp_ok. lia.
Qed.

(** C11: The driver never panics on a frame up to the input limit, a timer or a verdict, in any state
    satisfying the invariant, which it preserves; every frame it sends decodes to a packet of LCP,
    IPCP, PAP or CHAP and is no longer than the output limit.  The limits can be those of SSTP data
    packets (4091 bytes in), or 1361 bytes in, which keeps every answer within an SSTP data packet. *)
Theorem driver_total_and_frames_decode {lim : Limits} {bp : BuildProfile} p rand i :
  inv p -> length rand = 16%nat -> input_ok i ->
  exists p' out, step (E := Empty_set) p rand i = Ok (p', out) /\ inv p' /\
    Forall (fun f => decodes f /\ len f <= 8 + body_out) (PppStep.frames out).
Proof.
  intros Hinv Hr Hi. destruct (step_ok (E := Empty_set) p rand i Hinv Hr Hi)
    as (p' & out & Heq & Hinv' & Hf & _).
  exists p', out. split_and!; [done..|]. by eapply Forall_impl; [|apply wf_frame_decodes].
Qed.


(** Sessions: the inputs given to a fresh driver, with the event each one produced. *)
Inductive session {lim : Limits} {bp : BuildProfile} : list (input * option PppEvent.t) -> Ppp.t -> Prop :=
| session_new local m : is_v4 local -> session [] (Ppp.new local m)
| session_step tr p rand i p' out :
    session tr p -> length rand = 16%nat -> input_ok i ->
    step (E := Empty_set) p rand i = Ok (p', out) ->
    session (tr ++ [(i, PppStep.event out)]) p'.

(** What a trace must contain for the specification to be in state [s]. *)
Definition asked_in (tr : list (input * option PppEvent.t)) (m : InFlightMethod.t) : Prop :=
  exists t1 f e t2, tr = t1 ++ (Frame f, Some e) :: t2 /\ Access.asks e m /\
    Forall (fun x => x.2 = None) t2.

Definition granted_in (tr : list (input * option PppEvent.t)) (a : AssignedAddrs.t) : Prop :=
  exists t1 m i b t2, tr = t1 ++ (i, None) :: t2 /\ asked_in t1 m /\ Access.accepts i m b /\
    Access.clamped b a /\ Forall (fun x => x.2 = None \/ x.2 = Some (PppEvent.NetworkUp a)) t2.

Definition justified (tr : list (input * option PppEvent.t)) (s : Access.t) : Prop :=
  match s with
  | Access.Asked m => asked_in tr m
  | Access.Granted a => granted_in tr a
  | _ => True
  end.

Lemma justified_step tr s i e s' :
  justified tr s -> Access.step s i e s' -> justified (tr ++ [(i, e)]) s'.
Proof.
  intros Hj Hs. destruct Hs as [s i|s i|s i|s f e m _ He|m i a a' Hacc Hcl|a f]; cbn; try done.
  - destruct s; cbn in *; try done.
    + destruct Hj as (t1 & f & e & t2 & -> & He & Hq). exists t1, f, e, (t2 ++ [(i, None)]).
      rewrite <- app_assoc. split_and!; [done..|]. apply Forall_app. by repeat constructor.
    + destruct Hj as (t1 & m & v & b & t2 & -> & Hm & Hacc & Hcl & Hq).
      exists t1, m, v, b, (t2 ++ [(i, None)]).
      rewrite <- app_assoc. split_and!; [done..|]. apply Forall_app. split; [done|].
      repeat constructor.
  - exists tr, f, e, []. split_and!; done.
  - exists tr, m, i, a, []. split_and!; done.
  - destruct Hj as (t1 & m & v & b & t2 & -> & Hm & Hacc & Hcl & Hq).
    exists t1, m, v, b, (t2 ++ [(Frame f, Some (PppEvent.NetworkUp a))]).
    rewrite <- app_assoc. split_and!; [done..|]. apply Forall_app. split; [done|].
    constructor; [by right|done].
Qed.

Lemma session_justified {lim : Limits} {bp : BuildProfile} tr p : session tr p -> inv p /\ justified tr (abs p).
Proof.
  induction 1 as [local m Hl|tr p rand i p' out _ [Hinv Hj] Hr Hi Heq].
  - split; [by apply inv_new|done].
  - destruct (step_ok (E := Empty_set) p rand i Hinv Hr Hi) as (p1 & out1 & Heq1 & Hinv' & _ & Ha).
    rewrite Heq in Heq1. injection Heq1 as <- <-. split; [done|]. by eapply justified_step.
Qed.

(** C4: Whatever the peer sends, the network comes up with address set [a] only after the driver asked
    for credentials and then received a positive verdict for that very method, granting [a] up to
    the MTU clamp; nothing else was asked between the request and the verdict, nor between the
    verdict and the network coming up. *)
Theorem network_up_only_after_accept {lim : Limits} {bp : BuildProfile} tr i a p :
  session (tr ++ [(i, Some (PppEvent.NetworkUp a))]) p ->
  exists t1 f e m t2 v b t3,
    tr = t1 ++ (Frame f, Some e) :: t2 ++ (v, None) :: t3 /\
    Access.asks e m /\ Forall (fun x => x.2 = None) t2 /\
    Access.accepts v m b /\ Access.clamped b a /\
    Forall (fun x => x.2 = None \/ x.2 = Some (PppEvent.NetworkUp a)) t3.
Proof.
  intros Hs. inversion Hs as [? ? ? Hn|tr' p0 rand i' p' out Hs0 Hr Hi Heq Htr]; simplify_eq.
  { by destruct tr. }
  apply app_inj_tail in Htr as [-> Hlast]. injection Hlast as -> He.
  destruct (session_justified _ _ Hs0) as [Hinv Hj].
  destruct (step_ok (E := Empty_set) p0 rand i Hinv Hr Hi) as (p1 & out1 & Heq1 & _ & _ & Ha).
  rewrite Heq in Heq1. injection Heq1 as <- <-. rewrite He in Ha.
  generalize dependent (abs p0). intros s0 Hj Ha. clear - Hj Ha.
  inversion Ha; simplify_eq.
  - by destruct m.
  - cbn in Hj.
    destruct Hj as (t1 & m & v & b & t2 & -> & (u1 & g & e & u2 & -> & Hask & Hq) & Hacc & Hcl & Hq').
    exists u1, g, e, m, u2, v, b, t2. rewrite <- app_assoc. done.
Qed.

(** ** A PAP session from link establishment to the network *)

Module Handshake.

#[local] Instance release : BuildProfile := false.
#[local] Existing Instance sstp_limits.

Definition rand : bytes := replicate 16 7.

(** Run a list of inputs, keeping the trace. *)
Fixpoint exec (p : Ppp.t) (ins : list input) : list (input * option PppEvent.t) * option Ppp.t :=
  match ins with
  | [] => ([], Some p)
  | i :: ins =>
      match step (E := Empty_set) p rand i with
      | Ok (p', out) => let '(tr, q) := exec p' ins in ((i, PppStep.event out) :: tr, q)
      | _ => ([], None)
      end
  end.

Lemma exec_session tr p ins tr' q :
  session tr p -> Forall input_ok ins -> exec p ins = (tr', Some q) -> session (tr ++ tr') q.
Proof.
  intros Hs His. revert tr p tr' Hs. induction His as [|i ins Hi _ IH]; intros tr p tr' Hs; cbn [exec].
  - intros [= <- <-]. by rewrite app_nil_r.
  - destruct (step p rand i) as [[p' out]| |] eqn:Heq; [|done|done].
    destruct (exec p' ins) as [tr1 q1] eqn:He. intros [= <- ->].
    rewrite cons_middle, app_assoc. eapply IH; [|done]. by apply (session_step tr p rand i p' out).
Qed.

Definition start : Ppp.t := Ppp.new [10; 0; 0; 1] AuthMethod.Pap.

Definition lcp (c i : Z) (d : bytes) : input := Frame (frame_bytes 0xC021 (lcp_bytes (packet c i d))).
Definition pap (c i : Z) (d : bytes) : input := Frame (frame_bytes 0xC023 (lcp_bytes (packet c i d))).
Definition ipcp (c i : Z) (d : bytes) : input := Frame (frame_bytes 0x8021 (lcp_bytes (packet c i d))).

(** Link establishment with the peer announcing an MRU of 1300, then its credentials. *)
Definition establish : list input :=
  [Open; lcp 2 1 [3; 4; 0xC0; 0x23]; lcp 1 7 [1; 4; 5; 20]; pap 1 9 [1; 0x62; 1; 0x78]].

Definition authenticate : list input := [AuthResult (AuthVerdict.Accept sample_addrs)].

Definition negotiate : list input := [ipcp 2 1 [3; 6; 10; 0; 0; 1]; ipcp 1 4 [3; 6; 10; 0; 0; 7]].

Definition inputs : list input := establish ++ authenticate ++ negotiate.

Lemma frame_input_ok f :
  forallb (fun b => (0 <=? b) && (b <? 256)) f && (len f <=? frame_in) = true ->
  input_ok (Frame f).
Proof.
  intros [Hf Hl]%andb_true_iff. split; [|lia]. apply Forall_forall. intros b Hb.
  apply list_elem_of_In in Hb. eapply forallb_forall in Hf; [|done]. unfold u8. lia.
Qed.

Lemma inputs_ok : Forall input_ok inputs.
Proof.
  repeat (apply List.Forall_cons;
          [first [by apply frame_input_ok | exact sample_addrs_ok | done]|]).
  apply List.Forall_nil.
Qed.

Definition granted : AssignedAddrs.t := AssignedAddrs.with_mtu sample_addrs (Some 1300).

Definition trace : list (input * option PppEvent.t) := Eval vm_compute in (exec start inputs).1.

Definition last_input : input := ipcp 1 4 [3; 6; 10; 0; 0; 7].

Definition final : Ppp.t := Eval vm_compute in default start (exec start inputs).2.

Lemma handshake_session :
  session (take 6 trace ++ [(last_input, Some (PppEvent.NetworkUp granted))]) final.
Proof.
  apply (exec_session [] start inputs); [by constructor|apply inputs_ok|by vm_compute].
Qed.

Lemma network_up_only_after_accept_witness :
  exists t1 f e m t2 v b t3,
    take 6 trace = t1 ++ (Frame f, Some e) :: t2 ++ (v, None) :: t3 /\
    Access.asks e m /\ Forall (fun x => x.2 = None) t2 /\
    Access.accepts v m b /\ Access.clamped b granted /\
    Forall (fun x => x.2 = None \/ x.2 = Some (PppEvent.NetworkUp granted)) t3.
Proof. exact (network_up_only_after_accept _ _ _ _ handshake_session). Defined.

(** The state awaiting the verdict on the peer's credentials, and the one after a positive verdict. *)
Definition in_flight : Ppp.t := Eval vm_compute in default start (exec start establish).2.

Definition accepted : Ppp.t * PppStep.t := Eval vm_compute in
  match step (E := Empty_set) in_flight rand (AuthResult (AuthVerdict.Accept sample_addrs)) with
  | Ok x => x
  | _ => (start, PppStep.default)
  end.

Lemma in_flight_inv : inv in_flight.
Proof.
  apply (session_justified (take 4 trace)).
  apply (exec_session [] start establish (take 4 trace)); [by constructor| |by vm_compute].
  pose proof inputs_ok as Hok. unfold inputs in Hok. by apply Forall_app in Hok as [Hok _].
Qed.

Lemma driver_total_and_frames_decode_witness :
  exists p' out,
    step (E := Empty_set) in_flight rand (AuthResult (AuthVerdict.Accept sample_addrs)) = Ok (p', out) /\
    inv p' /\ Forall (fun f => decodes f /\ len f <= 65539) (PppStep.frames out).
Proof.
  exact (driver_total_and_frames_decode in_flight rand (AuthResult (AuthVerdict.Accept sample_addrs))
           in_flight_inv eq_refl sample_addrs_ok).
Defined.


End Handshake.
