(* ===== verification/PppReplies.v ===== *)
(** What the PPP driver answers to the packets of the peer, bytes to bytes: theorems on
    [Ppp::on_frame] of [src/src/ppp/driver.rs] for Configure-Requests, Echo-Requests, unknown
    protocols and authentication packets, and two places where the answer depends on more, or on
    less, than it should. *)

From S2P Require Import Prelude PppFrame Lcp PppFsm PppAuth PppDriver PppClassify PppAccess.

#[local] Arguments lcp_bytes : simpl never.
#[local] Arguments frame_bytes : simpl never.
#[local] Arguments opts_bytes : simpl never.
#[local] Arguments Fsm.step : simpl never.
#[local] Arguments LcpServer.classify_configure_request : simpl never.
#[local] Arguments IpcpServer.classify_configure_request : simpl never.

#[local] Existing Instance sstp_limits.

(** States in which the automaton negotiates. *)
Definition negotiating (st : FsmState.t) : bool :=
  match st with
  | FsmState.ReqSent | FsmState.AckRcvd | FsmState.AckSent | FsmState.Opened => true
  | _ => false
  end.

(** The packet answering a Configure-Request, by the verdict on it. *)
Definition answer_to (ev : FsmEvent.t) : Send.t :=
  match ev with FsmEvent.RcvConfigReqGood => Send.ConfigureAck | _ => Send.ConfigureNak end.

Lemma request_answered f ev :
  negotiating (Fsm.state f) = true ->
  ev = FsmEvent.RcvConfigReqGood \/ ev = FsmEvent.RcvConfigReqBad ->
  let st := (Fsm.step f ev).2 in
  (FsmOut.send st = Some (answer_to ev) /\ FsmOut.send_extra st = None) \/
  (FsmOut.send st = Some Send.ConfigureRequest /\ FsmOut.send_extra st = Some (answer_to ev)).
Proof.
  destruct f as [st i c g mc mt mf]. intros Hn [-> | ->]; destruct st; try done; unfold Fsm.step; cbn; auto.
Qed.

Section Replies.
Context {bp : BuildProfile} {E : Type}.

Lemma on_frame_lcp p rand pkt :
  lcp_ok pkt -> Ppp.on_frame (E := E) p rand (lcp_frame pkt) = Ppp.handle_lcp p rand (lcp_bytes pkt).
Proof.
  intros _. unfold Ppp.on_frame, lcp_frame. rewrite decode_frame_bytes by done. cbn [catch mbind res_bind].
  cbn. by destruct (Ppp.phase p).
Qed.

Lemma handle_lcp_decoded p rand pkt :
  lcp_ok pkt ->
  Ppp.handle_lcp (E := E) p rand (lcp_bytes pkt)
  = '(l, st) ← LcpServer.on_packet (Ppp.lcp p) pkt; Ppp.render_lcp_step (Ppp.with_lcp p l) rand st.
Proof.
  intros Hok. unfold Ppp.handle_lcp. rewrite <- (app_nil_r (lcp_bytes pkt)), decode_lcp_bytes by done.
  done.
Qed.

(** The frames of a turn on an LCP packet start with what the automaton sends. *)
Lemma lcp_frames_sent p rand pkt s ev :
  lcp_ok pkt -> length rand = 16%nat -> lcp_bounded s ->
  LcpServer.on_packet (E := E) (Ppp.lcp p) pkt = Ok (LcpServer.drive s ev) ->
  exists p' out, Ppp.on_frame (E := E) p rand (lcp_frame pkt) = Ok (p', out) /\
    let '(f, st) := Fsm.step (LcpServer.fsm s) ev in
    lcp_sends (LcpServer.with_fsm s f) st `prefix_of` PppStep.frames out.
Proof.
  intros Hok Hr Hb Hp. rewrite on_frame_lcp, handle_lcp_decoded, Hp by done. cbn [mbind res_bind].
  unfold LcpServer.drive. destruct (Fsm.step (LcpServer.fsm s) ev) as [f st].
  destruct (render_lcp_step_ok (E := E) (Ppp.with_lcp p (LcpServer.with_fsm s f)) rand st Hr Hb)
    as (p' & out & Heq & _ & _ & _ & Hpre).
  by exists p', out.
Qed.

End Replies.

(** ** Properties *)

(** While LCP negotiates or is open, every well-formed Configure-Request is answered by a frame
    with the request's identifier: a Configure-Ack repeating all options when every one is
    acceptable, otherwise a Configure-Reject listing exactly the unacceptable ones. *)
Theorem lcp_request_answered {bp : BuildProfile} p rand id os :
  inv p -> length rand = 16%nat -> Forall option_ok os -> len (opts_bytes os) <= 4083 ->
  negotiating (Fsm.state (LcpServer.fsm (Ppp.lcp p))) = true ->
  exists p' out,
    Ppp.on_frame (E := Empty_set) p rand (lcp_frame (packet 1 id (opts_bytes os))) = Ok (p', out) /\
    lcp_frame (if forallb lcp_acceptable os then packet 2 id (opts_bytes os)
               else packet 4 id (opts_bytes (lcp_refused os))) ∈ PppStep.frames out.
Proof.
  intros Hinv Hr Hos Hl Hn.
  set (good := forallb lcp_acceptable os).
  set (s := LcpServer.with_cr (Ppp.lcp p) id (opts_bytes os) (opts_bytes (lcp_refused os)) true
              (last_mru (LcpServer.peer_mru (Ppp.lcp p)) os)).
  set (ev := if good then FsmEvent.RcvConfigReqGood else FsmEvent.RcvConfigReqBad).
  destruct (lcp_frames_sent (E := Empty_set) p rand (packet 1 id (opts_bytes os)) s ev)
    as (p' & out & Heq & Hpre).
  - unfold lcp_ok. cbn [LcpPacket.data]. lia.
  - done.
  - pose proof (len_opts_refused os). destruct (inv_lcp _ Hinv) as (? & ? & ?).
    unfold lcp_bounded. cbn in *. lia.
  - unfold LcpServer.on_packet. cbn [LcpPacket.typed_code LcpPacket.code].
    change (LcpCode.from_u8 1) with (Some LcpCode.ConfigureRequest). cbn.
    by rewrite lcp_classify_wf.
  - exists p', out. split; [done|]. pose proof (request_answered (LcpServer.fsm s) ev Hn) as Ha.
    destruct (Fsm.step (LcpServer.fsm s) ev) as [f st] eqn:Hst. cbn in Ha.
    eapply elem_of_prefix; [|done]. unfold lcp_sends.
    destruct Ha as [[-> ->] | [-> ->]]; [by destruct good; auto| |];
      unfold ev; destruct good; cbn; set_solver.
Qed.

Lemma lcp_request_answered_witness :
  exists p' out,
    Ppp.on_frame (bp := false) (E := Empty_set) Handshake.in_flight Handshake.rand
      (lcp_frame (packet 1 5 (opts_bytes [{| ConfigOption.option_type := 4; ConfigOption.value := [1] |}])))
    = Ok (p', out) /\
    lcp_frame (packet 4 5 (opts_bytes [{| ConfigOption.option_type := 4; ConfigOption.value := [1] |}]))
      ∈ PppStep.frames out.
Proof.
  apply (lcp_request_answered (bp := false) Handshake.in_flight Handshake.rand 5
           [{| ConfigOption.option_type := 4; ConfigOption.value := [1] |}] Handshake.in_flight_inv);
    [done|by repeat constructor|done|done].
Defined.

(** The packet answering an IPCP Configure-Request. *)
Definition ipcp_reply (a : AssignedAddrs.t) (id : Z) (os : list ConfigOption.t) : LcpPacket.t :=
  match omap (IpcpPolicy.refusal a) os, omap (IpcpPolicy.suggestion a) os with
  | [], [] => packet 2 id (opts_bytes os)
  | [], naks => packet 3 id (opts_bytes naks)
  | refused, _ => packet 4 id (opts_bytes refused)
  end.

(** The automaton's answer, rendered with the state the classification leaves, is [ipcp_reply]. *)
Lemma answer_reply s id os :
  let '(s', ev) := IpcpPolicy.answer s id (opts_bytes os) os in
  IpcpServer.fsm s' = IpcpServer.fsm s /\
  (ev = FsmEvent.RcvConfigReqGood \/ ev = FsmEvent.RcvConfigReqBad) /\
  forall f, ipcp_packet (IpcpServer.with_fsm s' f) (answer_to ev)
            = Some (ipcp_reply (IpcpServer.addrs s) id os).
Proof.
  unfold IpcpPolicy.answer, ipcp_reply.
  destruct (omap (IpcpPolicy.refusal (IpcpServer.addrs s)) os),
    (omap (IpcpPolicy.suggestion (IpcpServer.addrs s)) os); cbn; auto.
Qed.

Lemma on_frame_ipcp {bp : BuildProfile} {E} p rand pkt s :
  lcp_ok pkt -> Ppp.phase p = Phase.Network -> Ppp.ipcp p = Some s ->
  Ppp.on_frame (E := E) p rand (ipcp_frame pkt)
  = '(s, st) ← IpcpServer.on_packet s pkt; Ppp.render_ipcp_step (Ppp.with_ipcp p (Some s)) st.
Proof.
  intros Hok Hph Hs. unfold Ppp.on_frame, ipcp_frame. rewrite decode_frame_bytes by done.
  cbn [catch mbind res_bind PppFrame.info PppFrame.protocol]. rewrite Hph.
  change (ProtocolId.from_u16 32801) with (Some ProtocolId.Ipcp). cbn iota zeta.
  unfold Ppp.handle_ipcp. rewrite <- (app_nil_r (lcp_bytes pkt)), decode_lcp_bytes, Hs by done. done.
Qed.

(** Once authenticated, every well-formed IPCP Configure-Request received while IPCP negotiates or
    is open is answered by a frame with its identifier: a Configure-Ack only if every option has the
    assigned value, else a Configure-Reject of the options without one, else a Configure-Nak with
    the assigned values. *)
Theorem ipcp_request_answered {bp : BuildProfile} p rand s id os :
  inv p -> Ppp.phase p = Phase.Network -> Ppp.ipcp p = Some s -> Forall option_ok os ->
  len (opts_bytes os) <= 4083 -> negotiating (Fsm.state (IpcpServer.fsm s)) = true ->
  exists p' out,
    Ppp.on_frame (E := Empty_set) p rand (ipcp_frame (packet 1 id (opts_bytes os))) = Ok (p', out) /\
    ipcp_frame (ipcp_reply (IpcpServer.addrs s) id os) ∈ PppStep.frames out.
Proof.
  intros Hinv Hph Hs Hos Hl Hn.
  pose proof (inv_ipcp _ Hinv) as Hip. rewrite Hs in Hip. destruct Hip as [Hb Ha].
  rewrite (on_frame_ipcp p rand _ s) by (done || (unfold lcp_ok; cbn [LcpPacket.data]; lia)).
  unfold IpcpServer.on_packet. cbn [LcpPacket.code LcpPacket.identifier LcpPacket.data].
  change (IpcpCode.from_u8 1) with (Some IpcpCode.ConfigureRequest). cbn iota.
  rewrite ipcp_classify_wf by (done || apply Hb).
  pose proof (answer_ok s id (opts_bytes os) os Hb) as [Hb' Ha']; [cbn; lia|lia|].
  pose proof (answer_reply s id os) as Hans.
  destruct (IpcpPolicy.answer s id (opts_bytes os) os) as [s' ev]. destruct Hans as (Hf & Hev & Hpk).
  cbn [mbind res_bind]. unfold IpcpServer.drive. rewrite Hf.
  pose proof (request_answered (IpcpServer.fsm s) ev Hn Hev) as Hsend.
  destruct (Fsm.step (IpcpServer.fsm s) ev) as [f st].
  destruct (render_ipcp_step_ok (E := Empty_set) p (IpcpServer.with_fsm s' f) st Hinv Hb')
    as (p' & out & Heq & _ & _ & _ & _ & Hfr); [cbn in *; congruence|].
  exists p', out. split; [done|]. rewrite Hfr. unfold ipcp_sends. cbn in Hsend.
  destruct Hsend as [[-> ->] | [-> ->]]; cbn [mbind option_bind].
  - rewrite Hpk. cbn. set_solver.
  - unfold ipcp_bumped. cbn [Fsm.transmits].
    change (IpcpServer.bump (IpcpServer.with_fsm s' f)).1
      with (IpcpServer.with_fsm s' (Fsm.bump_identifier f).1).
    rewrite Hpk. apply elem_of_app. right. cbn. set_solver.
Qed.

Lemma accepted_inv : inv Handshake.accepted.1.
Proof.
  destruct (step_ok (bp := false) (E := Empty_set) Handshake.in_flight Handshake.rand
              (AuthResult (AuthVerdict.Accept sample_addrs)) Handshake.in_flight_inv eq_refl
              sample_addrs_ok) as (p' & out & Heq & Hinv & _).
  vm_compute in Heq. by injection Heq as <- _.
Qed.

Definition accepted_ipcp : IpcpServer.t := Eval vm_compute in
  default (IpcpServer.new sample_addrs []) (Ppp.ipcp Handshake.accepted.1).

(** The peer proposes 0.0.0.0 and asks for a secondary DNS server, of which there is none. *)
Lemma ipcp_request_answered_witness :
  let os := [{| ConfigOption.option_type := 3; ConfigOption.value := [0; 0; 0; 0] |};
             {| ConfigOption.option_type := 131; ConfigOption.value := [0; 0; 0; 0] |}] in
  ipcp_reply (IpcpServer.addrs accepted_ipcp) 8 os = packet 4 8 [131; 6; 0; 0; 0; 0] /\
  exists p' out,
    Ppp.on_frame (bp := false) (E := Empty_set) Handshake.accepted.1 Handshake.rand
      (ipcp_frame (packet 1 8 (opts_bytes os))) = Ok (p', out) /\
    ipcp_frame (ipcp_reply (IpcpServer.addrs accepted_ipcp) 8 os) ∈ PppStep.frames out.
Proof.
  intros os. split; [done|].
  apply (ipcp_request_answered (bp := false) Handshake.accepted.1 Handshake.rand accepted_ipcp 8 os
           accepted_inv); [done|done| |done|done].
  by repeat (constructor; [done|]).
Defined.

(** Once LCP is open, an Echo-Request is answered by exactly one Echo-Reply with its identifier, a
    zero magic number and the request's data after the magic number, and changes nothing else; an
    Echo-Reply or Discard-Request is never answered. *)
Theorem echo_answered {bp : BuildProfile} p rand code id d :
  inv p -> length rand = 16%nat -> len d <= 4083 -> code = 9 \/ code = 10 \/ code = 11 ->
  Fsm.state (LcpServer.fsm (Ppp.lcp p)) = FsmState.Opened ->
  exists out,
    Ppp.on_frame (E := Empty_set) p rand (lcp_frame (packet code id d))
    = Ok (Ppp.with_lcp p (LcpServer.with_echo (Ppp.lcp p) code id d), out) /\
    PppStep.frames out = (if code =? 9 then [lcp_frame (packet 10 id ([0; 0; 0; 0] ++ drop 4 d))] else []) /\
    PppStep.timer_starts out = [] /\ PppStep.timer_stops out = [] /\ PppStep.event out = None /\
    PppStep.finished out = false.
Proof.
  intros Hinv Hr Hd Hc Hst. pose proof (inv_lcp _ Hinv) as Hb.
  assert (lcp_ok (packet code id d)) as Hok by (unfold lcp_ok; cbn [LcpPacket.data]; lia).
  rewrite on_frame_lcp, handle_lcp_decoded by done.
  set (s := LcpServer.with_echo (Ppp.lcp p) code id d).
  assert (LcpServer.on_packet (E := Empty_set) (Ppp.lcp p) (packet code id d)
          = Ok (s, FsmOut.make FsmState.Opened (Some Send.EchoReply) None None Notify.none)) as ->.
  { unfold LcpServer.on_packet, LcpServer.drive, LcpPacket.typed_code. cbn [LcpPacket.code].
    destruct (Ppp.lcp p) as [f ? ? ? ? ? ? ? ? ? ?], f as [st ? ? ? ? ? ?]. cbn in Hst. subst st.
    destruct Hc as [-> | [-> | ->]]; done. }
  cbn [mbind res_bind]. unfold Ppp.render_lcp_step. cbn [Ppp.lcp Ppp.with_lcp].
  assert (lcp_bounded s) by (destruct Hb as (? & ? & ?); unfold lcp_bounded; cbn in *; lia).
  rewrite !lcp_render_ok by done. cbn -[lcp_packet].
  eexists. split; [done|]. cbn. destruct Hc as [-> | [-> | ->]]; done.
Qed.

Lemma echo_answered_witness :
  exists out,
    Ppp.on_frame (bp := false) (E := Empty_set) Handshake.in_flight Handshake.rand
      (lcp_frame (packet 9 3 [1; 2; 3; 4; 5; 6]))
    = Ok (Ppp.with_lcp Handshake.in_flight
            (LcpServer.with_echo (Ppp.lcp Handshake.in_flight) 9 3 [1; 2; 3; 4; 5; 6]), out) /\
    PppStep.frames out = [lcp_frame (packet 10 3 [0; 0; 0; 0; 5; 6])] /\
    PppStep.timer_starts out = [] /\ PppStep.timer_stops out = [] /\ PppStep.event out = None /\
    PppStep.finished out = false.
Proof.
  apply (echo_answered (bp := false) Handshake.in_flight Handshake.rand 9 3 [1; 2; 3; 4; 5; 6]
           Handshake.in_flight_inv); [done|done|by left|done].
Defined.

(** A frame of a protocol the server does not speak is answered, once LCP is open, by a
    Protocol-Reject with a fresh identifier, the rejected protocol and at most 1494 bytes of its
    information field; before that it is discarded. *)
Theorem unknown_protocol_rejected {bp : BuildProfile} p rand protocol info :
  wide_protocol protocol -> ProtocolId.from_u16 protocol = None ->
  exists p' out,
    Ppp.on_frame (E := Empty_set) p rand (frame_bytes protocol info) = Ok (p', out) /\
    PppStep.event out = None /\
    if LcpServer.opened (Ppp.lcp p) then
      p' = Ppp.with_extra_id p (wrapping_add_u8 (Ppp.lcp_extra_id_counter p) 1) /\
      PppStep.frames out
      = [lcp_frame (packet 8 (Ppp.lcp_extra_id_counter p) (to_be16 protocol ++ take 1494 info))]
    else p' = p /\ out = PppStep.default.
Proof.
  intros Hp Hn. unfold Ppp.on_frame. rewrite decode_frame_bytes by done.
  cbn [catch mbind res_bind PppFrame.protocol PppFrame.info]. rewrite Hn. cbn zeta.
  replace (match Ppp.phase p with _ => _ end) with (Ppp.protocol_reject (E := Empty_set) p protocol info)
    by (by destruct (Ppp.phase p)).
  unfold Ppp.protocol_reject, DEFAULT_MRU, LCP_HEADER_LEN, saturating_sub.
  destruct (LcpServer.opened _) eqn:Ho; cbn [negb]; [|by eexists _, _].
  rewrite slice_ok by lia. cbn [mbind res_bind].
  change (Z.max 0 (Z.max 0 (1500 - 4) - 2)) with 1494.
  replace (sub info 0 (Z.min (len info) 1494)) with (take 1494 info).
  2: { unfold sub. rewrite drop_0. destruct (decide (len info <= 1494)).
       - rewrite !take_ge by lia. done.
       - f_equal. lia. }
  unfold encode_lcp_frame. rewrite encode_protocol_packet_ok by len_lia. cbn.
  eexists _, _. split; [done|]. done.
Qed.

(** Windows clients probe CCP. *)
Lemma unknown_protocol_rejected_witness :
  exists p' out,
    Ppp.on_frame (bp := false) (E := Empty_set) Handshake.in_flight Handshake.rand
      (frame_bytes 0x80FD [1; 1; 0; 4]) = Ok (p', out) /\
    PppStep.event out = None /\
    p' = Ppp.with_extra_id Handshake.in_flight 1 /\
    PppStep.frames out = [lcp_frame (packet 8 0 [0x80; 0xFD; 1; 1; 0; 4])].
Proof.
  apply (unknown_protocol_rejected (bp := false) Handshake.in_flight Handshake.rand 0x80FD [1; 1; 0; 4]);
    done.
Defined.

(** ** Authentication packets *)

(** The phases in which authentication packets are read. *)
Definition authenticating (p : Phase.t) : bool :=
  match p with Phase.AuthPending | Phase.AuthInFlight _ => true | _ => false end.

(** While authenticating, a PAP Authenticate-Request is taken as the peer's credentials whichever
    method the server advertised in LCP: a peer told to use CHAP or MS-CHAPv2 can still send its
    password in clear and be authenticated with it. *)
Theorem pap_taken_under_any_method {bp : BuildProfile} p rand r :
  authenticating (Ppp.phase p) = true -> len (Pap.peer_id r) <= 255 -> len (Pap.password r) <= 255 ->
  Ppp.on_frame (E := Empty_set) p rand
    (frame_bytes 0xC023 (lcp_bytes (packet 1 (Pap.identifier r) (pap_body r))))
  = Ok (Ppp.with_phase p (Phase.AuthInFlight (InFlightMethod.Pap (Pap.identifier r))),
        PppStep.with_event PppStep.default
          (Some (PppEvent.NeedPapAuth (Pap.peer_id r) (Pap.password r)))).
Proof.
  intros Hph H1 H2. unfold Ppp.on_frame. rewrite decode_frame_bytes by done.
  cbn [catch mbind res_bind PppFrame.protocol PppFrame.info].
  change (ProtocolId.from_u16 49187) with (Some ProtocolId.Pap).
  transitivity (Ppp.handle_pap (E := Empty_set) p
                  (lcp_bytes (packet 1 (Pap.identifier r) (pap_body r)))).
  { by destruct (Ppp.phase p). }
  unfold Ppp.handle_pap. rewrite (pap_request_of r) by done. done.
Qed.

Definition mschap_pending : Ppp.t :=
  Ppp.with_phase (Ppp.new [10; 0; 0; 1] AuthMethod.MsChapV2) Phase.AuthPending.

Lemma pap_taken_under_any_method_witness :
  let r := {| Pap.identifier := 1; Pap.peer_id := [0x62]; Pap.password := [0x78] |} in
  LcpServer.auth_method (Ppp.lcp mschap_pending) = AuthMethod.MsChapV2 /\
  Ppp.on_frame (bp := false) (E := Empty_set) mschap_pending Handshake.rand
    (frame_bytes 0xC023 (lcp_bytes (packet 1 1 (pap_body r))))
  = Ok (Ppp.with_phase mschap_pending (Phase.AuthInFlight (InFlightMethod.Pap 1)),
        PppStep.with_event PppStep.default (Some (PppEvent.NeedPapAuth [0x62] [0x78]))).
Proof.
  intros r. split; [done|].
  apply (pap_taken_under_any_method (bp := false) mschap_pending Handshake.rand r); done.
Defined.

(** The credentials the driver hands out for a CHAP packet [r] answering [challenge]: the packet must
    have the value layout of the method advertised. *)
Definition chap_credentials (m : AuthMethod.t) (challenge : bytes) (r : Chap.challenge_response)
    : option (InFlightMethod.t * PppEvent.t) :=
  let id := Chap.identifier r in
  let v := Chap.value r in
  match m with
  | AuthMethod.Pap => None
  | AuthMethod.ChapMd5 =>
      if len v =? 16
      then Some (InFlightMethod.Chap id, PppEvent.NeedChapAuth (Chap.name r) id challenge v) else None
  | AuthMethod.MsChapV2 =>
      if (len v =? 49) && bool_decide (sub v 16 24 = replicate 8 0)
      then Some (InFlightMethod.MsChapV2 id,
                 PppEvent.NeedMsChapV2Auth (Chap.name r) id challenge (sub v 0 16) (sub v 24 48)
                   (byte_at v 48))
      else None
  end.

Lemma reserved_zero v :
  len v = 49 ->
  existsb (fun b => negb (b =? 0)) (sub v 16 24) = negb (bool_decide (sub v 16 24 = replicate 8 0)).
Proof.
  intros Hv. pose proof (len_sub v 16 24) as Hl. remember (sub v 16 24) as l. clear Heql.
  case_bool_decide as H; [by subst l|]. cbn [negb].
  apply existsb_exists. destruct (decide (Forall (fun b => 0 = b) l)) as [Hz|Hz].
  - exfalso. apply H. symmetry. apply replicate_as_Forall. split; [lia|done].
  - apply not_Forall_Exists in Hz; [|apply _]. apply Exists_exists in Hz as (b & Hb & Hz).
    exists b. split; [by apply list_elem_of_In|]. cbn in Hz. lia.
Qed.

(** While authenticating, a CHAP packet is turned into a credential request exactly when its value
    has the layout of the advertised method, with the challenge the server sent and the packet's own
    identifier; otherwise it is dropped.  This holds for code 1 (Challenge) as well as code 2
    (Response), and for any identifier. *)
Theorem chap_response_forwarded {bp : BuildProfile} p rand code r challenge :
  inv p -> authenticating (Ppp.phase p) = true -> Ppp.chap_challenge p = Some challenge ->
  code = 1 \/ code = 2 -> len (Chap.value r) <= 255 -> len (Chap.name r) <= 3800 ->
  Ppp.on_frame (E := Empty_set) p rand
    (frame_bytes 0xC223 (lcp_bytes (packet code (Chap.identifier r) (chap_body r))))
  = Ok match chap_credentials (LcpServer.auth_method (Ppp.lcp p)) challenge r with
       | Some (m, e) => (Ppp.with_phase p (Phase.AuthInFlight m),
                         PppStep.with_event PppStep.default (Some e))
       | None => (p, PppStep.default)
       end.
Proof.
  intros Hinv Hph Hch Hc H1 H2. pose proof (inv_challenge _ Hinv _ Hch) as H16.
  unfold Ppp.on_frame. rewrite decode_frame_bytes by done.
  cbn [catch mbind res_bind PppFrame.protocol PppFrame.info].
  change (ProtocolId.from_u16 49699) with (Some ProtocolId.Chap).
  transitivity (Ppp.handle_chap (E := Empty_set) p
                  (lcp_bytes (packet code (Chap.identifier r) (chap_body r)))).
  { by destruct (Ppp.phase p). }
  unfold Ppp.handle_chap, chap_credentials.
  rewrite chap_response_of by (done || unfold chap_body; len_lia).
  cbn [catch mbind res_bind]. rewrite Hch.
  destruct (LcpServer.auth_method (Ppp.lcp p)); [done| |].
  - destruct (len _ =? 16) eqn:Hl; cbn [negb]; [|done].
    change (zeros 16) with ([] ++ zeros 16). rewrite copy_slice_app by (unfold zeros; len_lia).
    rewrite drop_ge by (unfold zeros; len_lia). by rewrite app_nil_r.
  - destruct (len _ =? 49) eqn:Hl; cbn [negb andb]; [|done].
    rewrite !slice_ok by lia. cbn [mbind res_bind]. rewrite reserved_zero by lia.
    case_bool_decide; cbn [negb]; [|done]. rewrite idx_ok by lia. cbn [mbind res_bind].
    change (zeros 16) with ([] ++ zeros 16). rewrite copy_slice_app by (unfold zeros; len_lia).
    rewrite drop_ge by (unfold zeros; len_lia). by rewrite app_nil_r.
Qed.

Module Stray.

#[local] Instance release : BuildProfile := false.

(** A link that advertised CHAP-MD5 and has sent its challenge. *)
Definition chap_inputs : list input :=
  [Open; Handshake.lcp 2 1 [3; 5; 0xC2; 0x23; 5]; Handshake.lcp 1 7 []].

Definition chap_start : Ppp.t := Ppp.new [10; 0; 0; 1] AuthMethod.ChapMd5.

Definition chap_trace : list (input * option PppEvent.t) := Eval vm_compute in
  (Handshake.exec chap_start chap_inputs).1.

Definition chap_pending : Ppp.t := Eval vm_compute in
  default chap_start (Handshake.exec chap_start chap_inputs).2.

Lemma chap_pending_inv : inv chap_pending.
Proof.
  apply (session_justified chap_trace).
  apply (Handshake.exec_session [] chap_start chap_inputs chap_trace); [by constructor| |by vm_compute].
  repeat (apply List.Forall_cons; [first [by apply Handshake.frame_input_ok | done]|]).
  apply List.Forall_nil.
Qed.

(** A Challenge from the peer, with an identifier the server never used, is taken as a Response. *)
Lemma chap_response_forwarded_witness :
  let r := {| Chap.identifier := 200; Chap.value := replicate 16 5; Chap.name := [0x62] |} in
  Ppp.on_frame (E := Empty_set) chap_pending Handshake.rand
    (frame_bytes 0xC223 (lcp_bytes (packet 1 200 (chap_body r))))
  = Ok (Ppp.with_phase chap_pending (Phase.AuthInFlight (InFlightMethod.Chap 200)),
        PppStep.with_event PppStep.default
          (Some (PppEvent.NeedChapAuth [0x62] 200 Handshake.rand (replicate 16 5)))).
Proof.
  intros r. apply (chap_response_forwarded chap_pending Handshake.rand 1 r Handshake.rand chap_pending_inv);
    [done|done|by left|done|done].
Defined.

(** The peer renegotiates LCP after the verdict, then goes on with IPCP. *)
Definition reneg_inputs : list input :=
  Handshake.establish ++ Handshake.authenticate ++ [Handshake.lcp 1 8 []] ++ Handshake.negotiate.

Definition reneg_trace : list (input * option PppEvent.t) := Eval vm_compute in
  (Handshake.exec Handshake.start reneg_inputs).1.

Definition reneg_final : Ppp.t := Eval vm_compute in
  default Handshake.start (Handshake.exec Handshake.start reneg_inputs).2.

Lemma reneg_session : session reneg_trace reneg_final.
Proof.
  apply (Handshake.exec_session [] Handshake.start reneg_inputs reneg_trace);
    [by constructor| |by vm_compute].
  repeat (apply List.Forall_cons;
          [first [by apply Handshake.frame_input_ok | exact sample_addrs_ok | done]|]).
  apply List.Forall_nil.
Qed.

End Stray.

(** The network can come up on a link whose LCP is not open: an LCP Configure-Request received in
    the network phase takes LCP out of Opened but does not end the phase, and IPCP then converges. *)
Theorem network_up_without_open_lcp :
  exists tr i a p,
    session (bp := false) (tr ++ [(i, Some (PppEvent.NetworkUp a))]) p /\
    LcpServer.opened (Ppp.lcp p) = false /\
    Fsm.state (LcpServer.fsm (Ppp.lcp p)) <> FsmState.Opened.
Proof.
  exists (take 7 Stray.reneg_trace), Handshake.last_input, Handshake.granted, Stray.reneg_final.
  split; [exact Stray.reneg_session|done].
Qed.
