(* ===== verification/Session.v ===== *)
(** The session task: [src/src/session.rs] ([drive_sstp] and its handlers) and
    [TunSession::read_frame] of [src/src/kppp/tun.rs].

    [Session.t] holds the task's locals that decide what happens next: the SSTP server, the PPP
    driver, the PPP timer slot, the data path, the pending HLAK and the two buffers.  [Session.step]
    is one turn of the event loop, from bytes read to bytes written.  The RADIUS server behind the
    authentication bridge, the kernel's answer to a data-path bring-up and the random generator are
    the [Environment].  Accounting, shaping, routes and MSS clamping leave these outputs unchanged; they
    are in [Task.v].  Socket writes succeed. *)

From S2P Require Import Prelude SstpFrame SstpAttr SstpMsg Crypto SstpBinding SstpState SstpServer.
From S2P Require Import PppFrame Lcp PppFsm PppAuth PppDriver.

(** ** The NP-mode filter *)

Module NpFilter.

Inductive t := NotNetworkLayer | Forward | DropPreIpcp | DropMruExceeded.

#[global] Instance t_eq_dec : EqDecision t.
Proof. solve_decision. Defined.

End NpFilter.

Definition np_filter_decide (network_ready : bool) (mtu protocol info_len : Z) : NpFilter.t :=
  match ProtocolId.from_u16 protocol with
  | None => NpFilter.NotNetworkLayer
  | Some p =>
      if negb (ProtocolId.is_network_layer p) then NpFilter.NotNetworkLayer
      else if negb network_ready then NpFilter.DropPreIpcp
      else if info_len >? mtu then NpFilter.DropMruExceeded
      else NpFilter.Forward
  end.

(** ** The environment *)

Module KpppSession.

(** A data path that came up: which backend, and its MTU. *)
Record t := { is_kernel : bool; mtu : Z }.

End KpppSession.

Module MsChapOutcome.

Record t := {
  verdict : AuthVerdict.t;
  auth_response : option bytes;
  error_string : option bytes;
  hlak : option bytes
}.

End MsChapOutcome.

(** A question to the RADIUS server, as the bridge submits it; [turn] tells repeated questions apart,
    so that the same credentials may get different verdicts. *)
Inductive query :=
| SubmitPap (turn : nat) (user password : bytes)
| SubmitChap (turn : nat) (user : bytes) (chap_id : Z) (response challenge : bytes)
| SubmitMsChapV2 (turn : nat) (user : bytes) (chap_id : Z)
    (authenticator_challenge peer_challenge nt_response : bytes) (flags : Z).

Class Environment := {
  submit_pap (turn : nat) (user password : bytes) : AuthVerdict.t;
  submit_chap (turn : nat) (user : bytes) (chap_id : Z) (response challenge : bytes) : AuthVerdict.t;
  submit_mschapv2 (turn : nat) (user : bytes) (chap_id : Z)
    (authenticator_challenge peer_challenge nt_response : bytes) (flags : Z) : MsChapOutcome.t;
  bring_up (addrs : AssignedAddrs.t) : option KpppSession.t;
  random (draw : nat) (n : Z) : bytes
}.

(** The verdict on a question. *)
Definition answer {env : Environment} (q : query) : AuthVerdict.t :=
  match q with
  | SubmitPap n user password => submit_pap n user password
  | SubmitChap n user chap_id response challenge => submit_chap n user chap_id response challenge
  | SubmitMsChapV2 n user chap_id ac pc nt flags =>
      MsChapOutcome.verdict (submit_mschapv2 n user chap_id ac pc nt flags)
  end.

(** What the task does to the outside: questions to RADIUS, TLS writes, control bodies handed to the
    kernel module, IP packets handed to the data path. *)
Inductive output :=
| Ask (q : query)
| Tls (b : bytes)
| Kmod (body : bytes)
| ToKernel (ip : bytes).

Module Session.

Record t := {
  server : Server.t;
  ppp : option Ppp.t;
  ppp_timer : option TimerOwner;
  kppp : option KpppSession.t;
  pending_hlak : option bytes;
  rx_buf : bytes;
  tx_buf : bytes;
  draws : nat;
  local_ip : bytes;
  auth_method : AuthMethod.t
}.

Definition with_server (s : t) (v : Server.t) (tx : bytes) : t :=
  {| server := v; ppp := ppp s; ppp_timer := ppp_timer s; kppp := kppp s;
     pending_hlak := pending_hlak s; rx_buf := rx_buf s; tx_buf := tx; draws := draws s;
     local_ip := local_ip s; auth_method := auth_method s |}.

Definition with_ppp (s : t) (p : option Ppp.t) (timer : option TimerOwner) (tx : bytes) : t :=
  {| server := server s; ppp := p; ppp_timer := timer; kppp := kppp s;
     pending_hlak := pending_hlak s; rx_buf := rx_buf s; tx_buf := tx; draws := draws s;
     local_ip := local_ip s; auth_method := auth_method s |}.

Definition with_kppp (s : t) (k : option KpppSession.t) : t :=
  {| server := server s; ppp := ppp s; ppp_timer := ppp_timer s; kppp := k;
     pending_hlak := pending_hlak s; rx_buf := rx_buf s; tx_buf := tx_buf s; draws := draws s;
     local_ip := local_ip s; auth_method := auth_method s |}.

Definition with_hlak (s : t) (h : option bytes) : t :=
  {| server := server s; ppp := ppp s; ppp_timer := ppp_timer s; kppp := kppp s;
     pending_hlak := h; rx_buf := rx_buf s; tx_buf := tx_buf s; draws := draws s;
     local_ip := local_ip s; auth_method := auth_method s |}.

Definition with_rx (s : t) (rx : bytes) : t :=
  {| server := server s; ppp := ppp s; ppp_timer := ppp_timer s; kppp := kppp s;
     pending_hlak := pending_hlak s; rx_buf := rx; tx_buf := tx_buf s; draws := draws s;
     local_ip := local_ip s; auth_method := auth_method s |}.

(** A fresh draw of the random generator for the call at hand. *)
Definition drawn (s : t) : t :=
  {| server := server s; ppp := ppp s; ppp_timer := ppp_timer s; kppp := kppp s;
     pending_hlak := pending_hlak s; rx_buf := rx_buf s; tx_buf := tx_buf s; draws := S (draws s);
     local_ip := local_ip s; auth_method := auth_method s |}.

Section Ops.
Context {bp : BuildProfile} {lib : AwsLc} {env : Environment} {E : Type}.

Definition write_ppp_as_sstp_data (scratch payload : bytes) : res E (bytes * bytes) :=
  let total := SSTP_HEADER_LEN + len payload in
  _ ← debug_assert (total <=? SSTP_MAX_PACKET_LEN);
  _ ← debug_assert (len scratch >=? total);
  _ ← slice scratch 0 total;
  scratch ← with_sub scratch 0 SSTP_HEADER_LEN (fun hdr => write_header hdr false total);
  scratch ← copy_slice scratch SSTP_HEADER_LEN total payload;
  sent ← slice scratch 0 total;
  Ok (scratch, sent).

(** [for frame in &step.frames { write_ppp_as_sstp_data(..) }] *)
Fixpoint write_frames (scratch : bytes) (frames : list bytes) : res E (bytes * list output) :=
  match frames with
  | [] => Ok (scratch, [])
  | f :: frames =>
      '(scratch, sent) ← write_ppp_as_sstp_data scratch f;
      '(scratch, outs) ← write_frames scratch frames;
      Ok (scratch, Tls sent :: outs)
  end.

(** The single timer slot: stops cancel it when the owner matches, each start takes it over. *)
Definition apply_ppp_timers (slot : option TimerOwner) (step : PppStep.t) : option TimerOwner :=
  let slot := fold_left (fun slot owner => if decide (slot = Some owner) then None else slot)
                (PppStep.timer_stops step) slot in
  fold_left (fun _ '(owner, _) => Some owner) (PppStep.timer_starts step) slot.

(** [NetworkUp]: bring the data path up unless there is one; [false] when that fails. *)
Definition network_up (s : t) (addrs : AssignedAddrs.t) : t * bool :=
  match kppp s with
  | Some _ => (s, true)
  | None =>
      match bring_up addrs with
      | Some k => (with_kppp s (Some k), true)
      | None => (s, false)
      end
  end.

(** Apply a driver step: write its frames, move the timers, act on the event.  An authentication
    request is answered on the spot and its verdict produces the next step.  The result tells whether
    the task goes on. *)
Fixpoint handle_ppp_step (fuel : nat) (s : t) (p : Ppp.t) (step : PppStep.t)
    : res E (t * list output * bool) :=
  match fuel with
  | O => Panic
  | S fuel =>
      '(tx, outs) ← write_frames (tx_buf s) (PppStep.frames step);
      let s := with_ppp s (Some p) (apply_ppp_timers (ppp_timer s) step) tx in
      let n := draws s in
      let rand := random n 16 in
      match PppStep.event step with
      | Some (PppEvent.NeedPapAuth peer_id password) =>
          let user := Utf8.from_utf8_lossy peer_id in
          let verdict := submit_pap n user password in
          '(p, step) ← Ppp.on_auth_result p rand verdict;
          '(s, outs', go) ← handle_ppp_step fuel (drawn s) p step;
          Ok (s, outs ++ Ask (SubmitPap n user password) :: outs', go)
      | Some (PppEvent.NeedChapAuth username chap_id challenge response) =>
          let user := Utf8.from_utf8_lossy username in
          let verdict := submit_chap n user chap_id response challenge in
          '(p, step) ← Ppp.on_auth_result p rand verdict;
          '(s, outs', go) ← handle_ppp_step fuel (drawn s) p step;
          Ok (s, outs ++ Ask (SubmitChap n user chap_id response challenge) :: outs', go)
      | Some (PppEvent.NeedMsChapV2Auth username chap_id authenticator_challenge peer_challenge
                nt_response flags) =>
          let user := Utf8.from_utf8_lossy username in
          let o := submit_mschapv2 n user chap_id authenticator_challenge peer_challenge nt_response
                     flags in
          let s := match MsChapOutcome.verdict o with
                   | AuthVerdict.Accept _ => with_hlak s (MsChapOutcome.hlak o)
                   | AuthVerdict.Reject _ => s
                   end in
          '(p, step) ← Ppp.on_mschap_result p rand (MsChapOutcome.verdict o)
                         (MsChapOutcome.auth_response o) (MsChapOutcome.error_string o);
          '(s, outs', go) ← handle_ppp_step fuel (drawn s) p step;
          Ok (s, outs ++ Ask (SubmitMsChapV2 n user chap_id authenticator_challenge peer_challenge
                                nt_response flags) :: outs', go)
      | Some (PppEvent.NetworkUp addrs) =>
          let '(s, up) := network_up s addrs in
          Ok (s, outs, up && negb (PppStep.finished step))
      | None => Ok (s, outs, negb (PppStep.finished step))
      end
  end.

(** A step asks at most one question, whose verdict asks none. *)
Definition PPP_FUEL : nat := 2.

(** The write of [apply_step]: through the kernel module once it owns the socket. *)
Definition write_control (s : t) (out : StepOut.t) : res E (list output) :=
  if StepOut.send_len out >? 0 then
    if match kppp s with Some k => KpppSession.is_kernel k | None => false end then
      _ ← debug_assert (StepOut.send_len out >=? SSTP_HEADER_LEN);
      body ← slice (tx_buf s) SSTP_HEADER_LEN (StepOut.send_len out);
      Ok [Kmod body]
    else
      b ← slice (tx_buf s) 0 (StepOut.send_len out);
      Ok [Tls b]
  else Ok [].

(** [apply_step] and the start of PPP; the timer part of [apply_step] is in [Server.step]. *)
Definition handle_sstp_step (s : t) (out : StepOut.t) : res E (t * list output * bool) :=
  outs ← write_control s out;
  if negb (Server.keep_going out) then Ok (s, outs, false)
  else
    match StepOut.notify out with
    | Some StartPpp =>
        match ppp s with
        | Some _ => Ok (s, outs, true)
        | None =>
            '(p, step) ← Ppp.open (Ppp.new (local_ip s) (auth_method s)) (random (draws s) 16);
            '(s, outs', go) ← handle_ppp_step PPP_FUEL (drawn s) p step;
            Ok (s, outs ++ outs', go)
        end
    | _ => Ok (s, outs, true)
    end.

(** One event of the SSTP state machine and what follows from it. *)
Definition server_turn (s : t) (ev : Server.event) : res E (t * list output * bool) :=
  '(srv, tx, out) ← Server.step (server s) (tx_buf s) ev;
  handle_sstp_step (with_server s srv tx) out.

(** One PPP frame for the driver. *)
Definition ppp_frame (s : t) (payload : bytes) : res E (t * list output * bool) :=
  match ppp s with
  | None => Ok (s, [], true)
  | Some p =>
      '(p, step) ← Ppp.on_frame p (random (draws s) 16) payload;
      handle_ppp_step PPP_FUEL (drawn s) p step
  end.

(** The routing of a data packet: network-layer frames go to the data path or are dropped, all others
    to the PPP driver. *)
Definition route (s : t) (payload : bytes) : res E (t * list output * bool) :=
  frame ← catch (decode_frame payload);
  match frame with
  | inr _ => ppp_frame s payload
  | inl frame =>
      let network_ready := match kppp s with Some k => negb (KpppSession.is_kernel k) | None => false end in
      let mtu := match kppp s with Some k => KpppSession.mtu k | None => 0 end in
      match np_filter_decide network_ready mtu (PppFrame.protocol frame) (len (PppFrame.info frame)) with
      | NpFilter.Forward =>
          match kppp s with
          | None => Panic
          | Some _ => Ok (s, [ToKernel (PppFrame.info frame)], true)
          end
      | NpFilter.DropPreIpcp | NpFilter.DropMruExceeded => Ok (s, [], true)
      | NpFilter.NotNetworkLayer => ppp_frame s payload
      end
  end.

Definition on_data (s : t) (payload : bytes) : res E (t * list output * bool) :=
  '(s, outs, go) ← server_turn s Server.Data;
  if negb go then Ok (s, outs, false)
  else
    '(s, outs', go) ← route s payload;
    Ok (s, outs ++ outs', go).

(** A parsed control packet; [raw] is the receive buffer from the packet on. *)
Definition on_control_packet (s : t) (ctrl : ControlPacket.t) (length : Z) (raw : bytes)
    : res E (t * list output * bool) :=
  msg ← catch (parse_control ctrl);
  match msg with
  | inr _ => Ok (s, [], false)
  | inl msg =>
      packet ← match msg with
               | ControlMessage.CallConnected _ =>
                   _ ← debug_assert (length =? CALL_CONNECTED_LEN);
                   slice raw 0 CALL_CONNECTED_LEN
               | _ => Ok []
               end;
      server_turn (drawn s) (Server.Control msg packet (random (draws s) 32))
  end.

(** The loop draining complete packets; the last component is what stays in the buffer. *)
Fixpoint drain (fuel : nat) (s : t) (rest : bytes) : res E (t * list output * bool * bytes) :=
  match fuel with
  | O => Panic
  | S fuel =>
      match Packet.parse rest with
      | Panic => Panic
      | Err (Truncated | LengthMismatch _ _) => Ok (s, [], true, rest)
      | Err _ => Ok (s, [], false, rest)
      | Ok (packet, length) =>
          '(s, outs, go) ← match packet with
                           | Packet.Data payload => on_data s payload
                           | Packet.Control ctrl => on_control_packet s ctrl length rest
                           end;
          if negb go then Ok (s, outs, false, rest)
          else
            '(s, outs', go, rest) ← drain fuel s (drop (Z.to_nat length) rest);
            Ok (s, outs ++ outs', go, rest)
      end
  end.

Definition clear_hello (v : Server.t) : Server.t :=
  {| Server.ssm := Server.ssm v; Server.sstp_timer := Server.sstp_timer v;
     Server.hello_echo_pending := false |}.

Definition on_read (s : t) (chunk : bytes) : res E (t * list output * bool) :=
  if len chunk =? 0 then Ok (s, [], false)
  else
    let s := with_server s (clear_hello (server s)) (tx_buf s) in
    let rx := rx_buf s ++ chunk in
    '(s, outs, go, rest) ← drain (S (length rx)) s rx;
    Ok (with_rx s rest, outs, go).

(** A control packet surfaced by the kernel module, without its header. *)
Definition on_kmod_control (s : t) (payload : bytes) : res E (t * list output * bool) :=
  let s := with_server s (clear_hello (server s)) (tx_buf s) in
  msg ← catch (parse_control_payload payload);
  match msg with
  | inr _ => Ok (s, [], false)
  | inl msg =>
      match msg with
      | ControlMessage.CallConnected _ =>
          if negb (len payload + SSTP_HEADER_LEN =? CALL_CONNECTED_LEN) then Ok (s, [], false)
          else
            let zeroed := zeros CALL_CONNECTED_LEN in
            zeroed ← with_sub zeroed 0 SSTP_HEADER_LEN
                       (fun hdr => write_header hdr true CALL_CONNECTED_LEN);
            zeroed ← copy_slice zeroed SSTP_HEADER_LEN CALL_CONNECTED_LEN payload;
            server_turn (drawn s) (Server.Control msg zeroed (random (draws s) 32))
      | _ => server_turn (drawn s) (Server.Control msg [] (random (draws s) 32))
      end
  end.

Definition on_ppp_timer (s : t) : res E (t * list output * bool) :=
  match ppp_timer s with
  | None => Panic
  | Some owner =>
      let s := with_ppp s (ppp s) None (tx_buf s) in
      match ppp s with
      | None => Ok (s, [], true)
      | Some p =>
          '(p, step) ← Ppp.on_timer p (random (draws s) 16) owner;
          handle_ppp_step PPP_FUEL (drawn s) p step
      end
  end.

(** [TunSession::read_frame] on a packet of the device: the PPP frame, [None] for an IP version
    other than 4 and 6. *)
Definition read_frame (ip : bytes) : option bytes :=
  match ip with
  | [] => None
  | b :: _ =>
      match Z.shiftr b 4 with
      | 4 => Some ([0xFF; 0x03] ++ to_be16 (ProtocolId.as_u16 ProtocolId.Ip) ++ ip)
      | 6 => Some ([0xFF; 0x03] ++ to_be16 (ProtocolId.as_u16 ProtocolId.Ipv6) ++ ip)
      | _ => None
      end
  end.

(** An IP packet from the TUN device; an empty read is an EOF, a read error is skipped. *)
Definition on_kppp_read (s : t) (ip : bytes) : res E (t * list output * bool) :=
  if len ip =? 0 then Ok (s, [], false)
  else
    match read_frame ip with
    | None => Ok (s, [], true)
    | Some f =>
        '(tx, sent) ← write_ppp_as_sstp_data (tx_buf s) f;
        Ok (with_server s (server s) tx, [Tls sent], true)
    end.

(** The events of the loop that the model distinguishes. *)
Inductive event :=
| Read (chunk : bytes)
| KmodControl (payload : bytes)
| SstpTimer
| PppTimer
| KpppRead (ip : bytes)
| Disconnect
| PeriodicTick (idle : Z)
| Deadline.

(** The head of the loop: an HLAK captured by the previous turn reaches the SSTP state machine. *)
Definition apply_hlak (s : t) : res E t :=
  match pending_hlak s with
  | None => Ok s
  | Some hlak =>
      '(srv, tx, _) ← Server.step (server s) (tx_buf s) (Server.InnerAuth hlak);
      Ok (with_hlak (with_server s srv tx) None)
  end.

Definition step (s : t) (ev : event) : res E (t * list output * bool) :=
  s ← apply_hlak s;
  match ev with
  | Read chunk => on_read s chunk
  | KmodControl payload => on_kmod_control s payload
  | SstpTimer => server_turn s Server.SstpTimer
  | PppTimer => on_ppp_timer s
  | KpppRead ip => on_kppp_read s ip
  | Disconnect => server_turn s Server.Disconnect
  | PeriodicTick idle => server_turn s (Server.PeriodicTick idle)
  | Deadline => Ok (s, [], false)
  end.

(** The task's start: the connection was accepted. *)
Definition init (cert_hash_sha1 cert_hash : bytes) (local : bytes) (method : AuthMethod.t)
    : res E (t * list output * bool) :=
  '(srv, out) ← Server.init cert_hash_sha1 cert_hash;
  handle_sstp_step
    {| server := srv; ppp := None; ppp_timer := None; kppp := None; pending_hlak := None;
       rx_buf := []; tx_buf := zeros SSTP_MAX_PACKET_LEN; draws := 0; local_ip := local;
       auth_method := method |} out.

End Ops.

End Session.
