(* ===== verification/SessionProps.v ===== *)
(** Theorems on the session task ([Session]): what it writes, when it can panic, and that traffic
    reaches the data path only after RADIUS accepted credentials presented in the same session.

    [sinv] is the invariant of the task together with what its past outputs [h] justify;
    [turn_result] is what a handler guarantees.  Both are relative to [Limits] of the PPP driver: with
    [small_limits] no handler panics, with [sstp_limits] every input is covered. *)

From S2P Require Import Prelude SstpFrame SstpAttr SstpMsg Crypto SstpBinding SstpState SstpServer.
From S2P Require Import PppFrame Lcp PppFsm PppAuth PppDriver PppClassify PppAccess Session.

#[local] Arguments frame_bytes : simpl never.
#[local] Arguments header : simpl never.
#[local] Arguments Packet.parse : simpl never.
#[local] Arguments Server.step : simpl never.

(** ** Writing PPP frames *)

Definition data_packet (payload : bytes) : bytes := header false (4 + len payload) ++ payload.

Section Write.
Context {bp : BuildProfile} {E : Type}.

Lemma write_ppp_ok scratch payload :
  len scratch = SSTP_MAX_PACKET_LEN -> len payload <= 4091 ->
  @Session.write_ppp_as_sstp_data bp E scratch payload
  = Ok (data_packet payload ++ drop (4 + length payload) scratch, data_packet payload).
Proof.
  unfold SSTP_MAX_PACKET_LEN, data_packet. intros Hs Hp.
  unfold Session.write_ppp_as_sstp_data, SSTP_HEADER_LEN, SSTP_MAX_PACKET_LEN.
  rewrite !debug_assert_ok by lia. cbn [mbind res_bind]. rewrite slice_ok by lia. cbn [mbind res_bind].
  change scratch with ([] ++ scratch) at 1.
  rewrite (with_sub_app [] scratch 0 4 (header false (4 + len payload)));
    [|done|done|len_lia|].
  2: { apply write_header_ok; [len_lia|lia]. }
  cbn [mbind res_bind app]. rewrite copy_slice_app by len_lia. cbn [mbind res_bind].
  rewrite slice_ok by len_lia. cbn [mbind res_bind]. rewrite sub_prefix by len_lia.
  by rewrite !drop_drop.
Qed.

Lemma slice_panic l lo hi : len l < hi -> @slice E l lo hi = Panic.
Proof. intros. unfold slice. by replace (hi <=? len l) with false by lia; rewrite andb_false_r. Qed.

Lemma write_ppp_panics scratch payload :
  len scratch = SSTP_MAX_PACKET_LEN -> 4091 < len payload ->
  @Session.write_ppp_as_sstp_data bp E scratch payload = Panic.
Proof.
  unfold SSTP_MAX_PACKET_LEN. intros Hs Hp.
  unfold Session.write_ppp_as_sstp_data, SSTP_HEADER_LEN, SSTP_MAX_PACKET_LEN, debug_assert.
  replace (_ <=? 4095) with false by lia. destruct debug_assertions; [done|]. cbn [andb mbind res_bind].
  by rewrite (slice_panic scratch) by lia.
Qed.

Lemma parse_wrapped payload :
  len payload <= 4091 -> Packet.parse (data_packet payload) = Ok (Packet.Data payload, 4 + len payload).
Proof.
  intros Hp. change (data_packet payload) with (packet_bytes 0 0 (Packet.Data payload)).
  rewrite <- (app_nil_r (packet_bytes _ _ _)). rewrite parse_packet_bytes; [done|lia|lia|].
  split; [|done]. unfold SSTP_MAX_PACKET_LEN. cbn [packet_body]. lia.
Qed.

End Write.

(** A PPP frame of at most 4091 bytes is written as exactly one SSTP data packet, which the packet
    parser reads back as that frame; a longer one panics, in every build profile. *)
Theorem ppp_frame_wrapped {bp : BuildProfile} scratch payload :
  len scratch = SSTP_MAX_PACKET_LEN ->
  if len payload <=? 4091 then
    exists scratch' sent,
      Session.write_ppp_as_sstp_data (E := Empty_set) scratch payload = Ok (scratch', sent) /\
      len scratch' = SSTP_MAX_PACKET_LEN /\
      Packet.parse sent = Ok (Packet.Data payload, len sent)
  else Session.write_ppp_as_sstp_data (E := Empty_set) scratch payload = Panic.
Proof.
  intros Hs. destruct (_ <=? _) eqn:Hp.
  - eexists _, _. rewrite write_ppp_ok by (done || lia). split; [done|].
    unfold SSTP_MAX_PACKET_LEN in *. split; [unfold data_packet; len_lia|].
    rewrite parse_wrapped by lia. do 2 f_equal. unfold data_packet. len_lia.
  - by apply write_ppp_panics; [|lia].
Qed.

Lemma ppp_frame_wrapped_witness :
  exists scratch' sent,
    Session.write_ppp_as_sstp_data (bp := true) (E := Empty_set) (zeros 4095) [0xFF; 3; 0xC0; 0x21]
    = Ok (scratch', sent) /\
    len scratch' = SSTP_MAX_PACKET_LEN /\
    Packet.parse sent = Ok (Packet.Data [0xFF; 3; 0xC0; 0x21], len sent).
Proof. exact (ppp_frame_wrapped (bp := true) (zeros 4095) [0xFF; 3; 0xC0; 0x21] eq_refl). Defined.

(** ** The invariant of the task *)

(** What the environment promises: draws have the size asked for, and an accepting verdict carries
    well-formed addresses. *)
Class EnvironmentOk (env : Environment) : Prop := {
  random_len : forall draw n, 0 <= n -> len (random draw n) = n;
  verdict_v4 : forall q a, answer q = AuthVerdict.Accept a -> addrs_ok a
}.

(** RADIUS accepted credentials asked about in [h], granting [a] up to the MTU clamp. *)
Definition granted {env : Environment} (h : list output) (a : AssignedAddrs.t) : Prop :=
  exists q b, Ask q ∈ h /\ answer q = AuthVerdict.Accept b /\ Access.clamped b a.

(** Every TLS write is one complete SSTP packet. *)
Definition sent_ok (o : output) : Prop :=
  match o with Tls b => exists p, Packet.parse b = Ok (p, len b) | _ => True end.

(** Every IP packet handed to the data path is justified by the outputs before it. *)
Fixpoint gated {env : Environment} (h outs : list output) : Prop :=
  match outs with
  | [] => True
  | o :: outs =>
      match o with
      | ToKernel ip =>
          exists a k, granted h a /\ bring_up a = Some k /\ KpppSession.is_kernel k = false /\
            len ip <= KpppSession.mtu k
      | _ => True
      end /\ gated (h ++ [o]) outs
  end.

Section Task.
Context {lim : Limits} {bp : BuildProfile} {lib : AwsLc} {laws : AwsLcLaws lib}.
Context {env : Environment} {env_ok : EnvironmentOk env} {E : Type}.

Definition ppp_ok (h : list output) (p : Ppp.t) : Prop :=
  PppAccess.inv p /\ forall a, abs p = Access.Granted a -> granted h a.

Record base (h : list output) (s : Session.t) : Prop := {
  base_server : SstpServer.inv (Session.server s);
  base_kppp : forall k, Session.kppp s = Some k -> exists a, granted h a /\ bring_up a = Some k;
  base_local : is_v4 (Session.local_ip s);
  base_tx : len (Session.tx_buf s) = SSTP_MAX_PACKET_LEN;
  base_rx : u8s (Session.rx_buf s)
}.

Definition sinv (h : list output) (s : Session.t) : Prop :=
  base h s /\ forall p, Session.ppp s = Some p -> ppp_ok h p.

(** What a handler guarantees after outputs [h]; only answers too long for an SSTP packet can make it
    panic. *)
Definition turn_result (h : list output) (m : res E (Session.t * list output * bool)) : Prop :=
  m = Panic /\ 4083 < body_out \/
  exists s outs go, m = Ok (s, outs, go) /\ Forall sent_ok outs /\ gated h outs /\
    (go = true -> sinv (h ++ outs) s).

Lemma granted_mono h h' a : granted h a -> granted (h ++ h') a.
Proof. intros (q & b & Hq & Hb). exists q, b. split; [set_solver|done]. Qed.

Lemma ppp_ok_mono h h' p : ppp_ok h p -> ppp_ok (h ++ h') p.
Proof. intros [Hi Hg]. split; [done|]. eauto using granted_mono. Qed.

Lemma base_mono h h' s : base h s -> base (h ++ h') s.
Proof.
  intros [? Hk ? ? ?]. split; try done. intros k Hs. destruct (Hk k Hs) as (a & ? & ?).
  eauto using granted_mono.
Qed.

Lemma sinv_mono h h' s : sinv h s -> sinv (h ++ h') s.
Proof. intros [Hb Hp]. split; [by apply base_mono|]. eauto using ppp_ok_mono. Qed.

Lemma gated_app h o1 o2 : gated h (o1 ++ o2) <-> gated h o1 /\ gated (h ++ o1) o2.
Proof.
  revert h. induction o1 as [|o o1 IH]; intros h; cbn; [rewrite app_nil_r; naive_solver|].
  rewrite IH, <- app_assoc. cbn. naive_solver.
Qed.

(** Outputs other than packets for the data path need no justification. *)
Definition not_kernel (o : output) : Prop := match o with ToKernel _ => False | _ => True end.

Lemma gated_other h outs : Forall not_kernel outs -> gated h outs.
Proof. intros H. revert h. induction H as [|o outs Ho _ IH]; intros h; cbn; [done|]. by destruct o. Qed.

Lemma turn_done h s outs go :
  Forall sent_ok outs -> gated h outs -> (go = true -> sinv (h ++ outs) s) ->
  turn_result h (Ok (s, outs, go)).
Proof. intros. right. eauto 10. Qed.

Lemma turn_stop h s : turn_result h (Ok (s, [], false)).
Proof. by apply turn_done. Qed.

Lemma turn_quiet h s : sinv h s -> turn_result h (Ok (s, [], true)).
Proof. intros. apply turn_done; [done..|]. by rewrite app_nil_r. Qed.

(** Sequencing of handlers, as the source's early returns do it. *)
Lemma turn_then h m k :
  turn_result h m -> (forall s outs, sinv (h ++ outs) s -> turn_result (h ++ outs) (k s)) ->
  turn_result h ('(s, outs, go) ← m;
                 if negb go then Ok (s, outs, false)
                 else '(s, outs', go) ← k s; Ok (s, outs ++ outs', go)).
Proof.
  intros [[-> Hp] | (s & outs & go & -> & Hs & Hg & Hi)] Hk; [by left|]. cbn [mbind res_bind].
  destruct go; cbn [negb]; [|by apply turn_done].
  destruct (Hk s outs (Hi eq_refl)) as [[-> Hp] | (s' & outs' & go & -> & Hs' & Hg' & Hi')]; [by left|].
  apply turn_done; [by apply Forall_app|by apply gated_app|].
  intros Hgo. rewrite app_assoc. auto.
Qed.

(** A prefix of outputs before a handler that always runs. *)
Lemma turn_prefix h outs m :
  Forall sent_ok outs -> Forall not_kernel outs -> turn_result (h ++ outs) m ->
  turn_result h ('(s, outs', go) ← m; Ok (s, outs ++ outs', go)).
Proof.
  intros Hs Hn [[-> Hp] | (s & outs' & go & -> & Hs' & Hg & Hi)]; [by left|]. cbn [mbind res_bind].
  apply turn_done; [by apply Forall_app|apply gated_app; auto using gated_other|].
  intros Hgo. rewrite app_assoc. auto.
Qed.

Lemma write_frames_ok tx fs :
  len tx = SSTP_MAX_PACKET_LEN -> Forall wf_frame fs ->
  Session.write_frames (E := E) tx fs = Panic /\ 4083 < body_out \/
  exists tx' outs, Session.write_frames (E := E) tx fs = Ok (tx', outs) /\
    len tx' = SSTP_MAX_PACKET_LEN /\ Forall sent_ok outs /\ Forall not_kernel outs.
Proof.
  intros Htx Hfs. revert tx Htx.
  induction Hfs as [|f fs Hf _ IH]; intros tx Htx; cbn [Session.write_frames]; [right; eauto 10|].
  apply wf_frame_decodes in Hf as [_ Hl].
  destruct (decide (len f <= 4091)).
  - rewrite write_ppp_ok by done. cbn [mbind res_bind]. unfold SSTP_MAX_PACKET_LEN in *.
    destruct (IH (data_packet f ++ drop (4 + length f) tx))
      as [[-> ?] | (tx' & outs & -> & Htx' & Hs & Hn)]; [unfold data_packet; len_lia|by left|right].
    eexists _, _. split; [done|]. split; [done|]. split; constructor; try done.
    exists (Packet.Data f). rewrite parse_wrapped by done. do 2 f_equal. unfold data_packet. len_lia.
  - left. rewrite write_ppp_panics by (done || lia). split; [done|lia].
Qed.

(** ** The PPP side *)

(** A verdict on a question asked: the driver raises no further event, and whatever it grants was
    granted by that verdict. *)
Lemma after_verdict h p m i q (r : res E (Ppp.t * PppStep.t)) :
  Ppp.phase p = Phase.AuthInFlight m -> turn_ok p i r ->
  (forall a, Access.accepts i m a -> answer q = AuthVerdict.Accept a) ->
  (forall f, i <> Frame f) ->
  exists p' out, r = Ok (p', out) /\ ppp_ok (h ++ [Ask q]) p' /\
    Forall wf_frame (PppStep.frames out) /\ PppStep.event out = None.
Proof.
  intros Hph (p' & out & -> & Hinv & Hf & Ha) Hq Hi.
  assert (abs p = Access.Asked m) as Habs by (unfold abs; by rewrite Hph).
  rewrite Habs in Ha. exists p', out. split; [done|].
  assert (PppStep.event out = None /\ forall a, abs p' = Access.Granted a -> granted (h ++ [Ask q]) a)
    as [He Hg].
  { remember (abs p') as s' eqn:Hs'. clear Hs'.
    inversion Ha; subst; (split; [|intros a0 Heq]); simplify_eq; try done;
      try (exfalso; by eapply Hi).
    eexists q, _. split_and!; [set_solver|by apply Hq|done]. }
  done.
Qed.

(** Writing a step's frames and acting on an event that asks nothing. *)
Lemma handle_final h fuel s p step :
  base h s -> ppp_ok h p -> Forall wf_frame (PppStep.frames step) ->
  PppStep.event step = None \/
    (exists a, PppStep.event step = Some (PppEvent.NetworkUp a) /\ granted h a) ->
  turn_result h (Session.handle_ppp_step (S fuel) s p step).
Proof.
  intros Hb Hp Hf He. cbn [Session.handle_ppp_step].
  destruct (write_frames_ok (Session.tx_buf s) (PppStep.frames step))
    as [[-> ?] | (tx & outs & -> & Htx & Hs & Hn)]; [apply Hb|done|by left|]. cbn [mbind res_bind].
  assert (base h (Session.with_ppp s (Some p) (Session.apply_ppp_timers (Session.ppp_timer s) step) tx))
    as Hb' by (by destruct Hb).
  destruct He as [-> | (a & -> & Ha)].
  - apply turn_done; [done|by apply gated_other|]. intros _. apply sinv_mono. split; [done|].
    cbn. by intros ? [= <-].
  - destruct (Session.network_up _ a) as [s' up] eqn:Hup.
    apply turn_done; [done|by apply gated_other|]. intros [-> _]%andb_true_iff. apply sinv_mono.
    unfold Session.network_up in Hup. cbn [Session.kppp Session.with_ppp] in Hup.
    destruct (Session.kppp s) as [k|] eqn:Hk; [|destruct (bring_up a) as [k|] eqn:Hk']; simplify_eq.
    + split; [done|]. cbn. by intros ? [= <-].
    + split; [|cbn; by intros ? [= <-]]. destruct Hb'. split; try done. cbn. intros ? [= <-]. eauto.
Qed.

(** A frame, a timer or the start of PPP: the driver's step, then what the task makes of it. *)
Definition event_justified (h : list output) (p : Ppp.t) (e : option PppEvent.t) : Prop :=
  match e with
  | None => True
  | Some (PppEvent.NetworkUp a) => granted h a
  | Some e => exists m, Ppp.phase p = Phase.AuthInFlight m /\ Access.asks e m
  end.

Lemma random_16 s : length (random (Session.draws s) 16) = 16%nat.
Proof. pose proof (random_len (Session.draws s) 16). lia. Qed.

(** The part of [handle_ppp_step] after a question was raised. *)
Lemma ask_ok h s p m i q outs (r : res E (Ppp.t * PppStep.t)) :
  base h s -> Forall sent_ok outs -> Forall not_kernel outs ->
  Ppp.phase p = Phase.AuthInFlight m -> turn_ok p i r ->
  (forall a, Access.accepts i m a -> answer q = AuthVerdict.Accept a) -> (forall f, i <> Frame f) ->
  turn_result h ('(p, step) ← r;
                 '(s, outs', go) ← Session.handle_ppp_step 1 (Session.drawn s) p step;
                 Ok (s, outs ++ Ask q :: outs', go)).
Proof.
  intros Hb Hs Hn Hph Ht Hq Hi.
  destruct (after_verdict (h ++ outs) p m i q r Hph Ht Hq Hi) as (p' & out & -> & Hp & Hf & He).
  cbn [mbind res_bind].
  assert (turn_result (h ++ (outs ++ [Ask q])) (Session.handle_ppp_step 1 (Session.drawn s) p' out)) as H.
  { rewrite app_assoc. apply handle_final; [|done|done|by left].
    rewrite <- app_assoc. apply (base_mono h (outs ++ [Ask q])) in Hb. by destruct Hb. }
  apply turn_prefix in H.
  - destruct (Session.handle_ppp_step _ _ _ _) as [[[s' outs'] go]| |]; [|done|done].
    cbn [mbind res_bind] in *. by rewrite <- app_assoc in H.
  - apply Forall_app. split; [done|]. by repeat constructor.
  - apply Forall_app. split; [done|]. by repeat constructor.
Qed.

Lemma verdict_is_ok q : verdict_ok (answer q).
Proof. destruct (answer q) as [a|] eqn:Ha; [|done]. by eapply verdict_v4. Qed.

Lemma handle_ppp_step_ok h s p step :
  base h s -> ppp_ok h p -> Forall wf_frame (PppStep.frames step) ->
  event_justified h p (PppStep.event step) ->
  turn_result h (Session.handle_ppp_step Session.PPP_FUEL s p step).
Proof.
  intros Hb Hp Hf He. destruct (PppStep.event step) as [e|] eqn:Hev;
    [|by apply handle_final; [..|left]].
  destruct e; [| | |by apply handle_final; [..|right; eauto]].
  all: destruct He as (m & Hph & Hask); unfold Session.PPP_FUEL; remember 1%nat as one;
    cbn [Session.handle_ppp_step]; subst one;
    (destruct (write_frames_ok (Session.tx_buf s) (PppStep.frames step))
      as [[-> ?] | (tx & outs & -> & Htx & Hs & Hn)]; [apply Hb|done|by left|]);
    cbn [mbind res_bind]; rewrite Hev; cbv zeta;
    set (s1 := Session.with_ppp _ _ _ _);
    (assert (base h s1) as Hb1 by (by destruct Hb)).
  - set (q := SubmitPap (Session.draws s1) (Utf8.from_utf8_lossy peer_id) password).
    apply (ask_ok h s1 p m (AuthResult (answer q)) q); try done.
    + apply on_auth_result_ok; [apply Hp|apply (random_16 s1)|apply (verdict_is_ok q)].
    + intros a. cbn. destruct (submit_pap _ _ _); [|done]. destruct m; by intros; subst.
  - set (q := SubmitChap (Session.draws s1) (Utf8.from_utf8_lossy username) chap_id response challenge).
    apply (ask_ok h s1 p m (AuthResult (answer q)) q); try done.
    + apply on_auth_result_ok; [apply Hp|apply (random_16 s1)|apply (verdict_is_ok q)].
    + intros a. cbn. destruct (submit_chap _ _ _ _ _); [|done]. destruct m; by intros; subst.
  - set (q := SubmitMsChapV2 (Session.draws s1) (Utf8.from_utf8_lossy username) chap_id authenticator_challenge
                peer_challenge nt_response flags).
    set (o := submit_mschapv2 _ _ _ _ _ _ _).
    set (s2 := match MsChapOutcome.verdict o with AuthVerdict.Accept _ => _ | _ => _ end).
    apply (ask_ok h s2 p m (MsChapResult (answer q) (MsChapOutcome.auth_response o)
                              (MsChapOutcome.error_string o)) q); try done.
    + unfold s2. destruct (MsChapOutcome.verdict o); [by destruct Hb1|done].
    + replace (Session.draws s1) with (Session.draws s2)
        by (unfold s2; by destruct (MsChapOutcome.verdict o)).
      apply on_mschap_result_ok; [apply Hp|apply (random_16 s2)|apply (verdict_is_ok q)].
    + intros a. cbn. change (submit_mschapv2 _ _ _ _ _ _ _) with o.
      destruct (MsChapOutcome.verdict o); [|done]. destruct m; by intros; subst.
Qed.

Lemma abs_asked p m : abs p = Access.Asked m -> Ppp.phase p = Phase.AuthInFlight m.
Proof. unfold abs. repeat case_match; naive_solver. Qed.

(** A driver entry point other than a verdict, then the task's handling of its step. *)
Lemma driver_turn h s p i (r : res E (Ppp.t * PppStep.t)) :
  base h s -> ppp_ok h p -> turn_ok p i r ->
  match i with AuthResult _ | MsChapResult _ _ _ => False | _ => True end ->
  turn_result h ('(p, step) ← r; Session.handle_ppp_step Session.PPP_FUEL (Session.drawn s) p step).
Proof.
  intros Hb [_ Hg] (p' & out & -> & Hinv & Hf & Ha) Hi. cbn [mbind res_bind].
  apply handle_ppp_step_ok; [by destruct Hb| |done|].
  - split; [done|]. intros a Habs. rewrite Habs in Ha.
    remember (abs p) as s0. remember (Access.Granted a) as s1. remember (PppStep.event out) as e.
    destruct Ha as [| | | |m i b b' Hacc _|]; simplify_eq; eauto. by destruct i.
  - pose proof (abs_asked p') as Hasked. remember (abs p') as s1.
    remember (abs p) as s0. remember (PppStep.event out) as e.
    destruct Ha as [| | |? ? e m _ Hask| |]; try done; cbn; [|by eauto].
    destruct e; try (exists m; split; [by apply Hasked|done]). by destruct m.
Qed.

Lemma ppp_ok_new h local m : is_v4 local -> ppp_ok h (Ppp.new local m).
Proof. intros. split; [by apply inv_new|]. done. Qed.

Lemma ppp_frame_ok h s payload :
  sinv h s -> u8s payload -> len payload <= frame_in -> turn_result h (Session.ppp_frame s payload).
Proof.
  intros [Hb Hp] Hu Hl. unfold Session.ppp_frame.
  destruct (Session.ppp s) as [p|] eqn:Hs; [|apply turn_quiet; split; [done|congruence]].
  destruct (Hp p eq_refl) as [Hinv Hg].
  apply (driver_turn h s p (Frame payload)); [done|done| |done].
  apply on_frame_ok; [done|apply random_16|done|done].
Qed.

Lemma on_ppp_timer_ok h s :
  sinv h s -> is_Some (Session.ppp_timer s) -> turn_result h (Session.on_ppp_timer s).
Proof.
  intros [Hb Hp] [owner Ho]. unfold Session.on_ppp_timer. rewrite Ho. cbv zeta.
  set (s1 := Session.with_ppp _ _ _ _). assert (base h s1) as Hb1 by (by destruct Hb).
  change (Session.ppp s1) with (Session.ppp s). destruct (Session.ppp s) as [p|] eqn:Hs.
  - destruct (Hp p eq_refl) as [Hinv Hg].
    apply (driver_turn h s1 p (Timer owner)); [done|done| |done].
    by apply on_timer_ok; [|apply (random_16 s1)].
  - apply turn_quiet. split; [done|]. cbn. congruence.
Qed.

(** ** The SSTP side *)

Lemma write_control_ok s out ty attrs rest :
  StepOut.send_len out = 0 \/
  (server_reply ty attrs /\ StepOut.send_len out = len (message_bytes ty attrs) /\
   Session.tx_buf s = message_bytes ty attrs ++ rest) ->
  exists outs, Session.write_control (E := E) s out = Ok outs /\ Forall sent_ok outs /\
    Forall not_kernel outs.
Proof.
  unfold Session.write_control. intros [Hz | (Hr & Hl & Htx)].
  - rewrite Hz. exists []. done.
  - pose proof (server_reply_length _ _ Hr) as [H48 H1]. rewrite Hl, Htx.
    pose proof (length_message_bytes ty attrs) as Hm.
    replace (_ >? 0) with true by lia.
    destruct (match Session.kppp s with Some k => _ | None => _ end).
    + unfold SSTP_HEADER_LEN. rewrite debug_assert_ok by lia. cbn [mbind res_bind].
      rewrite slice_ok by len_lia. cbn [mbind res_bind]. eexists. split; [done|]. by repeat constructor.
    + rewrite slice_ok by len_lia. cbn [mbind res_bind]. rewrite sub_prefix by done.
      eexists. split; [done|]. split; repeat constructor.
      exists (control_packet ty attrs). rewrite <- (app_nil_r (message_bytes ty attrs)) at 1.
      apply parse_message_bytes; unfold SSTP_MAX_PACKET_LEN; lia.
Qed.

Lemma handle_sstp_step_ok h s out :
  base h s \/ (Server.keep_going out = false) ->
  (forall p, Session.ppp s = Some p -> ppp_ok h p) ->
  (exists outs, Session.write_control (E := E) s out = Ok outs /\ Forall sent_ok outs /\
     Forall not_kernel outs) ->
  turn_result h (Session.handle_sstp_step s out).
Proof.
  intros Hb Hp (outs & Hw & Hs & Hn). unfold Session.handle_sstp_step. rewrite Hw. cbn [mbind res_bind].
  destruct (Server.keep_going out) eqn:Hgo; cbn [negb].
  2: { apply turn_done; [done|by apply gated_other|done]. }
  destruct Hb as [Hb|]; [|done].
  assert (sinv (h ++ outs) s) as Hinv by (apply sinv_mono; by split).
  assert (turn_result h (Ok (s, outs, true))) as Hquiet
    by (apply turn_done; [done|by apply gated_other|done]).
  destruct (StepOut.notify out) as [[]|]; [|done|done].
  destruct (Session.ppp s) as [p|] eqn:Hs'; [done|].
  pose proof (driver_turn (h ++ outs) s (Ppp.new (Session.local_ip s) (Session.auth_method s)) Open
    (Ppp.open (Ppp.new (Session.local_ip s) (Session.auth_method s)) (random (Session.draws s) 16))
    (proj1 Hinv) (ppp_ok_new _ _ _ (base_local _ _ Hb))) as Ht.
  assert (turn_result (h ++ outs) ('(p, step) ← Ppp.open (Ppp.new (Session.local_ip s) (Session.auth_method s))
            (random (Session.draws s) 16);
          Session.handle_ppp_step Session.PPP_FUEL (Session.drawn s) p step)) as Ht'.
  { apply Ht; [|done]. apply open_ok; [by apply inv_new, Hb|apply random_16]. }
  apply (turn_prefix h outs) in Ht'; [|done..].
  by destruct (Ppp.open _ _) as [[p step]| |].
Qed.

Lemma server_turn_ok h s ev :
  sinv h s -> event_ok (Session.server s) ev -> turn_result h (Session.server_turn s ev).
Proof using laws env_ok.
  intros [Hb Hp] Hev. unfold Session.server_turn.
  destruct (server_turn_total (E := E) (Session.server s) (Session.tx_buf s) ev)
    as (srv & tx & out & -> & Hinv & Hout); [apply Hb|done| |].
  { rewrite (base_tx _ _ Hb). by vm_compute. }
  cbn [mbind res_bind]. apply handle_sstp_step_ok.
  - destruct (Server.keep_going out); [left|by right]. destruct Hb. split; try done; [by apply Hinv|].
    cbn. destruct Hout as [[_ ->] | (? & ? & ? & _ & _ & _ & ->)]; done.
  - done.
  - destruct Hout as [[Hz _] | (ty & attrs & rest & Hr & Hl & -> & _)].
    + apply (write_control_ok _ _ MessageType.CallAbort [] []). by left.
    + apply (write_control_ok _ _ ty attrs rest). by right.
Qed.

Lemma with_hello h s : sinv h s ->
  sinv h (Session.with_server s (Session.clear_hello (Session.server s)) (Session.tx_buf s)).
Proof.
  intros [[[Hl Ht Hbd] ? ? ? ?] Hp]. split; [|done]. by split; [split|..].
Qed.

Lemma drawn_sinv h s : sinv h s -> sinv h (Session.drawn s).
Proof. intros [[? ? ? ? ?] Hp]. by split; [split|]. Qed.

Lemma random_32 s : length (random (Session.draws s) 32) = 32%nat.
Proof using laws env_ok. pose proof (random_len (Session.draws s) 32). lia. Qed.

Lemma route_ok h s payload :
  sinv h s -> u8s payload -> len payload <= frame_in -> turn_result h (Session.route s payload).
Proof using laws env_ok.
  intros Hinv Hu Hl. unfold Session.route.
  destruct (decode_frame payload) as [f|e|] eqn:Hd; cbn [catch mbind res_bind];
    [|by apply ppp_frame_ok|by apply decode_frame_total in Hd].
  cbv zeta. unfold np_filter_decide.
  destruct (ProtocolId.from_u16 _) as [pr|]; [|by apply ppp_frame_ok].
  destruct (ProtocolId.is_network_layer pr); cbn [negb]; [|by apply ppp_frame_ok].
  destruct (Session.kppp s) as [k|] eqn:Hk; [|by apply turn_quiet].
  destruct (KpppSession.is_kernel k) eqn:Hker; cbn [negb]; [by apply turn_quiet|].
  destruct (_ >? _) eqn:Hmtu; [by apply turn_quiet|].
  destruct (base_kppp _ _ (proj1 Hinv) k Hk) as (a & Ha & Hup).
  apply turn_done; [by repeat constructor| |intros _; by apply sinv_mono].
  split; [|done]. exists a, k. split_and!; [done..|lia].
Qed.

Lemma on_data_ok h s payload :
  sinv h s -> u8s payload -> len payload <= frame_in -> turn_result h (Session.on_data s payload).
Proof using laws env_ok.
  intros Hinv Hu Hl. apply (turn_then h _ (fun s => Session.route s payload)).
  - by apply server_turn_ok.
  - intros s' outs Hs. by apply route_ok.
Qed.

Lemma on_control_packet_ok h s ctrl n raw :
  sinv h s -> Packet.parse raw = Ok (Packet.Control ctrl, n) ->
  turn_result h (Session.on_control_packet s ctrl n raw).
Proof using laws env_ok.
  intros Hinv Hparse. unfold Session.on_control_packet.
  destruct (parse_control ctrl) as [msg|e|] eqn:Hc; cbn [catch mbind res_bind];
    [|by apply turn_stop|by apply parse_control_total in Hc].
  pose proof (random_32 s) as H32.
  destruct msg as [p|cb| | | | | |ty]; cbn [mbind res_bind];
    try (by apply server_turn_ok; [apply drawn_sinv|]).
  destruct (call_connected_packet _ _ _ _ Hparse Hc) as (-> & Hl & Hcb). unfold CALL_CONNECTED_LEN in *.
  rewrite debug_assert_ok by lia. cbn [mbind res_bind]. rewrite slice_ok by lia. cbn [mbind res_bind].
  apply server_turn_ok; [by apply drawn_sinv|]. split; [done|].
  rewrite Hcb. unfold binding_wf. cbn. rewrite !len_sub by lia. done.
Qed.

(** ** The receive loop *)

(** Every data packet the loop meets carries a frame within the driver's input limit. *)
Fixpoint data_fits (fuel : nat) (rest : bytes) : Prop :=
  match fuel with
  | O => True
  | S fuel =>
      match Packet.parse rest with
      | Ok (pkt, n) =>
          match pkt with Packet.Data payload => len payload <= frame_in | _ => True end /\
          data_fits fuel (drop (Z.to_nat n) rest)
      | _ => True
      end
  end.

Lemma parsed_data rest payload n :
  u8s rest -> Packet.parse rest = Ok (Packet.Data payload, n) -> u8s payload.
Proof.
  intros Hu Hp. destruct (packet_bytes_parse _ _ _ Hu Hp) as (r1 & r2 & tail & _ & _ & _ & -> & _).
  unfold packet_bytes in Hu. rewrite <- !app_assoc in Hu. rewrite !Forall_app in Hu. naive_solver.
Qed.

(** The loop, with the leftover buffer. *)
Definition drain_result (h : list output) (m : res E (Session.t * list output * bool * bytes)) : Prop :=
  m = Panic /\ 4083 < body_out \/
  exists s outs go rest, m = Ok (s, outs, go, rest) /\ Forall sent_ok outs /\ gated h outs /\
    (go = true -> sinv (h ++ outs) s /\ u8s rest).

Lemma drain_ok fuel h s rest :
  (length rest < fuel)%nat -> sinv h s -> u8s rest -> data_fits fuel rest ->
  drain_result h (Session.drain fuel s rest).
Proof using laws env_ok.
  revert h s rest. induction fuel as [|fuel IH]; intros h s rest Hf Hinv Hu Hfit; [lia|].
  cbn [Session.drain]. cbn [data_fits] in Hfit. destruct (parse_total rest) as [Hnp Hrange].
  destruct (Packet.parse rest) as [[pkt n]|e|] eqn:Hp; [|right|done].
  - destruct (Hrange pkt n eq_refl) as [Hn _]. destruct Hfit as [Hpay Hfit].
    set (m := match pkt with Packet.Data payload => _ | Packet.Control ctrl => _ end).
    assert (turn_result h m) as Hm.
    { unfold m. destruct pkt; [|by apply on_control_packet_ok].
      apply on_data_ok; [done|by eapply parsed_data|done]. }
    destruct Hm as [[-> ?] | (s' & outs & go & -> & Hs & Hg & Hi)]; [by left|]. cbn [mbind res_bind].
    destruct go; cbn [negb]; [|right; by eexists _, _, _, _].
    destruct (IH (h ++ outs) s' (drop (Z.to_nat n) rest))
      as [[-> ?] | (s2 & outs2 & go & rest2 & -> & Hs2 & Hg2 & Hi2)];
      [len_lia|auto|by apply Forall_drop|done|by left|right]. cbn [mbind res_bind].
    eexists _, _, _, _. split; [done|].
    split; [by apply Forall_app|]. split; [by apply gated_app|]. rewrite app_assoc. done.
  - destruct e; eexists _, _, _, _; (split; [done|]); (split; [done|]); (split; [done|]);
      rewrite app_nil_r; done.
Qed.

Lemma on_read_ok h s chunk :
  sinv h s -> u8s chunk ->
  data_fits (S (length (Session.rx_buf s ++ chunk))) (Session.rx_buf s ++ chunk) ->
  turn_result h (Session.on_read s chunk).
Proof using laws env_ok.
  intros Hinv Hu Hfit. unfold Session.on_read.
  destruct (len chunk =? 0); [by apply turn_stop|]. cbv zeta.
  apply with_hello in Hinv as Hinv'. set (s1 := Session.with_server _ _ _) in *.
  change (Session.rx_buf s1) with (Session.rx_buf s).
  destruct (drain_ok (S (length (Session.rx_buf s ++ chunk))) h s1 (Session.rx_buf s ++ chunk))
    as [[-> ?] | (s2 & outs & go & rest & -> & Hs & Hg & Hi)];
    [lia|done|apply Forall_app; split; [apply Hinv|done]|done|by left|].
  cbn [mbind res_bind]. apply turn_done; [done|done|]. intros [[[? ? ? ? _] ?] ?]%Hi.
  by split; [split|].
Qed.

Lemma on_kmod_control_ok h s payload :
  sinv h s -> turn_result h (Session.on_kmod_control s payload).
Proof using laws env_ok.
  intros Hinv. unfold Session.on_kmod_control. cbv zeta.
  apply with_hello in Hinv. set (s1 := Session.with_server _ _ _) in *.
  pose proof (random_32 s1) as H32.
  destruct (parse_control_payload payload) as [msg|e|] eqn:Hc; cbn [catch mbind res_bind];
    [|by apply turn_stop|by apply parse_control_payload_total in Hc].
  destruct msg as [p|cb| | | | | |ty]; try (by apply server_turn_ok; [apply drawn_sinv|]).
  unfold SSTP_HEADER_LEN, CALL_CONNECTED_LEN.
  destruct (len payload + 4 =? 112) eqn:Hl; cbn [negb]; [|by apply turn_stop].
  change (zeros 112) with ([] ++ zeros 112).
  rewrite (with_sub_app [] (zeros 112) 0 4 (header true 112)); [|done|done|done|by apply write_header_ok].
  cbn [mbind res_bind app]. rewrite copy_slice_app by (unfold zeros; len_lia). cbn [mbind res_bind].
  apply server_turn_ok; [by apply drawn_sinv|]. split; [done|].
  unfold parse_control_payload in Hc. apply bind_ok in Hc as (pkt & _ & Hc).
  apply parse_control_connected_inv in Hc as (_ & Ha & ->). unfold binding_wf. cbn.
  rewrite !len_sub by lia. unfold zeros. len_lia.
Qed.

Lemma on_kppp_read_ok h s ip :
  sinv h s -> len ip <= 2044 -> turn_result h (Session.on_kppp_read s ip).
Proof.
  intros [[? ? ? Htx ?] Hp] Hl. unfold Session.on_kppp_read.
  destruct (len ip =? 0); [by apply turn_stop|].
  destruct (Session.read_frame ip) as [f|] eqn:Hf; [|by apply turn_quiet; split].
  assert (len f <= 4091).
  { unfold Session.read_frame in Hf. destruct ip; [done|]. repeat case_match; simplify_eq; len_lia. }
  rewrite write_ppp_ok by done. cbn [mbind res_bind].
  apply turn_done.
  - repeat constructor. exists (Packet.Data f). rewrite parse_wrapped by done.
    do 2 f_equal. unfold data_packet. len_lia.
  - apply gated_other. by repeat constructor.
  - intros _. apply sinv_mono. split; [|done]. split; try done. cbn.
    unfold SSTP_MAX_PACKET_LEN, data_packet in *. len_lia.
Qed.

Lemma apply_hlak_ok h s :
  sinv h s -> exists s', Session.apply_hlak (E := E) s = Ok s' /\ sinv h s' /\
    Server.sstp_timer (Session.server s') = Server.sstp_timer (Session.server s) /\
    Session.ppp_timer s' = Session.ppp_timer s /\ Session.rx_buf s' = Session.rx_buf s /\
    Session.kppp s' = Session.kppp s.
Proof using laws.
  intros Hinv. unfold Session.apply_hlak. destruct (Session.pending_hlak s) as [hlak|]; [|eauto 10].
  pose proof (inv_step (E := E) (Session.server s) (Session.tx_buf s) (Server.InnerAuth hlak)) as Hstep.
  unfold Server.step in *. cbn [mbind res_bind] in *. eexists. split; [done|]. split; [|done].
  destruct Hinv as [[? ? ? Htx ?] Hp]. split; [|done]. split; try done. cbn.
  eapply Hstep; [done|done|rewrite Htx; by vm_compute|done|done].
Qed.

(** What the outside world may deliver in a state. *)
Definition session_event_ok (s : Session.t) (ev : Session.event) : Prop :=
  match ev with
  | Session.Read chunk =>
      u8s chunk /\ data_fits (S (length (Session.rx_buf s ++ chunk))) (Session.rx_buf s ++ chunk)
  | Session.SstpTimer => is_Some (Server.sstp_timer (Session.server s))
  | Session.PppTimer => is_Some (Session.ppp_timer s)
  | Session.KpppRead ip => len ip <= 2044
  | _ => True
  end.

Lemma session_step_ok h s ev :
  sinv h s -> session_event_ok s ev -> turn_result h (Session.step s ev).
Proof using laws env_ok.
  intros Hinv Hev. unfold Session.step.
  destruct (apply_hlak_ok h s Hinv) as (s' & -> & Hinv' & Ht & Hpt & Hrx & _). cbn [mbind res_bind].
  destruct ev; cbn [session_event_ok] in Hev; rewrite <- ?Ht, <- ?Hpt, <- ?Hrx in Hev.
  - destruct Hev. by apply on_read_ok.
  - by apply on_kmod_control_ok.
  - by apply server_turn_ok.
  - by apply on_ppp_timer_ok.
  - by apply on_kppp_read_ok.
  - by apply server_turn_ok.
  - by apply server_turn_ok.
  - by apply turn_stop.
Qed.

Lemma session_init_ok c1 c2 local method :
  is_v4 local -> turn_result [] (Session.init c1 c2 local method).
Proof using laws env_ok.
  intros Hl. unfold Session.init.
  rewrite init_ok. cbn [mbind res_bind]. apply handle_sstp_step_ok.
  - left. by split.
  - done.
  - apply (write_control_ok _ _ MessageType.CallAbort [] []). by left.
Qed.

End Task.

(** ** Executions *)

(** The reachable states, with everything the task did so far. *)
Inductive reach {lim : Limits} {bp : BuildProfile} {lib : AwsLc} {env : Environment}
    : list output -> Session.t -> Prop :=
| reach_init c1 c2 local method s outs :
    is_v4 local -> Session.init (E := Empty_set) c1 c2 local method = Ok (s, outs, true) -> reach outs s
| reach_step h s ev s' outs :
    reach h s -> session_event_ok s ev -> Session.step (E := Empty_set) s ev = Ok (s', outs, true) ->
    reach (h ++ outs) s'.

Section Executions.
Context {lim : Limits} {bp : BuildProfile} {lib : AwsLc} {laws : AwsLcLaws lib}.
Context {env : Environment} {env_ok : EnvironmentOk env}.

Lemma reach_sinv h s : reach h s -> sinv h s /\ Forall sent_ok h /\ gated [] h.
Proof using laws env_ok.
  induction 1 as [c1 c2 local method s outs Hl Hi|h s ev s' outs _ (Hs & Hsent & Hg) Hev Hstep].
  - destruct (session_init_ok (E := Empty_set) c1 c2 local method Hl)
      as [[Hp _] | (s' & outs' & go & Heq & Hsent & Hg & Hi')]; [congruence|].
    rewrite Hi in Heq. simplify_eq. split; [by apply Hi'|done].
  - destruct (session_step_ok (E := Empty_set) h s ev Hs Hev)
      as [[Hp _] | (s2 & outs' & go & Heq & Hsent' & Hg' & Hi')]; [congruence|].
    rewrite Hstep in Heq. simplify_eq. split; [by apply Hi'|].
    split; [by apply Forall_app|]. by apply gated_app.
Qed.

Lemma gated_split h o1 ip o2 :
  gated h (o1 ++ ToKernel ip :: o2) ->
  exists a k, granted (h ++ o1) a /\ bring_up a = Some k /\ KpppSession.is_kernel k = false /\
    len ip <= KpppSession.mtu k.
Proof. rewrite gated_app. by intros [_ [Hk _]]. Qed.

(** Whatever the peer sends, an IP packet is handed to the data path only after the session asked
    RADIUS about credentials and was answered with an Accept; the data path in use was brought up
    with the addresses of that Accept (with the MTU clamped to the peer's MRU), and the packet is no
    longer than its MTU.  This covers the outputs of the turn that ends the session. *)
Theorem traffic_only_after_radius_accept h s ev s' outs go o1 ip o2 :
  reach h s -> session_event_ok s ev -> Session.step (E := Empty_set) s ev = Ok (s', outs, go) ->
  h ++ outs = o1 ++ ToKernel ip :: o2 ->
  exists q a a' k,
    Ask q ∈ o1 /\ answer q = AuthVerdict.Accept a /\ Access.clamped a a' /\
    bring_up a' = Some k /\ KpppSession.is_kernel k = false /\ len ip <= KpppSession.mtu k.
Proof using laws env_ok.
  intros Hr Hev Hstep Heq. destruct (reach_sinv h s Hr) as (Hs & _ & Hg).
  destruct (session_step_ok (E := Empty_set) h s ev Hs Hev)
    as [[Hp _] | (s2 & outs' & go' & Heq' & _ & Hg' & _)]; [congruence|].
  rewrite Hstep in Heq'. simplify_eq.
  assert (gated [] (h ++ outs')) as Hall by (by apply gated_app).
  rewrite Heq in Hall. destruct (gated_split _ _ _ _ Hall) as (a' & k & (q & a & Hq & Ha & Hc) & Hk).
  exists q, a, a', k. done.
Qed.


End Executions.

(** ** The receive loop and the way bytes arrive *)

Lemma parse_app buf p n c :
  Packet.parse buf = Ok (p, n) -> Packet.parse (buf ++ c) = Ok (p, n).
Proof.
  intros Hp. apply (parse_stable buf p n (drop (Z.to_nat n) buf ++ c)) in Hp.
  by rewrite app_assoc, take_drop in Hp.
Qed.

Section Chunks.
Context {bp : BuildProfile} {lib : AwsLc} {env : Environment} {E : Type}.

Lemma on_control_packet_app s ctrl n raw c :
  Packet.parse raw = Ok (Packet.Control ctrl, n) ->
  Session.on_control_packet (E := E) s ctrl n (raw ++ c) = Session.on_control_packet s ctrl n raw.
Proof.
  intros Hp. unfold Session.on_control_packet.
  destruct (parse_control ctrl) as [msg|e|] eqn:Hc; cbn [catch mbind res_bind]; [|done|done].
  destruct msg as [|cb| | | | | |]; try done.
  destruct (call_connected_packet _ _ _ _ Hp Hc) as (-> & Hl & _). unfold CALL_CONNECTED_LEN in *.
  rewrite !slice_ok by len_lia. unfold sub. cbn [Z.to_nat drop].
  by rewrite !drop_0, take_app_le by len_lia.
Qed.

Lemma drain_fuel f f' s rest :
  (length rest < f)%nat -> (length rest < f')%nat ->
  Session.drain (E := E) f s rest = Session.drain f' s rest.
Proof.
  revert f' s rest. induction f as [|f IH]; intros [|f'] s rest Hf Hf'; try lia.
  cbn [Session.drain]. destruct (parse_total rest) as [_ Hrange].
  destruct (Packet.parse rest) as [[pkt n]|e|] eqn:Hp; [|by destruct e|done].
  destruct (Hrange pkt n eq_refl) as [Hn _].
  destruct (match pkt with Packet.Data payload => _ | Packet.Control ctrl => _ end)
    as [[[s1 o1] go]| |]; [|done|done]. cbn [mbind res_bind]. destruct go; [|done]. cbn [negb].
  by rewrite (IH f') by len_lia.
Qed.

(** The loop on a prefix, then on the rest with what the prefix left over. *)
Lemma drain_prefix g f s r c s1 o1 rest :
  (length (r ++ c) < g)%nat -> (length (r ++ c) < f)%nat ->
  Session.drain (E := E) g s r = Ok (s1, o1, true, rest) ->
  Session.drain (E := E) g s (r ++ c)
  = '(s2, o2, go, rest2) ← Session.drain f s1 (rest ++ c); Ok (s2, o1 ++ o2, go, rest2).
Proof.
  revert s r s1 o1 rest. induction g as [|g IH]; intros s r s1 o1 rest Hlen Hf Hd; [lia|].
  cbn [Session.drain] in Hd. destruct (parse_total r) as [_ Hrange].
  destruct (Packet.parse r) as [[pkt n]|e|] eqn:Hp; [| |done].
  - destruct (Hrange pkt n eq_refl) as [Hn _]. cbn [Session.drain]. rewrite (parse_app _ _ _ c Hp).
    assert (match pkt with Packet.Data payload => Session.on_data (E := E) s payload
                         | Packet.Control ctrl => Session.on_control_packet s ctrl n (r ++ c) end
            = match pkt with Packet.Data payload => Session.on_data s payload
                           | Packet.Control ctrl => Session.on_control_packet s ctrl n r end) as ->
      by (destruct pkt; [done|by rewrite on_control_packet_app]).
    destruct (match pkt with Packet.Data payload => _ | Packet.Control ctrl => _ end)
      as [[[s2 o2] go]| |]; [|done|done]. cbn [mbind res_bind] in *. destruct go; [|done].
    cbn [negb] in *. apply bind_ok in Hd as ([[[s3 o3] go3] rest3] & Hd & Heq). simplify_eq.
    rewrite drop_app_le by lia. rewrite (IH s2 _ s1 o3 rest) by (done || len_lia).
    destruct (Session.drain f s1 (rest ++ c)) as [[[[s4 o4] go4] rest4]| |]; [|done|done].
    cbn [mbind res_bind]. by rewrite app_assoc.
  - assert (s1 = s /\ o1 = [] /\ rest = r) as (-> & -> & ->) by (by destruct e; simplify_eq).
    rewrite (drain_fuel (S g) f) by done.
    by destruct (Session.drain f s (r ++ c)) as [[[[s4 o4] go4] rest4]| |].
Qed.

End Chunks.


(** A control packet whose declared length is 4 to 7 bytes, at the head of the receive buffer. *)
Definition stalled (rx : bytes) : Prop :=
  exists n tail, 4 <= n < 8 /\ rx = [0x10; 1; 0; n] ++ tail /\ n - 4 <= len tail.

Lemma stalled_app rx c : stalled rx -> stalled (rx ++ c).
Proof.
  intros (n & tail & Hn & -> & Hl). exists n, (tail ++ c). split; [done|]. split; [by rewrite <- app_assoc|len_lia].
Qed.

Lemma stalled_parse rx : stalled rx -> Packet.parse rx = Err Truncated.
Proof.
  intros (n & tail & Hn & -> & Hl). rewrite parse_eq.
  change (byte_at ([16; 1; 0; n] ++ tail) 0) with 16. change (byte_at ([16; 1; 0; n] ++ tail) 1) with 1.
  assert (header_length ([16; 1; 0; n] ++ tail) = n) as Hh.
  { unfold header_length. change (byte_at _ 2) with 0. change (byte_at _ 3) with n.
    rewrite land_12bit. unfold be16. rewrite Z.mod_small by lia. lia. }
  rewrite Hh. replace (_ <? 4) with false by len_lia. cbn [negb].
  replace (16 =? 16) with true by done. cbn [negb].
  replace (n <? 4) with false by lia. replace (n >? _) with false by len_lia.
  change (Z.land 1 1 =? 0) with false. cbn [negb]. rewrite parse_body_eq.
  by replace (len (sub _ 4 n) <? 4) with true by (rewrite len_sub; len_lia).
Qed.

(** A control packet that declares a length of 4 to 7 bytes stalls the session for good: it is
    complete and malformed, but the receive loop takes it for an incomplete one, so from then on every
    read only grows the buffer and nothing the peer sends is processed. *)
Theorem short_control_packet_stalls {bp : BuildProfile} {lib : AwsLc} {env : Environment} s chunk :
  stalled (Session.rx_buf s) -> chunk <> [] -> Session.pending_hlak s = None ->
  exists s', Session.step (E := Empty_set) s (Session.Read chunk) = Ok (s', [], true) /\
    Session.rx_buf s' = Session.rx_buf s ++ chunk /\ stalled (Session.rx_buf s') /\
    Session.pending_hlak s' = None /\ Session.ppp s' = Session.ppp s /\
    Server.ssm (Session.server s') = Server.ssm (Session.server s).
Proof.
  intros Hst Hc Hh. unfold Session.step, Session.apply_hlak. rewrite Hh. cbn [mbind res_bind].
  unfold Session.on_read. replace (len chunk =? 0) with false by (destruct chunk; [done|len_lia]).
  cbn [Session.drain Session.rx_buf Session.with_server]. cbv zeta.
  rewrite (stalled_parse _ (stalled_app _ chunk Hst)). cbn [mbind res_bind].
  eexists. split; [done|]. cbn. split; [done|]. split; [by apply stalled_app|]. done.
Qed.

(** ** A session, byte for byte *)

(** ** Feeding a session

    Runs of the session on concrete reads, in any environment. *)

Section Feeding.
Context {bp : BuildProfile} {lib : AwsLc} {env : Environment}.

(** Feed reads one after the other, as long as the session goes on. *)
Fixpoint feed (s : Session.t) (h : list output) (chunks : list bytes) : option (Session.t * list output) :=
  match chunks with
  | [] => Some (s, h)
  | c :: chunks =>
      match Session.step (E := Empty_set) s (Session.Read c) with
      | Ok (s', outs, true) => feed s' (h ++ outs) chunks
      | _ => None
      end
  end.

(** A read is admissible when its bytes are bytes and no data packet exceeds the limit. *)
Fixpoint fitsb (limit : Z) (fuel : nat) (rest : bytes) : bool :=
  match fuel with
  | O => true
  | S fuel =>
      match Packet.parse rest with
      | Ok (pkt, n) =>
          match pkt with Packet.Data payload => len payload <=? limit | _ => true end &&
          fitsb limit fuel (drop (Z.to_nat n) rest)
      | _ => true
      end
  end.

Definition readable (limit : Z) (s : Session.t) (c : bytes) : bool :=
  forallb (fun b => (0 <=? b) && (b <? 256)) c &&
  fitsb limit (S (length (Session.rx_buf s ++ c))) (Session.rx_buf s ++ c).

Lemma fitsb_ok {lim : Limits} fuel rest : fitsb frame_in fuel rest = true -> data_fits fuel rest.
Proof.
  revert rest. induction fuel as [|fuel IH]; intros rest; [done|]. cbn [fitsb data_fits].
  destruct (Packet.parse rest) as [[pkt n]| |]; [|done|done].
  intros [Hp Hf]%andb_true_iff. split; [destruct pkt; [lia|done]|auto].
Qed.

Lemma readable_ok {lim : Limits} s c :
  readable frame_in s c = true -> session_event_ok s (Session.Read c).
Proof.
  intros [Hu Hf]%andb_true_iff. split.
  - apply Forall_forall. intros b Hb. apply list_elem_of_In in Hb.
    eapply forallb_forall in Hu; [|done]. unfold u8. lia.
  - by apply fitsb_ok.
Qed.

Fixpoint all_readable (limit : Z) (s : Session.t) (chunks : list bytes) : bool :=
  match chunks with
  | [] => true
  | c :: chunks =>
      readable limit s c &&
      match Session.step (E := Empty_set) s (Session.Read c) with
      | Ok (s', _, true) => all_readable limit s' chunks
      | _ => true
      end
  end.

Lemma feed_reach {lim : Limits} chunks s h s' h' :
  reach h s -> all_readable frame_in s chunks = true -> feed s h chunks = Some (s', h') -> reach h' s'.
Proof.
  revert s h. induction chunks as [|c chunks IH]; intros s h Hr; cbn [all_readable feed].
  - by intros _ [= <- <-].
  - intros [Hc Ha]%andb_true_iff Hf.
    destruct (Session.step s (Session.Read c)) as [[[s1 outs] [|]]| |] eqn:Hs; try done.
    eapply IH; [|done|done]. by apply (reach_step h s (Session.Read c) s1 outs); [|apply readable_ok|].
Qed.

End Feeding.

Module Run.

#[local] Instance release : BuildProfile := false.
#[local] Existing Instance ToyCrypto.toy.
#[local] Existing Instance ToyCrypto.toy_laws.

(** A RADIUS server that knows one password, a TUN data path, and a counting generator. *)
#[local] Instance world : Environment := {|
  submit_pap turn user password :=
    if bytes_eqb password [0x78] then AuthVerdict.Accept sample_addrs else AuthVerdict.Reject [];
  submit_chap turn user chap_id response challenge := AuthVerdict.Reject [];
  submit_mschapv2 turn user chap_id ac pc nt flags :=
    {| MsChapOutcome.verdict := AuthVerdict.Reject []; MsChapOutcome.auth_response := None;
       MsChapOutcome.error_string := None; MsChapOutcome.hlak := None |};
  bring_up a :=
    Some {| KpppSession.is_kernel := false; KpppSession.mtu := default 1500 (AssignedAddrs.mtu a) |};
  random draw n := replicate (Z.to_nat n) (Z.of_nat draw mod 256)
|}.

#[local] Instance world_ok : EnvironmentOk world.
Proof.
  split.
  - intros draw n Hn. cbn. len_lia.
  - intros [user password| |] a; cbn; try done. destruct (bytes_eqb _ _); [|done].
    intros [= <-]. apply sample_addrs_ok.
Qed.

Definition start : Session.t * list output := Eval vm_compute in
  match Session.init (E := Empty_set) Exchange.cert1 Exchange.cert2 [10; 0; 0; 1] AuthMethod.Pap with
  | Ok (s, outs, true) => (s, outs)
  | _ => ({| Session.server := Exchange.start; Session.ppp := None; Session.ppp_timer := None;
             Session.kppp := None; Session.pending_hlak := None; Session.rx_buf := [];
             Session.tx_buf := []; Session.draws := 0; Session.local_ip := [];
             Session.auth_method := AuthMethod.Pap |}, [])
  end.

Lemma start_reach {lim : Limits} : reach start.2 start.1.
Proof.
  apply (reach_init Exchange.cert1 Exchange.cert2 [10; 0; 0; 1] AuthMethod.Pap); [done|by vm_compute].
Qed.

(** The peer's packets. *)
Definition connect_request : bytes := [0x10; 1; 0; 14; 0; 1; 0; 1; 0; 1; 0; 6; 0; 1].
Definition lcp (c i : Z) (d : bytes) : bytes := data_packet (lcp_frame (packet c i d)).
Definition pap (c i : Z) (d : bytes) : bytes := data_packet (frame_bytes 0xC023 (lcp_bytes (packet c i d))).
Definition ipcp (c i : Z) (d : bytes) : bytes := data_packet (ipcp_frame (packet c i d)).
Definition ip_packet : bytes := [0x45; 0; 0; 20].

Definition to_network : list bytes :=
  [connect_request; lcp 2 1 [3; 4; 0xC0; 0x23] ++ lcp 1 7 [1; 4; 5; 20]; pap 1 9 [1; 0x62; 1; 0x78];
   ipcp 2 1 [3; 6; 10; 0; 0; 1]; ipcp 1 4 [3; 6; 10; 0; 0; 7]].

Definition networked : Session.t * list output := Eval vm_compute in default start (feed start.1 start.2 to_network).

Lemma networked_reach {lim : Limits} :
  all_readable frame_in start.1 to_network = true -> reach networked.2 networked.1.
Proof.
  intros Ha. apply (feed_reach to_network start.1 start.2); [apply start_reach|done|by vm_compute].
Qed.

(** The session after the handshake, small frames only, and the peer's first IP packet. *)
Definition first_traffic : bytes := data_packet (frame_bytes 0x0021 ip_packet).

Definition forwarded : Session.t * list output := Eval vm_compute in
  match Session.step (E := Empty_set) networked.1 (Session.Read first_traffic) with
  | Ok (s, outs, true) => (s, outs)
  | _ => start
  end.

Lemma traffic_only_after_radius_accept_witness :
  exists q a a' k,
    Ask q ∈ networked.2 /\ answer q = AuthVerdict.Accept a /\ Access.clamped a a' /\
    bring_up a' = Some k /\ KpppSession.is_kernel k = false /\ len ip_packet <= KpppSession.mtu k.
Proof.
  apply (traffic_only_after_radius_accept (lim := sstp_limits) networked.2 networked.1
           (Session.Read first_traffic) forwarded.1 forwarded.2 true networked.2 ip_packet []).
  - apply networked_reach. by vm_compute.
  - apply readable_ok. by vm_compute.
  - by vm_compute.
  - by vm_compute.
Defined.



(** A session stalled by a five-byte control packet. *)
Definition stuck : Session.t := Eval vm_compute in
  match Session.step (E := Empty_set) start.1 (Session.Read [0x10; 1; 0; 5; 0]) with
  | Ok (s, _, _) => s
  | _ => start.1
  end.

Lemma short_control_packet_stalls_witness :
  exists s', Session.step (E := Empty_set) stuck (Session.Read connect_request) = Ok (s', [], true) /\
    Session.rx_buf s' = Session.rx_buf stuck ++ connect_request /\ stalled (Session.rx_buf s') /\
    Session.pending_hlak s' = None /\ Session.ppp s' = Session.ppp stuck /\
    Server.ssm (Session.server s') = Server.ssm (Session.server stuck).
Proof.
  apply (short_control_packet_stalls stuck connect_request); [|done|done].
  exists 5, [0]. done.
Defined.

(** A maximum-size data packet: an LCP Configure-Request without address and control bytes, whose 4085
    bytes of options are all acceptable. *)
Definition big_options : bytes := concat (replicate 680 [5; 6; 1; 2; 3; 4]) ++ [5; 5; 1; 2; 3].

Definition big_request : bytes :=
  data_packet (to_be16 0xC021 ++ lcp_bytes (packet 1 9 big_options)).

Definition called : Session.t * list output := Eval vm_compute in
  default start (feed start.1 start.2 [connect_request]).

End Run.


(** The data path comes up and forwards the peer's IP packets while the SSTP call is not yet
    connected: no Call Connected, hence no verified crypto binding, is needed before traffic flows. *)
Theorem traffic_before_call_connected :
  exists h s ip,
    reach (lim := small_limits) (bp := false) (lib := ToyCrypto.toy) (env := Run.world) h s /\
    ToKernel ip ∈ h /\
    StateMachine.state (Server.ssm (Session.server s)) = State.ServerCallConnectedPending.
Proof.
  exists (Run.networked.2 ++ Run.forwarded.2), Run.forwarded.1, Run.ip_packet. split_and!.
  - apply (reach_step Run.networked.2 Run.networked.1 (Session.Read Run.first_traffic)).
    + apply Run.networked_reach. by vm_compute.
    + apply readable_ok. by vm_compute.
    + by vm_compute.
  - apply elem_of_app. right. vm_compute. constructor.
  - by vm_compute.
Qed.
