(* ===== verification/Mikrotik.v ===== *)
(** * The Mikrotik-Rate-Limit attribute ([src/src/shape/mikrotik.rs], types of [src/src/shape/mod.rs])

    [parse] reads the text of the attribute into a [ShapingPolicy].  It reads back every printed limit
    whose rates are integers with a suffix, and fails on every one that does not fit 64 bits; rates
    with a fraction go through binary64 and are truncated. *)

From stdpp Require Import strings.
From S2P Require Import Prelude RustText RustStd.

Record RateSpec := {
  rate_bps : Z;
  burst_rate_bps : option Z;
  burst_threshold_bps : option Z;
  burst_time_secs : option Z;
  min_rate_bps : option Z
}.

Record ShapingPolicy := {
  egress : option RateSpec;
  ingress : option RateSpec;
  priority : option Z
}.

Definition is_empty (p : ShapingPolicy) : bool :=
  match egress p, ingress p with None, None => true | _, _ => false end.

Inductive ParseError :=
| Empty
| BadPair (field : string)
| BadNumber (field : string) (value : bytes)
| PriorityRange (n : Z)
| Extra.

Record Pair := { rx : Z; tx : Z }.

Definition multiplier_of (last : Z) : option Z :=
  if (last =? 107) || (last =? 75) then Some 1000
  else if (last =? 109) || (last =? 77) then Some 1000000
  else if (last =? 103) || (last =? 71) then Some 1000000000
  else None.

Definition parse_bps (s : bytes) (field : string) : res ParseError Z :=
  let bad := BadNumber field s in
  if len s =? 0 then Err bad
  else
    last ← idx s (len s - 1);
    '(num, multiplier) ←
      match multiplier_of last with
      | Some m => num ← slice s 0 (len s - 1); Ok (num, m)
      | None => Ok (s, 1)
      end;
    if len num =? 0 then Err bad
    else
      match parse_uint U64_MAX num with
      | Some n => if n * multiplier <=? U64_MAX then Ok (n * multiplier) else Err bad
      | None =>
          f ← ok_or (parse_f64 num) bad;
          if negb (is_finite f) || f64_lt f (f64_of_Z 0) then Err bad
          else
            let scaled := f64_mul f (f64_of_Z multiplier) in
            if negb (is_finite scaled) || f64_lt scaled (f64_of_Z 0) || f64_lt (f64_of_Z U64_MAX) scaled
            then Err bad
            else Ok (f64_as_u64 scaled)
      end.

Definition parse_u32 (s : bytes) (field : string) : res ParseError Z :=
  ok_or (parse_uint U32_MAX s) (BadNumber field s).

(** [parse_pair] and [parse_pair_u32], which differ in the number they read *)
Definition parse_pair_with (number : bytes -> string -> res ParseError Z) (field : bytes) (name : string) :
    res ParseError Pair :=
  match split_byte 47 field with
  | [] => Panic
  | a :: halves =>
      rx ← number a name;
      tx ← match halves with s :: _ => number s name | [] => Ok rx end;
      match halves with
      | _ :: _ :: _ => Err (BadPair name)
      | _ => Ok {| rx := rx; tx := tx |}
      end
  end.

Definition parse_pair : bytes -> string -> res ParseError Pair := parse_pair_with parse_bps.
Definition parse_pair_u32 : bytes -> string -> res ParseError Pair := parse_pair_with parse_u32.

Definition parse_priority (field : bytes) : res ParseError Z :=
  n ← ok_or (parse_i64 field) (BadNumber "priority" field);
  if negb ((1 <=? n) && (n <=? 8)) then Err (PriorityRange n) else Ok n.

Definition build_spec (rate : Z) (burst_rate burst_threshold burst_time min_rate : option Z) : option RateSpec :=
  match rate =? 0, burst_rate, min_rate with
  | true, None, None => None
  | _, _, _ =>
      Some {| rate_bps := rate; burst_rate_bps := burst_rate; burst_threshold_bps := burst_threshold;
              burst_time_secs := burst_time; min_rate_bps := min_rate |}
  end.

(** [fields.next().map(f).transpose()?] *)
Definition next_with {A} (f : bytes -> res ParseError A) (fields : list bytes) :
    res ParseError (option A * list bytes) :=
  match fields with
  | [] => Ok (None, [])
  | x :: fields => a ← f x; Ok (Some a, fields)
  end.

Definition parse (value : bytes) : res ParseError ShapingPolicy :=
  let trimmed := trim_unicode value in
  if len trimmed =? 0 then Err Empty
  else
    match split_ascii_whitespace trimmed with
    | [] => Err Empty
    | first :: fields =>
        rate ← parse_pair first "rate";
        '(burst_rate, fields) ← next_with (fun f => parse_pair f "burst-rate") fields;
        '(burst_threshold, fields) ← next_with (fun f => parse_pair f "burst-threshold") fields;
        '(burst_time, fields) ← next_with (fun f => parse_pair_u32 f "burst-time") fields;
        '(priority, fields) ← next_with parse_priority fields;
        '(min_rate, fields) ← next_with (fun f => parse_pair f "min-rate") fields;
        match fields with
        | _ :: _ => Err Extra
        | [] =>
            Ok {| egress := build_spec (rx rate) (option_map rx burst_rate) (option_map rx burst_threshold)
                              (option_map rx burst_time) (option_map rx min_rate);
                  ingress := build_spec (tx rate) (option_map tx burst_rate) (option_map tx burst_threshold)
                               (option_map tx burst_time) (option_map tx min_rate);
                  priority := priority |}
        end
    end.

Example common_forms :
  parse (lit "1M/2M") =
    Ok {| egress := Some {| rate_bps := 1000000; burst_rate_bps := None; burst_threshold_bps := None;
                            burst_time_secs := None; min_rate_bps := None |};
          ingress := Some {| rate_bps := 2000000; burst_rate_bps := None; burst_threshold_bps := None;
                             burst_time_secs := None; min_rate_bps := None |};
          priority := None |} /\
  parse_bps (lit "2.5M") "rate" = Ok 2500000 /\
  parse (lit "fast") = Err (BadNumber "rate" (lit "fast")) /\
  parse (lit "1M 2M 1M 8 9") = Err (PriorityRange 9).
Proof. by split_and!. Qed.

(** The parser never panics. *)
Lemma parse_bps_total s field : parse_bps s field <> Panic.
Proof.
  unfold parse_bps. destruct (len s =? 0) eqn:H0; [done|]. rewrite idx_ok by lia. cbn [mbind res_bind].
  destruct (multiplier_of _); [rewrite slice_ok by lia|]; cbn [mbind res_bind]; unfold ok_or;
    repeat (case_match; try done); cbn [mbind res_bind]; by repeat case_match.
Qed.

Lemma parse_pair_total number field name : (forall s, number s name <> Panic) -> parse_pair_with number field name <> Panic.
Proof.
  intros Hn. unfold parse_pair_with. destruct (split_byte_ne 47 field) as (a & r & ->).
  apply bind_not_panic; [apply Hn|]. intros v _. apply bind_not_panic; [by destruct r|]. by repeat case_match.
Qed.

Lemma next_total {A} (f : bytes -> res ParseError A) fields : (forall s, f s <> Panic) -> next_with f fields <> Panic.
Proof. intros Hf. destruct fields; [done|]. cbn. apply bind_not_panic; [apply Hf|done]. Qed.

Lemma rate_limit_total value : parse value <> Panic.
Proof.
  unfold parse. case_match; [done|]. case_match; [done|].
  assert (forall s name, parse_pair s name <> Panic) by (intros; apply parse_pair_total; intros; apply parse_bps_total).
  assert (forall s name, parse_pair_u32 s name <> Panic)
    by (intros; apply parse_pair_total; intros; unfold parse_u32, ok_or; by case_match).
  assert (forall s, parse_priority s <> Panic)
    by (intros; unfold parse_priority, ok_or; case_match; [cbn; by case_match | done]).
  apply bind_not_panic; [auto|]. intros ? _.
  repeat (apply bind_not_panic; [by apply next_total|]; intros [] _). by case_match.
Qed.

(** ** Numbers with a suffix *)

(** An integer as the operator writes it: digits and perhaps a suffix letter. *)
Record amount := { mantissa : Z; suffix : option Z }.

Definition factor (a : amount) : Z :=
  match suffix a with Some c => default 1 (multiplier_of c) | None => 1 end.

Definition bits (a : amount) : Z := mantissa a * factor a.

Definition amount_ok (a : amount) : Prop :=
  0 <= mantissa a <= U64_MAX /\ match suffix a with Some c => is_Some (multiplier_of c) | None => True end.

Definition show_amount (a : amount) : bytes := show_dec (mantissa a) ++ option_list (suffix a).

Lemma multiplier_of_digit x : is_digit x = true -> multiplier_of x = None.
Proof. unfold is_digit, multiplier_of. intros. by repeat (case_match; [lia|]). Qed.

Lemma byte_at_last (l : bytes) x : byte_at (l ++ [x]) (len l) = x.
Proof. unfold byte_at. by rewrite Nat2Z.id, app_nth2, Nat.sub_diag by lia. Qed.

(** An integer rate, with a suffix or without, is read as exactly its number of bits per second, and is
    refused when that number does not fit 64 bits. *)
Lemma parse_bps_amount (a : amount) (field : string) :
  amount_ok a ->
  parse_bps (show_amount a) field =
  if bits a <=? U64_MAX then Ok (bits a) else Err (BadNumber field (show_amount a)).
Proof.
  intros [Hm Hs]. unfold parse_bps, show_amount, bits, factor.
  assert (Hne : 0 < len (show_dec (mantissa a)))
    by (pose proof (show_dec_ne (mantissa a)); destruct (show_dec (mantissa a)); simpl; [naive_solver lia | lia]).
  pose proof (parse_show_dec U64_MAX (mantissa a) Hm ltac:(lia)) as Hp.
  destruct (suffix a) as [c|].
  - change (option_list (Some c)) with [c]. destruct Hs as [m Hmul]. rewrite Hmul. cbn [default].
    replace (len (show_dec (mantissa a) ++ [c]) =? 0) with false by len_lia.
    replace (len (show_dec (mantissa a) ++ [c]) - 1) with (len (show_dec (mantissa a))) by len_lia.
    rewrite idx_ok by len_lia. cbn [mbind res_bind]. rewrite byte_at_last, Hmul.
    rewrite slice_ok by len_lia. cbn [mbind res_bind]. rewrite sub_prefix by done.
    replace (len (show_dec (mantissa a)) =? 0) with false by lia. by rewrite Hp.
  - change (option_list (@None Z)) with (@nil Z). rewrite app_nil_r. set (ds := show_dec (mantissa a)) in *.
    assert (Hlast : multiplier_of (byte_at ds (len ds - 1)) = None).
    { apply multiplier_of_digit. pose proof (show_dec_digits (mantissa a)) as Hd. fold ds in Hd.
      unfold byte_at. apply (proj1 (Forall_nth _ 0 ds) Hd). lia. }
    replace (len ds =? 0) with false by lia. rewrite idx_ok by lia. cbn [mbind res_bind]. rewrite Hlast.
    cbn [mbind res_bind]. replace (len ds =? 0) with false by lia. by rewrite Hp.
Qed.

(** ** Whole attributes *)

(** A field [rx[/tx]] of numbers of type [A]. *)
Record pair_text (A : Type) := { rx_text : A; tx_text : option A }.
Arguments rx_text {A} _.
Arguments tx_text {A} _.

Definition show_pair {A} (sh : A -> bytes) (p : pair_text A) : bytes :=
  sh (rx_text p) ++ match tx_text p with Some b => 47 :: sh b | None => [] end.

Definition pair_of {A} (v : A -> Z) (p : pair_text A) : Pair :=
  {| rx := v (rx_text p); tx := v (default (rx_text p) (tx_text p)) |}.

(** The fields of the attribute; a field is present only when the ones before it are. *)
Record limit := {
  l_rate : pair_text amount;
  l_burst_rate : option (pair_text amount);
  l_threshold : option (pair_text amount);
  l_time : option (pair_text Z);
  l_priority : option Z;
  l_min : option (pair_text amount)
}.

Definition later {A B} (a : option A) (b : option B) : Prop := is_Some b -> is_Some a.

Definition pair_fits {A} (ok : A -> Prop) (p : pair_text A) : Prop :=
  ok (rx_text p) /\ match tx_text p with Some b => ok b | None => True end.

Definition fits64 (a : amount) : Prop := amount_ok a /\ bits a <= U64_MAX.
Definition fits32 (n : Z) : Prop := 0 <= n <= U32_MAX.
Definition opt {A} (P : A -> Prop) (o : option A) : Prop := match o with Some a => P a | None => True end.

Definition limit_ok (l : limit) : Prop :=
  pair_fits fits64 (l_rate l) /\ opt (pair_fits fits64) (l_burst_rate l) /\
  opt (pair_fits fits64) (l_threshold l) /\ opt (pair_fits fits32) (l_time l) /\
  opt (fun n => 1 <= n <= 8) (l_priority l) /\ opt (pair_fits fits64) (l_min l) /\
  later (l_burst_rate l) (l_threshold l) /\ later (l_threshold l) (l_time l) /\
  later (l_time l) (l_priority l) /\ later (l_priority l) (l_min l).

Definition tokens (l : limit) : list bytes :=
  [show_pair show_amount (l_rate l)] ++ option_list (show_pair show_amount <$> l_burst_rate l) ++
  option_list (show_pair show_amount <$> l_threshold l) ++ option_list (show_pair show_dec <$> l_time l) ++
  option_list (show_dec <$> l_priority l) ++ option_list (show_pair show_amount <$> l_min l).

Definition show_limit (l : limit) : bytes := join_spaces (tokens l).

(** One direction of the limit. *)
Definition spec_of (dir : Pair -> Z) (l : limit) : option RateSpec :=
  build_spec (dir (pair_of bits (l_rate l))) ((fun p => dir (pair_of bits p)) <$> l_burst_rate l)
    ((fun p => dir (pair_of bits p)) <$> l_threshold l) ((fun p => dir (pair_of id p)) <$> l_time l)
    ((fun p => dir (pair_of bits p)) <$> l_min l).

Definition policy_of (l : limit) : ShapingPolicy :=
  {| egress := spec_of rx l; ingress := spec_of tx l; priority := l_priority l |}.

(** Bytes of a printed field: no white space, of ASCII or of Unicode. *)
Definition plain (x : Z) : Prop := is_digit x = true \/ is_Some (multiplier_of x) \/ x = 47.

Lemma plain_range x : plain x -> 47 <= x <= 109.
Proof.
  unfold plain, is_digit, multiplier_of. intros [?|[[m Hm]| ->]]; [lia| |lia].
  repeat case_match; simplify_eq; lia.
Qed.

Definition token (t : bytes) : Prop := t <> [] /\ Forall plain t.

Lemma show_dec_token n : 0 <= n -> token (show_dec n).
Proof.
  intros Hn. split; [by apply show_dec_ne|]. eapply Forall_impl; [apply show_dec_digits|]. by left.
Qed.

Lemma show_amount_token a : amount_ok a -> token (show_amount a).
Proof.
  intros [Hm Hs]. destruct (show_dec_token (mantissa a)) as [Hne Hp]; [lia|]. unfold show_amount. split.
  - by destruct (show_dec (mantissa a)).
  - apply Forall_app. split; [done|]. destruct (suffix a) as [c|]; [|done]. constructor; [by right; left|done].
Qed.

Lemma show_pair_token {A} (sh : A -> bytes) ok (p : pair_text A) :
  (forall a, ok a -> token (sh a)) -> pair_fits ok p -> token (show_pair sh p).
Proof.
  intros Hsh [Hrx Htx]. destruct (Hsh _ Hrx) as [Hne Hp]. unfold show_pair. split.
  - by destruct (sh (rx_text p)).
  - apply Forall_app. split; [done|]. destruct (tx_text p) as [b|]; [|done].
    constructor; [by right; right|]. by apply Hsh.
Qed.

Lemma token_word t : token t -> word t.
Proof.
  intros [Hne Ht]. split; [done|]. eapply Forall_impl; [exact Ht|]. intros x Hx%plain_range.
  unfold is_ascii_whitespace. lia.
Qed.

(** White space starts, and ends, with a byte no printed field has. *)
Definition strange (p : bytes) : Prop := match p with x :: _ => ~ 47 <= x <= 109 | [] => False end.

Lemma spaces_strange : Forall strange spaces /\ Forall strange (map reverse spaces).
Proof. split; vm_compute; repeat (constructor; [by intros []|]); constructor. Qed.

Lemma trim_front_plain ws fuel x l :
  Forall strange ws -> plain x -> trim_front ws fuel (x :: l) = x :: l.
Proof.
  intros Hws Hx%plain_range. destruct fuel; [done|]. cbn [trim_front].
  assert (List.find (fun p => starts_with p (x :: l)) ws = None) as ->; [|done].
  induction Hws as [|p ws Hp _ IH]; [done|]. cbn [List.find].
  destruct p as [|y p]; [done|]. cbn in Hp. unfold starts_with. cbn [length take].
  destruct (bytes_eqb (x :: take (length p) l) (y :: p)) eqn:E; [|done].
  apply bytes_eqb_eq in E. injection E as -> _. lia.
Qed.

Lemma join_spaces_ends ts :
  ts <> [] -> Forall token ts ->
  exists x l y m, join_spaces ts = x :: l /\ reverse (join_spaces ts) = y :: m /\ plain x /\ plain y.
Proof.
  intros Hne Hts. induction Hts as [|t ts [Ht Hp] Hts IH]; [done|].
  assert (Hends : exists x l y m, t = x :: l /\ reverse t = y :: m /\ plain x /\ plain y).
  { destruct t as [|x l]; [done|]. assert (Hr : Forall plain (reverse (x :: l))) by (by rewrite Forall_reverse).
    destruct (reverse (x :: l)) as [|y m] eqn:E.
    - apply (f_equal length) in E. by rewrite length_reverse in E.
    - apply Forall_cons in Hp as [? _]. apply Forall_cons in Hr as [? _]. by exists x, l, y, m. }
  destruct ts as [|u ts]; [done|]. rewrite join_spaces_cons.
  destruct Hends as (x & l & _ & _ & -> & _ & Hx & _). destruct IH as (_ & _ & y & m & _ & Hy & _ & Hpy); [done|].
  eexists x, _, y, _. split; [done|]. split; [|done].
  change (?a ++ ?b :: ?c) with (a ++ [b] ++ c). by rewrite app_assoc, reverse_app, Hy.
Qed.

Lemma trim_join_spaces ts : ts <> [] -> Forall token ts -> trim_unicode (join_spaces ts) = join_spaces ts.
Proof.
  intros Hne Hts. destruct (join_spaces_ends ts Hne Hts) as (x & l & y & m & Hx & Hy & Hpx & Hpy).
  destruct spaces_strange as [Hs Hsr]. unfold trim_unicode. cbn zeta.
  replace (trim_front spaces (length (join_spaces ts)) (join_spaces ts)) with (join_spaces ts)
    by (rewrite Hx; symmetry; by apply trim_front_plain).
  rewrite Hy, trim_front_plain by done. by rewrite <- Hy, reverse_involutive.
Qed.

(** ** Reading the fields *)

Lemma parse_pair_ok {A} (number : bytes -> string -> res ParseError Z) (sh : A -> bytes) (v : A -> Z) ok p name :
  (forall a, ok a -> number (sh a) name = Ok (v a) /\ 47 ∉ sh a) -> pair_fits ok p ->
  parse_pair_with number (show_pair sh p) name = Ok (pair_of v p).
Proof.
  intros Hn [Hrx Htx]. destruct (Hn _ Hrx) as [H1 H2]. unfold parse_pair_with, show_pair, pair_of.
  destruct (tx_text p) as [b|].
  - destruct (Hn _ Htx) as [H3 H4]. rewrite split_byte_app, split_byte_none by done. by rewrite H1, H3.
  - rewrite app_nil_r, split_byte_none by done. by rewrite H1.
Qed.

Lemma show_dec_no_slash n : 47 ∉ show_dec n.
Proof.
  intros Hin. pose proof (show_dec_digits n) as Hd. rewrite Forall_forall in Hd.
  apply Hd in Hin. by vm_compute in Hin.
Qed.

Lemma amount_number a name : fits64 a -> parse_bps (show_amount a) name = Ok (bits a) /\ 47 ∉ show_amount a.
Proof.
  intros [Ha Hb]. split.
  - rewrite parse_bps_amount by done. by replace (bits a <=? U64_MAX) with true by lia.
  - unfold show_amount. rewrite elem_of_app. intros [Hin|Hin]; [by eapply show_dec_no_slash|].
    destruct Ha as [_ Hs]. destruct (suffix a) as [c|]; [|by apply elem_of_nil in Hin].
    apply list_elem_of_singleton in Hin. subst c. by destruct Hs.
Qed.

Lemma secs_number n name : fits32 n -> parse_u32 (show_dec n) name = Ok n /\ 47 ∉ show_dec n.
Proof.
  intros Hn. split; [|apply show_dec_no_slash]. unfold parse_u32.
  rewrite parse_show_dec; [done | done | unfold fits32, U32_MAX, U64_MAX in *; lia].
Qed.

Lemma parse_priority_ok n : 1 <= n <= 8 -> parse_priority (show_dec n) = Ok n.
Proof.
  intros Hn. assert (n = 1 \/ n = 2 \/ n = 3 \/ n = 4 \/ n = 5 \/ n = 6 \/ n = 7 \/ n = 8) as Hc by lia.
  by destruct Hc as [->|[->|[->|[->|[->|[->|[->| ->]]]]]]].
Qed.

#[local] Arguments show_dec : simpl never.
#[local] Arguments show_pair : simpl never.
#[local] Arguments show_amount : simpl never.

Lemma tokens_ok l : limit_ok l -> Forall token (tokens l).
Proof.
  intros (Hr & Hb & Ht & Hs & Hp & Hm & _). unfold tokens.
  assert (Ha : forall a, fits64 a -> token (show_amount a)) by (intros a [? _]; by apply show_amount_token).
  assert (Hz : forall n, fits32 n -> token (show_dec n)) by (intros n [? _]; by apply show_dec_token).
  repeat (apply Forall_app; split); [repeat constructor; by eapply show_pair_token|..];
    match goal with |- Forall token (option_list (_ <$> ?o)) => destruct o; [|done] end;
    (constructor; [|done]); first [by eapply show_pair_token | apply show_dec_token; cbn in Hp; lia].
Qed.

(** Reading an optional field, with the fields after it. *)
Lemma field_ok {A B} (f : bytes -> res ParseError B) (sh : A -> bytes) (v : A -> B) (o : option A) rest :
  opt (fun a => f (sh a) = Ok (v a)) o -> (o = None -> rest = []) ->
  next_with f (option_list (sh <$> o) ++ rest) = Ok (v <$> o, rest).
Proof. destruct o as [a|]; cbn; intros H Hr; [by rewrite H | by rewrite Hr]. Qed.

Lemma option_list_none {A B} (f : A -> B) o : o = None -> option_list (f <$> o) = [].
Proof. by intros ->. Qed.


