(* ===== verification/Radius.v ===== *)
(** * RADIUS authentication ([src/src/auth/]: [route.rs], [mod.rs], [reply.rs], [request.rs], [client.rs],
    [bridge.rs])

    The bridge puts the credentials of a session into an Access-Request, asks the configured servers one
    after the other and turns the first answer that counts into a verdict.  The RADIUS library
    ([radius_tokio]: attribute codec, packet buffers, the UDP client, key decryption) is the class
    [RadiusTokio]; a [Deployment] adds the servers, the identifiers and the fate of the dispatcher's
    channels. *)

From stdpp Require Import strings.
From S2P Require Import Prelude RustText RustStd Mikrotik PppDriver Session.

(** ** [route.rs] *)

Module Route.

Record FramedRoute := {
  dest : bytes;
  prefix : Z;
  gateway : option bytes;
  metric : option Z
}.

Inductive FramedRouteParseError :=
| MissingDest
| InvalidDest (s : bytes)
| InvalidPrefix (s : bytes)
| MissingGateway
| InvalidGateway (s : bytes)
| InvalidMetric (s : bytes).

Definition parse_dest_prefix (tok : bytes) : res FramedRouteParseError (bytes * Z) :=
  match split_once 47 tok with
  | Some (addr_part, prefix_part) =>
      addr ← ok_or (parse_ipv4 addr_part) (InvalidDest addr_part);
      prefix ← ok_or (parse_uint U8_MAX prefix_part) (InvalidPrefix prefix_part);
      if 32 <? prefix then Err (InvalidPrefix prefix_part) else Ok (addr, prefix)
  | None =>
      addr ← ok_or (parse_ipv4 tok) (InvalidDest tok);
      o ← idx addr 0;
      Ok (addr, if o <=? 127 then 8 else if o <=? 191 then 16 else 24)
  end.

Definition is_unspecified (a : bytes) : bool := bytes_eqb a [0; 0; 0; 0].

Definition parse (s : bytes) : res FramedRouteParseError FramedRoute :=
  match split_ascii_whitespace s with
  | [] => Err MissingDest
  | dest_tok :: tokens =>
      '(dest, prefix) ← parse_dest_prefix dest_tok;
      match tokens with
      | [] => Err MissingGateway
      | gw_tok :: tokens =>
          gw_addr ← ok_or (parse_ipv4 gw_tok) (InvalidGateway gw_tok);
          let gateway := if is_unspecified gw_addr then None else Some gw_addr in
          metric ← match tokens with
                   | [] => Ok None
                   | m :: _ => n ← ok_or (parse_uint U32_MAX m) (InvalidMetric m); Ok (Some n)
                   end;
          Ok {| dest := dest; prefix := prefix; gateway := gateway; metric := metric |}
      end
  end.

End Route.

(** ** [mod.rs] *)

Record AuthAccept := {
  framed_ip : bytes;
  framed_netmask : option bytes;
  framed_mtu : option Z;
  primary_dns : option bytes;
  secondary_dns : option bytes;
  primary_nbns : option bytes;
  secondary_nbns : option bytes;
  mppe_send_key : bytes;
  mppe_recv_key : bytes;
  mschap2_success : option bytes;
  shaping : option ShapingPolicy;
  framed_routes : list Route.FramedRoute;
  class : option bytes;
  session_timeout : option Z;
  idle_timeout : option Z;
  acct_interim_interval : option Z
}.

Module SessionPolicy.

Record t := {
  framed_routes : list Route.FramedRoute;
  class : option bytes;
  session_timeout : option Z;
  idle_timeout : option Z;
  acct_interim_interval : option Z
}.

Definition default : t :=
  {| framed_routes := []; class := None; session_timeout := None; idle_timeout := None;
     acct_interim_interval := None |}.

Definition from_accept (a : AuthAccept) : t :=
  {| framed_routes := Radius.framed_routes a; class := Radius.class a;
     session_timeout := Radius.session_timeout a; idle_timeout := Radius.idle_timeout a;
     acct_interim_interval := Radius.acct_interim_interval a |}.

End SessionPolicy.

Inductive TransportError :=
| TransportIo (message : bytes)
| TransportTimeout
| TransportOther (message : bytes).

Inductive AuthError :=
| Rejected (reply_message : option bytes)
| UnexpectedChallenge
| MissingAttribute (name : string)
| Transport (e : TransportError)
| Malformed (what : string).

Definition transport_text (e : TransportError) : bytes :=
  match e with
  | TransportIo m => lit "i/o: " ++ m
  | TransportTimeout => lit "no reply within retry budget"
  | TransportOther m => m
  end.

(** The [Display] text of an error; a rejection is never shown. *)
Definition error_text (e : AuthError) : option bytes :=
  match e with
  | Rejected _ => None
  | UnexpectedChallenge => Some (lit "unexpected Access-Challenge")
  | MissingAttribute n => Some (lit "access accepted but missing attribute: " ++ lit n)
  | Transport e => Some (lit "transport: " ++ transport_text e)
  | Malformed w => Some (lit "malformed reply: " ++ lit w)
  end.

(** ** The RADIUS library *)

(** The wire types of attributes and the values they carry. *)
Inductive wire := WIpv4 | WInteger | WText | WBytes.

Definition val (w : wire) : Type := match w with WInteger => Z | _ => bytes end.

(** The handles of [radius_tokio::dict::rfc] and [radius_tokio::dict::microsoft] the code names, by type;
    [MIKROTIK_RATE_LIMIT] is [VsaAttr::<WText>::new(14988, 8)]. *)
Inductive attr : wire -> Type :=
| USER_NAME : attr WText
| NAS_PORT_TYPE : attr WInteger
| NAS_IP_ADDRESS : attr WIpv4
| CALLING_STATION_ID : attr WText
| CALLED_STATION_ID : attr WText
| NAS_IDENTIFIER : attr WText
| CONNECT_INFO : attr WText
| SERVICE_TYPE : attr WInteger
| FRAMED_PROTOCOL : attr WInteger
| FRAMED_IP_ADDRESS : attr WIpv4
| FRAMED_IP_NETMASK : attr WIpv4
| FRAMED_MTU : attr WInteger
| CLASS : attr WBytes
| SESSION_TIMEOUT : attr WInteger
| IDLE_TIMEOUT : attr WInteger
| ACCT_INTERIM_INTERVAL : attr WInteger
| REPLY_MESSAGE : attr WText
| STATE : attr WBytes
| MS_PRIMARY_DNS_SERVER : attr WIpv4
| MS_SECONDARY_DNS_SERVER : attr WIpv4
| MS_PRIMARY_NBNS_SERVER : attr WIpv4
| MS_SECONDARY_NBNS_SERVER : attr WIpv4
| MS_MPPE_SEND_KEY : attr WBytes
| MS_MPPE_RECV_KEY : attr WBytes
| MS_CHAP2_SUCCESS : attr WBytes
| MS_CHAP_ERROR : attr WText
| MS_CHAP_CHALLENGE : attr WBytes
| MS_CHAP2_RESPONSE : attr WBytes
| MIKROTIK_RATE_LIMIT : attr WText
| NAS_PORT : attr WInteger
| ACCT_STATUS_TYPE : attr WInteger
| ACCT_AUTHENTIC : attr WInteger
| ACCT_SESSION_ID : attr WText
| ACCT_DELAY_TIME : attr WInteger
| ACCT_SESSION_TIME : attr WInteger
| ACCT_INPUT_OCTETS : attr WInteger
| ACCT_OUTPUT_OCTETS : attr WInteger
| ACCT_INPUT_GIGAWORDS : attr WInteger
| ACCT_OUTPUT_GIGAWORDS : attr WInteger
| ACCT_INPUT_PACKETS : attr WInteger
| ACCT_OUTPUT_PACKETS : attr WInteger
| ACCT_TERMINATE_CAUSE : attr WInteger
| ERROR_CAUSE : attr WInteger.

(** Attributes the code writes or looks for by number. *)
Inductive raw_attr := USER_PASSWORD | CHAP_PASSWORD | CHAP_CHALLENGE | STATE_RAW | EAP_MESSAGE | FRAMED_ROUTE.

Inductive AccessOutcome :=
| OutcomeAccept (authenticator attributes : bytes)
| OutcomeReject (attributes : bytes)
| OutcomeChallenge (attributes : bytes).

Inductive ClientError :=
| ClientIo (message : bytes)
| ClientTimeout
| ClientOther (message : bytes).

Record SocketAddr := { ip : IpAddr; port : Z }.

(** [radius_tokio]; [turn] and [attempt] tell repeated requests apart.  An iteration over attributes ends
    with [None] where the list is malformed. *)
Class RadiusTokio := {
  CodecError : Type;
  PacketBuffer : Type;
  code : raw_attr -> Z;
  FRAMED_USER : Z;
  PPP : Z;
  add : forall {w}, PacketBuffer -> attr w -> val w -> res CodecError PacketBuffer;
  add_attribute : PacketBuffer -> Z -> bytes -> res CodecError PacketBuffer;
  user_password_encrypt : bytes -> bytes -> bytes -> bytes;
  first : forall {w}, bytes -> attr w -> option (val w);
  iter : bytes -> list (option (Z * bytes));
  mppe_key_decrypt : bytes -> bytes -> bytes -> option bytes;
  reassemble : bytes -> bytes;
  access_request (turn attempt : nat) (server : SocketAddr) (secret : bytes)
    (build : PacketBuffer -> bytes -> res CodecError PacketBuffer) : AccessOutcome + ClientError
}.

(** What became of a job handed to the dispatcher. *)
Inductive dispatch := Served | QueueClosed | ReplyDropped.

Class Deployment := {
  servers : list (SocketAddr * bytes);
  nas_identifier : option bytes;
  peer : SocketAddr;
  dispatched (turn : nat) : dispatch
}.

Section Auth.
Context {lib : RadiusTokio}.

(** ** [reply.rs] *)

Definition MIN_ACCT_INTERIM : Z := 30.

Definition mppe_key (attrs secret ra : bytes) (handle : attr WBytes) : res AuthError bytes :=
  match first attrs handle with
  | None => Ok []
  | Some raw => ok_or (mppe_key_decrypt raw secret ra) (Malformed "MPPE key decrypt failed")
  end.

Definition mikrotik_rate_limit (attrs : bytes) : option ShapingPolicy :=
  match first attrs MIKROTIK_RATE_LIMIT with
  | None => None
  | Some value =>
      match Mikrotik.parse value with
      | Ok p => if negb (Mikrotik.is_empty p) then Some p else None
      | _ => None
      end
  end.

(** The loop over the attributes of [decode_framed_routes]. *)
Fixpoint routes_loop (slots : list (option (Z * bytes))) : list Route.FramedRoute :=
  match slots with
  | [] => []
  | None :: _ => []
  | Some (ty, value) :: slots =>
      if negb (ty =? code FRAMED_ROUTE) then routes_loop slots
      else
        match from_utf8 value with
        | None => routes_loop slots
        | Some text =>
            match Route.parse text with
            | Ok r => r :: routes_loop slots
            | _ => routes_loop slots
            end
        end
  end.

Definition decode_framed_routes (attrs : bytes) : list Route.FramedRoute := routes_loop (iter attrs).

Definition decode_accept (attrs secret request_authenticator : bytes) : res AuthError AuthAccept :=
  framed_ip ← ok_or (first attrs FRAMED_IP_ADDRESS) (MissingAttribute "Framed-IP-Address");
  mppe_send_key ← mppe_key attrs secret request_authenticator MS_MPPE_SEND_KEY;
  mppe_recv_key ← mppe_key attrs secret request_authenticator MS_MPPE_RECV_KEY;
  Ok {| framed_ip := framed_ip;
        framed_netmask := first attrs FRAMED_IP_NETMASK;
        framed_mtu := first attrs FRAMED_MTU;
        primary_dns := first attrs MS_PRIMARY_DNS_SERVER;
        secondary_dns := first attrs MS_SECONDARY_DNS_SERVER;
        primary_nbns := first attrs MS_PRIMARY_NBNS_SERVER;
        secondary_nbns := first attrs MS_SECONDARY_NBNS_SERVER;
        mppe_send_key := mppe_send_key;
        mppe_recv_key := mppe_recv_key;
        mschap2_success := option_map (fun raw => drop 1 raw) (first attrs MS_CHAP2_SUCCESS);
        shaping := mikrotik_rate_limit attrs;
        framed_routes := decode_framed_routes attrs;
        class := first attrs CLASS;
        session_timeout := first attrs SESSION_TIMEOUT;
        idle_timeout := first attrs IDLE_TIMEOUT;
        acct_interim_interval :=
          option_map (fun s => if s <? MIN_ACCT_INTERIM then MIN_ACCT_INTERIM else s)
            (first attrs ACCT_INTERIM_INTERVAL) |}.

Definition reject_reason (attrs : bytes) : option bytes := first attrs REPLY_MESSAGE.

Definition mschap_error (attrs : bytes) : option bytes :=
  option_map (fun s : bytes => if len s =? 0 then [] else from_utf8_lossy (drop 1 s)) (first attrs MS_CHAP_ERROR).

(** ** [request.rs] *)

Definition NAS_PORT_TYPE_VIRTUAL : Z := 5.
Definition MAX_ATTR_VALUE : Z := 253.

Record AccessRequestCtx := {
  username : bytes;
  calling_station_id : option bytes;
  ctx_nas_identifier : option bytes;
  nas_ip_address : option bytes;
  called_station_id : option bytes;
  connect_info : option bytes
}.

(** [if let Some(v) = o { buf.add(attr, v)?; }] *)
Definition add_opt {w} (buf : PacketBuffer) (a : attr w) (o : option (val w)) : res CodecError PacketBuffer :=
  match o with Some v => add buf a v | None => Ok buf end.

Definition apply_common (buf : PacketBuffer) (ctx : AccessRequestCtx) : res CodecError PacketBuffer :=
  buf ← add buf USER_NAME (username ctx);
  buf ← add buf NAS_PORT_TYPE NAS_PORT_TYPE_VIRTUAL;
  buf ← add_opt buf NAS_IP_ADDRESS (nas_ip_address ctx);
  buf ← add_opt buf CALLING_STATION_ID (calling_station_id ctx);
  buf ← add_opt buf CALLED_STATION_ID (called_station_id ctx);
  buf ← add_opt buf NAS_IDENTIFIER (ctx_nas_identifier ctx);
  buf ← add_opt buf CONNECT_INFO (connect_info ctx);
  buf ← add buf SERVICE_TYPE FRAMED_USER;
  add buf FRAMED_PROTOCOL PPP.

Definition apply_pap (buf : PacketBuffer) (ctx : AccessRequestCtx) (authenticator secret password : bytes) :
    res CodecError PacketBuffer :=
  buf ← apply_common buf ctx;
  let ct := user_password_encrypt password secret authenticator in
  add_attribute buf (code USER_PASSWORD) ct.

Definition apply_chap_md5 (buf : PacketBuffer) (ctx : AccessRequestCtx) (chap_ident : Z)
    (response challenge : bytes) : res CodecError PacketBuffer :=
  buf ← apply_common buf ctx;
  chap_password ← set_at (zeros 17) 0 chap_ident;
  chap_password ← copy_slice chap_password 1 17 response;
  buf ← add_attribute buf (code CHAP_PASSWORD) chap_password;
  add_attribute buf (code CHAP_CHALLENGE) challenge.

Definition apply_mschapv2 (buf : PacketBuffer) (ctx : AccessRequestCtx) (authenticator_challenge : bytes)
    (chap_ident : Z) (peer_challenge nt_response : bytes) (flags : Z) : res CodecError PacketBuffer :=
  buf ← apply_common buf ctx;
  buf ← add buf MS_CHAP_CHALLENGE authenticator_challenge;
  resp ← set_at (zeros 50) 0 chap_ident;
  resp ← set_at resp 1 flags;
  resp ← copy_slice resp 2 18 peer_challenge;
  resp ← copy_slice resp 26 50 nt_response;
  add buf MS_CHAP2_RESPONSE resp.

(** [payload.chunks(n)] *)
Fixpoint chunks (fuel : nat) (n : nat) (l : bytes) : list bytes :=
  match fuel, l with
  | _, [] => []
  | O, _ => []
  | S fuel, _ => take n l :: chunks fuel n (drop n l)
  end.

(** [for chunk in .. { buf.add_attribute(TYPE, chunk)?; }] *)
Fixpoint add_chunks (buf : PacketBuffer) (cs : list bytes) : res CodecError PacketBuffer :=
  match cs with
  | [] => Ok buf
  | c :: cs => buf ← add_attribute buf (code EAP_MESSAGE) c; add_chunks buf cs
  end.

Definition apply_eap (buf : PacketBuffer) (ctx : AccessRequestCtx) (eap_payload : bytes) (state : option bytes) :
    res CodecError PacketBuffer :=
  buf ← apply_common buf ctx;
  buf ← match state with Some s => add_attribute buf (code STATE_RAW) s | None => Ok buf end;
  if len eap_payload =? 0 then add_attribute buf (code EAP_MESSAGE) []
  else add_chunks buf (chunks (length eap_payload) (Z.to_nat MAX_ATTR_VALUE) eap_payload).

(** ** [client.rs] *)

Definition from_client_error (e : ClientError) : AuthError :=
  match e with
  | ClientIo m => Transport (TransportIo m)
  | ClientTimeout => Transport TransportTimeout
  | ClientOther m => Transport (TransportOther m)
  end.

Definition project_terminal (outcome : AccessOutcome) (secret : bytes) : res AuthError AuthAccept :=
  match outcome with
  | OutcomeAccept authenticator attributes => decode_accept attributes secret authenticator
  | OutcomeReject attributes => Err (Rejected (reject_reason attributes))
  | OutcomeChallenge _ => Err UnexpectedChallenge
  end.

Section Requests.
Variables turn attempt : nat.

Definition authenticate_with (server : SocketAddr) (secret : bytes)
    (build : PacketBuffer -> bytes -> res CodecError PacketBuffer) : res AuthError AuthAccept :=
  match access_request turn attempt server secret build with
  | inl outcome => project_terminal outcome secret
  | inr e => Err (from_client_error e)
  end.

Definition authenticate_pap (server : SocketAddr) (secret : bytes) (ctx : AccessRequestCtx) (password : bytes) :
    res AuthError AuthAccept :=
  authenticate_with server secret (fun buf ra => apply_pap buf ctx ra secret password).

Definition authenticate_chap_md5 (server : SocketAddr) (secret : bytes) (ctx : AccessRequestCtx)
    (chap_ident : Z) (response challenge : bytes) : res AuthError AuthAccept :=
  authenticate_with server secret (fun buf _ => apply_chap_md5 buf ctx chap_ident response challenge).

Definition authenticate_mschapv2 (server : SocketAddr) (secret : bytes) (ctx : AccessRequestCtx)
    (authenticator_challenge : bytes) (chap_ident : Z) (peer_challenge nt_response : bytes) (flags : Z) :
    res AuthError AuthAccept :=
  authenticate_with server secret
    (fun buf _ => apply_mschapv2 buf ctx authenticator_challenge chap_ident peer_challenge nt_response flags).

(** The EAP pass-through, whose only state is the [State] attribute to echo. *)
Inductive EapStep :=
| EapContinue (eap_request : bytes)
| EapAccept (a : AuthAccept)
| EapReject (message : option bytes).

Definition eap_step (state : option bytes) (server : SocketAddr) (secret : bytes) (ctx : AccessRequestCtx)
    (eap_from_peer : bytes) : option bytes * res AuthError EapStep :=
  match access_request turn attempt server secret (fun buf _ => apply_eap buf ctx eap_from_peer state) with
  | inr e => (state, Err (from_client_error e))
  | inl (OutcomeAccept authenticator attributes) =>
      (None, accept ← decode_accept attributes secret authenticator; Ok (EapAccept accept))
  | inl (OutcomeReject attributes) => (None, Ok (EapReject (reject_reason attributes)))
  | inl (OutcomeChallenge attributes) =>
      let eap_request := reassemble attributes in
      if len eap_request =? 0 then (state, Err (Malformed "Access-Challenge without EAP-Message"))
      else (first attributes STATE, Ok (EapContinue eap_request))
  end.
End Requests.

(** ** [bridge.rs] *)

Record AuthOutcome := {
  verdict : AuthVerdict.t;
  outcome_shaping : option ShapingPolicy;
  policy : SessionPolicy.t
}.

Record MsChapResult := {
  ms_outcome : AuthOutcome;
  auth_response : option bytes;
  error_string : option bytes;
  hlak : option bytes
}.

Definition reject (message : bytes) : AuthOutcome :=
  {| verdict := AuthVerdict.Reject message; outcome_shaping := None; policy := SessionPolicy.default |}.

Definition ms_reject (message : bytes) : MsChapResult :=
  {| ms_outcome := reject message; auth_response := None; error_string := None; hlak := None |}.

Definition project_addrs (accept : AuthAccept) : AssignedAddrs.t :=
  {| AssignedAddrs.ip := framed_ip accept;
     AssignedAddrs.mtu :=
       match framed_mtu accept with
       | Some m => if m <=? 65535 then Some (clamp 576 1500 m) else None
       | None => None
       end;
     AssignedAddrs.dns1 := primary_dns accept;
     AssignedAddrs.dns2 := secondary_dns accept;
     AssignedAddrs.nbns1 := primary_nbns accept;
     AssignedAddrs.nbns2 := secondary_nbns accept |}.

Definition accept_outcome (accept : AuthAccept) : AuthOutcome :=
  {| verdict := AuthVerdict.Accept (project_addrs accept);
     outcome_shaping := shaping accept;
     policy := SessionPolicy.from_accept accept |}.

Definition failure_text (last : option bytes) : bytes :=
  match last with
  | None => lit "auth failed: no RADIUS servers reachable"
  | Some e => lit "auth failed: " ++ e
  end.

Definition transport_failure (last : option bytes) : AuthOutcome := reject (failure_text last).

Definition hlak_from_mppe (accept : AuthAccept) : option bytes :=
  if negb (len (mppe_send_key accept) =? 16) || negb (len (mppe_recv_key accept) =? 16) then None
  else Some (mppe_recv_key accept ++ mppe_send_key accept).

Context {dep : Deployment}.

Definition request_ctx (user : bytes) : AccessRequestCtx :=
  {| username := user; calling_station_id := Some (show_ip (ip peer)); ctx_nas_identifier := nas_identifier;
     nas_ip_address := None; called_station_id := None; connect_info := None |}.

(** The failover loop of [run_pap] and [run_chap], with what asks one server. *)
Fixpoint run_basic (ask : nat -> SocketAddr -> bytes -> res AuthError AuthAccept) (attempt : nat)
    (last_transport_err : option bytes) (ss : list (SocketAddr * bytes)) : res Empty_set AuthOutcome :=
  match ss with
  | [] => Ok (transport_failure last_transport_err)
  | (addr, secret) :: ss =>
      match ask attempt addr secret with
      | Ok accept => Ok (accept_outcome accept)
      | Err (Rejected msg) => Ok (reject (default (lit "access rejected") msg))
      | Err e => run_basic ask (S attempt) (error_text e) ss
      | Panic => Panic
      end
  end.

Definition run_pap (turn : nat) (user password : bytes) : res Empty_set AuthOutcome :=
  run_basic (fun attempt addr secret => authenticate_pap turn attempt addr secret (request_ctx user) password)
    0 None servers.

Definition run_chap (turn : nat) (user : bytes) (chap_id : Z) (response challenge : bytes) :
    res Empty_set AuthOutcome :=
  run_basic (fun attempt addr secret =>
               authenticate_chap_md5 turn attempt addr secret (request_ctx user) chap_id response challenge)
    0 None servers.

(** The failover loop of [run_mschapv2]. *)
Fixpoint run_ms (ask : nat -> SocketAddr -> bytes -> AccessOutcome + ClientError) (attempt : nat)
    (last_transport_err : option bytes) (ss : list (SocketAddr * bytes)) : res Empty_set MsChapResult :=
  match ss with
  | [] => Ok (ms_reject (failure_text last_transport_err))
  | (addr, secret) :: ss =>
      match ask attempt addr secret with
      | inl (OutcomeAccept authenticator attributes) =>
          match decode_accept attributes secret authenticator with
          | Ok accept =>
              Ok {| ms_outcome := accept_outcome accept; auth_response := mschap2_success accept;
                    error_string := None; hlak := hlak_from_mppe accept |}
          | Err e => run_ms ask (S attempt) (error_text e) ss
          | Panic => Panic
          end
      | inl (OutcomeReject attributes) =>
          let error_string := mschap_error attributes in
          let reason := match reject_reason attributes with
                        | Some r => r
                        | None => default (lit "access rejected") error_string
                        end in
          Ok {| ms_outcome := reject reason; auth_response := None; error_string := error_string; hlak := None |}
      | inl (OutcomeChallenge _) => run_ms ask (S attempt) (Some (lit "unexpected Access-Challenge")) ss
      | inr e => run_ms ask (S attempt) (error_text (from_client_error e)) ss
      end
  end.

Definition run_mschapv2 (turn : nat) (user : bytes) (chap_id : Z)
    (authenticator_challenge peer_challenge nt_response : bytes) (flags : Z) : res Empty_set MsChapResult :=
  run_ms (fun attempt addr secret =>
            access_request turn attempt addr secret
              (fun buf _ => apply_mschapv2 buf (request_ctx user) authenticator_challenge chap_id peer_challenge
                              nt_response flags))
    0 None servers.

(** [dispatch_basic]; a task that panics drops the reply channel. *)
Definition dispatch_basic (turn : nat) (run : res Empty_set AuthOutcome) : AuthOutcome :=
  match dispatched turn, run with
  | QueueClosed, _ => reject (lit "auth dispatcher unavailable")
  | Served, Ok o => o
  | _, _ => reject (lit "auth dispatcher dropped reply")
  end.

Definition bridge_pap (turn : nat) (user password : bytes) : AuthOutcome :=
  dispatch_basic turn (run_pap turn user password).

Definition bridge_chap (turn : nat) (user : bytes) (chap_id : Z) (response challenge : bytes) : AuthOutcome :=
  dispatch_basic turn (run_chap turn user chap_id response challenge).

Definition bridge_mschapv2 (turn : nat) (user : bytes) (chap_id : Z)
    (authenticator_challenge peer_challenge nt_response : bytes) (flags : Z) : MsChapResult :=
  match dispatched turn,
        run_mschapv2 turn user chap_id authenticator_challenge peer_challenge nt_response flags with
  | QueueClosed, _ => ms_reject (lit "auth dispatcher unavailable")
  | Served, Ok o => o
  | _, _ => ms_reject (lit "auth dispatcher dropped reply")
  end.
End Auth.
