(* ===== verification/RadiusProps.v ===== *)
(** * Properties of RADIUS authentication

    - Access-Requests carry exactly the user name, the link and the credential ([apply_*]).
    - The bridge answers by the first server with an answer that counts, and fails closed.
    - Its verdicts are well formed, so the bridge implements the [Environment] of the session, and the
      session's access control extends to the servers: no traffic without an authentic Access-Accept of a
      configured server for credentials of this session.
    - Routes and EAP messages read back. *)

From stdpp Require Import strings.
From S2P Require Import Prelude SstpFrame Crypto SstpServer RustText RustStd Mikrotik PppFrame Lcp PppFsm PppAuth PppDriver.
From S2P Require Import PppClassify PppAccess Session SessionProps Radius.

(** ** What the RADIUS library promises *)

(** The attributes of a packet, in order. *)
Inductive item :=
| Typed {w : wire} (a : attr w) (v : val w)
| Raw (c : Z) (v : bytes).

(** [contents] is the attribute list of a buffer; [replied] holds of a reply whose authenticators were
    verified against the request and the secret.  The laws are the documented behaviour of the codec (an
    addition appends), of typed access (an IPv4 value has four octets, an integer 32 bits), and of the
    client (an outcome is an authentic reply of that server to the request that was built, with the
    request's authenticator in an Accept). *)
Class RadiusLaws (lib : RadiusTokio) := {
  contents : PacketBuffer -> list item;
  replied : SocketAddr -> bytes -> bytes -> PacketBuffer -> AccessOutcome -> Prop;
  add_appends : forall w buf (a : attr w) v buf',
    add buf a v = Ok buf' -> contents buf' = contents buf ++ [Typed a v];
  add_attribute_appends : forall buf c v buf',
    add_attribute buf c v = Ok buf' -> contents buf' = contents buf ++ [Raw c v];
  first_ipv4 : forall attrs (a : attr WIpv4) v, first attrs a = Some v -> is_v4 v;
  first_integer : forall attrs (a : attr WInteger) v, first attrs a = Some v -> u32 v;
  outcome_authentic : forall turn attempt server secret build o,
    access_request turn attempt server secret build = inl o ->
    exists fresh ra req, contents fresh = [] /\ build fresh ra = Ok req /\ replied server secret ra req o /\
      forall authenticator attributes, o = OutcomeAccept authenticator attributes -> authenticator = ra
}.

Section Auth.
Context {lib : RadiusTokio} {laws : RadiusLaws lib}.

(** ** Requests *)

Definition opt_item {w} (a : attr w) (o : option (val w)) : list item :=
  match o with Some v => [Typed a v] | None => [] end.

Definition common_items (ctx : AccessRequestCtx) : list item :=
  [Typed USER_NAME (username ctx); Typed NAS_PORT_TYPE NAS_PORT_TYPE_VIRTUAL] ++
  opt_item NAS_IP_ADDRESS (nas_ip_address ctx) ++ opt_item CALLING_STATION_ID (calling_station_id ctx) ++
  opt_item CALLED_STATION_ID (called_station_id ctx) ++ opt_item NAS_IDENTIFIER (ctx_nas_identifier ctx) ++
  opt_item CONNECT_INFO (connect_info ctx) ++ [Typed SERVICE_TYPE FRAMED_USER; Typed FRAMED_PROTOCOL PPP].

Lemma add_opt_items {w} buf (a : attr w) o buf' :
  add_opt buf a o = Ok buf' -> contents buf' = contents buf ++ opt_item a o.
Proof. destruct o; cbn; [apply add_appends | intros [= <-]; by rewrite app_nil_r]. Qed.

(** [adds] peels the additions off a successful chain. *)
Ltac adds :=
  repeat match goal with
    | H : (_ ≫= _) = Ok _ |- _ => apply bind_ok in H as (? & ? & H)
    | H : add_opt _ _ _ = Ok _ |- _ => apply add_opt_items in H
    | H : add_attribute _ _ _ = Ok _ |- _ => apply add_attribute_appends in H
    | H : add _ _ _ = Ok _ |- _ => apply add_appends in H
    end.

Lemma apply_common_items buf ctx buf' :
  apply_common buf ctx = Ok buf' -> contents buf' = contents buf ++ common_items ctx.
Proof.
  unfold apply_common, common_items. intros H. adds.
  repeat match goal with H : contents _ = _ |- _ => rewrite H; clear H end.
  by rewrite <- !app_assoc.
Qed.

(** The CHAP-Password attribute: the identifier and the sixteen bytes of the response. *)
Lemma chap_password_eq {E} ident response p :
  (x ← set_at (zeros 17) 0 ident; copy_slice x 1 17 response) = @Ok E bytes p ->
  length response = 16%nat /\ p = ident :: response.
Proof.
  change (zeros 17) with ([] ++ (0 :: zeros 16)). intros (x & Hx & Hp)%bind_ok.
  vm_compute in Hx. injection Hx as <-. unfold copy_slice in Hp. case_match; [|done]. injection Hp as <-.
  split; [cbn in *; lia|]. cbn. by rewrite app_nil_r.
Qed.

Definition mschap2_response (ident flags : Z) (peer_challenge nt_response : bytes) : bytes :=
  [ident; flags] ++ peer_challenge ++ zeros 8 ++ nt_response.

Lemma mschap2_response_eq {E} ident flags pc nt p :
  (x ← set_at (zeros 50) 0 ident; x ← set_at x 1 flags; x ← copy_slice x 2 18 pc; copy_slice x 26 50 nt)
  = @Ok E bytes p ->
  length pc = 16%nat /\ length nt = 24%nat /\ p = mschap2_response ident flags pc nt.
Proof.
  intros (x & Hx & H)%bind_ok. vm_compute in Hx. injection Hx as <-.
  apply bind_ok in H as (x & Hx & H). vm_compute in Hx. injection Hx as <-.
  apply bind_ok in H as (x & Hx & Hp). unfold copy_slice in Hx. case_match; [|done]. injection Hx as <-.
  assert (Hpc : length pc = 16%nat) by (cbn in *; lia).
  unfold copy_slice in Hp. case_match; [|done]. injection Hp as <-. cbn in *.
  split_and!; [done | lia |]. unfold mschap2_response.
  destruct pc as [|? [|? [|? [|? [|? [|? [|? [|? [|? [|? [|? [|? [|? [|? [|? [|? [|]]]]]]]]]]]]]]]]]; try done.
  cbn. by rewrite app_nil_r.
Qed.

(** ** One server *)

Context {dep : Deployment}.

Definition turn_of (q : query) : nat :=
  match q with SubmitPap n _ _ => n | SubmitChap n _ _ _ _ => n | SubmitMsChapV2 n _ _ _ _ _ _ => n end.

Definition user_of (q : query) : bytes :=
  match q with SubmitPap _ u _ => u | SubmitChap _ u _ _ _ => u | SubmitMsChapV2 _ u _ _ _ _ _ => u end.

Definition ctx_of (q : query) : AccessRequestCtx := request_ctx (from_utf8_lossy (user_of q)).

(** The request the bridge builds for a question. *)
Definition build_of (q : query) (secret : bytes) (buf : PacketBuffer) (ra : bytes) : res CodecError PacketBuffer :=
  match q with
  | SubmitPap _ _ password => apply_pap buf (ctx_of q) ra secret password
  | SubmitChap _ _ chap_id response challenge => apply_chap_md5 buf (ctx_of q) chap_id response challenge
  | SubmitMsChapV2 _ _ chap_id ac pc nt flags => apply_mschapv2 buf (ctx_of q) ac chap_id pc nt flags
  end.

(** The credential as it goes into the request. *)
Definition credential (q : query) (secret ra : bytes) : list item :=
  match q with
  | SubmitPap _ _ password => [Raw (code USER_PASSWORD) (user_password_encrypt password secret ra)]
  | SubmitChap _ _ chap_id response challenge =>
      [Raw (code CHAP_PASSWORD) (chap_id :: response); Raw (code CHAP_CHALLENGE) challenge]
  | SubmitMsChapV2 _ _ chap_id ac pc nt flags =>
      [Typed MS_CHAP_CHALLENGE ac; Typed MS_CHAP2_RESPONSE (mschap2_response chap_id flags pc nt)]
  end.

Lemma build_of_items q secret buf ra req :
  contents buf = [] -> build_of q secret buf ra = Ok req ->
  contents req = common_items (ctx_of q) ++ credential q secret ra.
Proof.
  intros Hf. destruct q as [n u p|n u i r c|n u i ac pc nt fl]; cbn [build_of credential].
  - intros (b & Hb & H)%bind_ok. apply apply_common_items in Hb. rewrite Hf in Hb.
    cbn zeta in H. apply add_attribute_appends in H. by rewrite H, Hb.
  - unfold apply_chap_md5. intros (b & Hb & H)%bind_ok. apply apply_common_items in Hb. rewrite Hf in Hb.
    apply bind_ok in H as (x & Hx & H). apply bind_ok in H as (y & Hy & H).
    destruct (chap_password_eq (E := CodecError) i r y) as [_ ->]; [by rewrite Hx|].
    apply bind_ok in H as (z & Hz & H). apply add_attribute_appends in Hz, H.
    rewrite H, Hz, Hb. by rewrite <- app_assoc.
  - unfold apply_mschapv2. intros (b & Hb & H)%bind_ok. apply apply_common_items in Hb. rewrite Hf in Hb.
    apply bind_ok in H as (b1 & Hb1 & H). apply add_appends in Hb1.
    apply bind_ok in H as (x & Hx & H). apply bind_ok in H as (y & Hy & H).
    apply bind_ok in H as (z & Hz & H). apply bind_ok in H as (t & Ht & H).
    destruct (mschap2_response_eq (E := CodecError) i fl pc nt t) as (_ & _ & ->).
    { rewrite Hx. cbn [mbind res_bind]. rewrite Hy. cbn [mbind res_bind]. by rewrite Hz. }
    apply add_appends in H. rewrite H, Hb1, Hb. by rewrite <- app_assoc.
Qed.

(** The answer of one server, as [project_terminal] reads it. *)
Definition server_reply (q : query) (attempt : nat) (server : SocketAddr) (secret : bytes) :
    res AuthError AuthAccept :=
  authenticate_with (turn_of q) attempt server secret (build_of q secret).

Lemma decode_accept_not_panic attrs secret ra : decode_accept attrs secret ra <> Panic.
Proof.
  unfold decode_accept, mppe_key, ok_or.
  destruct (first attrs FRAMED_IP_ADDRESS); [|done]. cbn [mbind res_bind].
  repeat case_match; done.
Qed.

Lemma server_reply_not_panic q k server secret : server_reply q k server secret <> Panic.
Proof.
  unfold server_reply, authenticate_with, project_terminal. repeat case_match; try done.
  apply decode_accept_not_panic.
Qed.

(** An authentic Access-Accept of the server for the question's credentials, and what it says. *)
Definition accepted_by (q : query) (server : SocketAddr) (secret : bytes) (accept : AuthAccept) : Prop :=
  exists ra req attributes,
    replied server secret ra req (OutcomeAccept ra attributes) /\
    contents req = common_items (ctx_of q) ++ credential q secret ra /\
    decode_accept attributes secret ra = Ok accept.

Lemma server_reply_authentic q k server secret accept :
  server_reply q k server secret = Ok accept -> accepted_by q server secret accept.
Proof.
  unfold server_reply, authenticate_with. destruct (access_request _ _ _ _ _) as [o|e] eqn:Ho; [|done].
  destruct (outcome_authentic _ _ _ _ _ _ Ho) as (fresh & ra & req & Hf & Hb & Hr & Ha).
  destruct o as [au attrs|attrs|attrs]; cbn [project_terminal]; try done. intros Hd.
  rewrite (Ha au attrs eq_refl) in *. exists ra, req, attrs. split_and!; [done| |done]. by eapply build_of_items.
Qed.

(** ** Failover *)

(** An answer after which the next server is asked. *)
Definition no_answer (r : res AuthError AuthAccept) : Prop :=
  exists e, r = Err e /\ forall m, e <> Rejected m.

(** The servers before the deciding one had no answer. *)
Definition passed_over (ask : nat -> SocketAddr -> bytes -> res AuthError AuthAccept) (k : nat)
    (pre : list (SocketAddr * bytes)) : Prop :=
  forall i addr secret, pre !! i = Some (addr, secret) -> no_answer (ask (k + i)%nat addr secret).

Lemma passed_over_cons ask k addr secret pre :
  passed_over ask k ((addr, secret) :: pre) <-> no_answer (ask k addr secret) /\ passed_over ask (S k) pre.
Proof.
  unfold passed_over. split.
  - intros H. split; [by specialize (H O addr secret eq_refl); rewrite Nat.add_0_r in H|].
    intros i a s Hi. specialize (H (S i) a s Hi). by rewrite Nat.add_succ_r in H.
  - intros [H0 H] [|i] a s Hi; [injection Hi as -> ->; by rewrite Nat.add_0_r|].
    rewrite Nat.add_succ_r. by apply H.
Qed.

(** The first server with an answer that counts. *)
Definition decides (ask : nat -> SocketAddr -> bytes -> res AuthError AuthAccept) (k : nat)
    (ss : list (SocketAddr * bytes)) (r : res AuthError AuthAccept) : Prop :=
  exists pre addr secret post, ss = pre ++ (addr, secret) :: post /\ passed_over ask k pre /\
    ask (k + length pre)%nat addr secret = r.

Lemma decides_cons ask k addr secret ss r :
  no_answer (ask k addr secret) -> ~ no_answer r ->
  decides ask k ((addr, secret) :: ss) r <-> decides ask (S k) ss r.
Proof.
  intros Hn Hr. split.
  - intros (pre & a & s & post & Heq & Hp & Ha). destruct pre as [|x pre].
    + injection Heq as -> -> ->. cbn in Ha. rewrite Nat.add_0_r in Ha. congruence.
    + injection Heq as <- ->. apply passed_over_cons in Hp as [_ Hp]. exists pre, a, s, post.
      cbn [length] in Ha. by rewrite Nat.add_succ_r in Ha.
  - intros (pre & a & s & post & -> & Hp & Ha). exists ((addr, secret) :: pre), a, s, post.
    split_and!; [done | by apply passed_over_cons |]. cbn [length]. by rewrite Nat.add_succ_r.
Qed.

Lemma decides_here ask k addr secret ss r :
  ~ no_answer (ask k addr secret) -> decides ask k ((addr, secret) :: ss) r <-> ask k addr secret = r.
Proof.
  intros Hn. split.
  - intros (pre & a & s & post & Heq & Hp & Ha). destruct pre as [|[a' s'] pre].
    + injection Heq as -> -> ->. cbn in Ha. by rewrite Nat.add_0_r in Ha.
    + injection Heq as <- <- ->. by apply passed_over_cons in Hp as [? _].
  - intros <-. exists [], addr, secret, ss. cbn. by rewrite Nat.add_0_r.
Qed.

Lemma not_no_answer_ok a : ~ no_answer (Ok a).
Proof. by intros (e & ? & _). Qed.

Lemma not_no_answer_rejected m : ~ no_answer (Err (Rejected m)).
Proof. intros (e & [= <-] & H). by apply (H m). Qed.

#[local] Hint Resolve not_no_answer_ok not_no_answer_rejected : core.

(** The three loops accept what the first server with an answer accepts, and nothing else. *)
Lemma run_basic_accepts ask k last ss :
  (forall k a s, ask k a s <> Panic) ->
  exists o, run_basic ask k last ss = Ok o /\
    forall a, verdict o = AuthVerdict.Accept a <->
      exists accept, decides ask k ss (Ok accept) /\ a = project_addrs accept.
Proof.
  intros Hnp. revert k last. induction ss as [|[addr secret] ss IH]; intros k last; cbn [run_basic].
  - eexists. split; [done|]. intros a. split; [done|]. intros (? & (pre & ? & ? & ? & Heq & _) & _).
    by destruct pre.
  - destruct (ask k addr secret) as [accept|e|] eqn:E; [| |by destruct (Hnp k addr secret)].
    + eexists. split; [done|]. intros a. cbn. split.
      * intros [= <-]. exists accept. split; [|done]. apply decides_here; rewrite E; auto.
      * intros (acc & Hd & ->). apply decides_here in Hd; rewrite E in *; [|auto]. by injection Hd as ->.
    + destruct e as [m| | | |]; [eexists; split; [done|]; intros a; split; [done|];
        intros (acc & Hd & _); apply decides_here in Hd; rewrite E in *; by auto|..];
        (edestruct (IH (S k)) as (o & -> & Ho); exists o; split; [done|]; intros a; rewrite Ho;
         apply exist_proper; intros acc; rewrite decides_cons; [done | rewrite E; by eexists | auto]).
Qed.

Definition reading (ask : nat -> SocketAddr -> bytes -> AccessOutcome + ClientError) (k : nat)
    (server : SocketAddr) (secret : bytes) : res AuthError AuthAccept :=
  match ask k server secret with
  | inl o => project_terminal o secret
  | inr e => Err (from_client_error e)
  end.

Lemma run_ms_accepts ask k last ss :
  exists o, run_ms ask k last ss = Ok o /\
    (forall a, verdict (ms_outcome o) = AuthVerdict.Accept a <->
      exists accept, decides (reading ask) k ss (Ok accept) /\ a = project_addrs accept) /\
    (forall h, hlak o = Some h ->
      exists accept, decides (reading ask) k ss (Ok accept) /\ hlak_from_mppe accept = Some h).
Proof.
  revert k last. induction ss as [|[addr secret] ss IH]; intros k last; cbn [run_ms].
  - eexists. split; [done|]. split; [|done]. intros a. split; [done|].
    intros (? & (pre & ? & ? & ? & Heq & _) & _). by destruct pre.
  - assert (Hskip : forall e last', reading ask k addr secret = Err e -> (forall m, e <> Rejected m) ->
      exists o, run_ms ask (S k) last' ss = Ok o /\
        (forall a, verdict (ms_outcome o) = AuthVerdict.Accept a <->
          exists accept, decides (reading ask) k ((addr, secret) :: ss) (Ok accept) /\ a = project_addrs accept) /\
        (forall h, hlak o = Some h ->
          exists accept, decides (reading ask) k ((addr, secret) :: ss) (Ok accept) /\ hlak_from_mppe accept = Some h)).
    { intros e last' He Hr. assert (Hn : no_answer (reading ask k addr secret)) by (rewrite He; by exists e).
      destruct (IH (S k) last') as (o & Ho & Hv & Hh). exists o. split; [done|]. split.
      - intros a. rewrite Hv. apply exist_proper. intros acc. by rewrite decides_cons by auto.
      - intros h Hs. destruct (Hh h Hs) as (acc & Hd & ?). exists acc. by rewrite decides_cons by auto. }
    destruct (ask k addr secret) as [[au attrs|attrs|attrs]|e] eqn:E.
    + destruct (decode_accept attrs secret au) as [acc|e|] eqn:D; [| |by apply decode_accept_not_panic in D].
      * assert (Hread : reading ask k addr secret = Ok acc) by (unfold reading; by rewrite E).
        assert (Hd : decides (reading ask) k ((addr, secret) :: ss) (Ok acc)) by (apply decides_here; rewrite Hread; auto).
        eexists. split; [done|]. cbn. split; [|by exists acc]. intros a. split; [intros [= <-]; by exists acc|].
        intros (acc' & Hd' & ->). apply decides_here in Hd'; rewrite Hread in *; [|auto]. by injection Hd' as ->.
      * apply (Hskip e); [unfold reading; rewrite E; done|]. intros m ->. revert D.
        unfold decode_accept, mppe_key, ok_or. repeat case_match; try done; cbn; by repeat case_match.
    + assert (Hread : reading ask k addr secret = Err (Rejected (reject_reason attrs))) by (unfold reading; by rewrite E).
      eexists. split; [done|]. split; [|done]. intros a. split; [done|].
      intros (acc & Hd & _). apply decides_here in Hd; rewrite Hread in *; by auto.
    + apply (Hskip UnexpectedChallenge); [unfold reading; by rewrite E | done].
    + apply (Hskip (from_client_error e)); [unfold reading; by rewrite E | by destruct e].
Qed.

(** ** The bridge as the environment of a session *)

Definition radius_env (data_path : AssignedAddrs.t -> option KpppSession.t) (rng : nat -> Z -> bytes) :
    Environment := {|
  submit_pap turn user password := verdict (bridge_pap turn (from_utf8_lossy user) password);
  submit_chap turn user chap_id response challenge :=
    verdict (bridge_chap turn (from_utf8_lossy user) chap_id response challenge);
  submit_mschapv2 turn user chap_id ac pc nt flags :=
    let r := bridge_mschapv2 turn (from_utf8_lossy user) chap_id ac pc nt flags in
    {| MsChapOutcome.verdict := verdict (ms_outcome r); MsChapOutcome.auth_response := auth_response r;
       MsChapOutcome.error_string := error_string r; MsChapOutcome.hlak := hlak r |};
  bring_up := data_path;
  random := rng
|}.

Definition answer_of (q : query) : AuthVerdict.t :=
  @answer (radius_env (fun _ => None) (fun _ _ => [])) q.

Lemma answer_radius data_path rng q : @answer (radius_env data_path rng) q = answer_of q.
Proof. by destruct q. Qed.

Lemma answer_accepts q a :
  answer_of q = AuthVerdict.Accept a <->
  dispatched (turn_of q) = Served /\
  exists accept, decides (server_reply q) 0 servers (Ok accept) /\ a = project_addrs accept.
Proof.
  assert (Hbasic : forall run, (exists o, run = Ok o /\ forall a, verdict o = AuthVerdict.Accept a <->
      exists accept, decides (server_reply q) 0 servers (Ok accept) /\ a = project_addrs accept) ->
    verdict (dispatch_basic (turn_of q) run) = AuthVerdict.Accept a <->
    dispatched (turn_of q) = Served /\
    exists accept, decides (server_reply q) 0 servers (Ok accept) /\ a = project_addrs accept).
  { intros run (o & -> & Ho). unfold dispatch_basic. destruct (dispatched (turn_of q)); cbn; [|naive_solver..].
    rewrite Ho. naive_solver. }
  destruct q as [n u p|n u i r c|n u i ac pc nt fl].
  - apply Hbasic, run_basic_accepts. intros k addr secret. apply (server_reply_not_panic (SubmitPap n u p)).
  - apply Hbasic, run_basic_accepts. intros k addr secret. apply (server_reply_not_panic (SubmitChap n u i r c)).
  - cbn. unfold bridge_mschapv2, run_mschapv2.
    edestruct run_ms_accepts as (o & -> & Ho & _). destruct (dispatched n); cbn; [|naive_solver..].
    rewrite Ho. naive_solver.
Qed.

(** A session's credentials are accepted exactly when the dispatcher served them and the first
    configured server with an answer that counts accepted them: every server before it failed to answer,
    answered with a challenge or with an Accept that cannot be used, and never with a Reject; the
    addresses are those of its Accept. *)
Theorem first_answering_server_decides (q : query) (a : AssignedAddrs.t) :
  answer_of q = AuthVerdict.Accept a <->
  dispatched (turn_of q) = Served /\
  exists pre server secret post accept,
    servers = pre ++ (server, secret) :: post /\
    (forall i server' secret', pre !! i = Some (server', secret') ->
       exists e, server_reply q i server' secret' = Err e /\ forall m, e <> Rejected m) /\
    server_reply q (length pre) server secret = Ok accept /\
    a = project_addrs accept.
Proof.
  rewrite answer_accepts. apply and_iff_compat_l. split.
  - intros (accept & (pre & server & secret & post & Hs & Hp & Hr) & ->).
    exists pre, server, secret, post, accept. by split_and!.
  - intros (pre & server & secret & post & accept & Hs & Hp & Hr & ->). exists accept. split; [|done].
    exists pre, server, secret, post. by split_and!.
Qed.

(** ** Verdicts *)

Lemma decode_accept_v4 attrs secret ra accept :
  decode_accept attrs secret ra = Ok accept -> addrs_ok (project_addrs accept).
Proof.
  unfold decode_accept. intros (fip & Hip & H)%bind_ok. apply bind_ok in H as (k1 & _ & H).
  apply bind_ok in H as (k2 & _ & [= <-]). unfold addrs_ok. cbn. split.
  - destruct (first attrs FRAMED_IP_ADDRESS) eqn:E; [|done]. injection Hip as <-. by eapply first_ipv4.
  - intros v Hv. destruct_or!; by eapply first_ipv4.
Qed.

Lemma project_mtu accept m : AssignedAddrs.mtu (project_addrs accept) = Some m -> 576 <= m <= 1500.
Proof.
  cbn. destruct (framed_mtu accept) as [v|]; [|done]. case_match; [|done]. intros [= <-]. unfold clamp.
  repeat case_match; lia.
Qed.

Lemma decides_member ask k ss r :
  decides ask k ss r -> exists i server secret, (server, secret) ∈ ss /\ ask i server secret = r.
Proof.
  intros (pre & server & secret & post & -> & _ & Hr). eexists _, server, secret. split; [|done].
  apply elem_of_app. right. apply elem_of_cons. by left.
Qed.

Lemma answer_authentic q a :
  answer_of q = AuthVerdict.Accept a ->
  exists server secret accept, (server, secret) ∈ servers /\ accepted_by q server secret accept /\
    a = project_addrs accept.
Proof.
  rewrite answer_accepts. intros (_ & accept & (i & server & secret & Hin & Hr)%decides_member & ->).
  exists server, secret, accept. split_and!; [done| |done]. by eapply server_reply_authentic.
Qed.

Lemma answer_v4 q a : answer_of q = AuthVerdict.Accept a -> addrs_ok a.
Proof.
  intros (server & secret & accept & _ & (ra & req & attrs & _ & _ & Hd) & ->)%answer_authentic.
  by eapply decode_accept_v4.
Qed.

Lemma ms_hlak_len turn user chap_id ac pc nt flags h :
  hlak (bridge_mschapv2 turn user chap_id ac pc nt flags) = Some h -> length h = 32%nat.
Proof.
  unfold bridge_mschapv2, run_mschapv2. edestruct run_ms_accepts as (o & -> & _ & Hh).
  destruct (dispatched turn); cbn; try done. intros Hs. destruct (Hh h Hs) as (accept & _ & Hm). revert Hm.
  unfold hlak_from_mppe. destruct (_ || _) eqn:E; [done|]. intros [= <-]. rewrite length_app. lia.
Qed.

(** C23: What the bridge hands to a session is well typed: an accepting verdict carries an IPv4 address and
    IPv4 name servers of four octets each, and an MTU only between 576 and 1500 whatever Framed-MTU said; a
    higher-layer authentication key has exactly 32 bytes. *)
Theorem verdicts_well_typed (q : query) :
  (forall a, answer_of q = AuthVerdict.Accept a ->
     is_v4 (AssignedAddrs.ip a) /\
     (forall v, AssignedAddrs.dns1 a = Some v \/ AssignedAddrs.dns2 a = Some v \/
        AssignedAddrs.nbns1 a = Some v \/ AssignedAddrs.nbns2 a = Some v -> is_v4 v) /\
     (forall m, AssignedAddrs.mtu a = Some m -> 576 <= m <= 1500)) /\
  (forall turn user chap_id ac pc nt flags h,
     hlak (bridge_mschapv2 turn user chap_id ac pc nt flags) = Some h -> length h = 32%nat).
Proof.
  split; [|apply ms_hlak_len]. intros a Ha. pose proof (answer_v4 q a Ha) as [? ?]. split_and!; try done.
  apply answer_authentic in Ha as (server & secret & accept & _ & _ & ->). apply project_mtu.
Qed.
End Auth.

(** ** Sessions over RADIUS *)

Section Composition.
Context {lib : RadiusTokio} {laws : RadiusLaws lib} {dep : Deployment}.
Context (data_path : AssignedAddrs.t -> option KpppSession.t) (rng : nat -> Z -> bytes).
Hypothesis rng_len : forall draw n, 0 <= n -> len (rng draw n) = n.

#[local] Instance env : Environment := radius_env data_path rng.

#[local] Instance env_ok : EnvironmentOk env.
Proof using laws rng_len.
  split; [exact rng_len|]. intros q a. unfold env. rewrite answer_radius. apply answer_v4.
Qed.

Context {lim : Limits} {bp : BuildProfile} {aws : AwsLc} {aws_laws : AwsLcLaws aws}.

(** C1: End to end: whatever the peer sends, an IP packet reaches the data path only after a configured
    RADIUS server, authenticated by its shared secret, answered with an Access-Accept to a request with
    exactly the user name and the credential this session asked about; the data path was brought up with
    the addresses of that Accept (the MTU clamped to the peer's MRU), and the packet fits its MTU. *)
Theorem traffic_only_after_server_accepts h s ev s' outs go o1 packet o2 :
  reach h s -> session_event_ok s ev -> Session.step (E := Empty_set) s ev = Ok (s', outs, go) ->
  h ++ outs = o1 ++ ToKernel packet :: o2 ->
  exists q server secret accept a' k,
    Ask q ∈ o1 /\ (server, secret) ∈ servers /\ accepted_by q server secret accept /\
    Access.clamped (project_addrs accept) a' /\
    data_path a' = Some k /\ KpppSession.is_kernel k = false /\ len packet <= KpppSession.mtu k.
Proof using laws rng_len aws_laws.
  intros Hr Hev Hstep Heq.
  destruct (traffic_only_after_radius_accept h s ev s' outs go o1 packet o2 Hr Hev Hstep Heq)
    as (q & a & a' & k & Hq & Ha & Hc & Hk).
  unfold env in Ha. rewrite answer_radius in Ha. apply answer_authentic in Ha as (server & secret & accept & Hin & Hacc & ->).
  by exists q, server, secret, accept, a', k.
Qed.
End Composition.

(** ** Routes *)

Definition show_route (r : Route.FramedRoute) : bytes :=
  join_spaces ([show_ipv4 (Route.dest r) ++ (47 :: show_dec (Route.prefix r));
                show_ipv4 (default [0; 0; 0; 0] (Route.gateway r))] ++
               option_list (show_dec <$> Route.metric r)).

Definition octets (a : bytes) : Prop := length a = 4%nat /\ u8s a.

Definition route_ok (r : Route.FramedRoute) : Prop :=
  octets (Route.dest r) /\ 0 <= Route.prefix r <= 32 /\
  match Route.gateway r with Some g => octets g /\ g <> [0; 0; 0; 0] | None => True end /\
  match Route.metric r with Some m => u32 m | None => True end.

(** The bytes of addresses and numbers. *)
Definition numeric (x : Z) : Prop := is_digit x = true \/ x = 46.

Lemma show_dec_numeric n : Forall numeric (show_dec n).
Proof. eapply Forall_impl; [apply show_dec_digits|]. by left. Qed.

Lemma show_ipv4_numeric a : octets a -> Forall numeric (show_ipv4 a) /\ show_ipv4 a <> [].
Proof.
  intros [Hl Hu]. destruct a as [|a [|b [|c [|d [|]]]]]; try done. unfold show_ipv4. cbn [map concat]. rewrite app_nil_r.
  apply Forall_cons in Hu as [Ha _]. split.
  - cbn [app]. rewrite ?Forall_app, ?Forall_cons, ?Forall_app, ?Forall_cons, ?Forall_app, ?Forall_cons.
    split_and!; try apply show_dec_numeric; try done; by right.
  - destruct (show_dec a) eqn:E; [|done]. unfold u8 in Ha. by apply show_dec_ne in E; [|lia].
Qed.

Lemma numeric_word t : t <> [] -> Forall (fun x => numeric x \/ x = 47) t -> word t.
Proof.
  intros Hne Ht. split; [done|]. eapply Forall_impl; [exact Ht|]. intros x [[Hx| ->]| ->]; [|done..].
  unfold is_digit, is_ascii_whitespace in *. lia.
Qed.

Lemma dest_prefix_ok a p :
  octets a -> 0 <= p <= 32 -> Route.parse_dest_prefix (show_ipv4 a ++ (47 :: show_dec p)) = Ok (a, p).
Proof.
  intros Ha Hp. unfold Route.parse_dest_prefix.
  assert (split_once 47 (show_ipv4 a ++ (47 :: show_dec p)) = Some (show_ipv4 a, show_dec p)) as ->.
  { apply split_once_iff. split; [done|]. intros Hin. destruct (show_ipv4_numeric a Ha) as [Hn _].
    rewrite Forall_forall in Hn. apply Hn in Hin as [Hd|Hd]; by vm_compute in Hd. }
  destruct Ha as [Hl Hu]. rewrite parse_show_ipv4 by done. cbn [ok_or mbind res_bind].
  rewrite parse_show_dec by (unfold U8_MAX, U64_MAX; lia). cbn [ok_or mbind res_bind].
  by replace (32 <? p) with false by lia.
Qed.

(** Every route prints as a Framed-Route value that parses back to it; no gateway is written 0.0.0.0. *)
Theorem routes_roundtrip (r : Route.FramedRoute) : route_ok r -> Route.parse (show_route r) = Ok r.
Proof.
  destruct r as [dst p gw m]. intros (Hd & Hp & Hg & Hm). unfold Route.parse, show_route.
  cbn [Route.dest Route.prefix Route.gateway Route.metric] in *.
  assert (Hgw : octets (default [0; 0; 0; 0] gw)).
  { destruct gw as [g|]; [apply Hg|]. split; [done|]. by repeat (constructor; [done|]). }
  destruct (show_ipv4_numeric dst Hd) as [Hdn Hdne]. destruct (show_ipv4_numeric _ Hgw) as [Hgn Hgne].
  rewrite split_join_spaces; [|done|].
  2: { repeat (apply Forall_cons; split).
       - apply numeric_word; [by destruct (show_ipv4 dst)|]. apply Forall_app. split.
         + eapply Forall_impl; [exact Hdn|]. by left.
         + constructor; [by right|]. eapply Forall_impl; [apply show_dec_numeric|]. by left.
       - apply numeric_word; [done|]. eapply Forall_impl; [exact Hgn|]. by left.
       - destruct m as [m|]; [|done]. constructor; [|done]. apply numeric_word.
         + apply show_dec_ne. unfold u32 in Hm. lia.
         + eapply Forall_impl; [apply show_dec_numeric|]. by left. }
  cbn [app]. rewrite dest_prefix_ok by done. cbn [mbind res_bind]. destruct Hgw as [Hgl Hgu].
  rewrite parse_show_ipv4 by done. cbn [ok_or mbind res_bind].
  assert (Hgate : (if Route.is_unspecified (default [0; 0; 0; 0] gw) then None else Some (default [0; 0; 0; 0] gw)) = gw).
  { unfold Route.is_unspecified. destruct gw as [g|]; [|done]. cbn. destruct (bytes_eqb g _) eqn:E; [|done].
    apply bytes_eqb_eq in E. by destruct Hg. }
  rewrite Hgate. destruct m as [m|]; [|done]. change (option_list (show_dec <$> Some m)) with [show_dec m]. cbn iota.
  rewrite parse_show_dec; [done | unfold u32, U32_MAX in *; lia | unfold u32, U64_MAX in *; lia].
Qed.

(** ** EAP messages *)

Lemma chunks_ok fuel n l :
  (length l <= fuel)%nat -> (0 < n)%nat ->
  concat (chunks fuel n l) = l /\ Forall (fun c => c <> [] /\ (length c <= n)%nat) (chunks fuel n l).
Proof.
  intros Hl Hn. revert l Hl. induction fuel as [|fuel IH]; intros [|x l] Hl; cbn [chunks concat]; try done; [cbn in *; lia|].
  destruct (IH (drop n (x :: l))) as [Hc Hf]; [rewrite length_drop; cbn in *; lia|]. split.
  - cbn [concat]. by rewrite Hc, take_drop.
  - constructor; [|done]. split; [by destruct n; [lia|] | rewrite length_take; lia].
Qed.

Section Eap.
Context {lib : RadiusTokio} {laws : RadiusLaws lib}.

Lemma add_chunks_items buf cs buf' :
  add_chunks buf cs = Ok buf' -> contents buf' = contents buf ++ map (Raw (code EAP_MESSAGE)) cs.
Proof.
  revert buf. induction cs as [|c cs IH]; intros buf; cbn [add_chunks map].
  - intros [= <-]. by rewrite app_nil_r.
  - intros (b & Hb & H)%bind_ok. apply add_attribute_appends in Hb. rewrite (IH _ H), Hb. by rewrite <- app_assoc.
Qed.

(** An EAP packet of any length goes into the request as EAP-Message attributes of at most 253 bytes, at
    least one, whose values in order are the packet, after the State attribute to echo. *)
Theorem eap_message_fragments buf ctx payload state buf' :
  apply_eap buf ctx payload state = Ok buf' ->
  exists frags, contents buf' = contents buf ++ common_items ctx ++
      match state with Some s => [Raw (code STATE_RAW) s] | None => [] end ++ map (Raw (code EAP_MESSAGE)) frags /\
    frags <> [] /\ concat frags = payload /\ Forall (fun f => len f <= MAX_ATTR_VALUE) frags.
Proof.
  unfold apply_eap. intros (b & Hb & H)%bind_ok. apply apply_common_items in Hb.
  apply bind_ok in H as (b1 & Hb1 & H).
  assert (Hs : contents b1 = contents b ++ match state with Some s => [Raw (code STATE_RAW) s] | None => [] end).
  { destruct state; [by apply add_attribute_appends in Hb1|]. injection Hb1 as <-. by rewrite app_nil_r. }
  rewrite Hb in Hs. destruct (Z.eqb_spec (len payload) 0) as [E|Hne].
  - apply add_attribute_appends in H. destruct payload; [|done]. exists [[]].
    split_and!; [|done|done|repeat constructor; by cbn]. rewrite H, Hs. by rewrite <- !app_assoc.
  - apply add_chunks_items in H. destruct (chunks_ok (length payload) (Z.to_nat MAX_ATTR_VALUE) payload) as [Hc Hf];
      [done | unfold MAX_ATTR_VALUE; lia|].
    eexists. split; [rewrite H, Hs; by rewrite <- !app_assoc|]. split_and!; [|done|].
    + intros E. rewrite E in Hc. cbn in Hc. by rewrite <- Hc in Hne.
    + eapply Forall_impl; [exact Hf|]. intros f [_ ?]. cbn in *. unfold MAX_ATTR_VALUE in *. lia.
Qed.
End Eap.

(** ** A deployment

    Two servers, of which the first does not answer, and a session that authenticates with PAP. *)

Module Demo.

Definition demo_code (r : raw_attr) : Z :=
  match r with
  | USER_PASSWORD => 2 | CHAP_PASSWORD => 3 | CHAP_CHALLENGE => 60 | STATE_RAW => 24 | EAP_MESSAGE => 79
  | FRAMED_ROUTE => 22
  end.

(** Attribute bytes that are just the octets of a Framed-IP-Address. *)
Definition demo_first {w} (attrs : bytes) (a : attr w) : option (val w) :=
  match a in attr w return option (val w) with
  | FRAMED_IP_ADDRESS => if bool_decide (length attrs = 4%nat) then Some attrs else None
  | FRAMED_MTU => Some 9000
  | _ => None
  end.

Lemma demo_first_typed {w} attrs (a : attr w) v :
  demo_first attrs a = Some v ->
  match w return val w -> Prop with
  | WIpv4 => fun v => is_v4 v
  | WInteger => fun v => u32 v
  | _ => fun _ => True
  end v.
Proof.
  destruct a; cbn; try done; [|by intros [= <-]]. case_bool_decide; [|done]. by intros [= <-].
Qed.

Definition demo_reply (req : list item) : AccessOutcome :=
  if existsb (fun it => match it with Raw c v => (c =? 2) && bytes_eqb v [0x78] | _ => false end) req
  then OutcomeAccept (zeros 16) [10; 0; 0; 7] else OutcomeReject [].

#[local] Instance demo : RadiusTokio := {|
  CodecError := Empty_set;
  PacketBuffer := list item;
  code := demo_code;
  FRAMED_USER := 2;
  PPP := 1;
  add w buf a v := Ok (buf ++ [Typed a v]);
  add_attribute buf c v := Ok (buf ++ [Raw c v]);
  user_password_encrypt password secret ra := password;
  first := @demo_first;
  iter attrs := [];
  mppe_key_decrypt raw secret ra := Some raw;
  reassemble attrs := attrs;
  access_request turn attempt server secret build :=
    if port server =? 0 then inr ClientTimeout
    else match build [] (zeros 16) with Ok req => inl (demo_reply req) | _ => inr ClientTimeout end
|}.

#[local] Instance demo_laws : RadiusLaws demo.
Proof.
  refine {| contents := fun b : @PacketBuffer demo => b;
            replied := fun _ _ ra req o => o = demo_reply req /\ ra = zeros 16 |}.
  - by intros w buf a v buf' [= <-].
  - by intros buf c v buf' [= <-].
  - intros attrs a v. apply (demo_first_typed attrs a).
  - intros attrs a v. apply (demo_first_typed attrs a).
  - intros turn attempt server secret build o. cbn. case_match; [done|].
    destruct (build [] (zeros 16)) as [req| |] eqn:E; [|done|done]. intros [= <-].
    exists [], (zeros 16), req. split_and!; try done. intros au attrs. unfold demo_reply. by case_match; intros [= <- _].
Defined.

Definition address (p : Z) : SocketAddr := {| ip := V4 [192; 0; 2; 1]; port := p |}.

#[local] Instance site : Deployment := {|
  servers := [(address 0, [1]); (address 1812, [2])];
  nas_identifier := None;
  peer := address 50000;
  dispatched turn := Served
|}.

Definition tun (a : AssignedAddrs.t) : option KpppSession.t :=
  Some {| KpppSession.is_kernel := false; KpppSession.mtu := default 1500 (AssignedAddrs.mtu a) |}.

Definition generator (draw : nat) (n : Z) : bytes := replicate (Z.to_nat n) (Z.of_nat draw mod 256).

Lemma generator_len draw n : 0 <= n -> len (generator draw n) = n.
Proof. intros. unfold generator. len_lia. Qed.

#[local] Instance release : BuildProfile := false.
#[local] Existing Instance ToyCrypto.toy.
#[local] Existing Instance ToyCrypto.toy_laws.
#[local] Instance world : Environment := radius_env tun generator.

Definition start : Session.t * list output := Eval vm_compute in
  match Session.init (E := Empty_set) Exchange.cert1 Exchange.cert2 [10; 0; 0; 1] AuthMethod.Pap with
  | Ok (s, outs, true) => (s, outs)
  | _ => Run.start
  end.

Definition networked : Session.t * list output := Eval vm_compute in
  default start (feed start.1 start.2 Run.to_network).

Definition forwarded : Session.t * list output := Eval vm_compute in
  match Session.step (E := Empty_set) networked.1 (Session.Read Run.first_traffic) with
  | Ok (s, outs, true) => (s, outs)
  | _ => start
  end.

Lemma traffic_only_after_server_accepts_witness :
  exists q server secret accept a' k,
    Ask q ∈ networked.2 /\ (server, secret) ∈ servers /\ accepted_by q server secret accept /\
    Access.clamped (project_addrs accept) a' /\
    tun a' = Some k /\ KpppSession.is_kernel k = false /\ len Run.ip_packet <= KpppSession.mtu k.
Proof.
  apply (traffic_only_after_server_accepts tun generator generator_len (lim := sstp_limits) networked.2 networked.1
           (Session.Read Run.first_traffic) forwarded.1 forwarded.2 true networked.2 Run.ip_packet []).
  - apply (feed_reach Run.to_network start.1 start.2); [|by vm_compute|by vm_compute].
    apply (reach_init Exchange.cert1 Exchange.cert2 [10; 0; 0; 1] AuthMethod.Pap); [done|by vm_compute].
  - apply readable_ok. by vm_compute.
  - by vm_compute.
  - by vm_compute.
Defined.

(** The second server is asked when the first is silent. *)
Lemma first_answering_server_decides_witness :
  dispatched 0 = Served /\
  exists pre server secret post accept,
    servers = pre ++ (server, secret) :: post /\
    (forall i server' secret', pre !! i = Some (server', secret') ->
       exists e, server_reply (SubmitPap 0 [98] [0x78]) i server' secret' = Err e /\ forall m, e <> Rejected m) /\
    server_reply (SubmitPap 0 [98] [0x78]) (length pre) server secret = Ok accept /\
    AssignedAddrs.with_mtu {| AssignedAddrs.ip := [10; 0; 0; 7]; AssignedAddrs.mtu := None; AssignedAddrs.dns1 := None;
       AssignedAddrs.dns2 := None; AssignedAddrs.nbns1 := None; AssignedAddrs.nbns2 := None |} (Some 1500)
    = project_addrs accept.
Proof. apply (first_answering_server_decides (SubmitPap 0 [98] [0x78])). vm_compute. reflexivity. Defined.

Lemma verdicts_well_typed_witness :
  exists a, answer_of (SubmitPap 0 [98] [0x78]) = AuthVerdict.Accept a /\ is_v4 (AssignedAddrs.ip a).
Proof.
  destruct (answer_of (SubmitPap 0 [98] [0x78])) as [a|m] eqn:E; [|by vm_compute in E].
  exists a. split; [reflexivity|]. apply (verdicts_well_typed (SubmitPap 0 [98] [0x78])). exact E.
Defined.

End Demo.
