(* ===== verification/Accounting.v ===== *)
(** * RADIUS accounting and change of authorization ([src/src/auth/]: [accounting.rs], [acct_bridge.rs],
    [coa.rs])

    [build] makes the Accounting-Request of an event, [send_inner] transmits it until a reply comes or the
    attempts are used up, [allocate] hands out packet identifiers, [run_one] tries the servers in order.
    [process] is the receiver of Disconnect- and CoA-Requests.  The parts of the RADIUS library they need
    beyond the attribute codec are the class [RadiusPackets]; the course of time and the network during a
    transmission are an argument. *)

From stdpp Require Import strings gmap.
From S2P Require Import Prelude RustText RustStd Radius RadiusProps.

(** ** Maps keyed by addresses *)

#[export] Instance ipaddr_eq : EqDecision IpAddr.
Proof. solve_decision. Defined.

#[export] Instance ipaddr_countable : Countable IpAddr :=
  inj_countable' (fun a => match a with V4 o => inl o | V6 s => inr s end)
    (fun x : list Z + list Z => match x with inl o => V4 o | inr s => V6 s end)
    (fun a => match a with V4 _ => eq_refl | V6 _ => eq_refl end).

#[export] Instance socketaddr_eq : EqDecision SocketAddr.
Proof. solve_decision. Defined.

#[export] Instance socketaddr_countable : Countable SocketAddr :=
  inj_countable' (fun a => (ip a, port a)) (fun x => {| ip := x.1; port := x.2 |})
    (fun a => match a with {| ip := i; port := p |} => eq_refl end).

(** ** The RADIUS library *)

Inductive status_type := START | INTERIM_UPDATE | STOP.

Inductive terminate_cause :=
| USER_REQUEST | LOST_CARRIER | IDLE_TIMEOUT_CAUSE | SESSION_TIMEOUT_CAUSE | ADMIN_RESET | NAS_REBOOT | NAS_ERROR
| SERVICE_UNAVAILABLE.

Inductive packet_code :=
| ACCOUNTING_REQUEST | ACCOUNTING_RESPONSE | COA_REQUEST | COA_ACK | COA_NAK | DISCONNECT_REQUEST
| DISCONNECT_ACK | DISCONNECT_NAK.

#[export] Instance packet_code_eq : EqDecision packet_code.
Proof. solve_decision. Defined.

Record Header := { hd_code : Z; hd_identifier : Z; hd_authenticator : bytes }.

Inductive Verification := Valid | Absent | Invalid.

Class RadiusPackets (lib : RadiusTokio) := {
  HeaderError : Set;
  status : status_type -> Z;
  cause : terminate_cause -> Z;
  VIRTUAL : Z;
  number : packet_code -> Z;
  new_packet (code identifier : Z) : PacketBuffer;
  seal_as_zeroed_request (buf : PacketBuffer) (secret : bytes) : bytes;
  seal_for (buf : PacketBuffer) (request_authenticator secret : bytes) : bytes;
  verify_response (reply request_authenticator secret : bytes) : bool;
  compute_zeroed_request (datagram secret : bytes) : bytes;
  header_parse (datagram : bytes) : Header * bytes + HeaderError;
  verify_message (datagram authenticator secret : bytes) : Verification;
  attr_code : forall {w}, attr w -> Z
}.

(** ** [accounting.rs] *)

Inductive AcctEvent :=
| Start
| InterimUpdate
| Stop (c : terminate_cause).

Definition status_of (e : AcctEvent) : status_type :=
  match e with Start => START | InterimUpdate => INTERIM_UPDATE | Stop _ => STOP end.

Module SessionEnd.

Inductive t :=
| UserRequest | LostCarrier | IdleTimeout | SessionTimeout | AdminReset | NasReboot | NasError | ServiceUnavailable.

Definition to_terminate_cause (e : t) : terminate_cause :=
  match e with
  | UserRequest => USER_REQUEST
  | LostCarrier => LOST_CARRIER
  | IdleTimeout => IDLE_TIMEOUT_CAUSE
  | SessionTimeout => SESSION_TIMEOUT_CAUSE
  | AdminReset => ADMIN_RESET
  | NasReboot => NAS_REBOOT
  | NasError => NAS_ERROR
  | ServiceUnavailable => SERVICE_UNAVAILABLE
  end.

End SessionEnd.

Record AcctCounters := {
  session_time : Z;
  input_octets : Z;
  output_octets : Z;
  input_packets : Z;
  output_packets : Z
}.

Record AcctSession := {
  session_id : bytes;
  authentic : Z;
  acct_framed_ip : bytes;
  nas_ip : option bytes;
  nas_port : Z;
  acct_class : option bytes
}.

Inductive AcctError {lib : RadiusTokio} :=
| AcctIo (message : bytes)
| AcctCodec (e : CodecError)
| AcctTimeout
| IdentifierExhausted (server : SocketAddr)
| AuthenticatorMismatch
| UnexpectedReply (code : Z)
| Cancelled.

(** [Duration] in nanoseconds *)
Definition DURATION_MAX : Z := U64_MAX * 1000000000 + 999999999.
Definition saturating_mul (d k : Z) : Z := Z.min DURATION_MAX (d * k).

Record AcctRetry := { initial_timeout : Z; max_attempts : Z; backoff_multiplier : Z }.

Definition default_retry : AcctRetry :=
  {| initial_timeout := 1000000000; max_attempts := 5; backoff_multiplier := 2 |}.

(** The waiters of one server; a waiter is named by the number of its transmission. *)
Record PeerState := { next_id : Z; inflight : gmap Z nat }.

Definition empty_peer : PeerState := {| next_id := 0; inflight := ∅ |}.

Fixpoint allocate_loop (tries : nat) (ps : PeerState) : PeerState * option Z :=
  match tries with
  | O => (ps, None)
  | S tries =>
      let id := next_id ps in
      let ps := {| next_id := wrapping_add_u8 id 1; inflight := inflight ps |} in
      if decide (inflight ps !! id = None) then (ps, Some id) else allocate_loop tries ps
  end.

Definition allocate (ps : PeerState) : PeerState * option Z := allocate_loop 256 ps.

(** The client's table, the entry of [send], its clean-up, and the reader. *)
Abbreviation AcctClient := (gmap SocketAddr PeerState).

Definition send_begin (c : AcctClient) (server : SocketAddr) (job : nat) : AcctClient * option Z :=
  let slot := default empty_peer (c !! server) in
  let '(slot, id) := allocate slot in
  match id with
  | None => (<[server := slot]> c, None)
  | Some id => (<[server := {| next_id := next_id slot; inflight := <[id := job]> (inflight slot) |}]> c, Some id)
  end.

Definition send_end (c : AcctClient) (server : SocketAddr) (id : Z) : AcctClient :=
  match c !! server with
  | Some slot => <[server := {| next_id := next_id slot; inflight := delete id (inflight slot) |}]> c
  | None => c
  end.

(** The reader's handling of a datagram: the waiter it is handed to, if any. *)
Definition reader (c : AcctClient) (server : SocketAddr) (datagram : bytes) : res Empty_set (AcctClient * option nat) :=
  if 20 <=? len datagram then
    id ← idx datagram 1;
    match c !! server with
    | Some slot =>
        match inflight slot !! id with
        | Some job =>
            Ok (<[server := {| next_id := next_id slot; inflight := delete id (inflight slot) |}]> c, Some job)
        | None => Ok (c, None)
        end
    | None => Ok (c, None)
    end
  else Ok (c, None).

Section Acct.
Context {lib : RadiusTokio} {pk : RadiusPackets lib}.

Definition build_items (buf : PacketBuffer) (ctx : AccessRequestCtx) (session : AcctSession) (event : AcctEvent)
    (counters : AcctCounters) (delay_secs : Z) : res CodecError PacketBuffer :=
  buf ← add buf USER_NAME (username ctx);
  buf ← add_opt buf NAS_IP_ADDRESS (nas_ip session);
  buf ← add_opt buf NAS_IDENTIFIER (ctx_nas_identifier ctx);
  buf ← add buf NAS_PORT (nas_port session);
  buf ← add buf NAS_PORT_TYPE VIRTUAL;
  buf ← add buf SERVICE_TYPE FRAMED_USER;
  buf ← add buf FRAMED_PROTOCOL PPP;
  buf ← add buf FRAMED_IP_ADDRESS (acct_framed_ip session);
  buf ← add_opt buf CALLING_STATION_ID (calling_station_id ctx);
  buf ← add buf ACCT_STATUS_TYPE (status (status_of event));
  buf ← add buf ACCT_AUTHENTIC (authentic session);
  buf ← add buf ACCT_SESSION_ID (session_id session);
  buf ← add_opt buf CLASS (acct_class session);
  buf ← (if negb (delay_secs =? 0) then add buf ACCT_DELAY_TIME delay_secs else Ok buf);
  buf ← match event with
        | Start => Ok buf
        | _ =>
            buf ← add buf ACCT_SESSION_TIME (session_time counters);
            let in_lo := input_octets counters mod 2 ^ 32 in
            let out_lo := output_octets counters mod 2 ^ 32 in
            let in_hi := Z.min U32_MAX (Z.shiftr (input_octets counters) 32) in
            let out_hi := Z.min U32_MAX (Z.shiftr (output_octets counters) 32) in
            buf ← add buf ACCT_INPUT_OCTETS in_lo;
            buf ← add buf ACCT_OUTPUT_OCTETS out_lo;
            buf ← (if negb (in_hi =? 0) then add buf ACCT_INPUT_GIGAWORDS in_hi else Ok buf);
            buf ← (if negb (out_hi =? 0) then add buf ACCT_OUTPUT_GIGAWORDS out_hi else Ok buf);
            buf ← add buf ACCT_INPUT_PACKETS (input_packets counters);
            add buf ACCT_OUTPUT_PACKETS (output_packets counters)
        end;
  match event with
  | Stop c => add buf ACCT_TERMINATE_CAUSE (cause c)
  | _ => Ok buf
  end.

Definition build (identifier : Z) (secret : bytes) (ctx : AccessRequestCtx) (session : AcctSession)
    (event : AcctEvent) (counters : AcctCounters) (delay_secs : Z) : res AcctError bytes :=
  buf ← map_err AcctCodec
          (build_items (new_packet (number ACCOUNTING_REQUEST) identifier) ctx session event counters delay_secs);
  Ok (seal_as_zeroed_request buf secret).

Definition request_authenticator_from (b : bytes) : res AcctError bytes := slice b 4 20.

Definition verify (reply secret request_authenticator : bytes) : res AcctError () :=
  if len reply <? 20 then Err AuthenticatorMismatch
  else
    code ← idx reply 0;
    if negb (code =? number ACCOUNTING_RESPONSE) then Err (UnexpectedReply code)
    else if negb (verify_response reply request_authenticator secret) then Err AuthenticatorMismatch
    else Ok tt.

(** What happens during one attempt: the time since the first one, the outcome of the send, and of the
    wait for a reply. *)
Inductive waited := Reply (datagram : bytes) | ReaderGone | TimedOut.

Record attempt := { elapsed_secs : Z; send_error : option bytes; wait_result : waited }.

(** The loop of [send_inner] from attempt [k] on, with [n] attempts left; the second result lists the
    transmissions with the time waited for each. *)
Fixpoint attempts_loop (make : Z -> res AcctError bytes) (secret : bytes) (retry : AcctRetry) (n k : nat) (wait : Z)
    (script : nat -> attempt) : res AcctError () * list (bytes * Z) :=
  match n with
  | O => (Err AcctTimeout, [])
  | S n =>
      match make (Z.min U32_MAX (elapsed_secs (script k))) with
      | Err e => (Err e, [])
      | Panic => (Panic, [])
      | Ok b =>
          match send_error (script k) with
          | Some m => (Err (AcctIo m), [])
          | None =>
              match wait_result (script k) with
              | Reply reply =>
                  (ra ← request_authenticator_from b; verify reply secret ra, [(b, wait)])
              | ReaderGone => (Err Cancelled, [(b, wait)])
              | TimedOut =>
                  let wait' := match n with
                               | O => wait
                               | _ => saturating_mul wait (Z.max 1 (backoff_multiplier retry))
                               end in
                  let '(r, sends) := attempts_loop make secret retry n (S k) wait' script in
                  (r, (b, wait) :: sends)
              end
          end
      end
  end.

Definition send_inner (retry : AcctRetry) (secret : bytes) (identifier : Z) (ctx : AccessRequestCtx)
    (session : AcctSession) (event : AcctEvent) (counters : AcctCounters) (script : nat -> attempt) :
    res AcctError () * list (bytes * Z) :=
  attempts_loop (build identifier secret ctx session event counters) secret retry
    (Z.to_nat (Z.max 1 (max_attempts retry))) 0 (initial_timeout retry) script.

(** ** [acct_bridge.rs] *)

(** [run_one] over the results of [send] at each server: the server that acknowledged the record. *)
Fixpoint run_one (send : SocketAddr -> bytes -> res AcctError ()) (ss : list (SocketAddr * bytes)) :
    option SocketAddr :=
  match ss with
  | [] => None
  | (addr, secret) :: ss =>
      match send addr secret with
      | Ok _ => Some addr
      | _ => run_one send ss
      end
  end.

(** [submit]: the queue holds [QUEUE_DEPTH] records; one more is dropped. *)
Definition QUEUE_DEPTH : Z := 1024.

Definition submit {R} (closed : bool) (queue : list R) (record : R) : list R :=
  if closed then queue else if QUEUE_DEPTH <=? len queue then queue else queue ++ [record].

(** ** [coa.rs] *)

Record Identity := {
  id_username : option bytes;
  id_session : option bytes;
  id_calling : option bytes;
  id_framed_ip : option bytes
}.

Definition no_identity : Identity :=
  {| id_username := None; id_session := None; id_calling := None; id_framed_ip := None |}.

Inductive ErrorCause :=
| ResidualSessionContextRemoved | InvalidEapPacket | UnsupportedAttribute | MissingAttribute_
| NasIdentificationMismatch | InvalidRequest | UnsupportedService | UnsupportedExtension
| InvalidAttributeValue | AdministrativelyProhibited | RequestNotRoutable | SessionContextNotFound
| SessionContextNotRemovable | OtherProxyProcessingError | ResourcesUnavailable | RequestInitiated.

Definition cause_value (c : ErrorCause) : Z :=
  match c with
  | ResidualSessionContextRemoved => 201 | InvalidEapPacket => 202 | UnsupportedAttribute => 401
  | MissingAttribute_ => 402 | NasIdentificationMismatch => 403 | InvalidRequest => 404
  | UnsupportedService => 405 | UnsupportedExtension => 406 | InvalidAttributeValue => 407
  | AdministrativelyProhibited => 501 | RequestNotRoutable => 502 | SessionContextNotFound => 503
  | SessionContextNotRemovable => 504 | OtherProxyProcessingError => 505 | ResourcesUnavailable => 506
  | RequestInitiated => 507
  end.

Inductive Outcome := Ack | Nak (c : ErrorCause).

Inductive CoaDropReason :=
| BadHeader (e : HeaderError)
| UnexpectedCode (code : Z)
| UntrustedPeer
| BadAuthenticator
| MissingMessageAuth
| BadMessageAuth.

(** The loop of [decode_identity]; a later attribute replaces an earlier one. *)
Fixpoint identity_loop (out : Identity) (slots : list (option (Z * bytes))) : Identity :=
  match slots with
  | [] => out
  | None :: slots => identity_loop out slots
  | Some (t, v) :: slots =>
      let out :=
        if t =? attr_code USER_NAME then
          {| id_username := from_utf8 v; id_session := id_session out; id_calling := id_calling out;
             id_framed_ip := id_framed_ip out |}
        else if t =? attr_code ACCT_SESSION_ID then
          {| id_username := id_username out; id_session := from_utf8 v; id_calling := id_calling out;
             id_framed_ip := id_framed_ip out |}
        else if t =? attr_code CALLING_STATION_ID then
          {| id_username := id_username out; id_session := id_session out; id_calling := from_utf8 v;
             id_framed_ip := id_framed_ip out |}
        else if t =? attr_code FRAMED_IP_ADDRESS then
          {| id_username := id_username out; id_session := id_session out; id_calling := id_calling out;
             id_framed_ip := if len v =? 4 then Some v else id_framed_ip out |}
        else out in
      identity_loop out slots
  end.

Definition decode_identity (attrs : bytes) : Identity := identity_loop no_identity (iter attrs).

Definition reply_code (request_code : Z) (outcome : Outcome) : option packet_code :=
  if request_code =? number COA_REQUEST then Some match outcome with Ack => COA_ACK | Nak _ => COA_NAK end
  else if request_code =? number DISCONNECT_REQUEST then
    Some match outcome with Ack => DISCONNECT_ACK | Nak _ => DISCONNECT_NAK end
  else None.

Definition build_reply {E} (request_code identifier : Z) (outcome : Outcome)
    (request_authenticator secret : bytes) : res E bytes :=
  match reply_code request_code outcome with
  | None => Panic
  | Some c =>
      let reply := new_packet (number c) identifier in
      match outcome with
      | Ack => Ok (seal_for reply request_authenticator secret)
      | Nak c =>
          match add reply ERROR_CAUSE (cause_value c) with
          | Ok reply => Ok (seal_for reply request_authenticator secret)
          | _ => Panic
          end
      end
  end.

(** [CoaListener::process] with the trusted peers and the handler: the identity given to the handler and
    the datagram sent back. *)
Definition process (secrets : gmap IpAddr bytes) (handler : Z -> SocketAddr -> Identity -> Outcome)
    (datagram : bytes) (peer : SocketAddr) : res CoaDropReason (Identity * bytes) :=
  match header_parse datagram with
  | inr e => Err (BadHeader e)
  | inl (header, attrs) =>
      if negb (hd_code header =? number COA_REQUEST) && negb (hd_code header =? number DISCONNECT_REQUEST)
      then Err (UnexpectedCode (hd_code header))
      else
        secret ← ok_or (secrets !! ip peer) UntrustedPeer;
        let want := compute_zeroed_request datagram secret in
        if negb (bytes_eqb want (hd_authenticator header)) then Err BadAuthenticator
        else
          match verify_message datagram (zeros 16) secret with
          | Absent => Err MissingMessageAuth
          | Invalid => Err BadMessageAuth
          | Valid =>
              let identity := decode_identity attrs in
              let outcome := handler (hd_code header) peer identity in
              reply ← build_reply (hd_code header) (hd_identifier header) outcome (hd_authenticator header) secret;
              Ok (identity, reply)
          end
  end.
End Acct.
