(* ===== verification/AccountingProps.v ===== *)
(** * Properties of accounting and change of authorization

    - The octet counters of a record are reported in full, split into 32-bit attributes.
    - Identifiers are handed out fresh, and a reply reaches the record that waits for its identifier; the
      clean-up of a finished record can remove another record's identifier.
    - A transmission ends after a bounded time, and a reply to an earlier transmission is refused.
    - Only authentic requests of trusted peers reach the change-of-authorization handler. *)

From stdpp Require Import strings gmap.
From S2P Require Import Prelude RustText RustStd Radius RadiusProps Accounting.

(** ** Records *)

Section Records.
Context {lib : RadiusTokio} {laws : RadiusLaws lib} {pk : RadiusPackets lib}.

(** The traffic attributes of an interim or final record. *)
Definition traffic_items (c : AcctCounters) : list item :=
  let in_hi := Z.shiftr (input_octets c) 32 in
  let out_hi := Z.shiftr (output_octets c) 32 in
  [Typed ACCT_SESSION_TIME (session_time c); Typed ACCT_INPUT_OCTETS (input_octets c mod 2 ^ 32);
   Typed ACCT_OUTPUT_OCTETS (output_octets c mod 2 ^ 32)] ++
  (if in_hi =? 0 then [] else [Typed ACCT_INPUT_GIGAWORDS in_hi]) ++
  (if out_hi =? 0 then [] else [Typed ACCT_OUTPUT_GIGAWORDS out_hi]) ++
  [Typed ACCT_INPUT_PACKETS (input_packets c); Typed ACCT_OUTPUT_PACKETS (output_packets c)].

Definition acct_items (ctx : AccessRequestCtx) (s : AcctSession) (e : AcctEvent) (c : AcctCounters) (delay : Z) :
    list item :=
  [Typed USER_NAME (username ctx)] ++ opt_item NAS_IP_ADDRESS (nas_ip s) ++
  opt_item NAS_IDENTIFIER (ctx_nas_identifier ctx) ++
  [Typed NAS_PORT (nas_port s); Typed NAS_PORT_TYPE VIRTUAL; Typed SERVICE_TYPE FRAMED_USER;
   Typed FRAMED_PROTOCOL PPP; Typed FRAMED_IP_ADDRESS (acct_framed_ip s)] ++
  opt_item CALLING_STATION_ID (calling_station_id ctx) ++
  [Typed ACCT_STATUS_TYPE (status (status_of e)); Typed ACCT_AUTHENTIC (authentic s);
   Typed ACCT_SESSION_ID (session_id s)] ++ opt_item CLASS (acct_class s) ++
  (if delay =? 0 then [] else [Typed ACCT_DELAY_TIME delay]) ++
  match e with Start => [] | _ => traffic_items c end ++
  match e with Stop cc => [Typed ACCT_TERMINATE_CAUSE (cause cc)] | _ => [] end.

Definition u64 (z : Z) : Prop := 0 <= z <= U64_MAX.

Lemma high_half z : u64 z -> Z.min U32_MAX (Z.shiftr z 32) = Z.shiftr z 32.
Proof.
  unfold u64, U64_MAX, U32_MAX. intros. rewrite Z.shiftr_div_pow2 by lia.
  change (2 ^ 32) with 4294967296. apply Z.min_r. Z.div_mod_to_equations. lia.
Qed.

Lemma add_if_items {w} (b : bool) buf (a : attr w) v buf' :
  (if negb b then add buf a v else Ok buf) = Ok buf' ->
  contents buf' = contents buf ++ (if b then [] else [Typed a v]).
Proof. destruct b; cbn; [intros [= <-]; by rewrite app_nil_r | apply add_appends]. Qed.

(** [peel] takes a successful chain of additions apart. *)
Ltac peel H := repeat (let b := fresh "b" in let Hb := fresh "Hb" in apply bind_ok in H as (b & Hb & H)).

Lemma build_items_ok buf ctx s e c delay buf' :
  u64 (input_octets c) -> u64 (output_octets c) ->
  build_items buf ctx s e c delay = Ok buf' -> contents buf' = contents buf ++ acct_items ctx s e c delay.
Proof.
  intros Hi Ho H. unfold build_items in H. peel H. unfold acct_items.
  assert (Htraffic : forall b b', (buf ← add b ACCT_SESSION_TIME (session_time c);
            buf ← add buf ACCT_INPUT_OCTETS (input_octets c mod 2 ^ 32);
            buf ← add buf ACCT_OUTPUT_OCTETS (output_octets c mod 2 ^ 32);
            buf ← (if negb (Z.min U32_MAX (Z.shiftr (input_octets c) 32) =? 0)
                   then add buf ACCT_INPUT_GIGAWORDS (Z.min U32_MAX (Z.shiftr (input_octets c) 32)) else Ok buf);
            buf ← (if negb (Z.min U32_MAX (Z.shiftr (output_octets c) 32) =? 0)
                   then add buf ACCT_OUTPUT_GIGAWORDS (Z.min U32_MAX (Z.shiftr (output_octets c) 32)) else Ok buf);
            buf ← add buf ACCT_INPUT_PACKETS (input_packets c);
            add buf ACCT_OUTPUT_PACKETS (output_packets c)) = Ok b' -> contents b' = contents b ++ traffic_items c).
  { intros x y Hx. rewrite !high_half in Hx by done. peel Hx. unfold traffic_items.
    repeat match goal with
      | G : (if negb _ then _ else Ok _) = Ok _ |- _ => apply add_if_items in G
      | G : add _ _ _ = Ok _ |- _ => apply add_appends in G
      end.
    repeat match goal with G : contents ?x = _ |- context [contents ?x] => rewrite G; clear G end.
    by rewrite <- !app_assoc. }
  assert (Hlast : contents buf' = contents b13 ++ match e with Stop cc => [Typed ACCT_TERMINATE_CAUSE (cause cc)] | _ => [] end).
  { destruct e; [injection H as <-; by rewrite app_nil_r..|]. by apply add_appends in H. }
  assert (Hmid : contents b13 = contents b12 ++ match e with Start => [] | _ => traffic_items c end).
  { destruct e; [injection Hb13 as <-; by rewrite app_nil_r|..]; by apply Htraffic. }
  clear H Hb13 Htraffic.
  repeat match goal with
    | G : (if negb _ then _ else Ok _) = Ok _ |- _ => apply add_if_items in G
    | G : add_opt _ _ _ = Ok _ |- _ => apply add_opt_items in G
    | G : add _ _ _ = Ok _ |- _ => apply add_appends in G
    end.
  rewrite Hlast, Hmid.
  repeat match goal with G : contents ?x = _ |- context [contents ?x] => rewrite G; clear G end.
  by rewrite <- !app_assoc.
Qed.
(** What an accounting server adds up: the 32-bit counter and the gigawords above it. *)
Definition int_item (it : item) : option (Z * Z) :=
  match it with
  | @Typed w a v =>
      match a in attr w return val w -> option (Z * Z) with
      | ACCT_INPUT_OCTETS => fun v => Some (v, 0)
      | ACCT_INPUT_GIGAWORDS => fun v => Some (v * 2 ^ 32, 0)
      | ACCT_OUTPUT_OCTETS => fun v => Some (0, v)
      | ACCT_OUTPUT_GIGAWORDS => fun v => Some (0, v * 2 ^ 32)
      | _ => fun _ => None
      end v
  | Raw _ _ => None
  end.

Definition reported (items : list item) : Z * Z :=
  fold_right (fun it acc => match int_item it with Some (i, o) => (i + acc.1, o + acc.2) | None => acc end) (0, 0) items.

Lemma reported_app a b : reported (a ++ b) = ((reported a).1 + (reported b).1, (reported a).2 + (reported b).2).
Proof.
  unfold reported. induction a as [|it a IH]; cbn [app fold_right]; [by destruct (fold_right _ _ b)|].
  rewrite IH. destruct (int_item it) as [[i o]|]; cbn; [f_equal; lia | done].
Qed.

Lemma reported_opt {w} (a : attr w) o :
  (forall v, int_item (Typed a v) = None) -> reported (opt_item a o) = (0, 0).
Proof. intros H. destruct o; [|done]. cbn [opt_item]. unfold reported. cbn [fold_right]. by rewrite H. Qed.

Lemma halves z : u64 z -> z mod 2 ^ 32 + Z.shiftr z 32 * 2 ^ 32 = z.
Proof.
  intros _. rewrite Z.shiftr_div_pow2 by lia. pose proof (Z.div_mod z (2 ^ 32) ltac:(done)). lia.
Qed.

Lemma reported_traffic c :
  u64 (input_octets c) -> u64 (output_octets c) -> reported (traffic_items c) = (input_octets c, output_octets c).
Proof.
  intros Hi Ho. unfold traffic_items. cbn zeta. rewrite !reported_app.
  assert (Hin : reported (if Z.shiftr (input_octets c) 32 =? 0 then [] else [Typed ACCT_INPUT_GIGAWORDS (Z.shiftr (input_octets c) 32)])
                = (Z.shiftr (input_octets c) 32 * 2 ^ 32, 0)).
  { destruct (Z.eqb_spec (Z.shiftr (input_octets c) 32) 0) as [->|]; [done|]. cbn -[Z.shiftr Z.pow]. f_equal; lia. }
  assert (Hout : reported (if Z.shiftr (output_octets c) 32 =? 0 then [] else [Typed ACCT_OUTPUT_GIGAWORDS (Z.shiftr (output_octets c) 32)])
                = (0, Z.shiftr (output_octets c) 32 * 2 ^ 32)).
  { destruct (Z.eqb_spec (Z.shiftr (output_octets c) 32) 0) as [->|]; [done|]. cbn -[Z.shiftr Z.pow]. f_equal; lia. }
  rewrite Hin, Hout. pose proof (halves _ Hi). pose proof (halves _ Ho).
  cbn -[Z.shiftr Z.pow Z.modulo]. f_equal; lia.
Qed.

(** C25: Nothing is lost in the 32-bit attributes: the octets an accounting server adds up from an interim or
    final record, counter plus gigawords, are exactly the session's 64-bit counters in both directions; a
    start record reports none. *)
Theorem accounting_reports_all_octets ctx s e c delay buf buf' :
  u64 (input_octets c) -> u64 (output_octets c) -> contents buf = [] ->
  build_items buf ctx s e c delay = Ok buf' ->
  reported (contents buf') = match e with Start => (0, 0) | _ => (input_octets c, output_octets c) end.
Proof.
  intros Hi Ho Hb H. rewrite (build_items_ok buf ctx s e c delay buf' Hi Ho H), Hb. cbn [app]. unfold acct_items.
  rewrite !reported_app, !reported_opt by done.
  assert (Hd : reported (if delay =? 0 then [] else [Typed ACCT_DELAY_TIME delay]) = (0, 0)) by (by case_match).
  rewrite Hd. destruct e as [| |cc]; rewrite ?reported_traffic by done; cbn; f_equal; lia.
Qed.
End Records.

(** ** Identifiers *)

Definition peer_ok (ps : PeerState) : Prop := u8 (next_id ps).

Lemma allocate_loop_spec tries ps :
  peer_ok ps -> let '(ps', o) := allocate_loop tries ps in
  inflight ps' = inflight ps /\ peer_ok ps' /\
  match o with
  | Some id => u8 id /\ inflight ps !! id = None
  | None => forall i, 0 <= i < Z.of_nat tries -> is_Some (inflight ps !! ((next_id ps + i) mod 256))
  end.
Proof.
  revert ps. induction tries as [|tries IH]; intros ps Hok; cbn [allocate_loop].
  - split_and!; [done|done|]. lia.
  - assert (Hok' : u8 (wrapping_add_u8 (next_id ps) 1)) by (unfold u8, wrapping_add_u8; apply Z.mod_pos_bound; lia).
    cbn [inflight]. case_decide as Hn; [by split_and!|].
    specialize (IH {| next_id := wrapping_add_u8 (next_id ps) 1; inflight := inflight ps |} Hok').
    destruct (allocate_loop tries _) as [ps' [id|]]; [done|]. destruct IH as (? & ? & IH). split_and!; [done..|].
    cbn in IH. intros i Hi. destruct (decide (i = 0)) as [->|].
    + rewrite Z.add_0_r, Z.mod_small by done. destruct (inflight ps !! next_id ps); [eauto|done].
    + specialize (IH (i - 1) ltac:(lia)). unfold wrapping_add_u8 in IH.
      rewrite Zplus_mod_idemp_l in IH. by replace (next_id ps + 1 + (i - 1)) with (next_id ps + i) in IH by lia.
Qed.

(** A fresh identifier, unless all 256 are in use. *)
Lemma allocate_spec ps :
  peer_ok ps -> let '(ps', o) := allocate ps in
  inflight ps' = inflight ps /\ peer_ok ps' /\
  match o with
  | Some id => u8 id /\ inflight ps !! id = None
  | None => forall id, u8 id -> is_Some (inflight ps !! id)
  end.
Proof.
  intros Hok. pose proof (allocate_loop_spec 256 ps Hok) as H. unfold allocate.
  destruct (allocate_loop 256 ps) as [ps' [id|]]; [done|]. destruct H as (? & ? & H). split_and!; [done..|].
  intros id Hid. unfold peer_ok, u8 in *. specialize (H ((id - next_id ps) mod 256)).
  rewrite Zplus_mod_idemp_r in H. replace (next_id ps + (id - next_id ps)) with id in H by lia.
  rewrite (Z.mod_small id) in H by lia. apply H. apply (Z.mod_pos_bound _ 256). lia.
Qed.

(** The client at work: its table, the transmissions under way with their server and identifier, and
    those that were handed a reply. *)
Record running := { table : AcctClient; active : gmap nat (SocketAddr * Z); answered : gset nat }.

Inductive acct_step : running -> running -> Prop :=
| A_begin r server job c id :
    active r !! job = None -> job ∉ answered r -> send_begin (table r) server job = (c, Some id) ->
    acct_step r {| table := c; active := <[job := (server, id)]> (active r); answered := answered r |}
| A_full r server job c :
    send_begin (table r) server job = (c, None) ->
    acct_step r {| table := c; active := active r; answered := answered r |}
| A_datagram r server d c w :
    reader (table r) server d = Ok (c, w) ->
    acct_step r {| table := c; active := active r;
                   answered := match w with Some j => {[j]} ∪ answered r | None => answered r end |}
| A_end r server id job :
    active r !! job = Some (server, id) ->
    acct_step r {| table := send_end (table r) server id; active := delete job (active r); answered := answered r |}.

Definition acct_init : running := {| table := ∅; active := ∅; answered := ∅ |}.
Definition acct_reachable (r : running) : Prop := rtc acct_step acct_init r.

(** Every entry of the table belongs to a transmission under way. *)
Definition table_ok (r : running) : Prop :=
  (forall server slot, table r !! server = Some slot -> peer_ok slot) /\
  (forall server slot id job,
     table r !! server = Some slot -> inflight slot !! id = Some job -> active r !! job = Some (server, id)).

Definition slot_of (r : running) (server : SocketAddr) : PeerState := default empty_peer (table r !! server).

Lemma slot_ok r server :
  table_ok r ->
  peer_ok (slot_of r server) /\
  forall id job, inflight (slot_of r server) !! id = Some job -> active r !! job = Some (server, id).
Proof.
  intros [Hp Ht]. unfold slot_of. destruct (table r !! server) as [slot|] eqn:E; cbn [default]; [by split; eauto|].
  split; [done|]. intros *. cbn. by rewrite lookup_empty.
Qed.

Lemma table_ok_insert r server slot active' answered' :
  table_ok r -> peer_ok slot ->
  (forall id job, inflight slot !! id = Some job -> active' !! job = Some (server, id)) ->
  (forall s id job, s <> server -> active r !! job = Some (s, id) -> active' !! job = Some (s, id)) ->
  table_ok {| table := <[server := slot]> (table r); active := active'; answered := answered' |}.
Proof.
  intros [Hp Ht] Hslot Hin Hother. split; cbn [table active].
  - intros s sl. rewrite lookup_insert_Some. intros [[-> <-]|[_ ?]]; [done | by eapply Hp].
  - intros s sl i j. rewrite lookup_insert_Some. intros [[<- <-]|[Hne Hs]] Hl; [by apply Hin|].
    apply Hother; [congruence | by eapply Ht].
Qed.

Lemma send_begin_eq r server job :
  send_begin (table r) server job =
  match allocate (slot_of r server) with
  | (slot, None) => (<[server := slot]> (table r), None)
  | (slot, Some id) =>
      (<[server := {| next_id := next_id slot; inflight := <[id := job]> (inflight slot) |}]> (table r), Some id)
  end.
Proof. unfold send_begin. fold (slot_of r server). by destruct (allocate _) as [? []]. Qed.

(** What [send_end] and [reader] leave of the table. *)
Definition without (r : running) (server : SocketAddr) (id : Z) : AcctClient :=
  match table r !! server with
  | Some slot => <[server := {| next_id := next_id slot; inflight := delete id (inflight slot) |}]> (table r)
  | None => table r
  end.

Lemma without_ok r server id active' answered' :
  table_ok r ->
  (forall s i job, (s, i) <> (server, id) -> active r !! job = Some (s, i) -> active' !! job = Some (s, i)) ->
  table_ok {| table := without r server id; active := active'; answered := answered' |}.
Proof.
  intros Hok Ha. unfold without. destruct (table r !! server) as [slot|] eqn:E; pose proof Hok as [Hp Ht].
  - apply table_ok_insert; [done|exact (Hp _ _ E)| |].
    + cbn. intros i job [Hne Hl]%lookup_delete_Some. apply Ha; [congruence | by eapply Ht].
    + intros s i job Hne. apply Ha. congruence.
  - split; cbn [table active]; [done|]. intros s sl i job Hs Hl. apply Ha; [congruence | by eapply Ht].
Qed.

Lemma acct_step_ok r r' : acct_step r r' -> table_ok r -> table_ok r'.
Proof.
  intros Hstep Hok.
  destruct Hstep as [r server job c id Hfree _ Hb|r server job c Hb|r server d c w Hr|r server id job Ha].
  1,2: rewrite send_begin_eq in Hb; destruct (slot_ok r server Hok) as [Hslot Hin];
    pose proof (allocate_spec _ Hslot) as Hal; destruct (allocate (slot_of r server)) as [slot [id'|]]; try done;
    destruct Hal as (Hi & Hp & Hal).
  - injection Hb as <- <-. apply table_ok_insert; [done|done| |].
    + cbn. rewrite Hi. intros i j [[<- <-]|[_ Hl%Hin]]%lookup_insert_Some; [apply lookup_insert_eq|].
      rewrite lookup_insert_ne; [done|congruence].
    + intros s i j _ Hj. rewrite lookup_insert_ne; [done|congruence].
  - injection Hb as <-. apply table_ok_insert; [done|done| |done]. by rewrite Hi.
  - assert (Hc : c = table r \/ exists id, c = without r server id).
    { revert Hr. unfold reader. destruct (20 <=? len d); [|intros [= <- <-]; by left].
      intros (id & _ & Hr)%bind_ok. unfold without. destruct (table r !! server) as [slot|] eqn:E; [|injection Hr as <- <-; by left].
      destruct (inflight slot !! id); injection Hr as <- <-; [right; by exists id | by left]. }
    destruct Hc as [->|[id ->]]; [done|]. by apply without_ok.
  - change (send_end (table r) server id) with (without r server id). apply without_ok; [done|].
    intros s i j Hne Hj. rewrite lookup_delete_ne; [done|]. intros ->. congruence.
Qed.

Lemma acct_reachable_ok r : acct_reachable r -> table_ok r.
Proof.
  intros H. assert (G : forall x y, rtc acct_step x y -> table_ok x -> table_ok y).
  { induction 1; eauto using acct_step_ok. }
  apply (G _ _ H). split; intros *; cbn; by rewrite lookup_empty.
Qed.

(** C26: In every interleaving of transmissions, replies and clean-ups, identifiers are never ambiguous: a new
    transmission gets an identifier no other one waits for at that server, or an error when all 256 are
    taken; and a datagram is handed only to a transmission that is under way at the sending server with
    the datagram's identifier. *)
Theorem replies_reach_their_waiter (r : running) :
  acct_reachable r ->
  (forall server job,
     match send_begin (table r) server job with
     | (_, Some id) => u8 id /\ forall slot, table r !! server = Some slot -> inflight slot !! id = None
     | (_, None) => exists slot, table r !! server = Some slot /\ forall id, u8 id -> is_Some (inflight slot !! id)
     end) /\
  (forall server d, exists c w, reader (table r) server d = Ok (c, w) /\
     forall job, w = Some job -> 20 <= len d /\ active r !! job = Some (server, byte_at d 1)).
Proof.
  intros Hr%acct_reachable_ok. pose proof Hr as [Hp Ht]. split.
  - intros server job. rewrite send_begin_eq. pose proof (allocate_spec _ (proj1 (slot_ok r server Hr))) as Hal.
    destruct (allocate (slot_of r server)) as [slot' [id|]] eqn:Ea; destruct Hal as (_ & _ & Hal); unfold slot_of in *.
    + destruct Hal as [? Hal]. split; [done|]. intros slot Hs. by rewrite Hs in Hal.
    + destruct (table r !! server) as [slot|]; [by exists slot|]. destruct (Hal 0 ltac:(done)) as [? Hx].
      cbn in Hx. by rewrite lookup_empty in Hx.
  - intros server d. unfold reader. destruct (Z.leb_spec 20 (len d)); [|by exists (table r), None].
    rewrite idx_ok by lia. cbn [mbind res_bind]. destruct (table r !! server) as [slot|] eqn:E; [|by eexists _, None].
    destruct (inflight slot !! byte_at d 1) as [job|] eqn:Ei; [|by eexists _, None].
    eexists _, (Some job). split; [done|]. intros ? [= <-]. split; [done|]. by eapply Ht.
Qed.

(** *** The clean-up of a finished transmission *)

Definition only (server : SocketAddr) (n : Z) (waiting : gmap Z nat) : AcctClient :=
  {[server := {| next_id := n; inflight := waiting |}]}.

Lemma allocate_free n :
  allocate {| next_id := n; inflight := ∅ |} = ({| next_id := wrapping_add_u8 n 1; inflight := ∅ |}, Some n).
Proof.
  assert (G : forall k, allocate_loop (S k) {| next_id := n; inflight := ∅ |} =
                        ({| next_id := wrapping_add_u8 n 1; inflight := ∅ |}, Some n)).
  { intros k. cbn [allocate_loop next_id inflight]. by rewrite decide_True by apply lookup_empty. }
  apply (G 255%nat).
Qed.

Lemma send_begin_only server n job :
  send_begin (only server n ∅) server job = (only server (wrapping_add_u8 n 1) {[n := job]}, Some n).
Proof.
  unfold send_begin, only. rewrite lookup_singleton_eq. cbn [default from_option id]. rewrite allocate_free. cbn [next_id inflight].
  by rewrite insert_singleton_eq, insert_empty.
Qed.

Lemma send_begin_first server job : send_begin ∅ server job = (only server 1 {[0 := job]}, Some 0).
Proof.
  unfold send_begin. rewrite lookup_empty. cbn [default from_option id]. unfold empty_peer. rewrite allocate_free. cbn [next_id inflight].
  by rewrite !insert_empty.
Qed.

Lemma reader_only server n id job d :
  20 <= len d -> byte_at d 1 = id ->
  reader (only server n {[id := job]}) server d = Ok (only server n ∅, Some job).
Proof.
  intros Hd <-. unfold reader, only. rewrite (proj2 (Z.leb_le _ _) Hd), idx_ok by lia. cbn [mbind res_bind].
  rewrite lookup_singleton_eq. cbn [inflight next_id]. rewrite lookup_singleton_eq.
  by rewrite insert_singleton_eq, delete_singleton_eq.
Qed.

Lemma send_end_only server n id job : send_end (only server n {[id := job]}) server id = only server n ∅.
Proof.
  unfold send_end, only. rewrite lookup_singleton_eq. cbn [next_id inflight].
  by rewrite insert_singleton_eq, delete_singleton_eq.
Qed.

(** A transmission that begins and ends uses up one identifier. *)
Lemma begin_and_end server n job a ans :
  a !! job = None -> job ∉ ans ->
  rtc acct_step {| table := only server n ∅; active := a; answered := ans |}
                {| table := only server (wrapping_add_u8 n 1) ∅; active := a; answered := ans |}.
Proof.
  intros Ha Hans. eapply rtc_l.
  { eapply (A_begin _ server job); cbn; [done|done|apply send_begin_only]. }
  eapply rtc_l; [eapply (A_end _ server n job); cbn; apply lookup_insert_eq|]. cbn [table active answered].
  rewrite send_end_only, delete_insert_id by done. apply rtc_refl.
Qed.

Lemma begins_and_ends server job a ans (k : nat) n :
  u8 n -> a !! job = None -> job ∉ ans ->
  rtc acct_step {| table := only server n ∅; active := a; answered := ans |}
                {| table := only server ((n + Z.of_nat k) mod 256) ∅; active := a; answered := ans |}.
Proof.
  intros Hn Ha Hans. induction k as [|k IH].
  - rewrite Z.add_0_r, Z.mod_small by done. apply rtc_refl.
  - etrans; [exact IH|]. replace ((n + Z.of_nat (S k)) mod 256) with (wrapping_add_u8 ((n + Z.of_nat k) mod 256) 1).
    + by apply (begin_and_end server _ job).
    + unfold wrapping_add_u8. rewrite Zplus_mod_idemp_l. f_equal. lia.
Qed.

(** The clean-up after a reply removes whatever waits under the identifier: when 256 transmissions began
    in between, that is another one, which no datagram can reach any more although it was never answered. *)
Theorem late_cleanup_loses_a_waiter (server : SocketAddr) :
  exists r id job, acct_reachable r /\ active r !! job = Some (server, id) /\ (job ∉ answered r) /\
    forall d c, reader (table r) server d <> Ok (c, Some job).
Proof.
  exists {| table := only server 1 ∅; active := {[2%nat := (server, 0)]}; answered := {[0%nat]} |}, 0, 2%nat.
  split_and!; [|done|set_solver|].
  - eapply rtc_l; [eapply (A_begin _ server 0%nat); [done|set_solver|apply send_begin_first]|].
    cbn [table active answered acct_init]. eapply rtc_l; [eapply (A_datagram _ server (zeros 20)); by apply reader_only|].
    cbn [table active answered].
    etrans; [apply (begins_and_ends server 1%nat _ _ 255 1); [done|done|set_solver]|].
    change ((1 + Z.of_nat 255) mod 256) with 0.
    eapply rtc_l; [eapply (A_begin _ server 2%nat); cbn [table active answered]; [done|set_solver|apply send_begin_only]|].
    eapply rtc_l; [eapply (A_end _ server 0 0%nat); cbn [table active answered]; done|]. cbn [table active answered].
    rewrite send_end_only. change (wrapping_add_u8 0 1) with 1. rewrite insert_empty.
    replace ({[0%nat]} ∪ ∅ : gset nat) with ({[0%nat]} : gset nat) by set_solver.
    replace (delete 0%nat _) with ({[2%nat := (server, 0)]} : gmap nat (SocketAddr * Z)) by done. apply rtc_refl.
  - intros d c. unfold reader. destruct (20 <=? len d); [|by intros [=]].
    intros (i & _ & Hr)%bind_ok. cbn [table] in Hr. unfold only in Hr. rewrite lookup_singleton_eq in Hr. cbn [inflight] in Hr. by rewrite lookup_empty in Hr.
Qed.

(** ** Transmissions *)

Section Transmissions.
Context {lib : RadiusTokio} {pk : RadiusPackets lib}.

(** The waits of [n] attempts. *)
Fixpoint waits (retry : AcctRetry) (n : nat) (wait : Z) : list Z :=
  match n with
  | O => []
  | S n => wait :: waits retry n (saturating_mul wait (Z.max 1 (backoff_multiplier retry)))
  end.

Lemma attempts_loop_spec make secret retry script n k wait r sends :
  attempts_loop make secret retry n k wait script = (r, sends) ->
  (sends.*2 `prefix_of` waits retry n wait) /\
  (forall i b w, sends !! i = Some (b, w) ->
     make (Z.min U32_MAX (elapsed_secs (script (k + i)%nat))) = Ok b) /\
  (forall i, (S i < length sends)%nat -> wait_result (script (k + i)%nat) = TimedOut) /\
  (r = Ok tt -> exists i b w reply, S i = length sends /\ sends !! i = Some (b, w) /\
     wait_result (script (k + i)%nat) = Reply reply) /\
  (forall i b w reply, sends !! i = Some (b, w) -> wait_result (script (k + i)%nat) = Reply reply ->
     r = (ra ← request_authenticator_from b; verify reply secret ra)).
Proof.
  revert k wait r sends. induction n as [|n IH]; intros k wait r sends; cbn [attempts_loop].
  { intros [= <- <-]. split_and!; [by apply prefix_nil|done|cbn; lia|done|done]. }
  destruct (make _) as [b|e|] eqn:Eb.
  2,3: intros [= <- <-]; split_and!; [by apply prefix_nil|done|cbn; lia|done|done].
  destruct (send_error (script k)); [intros [= <- <-]; split_and!; [by apply prefix_nil|done|cbn; lia|done|done]|].
  assert (Hhead : forall b' w i, [(b, wait)] !! i = Some (b', w) ->
    make (Z.min U32_MAX (elapsed_secs (script (k + i)%nat))) = Ok b').
  { intros b' w [|i] Hi; [|done]. injection Hi as -> ->. by rewrite Nat.add_0_r. }
  destruct (wait_result (script k)) as [reply| |] eqn:Ew.
  - intros [= <- <-]. split_and!; [by apply prefix_cons, prefix_nil|naive_solver|cbn; lia| |].
    + intros _. exists 0%nat, b, wait, reply. by rewrite Nat.add_0_r.
    + intros [|i] b' w reply' Hi; [|done]. injection Hi as -> ->. rewrite Nat.add_0_r, Ew. by intros [= <-].
  - intros [= <- <-]. split_and!; [by apply prefix_cons, prefix_nil|naive_solver|cbn; lia|done|].
    intros [|i] b' w reply Hi; [rewrite Nat.add_0_r; congruence|done].
  - set (wait' := match n with O => _ | _ => _ end).
    destruct (attempts_loop _ _ _ n _ _ _) as [r' sends'] eqn:El. intros [= <- <-].
    destruct (IH _ _ _ _ El) as (Hp & Hm & Ht & Hr & Hl). split_and!.
    + cbn [waits fmap list_fmap snd]. apply prefix_cons. destruct n; [|done].
      destruct Hp as [l Hnil]. cbn in Hnil. symmetry in Hnil. apply app_nil in Hnil as [-> _]. by apply prefix_nil.
    + intros [|i] b' w Hi; [injection Hi as -> ->; by rewrite Nat.add_0_r|].
      replace (k + S i)%nat with (S k + i)%nat by lia. by eapply Hm.
    + intros [|i] Hi; [by rewrite Nat.add_0_r|]. replace (k + S i)%nat with (S k + i)%nat by lia.
      apply Ht. cbn in Hi. lia.
    + intros Hok. destruct (Hr Hok) as (i & b' & w & reply & Hi & Hs & Hw). exists (S i), b', w, reply.
      replace (k + S i)%nat with (S k + i)%nat by lia. split_and!; [cbn; lia|done..].
    + intros [|i] b' w reply Hi; [rewrite Nat.add_0_r; congruence|].
      replace (k + S i)%nat with (S k + i)%nat by lia. by eapply Hl.
Qed.

Lemma verify_ok reply secret ra :
  verify reply secret ra = Ok tt <->
  20 <= len reply /\ byte_at reply 0 = number ACCOUNTING_RESPONSE /\ verify_response reply ra secret = true.
Proof.
  unfold verify. destruct (Z.ltb_spec (len reply) 20); [split; [done|lia]|].
  rewrite idx_ok by lia. cbn [mbind res_bind].
  destruct (Z.eqb_spec (byte_at reply 0) (number ACCOUNTING_RESPONSE)); cbn [negb]; [|naive_solver].
  destruct (verify_response reply ra secret); cbn [negb]; naive_solver.
Qed.

(** An accounting record is transmitted at most five times by default, waiting 1, 2, 4, 8 and 16
    seconds, each time as the packet [build] makes for the seconds passed.  Every transmission but the last
    was waited for in vain.  The record counts as delivered exactly when the wait for the last one brought
    a reply of 20 bytes or more that carries the Accounting-Response code and verifies against the
    authenticator of that very packet: no other datagram delivers it. *)
Theorem record_transmissions_bounded secret identifier ctx session event counters script r sends :
  send_inner default_retry secret identifier ctx session event counters script = (r, sends) ->
  (sends.*2 `prefix_of` [1000000000; 2000000000; 4000000000; 8000000000; 16000000000]) /\
  (forall i b w, sends !! i = Some (b, w) ->
     build identifier secret ctx session event counters (Z.min U32_MAX (elapsed_secs (script i))) = Ok b) /\
  (forall i, (S i < length sends)%nat -> wait_result (script i) = TimedOut) /\
  (r = Ok tt <-> exists i b w reply ra, S i = length sends /\ sends !! i = Some (b, w) /\
     wait_result (script i) = Reply reply /\ request_authenticator_from b = Ok ra /\ 20 <= len reply /\
     byte_at reply 0 = number ACCOUNTING_RESPONSE /\ verify_response reply ra secret = true).
Proof.
  intros H. destruct (attempts_loop_spec _ _ _ _ _ _ _ _ _ H) as (Hp & Hm & Ht & Hr & Hl).
  split_and!; [done|done|done|]. split.
  - intros Hok. destruct (Hr Hok) as (i & b & w & reply & Hi & Hs & Hw). pose proof (Hl _ _ _ _ Hs Hw) as Heq.
    rewrite Hok in Heq. symmetry in Heq. apply bind_ok in Heq as (ra & Hra & Hv%verify_ok).
    exists i, b, w, reply, ra. by destruct Hv as (? & ? & ?).
  - intros (i & b & w & reply & ra & _ & Hs & Hw & Hra & Hv). rewrite (Hl _ _ _ _ Hs Hw), Hra. by apply verify_ok.
Qed.

(** A retransmission is a new packet under the same identifier: the late reply to the first transmission
    is checked against the second one and fails the record. *)
Theorem late_reply_fails_the_record retry secret identifier ctx session event counters script r sends b0 w0 b1 w1 :
  send_inner retry secret identifier ctx session event counters script = (r, sends) ->
  forall ra0 ra1 reply, sends = [(b0, w0); (b1, w1)] ->
  request_authenticator_from b0 = Ok ra0 -> request_authenticator_from b1 = Ok ra1 ->
  wait_result (script 1%nat) = Reply reply -> verify reply secret ra0 = Ok tt ->
  verify_response reply ra1 secret = false -> r = Err AuthenticatorMismatch.
Proof.
  intros H ra0 ra1 reply -> Hra0 Hra1 Hw (Hlen & Hcode & _)%verify_ok Hv.
  destruct (attempts_loop_spec _ _ _ _ _ _ _ _ _ H) as (_ & _ & _ & _ & Hl).
  rewrite (Hl 1%nat _ _ _ eq_refl Hw), Hra1. cbn [mbind res_bind]. unfold verify.
  rewrite (proj2 (Z.ltb_ge _ _) Hlen), idx_ok by lia. cbn [mbind res_bind]. by rewrite Hcode, Z.eqb_refl, Hv.
Qed.
End Transmissions.

(** ** Change of authorization *)

Section Coa.
Context {lib : RadiusTokio} {pk : RadiusPackets lib}.

(** What [process] checks before it calls the handler. *)
Definition authentic_request (secrets : gmap IpAddr bytes) (d : bytes) (peer : SocketAddr) (header : Header)
    (attrs secret : bytes) : Prop :=
  header_parse d = inl (header, attrs) /\
  (hd_code header = number COA_REQUEST \/ hd_code header = number DISCONNECT_REQUEST) /\
  secrets !! ip peer = Some secret /\ compute_zeroed_request d secret = hd_authenticator header /\
  verify_message d (zeros 16) secret = Valid.

(** The reply to a request: its code by request and outcome, the request's identifier, an error cause when
    it is refused, and the response authenticator over the request's. *)
Definition answers (header : Header) (secret : bytes) (outcome : Outcome) (reply : bytes) : Prop :=
  exists c buf, reply_code (hd_code header) outcome = Some c /\
    reply = seal_for buf (hd_authenticator header) secret /\
    match outcome with
    | Ack => buf = new_packet (number c) (hd_identifier header)
    | Nak k => add (new_packet (number c) (hd_identifier header)) ERROR_CAUSE (cause_value k) = Ok buf
    end.

(** A fresh packet has room for an error cause. *)
Hypothesis room : forall code identifier k,
  exists buf, add (new_packet code identifier) ERROR_CAUSE (cause_value k) = Ok buf.

Lemma build_reply_answers {E} header outcome secret :
  hd_code header = number COA_REQUEST \/ hd_code header = number DISCONNECT_REQUEST ->
  exists reply, build_reply (E := E) (hd_code header) (hd_identifier header) outcome (hd_authenticator header) secret = Ok reply /\
    answers header secret outcome reply.
Proof using room.
  intros Hc. unfold build_reply, answers.
  assert (exists c, reply_code (hd_code header) outcome = Some c) as [c ->].
  { unfold reply_code. case_match; [by eexists|]. destruct Hc as [Hc|Hc]; [lia|]. rewrite Hc, Z.eqb_refl. by eexists. }
  destruct outcome as [|k]; [by eexists; split; [|exists c; eexists]|].
  destruct (room (number c) (hd_identifier header) k) as [buf Hb]. rewrite Hb. by eexists; split; [|exists c, buf].
Qed.

(** The handler runs, and a reply goes out, exactly for the authentic requests of a trusted peer; the
    reply answers the request, and no datagram makes the receiver panic. *)
Theorem coa_handles_exactly_authentic secrets handler d peer :
  match process secrets handler d peer with
  | Ok (identity, reply) => exists header attrs secret,
      authentic_request secrets d peer header attrs secret /\ identity = decode_identity attrs /\
      answers header secret (handler (hd_code header) peer identity) reply
  | Err _ => forall header attrs secret, ~ authentic_request secrets d peer header attrs secret
  | Panic => False
  end.
Proof using room.
  unfold process. destruct (header_parse d) as [[header attrs]|e] eqn:Eh; [|intros * (Hh & _); congruence].
  destruct (negb (_ =? _) && negb (_ =? _)) eqn:Ec.
  { intros h a s (Hh & Hc & _). rewrite Eh in Hh. injection Hh as <- <-. lia. }
  destruct (secrets !! ip peer) as [secret|] eqn:Es; cbn [ok_or mbind res_bind]; [|intros * (_ & _ & Hs & _); congruence].
  destruct (bytes_eqb _ _) eqn:Ea; cbn [negb].
  2: { intros h a s (Hh & _ & Hs & Ha & _). rewrite Eh in Hh. injection Hh as <- <-. rewrite Es in Hs.
       injection Hs as <-. apply (proj2 (bytes_eqb_eq _ _)) in Ha. congruence. }
  apply bytes_eqb_eq in Ea. destruct (verify_message d (zeros 16) secret) eqn:Ev.
  2,3: intros h a s (_ & _ & Hs & _ & Hv); rewrite Es in Hs; injection Hs as <-; congruence.
  assert (Hc : hd_code header = number COA_REQUEST \/ hd_code header = number DISCONNECT_REQUEST) by lia.
  destruct (build_reply_answers (E := CoaDropReason) header (handler (hd_code header) peer (decode_identity attrs)) secret Hc)
    as (reply & -> & Hr). cbn [mbind res_bind]. by exists header, attrs, secret.
Qed.
End Coa.

(** ** A small instance *)

Module AcctDemo.

#[local] Existing Instance RadiusProps.Demo.demo.
#[local] Existing Instance RadiusProps.Demo.demo_laws.

(** A packet is sealed to a header whose authenticator counts the attributes. *)
Definition seal (buf : list item) : bytes := [4; 0; 0; 20] ++ zeros 15 ++ [len buf].

#[local] Instance packets : RadiusPackets RadiusProps.Demo.demo := {|
  HeaderError := Empty_set;
  status s := match s with START => 1 | STOP => 2 | INTERIM_UPDATE => 3 end;
  cause c := match c with USER_REQUEST => 1 | LOST_CARRIER => 2 | _ => 9 end;
  VIRTUAL := 5;
  number c :=
    match c with
    | ACCOUNTING_REQUEST => 4 | ACCOUNTING_RESPONSE => 5 | DISCONNECT_REQUEST => 40 | DISCONNECT_ACK => 41
    | DISCONNECT_NAK => 42 | COA_REQUEST => 43 | COA_ACK => 44 | COA_NAK => 45
    end;
  new_packet code identifier := [];
  seal_as_zeroed_request buf secret := seal buf;
  seal_for buf ra secret := seal buf;
  verify_response reply ra secret := byte_at reply 19 =? byte_at ra 15;
  compute_zeroed_request d secret := zeros 16;
  header_parse d := inl ({| hd_code := byte_at d 0; hd_identifier := byte_at d 1; hd_authenticator := zeros 16 |}, []);
  verify_message d a secret := Valid;
  attr_code w a := 0
|}.

Definition who : AccessRequestCtx := {|
  username := [0x61]; calling_station_id := None; called_station_id := None; nas_ip_address := None;
  ctx_nas_identifier := None; connect_info := None |}.

Definition what : AcctSession := {|
  session_id := [0x31]; authentic := 1; acct_framed_ip := [10; 0; 0; 7]; nas_ip := None; nas_port := 1; acct_class := None |}.

(** More than four gigabytes received *)
Definition much : AcctCounters := {|
  session_time := 3600; input_octets := 5000000000; output_octets := 1000; input_packets := 4000000; output_packets := 10 |}.

Definition full_record : list item := Eval vm_compute in
  match build_items (new_packet 4 0) who what (Stop USER_REQUEST) much 0 with Ok b => b | _ => [] end.

Lemma accounting_reports_all_octets_witness : reported (contents full_record) = (5000000000, 1000).
Proof.
  apply (accounting_reports_all_octets (lib := RadiusProps.Demo.demo) who what (Stop USER_REQUEST) much 0 (new_packet 4 0) full_record); [by split; vm_compute|by split; vm_compute|done|by vm_compute].
Defined.

Lemma replies_reach_their_waiter_witness (server := RadiusProps.Demo.address 1813) :
  exists r c, acct_reachable r /\ reader (table r) server (zeros 20) = Ok (c, Some 7%nat) /\
    20 <= len (zeros 20) /\ active r !! 7%nat = Some (server, byte_at (zeros 20) 1).
Proof.
  set (r := {| table := only server 1 {[0 := 7%nat]}; active := <[7%nat := (server, 0)]> ∅; answered := ∅ |}).
  assert (Hr : acct_reachable r).
  { apply rtc_once. apply (A_begin acct_init server 7%nat); [done|set_solver|apply send_begin_first]. }
  exists r, (only server 1 ∅). split; [done|]. split; [by apply reader_only|].
  destruct (proj2 (replies_reach_their_waiter r Hr) server (zeros 20)) as (c & w & Hc & Hw). apply Hw.
  cbn [table r] in Hc. rewrite reader_only in Hc by done. by injection Hc as _ <-.
Defined.

(** The first reply is lost; the second transmission is answered. *)
Definition script (k : nat) : attempt :=
  match k with
  | O => {| elapsed_secs := 0; send_error := None; wait_result := TimedOut |}
  | _ => {| elapsed_secs := 1; send_error := None; wait_result := Reply ([5; 0; 0; 20] ++ zeros 15 ++ [17]) |}
  end.

Definition delivery := Eval vm_compute in send_inner default_retry [] 0 who what (Stop USER_REQUEST) much script.

Lemma record_transmissions_bounded_witness :
  length delivery.2 = 2%nat /\
  exists i b w reply ra, S i = length delivery.2 /\ delivery.2 !! i = Some (b, w) /\
    wait_result (script i) = Reply reply /\ request_authenticator_from b = Ok ra /\ 20 <= len reply /\
    byte_at reply 0 = number ACCOUNTING_RESPONSE /\ verify_response reply ra [] = true.
Proof.
  split; [done|].
  destruct (record_transmissions_bounded [] 0 who what (Stop USER_REQUEST) much script delivery.1 delivery.2)
    as (_ & _ & _ & H); [by vm_compute|]. apply H. by vm_compute.
Defined.

End AcctDemo.
