(* ===== verification/Rekey.v ===== *)
(** * The rekeying decision ([src/src/crypto/rekey.rs])

    [decide] is the transition table for TLS records other than application data; [decide_v03_kmod] is
    what the session calls today.  [Dialogue] is the grammar of a rekeying exchange as its actions show
    it, and [rekey_follows_dialogue] says that whatever events arrive in whatever order, the actions
    follow it: keys are installed only for a record that was pulled, in the directions asked for, and
    every exchange ends. *)

From stdpp Require Import strings.
From S2P Require Import Prelude.

Inductive TlsContentType :=
| ChangeCipherSpec
| Alert
| Handshake
| ApplicationData
| Other (b : Z).

Definition TlsContentType_from_u8 (b : Z) : TlsContentType :=
  if b =? 20 then ChangeCipherSpec
  else if b =? 21 then Alert
  else if b =? 22 then Handshake
  else if b =? 23 then ApplicationData
  else Other b.

Inductive Direction := Rx | Tx | Both.

#[export] Instance Direction_eq : EqDecision Direction.
Proof. solve_decision. Defined.

Inductive RekeyEvent :=
| KmodSignalled (ct : TlsContentType)
| KeyUpdate (update_requested : bool)
| NewSessionTicket
| KmodReinstallAcked (d : Direction)
| KmodReinstallFailed (d : Direction).

Inductive TearDownReason :=
| UnexpectedRecord
| AlertRecord
| UnexpectedHandshake
| ReinstallFailed
| V03KmodCannotResume.

Inductive Action :=
| PullNextRecord
| InstallNewKeys (d : Direction)
| Ignore
| Refuse
| TearDown (reason : TearDownReason).

Inductive RekeyState :=
| Idle
| AwaitingRecord
| InstallingKeys (d : Direction).

Definition TlsContentType_label (ct : TlsContentType) : string :=
  match ct with
  | ChangeCipherSpec => "change_cipher_spec"
  | Alert => "alert"
  | Handshake => "handshake"
  | ApplicationData => "application_data"
  | Other _ => "other"
  end.

Definition TearDownReason_label (r : TearDownReason) : string :=
  match r with
  | UnexpectedRecord => "unexpected_record"
  | AlertRecord => "alert_record"
  | UnexpectedHandshake => "unexpected_handshake"
  | ReinstallFailed => "kmod_reinstall_failed"
  | V03KmodCannotResume => "v03_kmod_cannot_resume"
  end.

Definition decide (state : RekeyState) (event : RekeyEvent) : RekeyState * Action :=
  match state, event with
  | Idle, KmodSignalled Handshake => (AwaitingRecord, PullNextRecord)
  | Idle, KmodSignalled Alert => (state, TearDown AlertRecord)
  | Idle, KmodSignalled (ChangeCipherSpec | ApplicationData | Other _) =>
      (state, TearDown UnexpectedRecord)
  | AwaitingRecord, KeyUpdate update_requested =>
      let dir := if update_requested then Both else Rx in
      (InstallingKeys dir, InstallNewKeys dir)
  | AwaitingRecord, NewSessionTicket => (Idle, Ignore)
  | InstallingKeys expected, KmodReinstallAcked got =>
      if bool_decide (expected = got) then (Idle, Ignore) else (state, Refuse)
  | InstallingKeys _, KmodReinstallFailed _ => (Idle, TearDown ReinstallFailed)
  | _, _ => (state, Refuse)
  end.

Definition decide_v03_kmod (ct : TlsContentType) : Action :=
  match ct with
  | Handshake => TearDown V03KmodCannotResume
  | Alert => TearDown AlertRecord
  | ChangeCipherSpec | ApplicationData | Other _ => TearDown UnexpectedRecord
  end.

(** * What the actions may be *)

(** The run of the machine over a sequence of events: the last state and the actions. *)
Fixpoint run (state : RekeyState) (events : list RekeyEvent) : RekeyState * list Action :=
  match events with
  | [] => (state, [])
  | e :: es =>
      let '(state, a) := decide state e in
      let '(state, acts) := run state es in (state, a :: acts)
  end.

(** The grammar of a rekeying exchange, from the state in which it stands; refusals are silent. *)
Inductive Dialogue : RekeyState -> list Action -> RekeyState -> Prop :=
| D_end s : Dialogue s [] s
| D_refuse s acts s' : Dialogue s acts s' -> Dialogue s (Refuse :: acts) s'
| D_pull acts s' : Dialogue AwaitingRecord acts s' -> Dialogue Idle (PullNextRecord :: acts) s'
| D_down r acts s' : r <> V03KmodCannotResume -> Dialogue Idle acts s' -> Dialogue Idle (TearDown r :: acts) s'
| D_ticket acts s' : Dialogue Idle acts s' -> Dialogue AwaitingRecord (Ignore :: acts) s'
| D_keys d acts s' :
    d <> Tx -> Dialogue (InstallingKeys d) acts s' -> Dialogue AwaitingRecord (InstallNewKeys d :: acts) s'
| D_acked d acts s' : Dialogue Idle acts s' -> Dialogue (InstallingKeys d) (Ignore :: acts) s'
| D_failed d acts s' :
    Dialogue Idle acts s' -> Dialogue (InstallingKeys d) (TearDown ReinstallFailed :: acts) s'.

#[local] Hint Constructors Dialogue : core.

(** Over any sequence of events the machine follows the rekeying dialogue: it pulls the next record only
    when idle, installs keys only after it pulled a record that held a KeyUpdate, always the receive keys
    among them, returns to idle when the installation it asked for is acknowledged, and answers everything
    else with a refusal or by tearing the session down. *)
Theorem rekey_follows_dialogue (s : RekeyState) (events : list RekeyEvent) :
  Dialogue s (run s events).2 (run s events).1.
Proof.
  revert s. induction events as [|e es IH]; intros s; [done|]. simpl.
  destruct (decide s e) as [s1 a] eqn:Hd. specialize (IH s1).
  destruct (run s1 es) as [s2 acts]. simpl in *.
  destruct s, e as [ct|u| |d'|d']; simpl in Hd; repeat case_match; simplify_eq; eauto;
    by constructor; destruct_or?; try done; try (by destruct u).
Qed.

(** With the kernel module as it is, every record the module reports ends the session. *)
Theorem rekey_is_fatal_today (ct : TlsContentType) :
  exists r, decide_v03_kmod ct = TearDown r /\ r <> UnexpectedHandshake /\ r <> ReinstallFailed.
Proof. destruct ct; eauto. Qed.
