(* ===== verification/Kmod.v ===== *)
(** * The kernel module ([src/kmod/])

    The data path of a session in kernel mode: [sstp_demux.c] (receive), [sstp_chan.c] (transmit) and
    the session file of [sstp_event.c].  [session] is [struct sstp_session].  Its locks protect single
    operations, which are atomic here; the two workers and the session file interleave in any order in
    KmodProps.  [Kernel] stands for the allocator and the clock; what [kernel_recvmsg] and
    [kernel_sendmsg] return is an argument.  [trace] is the list of calls made to the rest of the kernel.

    A C access outside an object is [Panic]: that the functions return [Ok] is their memory safety. *)

From S2P Require Import Prelude.

(** The type of the kernel functions: there are no other errors than [errno] values. *)
Abbreviation mem A := (res Empty_set A).

Definition SSTP_TX_Q_CAP : Z := 64.
Definition SSTP_CTRL_Q_CAP : Z := 8.
Definition SSTP_RX_BUF_CAP : Z := 8192.
Definition SSTP_EVENT_QUEUE_CAP : Z := 16.
Definition SSTP_LEN_MASK : Z := 0x0FFF.
Definition SSTP_C_BIT : Z := 0x01.
Definition KMOD_VERSION_1_0 : Z := 0x10.
Definition KMOD_HEADER_LEN : Z := 4.
Definition KMOD_MAX_PACKET_LEN : Z := SSTP_LEN_MASK.
Definition SSTP_CONTROL_MAX : Z := 4096.
Definition SSTP_TX_BATCH_MAX : Z := 8.
Definition SSTP_TX_HDR_STRIDE : Z := KMOD_HEADER_LEN + 2.
Definition SSTP_TX_BATCH_BYTES_MAX : Z := 14 * 1024.

Definition PPP_ALLSTATIONS : Z := 0xff.
Definition PPP_UI : Z := 0x03.
Definition LCP_ECHOREQ : Z := 9.
Definition LCP_ECHOREP : Z := 10.

Definition EAGAIN : Z := 11.
Definition EIO : Z := 5.
Definition EPIPE : Z := 32.
Definition EINVAL : Z := 22.
Definition EMSGSIZE : Z := 90.
Definition ENOBUFS : Z := 105.
Definition ENOMEM : Z := 12.

Inductive evt :=
| PEER_CLOSED
| TLS_FATAL_ALERT
| TLS_REKEY_NEEDED
| PROTOCOL_ERROR
| CONTROL_PACKET.

#[export] Instance evt_eq : EqDecision evt.
Proof. solve_decision. Defined.

Record sstp_event := { evt_type : evt; evt_arg : Z; timestamp_ns : Z }.

(** The counters of [struct sstp_stats]. *)
Inductive counter :=
| tls_records_rx | tls_records_tx | tls_decrypt_errors | sstp_frames_rx | sstp_frames_tx
| sstp_malformed | ppp_frames_rx | ppp_frames_tx | evt_dropped | ctrl_frames_rx | ctrl_frames_tx
| tx_send_errors.

#[export] Instance counter_eq : EqDecision counter.
Proof. solve_decision. Defined.

(** Calls to the rest of the kernel; [sent] is a [kernel_sendmsg] that took all of its data. *)
Inductive call :=
| ppp_input (skb : bytes)
| sent (data : bytes)
| queue_tx_work
| queue_rx_work
| ppp_output_wakeup.

Record session := {
  stats : counter -> Z;
  events : list sstp_event;
  evt_head : Z;
  evt_tail : Z;
  tx_q : list bytes;
  rx_buf : bytes;
  ctrl_q : list (option bytes);
  ctrl_q_head : Z;
  ctrl_q_tail : Z;
  closing : bool;
  trace : list call
}.

(** The allocator and the clock; the first argument says how many kernel calls were made before. *)
Class Kernel := {
  dev_alloc_skb : nat -> Z -> bool;
  ktime_get_ns : nat -> Z
}.

(** * Updates of the struct *)

Definition with_stats (s : session) f :=
  {| stats := f; events := events s; evt_head := evt_head s; evt_tail := evt_tail s; tx_q := tx_q s;
     rx_buf := rx_buf s; ctrl_q := ctrl_q s; ctrl_q_head := ctrl_q_head s; ctrl_q_tail := ctrl_q_tail s;
     closing := closing s; trace := trace s |}.

Definition with_events (s : session) ev h t :=
  {| stats := stats s; events := ev; evt_head := h; evt_tail := t; tx_q := tx_q s;
     rx_buf := rx_buf s; ctrl_q := ctrl_q s; ctrl_q_head := ctrl_q_head s; ctrl_q_tail := ctrl_q_tail s;
     closing := closing s; trace := trace s |}.

Definition with_tx_q (s : session) q :=
  {| stats := stats s; events := events s; evt_head := evt_head s; evt_tail := evt_tail s; tx_q := q;
     rx_buf := rx_buf s; ctrl_q := ctrl_q s; ctrl_q_head := ctrl_q_head s; ctrl_q_tail := ctrl_q_tail s;
     closing := closing s; trace := trace s |}.

Definition with_rx_buf (s : session) b :=
  {| stats := stats s; events := events s; evt_head := evt_head s; evt_tail := evt_tail s; tx_q := tx_q s;
     rx_buf := b; ctrl_q := ctrl_q s; ctrl_q_head := ctrl_q_head s; ctrl_q_tail := ctrl_q_tail s;
     closing := closing s; trace := trace s |}.

Definition with_ctrl_q (s : session) q h t :=
  {| stats := stats s; events := events s; evt_head := evt_head s; evt_tail := evt_tail s; tx_q := tx_q s;
     rx_buf := rx_buf s; ctrl_q := q; ctrl_q_head := h; ctrl_q_tail := t;
     closing := closing s; trace := trace s |}.

Definition set_closing (s : session) :=
  {| stats := stats s; events := events s; evt_head := evt_head s; evt_tail := evt_tail s; tx_q := tx_q s;
     rx_buf := rx_buf s; ctrl_q := ctrl_q s; ctrl_q_head := ctrl_q_head s; ctrl_q_tail := ctrl_q_tail s;
     closing := true; trace := trace s |}.

Definition called (s : session) c :=
  {| stats := stats s; events := events s; evt_head := evt_head s; evt_tail := evt_tail s; tx_q := tx_q s;
     rx_buf := rx_buf s; ctrl_q := ctrl_q s; ctrl_q_head := ctrl_q_head s; ctrl_q_tail := ctrl_q_tail s;
     closing := closing s; trace := trace s ++ [c] |}.

(** [atomic64_add(n, &s->stats_c)] *)
Definition add_stat (n : Z) (c : counter) (s : session) : session :=
  with_stats s (fun d => if decide (d = c) then (stats s d + n) mod 2 ^ 64 else stats s d).

Definition inc (c : counter) (s : session) : session := add_stat 1 c s.

(** [a[i]] and [a[i] = x] on a C array *)
Definition arr_get {A} (a : list A) (i : Z) : mem A :=
  if 0 <=? i then match a !! Z.to_nat i with Some x => Ok x | None => Panic end else Panic.

Definition arr_set {A} (a : list A) (i : Z) (x : A) : mem (list A) :=
  if (0 <=? i) && (i <? len a) then Ok (<[Z.to_nat i := x]> a) else Panic.

Section Module_.
Context {K : Kernel}.

Definition rx_len (s : session) : Z := len (rx_buf s).
Definition alloc (s : session) (n : Z) : bool := dev_alloc_skb (length (trace s)) n.
Definition now_ns (s : session) : Z := ktime_get_ns (length (trace s)).

(** ** The session file ([sstp_event.c]) *)

Definition sstp_session_emit (s : session) (type : evt) (arg : Z) : mem session :=
  let next_head := (evt_head s + 1) mod SSTP_EVENT_QUEUE_CAP in
  if next_head =? evt_tail s then
    let prev := (evt_head s + SSTP_EVENT_QUEUE_CAP - 1) mod SSTP_EVENT_QUEUE_CAP in
    last ← arr_get (events s) prev;
    s ← (if negb (evt_head s =? evt_tail s) && bool_decide (evt_type last = type) then
           ev ← arr_set (events s) prev
                  {| evt_type := type; evt_arg := arg; timestamp_ns := now_ns s |};
           Ok (with_events s ev (evt_head s) (evt_tail s))
         else Ok s);
    Ok (inc evt_dropped s)
  else
    ev ← arr_set (events s) (evt_head s)
           {| evt_type := type; evt_arg := arg; timestamp_ns := now_ns s |};
    Ok (with_events s ev next_head (evt_tail s)).

(** [read(2)] of one event on the non-blocking session file; [None] is [EAGAIN]. *)
Definition sstp_session_read (s : session) : mem (session * option sstp_event) :=
  if negb (evt_head s =? evt_tail s) then
    e ← arr_get (events s) (evt_tail s);
    Ok (with_events s (events s) (evt_head s) ((evt_tail s + 1) mod SSTP_EVENT_QUEUE_CAP), Some e)
  else Ok (s, None).

(** [SSTP_IOC_DETACH] *)
Definition ioc_detach (s : session) : session := set_closing s.

(** [SSTP_IOC_RECV_CONTROL]: the return value and, when it is positive, the payload. *)
Definition ioc_recv_control (s : session) (buf_len : Z) : mem (session * Z * bytes) :=
  if negb (ctrl_q_head s =? ctrl_q_tail s) then
    skb ← arr_get (ctrl_q s) (ctrl_q_tail s);
    q ← arr_set (ctrl_q s) (ctrl_q_tail s) None;
    let s := with_ctrl_q s q (ctrl_q_head s) ((ctrl_q_tail s + 1) mod SSTP_CTRL_Q_CAP) in
    match skb with
    | None => Ok (s, 0, [])
    | Some skb =>
        let plen := len skb in
        if buf_len <? plen then Ok (inc sstp_malformed s, - EMSGSIZE, [])
        else Ok (s, plen, skb)
    end
  else Ok (s, 0, []).

(** [SSTP_IOC_SEND_CONTROL] of a body, when [kernel_sendmsg] returns [ret]. *)
Definition ioc_send_control (s : session) (body : bytes) (reserved ret : Z) : mem (session * Z) :=
  if closing s then Ok (s, - EPIPE)
  else if negb (reserved =? 0) then Ok (s, - EINVAL)
  else if (len body =? 0) || (SSTP_CONTROL_MAX - KMOD_HEADER_LEN <? len body) then Ok (s, - EMSGSIZE)
  else
    let frame_len := KMOD_HEADER_LEN + len body in
    let hdr := [KMOD_VERSION_1_0; SSTP_C_BIT; Z.land (Z.shiftr frame_len 8) 0x0F; Z.land frame_len 0xFF] in
    let total := frame_len in
    if ret =? total then
      let s := called s (sent (hdr ++ body)) in
      Ok (inc tls_records_tx (inc ctrl_frames_tx (inc sstp_frames_tx s)), 0)
    else if ret =? - EAGAIN then Ok (s, - EAGAIN)
    else
      let s := inc tx_send_errors s in
      s ← sstp_session_emit s TLS_FATAL_ALERT (if ret <? 0 then - ret else 0);
      Ok (set_closing s, if ret <? 0 then ret else - EIO).

(** [SSTP_IOC_REKEY_TX] and [SSTP_IOC_REKEY_RX] *)
Definition ENOSYS : Z := 38.
Definition ioc_rekey : Z := - ENOSYS.

(** ** The receive path ([sstp_demux.c]) *)

Definition sstp_handle_lcp_echo (s : session) (payload : bytes) : mem (session * bool) :=
  let payload_len := len payload in
  if payload_len <? 10 then Ok (s, false)
  else
    p0 ← idx payload 0;
    p1 ← idx payload 1;
    if negb (p0 =? 0xc0) || negb (p1 =? 0x21) then Ok (s, false)
    else
      p2 ← idx payload 2;
      if negb (p2 =? LCP_ECHOREQ) then Ok (s, false)
      else
        p4 ← idx payload 4;
        p5 ← idx payload 5;
        let lcp_len := be16 p4 p5 in
        if (lcp_len <? 8) || (payload_len <? lcp_len + 2) then Ok (s, false)
        else if closing s then Ok (s, true)
        else if SSTP_TX_Q_CAP <=? len (tx_q s) then Ok (s, true)
        else if negb (alloc s (2 + lcp_len)) then Ok (s, true)
        else
          p3 ← idx payload 3;
          rest ← (if 8 <? lcp_len then slice payload 10 (10 + (lcp_len - 8)) else Ok []);
          let skb := [0xc0; 0x21; LCP_ECHOREP; p3; p4; p5; 0; 0; 0; 0] ++ rest in
          Ok (called (with_tx_q s (tx_q s ++ [skb])) queue_tx_work, true).

Definition sstp_deliver_ppp (s : session) (payload : bytes) : mem session :=
  payload ← (if 2 <=? len payload then
               p0 ← idx payload 0;
               p1 ← idx payload 1;
               if (p0 =? PPP_ALLSTATIONS) && (p1 =? PPP_UI) then slice_from payload 2 else Ok payload
             else Ok payload);
  if len payload <? 2 then Ok (inc sstp_malformed s)
  else
    '(s, handled) ← sstp_handle_lcp_echo s payload;
    if (handled : bool) then Ok s
    else if negb (alloc s (len payload)) then Ok (inc sstp_malformed s)
    else Ok (called (inc ppp_frames_rx s) (ppp_input payload)).

(** The branch of [sstp_demux_parse] for a control packet. *)
Definition queue_control (s : session) (payload : bytes) : mem session :=
  let plen := len payload in
  '(s, enqueued) ←
    (if alloc s plen then
       let next_head := (ctrl_q_head s + 1) mod SSTP_CTRL_Q_CAP in
       if negb (next_head =? ctrl_q_tail s) then
         q ← arr_set (ctrl_q s) (ctrl_q_head s) (Some payload);
         Ok (with_ctrl_q s q next_head (ctrl_q_tail s), true)
       else Ok (s, false)
     else Ok (s, false));
  if negb enqueued then Ok (inc sstp_malformed s)
  else sstp_session_emit (inc ctrl_frames_rx s) CONTROL_PACKET plen.

(** The loop of [sstp_demux_parse] from an offset on; a packet has at least four bytes, so the length of
    the buffer is fuel enough. *)
Fixpoint demux_loop (fuel : nat) (s : session) (off : Z) : mem (session * Z) :=
  match fuel with
  | O => Ok (s, off)
  | S fuel =>
      if rx_len s - off <? KMOD_HEADER_LEN then Ok (s, off)
      else
        ver ← idx (rx_buf s) off;
        p1 ← idx (rx_buf s) (off + 1);
        let c := Z.land p1 SSTP_C_BIT in
        p2 ← idx (rx_buf s) (off + 2);
        p3 ← idx (rx_buf s) (off + 3);
        let length := Z.land (be16 p2 p3) SSTP_LEN_MASK in
        if negb (ver =? KMOD_VERSION_1_0) || (length <? KMOD_HEADER_LEN) then
          s ← sstp_session_emit (inc sstp_malformed s) PROTOCOL_ERROR ver;
          Ok (set_closing s, off)
        else if rx_len s - off <? length then Ok (s, off)
        else
          let s := inc sstp_frames_rx s in
          body ← slice (rx_buf s) (off + KMOD_HEADER_LEN) (off + length);
          s ← (if c =? 0 then sstp_deliver_ppp s body else queue_control s body);
          demux_loop fuel s (off + length)
  end.

Definition sstp_demux_parse (s : session) : mem (session * Z) :=
  demux_loop (S (length (rx_buf s))) s 0.

(** What [kernel_recvmsg] gives: bytes, a record that is not application data, or an error. *)
Inductive recv :=
| Bytes (b : bytes)
| Record_type (rt : Z)
| Errno (e : Z).

Definition sstp_demux_recv_once (s : session) (r : recv) : mem (session * Z) :=
  if SSTP_RX_BUF_CAP <=? rx_len s then Ok (s, - ENOBUFS)
  else
    match r with
    | Record_type rt =>
        s ← sstp_session_emit s TLS_REKEY_NEEDED rt;
        Ok (set_closing s, - EPIPE)
    | Errno e => Ok (s, - e)
    | Bytes b =>
        if SSTP_RX_BUF_CAP - rx_len s <? len b then Panic
        else if 0 <? len b then Ok (inc tls_records_rx (with_rx_buf s (rx_buf s ++ b)), len b)
        else Ok (s, 0)
    end.

(** One round of the loop of [sstp_rx_worker]; the flag says whether it goes on. *)
Definition rx_round (s : session) (r : recv) : mem (session * bool) :=
  '(s, rc) ← sstp_demux_recv_once s r;
  if rc =? 0 then
    s ← sstp_session_emit s PEER_CLOSED 0;
    Ok (set_closing s, false)
  else if (rc <? 0) && negb (rc =? - ENOBUFS) then
    if rc =? - EAGAIN then Ok (s, false)
    else if rc =? - EPIPE then Ok (s, false)
    else
      s ← sstp_session_emit s TLS_FATAL_ALERT (- rc);
      Ok (set_closing s, false)
  else if 0 <? rx_len s then
    '(s, consumed) ← sstp_demux_parse s;
    if consumed =? 0 then Ok (s, true)
    else
      tail ← slice_from (rx_buf s) consumed;
      Ok (with_rx_buf s tail, true)
  else Ok (s, true).

(** [sstp_rx_worker] with the results of its receives, [EAGAIN] when there are no more; [loops] counts
    down from 64. *)
Fixpoint rx_loop (loops : nat) (s : session) (rs : list recv) : mem session :=
  match loops with
  | O => Ok (called s queue_rx_work)
  | S loops =>
      if closing s then Ok s
      else
        let r := match rs with r :: _ => r | [] => Errno EAGAIN end in
        '(s, go) ← rx_round s r;
        if (go : bool) then rx_loop loops s (tail rs) else Ok s
  end.

Definition sstp_rx_worker (s : session) (rs : list recv) : mem session := rx_loop 64 s rs.

(** ** The transmit path ([sstp_chan.c]) *)

(** The result is the return value: 0 tells [ppp_generic] to keep the frame. *)
Definition sstp_chan_start_xmit (s : session) (skb : bytes) : session * Z :=
  let total := KMOD_HEADER_LEN + 2 + len skb in
  if closing s then (s, 1)
  else if KMOD_MAX_PACKET_LEN <? total then (inc sstp_malformed s, 1)
  else if SSTP_TX_Q_CAP <=? len (tx_q s) then (s, 0)
  else (called (with_tx_q s (tx_q s ++ [skb])) queue_tx_work, 1).

(** The six bytes in front of a frame. *)
Definition tx_header (skb : bytes) : bytes :=
  let frame := SSTP_TX_HDR_STRIDE + len skb in
  [KMOD_VERSION_1_0; 0; Z.land (Z.shiftr frame 8) 0x0F; Z.land frame 0xFF; PPP_ALLSTATIONS; PPP_UI].

(** The inner loop: it takes frames off the queue, [n] in the batch so far with [total] bytes. *)
Fixpoint build_batch (fuel : nat) (n total : Z) (q : list bytes) : list bytes * list bytes :=
  match fuel with
  | O => ([], q)
  | S fuel =>
      match q with
      | [] => ([], [])
      | skb :: q' =>
          let frame := SSTP_TX_HDR_STRIDE + len skb in
          if (0 <? n) && (SSTP_TX_BATCH_BYTES_MAX <? total + frame) then ([], skb :: q')
          else
            let '(batch, rest) := build_batch fuel (n + 1) (total + frame) q' in
            (skb :: batch, rest)
      end
  end.

Definition batch_bytes (batch : list bytes) : bytes :=
  concat (map (fun skb => tx_header skb ++ skb) batch).

(** One round of the loop of [sstp_tx_worker], when [kernel_sendmsg] returns [ret]; the flag says whether
    the batch was sent. *)
Definition tx_round (s : session) (ret : Z) : mem (session * bool) :=
  let '(batch, rest) := build_batch (Z.to_nat SSTP_TX_BATCH_MAX) 0 0 (tx_q s) in
  let n := len batch in
  if n =? 0 then Ok (with_tx_q s rest, false)
  else
    let data := batch_bytes batch in
    let total := len data in
    if ret =? total then
      let s := called (with_tx_q s rest) (sent data) in
      Ok (inc tls_records_tx (add_stat n sstp_frames_tx (add_stat n ppp_frames_tx s)), true)
    else if ret =? - EAGAIN then Ok (with_tx_q s (batch ++ rest), false)
    else
      let s := inc tx_send_errors (with_tx_q s rest) in
      s ← sstp_session_emit s TLS_FATAL_ALERT (if ret <? 0 then - ret else 0);
      Ok (set_closing s, false).

(** [sstp_tx_worker] with the results of its sends, [EAGAIN] when there are no more; [loops] counts down
    from 8 and [drained] says whether a send succeeded. *)
Fixpoint tx_loop (loops : nat) (drained : bool) (s : session) (rets : list Z) : mem (session * bool) :=
  match loops with
  | O => Ok (called s queue_tx_work, drained)
  | S loops =>
      if closing s then Ok (s, drained)
      else
        let ret := match rets with r :: _ => r | [] => - EAGAIN end in
        '(s, go) ← tx_round s ret;
        if (go : bool) then tx_loop loops true s (tail rets) else Ok (s, drained)
  end.

Definition sstp_tx_worker (s : session) (rets : list Z) : mem session :=
  '(s, drained) ← tx_loop 8 false s rets;
  if drained && (len (tx_q s) <? SSTP_TX_Q_CAP / 2) then Ok (called s ppp_output_wakeup) else Ok s.

(** [sstp_demux_shutdown] *)
Definition sstp_demux_shutdown (s : session) : session := with_tx_q s [].

End Module_.

(** The session [sstp_do_attach] allocates, all zero. *)
Definition attached : session :=
  {| stats := fun _ => 0;
     events := replicate (Z.to_nat SSTP_EVENT_QUEUE_CAP) {| evt_type := PEER_CLOSED; evt_arg := 0; timestamp_ns := 0 |};
     evt_head := 0; evt_tail := 0; tx_q := []; rx_buf := [];
     ctrl_q := replicate (Z.to_nat SSTP_CTRL_Q_CAP) None; ctrl_q_head := 0; ctrl_q_tail := 0;
     closing := false; trace := [] |}.
