(* ===== verification/KmodRing.v ===== *)
(** * Rings

    The event ring and the control queue of the kernel module are arrays with a head (the next slot to
    write) and a tail (the next slot to read), one slot being kept free.  [ring] is their contents,
    oldest first: writing appends ([ring_push]) and reading takes the first ([ring_pop]). *)

From S2P Require Import Prelude Kmod.

Section Ring.
Context {A : Type} (cap : Z) (Hcap : 0 < cap).
Implicit Types (a : list A) (h t : Z).

Definition used h t : Z := (h - t) mod cap.

(** The array index of the [i]-th element from the tail. *)
Definition slot t (i : nat) : nat := Z.to_nat ((t + Z.of_nat i) mod cap).

(** The elements at these distances from the tail. *)
Definition pick a t (l : list nat) : list A := omap (fun i => a !! slot t i) l.

Definition ring a h t : list A := pick a t (seq 0 (Z.to_nat (used h t))).

Definition ring_ok a h t : Prop := len a = cap /\ 0 <= h < cap /\ 0 <= t < cap.

Lemma slot_lt t i : (slot t i < Z.to_nat cap)%nat.
Proof using Hcap. unfold slot. pose proof (Z.mod_pos_bound (t + Z.of_nat i) cap Hcap). lia. Qed.

Lemma used_range h t : 0 <= used h t < cap.
Proof using Hcap. apply Z.mod_pos_bound, Hcap. Qed.

(** Elements less than [cap] apart are in different slots. *)
Lemma slot_inj t i j : 0 <= Z.of_nat i < cap -> 0 <= Z.of_nat j < cap -> slot t i = slot t j -> i = j.
Proof using Hcap.
  intros Hi Hj E. unfold slot in E.
  pose proof (Z.mod_pos_bound (t + Z.of_nat i) cap Hcap). pose proof (Z.mod_pos_bound (t + Z.of_nat j) cap Hcap).
  assert (Em : (t + Z.of_nat i) mod cap = (t + Z.of_nat j) mod cap) by lia.
  pose proof (Z.div_mod (t + Z.of_nat i) cap ltac:(lia)). pose proof (Z.div_mod (t + Z.of_nat j) cap ltac:(lia)).
  assert (Hd : Z.of_nat i - Z.of_nat j = cap * ((t + Z.of_nat i) / cap - (t + Z.of_nat j) / cap)) by lia.
  destruct (Z.eq_dec ((t + Z.of_nat i) / cap - (t + Z.of_nat j) / cap) 0); nia.
Qed.

Lemma slot_head h t : 0 <= h < cap -> slot t (Z.to_nat (used h t)) = Z.to_nat h.
Proof using Hcap.
  intros Hh. pose proof (used_range h t). unfold slot. rewrite Z2Nat.id by lia. unfold used.
  rewrite Z.add_mod_idemp_r by lia. replace (t + (h - t)) with h by lia. by rewrite Z.mod_small.
Qed.

Lemma slot_next t i : slot ((t + 1) mod cap) i = slot t (S i).
Proof using Hcap.
  unfold slot. f_equal. rewrite Z.add_mod_idemp_l by lia. f_equal. lia.
Qed.

Lemma used_push h t : (h + 1) mod cap <> t -> 0 <= t < cap -> used ((h + 1) mod cap) t = used h t + 1.
Proof using Hcap.
  intros Hne Ht. unfold used. rewrite Zminus_mod_idemp_l.
  pose proof (Z.mod_pos_bound (h - t) cap Hcap). pose proof (Z.mod_pos_bound (h + 1) cap Hcap).
  replace (h + 1 - t) with ((h - t) + 1) by lia. rewrite <- Z.add_mod_idemp_l by lia.
  apply Z.mod_small. destruct (Z.eq_dec ((h - t) mod cap + 1) cap); [|lia]. exfalso. apply Hne.
  assert (E : (h + 1 - t) mod cap = 0).
  { replace (h + 1 - t) with ((h - t) + 1) by lia. rewrite <- Z.add_mod_idemp_l by lia.
    replace ((h - t) mod cap + 1) with cap by lia. apply Z.mod_same. lia. }
  rewrite <- (Z.mod_small t cap) by lia.
  replace (h + 1) with ((h + 1 - t) + t) by lia. rewrite <- Z.add_mod_idemp_l, E by lia. done.
Qed.

Lemma used_pop h t : h <> t -> 0 <= h < cap -> 0 <= t < cap -> used h ((t + 1) mod cap) = used h t - 1.
Proof using Hcap.
  intros Hne Hh Ht. unfold used. rewrite Zminus_mod_idemp_r.
  pose proof (Z.mod_pos_bound (h - t) cap Hcap).
  assert (Hz : (h - t) mod cap <> 0).
  { intros E. apply Hne. destruct (Z.lt_ge_cases h t).
    - assert (E' : (h - t + 1 * cap) mod cap = 0) by (by rewrite Z.mod_add by lia).
      rewrite Z.mod_small in E' by lia. lia.
    - rewrite Z.mod_small in E by lia. lia. }
  replace (h - (t + 1)) with ((h - t) - 1) by lia. rewrite <- Zminus_mod_idemp_l.
  apply Z.mod_small. lia.
Qed.

Lemma used_zero h t : 0 <= h < cap -> 0 <= t < cap -> used h t = 0 <-> h = t.
Proof using Hcap.
  intros Hh Ht. split.
  - intros E. destruct (Z.eq_dec h t) as [|Hne]; [done|].
    pose proof (used_pop h t Hne Hh Ht). pose proof (used_range h ((t + 1) mod cap)). lia.
  - intros ->. unfold used. by rewrite Z.sub_diag, Z.mod_0_l by lia.
Qed.

Lemma pick_app a t l k : pick a t (l ++ k) = pick a t l ++ pick a t k.
Proof. apply omap_app. Qed.

(** The list of the occupied slots depends on those slots only. *)
Lemma ring_ext a b h t :
  (forall i, (i < Z.to_nat (used h t))%nat -> a !! slot t i = b !! slot t i) -> ring a h t = ring b h t.
Proof.
  intros H. unfold ring.
  assert (G : forall l, (forall i, i ∈ l -> a !! slot t i = b !! slot t i) -> pick a t l = pick b t l).
  { induction l as [|i l IH]; intros Hl; [done|]. change (i :: l) with ([i] ++ l).
    rewrite !pick_app, IH by set_solver. f_equal. unfold pick. simpl. by rewrite (Hl i) by set_solver. }
  apply G. intros i Hi%elem_of_seq. apply H. lia.
Qed.

Lemma ring_push a h t x :
  ring_ok a h t -> (h + 1) mod cap <> t ->
  ring (<[Z.to_nat h := x]> a) ((h + 1) mod cap) t = ring a h t ++ [x].
Proof using Hcap.
  intros (Hl & Hh & Ht) Hne. pose proof (used_range h t). pose proof (used_range ((h + 1) mod cap) t) as Hu.
  rewrite used_push in Hu by done.
  unfold ring at 1. rewrite used_push by done.
  replace (Z.to_nat (used h t + 1)) with (Z.to_nat (used h t) + 1)%nat by lia.
  rewrite seq_app, pick_app. unfold pick at 2. simpl. rewrite slot_head by done.
  rewrite list_lookup_insert_eq by lia. f_equal.
  apply (ring_ext _ a h t). intros i Hi. apply list_lookup_insert_ne. rewrite <- (slot_head h t) by done.
  intros E%slot_inj; lia.
Qed.

Lemma ring_pop a b h t :
  ring_ok a h t -> h <> t -> (forall j, j <> Z.to_nat t -> a !! j = b !! j) ->
  exists x, a !! Z.to_nat t = Some x /\ ring a h t = x :: ring b h ((t + 1) mod cap).
Proof using Hcap.
  intros (Hl & Hh & Ht) Hne Hab. pose proof (used_range h t). pose proof (used_range h ((t + 1) mod cap)) as Hu.
  rewrite used_pop in Hu by done.
  assert (Hs : slot t 0 = Z.to_nat t).
  { unfold slot. rewrite Z.add_0_r, Z.mod_small by lia. done. }
  destruct (lookup_lt_is_Some_2 a (Z.to_nat t)) as [x Hx]; [lia|]. exists x. split; [done|].
  unfold ring. rewrite used_pop by done.
  replace (Z.to_nat (used h t)) with (S (Z.to_nat (used h t - 1))) by lia.
  change (seq 0 (S ?n)) with ([0%nat] ++ seq 1 n). rewrite pick_app. unfold pick at 1. simpl.
  rewrite Hs, Hx. simpl. f_equal.
  assert (G : forall n, (n < Z.to_nat cap)%nat -> pick a t (seq 1 n) = pick b ((t + 1) mod cap) (seq 0 n)).
  { intros n. induction n as [|n IH]; intros Hn; [done|].
    rewrite !seq_S, !pick_app, IH by lia. f_equal. unfold pick. simpl. rewrite slot_next.
    rewrite Hab; [done|]. rewrite <- Hs. intros E%slot_inj; lia. }
  apply G. lia.
Qed.

Lemma ring_length a h t : ring_ok a h t -> len (ring a h t) = used h t.
Proof using Hcap.
  intros (Hl & Hh & Ht). pose proof (used_range h t). unfold ring.
  assert (G : forall n, length (pick a t (seq 0 n)) = n); [|rewrite G; lia].
  induction n as [|n IH]; [done|]. rewrite seq_S, pick_app, length_app, IH. unfold pick. simpl.
  pose proof (slot_lt t n). destruct (lookup_lt_is_Some_2 a (slot t n)) as [x ->]; simpl; lia.
Qed.

End Ring.
