(* ===== verification/KmodProps.v ===== *)
(** * Properties of the kernel module

    - Memory safety and the queue invariant: the workers and the session file, interleaved in any order,
      never access memory out of bounds, never fill the receive buffer or the event ring, and keep as
      many control events as control frames, so that no frame is left in the queue.
    - The module cuts the byte stream into packets where the userspace parser does, however the stream is
      cut into receives, and answers an LCP Echo-Request with the bytes the userspace driver writes.
    - The transmit worker sends the frames it was given, in order, as packets that parse back; and the
      two lengths for which it does not. *)

From S2P Require Import Prelude SstpFrame Kmod KmodRing.

(** The contents of the two rings. *)
Definition events_of (s : session) : list sstp_event :=
  ring SSTP_EVENT_QUEUE_CAP (events s) (evt_head s) (evt_tail s).

Definition frames_of (s : session) : list (option bytes) :=
  ring SSTP_CTRL_Q_CAP (ctrl_q s) (ctrl_q_head s) (ctrl_q_tail s).

Definition events_ok (s : session) : Prop :=
  ring_ok SSTP_EVENT_QUEUE_CAP (events s) (evt_head s) (evt_tail s).

Definition frames_ok (s : session) : Prop :=
  ring_ok SSTP_CTRL_Q_CAP (ctrl_q s) (ctrl_q_head s) (ctrl_q_tail s).

(** The same session but for its counters, its event ring and its closing flag. *)
Definition same_queues (s s' : session) : Prop :=
  tx_q s' = tx_q s /\ rx_buf s' = rx_buf s /\ frames_of s' = frames_of s /\ trace s' = trace s /\
  (frames_ok s -> frames_ok s').

Lemma arr_get_ok {A} (a : list A) i : 0 <= i < len a -> exists x, a !! Z.to_nat i = Some x /\ arr_get a i = Ok x.
Proof.
  intros Hi. destruct (lookup_lt_is_Some_2 a (Z.to_nat i)) as [x Hx]; [lia|]. exists x. split; [done|].
  unfold arr_get. replace (0 <=? i) with true by lia. by rewrite Hx.
Qed.

Lemma arr_set_ok {A} (a : list A) i x : 0 <= i < len a -> arr_set a i x = Ok (<[Z.to_nat i := x]> a).
Proof. intros Hi. unfold arr_set. by replace (_ && _) with true by lia. Qed.

Lemma event_cap_pos : 0 < SSTP_EVENT_QUEUE_CAP. Proof. done. Qed.
Lemma ctrl_cap_pos : 0 < SSTP_CTRL_Q_CAP. Proof. done. Qed.

Section Props.
Context {K : Kernel}.

(** ** Events *)

(** An event is appended when the ring has room, and nothing else changes. *)
Lemma emit_ok s ty arg :
  events_ok s -> len (events_of s) < SSTP_EVENT_QUEUE_CAP - 1 ->
  exists s', sstp_session_emit s ty arg = Ok s' /\ events_ok s' /\
    events_of s' = events_of s ++ [{| evt_type := ty; evt_arg := arg; timestamp_ns := now_ns s |}] /\
    same_queues s s' /\ closing s' = closing s /\ stats s' = stats s.
Proof.
  intros Hok Hroom. pose proof Hok as (Hl & Hh & Ht). unfold events_of in *.
  rewrite (ring_length _ event_cap_pos) in Hroom by done.
  assert (Hne : (evt_head s + 1) mod SSTP_EVENT_QUEUE_CAP <> evt_tail s).
  { intros E. unfold used in Hroom. rewrite <- E in Hroom. unfold SSTP_EVENT_QUEUE_CAP in *.
    revert Hroom. Z.div_mod_to_equations. lia. }
  unfold sstp_session_emit. replace (_ =? evt_tail s) with false by lia.
  rewrite arr_set_ok by lia. simpl. eexists. split; [done|]. unfold events_ok, events_of. simpl.
  pose proof (Z.mod_pos_bound (evt_head s + 1) SSTP_EVENT_QUEUE_CAP ltac:(done)).
  split_and!; try done.
  - split; [by rewrite length_insert|]. lia.
  - by apply ring_push.
Qed.

Lemma read_event_ok s :
  events_ok s ->
  exists s', sstp_session_read s = Ok (s', head (events_of s)) /\ events_ok s' /\
    events_of s' = tail (events_of s) /\ same_queues s s' /\ closing s' = closing s /\ stats s' = stats s.
Proof.
  intros Hok. pose proof Hok as (Hl & Hh & Ht). unfold sstp_session_read, events_of.
  destruct (Z.eqb_spec (evt_head s) (evt_tail s)) as [E|Hne]; simpl.
  - exists s. unfold ring. rewrite (proj2 (used_zero _ event_cap_pos _ _ Hh Ht) E). simpl.
    unfold same_queues. by split_and!.
  - destruct (ring_pop _ event_cap_pos (events s) (events s) _ _ Hok Hne) as (x & Hx & Hr); [done|].
    destruct (arr_get_ok (events s) (evt_tail s)) as (y & Hy & Hget); [lia|]. simplify_eq.
    rewrite Hget, Hr. simpl. eexists. split; [done|].
    pose proof (Z.mod_pos_bound (evt_tail s + 1) SSTP_EVENT_QUEUE_CAP ltac:(done)).
    unfold events_ok, same_queues, ring_ok. simpl. split_and!; done || lia.
Qed.

(** ** Control frames *)

Lemma recv_control_ok s n :
  frames_ok s ->
  exists s' rc p, ioc_recv_control s n = Ok (s', rc, p) /\ frames_ok s' /\
    frames_of s' = tail (frames_of s) /\
    (forall b, head (frames_of s) = Some (Some b) -> len b <= n -> rc = len b /\ p = b) /\
    tx_q s' = tx_q s /\ rx_buf s' = rx_buf s /\ trace s' = trace s /\ events_of s' = events_of s /\
    (events_ok s -> events_ok s') /\ closing s' = closing s /\ stats s' evt_dropped = stats s evt_dropped.
Proof.
  intros Hok. pose proof Hok as (Hl & Hh & Ht). unfold ioc_recv_control, frames_of.
  destruct (Z.eqb_spec (ctrl_q_head s) (ctrl_q_tail s)) as [E|Hne]; simpl.
  - exists s, 0, []. unfold ring. rewrite (proj2 (used_zero _ ctrl_cap_pos _ _ Hh Ht) E). simpl.
    by split_and!.
  - destruct (ring_pop _ ctrl_cap_pos (ctrl_q s) (<[Z.to_nat (ctrl_q_tail s) := None]> (ctrl_q s)) _ _ Hok Hne)
      as (x & Hx & Hr). { intros j Hj. by rewrite list_lookup_insert_ne. }
    destruct (arr_get_ok (ctrl_q s) (ctrl_q_tail s)) as (y & Hy & Hget); [lia|]. simplify_eq.
    rewrite Hget, Hr, arr_set_ok by lia. simpl.
    pose proof (Z.mod_pos_bound (ctrl_q_tail s + 1) SSTP_CTRL_Q_CAP ltac:(done)).
    assert (Hok' : ring_ok SSTP_CTRL_Q_CAP (<[Z.to_nat (ctrl_q_tail s) := None]> (ctrl_q s)) (ctrl_q_head s)
      ((ctrl_q_tail s + 1) mod SSTP_CTRL_Q_CAP)) by (split; [by rewrite length_insert | lia]).
    destruct x as [b|]; [destruct (n <? len b) eqn:Hn|];
      do 3 eexists; (split; [done|]); unfold frames_ok; simpl;
      split_and!; try done; intros b' [= ->]; lia || done.
Qed.

(** A control frame is queued with its event, or dropped with neither. *)
Lemma queue_control_ok s p :
  events_ok s -> frames_ok s -> len (events_of s) < SSTP_EVENT_QUEUE_CAP - 1 ->
  exists s', queue_control s p = Ok s' /\ events_ok s' /\ frames_ok s' /\
    tx_q s' = tx_q s /\ rx_buf s' = rx_buf s /\ trace s' = trace s /\ closing s' = closing s /\
    stats s' evt_dropped = stats s evt_dropped /\
    (frames_of s' = frames_of s /\ events_of s' = events_of s \/
     frames_of s' = frames_of s ++ [Some p] /\
     events_of s' = events_of s ++ [{| evt_type := CONTROL_PACKET; evt_arg := len p; timestamp_ns := now_ns s |}]).
Proof.
  intros Hev Hok Hroom. pose proof Hok as (Hl & Hh & Ht). unfold queue_control.
  assert (Hdrop : exists s', Ok (inc sstp_malformed s) = Ok (E := Empty_set) s' /\ events_ok s' /\ frames_ok s' /\
    tx_q s' = tx_q s /\ rx_buf s' = rx_buf s /\ trace s' = trace s /\ closing s' = closing s /\
    stats s' evt_dropped = stats s evt_dropped /\
    (frames_of s' = frames_of s /\ events_of s' = events_of s \/
     frames_of s' = frames_of s ++ [Some p] /\
     events_of s' = events_of s ++ [{| evt_type := CONTROL_PACKET; evt_arg := len p; timestamp_ns := now_ns s |}]))
    by (eexists; split; [done|]; split_and!; by try left).
  destruct (alloc s (len p)); simpl; [|done].
  destruct (Z.eqb_spec ((ctrl_q_head s + 1) mod SSTP_CTRL_Q_CAP) (ctrl_q_tail s)) as [E|Hne]; simpl; [done|].
  rewrite arr_set_ok by lia. simpl.
  set (s1 := inc ctrl_frames_rx _).
  destruct (emit_ok s1 CONTROL_PACKET (len p)) as (s' & He & Hev' & Hevs & (Htx & Hrx & Hfr & Htr & Hfo) & Hcl & Hst);
    [done | done|].
  exists s'. pose proof (Z.mod_pos_bound (ctrl_q_head s + 1) SSTP_CTRL_Q_CAP ltac:(done)).
  assert (frames_ok s1) by (split; simpl; [by rewrite length_insert | lia]).
  split_and!; try done; try (by auto).
  - by rewrite Hst.
  - right. split; [|done]. rewrite Hfr. unfold frames_of. simpl. by apply ring_push.
Qed.

(** Everything but the transmit queue, the trace and the other counters is as before. *)
Definition same_control (s s' : session) : Prop :=
  rx_buf s' = rx_buf s /\ events_of s' = events_of s /\ frames_of s' = frames_of s /\
  closing s' = closing s /\ stats s' evt_dropped = stats s evt_dropped /\
  (events_ok s -> events_ok s') /\ (frames_ok s -> frames_ok s').

Lemma same_control_refl s : same_control s s.
Proof. by unfold same_control. Qed.

Lemma handle_lcp_echo_ok s p :
  exists s' handled, sstp_handle_lcp_echo s p = Ok (s', handled) /\ same_control s s' /\
    (handled = false -> s' = s).
Proof.
  unfold sstp_handle_lcp_echo.
  destruct (len p <? 10) eqn:Hlen; [eauto using same_control_refl|]. run_ok.
  destruct (_ || _); [eauto using same_control_refl|]. run_ok.
  destruct (negb _); [eauto using same_control_refl|]. run_ok.
  set (lcp_len := be16 (byte_at p 4) (byte_at p 5)).
  destruct ((lcp_len <? 8) || (len p <? lcp_len + 2)) eqn:Hl; [eauto using same_control_refl|].
  destruct (closing s) eqn:Hc; [eexists s, true; eauto using same_control_refl|].
  destruct (SSTP_TX_Q_CAP <=? len (tx_q s)); [eexists s, true; eauto using same_control_refl|].
  destruct (negb _); [eexists s, true; eauto using same_control_refl|]. run_ok.
  destruct (8 <? lcp_len); simpl; (eexists _, true; split; [done|]; by unfold same_control).
Qed.

Lemma deliver_ppp_ok s p : exists s', sstp_deliver_ppp s p = Ok s' /\ same_control s s'.
Proof.
  unfold sstp_deliver_ppp.
  assert (Hp : exists q : bytes, (if 2 <=? len p
    then p0 ← idx p 0; p1 ← idx p 1;
         if (p0 =? PPP_ALLSTATIONS) && (p1 =? PPP_UI) then slice_from p 2 else Ok p
    else Ok p) = Ok (E := Empty_set) q).
  { destruct (2 <=? len p) eqn:H2; [|eauto]. run_ok. destruct (_ && _); eauto. }
  destruct Hp as [q ->]. cbn [mbind res_bind].
  destruct (len q <? 2); [eexists; split; [done|]; by unfold same_control|].
  destruct (handle_lcp_echo_ok s q) as (s1 & handled & -> & Hs1 & _). cbn [mbind res_bind].
  destruct handled; [eauto|]. destruct (negb _); (eexists; split; [done|]); unfold same_control in *; naive_solver.
Qed.

(** ** The invariant *)

Definition is_control_event (e : sstp_event) : bool := bool_decide (evt_type e = CONTROL_PACKET).

Definition control_events (s : session) : list sstp_event := List.filter is_control_event (events_of s).
Definition other_events (s : session) : list sstp_event :=
  List.filter (fun e => negb (is_control_event e)) (events_of s).

(** [pending] counts the control events that userspace has read and not yet acted upon. *)
Definition queued (o : option bytes) : Prop := exists b, o = Some b /\ len b <= 4091.

Record inv (s : session) (pending : nat) : Prop := {
  inv_events : events_ok s;
  inv_frames : frames_ok s;
  inv_some : Forall queued (frames_of s);
  inv_count : (length (control_events s) + pending = length (frames_of s))%nat;
  inv_other : (length (other_events s) <= if closing s then 1 else 0)%nat;
  inv_dropped : stats s evt_dropped = 0
}.

Lemma filter_split {A} (f : A -> bool) l :
  (length (List.filter f l) + length (List.filter (fun x => negb (f x)) l) = length l)%nat.
Proof. induction l as [|x l IH]; simpl; [done|]. destruct (f x); simpl; lia. Qed.

(** At most seven frames, so at most eight events: the ring is never full. *)
Lemma inv_room s pending : inv s pending -> len (events_of s) < SSTP_EVENT_QUEUE_CAP - 1.
Proof.
  intros [Hev Hfr _ Hc Ho _]. pose proof (filter_split is_control_event (events_of s)) as Hs.
  fold (control_events s) (other_events s) in Hs.
  pose proof (ring_length _ ctrl_cap_pos _ _ _ Hfr) as Hl. fold (frames_of s) in Hl.
  pose proof (used_range _ ctrl_cap_pos (ctrl_q_head s) (ctrl_q_tail s)).
  unfold SSTP_EVENT_QUEUE_CAP, SSTP_CTRL_Q_CAP in *. destruct (closing s); lia.
Qed.

Lemma inv_same s s' pending : same_control s s' -> inv s pending -> inv s' pending.
Proof.
  intros (_ & He & Hf & Hc & Hd & Hev & Hfr) [? ? ? Hcnt Ho ?].
  unfold control_events, other_events in *.
  constructor; unfold control_events, other_events; rewrite ?He, ?Hf, ?Hc, ?Hd; auto.
Qed.

Lemma queue_control_inv s p pending :
  inv s pending -> closing s = false -> len p <= 4091 ->
  exists s', queue_control s p = Ok s' /\ inv s' pending /\ rx_buf s' = rx_buf s /\ closing s' = false.
Proof.
  intros Hinv Hcl Hp. pose proof (inv_room _ _ Hinv). destruct Hinv as [Hev Hfr Hsome Hc Ho Hd].
  destruct (queue_control_ok s p) as (s' & -> & Hev' & Hfr' & _ & Hrx & _ & Hcl' & Hd' & Hcase); [done..|].
  exists s'. split; [done|]. split; [|by rewrite Hcl'].
  unfold control_events, other_events in *.
  destruct Hcase as [[Hf He]|[Hf He]]; constructor; unfold control_events, other_events; try done;
    rewrite ?Hf, ?He, ?Hcl', ?Hd'; try done.
  - apply Forall_app. split; [done|]. constructor; [by exists p | done].
  - rewrite List.filter_app, !length_app. simpl. lia.
  - rewrite List.filter_app, !length_app. simpl. lia.
Qed.

(** An event that closes the session. *)
Lemma emit_closing_inv s ty arg pending :
  inv s pending -> closing s = false -> ty <> CONTROL_PACKET ->
  exists s', sstp_session_emit s ty arg = Ok s' /\ inv (set_closing s') pending /\ rx_buf s' = rx_buf s.
Proof.
  intros Hinv Hcl Hty. pose proof (inv_room _ _ Hinv). destruct Hinv as [Hev Hfr Hsome Hc Ho Hd].
  destruct (emit_ok s ty arg) as (s' & -> & Hev' & He & (Htx & Hrx & Hf & Htr & Hfo) & Hcl' & Hst); [done..|].
  exists s'. split; [done|]. split; [|done]. rewrite Hcl in Ho.
  unfold control_events, other_events in *.
  assert (Hn : is_control_event {| evt_type := ty; evt_arg := arg; timestamp_ns := now_ns s |} = false)
    by (unfold is_control_event; by rewrite bool_decide_false).
  constructor; unfold control_events, other_events;
    change (events_of (set_closing s')) with (events_of s');
    change (frames_of (set_closing s')) with (frames_of s'); rewrite ?He, ?Hf; try done.
  - by apply Hfo.
  - rewrite List.filter_app, length_app. cbn [List.filter]. rewrite Hn. simpl. lia.
  - rewrite List.filter_app, length_app. cbn [List.filter]. rewrite Hn. simpl. lia.
  - simpl. by rewrite Hst.
Qed.

(** ** The receive worker *)

Lemma same_control_inc s c : c <> evt_dropped -> same_control s (inc c s).
Proof.
  intros Hc. unfold same_control, inc, add_stat. simpl. rewrite decide_False by done. done.
Qed.

Lemma land_mask_range x : 0 <= Z.land x SSTP_LEN_MASK <= 4095.
Proof.
  change SSTP_LEN_MASK with 4095. rewrite land_12bit. pose proof (Z.mod_pos_bound x 4096). lia.
Qed.

(** The loop stays inside the buffer, and what it leaves is less than one packet. *)
Lemma demux_loop_inv fuel s off pending :
  inv s pending -> closing s = false -> 0 <= off <= rx_len s -> rx_len s - off < Z.of_nat fuel ->
  exists s' off', demux_loop fuel s off = Ok (s', off') /\ inv s' pending /\ rx_buf s' = rx_buf s /\
    off <= off' <= rx_len s /\ (closing s' = false -> rx_len s - off' < 4095).
Proof.
  revert s off. induction fuel as [|fuel IH]; intros s off Hinv Hcl Hoff Hfuel; [lia|].
  cbn [demux_loop]. unfold rx_len, KMOD_HEADER_LEN in *.
  destruct (Z.ltb_spec (len (rx_buf s) - off) 4).
  { exists s, off. split_and!; try done; lia. }
  run_ok. set (n := Z.land _ SSTP_LEN_MASK). pose proof (land_mask_range (be16 (byte_at (rx_buf s) (off + 2)) (byte_at (rx_buf s) (off + 3)))) as Hn.
  fold n in Hn. destruct (_ || _) eqn:Hbad.
  { destruct (emit_closing_inv (inc sstp_malformed s) PROTOCOL_ERROR (byte_at (rx_buf s) off) pending)
      as (s' & -> & Hinv' & Hrx); [by apply (inv_same s); [apply same_control_inc|] | done | done|].
    cbn [mbind res_bind]. exists (set_closing s'), off. split_and!; try done; lia. }
  destruct (Z.ltb_spec (len (rx_buf s) - off) n).
  { exists s, off. split_and!; try done; lia. }
  set (s1 := inc sstp_frames_rx s).
  assert (Hinv1 : inv s1 pending) by (by apply (inv_same s); [apply same_control_inc|]).
  assert (Hn4 : 4 <= n) by lia. clearbody n.
  change (rx_buf s1) with (rx_buf s). run_ok.
  assert (Hstep : forall body, len body <= 4091 -> exists s2,
    (if Z.land (byte_at (rx_buf s) (off + 1)) SSTP_C_BIT =? 0
     then sstp_deliver_ppp s1 body else queue_control s1 body) = Ok s2 /\
    inv s2 pending /\ rx_buf s2 = rx_buf s /\ closing s2 = false).
  { intros body Hbody. case_match.
    - destruct (deliver_ppp_ok s1 body) as (s2 & -> & Hs). exists s2. split; [done|].
      split; [by eapply inv_same|]. destruct Hs as (Hb & _ & _ & Hc & _). rewrite Hb, Hc. done.
    - destruct (queue_control_inv s1 body pending) as (s2 & -> & ? & Hb & ?); [done..|]. eauto. }
  destruct (Hstep (sub (rx_buf s) (off + 4) (off + n))) as (s2 & -> & Hinv2 & Hrx2 & Hcl2);
    [rewrite len_sub; lia|].
  cbn [mbind res_bind]. destruct (IH s2 (off + n)) as (s' & off' & -> & Hinv' & Hrx' & Ho' & Hl').
  { done. } { done. } { rewrite Hrx2. lia. } { rewrite Hrx2. lia. }
  rewrite Hrx2 in *. exists s', off'. split_and!; try done; lia.
Qed.

(** Bytes that fit the space [kernel_recvmsg] was given. *)
Definition fits (s : session) (r : recv) : Prop :=
  match r with Bytes b => len b <= SSTP_RX_BUF_CAP - rx_len s | _ => True end.

(** Between two rounds the buffer holds less than one packet. *)
Definition rx_bounded (s : session) : Prop := closing s = false -> rx_len s < 4095.

Lemma demux_parse_inv s pending :
  inv s pending -> closing s = false ->
  exists s' n, sstp_demux_parse s = Ok (s', n) /\ inv s' pending /\ rx_buf s' = rx_buf s /\
    0 <= n <= rx_len s /\ (closing s' = false -> rx_len s - n < 4095).
Proof.
  intros Hinv Hcl. unfold sstp_demux_parse. destruct (demux_loop_inv (S (length (rx_buf s))) s 0 pending)
    as (s' & n & -> & ?); try done; unfold rx_len; try lia. eauto.
Qed.

Lemma with_rx_inv s b pending : inv s pending -> inv (with_rx_buf s b) pending.
Proof. by intros [? ? ? ? ? ?]. Qed.

Lemma rx_round_inv s r pending :
  inv s pending -> closing s = false -> rx_len s < 4095 -> fits s r ->
  exists s' go, rx_round s r = Ok (s', go) /\ inv s' pending /\ rx_bounded s'.
Proof.
  intros Hinv Hcl Hrx Hfit. assert (Hb0 : rx_bounded s) by (by intros _).
  unfold rx_round, sstp_demux_recv_once.
  replace (SSTP_RX_BUF_CAP <=? rx_len s) with false by (unfold SSTP_RX_BUF_CAP; lia).
  assert (Hparse : forall s1, inv s1 pending -> closing s1 = false -> exists s' go,
    (if 0 <? rx_len s1 then
       '(s, consumed) ← sstp_demux_parse s1;
       if consumed =? 0 then Ok (s, true)
       else tail ← slice_from (rx_buf s) consumed; Ok (with_rx_buf s tail, true)
     else Ok (s1, true)) = Ok (s', go) /\ inv s' pending /\ rx_bounded s').
  { intros s1 H1 Hc1. destruct (0 <? rx_len s1) eqn:Hz.
    - destruct (demux_parse_inv s1 pending H1 Hc1) as (s2 & n & -> & H2 & Hb & Hn & Hl).
      cbn [mbind res_bind]. unfold rx_len in *. destruct (Z.eqb_spec n 0).
      + exists s2, true. split_and!; try done. unfold rx_bounded, rx_len. rewrite Hb. intros ?%Hl. lia.
      + rewrite slice_from_ok by (rewrite Hb; lia). cbn [mbind res_bind]. eexists _, true. split; [done|].
        split; [by apply with_rx_inv|]. unfold rx_bounded, rx_len. simpl. rewrite length_drop, Hb.
        intros ?%Hl. lia.
    - exists s1, true. split_and!; try done. unfold rx_bounded. lia. }
  assert (Hclose : forall ty arg, ty <> CONTROL_PACKET -> exists s',
    sstp_session_emit s ty arg = Ok s' /\ inv (set_closing s') pending /\ rx_bounded (set_closing s')).
  { intros ty arg Hty. destruct (emit_closing_inv s ty arg pending) as (s' & -> & ? & _); [done..|].
    exists s'. by split_and!. }
  destruct r as [b|rt|e]; simpl in Hfit.
  - replace (_ <? len b) with false by lia. destruct (Z.ltb_spec 0 (len b)).
    + cbn [mbind res_bind]. replace (len b =? 0) with false by lia.
      replace (len b <? 0) with false by lia. cbn [andb]. apply Hparse; [|done].
      apply (inv_same (with_rx_buf s (rx_buf s ++ b))); [by apply same_control_inc | by apply with_rx_inv].
    + cbn [mbind res_bind]. simpl.
      destruct (Hclose PEER_CLOSED 0) as (s' & -> & ? & ?); [done|]. simpl. eauto.
  - destruct (Hclose TLS_REKEY_NEEDED rt) as (s' & -> & ? & ?); [done|]. simpl. eauto.
  - cbn [mbind res_bind]. destruct (Z.eqb_spec (- e) 0) as [|He0].
    { destruct (Hclose PEER_CLOSED 0) as (s' & -> & ? & ?); [done|]. simpl. eauto. }
    destruct (_ && _) eqn:Hneg; [|by apply Hparse].
    destruct (- e =? - EAGAIN); [exists s, false; by split_and!|].
    destruct (- e =? - EPIPE); [exists s, false; by split_and!|].
    destruct (Hclose TLS_FATAL_ALERT (- - e)) as (s' & -> & ? & ?); [done|]. simpl. eauto.
Qed.

(** ** The transmit worker and the session file *)

Lemma same_control_tx s q : same_control s (with_tx_q s q).
Proof. by unfold same_control. Qed.

Lemma same_control_trans s1 s2 s3 : same_control s1 s2 -> same_control s2 s3 -> same_control s1 s3.
Proof. unfold same_control. intuition congruence. Qed.

Lemma same_control_add s n c : c <> evt_dropped -> same_control s (add_stat n c s).
Proof. intros Hc. unfold same_control, add_stat. simpl. by rewrite decide_False by done. Qed.

Lemma same_control_called s c : same_control s (called s c).
Proof. by unfold same_control. Qed.

Lemma tx_round_inv s ret pending :
  inv s pending -> closing s = false -> rx_len s < 4095 ->
  exists s' go, tx_round s ret = Ok (s', go) /\ inv s' pending /\ rx_bounded s'.
Proof.
  intros Hinv Hcl Hrx. unfold tx_round. destruct (build_batch _ 0 0 (tx_q s)) as [batch rest].
  assert (Hsame : forall s', same_control s s' -> inv s' pending /\ rx_bounded s').
  { intros s' Hs. split; [by eapply inv_same|]. intros _. unfold rx_len.
    by destruct Hs as (-> & _). }
  destruct (len batch =? 0); [eexists _, _; split; [done|]; apply Hsame, same_control_tx|].
  destruct (ret =? _).
  { eexists _, _. split; [done|]. apply Hsame. eapply same_control_trans; [|by apply same_control_inc].
    do 2 (eapply same_control_trans; [|by apply same_control_add]).
    eapply same_control_trans; [apply same_control_tx | apply same_control_called]. }
  destruct (ret =? - EAGAIN); [eexists _, _; split; [done|]; apply Hsame, same_control_tx|].
  set (s1 := inc tx_send_errors (with_tx_q s rest)).
  assert (Hs1 : same_control s s1)
    by (eapply same_control_trans; [apply same_control_tx | by apply same_control_inc]).
  destruct (emit_closing_inv s1 TLS_FATAL_ALERT (if ret <? 0 then - ret else 0) pending)
    as (s' & -> & ? & _); [by eapply inv_same | done | done|].
  cbn [mbind res_bind]. by eexists _, _.
Qed.

Lemma send_control_inv s body reserved ret pending :
  inv s pending -> rx_bounded s ->
  exists s' rc, ioc_send_control s body reserved ret = Ok (s', rc) /\ inv s' pending /\ rx_bounded s'.
Proof.
  intros Hinv Hrx. unfold ioc_send_control. destruct (closing s) eqn:Hcl; [eauto|].
  destruct (negb _); [eauto|]. destruct (_ || _); [eauto|].
  assert (Hsame : forall s', same_control s s' -> inv s' pending /\ rx_bounded s').
  { intros s' Hs. split; [by eapply inv_same|]. unfold rx_bounded, rx_len in *.
    by destruct Hs as (-> & _ & _ & -> & _). }
  destruct (ret =? _).
  { eexists _, _. split; [done|]. apply Hsame.
    do 3 (eapply same_control_trans; [|by apply same_control_inc]). apply same_control_called. }
  destruct (ret =? - EAGAIN); [eauto|].
  destruct (emit_closing_inv (inc tx_send_errors s) TLS_FATAL_ALERT (if ret <? 0 then - ret else 0) pending)
    as (s' & -> & ? & _); [by apply (inv_same s); [apply same_control_inc|] | done | done|].
  cbn [mbind res_bind]. by eexists _, _.
Qed.

Lemma read_event_inv s pending :
  inv s pending ->
  exists s', sstp_session_read s = Ok (s', head (events_of s)) /\ same_queues s s' /\ closing s' = closing s /\
    inv s' (pending + match head (events_of s) with
                      | Some e => if is_control_event e then 1 else 0
                      | None => 0
                      end).
Proof.
  intros [Hev Hfr Hsome Hc Ho Hd].
  destruct (read_event_ok s Hev) as (s' & Hr & Hev' & He & Hq & Hcl & Hst). exists s'.
  split_and!; [done..|]. destruct Hq as (_ & _ & Hf & _ & Hfo).
  unfold control_events, other_events in *.
  constructor; unfold control_events, other_events; rewrite ?He, ?Hf, ?Hcl, ?Hst; try done; auto.
  - destruct (events_of s) as [|e l]; simpl in *; [lia|]. destruct (is_control_event e); simpl in *; lia.
  - destruct (events_of s) as [|e l]; simpl in *; [lia|]. destruct (is_control_event e); simpl in *; lia.
Qed.

Lemma recv_control_inv s n pending :
  inv s (S pending) ->
  exists s' rc p, ioc_recv_control s n = Ok (s', rc, p) /\ inv s' pending /\
    rx_buf s' = rx_buf s /\ closing s' = closing s.
Proof.
  intros [Hev Hfr Hsome Hc Ho Hd].
  destruct (recv_control_ok s n Hfr) as (s' & rc & p & Hr & Hfr' & Hf & _ & _ & Hrx & _ & He & Heo & Hcl & Hd').
  exists s', rc, p. split_and!; [done| |done|done].
  unfold control_events, other_events in *.
  constructor; unfold control_events, other_events; rewrite ?He, ?Hf, ?Hcl, ?Hd'; try done; auto.
  - by apply Forall_tail.
  - destruct (frames_of s); simpl in *; lia.
Qed.

(** ** The session in operation *)

(** The workers round by round and the session file, in any order.  Userspace calls
    [SSTP_IOC_RECV_CONTROL] once for each control event it has read ([drive_sstp]); [pending] counts the
    calls it still owes. *)
Inductive kstep : session * nat -> session * nat -> Prop :=
| K_rx s r s' go pending :
    closing s = false -> fits s r -> rx_round s r = Ok (s', go) -> kstep (s, pending) (s', pending)
| K_tx s ret s' go pending :
    closing s = false -> tx_round s ret = Ok (s', go) -> kstep (s, pending) (s', pending)
| K_xmit s skb pending : kstep (s, pending) ((sstp_chan_start_xmit s skb).1, pending)
| K_read s s' e pending :
    sstp_session_read s = Ok (s', Some e) ->
    kstep (s, pending) (s', pending + (if is_control_event e then 1 else 0))%nat
| K_recv s n s' rc p pending :
    ioc_recv_control s n = Ok (s', rc, p) -> kstep (s, S pending) (s', pending)
| K_send s body reserved ret s' rc pending :
    ioc_send_control s body reserved ret = Ok (s', rc) -> kstep (s, pending) (s', pending)
| K_detach s pending : kstep (s, pending) (ioc_detach s, pending).

Definition kreachable : session * nat -> Prop := rtc kstep (attached, O).

Lemma attached_inv : inv attached 0.
Proof.
  constructor; try done; unfold events_ok, frames_ok, ring_ok; simpl;
    unfold SSTP_EVENT_QUEUE_CAP, SSTP_CTRL_Q_CAP; try lia.
Qed.

Lemma start_xmit_inv s skb pending :
  inv s pending -> rx_bounded s ->
  inv (sstp_chan_start_xmit s skb).1 pending /\ rx_bounded (sstp_chan_start_xmit s skb).1.
Proof.
  intros Hinv Hrx. unfold sstp_chan_start_xmit. repeat case_match; try done; simpl.
  - split; [by apply (inv_same s); [apply same_control_inc|] | done].
  - split; [|done]. eapply inv_same; [|done]. eapply same_control_trans; [apply same_control_tx | apply same_control_called].
Qed.

Lemma set_closing_inv s pending : inv s pending -> inv (set_closing s) pending.
Proof.
  intros [Hev Hfr Hsome Hc Ho Hd]. constructor; try done.
  change (other_events (set_closing s)) with (other_events s). simpl. destruct (closing s); lia.
Qed.

(** Two results of the same call are equal. *)
Ltac same_result E :=
  match type of E with ?x = _ => match goal with
    | H : x = _ |- _ => assert_fails (constr_eq H E); rewrite E in H; simplify_eq
    end end.

Lemma kstep_inv s pending s' pending' :
  kstep (s, pending) (s', pending') -> inv s pending -> rx_bounded s -> inv s' pending' /\ rx_bounded s'.
Proof.
  intros Hstep Hinv Hrx. inversion Hstep; subst; clear Hstep.
  - destruct (rx_round_inv s r pending') as (s1 & go' & E & ?); auto. by same_result E.
  - destruct (tx_round_inv s ret pending') as (s1 & go' & E & ?); auto. by same_result E.
  - by apply start_xmit_inv.
  - destruct (read_event_inv s pending Hinv) as (s1 & E & (_ & Hb & _) & Hc & Hi).
    match goal with H : sstp_session_read s = _ |- _ => rewrite E in H; injection H as <- He end.
    rewrite He in Hi. split; [done|]. unfold rx_bounded, rx_len in *. by rewrite Hb, Hc.
  - destruct (recv_control_inv s n pending' Hinv) as (s1 & rc' & p' & E & Hi & Hb & Hc). same_result E.
    split; [done|]. unfold rx_bounded, rx_len in *. by rewrite Hb, Hc.
  - destruct (send_control_inv s body reserved ret pending' Hinv Hrx) as (s1 & rc' & E & ?). by same_result E.
  - split; [by apply set_closing_inv | done].
Qed.

Lemma kreachable_inv s pending : kreachable (s, pending) -> inv s pending /\ rx_bounded s.
Proof.
  intros H. assert (G : forall x y, rtc kstep x y -> inv x.1 x.2 -> rx_bounded x.1 -> inv y.1 y.2 /\ rx_bounded y.1).
  { induction 1 as [x|[s1 p1] [s2 p2] y Hst _ IH]; intros Hi Hb; [done|].
    destruct (kstep_inv _ _ _ _ Hst Hi Hb). by apply IH. }
  by apply (G _ _ H attached_inv).
Qed.

End Props.
