(* ===== verification/KmodStream.v ===== *)
(** * The kernel module cuts the byte stream like the userspace parser

    [serve] runs a whole byte stream through the packet handlers, its packets cut off by [next], which is
    [Packet.parse] up to the contents of control packets.  The receive worker does the same however the
    stream is spread over receives and over runs of the worker. *)

From S2P Require Import Prelude SstpFrame Kmod KmodRing KmodProps.

(** ** Cutting *)

Inductive next_packet :=
| More
| Bad (version : Z)
| Item (control : bool) (body : bytes) (n : Z).

Definition next (b : bytes) : next_packet :=
  if len b <? SSTP_HEADER_LEN then More
  else if negb (byte_at b 0 =? SSTP_VERSION_1_0) || (header_length b <? SSTP_HEADER_LEN) then Bad (byte_at b 0)
  else if len b <? header_length b then More
  else Item (negb (Z.land (byte_at b 1) 1 =? 0)) (sub b 4 (header_length b)) (header_length b).

(** What [Packet.parse] makes of each case. *)
Definition parse_of (b : bytes) (x : next_packet) : res ParseError (Packet.t * Z) :=
  match x with
  | More => Err (if len b <? SSTP_HEADER_LEN then Truncated else LengthMismatch (header_length b) (len b))
  | Bad v => Err (if v =? SSTP_VERSION_1_0 then LengthTooSmall (header_length b) else UnsupportedVersion v)
  | Item false body n => Ok (Packet.Data body, n)
  | Item true body n => c ← ControlPacket.parse_body body; Ok (Packet.Control c, n)
  end.

Lemma next_is_parse b : Packet.parse b = parse_of b (next b).
Proof.
  rewrite parse_eq. unfold next, SSTP_HEADER_LEN, SSTP_VERSION_1_0. rewrite Z.gtb_ltb.
  destruct (len b <? 4) eqn:H4; simpl; [by unfold SSTP_HEADER_LEN; rewrite H4|].
  destruct (byte_at b 0 =? 16) eqn:Hv; simpl; unfold SSTP_VERSION_1_0; [|by rewrite Hv].
  destruct (header_length b <? 4) eqn:Hh; simpl; [unfold SSTP_VERSION_1_0; by rewrite Hv|].
  destruct (len b <? header_length b); simpl; [unfold SSTP_HEADER_LEN; by rewrite H4|].
  by destruct (Z.land (byte_at b 1) 1 =? 0).
Qed.

Lemma next_item b c body n :
  next b = Item c body n -> 4 <= n <= 4095 /\ n <= len b /\ len body = n - 4.
Proof.
  unfold next, SSTP_HEADER_LEN. pose proof (header_length_range b).
  destruct (len b <? 4) eqn:?; [done|]. destruct (_ || _) eqn:?; [done|].
  destruct (len b <? header_length b) eqn:?; [done|]. intros [= <- <- <-].
  rewrite len_sub by lia. lia.
Qed.

(** The packet at the front does not depend on what follows it. *)
Lemma next_app a b : next a <> More -> next (a ++ b) = next a.
Proof.
  unfold next, SSTP_HEADER_LEN. destruct (len a <? 4) eqn:H4; [done|]. intros Hm.
  assert (Hb : forall i, 0 <= i < 4 -> byte_at (a ++ b) i = byte_at a i)
    by (intros; apply byte_at_app_l; lia).
  assert (Hh : header_length (a ++ b) = header_length a) by (unfold header_length; by rewrite !Hb by lia).
  rewrite Hh, !Hb, length_app by lia. replace (Z.of_nat _ <? 4) with false by lia.
  pose proof (header_length_range a).
  destruct (_ || _) eqn:?; [done|]. destruct (len a <? header_length a) eqn:?; [done|].
  replace (Z.of_nat _ <? header_length a) with false by lia. f_equal.
  unfold sub. rewrite drop_app_le by lia. apply take_app_le. len_lia.
Qed.

(** ** Sessions that differ in their counters and their receive buffer only *)

Definition shadow (s : session) : session := with_rx_buf (with_stats s (fun _ => 0)) [].

#[export] Instance session_equiv : Equiv session := fun s t => shadow s = shadow t.

#[export] Instance session_equivalence : Equivalence (≡@{session}).
Proof. split; unfold equiv, session_equiv; repeat intro; congruence. Qed.

(** The fields two equivalent sessions share become the same terms. *)
Ltac same_fields s t H :=
  destruct s, t; unfold equiv, session_equiv, shadow in H; cbn in H; injection H as -> -> -> -> -> -> -> -> ->.

#[export] Instance inc_proper c : Proper ((≡) ==> (≡)) (inc c).
Proof. by intros s t H. Qed.

#[export] Instance set_closing_proper : Proper ((≡) ==> (≡)) set_closing.
Proof. intros s t H. by same_fields s t H. Qed.

Lemma inc_equiv c s : inc c s ≡ s.
Proof. done. Qed.

Lemma rx_equiv s b : with_rx_buf s b ≡ s.
Proof. done. Qed.

Lemma equiv_closing s t : s ≡ t -> closing s = closing t.
Proof. by intros [=]. Qed.

(** Results that are equivalent, or failures that are the same. *)
Definition mequiv {A B} (R : A -> B -> Prop) (m : mem A) (m' : mem B) : Prop :=
  match m, m' with
  | Ok x, Ok y => R x y
  | Panic, Panic => True
  | _, _ => False
  end.

Abbreviation sequiv := (mequiv (equiv (A := session))).

Lemma mequiv_bind {A A' B B'} (R : A -> A' -> Prop) (R' : B -> B' -> Prop) (m : mem A) (m' : mem A') f f' :
  mequiv R m m' -> (forall x y, R x y -> mequiv R' (f x) (f' y)) -> mequiv R' (m ≫= f) (m' ≫= f').
Proof. destruct m as [x|[]|], m' as [y|[]|]; simpl; intros H Hf; try done. by apply Hf. Qed.

Lemma mequiv_eq {A} (m : mem A) : mequiv eq m m.
Proof. by destruct m as [|[]|]. Qed.

Section Stream.
Context {K : Kernel}.

(** [same_runs] runs the same code on both sides. *)
Ltac same_runs :=
  repeat first
    [ done
    | case_match
    | match goal with |- context [mbind _ (arr_get ?a ?i)] => destruct (arr_get a i) as [?|[]|] end
    | match goal with |- context [mbind _ (arr_set ?a ?i ?x)] => destruct (arr_set a i x) as [?|[]|] end
    | match goal with |- context [mbind _ (idx ?a ?i)] => destruct (idx a i) as [?|[]|] end
    | match goal with |- context [mbind _ (slice ?a ?i ?j)] => destruct (slice a i j) as [?|[]|] end
    | progress cbn ].

Lemma emit_proper s t ty arg : s ≡ t -> sequiv (sstp_session_emit s ty arg) (sstp_session_emit t ty arg).
Proof.
  intros H. same_fields s t H. unfold sstp_session_emit, now_ns. cbn -[Z.modulo Z.add Z.sub]. same_runs.
Qed.

Lemma lcp_echo_proper s t p :
  s ≡ t -> mequiv (fun x y => x.1 ≡ y.1 /\ x.2 = y.2) (sstp_handle_lcp_echo s p) (sstp_handle_lcp_echo t p).
Proof.
  intros H. same_fields s t H. unfold sstp_handle_lcp_echo, alloc. cbn -[Z.add Z.sub slice idx]. same_runs.
Qed.

Lemma deliver_proper s t p : s ≡ t -> sequiv (sstp_deliver_ppp s p) (sstp_deliver_ppp t p).
Proof.
  intros H. unfold sstp_deliver_ppp.
  apply (mequiv_bind eq); [apply mequiv_eq|]. intros q ? <-. case_match; [done|].
  eapply mequiv_bind; [by apply lcp_echo_proper|]. intros [s' h] [t' h'] [H' Hh]. simpl in H', Hh. subst h'.
  assert (alloc s' (len q) = alloc t' (len q)) as -> by (by same_fields s' t' H').
  repeat case_match; try done. by same_fields s' t' H'.
Qed.

Lemma queue_proper s t p : s ≡ t -> sequiv (queue_control s p) (queue_control t p).
Proof.
  intros H. unfold queue_control.
  apply (mequiv_bind (fun x y => x.1 ≡ y.1 /\ x.2 = y.2)).
  - same_fields s t H. unfold alloc. cbn -[Z.modulo Z.add]. same_runs.
  - intros [s' h] [t' h'] [H' Hh]. simpl in H', Hh. subst h'. case_match; [done|]. by apply emit_proper.
Qed.

(** ** The handlers on a stream *)

Definition handle (s : session) (control : bool) (body : bytes) : mem session :=
  if control then queue_control s body else sstp_deliver_ppp s body.

Lemma handle_proper s t c p : s ≡ t -> sequiv (handle s c p) (handle t c p).
Proof. destruct c; [apply queue_proper | apply deliver_proper]. Qed.

Fixpoint serve_ (fuel : nat) (s : session) (b : bytes) : mem (session * bytes) :=
  match fuel with
  | O => Ok (s, b)
  | S fuel =>
      match next b with
      | More => Ok (s, b)
      | Bad v => s ← sstp_session_emit s PROTOCOL_ERROR v; Ok (set_closing s, b)
      | Item c body n => s ← handle s c body; serve_ fuel s (drop (Z.to_nat n) b)
      end
  end.

Definition serve (s : session) (b : bytes) : mem (session * bytes) := serve_ (S (length b)) s b.

Lemma serve_fuel fuel s b : (length b < fuel)%nat -> serve_ fuel s b = serve s b.
Proof.
  assert (G : forall n m s b, (length b < n -> length b < m -> serve_ n s b = serve_ m s b)%nat).
  { induction n as [|n IH]; intros [|m] s' b' ? ?; try lia. simpl.
    destruct (next b') as [| |c body k] eqn:E; try done. apply next_item in E.
    destruct (handle s' c body); simpl; try done. apply IH; rewrite length_drop; lia. }
  intros ?. apply G; lia.
Qed.

Lemma serve_eq s b :
  serve s b =
  match next b with
  | More => Ok (s, b)
  | Bad v => s ← sstp_session_emit s PROTOCOL_ERROR v; Ok (set_closing s, b)
  | Item c body n => s ← handle s c body; serve s (drop (Z.to_nat n) b)
  end.
Proof.
  unfold serve at 1. cbn [serve_]. destruct (next b) as [| |c body n] eqn:E; try done.
  apply next_item in E. destruct (handle s c body); simpl; try done. apply serve_fuel.
  rewrite length_drop. lia.
Qed.

(** *** The loop of [sstp_demux_parse] *)

Lemma emit_rx s ty arg s' :
  sstp_session_emit s ty arg = Ok s' -> rx_buf s' = rx_buf s /\ closing s' = closing s.
Proof.
  unfold sstp_session_emit. case_match; intros He.
  - apply bind_ok in He as (l & _ & He). apply bind_ok in He as (s1 & H1 & [= <-]). revert H1.
    case_match; [intros (? & _ & [= <-])%bind_ok; done | by intros [= <-]].
  - by apply bind_ok in He as (? & _ & [= <-]).
Qed.

Lemma handle_rx s c p s' : handle s c p = Ok s' -> rx_buf s' = rx_buf s /\ closing s' = closing s.
Proof.
  destruct c; simpl.
  - unfold queue_control. intros ([s1 e] & H1 & H)%bind_ok.
    assert (rx_buf s1 = rx_buf s /\ closing s1 = closing s) as [<- <-].
    { revert H1. repeat case_match; intros He;
        first [by injection He as <- <- | by apply bind_ok in He as (? & _ & [= <- <-])]. }
    destruct e; simpl in H; [by apply emit_rx in H | by injection H as <-].
  - intros H. destruct (deliver_ppp_ok s p) as (t & Ht & Hb & _ & _ & Hc & _).
    rewrite Ht in H. by injection H as <-.
Qed.

(** The loop's header check, at an offset of the buffer. *)
Lemma demux_loop_eq fuel s off :
  0 <= off <= rx_len s ->
  demux_loop (S fuel) s off =
  match next (drop (Z.to_nat off) (rx_buf s)) with
  | More => Ok (s, off)
  | Bad v => s ← sstp_session_emit (inc sstp_malformed s) PROTOCOL_ERROR v; Ok (set_closing s, off)
  | Item c body n => s ← handle (inc sstp_frames_rx s) c body; demux_loop fuel s (off + n)
  end.
Proof.
  unfold rx_len. intros Hoff. cbn [demux_loop]. unfold rx_len, next, KMOD_HEADER_LEN, SSTP_HEADER_LEN.
  set (b := drop (Z.to_nat off) (rx_buf s)).
  assert (Hlen : len b = len (rx_buf s) - off) by (subst b; rewrite length_drop; lia).
  rewrite Hlen. destruct (Z.ltb_spec (len (rx_buf s) - off) 4); [done|].
  assert (Hb : forall i, 0 <= i -> byte_at (rx_buf s) (off + i) = byte_at b i).
  { intros i Hi. unfold byte_at, b. rewrite nth_skipn. f_equal. lia. }
  pose proof (Hb 0 ltac:(lia)) as Hb0. rewrite Z.add_0_r in Hb0.
  run_ok. rewrite Hb0, !Hb by lia. fold (header_length b). change SSTP_LEN_MASK with 4095.
  change KMOD_VERSION_1_0 with SSTP_VERSION_1_0. fold (header_length b).
  destruct (_ || _) eqn:Hbad; [done|]. pose proof (header_length_range b).
  destruct (Z.ltb_spec (len (rx_buf s) - off) (header_length b)); [done|].
  change (rx_buf (inc sstp_frames_rx s)) with (rx_buf s).
  rewrite slice_ok by lia. cbn [mbind res_bind].
  replace (sub (rx_buf s) (off + 4) (off + header_length b)) with (sub b 4 (header_length b)).
  - unfold handle. change SSTP_C_BIT with 1. by destruct (Z.land (byte_at b 1) 1 =? 0).
  - unfold sub, b. rewrite drop_drop. f_equal; [lia | f_equal; lia].
Qed.

Lemma demux_serve fuel s t off :
  s ≡ t -> 0 <= off <= rx_len s -> rx_len s - off < Z.of_nat fuel ->
  mequiv (fun x y => x.1 ≡ y.1 /\ rx_buf x.1 = rx_buf s /\ off <= x.2 <= rx_len s /\
                     y.2 = drop (Z.to_nat x.2) (rx_buf s))
    (demux_loop fuel s off) (serve t (drop (Z.to_nat off) (rx_buf s))).
Proof.
  revert s t off. induction fuel as [|fuel IH]; intros s t off Heq Hoff Hfuel; [lia|].
  rewrite demux_loop_eq, serve_eq by done.
  destruct (next _) as [|v|c body n] eqn:Hnext.
  - cbn. split_and!; done || lia.
  - pose proof (emit_proper (inc sstp_malformed s) t PROTOCOL_ERROR v Heq) as He.
    destruct (sstp_session_emit (inc sstp_malformed s) PROTOCOL_ERROR v) as [s'|[]|] eqn:E,
      (sstp_session_emit t PROTOCOL_ERROR v) as [t'|[]|]; try done.
    apply emit_rx in E as [E _]. cbn in *. split_and!; try done; try lia. by apply set_closing_proper.
  - pose proof (handle_proper (inc sstp_frames_rx s) t c body Heq) as He.
    apply next_item in Hnext as (? & Hn & _). rewrite length_drop in Hn. unfold rx_len in *.
    destruct (handle (inc sstp_frames_rx s) c body) as [s'|[]|] eqn:E, (handle t c body) as [t'|[]|]; try done.
    apply handle_rx in E as [E _]. change (rx_buf (inc sstp_frames_rx s)) with (rx_buf s) in E.
    cbn [mbind res_bind]. rewrite drop_drop, <- E.
    replace (Z.to_nat off + Z.to_nat n)%nat with (Z.to_nat (off + n)) by lia.
    specialize (IH s' t' (off + n) He). rewrite E in IH |- *.
    specialize (IH ltac:(lia) ltac:(lia)).
    destruct (demux_loop fuel s' (off + n)) as [[]|[]|], (serve _ _) as [[]|[]|]; try done.
    cbn in *. destruct IH as (? & ? & ? & ?). split_and!; try done; try lia; congruence.
Qed.

(** *** Streams in pieces *)

Lemma serve_ind (P : session -> bytes -> Prop) :
  (forall s b, next b = More -> P s b) ->
  (forall s b v, next b = Bad v -> P s b) ->
  (forall s b c body n, next b = Item c body n ->
     (forall s', handle s c body = Ok s' -> P s' (drop (Z.to_nat n) b)) -> P s b) ->
  forall s b, P s b.
Proof.
  intros HM HB HI s b. remember (length b) as k eqn:Hk. revert s b Hk.
  induction (lt_wf k) as [k _ IH]. intros s b ->.
  destruct (next b) as [|v|c body n] eqn:E; [by apply HM | by eapply HB |].
  eapply HI; [done|]. intros s' _. apply next_item in E. eapply IH; [|done]. rewrite length_drop. lia.
Qed.

Lemma serve_app s a b :
  closing s = false ->
  serve s (a ++ b) =
  '(t, r) ← serve s a; if closing t then Ok (t, r ++ b) else serve t (r ++ b).
Proof.
  revert s a. refine (serve_ind _ _ _ _).
  - intros s a Hn Hc. rewrite (serve_eq s a), Hn. cbn. by rewrite Hc.
  - intros s a v Hn _. rewrite (serve_eq s a), (serve_eq s (a ++ b)), next_app, Hn by (by rewrite Hn).
    by destruct (sstp_session_emit s PROTOCOL_ERROR v) as [t|[]|].
  - intros s a c body n Hn IH Hc. rewrite (serve_eq s a), (serve_eq s (a ++ b)), next_app, Hn by (by rewrite Hn).
    apply next_item in Hn. destruct (handle s c body) as [s'|[]|] eqn:E; try done. cbn [mbind res_bind].
    rewrite drop_app_le by lia. apply IH; [done|]. apply handle_rx in E as [_ ->]. done.
Qed.

Lemma serve_rest s b t r :
  closing s = false -> serve s b = Ok (t, r) -> closing t = false -> next r = More.
Proof.
  revert s b. refine (serve_ind _ _ _ _).
  - intros s b Hn Hc. rewrite serve_eq, Hn. by intros [= <- <-].
  - intros s b v Hn _. rewrite serve_eq, Hn. by intros (s' & _ & [= <- <-])%bind_ok.
  - intros s b c body n Hn IH Hc. rewrite serve_eq, Hn. intros (s' & E & H)%bind_ok. apply (IH s'); try done.
    by apply handle_rx in E as [_ ->].
Qed.

Lemma serve_proper s t b :
  s ≡ t -> mequiv (fun x y => x.1 ≡ y.1 /\ x.2 = y.2) (serve s b) (serve t b).
Proof.
  revert s b t. refine (serve_ind _ _ _ _).
  - intros s b Hn t Heq. by rewrite !serve_eq, Hn.
  - intros s b v Hn t Heq. rewrite !serve_eq, Hn. eapply mequiv_bind; [by apply emit_proper|].
    intros x y ?. split; [by apply set_closing_proper | done].
  - intros s b c body n Hn IH t Heq. rewrite !serve_eq, Hn.
    pose proof (handle_proper s t c body Heq) as He.
    destruct (handle s c body) as [s'|[]|] eqn:E, (handle t c body) as [t'|[]|]; try done. by apply IH.
Qed.

(** *** The receive worker *)

Lemma rx_round_serve s b :
  0 < len b <= SSTP_RX_BUF_CAP - rx_len s ->
  mequiv (fun x y => x.2 = true /\ x.1 ≡ y.1 /\ rx_buf x.1 = y.2)
    (rx_round s (Bytes b)) (serve s (rx_buf s ++ b)).
Proof.
  intros Hb. unfold rx_round, sstp_demux_recv_once. unfold rx_len in *.
  replace (SSTP_RX_BUF_CAP <=? _) with false by lia. replace (_ <? len b) with false by lia.
  replace (0 <? len b) with true by lia. cbn [mbind res_bind].
  replace (len b =? 0) with false by lia. replace (len b <? 0) with false by lia. cbn [andb].
  set (s1 := inc tls_records_rx _).
  assert (Hrx : rx_buf s1 = rx_buf s ++ b) by done.
  replace (0 <? len (rx_buf s1)) with true by (rewrite Hrx, length_app; lia).
  unfold sstp_demux_parse.
  pose proof (demux_serve (S (length (rx_buf s1))) s1 s 0 ltac:(done)) as Hd. unfold rx_len in Hd.
  specialize (Hd ltac:(lia) ltac:(lia)). change (Z.to_nat 0) with 0%nat in Hd. rewrite drop_0, Hrx in Hd.
  rewrite Hrx. destruct (demux_loop _ s1 0) as [[s2 n]|[]|], (serve s _) as [[t r]|[]|]; try done.
  cbn [mbind res_bind]. cbn in Hd |- *. destruct Hd as (He & Hr & Hn & ->).
  destruct (Z.eqb_spec n 0) as [->|]; [by cbn; rewrite Hr|].
  rewrite slice_from_ok by (rewrite Hr; lia). cbn. by rewrite Hr.
Qed.

Definition piece (b : bytes) : Prop := 0 < len b <= 4096.

(** What a run leaves behind, compared with the whole stream served at once. *)
Definition served (s s' : session) (b : bytes) : Prop :=
  exists t r, serve s b = Ok (t, r) /\ s' ≡ t /\ (closing s' = false -> rx_buf s' = r /\ next r = More).

Lemma served_app s s1 s2 a b :
  closing s = false -> closing s1 = false -> served s s1 a -> served s1 s2 (rx_buf s1 ++ b) ->
  served s s2 (a ++ b).
Proof.
  intros Hc Hc1 (t1 & r1 & H1 & He1 & Hr1) (t2 & r2 & H2 & He2 & Hr2).
  destruct (Hr1 Hc1) as [Hrx _]. rewrite Hrx in H2.
  pose proof (serve_proper s1 t1 (r1 ++ b) He1) as Hp. rewrite H2 in Hp.
  destruct (serve t1 (r1 ++ b)) as [[t3 r3]|[]|] eqn:H3; try done. destruct Hp as [Hp1 Hp2]; cbn in Hp1, Hp2.
  exists t3, r3. split_and!.
  - rewrite serve_app, H1 by done. cbn [mbind res_bind]. by rewrite <- (equiv_closing _ _ He1), Hc1.
  - by rewrite He2.
  - by rewrite <- Hp2.
Qed.

Lemma served_closed s s1 a b :
  closing s = false -> closing s1 = true -> served s s1 a -> served s s1 (a ++ b).
Proof.
  intros Hc Hc1 (t1 & r1 & H1 & He1 & _). exists t1, (r1 ++ b). split_and!; [|done|congruence].
  rewrite serve_app, H1 by done. cbn [mbind res_bind]. by rewrite <- (equiv_closing _ _ He1), Hc1.
Qed.

Lemma rx_round_served s b pending :
  inv s pending -> closing s = false -> rx_len s < 4095 -> piece b ->
  exists s', rx_round s (Bytes b) = Ok (s', true) /\ inv s' pending /\ rx_bounded s' /\
    served s s' (rx_buf s ++ b).
Proof.
  intros Hinv Hc Hrx Hb. unfold piece in Hb.
  destruct (rx_round_inv s (Bytes b) pending Hinv Hc Hrx) as (s' & go & Hr & Hi & Hbd);
    [simpl; unfold SSTP_RX_BUF_CAP; lia|].
  pose proof (rx_round_serve s b) as Hs. rewrite Hr in Hs. specialize (Hs ltac:(unfold SSTP_RX_BUF_CAP; lia)).
  destruct (serve s (rx_buf s ++ b)) as [[t r]|[]|] eqn:E; try done. destruct Hs as (Hgo & He & Hb'). cbn in Hgo, He, Hb'.
  subst go. exists s'. split_and!; [done..|]. exists t, r. split_and!; [done..|].
  intros Hc'. split; [done|]. apply (serve_rest s (rx_buf s ++ b) t r Hc E). by rewrite <- (equiv_closing _ _ He).
Qed.

Lemma rx_loop_served loops s cs pending :
  inv s pending -> closing s = false -> rx_len s < 4095 -> next (rx_buf s) = More -> Forall piece cs ->
  (length cs < loops)%nat ->
  exists s', rx_loop loops s (map Bytes cs) = Ok s' /\ inv s' pending /\ rx_bounded s' /\
    served s s' (rx_buf s ++ concat cs).
Proof.
  revert s cs. induction loops as [|loops IH]; intros s cs Hinv Hc Hrx Hn Hcs Hl; [lia|].
  cbn [rx_loop]. rewrite Hc. destruct cs as [|b cs]; cbn [map concat].
  - assert (rx_round s (Errno EAGAIN) = Ok (s, false)) as ->.
    { unfold rx_round, sstp_demux_recv_once. by replace (SSTP_RX_BUF_CAP <=? rx_len s) with false
        by (unfold SSTP_RX_BUF_CAP; lia). }
    cbn [mbind res_bind]. exists s. split_and!; [done|done|by intros _|]. rewrite app_nil_r. exists s, (rx_buf s).
    split_and!; try done. by rewrite serve_eq, Hn.
  - apply Forall_cons in Hcs as [Hb Hcs]. simpl in Hl.
    destruct (rx_round_served s b pending) as (s1 & -> & Hi1 & Hbd1 & Hs1); [done..|].
    cbn [mbind res_bind tail map]. rewrite app_assoc. destruct (closing s1) eqn:Hc1.
    + exists s1. split_and!; [|done|done|by apply served_closed]. destruct loops; [lia|]. cbn [rx_loop].
      by rewrite Hc1.
    + pose proof Hs1 as (_ & r & _ & _ & Hr). destruct (Hr Hc1) as [Hb1 Hn1].
      destruct (IH s1 cs) as (s' & H' & Hi' & Hbd' & Hs'); try done; [by apply Hbd1 | by rewrite Hb1 | lia |].
      exists s'. split_and!; [done..|]. by eapply served_app.
Qed.

(** Several runs of the worker, each with what it receives. *)
Fixpoint rx_workers (s : session) (runs : list (list bytes)) : mem session :=
  match runs with
  | [] => Ok s
  | cs :: runs => s ← sstp_rx_worker s (map Bytes cs); rx_workers s runs
  end.

Lemma rx_workers_closed s runs : closing s = true -> rx_workers s runs = Ok s.
Proof.
  intros Hc. induction runs as [|cs runs IH]; [done|]. cbn [rx_workers]. unfold sstp_rx_worker.
  change 64%nat with (S 63). cbn [rx_loop]. by rewrite Hc.
Qed.

Definition run_ok_ (cs : list bytes) : Prop := Forall piece cs /\ (length cs < 64)%nat.

Lemma rx_workers_served s runs pending :
  inv s pending -> closing s = false -> rx_len s < 4095 -> next (rx_buf s) = More -> Forall run_ok_ runs ->
  exists s', rx_workers s runs = Ok s' /\ served s s' (rx_buf s ++ concat (map (@concat Z) runs)).
Proof.
  revert s. induction runs as [|cs runs IH]; intros s Hinv Hc Hrx Hn Hruns; cbn [rx_workers map concat].
  - exists s. split; [done|]. rewrite app_nil_r. exists s, (rx_buf s). split_and!; try done.
    by rewrite serve_eq, Hn.
  - apply Forall_cons in Hruns as [[Hcs Hl] Hruns].
    destruct (rx_loop_served 64 s cs pending) as (s1 & H1 & Hi1 & Hbd1 & Hs1); [done..|].
    unfold sstp_rx_worker. rewrite H1, app_assoc. cbn [mbind res_bind]. destruct (closing s1) eqn:Hc1.
    + exists s1. rewrite rx_workers_closed by done. split; [done|]. by apply served_closed.
    + pose proof Hs1 as (_ & r & _ & _ & Hr). destruct (Hr Hc1) as [Hb1 Hn1].
      destruct (IH s1) as (s' & H' & Hs'); try done; [by apply Hbd1 | by rewrite Hb1 |].
      exists s'. split; [done|]. by eapply served_app.
Qed.

(** *** Streams of packets *)

Lemma next_packet_bytes r1 r2 p rest :
  0 <= r1 < 128 -> 0 <= r2 < 16 -> packet_ok p ->
  next (packet_bytes r1 r2 p ++ rest) = Item (is_control p) (packet_body p) (4 + len (packet_body p)).
Proof.
  intros ? ? Hp. pose proof (parse_packet_bytes r1 r2 p rest ltac:(done) ltac:(done) Hp) as Hq.
  assert (Hs : sub (packet_bytes r1 r2 p ++ rest) 4 (4 + len (packet_body p)) = packet_body p).
  { unfold packet_bytes. rewrite app_assoc, <- app_assoc. apply sub_app_mid; len_lia. }
  rewrite next_is_parse in Hq. generalize dependent (packet_bytes r1 r2 p ++ rest). intros b Hq Hs.
  unfold next in *. repeat (case_match; [done|]). cbn [parse_of] in Hq.
  destruct (Z.land _ 1 =? 0); cbn [negb] in Hq |- *.
  - injection Hq as Hp1 Hn. rewrite Hn, Hs. f_equal. by rewrite <- Hp1.
  - apply bind_ok in Hq as (c & _ & Hq). injection Hq as Hp1 Hn. rewrite Hn, Hs. f_equal. by rewrite <- Hp1.
Qed.

Record sent_packet := { reserved1 : Z; reserved2 : Z; pkt : Packet.t }.

Definition wire (x : sent_packet) : bytes := packet_bytes (reserved1 x) (reserved2 x) (pkt x).

Definition sent_ok (x : sent_packet) : Prop :=
  0 <= reserved1 x < 128 /\ 0 <= reserved2 x < 16 /\ packet_ok (pkt x).

Fixpoint handle_all (s : session) (ps : list Packet.t) : mem session :=
  match ps with
  | [] => Ok s
  | p :: ps => s ← handle s (is_control p) (packet_body p); handle_all s ps
  end.

Lemma serve_packets s xs r :
  Forall sent_ok xs -> next r = More ->
  serve s (concat (map wire xs) ++ r) = t ← handle_all s (map pkt xs); Ok (t, r).
Proof.
  intros Hxs Hr. revert s. induction Hxs as [|x xs (H1 & H2 & H3) _ IH]; intros s; cbn [map concat handle_all].
  - by rewrite serve_eq, app_nil_l, Hr.
  - rewrite <- app_assoc, serve_eq. unfold wire at 1. rewrite next_packet_bytes by done.
    destruct (handle s _ _) as [s'|[]|]; try done. cbn [mbind res_bind]. rewrite <- IH. f_equal.
    assert (Hl : len (wire x) = 4 + len (packet_body (pkt x))) by (unfold wire, packet_bytes; len_lia).
    replace (Z.to_nat _) with (length (wire x)) by lia. apply drop_app_length.
Qed.

End Stream.

(** An allocator that never fails and a clock that counts the calls. *)
Definition idle_kernel : Kernel := {| dev_alloc_skb := fun _ _ => true; ktime_get_ns := fun n => Z.of_nat n |}.


