(* ===== verification/KmodTx.v ===== *)
(** * What the kernel module sends

    The transmit worker sends the frames it was given, in order, each as one SSTP data packet, in batches
    that fit a TLS record; the LCP Echo-Reply it makes up itself is the one the userspace driver would
    send; and the two lengths its checks let through that do not fit the header. *)

From S2P Require Import Prelude SstpFrame PppFrame Lcp PppFsm PppDriver PppClassify PppAccess PppReplies.
From S2P Require Import Session SessionProps Kmod KmodRing KmodProps KmodStream.

#[local] Existing Instance sstp_limits.

(** The data of the successful sends, in order. *)
Definition sends (s : session) : list bytes :=
  concat (map (fun c => match c with sent d => [d] | _ => [] end) (trace s)).

(** A frame in the transmit queue: from [ppp_generic], or an Echo-Reply to a packet of the peer. *)
Definition tx_ok (s : session) : Prop := Forall (fun f => len f <= 4091) (tx_q s).

Section Tx.
Context {K : Kernel}.

(** ** Batches *)

Definition frame_len (f : bytes) : Z := SSTP_TX_HDR_STRIDE + len f.

Lemma batch_bytes_app a b : batch_bytes (a ++ b) = batch_bytes a ++ batch_bytes b.
Proof. unfold batch_bytes. by rewrite map_app, concat_app. Qed.

Lemma len_batch_bytes_cons f b : len (batch_bytes (f :: b)) = frame_len f + len (batch_bytes b).
Proof.
  unfold batch_bytes, frame_len, tx_header, SSTP_TX_HDR_STRIDE, KMOD_HEADER_LEN. cbn [map concat].
  rewrite !length_app. cbn [length]. lia.
Qed.


Lemma build_batch_split fuel n total q :
  (build_batch fuel n total q).1 ++ (build_batch fuel n total q).2 = q.
Proof.
  revert n total q. induction fuel as [|fuel IH]; intros n total [|f q]; try done. cbn [build_batch].
  case_match; [done|]. specialize (IH (n + 1) (total + frame_len f) q). unfold frame_len in IH.
  destruct (build_batch fuel _ _ q) as [b r]. simpl in *. by rewrite IH.
Qed.

Lemma build_batch_length fuel n total q : (length (build_batch fuel n total q).1 <= fuel)%nat.
Proof.
  revert n total q. induction fuel as [|fuel IH]; intros n total [|f q]; simpl; try lia.
  case_match; simpl; [lia|]. specialize (IH (n + 1) (total + (SSTP_TX_HDR_STRIDE + len f)) q).
  destruct (build_batch fuel _ _ q) as [b r]. simpl in *. lia.
Qed.

(** A batch takes a first frame whatever its size, and others while they fit. *)
Lemma build_batch_bytes fuel n total q :
  0 <= n -> (n = 0 -> total = 0) -> 0 <= total <= SSTP_TX_BATCH_BYTES_MAX ->
  Forall (fun f => frame_len f <= SSTP_TX_BATCH_BYTES_MAX) q ->
  total + len (batch_bytes (build_batch fuel n total q).1) <= SSTP_TX_BATCH_BYTES_MAX.
Proof.
  revert n total q. induction fuel as [|fuel IH]; intros n total [|f q] Hn Hz Ht Hq; simpl; try lia.
  apply Forall_cons in Hq as [Hf Hq]. fold (frame_len f). assert (0 <= frame_len f)
    by (unfold frame_len, SSTP_TX_HDR_STRIDE, KMOD_HEADER_LEN; lia).
  destruct ((0 <? n) && _) eqn:Hfull; simpl; [lia|].
  specialize (IH (n + 1) (total + frame_len f) q).
  destruct (build_batch fuel _ _ q) as [b r]. cbn [fst] in *. rewrite len_batch_bytes_cons.
  assert (n = 0 \/ 0 < n) as [->|] by lia; [rewrite (Hz eq_refl) in *|];
    (etransitivity; [|apply IH; [lia|lia|lia|done]]; lia).
Qed.

Lemma build_batch_some q : q <> [] -> (build_batch (Z.to_nat SSTP_TX_BATCH_MAX) 0 0 q).1 <> [].
Proof.
  destruct q as [|f q]; [done|]. intros _. change (Z.to_nat SSTP_TX_BATCH_MAX) with 8%nat. cbn [build_batch].
  change (0 <? 0) with false. cbn [andb]. by case_match.
Qed.

(** ** The frames on the wire *)

(** The two length bytes: the length modulo 4096. *)
Lemma length_bytes n :
  0 <= n -> [Z.land (Z.shiftr n 8) 0x0F; Z.land n 0xFF] = to_be16 (n mod 4096).
Proof.
  intros Hn. unfold to_be16. rewrite Z.shiftr_div_pow2 by lia.
  change (2 ^ 8) with 256.
  replace (Z.land (n / 256) 15) with ((n / 256) mod 16) by (symmetry; apply (Z.land_ones _ 4); lia).
  replace (Z.land n 255) with (n mod 256) by (symmetry; apply (Z.land_ones _ 8); lia).
  assert ((n / 256) mod 16 = n mod 4096 / 256 mod 256) as -> by (Z.div_mod_to_equations; lia).
  assert (n mod 256 = (n mod 4096) mod 256) as -> by (Z.div_mod_to_equations; lia). done.
Qed.

Lemma tx_header_eq f : tx_header f = header false ((6 + len f) mod 4096) ++ [0xFF; 3].
Proof.
  unfold tx_header, header, SSTP_TX_HDR_STRIDE, KMOD_HEADER_LEN. rewrite <- length_bytes by lia. done.
Qed.

Lemma tx_header_ok f : len f <= 4089 -> tx_header f ++ f = data_packet ([0xFF; 3] ++ f).
Proof.
  intros Hf. rewrite tx_header_eq, Z.mod_small by lia. unfold data_packet. rewrite <- app_assoc.
  do 2 f_equal. cbn [length app]. lia.
Qed.

(** A run of data packets, with any number of bytes after it. *)
Fixpoint parse_run (n : nat) (b : bytes) : res ParseError (list Packet.t * bytes) :=
  match n with
  | O => Ok ([], b)
  | S n =>
      '(p, k) ← Packet.parse b;
      '(ps, r) ← parse_run n (drop (Z.to_nat k) b);
      Ok (p :: ps, r)
  end.

Definition data_of (f : bytes) : Packet.t := Packet.Data ([0xFF; 3] ++ f).

Lemma parse_batch q rest :
  Forall (fun f => len f <= 4089) q ->
  parse_run (length q) (batch_bytes q ++ rest) = Ok (map data_of q, rest).
Proof.
  induction 1 as [|f q Hf _ IH]; [done|]. cbn [length parse_run map].
  change (batch_bytes (f :: q)) with ((tx_header f ++ f) ++ batch_bytes q).
  rewrite tx_header_ok, <- app_assoc by done.
  change (data_packet ([255; 3] ++ f)) with (packet_bytes 0 0 (data_of f)).
  assert (packet_ok (data_of f)) by (split; [unfold SSTP_MAX_PACKET_LEN; cbn [packet_body data_of app length]; lia | done]).
  rewrite parse_packet_bytes by (done || lia). cbn [mbind res_bind].
  assert (Hl : len (packet_bytes 0 0 (data_of f)) = 4 + len (packet_body (data_of f)))
    by (unfold packet_bytes; len_lia).
  replace (Z.to_nat _) with (length (packet_bytes 0 0 (data_of f))) by lia.
  rewrite drop_app_length, IH. done.
Qed.

(** ** What the queue holds *)

Lemma emit_tx s ty arg s' :
  sstp_session_emit s ty arg = Ok s' -> tx_q s' = tx_q s /\ trace s' = trace s /\ closing s' = closing s.
Proof.
  unfold sstp_session_emit. case_match; intros He.
  - apply bind_ok in He as (l & _ & He). apply bind_ok in He as (s1 & H1 & [= <-]). revert H1.
    case_match; [intros (? & _ & [= <-])%bind_ok; done | by intros [= <-]].
  - by apply bind_ok in He as (? & _ & [= <-]).
Qed.

Lemma lcp_echo_tx s p s' h :
  len p <= 4091 -> sstp_handle_lcp_echo s p = Ok (s', h) -> tx_ok s -> tx_ok s'.
Proof.
  intros Hp H Hs. revert H. unfold sstp_handle_lcp_echo.
  destruct (len p <? 10) eqn:Hlen; [by intros [= <- <-]|]. run_ok.
  destruct (_ || _); [by intros [= <- <-]|]. run_ok.
  destruct (negb _); [by intros [= <- <-]|]. run_ok.
  set (n := be16 (byte_at p 4) (byte_at p 5)).
  destruct ((n <? 8) || (len p <? n + 2)) eqn:Hl; [by intros [= <- <-]|].
  destruct (closing s); [by intros [= <- <-]|]. destruct (_ <=? _); [by intros [= <- <-]|].
  destruct (negb _); [by intros [= <- <-]|]. run_ok.
  destruct (8 <? n) eqn:H8; cbn [mbind res_bind]; intros [= <- <-]; unfold tx_ok; cbn [tx_q called with_tx_q];
    (apply Forall_app; split; [done|]; constructor; [|done]).
  - cbn [app length]. rewrite !Nat2Z.inj_succ, len_sub by lia. lia.
  - cbn [app length]. lia.
Qed.

Lemma handle_tx s c p s' : len p <= 4091 -> handle s c p = Ok s' -> tx_ok s -> tx_ok s'.
Proof.
  intros Hp. destruct c; simpl; [unfold queue_control | unfold sstp_deliver_ppp].
  - intros ([s1 e] & H1 & H)%bind_ok Hs. assert (tx_ok s1).
    { revert H1. repeat case_match; intros He; unfold tx_ok in *;
        first [by injection He as <- <- | by apply bind_ok in He as (? & _ & [= <- <-])]. }
    destruct e; simpl in H; [|by injection H as <-]. apply emit_tx in H as [Hq _]. unfold tx_ok. by rewrite Hq.
  - intros (q & Hq & H)%bind_ok Hs. assert (len q <= 4091).
    { revert Hq. destruct (2 <=? len p) eqn:?; [run_ok|by intros [= <-]].
      destruct (_ && _); intros [= <-]; [rewrite length_drop|]; lia. }
    revert H. destruct (len q <? 2); [by intros [= <-]|].
    intros ([s1 h] & H1 & H)%bind_ok. apply lcp_echo_tx in H1; try done.
    destruct h; [by injection H as <-|]. destruct (negb _); by injection H as <-.
Qed.

Lemma serve_tx s b t r : serve s b = Ok (t, r) -> tx_ok s -> tx_ok t.
Proof.
  revert s b. refine (serve_ind _ _ _ _).
  - intros s b Hn. rewrite serve_eq, Hn. by intros [= <- <-].
  - intros s b v Hn. rewrite serve_eq, Hn. intros (s' & He & [= <- <-])%bind_ok.
    apply emit_tx in He as [Hq _]. unfold tx_ok. cbn. by rewrite Hq.
  - intros s b c body n Hn IH. rewrite serve_eq, Hn. intros (s' & E & H)%bind_ok Hs.
    apply next_item in Hn. apply (IH s'); try done. eapply handle_tx; [|done|done]. lia.
Qed.

Lemma equiv_tx s t : s ≡ t -> tx_q s = tx_q t /\ trace s = trace t.
Proof. by intros [=]. Qed.

Lemma demux_parse_tx s s' n : sstp_demux_parse s = Ok (s', n) -> tx_ok s -> tx_ok s'.
Proof.
  intros H Hs. unfold sstp_demux_parse in H.
  pose proof (demux_serve (S (length (rx_buf s))) s s 0 ltac:(done)) as Hd. unfold rx_len in Hd.
  specialize (Hd ltac:(lia) ltac:(lia)). rewrite H in Hd.
  destruct (serve s _) as [[t r]|[]|] eqn:E; try done. destruct Hd as [[Hq _]%equiv_tx _]. cbn in Hq.
  apply serve_tx in E; [|done]. unfold tx_ok in *. by rewrite Hq.
Qed.

Lemma rx_round_tx s r s' go : rx_round s r = Ok (s', go) -> tx_ok s -> tx_ok s'.
Proof.
  assert (Hemit : forall s ty arg s1, sstp_session_emit s ty arg = Ok s1 -> tx_ok s -> tx_ok (set_closing s1)).
  { intros s0 ty arg s1 [Hq _]%emit_tx. unfold tx_ok. cbn. by rewrite Hq. }
  unfold rx_round. intros ([s1 rc] & H1 & H)%bind_ok Hs. assert (Hs1 : tx_ok s1).
  { revert H1. unfold sstp_demux_recv_once. repeat case_match; intros He;
      first [done | by injection He as <- <- | apply bind_ok in He as (s2 & He & [= <- <-]); by eapply Hemit]. }
  destruct (rc =? 0); [apply bind_ok in H as (s2 & He & [= <- <-]); by eapply Hemit|].
  destruct (_ && _).
  { destruct (_ =? _); [by injection H as <- <-|]. destruct (_ =? _); [by injection H as <- <-|].
    apply bind_ok in H as (s2 & He & [= <- <-]). by eapply Hemit. }
  destruct (0 <? _); [|by injection H as <- <-]. apply bind_ok in H as ([s2 n] & Hp & H).
  apply demux_parse_tx in Hp; [|done]. destruct (n =? 0); [by injection H as <- <-|].
  by apply bind_ok in H as (tl & _ & [= <- <-]).
Qed.

(** What a round of the transmit worker does: it sends one batch, or keeps the queue, or gives up. *)
Lemma tx_round_spec s ret s' go :
  tx_ok s -> tx_round s ret = Ok (s', go) ->
  (go = true /\ closing s' = closing s /\ exists batch,
     batch <> [] /\ (length batch <= 8)%nat /\ len (batch_bytes batch) <= SSTP_TX_BATCH_BYTES_MAX /\
     tx_q s = batch ++ tx_q s' /\ sends s' = sends s ++ [batch_bytes batch]) \/
  (go = false /\ closing s' = closing s /\ tx_q s' = tx_q s /\ trace s' = trace s) \/
  (go = false /\ closing s' = true /\ trace s' = trace s /\ exists batch, tx_q s = batch ++ tx_q s').
Proof.
  intros Hok. unfold tx_round.
  pose proof (build_batch_split (Z.to_nat SSTP_TX_BATCH_MAX) 0 0 (tx_q s)) as Hsplit.
  pose proof (build_batch_length (Z.to_nat SSTP_TX_BATCH_MAX) 0 0 (tx_q s)) as Hlen.
  assert (Hb : 0 + len (batch_bytes (build_batch (Z.to_nat SSTP_TX_BATCH_MAX) 0 0 (tx_q s)).1) <= SSTP_TX_BATCH_BYTES_MAX).
  { apply build_batch_bytes; [done|done|done|]. eapply Forall_impl; [exact Hok|]. intros f Hf.
    unfold frame_len, SSTP_TX_HDR_STRIDE, KMOD_HEADER_LEN, SSTP_TX_BATCH_BYTES_MAX. cbn in Hf. lia. }
  destruct (build_batch _ 0 0 (tx_q s)) as [batch rest]. cbn [fst snd] in *.
  change (Z.to_nat SSTP_TX_BATCH_MAX) with 8%nat in Hlen.
  destruct (Z.eqb_spec (len batch) 0) as [E|Hne].
  { intros [= <- <-]. right; left. destruct batch; [|done]. by split_and!. }
  destruct (ret =? _).
  { intros [= <- <-]. left. split_and!; try done. exists batch. split_and!; try done; [by intros ->|].
    unfold sends. cbn [trace]. cbn. by rewrite map_app, concat_app. }
  destruct (ret =? - EAGAIN); [intros [= <- <-]; right; left; by split_and!|].
  intros (s1 & He & [= <- <-])%bind_ok. right; right. apply emit_tx in He as (Hq & Ht & _). cbn in Hq, Ht |- *.
  split_and!; try done. exists batch. by rewrite Hq.
Qed.

Lemma tx_round_tx s ret s' go : tx_round s ret = Ok (s', go) -> tx_ok s -> tx_ok s'.
Proof.
  intros H Hs. destruct (tx_round_spec s ret s' go Hs H) as [(_ & _ & b & _ & _ & _ & Hq & _)|[(_ & _ & Hq & _)|(_ & _ & _ & b & Hq)]];
    unfold tx_ok in *; rewrite Hq in *; try done; by apply Forall_app in Hs as [_ ?].
Qed.

Lemma kstep_tx s pending s' pending' : kstep (s, pending) (s', pending') -> tx_ok s -> tx_ok s'.
Proof.
  intros Hstep Hs. inversion Hstep; subst; clear Hstep; try done.
  - by eapply rx_round_tx.
  - by eapply tx_round_tx.
  - unfold sstp_chan_start_xmit, KMOD_HEADER_LEN, KMOD_MAX_PACKET_LEN, SSTP_LEN_MASK.
    repeat case_match; try done. cbn. apply Forall_app. split; [done|]. constructor; [lia | done].
  - match goal with H : sstp_session_read s = _ |- _ => revert H end. unfold sstp_session_read.
    case_match; [intros (? & _ & [= <- <-])%bind_ok; done | by intros [=]].
  - match goal with H : ioc_recv_control s n = _ |- _ => revert H end. unfold ioc_recv_control.
    case_match; [|by intros [= <- <- <-]]. intros (o & _ & (q & _ & Hr)%bind_ok)%bind_ok. revert Hr.
    repeat case_match; by intros [= <- <- <-].
  - match goal with H : ioc_send_control s _ _ _ = _ |- _ => revert H end. unfold ioc_send_control.
    repeat case_match; try (by intros [= <- <-]); intros (s1 & He & [= <- <-])%bind_ok;
      apply emit_tx in He as [Hq _]; unfold tx_ok in *; cbn in *; by rewrite Hq.
Qed.

Lemma kreachable_tx s pending : kreachable (s, pending) -> tx_ok s.
Proof.
  intros H. assert (G : forall x y, rtc kstep x y -> tx_ok x.1 -> tx_ok y.1).
  { induction 1 as [x|[s1 p1] [s2 p2] y Hst _ IH]; intros Hx; [done|]. by apply IH, (kstep_tx _ _ _ _ Hst). }
  apply (G _ _ H). by unfold tx_ok.
Qed.

(** ** The transmit worker *)

Definition batch_ok (b : list bytes) : Prop :=
  b <> [] /\ (length b <= 8)%nat /\ len (batch_bytes b) <= SSTP_TX_BATCH_BYTES_MAX.

(** From [s] to [s'] the batches were sent; frames are lost only when the session closes. *)
Definition sent_from (s s' : session) (batches : list (list bytes)) : Prop :=
  sends s' = sends s ++ map batch_bytes batches /\ Forall batch_ok batches /\
  exists lost, tx_q s = concat batches ++ lost ++ tx_q s' /\ (closing s' = false -> lost = []).

Lemma sends_called s c : sends (called s c) = sends s ++ match c with sent d => [d] | _ => [] end.
Proof. unfold sends. cbn. rewrite map_app, concat_app. cbn. by rewrite app_nil_r. Qed.

Lemma tx_loop_spec loops drained s rets pending :
  inv s pending -> rx_bounded s -> tx_ok s ->
  exists s' d batches, tx_loop loops drained s rets = Ok (s', d) /\ sent_from s s' batches /\
    (length batches <= loops)%nat.
Proof.
  revert drained s rets. induction loops as [|loops IH]; intros drained s rets Hinv Hrx Hok; cbn [tx_loop].
  - exists (called s queue_tx_work), drained, []. split; [done|]. split; [|done]. split_and!; [|done|by exists []].
    by rewrite sends_called.
  - destruct (closing s) eqn:Hc.
    { exists s, drained, []. split; [done|]. split; [|cbn; lia]. split_and!; [by rewrite app_nil_r|done|by exists []]. }
    set (ret := match rets with r :: _ => r | [] => - EAGAIN end).
    destruct (tx_round_inv s ret pending Hinv Hc (Hrx Hc)) as (s1 & go & H1 & Hi1 & Hb1). rewrite H1. cbn [mbind res_bind].
    destruct (tx_round_spec s ret s1 go Hok H1)
      as [(-> & _ & b & Hb & Hl & Hby & Hq & Hs)|[(-> & Hc1 & Hq & Ht)|(-> & Hc1 & Ht & b & Hq)]].
    + destruct (IH true s1 (tail rets)) as (s' & d & bs & -> & (Hs' & Hbs & lost & Hq' & Hlost) & Hn);
        [done | done | by eapply tx_round_tx |].
      exists s', d, (b :: bs). split; [done|]. split; [|cbn; lia].
      split_and!; [by rewrite Hs', Hs, <- app_assoc | by constructor | exists lost; split; [|done]].
      by rewrite Hq, Hq', app_assoc.
    + exists s1, drained, []. split; [done|]. split; [|cbn; lia]. split_and!; [|done|].
      * unfold sends. by rewrite Ht, app_nil_r.
      * exists []. by rewrite Hq.
    + exists s1, drained, []. split; [done|]. split; [|cbn; lia]. split_and!; [|done|].
      * unfold sends. by rewrite Ht, app_nil_r.
      * exists b. split; [done|congruence].
Qed.

Lemma concat_batches bs : concat (map batch_bytes bs) = batch_bytes (concat bs).
Proof. induction bs as [|b bs IH]; [done|]. cbn [map concat]. by rewrite batch_bytes_app, IH. Qed.


(** ** Echo-Requests *)

(** The frame of an Echo-Request without its address and control bytes. *)
Definition echo_request (id : Z) (d : bytes) : bytes := [0xC0; 0x21] ++ lcp_bytes (packet 9 id d).
Definition echo_reply (id : Z) (d : bytes) : bytes :=
  [0xC0; 0x21] ++ lcp_bytes (packet 10 id ([0; 0; 0; 0] ++ drop 4 d)).

(** A session that takes an Echo-Reply into its queue. *)
Definition takes_echo (s : session) : Prop :=
  closing s = false /\ len (tx_q s) < SSTP_TX_Q_CAP /\ forall n, alloc s n = true.

Lemma lcp_echo_reply s id d :
  takes_echo s -> 4 <= len d < 65532 ->
  sstp_handle_lcp_echo s (echo_request id d)
  = Ok (called (with_tx_q s (tx_q s ++ [echo_reply id d])) queue_tx_work, true).
Proof.
  intros (Hc & Hq & Ha) Hd. unfold sstp_handle_lcp_echo.
  set (req := echo_request id d).
  assert (Hreq : req = [0xC0; 0x21; 9; id] ++ to_be16 (4 + len d) ++ d) by done.
  assert (Hlen : len req = 6 + len d) by (rewrite Hreq; len_lia).
  replace (len req <? 10) with false by lia. run_ok.
  change (byte_at req 0) with 0xC0. change (byte_at req 1) with 0x21. cbn [Z.eqb Pos.eqb negb orb]. run_ok.
  change (byte_at req 2) with 9. change (negb (9 =? LCP_ECHOREQ)) with false. run_ok.
  change (byte_at req 3) with id.
  change (byte_at req 4) with ((4 + len d) / 256 mod 256). change (byte_at req 5) with ((4 + len d) mod 256).
  rewrite be16_to_be16 by (unfold u16; lia).
  replace ((4 + len d <? 8) || (len req <? 4 + len d + 2)) with false by lia. rewrite Hc, Ha.
  replace (SSTP_TX_Q_CAP <=? len (tx_q s)) with false by lia. cbn [negb].
  assert (Hrest : (if 8 <? 4 + len d then slice req 10 (10 + (4 + len d - 8)) else Ok []) = Ok (E := Empty_set) (drop 4 d)).
  { destruct (Z.ltb_spec 8 (4 + len d)).
    - rewrite slice_ok by lia. f_equal. rewrite sub_to_end by lia. by rewrite Hreq.
    - f_equal. symmetry. apply drop_ge. lia. }
  rewrite Hrest. cbn [mbind res_bind].
  replace (echo_reply id d) with ([192; 33; LCP_ECHOREP; id; (4 + len d) / 256 mod 256; (4 + len d) mod 256; 0; 0; 0; 0] ++ drop 4 d);
    [done|].
  unfold echo_reply, lcp_bytes. cbn [LcpPacket.code LcpPacket.identifier LcpPacket.data].
  replace (len ([0; 0; 0; 0] ++ drop 4 d)) with (len d) by (cbn [app length]; rewrite length_drop; lia). done.
Qed.

(** The payload of a data packet, with the address and control bytes or without. *)
Lemma deliver_echo s id d (compressed : bool) :
  takes_echo s -> 4 <= len d < 65532 ->
  sstp_deliver_ppp s ((if compressed then [] else [0xFF; 3]) ++ echo_request id d)
  = Ok (called (with_tx_q s (tx_q s ++ [echo_reply id d])) queue_tx_work).
Proof.
  intros Hs Hd. unfold sstp_deliver_ppp.
  assert (Hlen : len (echo_request id d) = 6 + len d) by (unfold echo_request; len_lia).
  set (pay := (if compressed then [] else [0xFF; 3]) ++ echo_request id d).
  assert (Hpay : (if 2 <=? len pay then
               p0 ← idx pay 0; p1 ← idx pay 1;
               if (p0 =? PPP_ALLSTATIONS) && (p1 =? PPP_UI) then slice_from pay 2 else Ok pay
             else Ok pay) = Ok (E := Empty_set) (echo_request id d)).
  { assert (6 <= len pay) by (subst pay; destruct compressed; len_lia).
    replace (2 <=? len pay) with true by lia. run_ok. destruct compressed; [done|].
    change (byte_at pay 0 =? PPP_ALLSTATIONS) with true. change (byte_at pay 1 =? PPP_UI) with true. done. }
  rewrite Hpay. cbn [mbind res_bind]. replace (len (echo_request id d) <? 2) with false by lia.
  by rewrite lcp_echo_reply.
Qed.

Lemma length_echo_reply id d : 4 <= len d -> len (echo_reply id d) = 6 + len d.
Proof. intros. unfold echo_reply. autorewrite with lens. cbn [length]. lia. Qed.

(** The kernel answers an LCP Echo-Request as the userspace driver would: for every request with a
    magic number that fits a packet, the reply the module puts into its transmit queue goes out as byte
    for byte the SSTP packet the userspace session writes for the driver's answer. *)
Theorem echo_same_in_kernel_and_driver {bp : BuildProfile} (s : session) p rand scratch id d :
  takes_echo s -> 4 <= len d <= 4083 ->
  PppAccess.inv p -> length rand = 16%nat -> Fsm.state (LcpServer.fsm (Ppp.lcp p)) = FsmState.Opened ->
  len scratch = SSTP_MAX_PACKET_LEN ->
  exists skb p' out f scratch' written,
    sstp_deliver_ppp s (lcp_frame (packet 9 id d)) = Ok (called (with_tx_q s (tx_q s ++ [skb])) queue_tx_work) /\
    Ppp.on_frame (E := Empty_set) p rand (lcp_frame (packet 9 id d)) = Ok (p', out) /\
    PppStep.frames out = [f] /\
    Session.write_ppp_as_sstp_data (E := Empty_set) scratch f = Ok (scratch', written) /\
    written = tx_header skb ++ skb.
Proof.
  intros Hs Hd Hp Hr Hst Hscr.
  destruct (echo_answered p rand 9 id d Hp Hr) as (out & Hf & Hout & _); [lia | by left | done|].
  exists (echo_reply id d). eexists _, out, _, _, _. split; [|split; [exact Hf|]; split; [exact Hout|]; split].
  - apply (deliver_echo s id d false); [done | lia].
  - apply write_ppp_ok; [done|]. unfold lcp_frame, frame_bytes. len_lia.
  - rewrite tx_header_ok; [done|]. rewrite length_echo_reply; lia.
Qed.

(** ** Lengths that do not fit the header *)

Lemma parse_short_header (control : bool) n b :
  0 <= n < 4 -> Packet.parse (header control n ++ b) = Err (LengthTooSmall n).
Proof.
  intros Hn. rewrite parse_eq. set (buf := header control n ++ b).
  assert (Hh : header_length buf = n).
  { change (header_length buf) with (Z.land (be16 (n / 256 mod 256) (n mod 256)) 4095).
    rewrite be16_to_be16, land_12bit by (unfold u16; lia).
    apply Z.mod_small. lia. }
  rewrite Hh. replace (len buf <? 4) with false by (unfold buf; len_lia).
  change (byte_at buf 0) with 16. cbn [Z.eqb Pos.eqb negb]. by replace (n <? 4) with true by lia.
Qed.

(** Two checks of the module let through one length too many: SSTP_IOC_SEND_CONTROL takes a body of
    4092 bytes, and an Echo-Request without address and control bytes is answered even when the reply,
    which gets them, is longer than a packet.  The 12-bit length field wraps and the packet that goes out
    is rejected by the parser. *)
Theorem kmod_lengths_wrap (s : session) (body d : bytes) (id : Z) :
  takes_echo s -> len body = 4092 -> 4084 <= len d <= 4085 ->
  (exists s' data, ioc_send_control s body 0 4096 = Ok (s', 0) /\ sends s' = sends s ++ [data] /\
     Packet.parse data = Err (LengthTooSmall 0)) /\
  (exists s' skb, sstp_deliver_ppp s (echo_request id d) = Ok s' /\ tx_q s' = tx_q s ++ [skb] /\
     len (echo_request id d) <= 4091 /\
     Packet.parse (tx_header skb ++ skb) = Err (LengthTooSmall (len d - 4084))).
Proof.
  intros Hs Hb Hd. split.
  - unfold ioc_send_control, KMOD_HEADER_LEN. destruct Hs as (-> & _). rewrite Hb. cbn [orb negb Z.eqb Z.ltb].
    eexists _, _. split; [done|]. split; [apply (sends_called s (sent _))|].
    by apply (parse_short_header true 0).
  - eexists _, (echo_reply id d). split; [apply (deliver_echo s id d true); [done|lia]|].
    split; [done|]. split; [unfold echo_request; len_lia|].
    rewrite tx_header_eq, length_echo_reply, <- app_assoc by lia.
    replace ((6 + (6 + len d)) mod 4096) with (len d - 4084); [apply parse_short_header; lia|].
    replace (6 + (6 + len d)) with (len d - 4084 + 1 * 4096) by lia. rewrite Z.mod_add by lia.
    symmetry. apply Z.mod_small. lia.
Qed.
End Tx.

Lemma attached_takes_echo : takes_echo (K := idle_kernel) attached.
Proof. done. Qed.


Lemma echo_same_in_kernel_and_driver_witness :
  exists skb p' out f scratch' written,
    sstp_deliver_ppp (K := idle_kernel) attached (lcp_frame (packet 9 3 [1; 2; 3; 4; 5; 6]))
    = Ok (called (with_tx_q attached [skb]) queue_tx_work) /\
    Ppp.on_frame (bp := false) (E := Empty_set) Handshake.in_flight Handshake.rand (lcp_frame (packet 9 3 [1; 2; 3; 4; 5; 6]))
    = Ok (p', out) /\
    PppStep.frames out = [f] /\
    Session.write_ppp_as_sstp_data (bp := false) (E := Empty_set) (zeros 4095) f = Ok (scratch', written) /\
    written = tx_header skb ++ skb.
Proof.
  apply (echo_same_in_kernel_and_driver (K := idle_kernel) (bp := false) attached Handshake.in_flight Handshake.rand
           (zeros 4095) 3 [1; 2; 3; 4; 5; 6] attached_takes_echo); [done | apply Handshake.in_flight_inv | done..].
Defined.

Lemma kmod_lengths_wrap_witness :
  exists s' skb, sstp_deliver_ppp (K := idle_kernel) attached (echo_request 7 (zeros 4084)) = Ok s' /\
    tx_q s' = [skb] /\ Packet.parse (tx_header skb ++ skb) = Err (LengthTooSmall 0).
Proof.
  destruct (kmod_lengths_wrap (K := idle_kernel) attached (zeros 4092) (zeros 4084) 7 attached_takes_echo)
    as (_ & s' & skb & H1 & H2 & _ & H3); [unfold zeros; by rewrite length_replicate .. |].
  exists s', skb. split; [exact H1|]. split; [exact H2|]. revert H3. unfold zeros. rewrite length_replicate. done.
Defined.
