(* ===== verification/KmodLife.v ===== *)
(** * The life of a session in the kernel module ([src/kmod/sstp_attach.c, sstp_event.c, sstp_demux.c, sstp_main.c])

    [SSTP_IOC_ATTACH] builds a session and hands it to a new descriptor; the last [close] of that
    descriptor takes the session apart.  [kernel] is the part of the kernel they share: the sessions, with
    the objects a session owns, the sockets with their callbacks, the open files with their counts, and
    what is under way on other CPUs.  The data of a session is a [Kmod.session].

    Use of a freed object is [Panic]; addresses are not used twice, so that a stale pointer shows.  What an
    allocation and the like return is an argument ([attach_env]).  [exec] runs one piece of code; pieces of
    different calls interleave in any order.  A piece is what no other one can observe half done: the
    attach up to [fd_install] and the rest of it, the shutdown of a session and its last [put], the two
    halves of a callback and of [start_xmit] (before and after they have looked at the session), a run of a
    worker.  What waits in the source ([cancel_work_sync], [destroy_workqueue],
    [ppp_unregister_channel]) does nothing while it would wait. *)

From stdpp Require Import gmap.
From S2P Require Import Prelude Kmod.

Abbreviation addr := nat.

Definition EFAULT : Z := 14.
Definition EBADF : Z := 9.
Definition ENOTSOCK : Z := 88.
Definition EAFNOSUPPORT : Z := 97.
Definition EPROTONOSUPPORT : Z := 93.
Definition EOPNOTSUPP : Z := 95.
Definition EMFILE : Z := 24.
Definition EPERM : Z := 1.
Definition ENOTTY : Z := 25.
Definition ENXIO : Z := 6.

Definition AF_INET : Z := 2.
Definition AF_INET6 : Z := 10.
Definition SOCK_STREAM : Z := 1.
Definition IPPROTO_TCP : Z := 6.
Definition TLS_BASE : Z := 0.
Definition SSTP_ABI_VERSION_MAJOR : Z := 0.
Definition SSTP_ABI_VERSION_MINOR : Z := 3.

(** ** The state *)

(** A callback of a socket: one of the network stack, or the one of this module. *)
Inductive handler :=
| Stack (n : nat)
| Sstp.

Inductive user_data :=
| Null
| Foreign (n : nat)
| Session (a : addr).

(** [struct sock]: [tls] is what [tls_get_ctx] returns, the configurations of the two directions. *)
Record sock := {
  sk_family : Z;
  sk_type : Z;
  sk_protocol : Z;
  tls : option (Z * Z);
  sk_data_ready : handler;
  sk_write_space : handler;
  sk_user_data : user_data
}.

Definition with_callbacks sk dr ws ud :=
  {| sk_family := sk_family sk; sk_type := sk_type sk; sk_protocol := sk_protocol sk; tls := tls sk;
     sk_data_ready := dr; sk_write_space := ws; sk_user_data := ud |}.

(** [struct sstp_session]: its data path is in [data]; of a pointer to an object that only the session
    uses, whether it is set. *)
Record sstp_session := Sstp_session {
  ref : Z;
  data : session;
  mtu : Z;
  tcp_file : option nat;
  tcp_sock : option nat;
  chan_registered : bool;
  chan_index : Z;
  wq : bool;
  saved_data_ready : handler;
  saved_write_space : handler;
  saved_user_data : user_data;
  cb_installed : bool
}.

Inductive file_kind :=
| Plain
| Socket (k : nat)
| Session_file (a : addr).

Record file := File { kind : file_kind; f_count : Z }.

Inductive work := rx_work | tx_work.

#[export] Instance work_eq : EqDecision work.
Proof. solve_decision. Defined.

#[export] Program Instance work_countable : Countable work :=
  inj_countable' (fun w => match w with rx_work => true | tx_work => false end)
                 (fun b : bool => if b then rx_work else tx_work) _.
Next Obligation. by intros []. Qed.

Inductive hook := sstp_sk_data_ready | sstp_sk_write_space.

#[export] Instance hook_eq : EqDecision hook.
Proof. solve_decision. Defined.

(** [bufs], [wqs] and [chans] are the receive buffers, workqueues and PPP channels there are, by the
    session they belong to; [delayed] are the files whose count is zero and whose [__fput] is still to run;
    [works] the queued work items.  Under way are: attaches between [fd_install] and the callbacks
    ([wiring], with their descriptor), callbacks that have read [sk_user_data] ([hooks]), [start_xmit] after
    its look at [closing] ([xmits]), session files between the shutdown and the last [put] ([releasing]).
    [freed] are the sessions as they were when they were freed. *)
Record kernel := Kernel_state {
  heap : gmap addr sstp_session;
  bufs : gset addr;
  wqs : gset addr;
  chans : gset addr;
  socks : gmap nat sock;
  files : gmap nat file;
  fds : gmap Z nat;
  delayed : gset nat;
  works : gset (addr * work);
  wiring : list (addr * Z);
  hooks : list (hook * nat * addr);
  xmits : list (addr * bytes);
  releasing : gset addr;
  next : addr;
  next_file : nat;
  freed : list sstp_session
}.

(** The fields one at a time *)
Definition with_ref s x := Sstp_session x (data s) (mtu s) (tcp_file s) (tcp_sock s) (chan_registered s)
  (chan_index s) (wq s) (saved_data_ready s) (saved_write_space s) (saved_user_data s) (cb_installed s).
Definition with_data s x := Sstp_session (ref s) x (mtu s) (tcp_file s) (tcp_sock s) (chan_registered s)
  (chan_index s) (wq s) (saved_data_ready s) (saved_write_space s) (saved_user_data s) (cb_installed s).
Definition with_mtu s x := Sstp_session (ref s) (data s) x (tcp_file s) (tcp_sock s) (chan_registered s)
  (chan_index s) (wq s) (saved_data_ready s) (saved_write_space s) (saved_user_data s) (cb_installed s).
Definition with_tcp_file s x := Sstp_session (ref s) (data s) (mtu s) x (tcp_sock s) (chan_registered s)
  (chan_index s) (wq s) (saved_data_ready s) (saved_write_space s) (saved_user_data s) (cb_installed s).
Definition with_tcp_sock s x := Sstp_session (ref s) (data s) (mtu s) (tcp_file s) x (chan_registered s)
  (chan_index s) (wq s) (saved_data_ready s) (saved_write_space s) (saved_user_data s) (cb_installed s).
Definition with_chan_registered s x := Sstp_session (ref s) (data s) (mtu s) (tcp_file s) (tcp_sock s) x
  (chan_index s) (wq s) (saved_data_ready s) (saved_write_space s) (saved_user_data s) (cb_installed s).
Definition with_chan_index s x := Sstp_session (ref s) (data s) (mtu s) (tcp_file s) (tcp_sock s)
  (chan_registered s) x (wq s) (saved_data_ready s) (saved_write_space s) (saved_user_data s) (cb_installed s).
Definition with_wq s x := Sstp_session (ref s) (data s) (mtu s) (tcp_file s) (tcp_sock s)
  (chan_registered s) (chan_index s) x (saved_data_ready s) (saved_write_space s) (saved_user_data s) (cb_installed s).
Definition with_saved_data_ready s x := Sstp_session (ref s) (data s) (mtu s) (tcp_file s) (tcp_sock s)
  (chan_registered s) (chan_index s) (wq s) x (saved_write_space s) (saved_user_data s) (cb_installed s).
Definition with_saved_write_space s x := Sstp_session (ref s) (data s) (mtu s) (tcp_file s) (tcp_sock s)
  (chan_registered s) (chan_index s) (wq s) (saved_data_ready s) x (saved_user_data s) (cb_installed s).
Definition with_saved_user_data s x := Sstp_session (ref s) (data s) (mtu s) (tcp_file s) (tcp_sock s)
  (chan_registered s) (chan_index s) (wq s) (saved_data_ready s) (saved_write_space s) x (cb_installed s).
Definition with_cb_installed s x := Sstp_session (ref s) (data s) (mtu s) (tcp_file s) (tcp_sock s)
  (chan_registered s) (chan_index s) (wq s) (saved_data_ready s) (saved_write_space s) (saved_user_data s) x.
Definition with_heap st x := Kernel_state x (bufs st) (wqs st) (chans st) (socks st) (files st) (fds st)
  (delayed st) (works st) (wiring st) (hooks st) (xmits st) (releasing st) (next st) (next_file st) (freed st).
Definition with_bufs st x := Kernel_state (heap st) x (wqs st) (chans st) (socks st) (files st) (fds st)
  (delayed st) (works st) (wiring st) (hooks st) (xmits st) (releasing st) (next st) (next_file st) (freed st).
Definition with_wqs st x := Kernel_state (heap st) (bufs st) x (chans st) (socks st) (files st) (fds st)
  (delayed st) (works st) (wiring st) (hooks st) (xmits st) (releasing st) (next st) (next_file st) (freed st).
Definition with_chans st x := Kernel_state (heap st) (bufs st) (wqs st) x (socks st) (files st) (fds st)
  (delayed st) (works st) (wiring st) (hooks st) (xmits st) (releasing st) (next st) (next_file st) (freed st).
Definition with_socks st x := Kernel_state (heap st) (bufs st) (wqs st) (chans st) x (files st) (fds st)
  (delayed st) (works st) (wiring st) (hooks st) (xmits st) (releasing st) (next st) (next_file st) (freed st).
Definition with_files st x := Kernel_state (heap st) (bufs st) (wqs st) (chans st) (socks st) x (fds st)
  (delayed st) (works st) (wiring st) (hooks st) (xmits st) (releasing st) (next st) (next_file st) (freed st).
Definition with_fds st x := Kernel_state (heap st) (bufs st) (wqs st) (chans st) (socks st) (files st) x
  (delayed st) (works st) (wiring st) (hooks st) (xmits st) (releasing st) (next st) (next_file st) (freed st).
Definition with_delayed st x := Kernel_state (heap st) (bufs st) (wqs st) (chans st) (socks st)
  (files st) (fds st) x (works st) (wiring st) (hooks st) (xmits st) (releasing st) (next st) (next_file st) (freed st).
Definition with_works st x := Kernel_state (heap st) (bufs st) (wqs st) (chans st) (socks st) (files st)
  (fds st) (delayed st) x (wiring st) (hooks st) (xmits st) (releasing st) (next st) (next_file st) (freed st).
Definition with_wiring st x := Kernel_state (heap st) (bufs st) (wqs st) (chans st) (socks st)
  (files st) (fds st) (delayed st) (works st) x (hooks st) (xmits st) (releasing st) (next st) (next_file st) (freed st).
Definition with_hooks st x := Kernel_state (heap st) (bufs st) (wqs st) (chans st) (socks st) (files st)
  (fds st) (delayed st) (works st) (wiring st) x (xmits st) (releasing st) (next st) (next_file st) (freed st).
Definition with_xmits st x := Kernel_state (heap st) (bufs st) (wqs st) (chans st) (socks st) (files st)
  (fds st) (delayed st) (works st) (wiring st) (hooks st) x (releasing st) (next st) (next_file st) (freed st).
Definition with_releasing st x := Kernel_state (heap st) (bufs st) (wqs st) (chans st) (socks st)
  (files st) (fds st) (delayed st) (works st) (wiring st) (hooks st) (xmits st) x (next st) (next_file st) (freed st).
Definition with_next st x := Kernel_state (heap st) (bufs st) (wqs st) (chans st) (socks st) (files st)
  (fds st) (delayed st) (works st) (wiring st) (hooks st) (xmits st) (releasing st) x (next_file st) (freed st).
Definition with_next_file st x := Kernel_state (heap st) (bufs st) (wqs st) (chans st) (socks st)
  (files st) (fds st) (delayed st) (works st) (wiring st) (hooks st) (xmits st) (releasing st) (next st) x (freed st).
Definition with_freed st x := Kernel_state (heap st) (bufs st) (wqs st) (chans st) (socks st) (files st)
  (fds st) (delayed st) (works st) (wiring st) (hooks st) (xmits st) (releasing st) (next st) (next_file st) x.
(** ** Objects *)

Section Life.
Context {K : Kernel}.

Definition session_at st a : mem sstp_session :=
  match heap st !! a with Some s => Ok s | None => Panic end.

Definition file_at st f : mem file :=
  match files st !! f with Some x => Ok x | None => Panic end.

Definition store st a s : kernel := with_heap st (<[a := s]> (heap st)).

(** [queue_work(s->wq, w)]: nothing changes when it is queued already. *)
Definition queue_work st a w : mem kernel :=
  s ← session_at st a;
  if wq s && bool_decide (a ∈ wqs st) then Ok (with_works st ({[(a, w)]} ∪ works st)) else Panic.

(** The work items among the calls the data path made. *)
Definition work_of (c : call) : option work :=
  match c with queue_rx_work => Some rx_work | queue_tx_work => Some tx_work | _ => None end.

(** The data path of a session goes from [data s] to [d]; it has queued its work items. *)
Definition set_data st a s d : kernel :=
  let st := store st a (with_data s d) in
  let queued := omap work_of (drop (length (trace (data s))) (trace d)) in
  with_works st (list_to_set (map (pair a) queued) ∪ works st).

(** [fget(fd)], [fput(file)]: the release of a file that nobody uses any more is deferred. *)
Definition fget st fd : mem (kernel * option nat) :=
  match fds st !! fd with
  | None => Ok (st, None)
  | Some f =>
      x ← file_at st f;
      Ok (with_files st (<[f := File (kind x) (f_count x + 1)]> (files st)), Some f)
  end.

Definition fput st f : mem kernel :=
  x ← file_at st f;
  if f_count x <=? 0 then Panic
  else
    let st := with_files st (<[f := File (kind x) (f_count x - 1)]> (files st)) in
    Ok (if f_count x =? 1 then with_delayed st ({[f]} ∪ delayed st) else st).

(** [close(fd)] and [close_fd(fd)] *)
Definition close_fd st fd : mem kernel :=
  match fds st !! fd with
  | None => Ok st
  | Some f => fput (with_fds st (delete fd (fds st))) f
  end.

(** ** Reference counting ([sstp_attach.c]) *)

(** The loop that frees the control packets userspace never asked for. *)
Fixpoint drop_ctrl_q (fuel : nat) (d : session) : session :=
  match fuel with
  | O => d
  | S fuel =>
      if ctrl_q_head d =? ctrl_q_tail d then d
      else drop_ctrl_q fuel (with_ctrl_q d (ctrl_q d) (ctrl_q_head d) ((ctrl_q_tail d + 1) mod SSTP_CTRL_Q_CAP))
  end.

(** The [sstp_session_release] of [sstp_attach.c]; [kfree(s)] is its last act. *)
Definition release_session st a : mem kernel :=
  s ← session_at st a;
  let st := if chan_registered s then with_chans st (chans st ∖ {[a]}) else st in
  let st := if wq s then with_wqs st (wqs st ∖ {[a]}) else st in
  let st := with_bufs st (bufs st ∖ {[a]}) in
  let s := with_data s (drop_ctrl_q (Z.to_nat SSTP_CTRL_Q_CAP) (data s)) in
  st ← match tcp_file s with Some f => fput st f | None => Ok st end;
  Ok (with_freed (with_heap st (delete a (heap st))) (freed st ++ [s])).

Definition sstp_session_get st a : mem kernel :=
  s ← session_at st a;
  Ok (store st a (with_ref s (ref s + 1))).

Definition sstp_session_put st a : mem kernel :=
  s ← session_at st a;
  let st := store st a (with_ref s (ref s - 1)) in
  if ref s =? 1 then release_session st a else Ok st.

(** ** The callbacks of the socket ([sstp_demux.c]) *)

(** [s->tcp_sock->sk]; the session's reference to the file keeps the socket. *)
Definition sk_of st s : mem (nat * sock) :=
  match tcp_sock s, tcp_file s with
  | Some k, Some f =>
      _ ← file_at st f;
      match socks st !! k with Some sk => Ok (k, sk) | None => Panic end
  | _, _ => Panic
  end.

Definition sstp_demux_install_callback st a : mem kernel :=
  s ← session_at st a;
  '(k, sk) ← sk_of st s;
  let s := with_saved_data_ready s (sk_data_ready sk) in
  let s := with_saved_write_space s (sk_write_space sk) in
  let s := with_saved_user_data s (sk_user_data sk) in
  let st := with_socks st (<[k := with_callbacks sk Sstp Sstp (Session a)]> (socks st)) in
  Ok (store st a (with_cb_installed s true)).

Definition sstp_demux_remove_callback st a : mem kernel :=
  s ← session_at st a;
  if negb (cb_installed s) || negb (bool_decide (is_Some (tcp_sock s))) then Ok st
  else
    '(k, sk) ← sk_of st s;
    let sk := with_callbacks sk (saved_data_ready s) (saved_write_space s) (saved_user_data s) in
    Ok (store (with_socks st (<[k := sk]> (socks st))) a (with_cb_installed s false)).

(** [cancel_work_sync] of both work items: a run of a worker is over when this piece starts. *)
Definition demux_shutdown st a : mem kernel :=
  st ← sstp_demux_remove_callback st a;
  let st := with_works st (works st ∖ {[(a, rx_work); (a, tx_work)]}) in
  s ← session_at st a;
  Ok (store st a (with_data s (sstp_demux_shutdown (data s)))).

(** What a callback does after it has read the session [a] out of [sk_user_data]. *)
Definition data_ready_rest st a : mem kernel :=
  s ← session_at st a;
  if negb (closing (data s)) then queue_work st a rx_work else Ok st.

(** The chained callback may be the one of this module again; [stack] calls fit on the kernel stack. *)
Fixpoint write_space_rest (stack : nat) st (k : nat) a : mem kernel :=
  s ← session_at st a;
  st ← (if negb (closing (data s)) then queue_work st a tx_work else Ok st);
  match saved_write_space s with
  | Stack _ => Ok st
  | Sstp =>
      match stack with
      | O => Panic
      | S stack =>
          match socks st !! k with
          | None => Panic
          | Some sk =>
              match sk_user_data sk with
              | Session b => write_space_rest stack st k b
              | Null => Ok st
              | Foreign _ => Panic
              end
          end
      end
  end.

(** ** Attach ([sstp_attach.c]) *)

Definition sstp_validate_ktls (sk : option sock) : Z :=
  match sk with
  | None => - EINVAL
  | Some sk =>
      if negb (sk_family sk =? AF_INET) && negb (sk_family sk =? AF_INET6) then - EAFNOSUPPORT
      else if negb (sk_type sk =? SOCK_STREAM) then - EPROTONOSUPPORT
      else if negb (sk_protocol sk =? IPPROTO_TCP) then - EPROTONOSUPPORT
      else
        match tls sk with
        | None => - EOPNOTSUPP
        | Some (tx_conf, rx_conf) =>
            if (tx_conf =? TLS_BASE) || (rx_conf =? TLS_BASE) then - EOPNOTSUPP else 0
        end
  end.

(** [struct sstp_attach] *)
Record attach := {
  abi_major : Z;
  abi_minor : Z;
  attach_tcp_fd : Z;
  attach_mtu : Z;
  session_fd : Z
}.

(** What the kernel returns during an attach: the argument if it could be copied, whether the allocations
    succeeded, the results of [ppp_register_channel], [ppp_channel_index], [get_unused_fd_flags] (a
    descriptor in use is none) and [anon_inode_getfile] (0 or an error). *)
Record attach_env := {
  uarg : option attach;
  kzalloc : bool;
  kmalloc : bool;
  ppp_register_channel : Z;
  ppp_channel_index : Z;
  alloc_workqueue : bool;
  get_unused_fd_flags : Z;
  anon_inode_getfile : Z
}.

Definition new_session (m : Z) : sstp_session :=
  {| ref := 1; data := attached; mtu := m; tcp_file := None; tcp_sock := None; chan_registered := false;
     chan_index := 0; wq := false; saved_data_ready := Stack 0; saved_write_space := Stack 0;
     saved_user_data := Null; cb_installed := false |}.

(** [err_free] *)
Definition err_free st a ret : mem (kernel * (Z + addr * attach)) :=
  st ← sstp_session_put st a;
  Ok (st, inl ret).

Definition unused_fd st (e : attach_env) : Z :=
  let fd := get_unused_fd_flags e in
  if (0 <=? fd) && bool_decide (is_Some (fds st !! fd)) then - EMFILE else fd.

(** From the workqueue to [fd_install] *)
Definition attach_publish st a arg (e : attach_env) : mem (kernel * (Z + addr * attach)) :=
  if negb (alloc_workqueue e) then err_free st a (- ENOMEM)
  else
    s ← session_at st a;
    let st := with_wqs (store st a (with_wq s true)) ({[a]} ∪ wqs st) in
    let fd := unused_fd st e in
    if fd <? 0 then err_free st a fd
    else if negb (anon_inode_getfile e =? 0) then err_free st a (anon_inode_getfile e)
    else
      let f := next_file st in
      let st := with_files st (<[f := File (Session_file a) 1]> (files st)) in
      let st := with_fds (with_next_file st (S f)) (<[fd := f]> (fds st)) in
      Ok (st, inr (a, {| abi_major := abi_major arg; abi_minor := SSTP_ABI_VERSION_MINOR;
                         attach_tcp_fd := attach_tcp_fd arg; attach_mtu := attach_mtu arg;
                         session_fd := fd |})).

(** From the TCP descriptor to the registered channel *)
Definition attach_session st a arg (e : attach_env) : mem (kernel * (Z + addr * attach)) :=
  if negb (kmalloc e) then err_free st a (- ENOMEM)
  else
    let st := with_bufs st ({[a]} ∪ bufs st) in
    '(st, f) ← fget st (attach_tcp_fd arg);
    match f with
    | None => err_free st a (- EBADF)
    | Some f =>
        s ← session_at st a;
        let s := with_tcp_file s (Some f) in
        let st := store st a s in
        x ← file_at st f;
        match kind x with
        | Socket k =>
            let s := with_tcp_sock s (Some k) in
            let st := store st a s in
            let ret := sstp_validate_ktls (socks st !! k) in
            if negb (ret =? 0) then err_free st a ret
            else if negb (ppp_register_channel e =? 0) then err_free st a (ppp_register_channel e)
            else
              let s := with_chan_registered (with_chan_index s (ppp_channel_index e)) true in
              let st := with_chans (store st a s) ({[a]} ∪ chans st) in
              attach_publish st a arg e
        | _ => err_free st a (- ENOTSOCK)
        end
    end.

(** [sstp_do_attach] up to [fd_install] *)
Definition attach_begin st (e : attach_env) : mem (kernel * (Z + addr * attach)) :=
  match uarg e with
  | None => Ok (st, inl (- EFAULT))
  | Some arg =>
      if negb (abi_major arg =? SSTP_ABI_VERSION_MAJOR) then Ok (st, inl (- EINVAL))
      else if attach_tcp_fd arg <? 0 then Ok (st, inl (- EINVAL))
      else if negb (kzalloc e) then Ok (st, inl (- ENOMEM))
      else
        let a := next st in
        let m := if attach_mtu arg =? 0 then 1500 else attach_mtu arg in
        let st := with_next (store st a (new_session m)) (S a) in
        attach_session st a arg e
  end.

(** The rest of it: [copied] says whether the descriptor could be copied to userspace. *)
Definition attach_end st a fd (copied : bool) : mem (kernel * Z) :=
  if negb copied then
    st ← close_fd st fd;
    Ok (st, - EFAULT)
  else
    st ← sstp_demux_install_callback st a;
    st ← queue_work st a rx_work;
    Ok (st, 0).

(** ** The session file ([sstp_event.c]) *)

Inductive read_result :=
| Returned (ret : Z) (e : option sstp_event)
| Waits.

Definition SIZEOF_EVENT : Z := 16.

(** [read(2)]: the loop from its top, and [woken], from the return of [wait_event_interruptible].  An
    event whose copy fails ([fault]) is lost. *)
Definition session_read (d : session) (count : Z) (nonblock woken fault : bool) : mem (session * read_result) :=
  if count <? SIZEOF_EVENT then Ok (d, Returned (- EINVAL) None)
  else if woken && closing d then Ok (d, Returned 0 None)
  else
    '(d, e) ← sstp_session_read d;
    Ok (d, match e with
           | Some e => if fault then Returned (- EFAULT) None else Returned SIZEOF_EVENT (Some e)
           | None => if nonblock then Returned (- EAGAIN) None else if closing d then Returned 0 None else Waits
           end).

Definition EPOLLIN : Z := 0x1.
Definition EPOLLOUT : Z := 0x4.
Definition EPOLLHUP : Z := 0x10.
Definition EPOLLRDNORM : Z := 0x40.
Definition EPOLLWRNORM : Z := 0x100.

Definition sstp_session_poll (d : session) (writeable : bool) : Z :=
  let mask := if negb (evt_head d =? evt_tail d) then Z.lor EPOLLIN EPOLLRDNORM else 0 in
  if closing d then Z.lor mask EPOLLHUP
  else if writeable then Z.lor mask (Z.lor EPOLLOUT EPOLLWRNORM)
  else mask.

(** The commands with the arguments copied in; [None] is an argument that could not be copied. *)
Inductive cmd :=
| SSTP_IOC_DETACH
| SSTP_IOC_GETSTATS
| SSTP_IOC_GET_CHAN_INDEX
| SSTP_IOC_RECV_CONTROL (buf_len : option Z)
| SSTP_IOC_SEND_CONTROL (arg : option (option bytes * Z * Z)) (sendmsg : Z) (kmalloc_ok : bool)
| SSTP_IOC_REKEY_TX
| SSTP_IOC_REKEY_RX
| Other_cmd.

Inductive answer :=
| Nothing
| Stats (f : counter -> Z)
| Index (i : Z)
| Payload (b : bytes).

(** The argument of [SSTP_IOC_SEND_CONTROL] is its body (when it can be copied), [buf_len] and
    [reserved]; [fault] says that an answer cannot be copied to userspace. *)
Definition send_control (d : session) (arg : option (option bytes * Z * Z)) ret (kmalloc_ok : bool) : mem (session * Z) :=
  if closing d then Ok (d, - EPIPE)
  else
    match arg with
    | None => Ok (d, - EFAULT)
    | Some (body, buf_len, reserved) =>
        if negb (reserved =? 0) then Ok (d, - EINVAL)
        else if (buf_len =? 0) || (SSTP_CONTROL_MAX - KMOD_HEADER_LEN <? buf_len) then Ok (d, - EMSGSIZE)
        else if negb kmalloc_ok then Ok (d, - ENOMEM)
        else
          match body with
          | None => Ok (d, - EFAULT)
          | Some body => ioc_send_control d (take (Z.to_nat buf_len) body) reserved ret
          end
    end.

Definition sstp_session_ioctl (s : sstp_session) (c : cmd) (fault : bool) : mem (session * Z * answer) :=
  let d := data s in
  match c with
  | SSTP_IOC_DETACH => Ok (ioc_detach d, 0, Nothing)
  | SSTP_IOC_GETSTATS => Ok (if fault then (d, - EFAULT, Nothing) else (d, 0, Stats (stats d)))
  | SSTP_IOC_GET_CHAN_INDEX =>
      Ok (if negb (chan_registered s) then (d, - ENXIO, Nothing)
          else if fault then (d, - EFAULT, Nothing) else (d, 0, Index (chan_index s)))
  | SSTP_IOC_RECV_CONTROL None => Ok (d, - EFAULT, Nothing)
  | SSTP_IOC_RECV_CONTROL (Some buf_len) =>
      '(d, ret, b) ← ioc_recv_control d buf_len;
      Ok (if (ret <? 0) then (d, ret, Nothing)
          else if fault then (d, - EFAULT, Nothing) else (d, ret, Payload b))
  | SSTP_IOC_SEND_CONTROL arg ret ok => '(d, ret) ← send_control d arg ret ok; Ok (d, ret, Nothing)
  | SSTP_IOC_REKEY_TX | SSTP_IOC_REKEY_RX => Ok (d, ioc_rekey, Nothing)
  | Other_cmd => Ok (d, - ENOTTY, Nothing)
  end.

(** ** The device ([sstp_main.c]) *)

(** [sstp_misc_ioctl]: [capable] is [ns_capable(current_user_ns(), CAP_NET_ADMIN)], [attach_cmd] whether
    the command is [SSTP_IOC_ATTACH]. *)
Definition sstp_misc_ioctl st (attach_cmd capable : bool) (e : attach_env) : mem (kernel * (Z + addr * attach)) :=
  if attach_cmd then
    if negb capable then Ok (st, inl (- EPERM)) else attach_begin st e
  else Ok (st, inl (- ENOTTY)).

(** [sstp_init] when [misc_register] returns [ret]: the result and the mode of the registered device *)
Definition sstp_init (sstp_dev_mode ret : Z) : Z * option Z :=
  if negb (ret =? 0) then (ret, None) else (0, Some sstp_dev_mode).

(** [sstp_exit]: no device any more *)
Definition sstp_exit (registered : option Z) : option Z := None.

(** ** Pieces of code *)

Inductive op :=
| Attach (capable : bool) (e : attach_env)
| Attach_end (a : addr) (fd : Z) (copied : bool)
| Close (fd : Z)
| Dup (fd fd' : Z)
| Fput (f : nat)
| Put (a : addr)
| Softirq (h : hook) (k : nat)
| Hook (h : hook) (k : nat) (a : addr)
| Rx (a : addr) (rs : list recv)
| Tx (a : addr) (rets : list Z)
| Xmit (a : addr) (skb : bytes)
| Xmit_end (a : addr) (skb : bytes)
| Read (fd : Z) (count : Z) (nonblock woken fault : bool)
| Ioctl (fd : Z) (c : cmd) (fault : bool).

(** [start_xmit] after its look at [closing] *)
Definition start_xmit_rest (d : session) (skb : bytes) : session * Z :=
  let total := KMOD_HEADER_LEN + 2 + len skb in
  if KMOD_MAX_PACKET_LEN <? total then (inc sstp_malformed d, 1)
  else if SSTP_TX_Q_CAP <=? len (tx_q d) then (d, 0)
  else (called (with_tx_q d (tx_q d ++ [skb])) queue_tx_work, 1).

(** The session of a descriptor *)
Definition session_of st fd : option addr :=
  match fds st !! fd with
  | Some f =>
      match files st !! f with
      | Some x => match kind x with Session_file a => Some a | _ => None end
      | None => None
      end
  | None => None
  end.

(** A worker run from the queue *)
Definition run_work st a w (f : session -> mem session) : mem kernel :=
  if bool_decide ((a, w) ∈ works st) then
    let st := with_works st (works st ∖ {[(a, w)]}) in
    s ← session_at st a;
    d ← f (data s);
    Ok (set_data st a s d)
  else Ok st.

(** [__fput]: for a session file the [sstp_session_release] of [sstp_event.c], up to the [put]. *)
Definition fput_deferred st f : mem kernel :=
  if bool_decide (f ∈ delayed st) then
    x ← file_at st f;
    let st := with_delayed (with_files st (delete f (files st))) (delayed st ∖ {[f]}) in
    match kind x with
    | Session_file a =>
        s ← session_at st a;
        let st := store st a (with_data s (set_closing (data s))) in
        st ← demux_shutdown st a;
        Ok (with_releasing st ({[a]} ∪ releasing st))
    | _ => Ok st
    end
  else Ok st.

(** The [sstp_session_put] of [sstp_session_release]: it waits for the channel and the workqueue. *)
Definition busy st a : bool :=
  existsb (fun x => bool_decide (x.1 = a)) (xmits st) ||
  bool_decide ((a, rx_work) ∈ works st) || bool_decide ((a, tx_work) ∈ works st).

Definition put_released st a : mem kernel :=
  if bool_decide (a ∈ releasing st) && negb (busy st a) then
    sstp_session_put (with_releasing st (releasing st ∖ {[a]})) a
  else Ok st.

(** A callback of a socket: the stack calls it while the socket is there. *)
Definition softirq st h k : mem kernel :=
  match socks st !! k with
  | None => Ok st
  | Some sk =>
      match match h with sstp_sk_data_ready => sk_data_ready sk | sstp_sk_write_space => sk_write_space sk end with
      | Stack _ => Ok st
      | Sstp =>
          match sk_user_data sk with
          | Session a => Ok (with_hooks st ((h, k, a) :: hooks st))
          | Null => Ok st
          | Foreign _ => Panic
          end
      end
  end.

(** [l] without its first [x] *)
Fixpoint remove_one {A} `{EqDecision A} (x : A) (l : list A) : list A :=
  match l with
  | [] => []
  | y :: l => if decide (x = y) then l else y :: remove_one x l
  end.

Definition exec (stack : nat) (o : op) st : mem kernel :=
  match o with
  | Attach capable e =>
      '(st, r) ← sstp_misc_ioctl st true capable e;
      Ok (match r with
          | inr (a, arg) => with_wiring st ((a, session_fd arg) :: wiring st)
          | inl _ => st
          end)
  | Attach_end a fd copied =>
      if bool_decide ((a, fd) ∈ wiring st) then
        let st := with_wiring st (remove_one (a, fd) (wiring st)) in
        '(st, _) ← attach_end st a fd copied;
        Ok st
      else Ok st
  | Close fd => close_fd st fd
  | Dup fd fd' =>
      if bool_decide (is_Some (fds st !! fd')) then Ok st
      else
        '(st, f) ← fget st fd;
        Ok (match f with Some f => with_fds st (<[fd' := f]> (fds st)) | None => st end)
  | Fput f => fput_deferred st f
  | Put a => put_released st a
  | Softirq h k => softirq st h k
  | Hook h k a =>
      if bool_decide ((h, k, a) ∈ hooks st) then
        let st := with_hooks st (remove_one (h, k, a) (hooks st)) in
        match h with
        | sstp_sk_data_ready => data_ready_rest st a
        | sstp_sk_write_space => write_space_rest stack st k a
        end
      else Ok st
  | Rx a rs => run_work st a rx_work (fun d => sstp_rx_worker d rs)
  | Tx a rets => run_work st a tx_work (fun d => sstp_tx_worker d rets)
  | Xmit a skb =>
      if bool_decide (a ∈ chans st) then
        s ← session_at st a;
        Ok (if closing (data s) then st else with_xmits st ((a, skb) :: xmits st))
      else Ok st
  | Xmit_end a skb =>
      if bool_decide ((a, skb) ∈ xmits st) then
        let st := with_xmits st (remove_one (a, skb) (xmits st)) in
        s ← session_at st a;
        Ok (set_data st a s (start_xmit_rest (data s) skb).1)
      else Ok st
  | Read fd count nonblock woken fault =>
      match session_of st fd with
      | Some a =>
          s ← session_at st a;
          '(d, _) ← session_read (data s) count nonblock woken fault;
          Ok (set_data st a s d)
      | None => Ok st
      end
  | Ioctl fd c fault =>
      match session_of st fd with
      | Some a =>
          s ← session_at st a;
          '(d, _, _) ← sstp_session_ioctl s c fault;
          Ok (set_data st a s d)
      | None => Ok st
      end
  end.

Definition run (stack : nat) (os : list op) (st : kernel) : mem kernel :=
  foldl (fun m o => st ← m; exec stack o st) (Ok st) os.

End Life.
