(* ===== verification/KmodLifeInv.v ===== *)
(** * The invariant of the sessions of the kernel module

    Reference counts, the objects of a session, the callbacks of its socket and what is under way; and that
    closing descriptors, releasing files, the last [put] and the data path preserve it.  The attach and the
    runs are in KmodLifeProps. *)

From stdpp Require Import gmap.
From S2P Require Import Prelude SstpFrame Kmod KmodRing KmodProps KmodLife.

(** ** Counting the entries of a map *)

Section Count.
Context {I A : Type} `{Countable I} (P : A -> Prop) `{!forall x, Decision (P x)}.

Definition count (m : gmap I A) : Z := Z.of_nat (size (filter (fun p => P p.2) m)).

Definition one (x : A) : Z := if decide (P x) then 1 else 0.

Lemma count_insert m i x : m !! i = None -> count (<[i := x]> m) = one x + count m.
Proof.
  intros Hi. unfold count, one. destruct (decide (P x)).
  - rewrite map_filter_insert_True by done. rewrite map_size_insert_None; [lia|].
    apply map_lookup_filter_None. by left.
  - rewrite map_filter_insert_not'; [lia | done | by intros ? ?; simplify_eq].
Qed.

Lemma count_delete m i x : m !! i = Some x -> count m = one x + count (delete i m).
Proof.
  intros Hi. rewrite <- (insert_delete_id m i x Hi) at 1. apply count_insert. apply lookup_delete_eq.
Qed.

Lemma count_update m i x y : m !! i = Some x -> count (<[i := y]> m) = count m - one x + one y.
Proof.
  intros Hi. rewrite (count_delete m i x Hi). rewrite <- insert_delete_eq.
  rewrite count_insert by apply lookup_delete_eq. lia.
Qed.

Lemma count_nonneg m : 0 <= count m.
Proof. unfold count. lia. Qed.

Lemma count_pos m i x : m !! i = Some x -> P x -> 0 < count m.
Proof.
  intros Hi HP. rewrite (count_delete m i x Hi). pose proof (count_nonneg (delete i m)).
  unfold one. rewrite decide_True by done. lia.
Qed.

Lemma count_none m : (forall i x, m !! i = Some x -> ~ P x) -> count m = 0.
Proof.
  intros Hm. unfold count. replace (filter (fun p => P p.2) m) with (∅ : gmap I A); [by rewrite map_size_empty|].
  symmetry. apply map_empty. intros i. apply map_lookup_filter_None. right. intros x Hi. by apply (Hm i).
Qed.

End Count.

(** ** The data path of a live session *)

Section Data.
Context {K : Kernel}.

Definition data_ok (d : session) : Prop := (exists pending, inv d pending) /\ rx_bounded d.

(** [kernel_recvmsg] returns no more than it is asked for. *)
Fixpoint recv_fits (loops : nat) (d : session) (rs : list recv) : Prop :=
  match loops with
  | O => True
  | S loops =>
      closing d = false ->
      let r := match rs with r :: _ => r | [] => Errno EAGAIN end in
      fits d r /\ forall d', rx_round d r = Ok (d', true) -> recv_fits loops d' (tail rs)
  end.

Lemma data_ok_same d d' : same_control d d' -> data_ok d -> data_ok d'.
Proof.
  intros Hs [[p Hi] Hb]. split; [exists p; by eapply inv_same|]. unfold rx_bounded, rx_len in *.
  by destruct Hs as (-> & _ & _ & -> & _).
Qed.

Lemma rx_worker_ok d rs : recv_fits 64 d rs -> data_ok d -> exists d', sstp_rx_worker d rs = Ok d' /\ data_ok d'.
Proof.
  unfold sstp_rx_worker. generalize 64%nat as loops. intros loops. revert d rs.
  induction loops as [|loops IH]; intros d rs Hf Hok; cbn [rx_loop].
  - exists (called d queue_rx_work). split; [done|]. apply (data_ok_same d); [apply same_control_called | done].
  - destruct (closing d) eqn:Hc; [by exists d|]. cbn [recv_fits] in Hf. destruct (Hf Hc) as [Hfit Hgo].
    destruct Hok as [[p Hi] Hb]. destruct (rx_round_inv d _ p Hi Hc (Hb Hc) Hfit) as (d1 & go & E & Hi1 & Hb1).
    rewrite E. cbn [mbind res_bind]. destruct go; [|exists d1; split; [done|]; split; [by exists p|done]].
    apply IH; [by apply Hgo|]. split; [by exists p | done].
Qed.

Lemma tx_worker_ok d rets : data_ok d -> exists d', sstp_tx_worker d rets = Ok d' /\ data_ok d'.
Proof.
  intros Hok. assert (exists d1 dr, tx_loop 8 false d rets = Ok (d1, dr) /\ data_ok d1) as (d1 & dr & E & H1).
  { generalize 8%nat as loops, false as drained. intros loops. revert d rets Hok.
    induction loops as [|loops IH]; intros d rets Hok drained; cbn [tx_loop].
    - eexists _, _. split; [done|]. apply (data_ok_same d); [apply same_control_called | done].
    - destruct (closing d) eqn:Hc; [by eexists _, _|].
      destruct Hok as [[p Hi] Hb].
      destruct (tx_round_inv d (match rets with r :: _ => r | [] => - EAGAIN end) p Hi Hc (Hb Hc)) as (d1 & go & E & Hi1 & Hb1).
      rewrite E. cbn [mbind res_bind]. assert (data_ok d1) by (split; [by exists p | done]).
      destruct go; [by apply IH | by eexists _, _]. }
  unfold sstp_tx_worker. rewrite E. cbn [mbind res_bind]. destruct (_ && _); [|by eexists].
  eexists. split; [done|]. apply (data_ok_same d1); [apply same_control_called | done].
Qed.

Lemma start_xmit_rest_ok d skb : data_ok d -> data_ok (start_xmit_rest d skb).1.
Proof.
  intros Hok. unfold start_xmit_rest. repeat case_match; try done; simpl.
  - apply (data_ok_same d); [by apply same_control_inc | done].
  - eapply data_ok_same; [|done]. eapply same_control_trans; [apply same_control_tx | apply same_control_called].
Qed.

(** [start_xmit] is its two halves. *)
Lemma start_xmit_halves d skb :
  sstp_chan_start_xmit d skb = if closing d then (d, 1) else start_xmit_rest d skb.
Proof. done. Qed.

Lemma read_ok d count nonblock woken fault :
  data_ok d -> exists d' r, session_read d count nonblock woken fault = Ok (d', r) /\ data_ok d'.
Proof.
  intros Hok. unfold session_read. destruct (_ <? _); [by eexists _, _|]. destruct (_ && _); [by eexists _, _|].
  destruct Hok as [[p Hi] Hb]. destruct (read_event_inv d p Hi) as (d' & -> & (_ & Hq & _) & Hc & Hi').
  cbn [mbind res_bind]. eexists _, _. split; [done|]. split; [eauto|]. unfold rx_bounded, rx_len in *. by rewrite Hq, Hc.
Qed.

(** Userspace asks for a control packet when it has read the event of one. *)
Definition asks_when_told (d : session) (c : cmd) : Prop :=
  match c with
  | SSTP_IOC_RECV_CONTROL (Some _) => frames_of d = [] \/ (length (control_events d) < length (frames_of d))%nat
  | _ => True
  end.

Lemma recv_control_data_ok d n :
  asks_when_told d (SSTP_IOC_RECV_CONTROL (Some n)) -> data_ok d ->
  exists d' rc p, ioc_recv_control d n = Ok (d', rc, p) /\ data_ok d'.
Proof.
  intros Hask [[p Hi] Hb]. assert (Hrest : forall d', rx_buf d' = rx_buf d -> closing d' = closing d -> rx_bounded d').
  { intros d' Hq Hc. unfold rx_bounded, rx_len in *. by rewrite Hq, Hc. }
  destruct (decide (ctrl_q_head d = ctrl_q_tail d)) as [E|E].
  - unfold ioc_recv_control. rewrite E, Z.eqb_refl. cbn [negb]. eexists _, _, _. split; [done|]. split; [by exists p | done].
  - destruct p as [|p].
    + destruct Hi as [He Hf ? Hc ? ?]. destruct Hask as [Hnil|Hlt]; [|lia].
      exfalso. apply E. pose proof (ring_length SSTP_CTRL_Q_CAP ctrl_cap_pos _ _ _ Hf) as Hu.
      change (ring _ _ _ _) with (frames_of d) in Hu. rewrite Hnil in Hu. destruct Hf as (_ & ? & ?).
      unfold used, SSTP_CTRL_Q_CAP in *. cbn in Hu. Z.to_euclidean_division_equations. lia.
    + destruct (recv_control_inv d n p Hi) as (d' & rc & q & -> & Hi' & Hq & Hc). eexists _, _, _. split; [done|].
      split; [by exists p | by apply Hrest].
Qed.

Lemma ioctl_ok s c fault :
  asks_when_told (data s) c -> data_ok (data s) ->
  exists d r ans, sstp_session_ioctl s c fault = Ok (d, r, ans) /\ data_ok d.
Proof.
  intros Hask Hok. unfold sstp_session_ioctl. destruct c as [| | |[n|]|arg ret ok| | |].
  - eexists _, _, _. split; [done|]. destruct Hok as [[p Hi] Hb]. split; [exists p; by apply set_closing_inv | done].
  - destruct fault; by eexists _, _, _.
  - destruct (negb _), fault; by eexists _, _, _.
  - destruct (recv_control_data_ok (data s) n Hask Hok) as (d & rc & b & -> & Hd). cbn [mbind res_bind].
    destruct (rc <? 0), fault; by eexists _, _, _.
  - by eexists _, _, _.
  - assert (exists d r, send_control (data s) arg ret ok = Ok (d, r) /\ data_ok d) as (d & r & -> & Hd).
    { unfold send_control. destruct (closing (data s)); [by eexists _, _|].
      destruct arg as [[[body n] reserved]|]; [|by eexists _, _]. destruct (negb (_ =? _)); [by eexists _, _|].
      destruct (_ || _); [by eexists _, _|]. destruct ok; [|by eexists _, _]. destruct body as [body|]; [|by eexists _, _].
      destruct Hok as [[p Hi] Hb].
      destruct (send_control_inv (data s) (take (Z.to_nat n) body) reserved ret p Hi Hb) as (d & r & E & Hi' & Hb').
      eexists _, _. split; [exact E|]. split; [by exists p | done]. }
    cbn [mbind res_bind]. by eexists _, _, _.
  - by eexists _, _, _.
  - by eexists _, _, _.
  - by eexists _, _, _.
Qed.

Lemma attached_ok : data_ok attached.
Proof. split; [exists 0%nat; apply attached_inv | done]. Qed.

(** The loop of the release empties the queue of control packets. *)
Lemma drop_ctrl_q_ok d :
  data_ok d -> let d' := drop_ctrl_q (Z.to_nat SSTP_CTRL_Q_CAP) d in
  ctrl_q_head d' = ctrl_q_tail d' /\ tx_q d' = tx_q d.
Proof.
  intros [[p [_ Hf _ _ _ _]] _]. destruct Hf as (_ & Hh & Ht).
  assert (G : forall fuel d, 0 <= ctrl_q_head d < 8 -> 0 <= ctrl_q_tail d < 8 ->
    (ctrl_q_head d - ctrl_q_tail d) mod 8 < Z.of_nat fuel ->
    ctrl_q_head (drop_ctrl_q fuel d) = ctrl_q_tail (drop_ctrl_q fuel d) /\ tx_q (drop_ctrl_q fuel d) = tx_q d).
  { clear. induction fuel as [|fuel IH]; intros d Hh Ht Hu.
    - pose proof (Z.mod_pos_bound (ctrl_q_head d - ctrl_q_tail d) 8). lia.
    - cbn [drop_ctrl_q]. destruct (Z.eqb_spec (ctrl_q_head d) (ctrl_q_tail d)); [done|].
      destruct (IH (with_ctrl_q d (ctrl_q d) (ctrl_q_head d) ((ctrl_q_tail d + 1) mod SSTP_CTRL_Q_CAP))); cbn in *;
        unfold SSTP_CTRL_Q_CAP in *; [done | lia | lia | done]. }
  apply G; unfold SSTP_CTRL_Q_CAP in *; lia.
Qed.

End Data.

(** ** Open files *)

(** The references to a file: descriptors and sessions *)
Definition refs (fd : gmap Z nat) (hp : gmap addr sstp_session) (f : nat) : Z :=
  count (fun g => g = f) fd + count (fun s => tcp_file s = Some f) hp.

(** [held] is a file for which the running call has a reference. *)
Record files_ok (held : option nat) (fl : gmap nat file) (fd : gmap Z nat) (del : gset nat) (nf : nat)
    (hp : gmap addr sstp_session) : Prop := {
  fo_count f x : fl !! f = Some x -> f_count x = refs fd hp f + if decide (held = Some f) then 1 else 0;
  fo_delayed f : f ∈ del <-> exists x, fl !! f = Some x /\ f_count x = 0;
  fo_fds i f : fd !! i = Some f -> is_Some (fl !! f);
  fo_fresh f : is_Some (fl !! f) -> (f < nf)%nat
}.

Definition same_kinds (fl fl' : gmap nat file) : Prop := kind <$> fl' = kind <$> fl.

Lemma same_kinds_count fl f x n : fl !! f = Some x -> same_kinds fl (<[f := File (kind x) n]> fl).
Proof. intros Hx. unfold same_kinds. rewrite fmap_insert, insert_id; [done|]. by rewrite lookup_fmap, Hx. Qed.

Lemma refs_nonneg fd hp f : 0 <= refs fd hp f.
Proof.
  pose proof (count_nonneg (fun g => g = f) fd). pose proof (count_nonneg (fun s => tcp_file s = Some f) hp).
  unfold refs. lia.
Qed.

Section Files.
Context {fl : gmap nat file} {fd : gmap Z nat} {del : gset nat} {nf : nat} {hp : gmap addr sstp_session}.

(** A reference is taken from a descriptor or a session, or given to one. *)
Lemma held_from_fd i f :
  files_ok None fl fd del nf hp -> fd !! i = Some f -> files_ok (Some f) fl (delete i fd) del nf hp.
Proof.
  intros [Hc Hd Hf Hn] Hi. constructor; try done.
  - intros g x Hx. rewrite (Hc g x Hx). unfold refs. rewrite (count_delete _ fd i f Hi). unfold one.
    repeat case_decide; simplify_eq; lia.
  - intros j g. rewrite lookup_delete_Some. intros [_ ?]. by eapply Hf.
Qed.

Lemma held_from_session a s f :
  files_ok None fl fd del nf hp -> hp !! a = Some s -> tcp_file s = Some f ->
  files_ok (Some f) fl fd del nf (delete a hp).
Proof.
  intros [Hc Hd Hf Hn] Ha Hs. constructor; try done.
  intros g x Hx. rewrite (Hc g x Hx). unfold refs. rewrite (count_delete _ hp a s Ha). unfold one.
  repeat case_decide; simplify_eq; lia.
Qed.

Lemma held_to_fd i f :
  files_ok (Some f) fl fd del nf hp -> is_Some (fl !! f) -> fd !! i = None ->
  files_ok None fl (<[i := f]> fd) del nf hp.
Proof.
  intros [Hc Hd Hf Hn] Hfl Hi. constructor; try done.
  - intros g x Hx. rewrite (Hc g x Hx). unfold refs. rewrite (count_insert _ fd i f Hi). unfold one.
    repeat case_decide; simplify_eq; lia.
  - intros j g. rewrite lookup_insert_Some. intros [[<- <-]|[_ ?]]; [done | by eapply Hf].
Qed.

Lemma held_to_session a s f :
  files_ok (Some f) fl fd del nf hp -> hp !! a = None -> tcp_file s = Some f ->
  files_ok None fl fd del nf (<[a := s]> hp).
Proof.
  intros [Hc Hd Hf Hn] Ha Hs. constructor; try done.
  intros g x Hx. rewrite (Hc g x Hx). unfold refs. rewrite (count_insert _ hp a s Ha). unfold one.
  repeat case_decide; simplify_eq; lia.
Qed.

(** Sessions that keep their file do not count. *)
Lemma files_ok_heap held hp' :
  (forall f, count (fun s => tcp_file s = Some f) hp' = count (fun s => tcp_file s = Some f) hp) ->
  files_ok held fl fd del nf hp -> files_ok held fl fd del nf hp'.
Proof. intros E [Hc Hd Hf Hn]. constructor; try done. intros g x Hx. unfold refs. rewrite E. by apply Hc. Qed.

Lemma files_ok_update held a s s' :
  hp !! a = Some s -> tcp_file s' = tcp_file s ->
  files_ok held fl fd del nf hp -> files_ok held fl fd del nf (<[a := s']> hp).
Proof.
  intros Ha E. apply files_ok_heap. intros f. rewrite (count_update _ hp a s s' Ha). unfold one. rewrite E. lia.
Qed.

Lemma session_file_there held a s f :
  files_ok held fl fd del nf hp -> hp !! a = Some s -> tcp_file s = Some f -> forall x, fl !! f = Some x -> 0 < f_count x.
Proof.
  intros [Hc _ _ _] Ha Hs x Hx. rewrite (Hc f x Hx). unfold refs.
  pose proof (count_pos (fun s => tcp_file s = Some f) hp a s Ha Hs). pose proof (count_nonneg (fun g => g = f) fd).
  case_decide; lia.
Qed.

Lemma fd_file_there held i f :
  files_ok held fl fd del nf hp -> fd !! i = Some f -> exists x, fl !! f = Some x /\ 0 < f_count x.
Proof.
  intros [Hc _ Hf _] Hi. destruct (Hf i f Hi) as [x Hx]. exists x. split; [done|]. rewrite (Hc f x Hx). unfold refs.
  pose proof (count_pos (fun g => g = f) fd i f Hi eq_refl).
  pose proof (count_nonneg (fun s => tcp_file s = Some f) hp). case_decide; lia.
Qed.

(** A file whose count is zero goes away. *)
Lemma files_ok_gone f :
  files_ok None fl fd del nf hp -> f ∈ del -> files_ok None (delete f fl) fd (del ∖ {[f]}) nf hp.
Proof.
  intros Hok Hin. pose proof Hok as [Hc Hd Hf Hn]. apply Hd in Hin as (x & Hx & Hx0).
  constructor.
  - intros g y. rewrite lookup_delete_Some. intros [_ ?]. by apply Hc.
  - intros g. rewrite elem_of_difference, elem_of_singleton, Hd. setoid_rewrite lookup_delete_Some. naive_solver.
  - intros i g Hi. destruct (fd_file_there None i g Hok Hi) as (y & Hy & Hpos). exists y.
    apply lookup_delete_Some. split; [|done]. intros ->. simplify_eq. lia.
  - intros g [y [_ Hy]%lookup_delete_Some]. apply Hn. by exists y.
Qed.

(** A new file in the hands of the running call *)
Lemma files_ok_new k :
  files_ok None fl fd del nf hp -> (forall a s, hp !! a = Some s -> tcp_file s <> Some nf) ->
  files_ok (Some nf) (<[nf := File k 1]> fl) fd del (S nf) hp.
Proof.
  intros Hok Hnone. pose proof Hok as [Hc Hd Hf Hn].
  assert (Hnew : fl !! nf = None) by (apply eq_None_not_Some; intros ?%Hn; lia).
  constructor.
  - intros g x. rewrite lookup_insert_Some. intros [[<- <-]|[Hne Hx]].
    + rewrite decide_True by done. cbn. enough (refs fd hp nf = 0) by lia. unfold refs.
      rewrite !count_none; [done | by apply Hnone |]. intros i f Hi ->. destruct (Hf i nf Hi). congruence.
    + rewrite (Hc g x Hx). rewrite !decide_False by congruence. done.
  - intros g. rewrite Hd. setoid_rewrite lookup_insert_Some. split.
    + intros (x & Hx & H0). exists x. split; [right; split; [|done] | done]. intros ->. congruence.
    + intros (x & [[<- <-]|[_ Hx]] & H0); [done | by exists x].
  - intros i f Hi. destruct (Hf i f Hi) as [x Hx]. exists x. rewrite lookup_insert_ne; [done|]. intros ->. congruence.
  - intros g [x [[<- _]|[_ Hx]]%lookup_insert_Some]; [lia|]. assert (is_Some (fl !! g)) as ?%Hn by (by exists x). lia.
Qed.

End Files.

Definition st_files_ok held (st : kernel) : Prop :=
  files_ok held (files st) (fds st) (delayed st) (next_file st) (heap st).

(** [fget] gives the running call a reference, [fput] takes it. *)
Lemma fget_ok st i f :
  st_files_ok None st -> fds st !! i = Some f ->
  exists x fl, fget st i = Ok (with_files st fl, Some f) /\ files st !! f = Some x /\ same_kinds (files st) fl /\
    fl = <[f := File (kind x) (f_count x + 1)]> (files st) /\ st_files_ok (Some f) (with_files st fl).
Proof.
  intros Hok Hi. destruct (fd_file_there None i f Hok Hi) as (x & Hx & Hpos). pose proof Hok as [Hc Hd Hf Hn].
  unfold fget. rewrite Hi. unfold file_at. rewrite Hx. cbn [mbind res_bind]. eexists x, _. split_and!; [done..| |done|].
  { by apply same_kinds_count. }
  constructor; cbn.
  - intros g y. rewrite lookup_insert_Some. intros [[<- <-]|[Hne Hy]].
    + rewrite decide_True by done. cbn. rewrite (Hc f x Hx), decide_False by done. lia.
    + rewrite (Hc g y Hy), !decide_False by congruence. done.
  - intros g. rewrite Hd. setoid_rewrite lookup_insert_Some. split.
    + intros (y & Hy & H0). exists y. split; [|done]. right. split; [|done]. intros ->. simplify_eq. lia.
    + intros (y & [[<- <-]|[_ Hy]] & H0); [cbn in H0; lia | by exists y].
  - intros j g Hj. destruct (decide (g = f)) as [->|]; [rewrite lookup_insert_eq | rewrite lookup_insert_ne by done]; eauto.
  - intros g [y [[<- _]|[_ Hy]]%lookup_insert_Some]; eauto.
Qed.

Lemma fput_ok st f :
  st_files_ok (Some f) st -> is_Some (files st !! f) ->
  exists x fl del, fput st f = Ok (with_delayed (with_files st fl) del) /\ files st !! f = Some x /\
    fl = <[f := File (kind x) (f_count x - 1)]> (files st) /\
    del = (if f_count x =? 1 then {[f]} ∪ delayed st else delayed st) /\
    same_kinds (files st) fl /\ st_files_ok None (with_delayed (with_files st fl) del).
Proof.
  intros [Hc Hd Hf Hn] [x Hx]. pose proof (Hc f x Hx) as Hcx. rewrite decide_True in Hcx by done.
  pose proof (refs_nonneg (fds st) (heap st) f). unfold fput, file_at. rewrite Hx. cbn [mbind res_bind].
  replace (f_count x <=? 0) with false by lia.
  exists x, (<[f := File (kind x) (f_count x - 1)]> (files st)), (if f_count x =? 1 then {[f]} ∪ delayed st else delayed st).
  split_and!; [by destruct (f_count x =? 1); destruct st | done | done | done | by apply same_kinds_count |].
  constructor; cbn.
  - intros g y. rewrite lookup_insert_Some. rewrite decide_False by done. intros [[<- <-]|[Hne Hy]]; cbn; [lia|].
    rewrite (Hc g y Hy), decide_False by congruence. done.
  - intros g. setoid_rewrite lookup_insert_Some.
    assert (Hg : g ∈ (if f_count x =? 1 then {[f]} ∪ delayed st else delayed st) <-> (g = f /\ f_count x = 1) \/ g ∈ delayed st).
    { destruct (Z.eqb_spec (f_count x) 1); [rewrite elem_of_union, elem_of_singleton|]; intuition. }
    rewrite Hg, Hd. split.
    + intros [[-> H1]|(y & Hy & H0)]; [eexists; split; [by left | cbn; lia]|].
      exists y. split; [|done]. right. split; [|done]. intros ->. simplify_eq. lia.
    + intros (y & [[<- <-]|[_ Hy]] & H0); [left; cbn in H0; split; [done|lia] | right; by exists y].
  - intros j g Hj. destruct (decide (g = f)) as [->|]; [rewrite lookup_insert_eq | rewrite lookup_insert_ne by done]; eauto.
  - intros g [y [[<- _]|[_ Hy]]%lookup_insert_Some]; eauto.
Qed.

(** ** The invariant *)

Definition kind_at (st : kernel) (f : nat) : option file_kind := kind <$> files st !! f.

(** A session whose file is not being released. *)
Definition live (st : kernel) (a : addr) : Prop := is_Some (heap st !! a) /\ a ∉ releasing st.

Definition uses (s : sstp_session) (k : nat) : Prop := tcp_sock s = Some k.

Section Invariant.
Context {K : Kernel} (orig : gmap nat sock).

(** The socket of a session: hooked, with the callbacks it had kept in the session, or as it was. *)
Definition socket_ok (st : kernel) (a : addr) (s : sstp_session) (k : nat) (o : sock) : Prop :=
  if cb_installed s then
    (a ∉ releasing st) /\ socks st !! k = Some (with_callbacks o Sstp Sstp (Session a)) /\
    saved_data_ready s = sk_data_ready o /\ saved_write_space s = sk_write_space o /\
    saved_user_data s = sk_user_data o
  else socks st !! k = Some o.

Record session_ok (st : kernel) (a : addr) (s : sstp_session) : Prop := {
  so_ref : ref s = 1;
  so_wq : wq s = true;
  so_chan : chan_registered s = true;
  so_saved : exists n, saved_write_space s = Stack n;
  so_data : data_ok (data s);
  so_sock : exists f k o, tcp_file s = Some f /\ tcp_sock s = Some k /\ kind_at st f = Some (Socket k) /\
              orig !! k = Some o /\ socket_ok st a s k o;
  so_releasing : a ∈ releasing st -> closing (data s) = true /\ tx_q (data s) = []
}.

(** Nothing of a freed session is left. *)
Definition nothing_queued (s : sstp_session) : Prop :=
  tx_q (data s) = [] /\ ctrl_q_head (data s) = ctrl_q_tail (data s) /\ cb_installed s = false.

Record life (st : kernel) : Prop := {
  l_files : st_files_ok None st;
  l_session a s : heap st !! a = Some s -> session_ok st a s;
  l_fresh a : is_Some (heap st !! a) -> (a < next st)%nat;
  l_objects : bufs st = dom (heap st) /\ wqs st = dom (heap st) /\ chans st = dom (heap st);
  l_file f a : kind_at st f = Some (Session_file a) -> live st a;
  l_file_one f g a : kind_at st f = Some (Session_file a) -> kind_at st g = Some (Session_file a) -> f = g;
  l_owned a : live st a -> exists f, kind_at st f = Some (Session_file a);
  l_releasing a : a ∈ releasing st -> is_Some (heap st !! a);
  l_socks k : (forall a s, heap st !! a = Some s -> ~ uses s k) -> socks st !! k = orig !! k;
  l_socket f k : kind_at st f = Some (Socket k) -> is_Some (orig !! k);
  l_one a b s t k : heap st !! a = Some s -> heap st !! b = Some t -> uses s k -> uses t k -> a = b;
  l_works a w : (a, w) ∈ works st -> live st a;
  l_wiring a fd : (a, fd) ∈ wiring st -> live st a /\ forall s, heap st !! a = Some s -> cb_installed s = false;
  l_wiring_one : NoDup (wiring st).*1;
  l_hooks h k a : (h, k, a) ∈ hooks st -> live st a;
  l_xmits a skb : (a, skb) ∈ xmits st -> live st a;
  l_freed : Forall nothing_queued (freed st)
}.

(** Callbacks of the stack *)
Definition pristine : Prop :=
  forall k o, orig !! k = Some o -> exists n m, sk_data_ready o = Stack n /\ sk_write_space o = Stack m.

Lemma session_at_ok st a s : heap st !! a = Some s -> session_at st a = Ok s.
Proof. intros Ha. unfold session_at. by rewrite Ha. Qed.

Lemma live_session st a : life st -> live st a -> exists s, heap st !! a = Some s /\ session_ok st a s.
Proof. intros Hl [[s Ha] _]. exists s. split; [done | by apply (l_session st Hl)]. Qed.

(** Work, callbacks and the like under way do not matter to the sessions, as long as they are live. *)
Lemma life_flight st wk wi ho xm :
  life st ->
  (forall a w, (a, w) ∈ wk -> live st a) ->
  (forall a fd, (a, fd) ∈ wi -> live st a /\ forall s, heap st !! a = Some s -> cb_installed s = false) ->
  NoDup wi.*1 ->
  (forall h k a, (h, k, a) ∈ ho -> live st a) ->
  (forall a skb, (a, skb) ∈ xm -> live st a) ->
  life (with_xmits (with_hooks (with_wiring (with_works st wk) wi) ho) xm).
Proof.
  intros [Hf Hs Hfr Ho Hl H1 Hw Hr Hk Hsk Hone _ _ _ _ _ Hfd] Hwk Hwi Hnd Hho Hxm.
  constructor; try done. intros a s Ha. destruct (Hs a s Ha). by constructor.
Qed.

Lemma life_works st wk : life st -> (forall a w, (a, w) ∈ wk -> live st a) -> life (with_works st wk).
Proof. intros Hl Hwk. apply (life_flight st wk (wiring st) (hooks st) (xmits st)); try done; apply Hl. Qed.

Lemma life_queue_work st a w : life st -> live st a -> exists st', queue_work st a w = Ok st' /\ life st' /\
  st' = with_works st ({[(a, w)]} ∪ works st).
Proof.
  intros Hl Ha. destruct (live_session st a Hl Ha) as (s & Hs & Hok). unfold queue_work.
  rewrite (session_at_ok st a s Hs). cbn [mbind res_bind]. rewrite (so_wq _ _ _ Hok).
  destruct (l_objects st Hl) as (_ & Hwq & _). rewrite bool_decide_true by (rewrite Hwq; by eapply elem_of_dom_2).
  cbn [andb]. eexists. split; [done|]. split; [|done]. apply life_works; [done|].
  intros b v [[= -> ->]%elem_of_singleton|]%elem_of_union; [done | by eapply (l_works st Hl)].
Qed.

(** One session changes its data. *)
Lemma live_store st a s b : is_Some (heap st !! a) -> live (store st a s) b <-> live st b.
Proof.
  intros [x Ha]. unfold live. cbn. destruct (decide (b = a)) as [->|].
  - rewrite lookup_insert_eq, Ha. split; intros [_ ?]; split; [by eexists | done | by eexists | done].
  - by rewrite lookup_insert_ne.
Qed.

(** One session changes: not its file, its socket or its reference count. *)
Lemma life_store st a s s' :
  life st -> heap st !! a = Some s -> session_ok st a s' ->
  tcp_file s' = tcp_file s -> tcp_sock s' = tcp_sock s -> cb_installed s' = cb_installed s -> life (store st a s').
Proof.
  intros [Hf Hs Hfr Ho Hl H1 Hw Hr Hk Hsk Hone Hwo Hwi Hnd Hho Hxm Hfd] Ha Hs' Ef Ek Ec.
  assert (Hlive : forall b, live (store st a s') b <-> live st b) by (intros b; apply live_store; by eexists).
  assert (Hdom : dom (<[a := s']> (heap st)) = dom (heap st)) by (apply dom_insert_lookup_L; by eexists).
  assert (Hget : forall b t, <[a := s']> (heap st) !! b = Some t -> exists t0, heap st !! b = Some t0 /\
    tcp_sock t = tcp_sock t0 /\ cb_installed t = cb_installed t0).
  { intros b t. rewrite lookup_insert_Some. intros [[<- <-]|[_ ?]]; [by exists s | by exists t]. }
  constructor; cbn; try done.
  - by eapply files_ok_update.
  - intros b t. rewrite lookup_insert_Some. intros [[<- <-]|[_ Hb]]; [by destruct Hs'; constructor|].
    destruct (Hs b t Hb). by constructor.
  - intros b [t (t0 & Hb & _)%Hget]. apply Hfr. by exists t0.
  - by rewrite Hdom.
  - intros f b Hb. apply Hlive. by eapply Hl.
  - intros b Hb%Hlive. by apply Hw.
  - intros b Hb. destruct (decide (b = a)) as [->|]; [rewrite lookup_insert_eq | rewrite lookup_insert_ne by done]; eauto.
  - intros k Hno. apply Hk. intros b t Hb. destruct (decide (b = a)) as [->|Hne].
    + simplify_eq. unfold uses. rewrite <- Ek. apply (Hno a). by rewrite lookup_insert_eq.
    + apply (Hno b). by rewrite lookup_insert_ne.
  - intros b c t u k (t0 & Hb & Eb & _)%Hget (u0 & Hc & Ec' & _)%Hget. unfold uses. rewrite Eb, Ec'. by apply Hone.
  - intros b w Hin. apply Hlive. by eapply Hwo.
  - intros b fd Hin. destruct (Hwi b fd Hin) as [? Hcb]. split; [by apply Hlive|].
    intros t (t0 & Hb & _ & ->)%Hget. by apply Hcb.
  - intros h k b Hin. apply Hlive. by eapply Hho.
  - intros b skb Hin. apply Hlive. by eapply Hxm.
Qed.

Lemma session_ok_data st a s d :
  session_ok st a s -> data_ok d -> (a ∈ releasing st -> closing d = true /\ tx_q d = []) -> session_ok st a (with_data s d).
Proof. by intros [? ? ? ? ? ? ?] ? ?; constructor. Qed.

Lemma life_data st a s d :
  life st -> heap st !! a = Some s -> a ∉ releasing st -> data_ok d -> life (set_data st a s d).
Proof.
  intros Hl Ha Hr Hd. unfold set_data.
  assert (H1 : life (store st a (with_data s d))).
  { eapply life_store; [done|done| |done..]. apply session_ok_data; [by apply (l_session st Hl) | done | done]. }
  apply (life_works (store st a (with_data s d))); [done|].
  intros b w. rewrite elem_of_union, elem_of_list_to_set, list_elem_of_fmap. intros [(v & [= -> ->] & _)|Hin].
  - split; [cbn; by rewrite lookup_insert_eq | done].
  - by eapply (l_works _ H1).
Qed.

(** Files change, but not their kinds. *)
Lemma life_files st fl fd del :
  life st -> same_kinds (files st) fl -> files_ok None fl fd del (next_file st) (heap st) ->
  life (with_delayed (with_fds (with_files st fl) fd) del).
Proof.
  intros [Hf Hs Hfr Ho Hl H1 Hw Hr Hk Hsk Hone Hwo Hwi Hnd Hho Hxm Hfd] Hkinds Hok.
  assert (Hat : forall f, kind_at (with_delayed (with_fds (with_files st fl) fd) del) f = kind_at st f).
  { intros f. unfold kind_at. cbn. rewrite <- !lookup_fmap. by rewrite Hkinds. }
  constructor; try done.
  - intros a s Ha. destruct (Hs a s Ha) as [? ? ? ? ? Hsock ?]. constructor; try done.
    destruct Hsock as (f & k & o & ? & ? & ? & ? & ?). exists f, k, o. by rewrite Hat.
  - intros f a. rewrite Hat. apply Hl.
  - intros f g a. rewrite !Hat. apply H1.
  - intros a Ha. destruct (Hw a Ha) as [f Hf']. exists f. by rewrite Hat.
  - intros f k. rewrite Hat. apply Hsk.
Qed.

Lemma life_close st fd : life st -> exists st', close_fd st fd = Ok st' /\ life st' /\
  heap st' = heap st /\ wiring st' = wiring st /\ hooks st' = hooks st /\ xmits st' = xmits st /\ socks st' = socks st.
Proof.
  intros Hl. unfold close_fd. destruct (fds st !! fd) as [f|] eqn:Hfd; [|by eexists].
  pose proof (l_files st Hl) as Hok. pose proof (held_from_fd fd f Hok Hfd) as Hheld.
  destruct (fput_ok (with_fds st (delete fd (fds st))) f Hheld) as (x & fl & del & -> & _ & _ & _ & Hk & Hok').
  { cbn. by apply (fo_fds _ _ _ _ _ _ Hok fd). }
  eexists. split; [done|]. split; [|done]. by apply life_files.
Qed.

Lemma life_dup st fd fd' : life st -> fds st !! fd' = None -> exists fl f, fget st fd = Ok (with_files st fl, f) /\
  life (match f with Some f => with_fds (with_files st fl) (<[fd' := f]> (fds st)) | None => with_files st fl end).
Proof.
  intros Hl Hfree. destruct (fds st !! fd) as [f|] eqn:Hfd.
  - pose proof (l_files st Hl) as Hok. destruct (fget_ok st fd f Hok Hfd) as (x & fl & E & Hx & Hk & -> & Hheld).
    eexists _, (Some f). split; [exact E|]. cbn [with_fds with_files].
    change (life (with_delayed (with_fds (with_files st (<[f := File (kind x) (f_count x + 1)]> (files st))) (<[fd' := f]> (fds st))) (delayed st))).
    apply life_files; [done|done|].
    apply held_to_fd; [done | cbn; by rewrite lookup_insert_eq | done].
  - exists (files st), None. unfold fget. rewrite Hfd. by destruct st.
Qed.

(** A file that no session uses goes away. *)
Lemma life_file_gone st f :
  life st -> f ∈ delayed st -> (forall a, kind_at st f <> Some (Session_file a)) ->
  life (with_delayed (with_files st (delete f (files st))) (delayed st ∖ {[f]})).
Proof.
  intros [Hf Hs Hfr Ho Hl H1 Hw Hr Hk Hsk Hone Hwo Hwi Hnd Hho Hxm Hfd] Hin Hkind.
  set (st' := with_delayed _ _).
  assert (Hat : forall g, g <> f -> kind_at st' g = kind_at st g).
  { intros g Hg. unfold kind_at. cbn. by rewrite lookup_delete_ne. }
  assert (Hnone : kind_at st' f = None) by (unfold kind_at; cbn; by rewrite lookup_delete_eq).
  assert (Hsome : forall g x, kind_at st' g = Some x -> kind_at st g = Some x).
  { intros g x. destruct (decide (g = f)) as [->|]; [by rewrite Hnone | by rewrite Hat]. }
  constructor; try done.
  - by apply files_ok_gone.
  - intros a s Ha. destruct (Hs a s Ha) as [? ? ? ? ? Hsock ?]. constructor; try done.
    destruct Hsock as (g & k & o & Hg & ? & Hkg & ? & ?). exists g, k, o. rewrite Hat; [done|].
    intros ->. apply (fo_delayed _ _ _ _ _ _ Hf) in Hin as (x & Hx & Hz).
    pose proof (session_file_there None a s f Hf Ha Hg x Hx). lia.
  - intros g a Hg%Hsome. by eapply Hl.
  - intros g h a Hg%Hsome Hh%Hsome. by eapply H1.
  - intros a Ha. destruct (Hw a Ha) as [g Hg]. exists g. rewrite Hat; [done|]. intros ->. by eapply Hkind.
  - intros g k Hg%Hsome. by eapply Hsk.
Qed.

(** The shutdown of a session: nothing looks at it any more, so it can be freed. *)
Definition unwatched (st : kernel) (a : addr) : Prop :=
  (forall fd, (a, fd) ∉ wiring st) /\ (forall h k, (h, k, a) ∉ hooks st) /\ (forall skb, (a, skb) ∉ xmits st).

Lemma with_callbacks_back o a : with_callbacks (with_callbacks o Sstp Sstp (Session a))
  (sk_data_ready o) (sk_write_space o) (sk_user_data o) = o.
Proof. by destruct o. Qed.

(** The state after the shutdown *)
Definition shut (st : kernel) (f : nat) (a : addr) (s : sstp_session) : kernel :=
  let s' := with_data s (set_closing (data s)) in
  let s'' := if cb_installed s then with_cb_installed s' false else s' in
  let sk := match tcp_sock s with Some k => if cb_installed s then partial_alter (fun _ => orig !! k) k (socks st) else socks st
                                | None => socks st end in
  Kernel_state (<[a := with_data s'' (sstp_demux_shutdown (data s''))]> (heap st)) (bufs st) (wqs st) (chans st) sk
    (delete f (files st)) (fds st) (delayed st ∖ {[f]}) (works st ∖ {[(a, rx_work); (a, tx_work)]}) (wiring st) (hooks st)
    (xmits st) ({[a]} ∪ releasing st) (next st) (next_file st) (freed st).

Lemma fput_session_eq st f a s :
  life st -> f ∈ delayed st -> kind_at st f = Some (Session_file a) -> heap st !! a = Some s ->
  fput_deferred st f = Ok (shut st f a s).
Proof.
  intros Hl Hin Hkind Ha. unfold fput_deferred, kind_at in *. rewrite bool_decide_true by done.
  unfold file_at. destruct (files st !! f) as [x|] eqn:Hx; [|done]. cbn in Hkind. injection Hkind as Hkind.
  cbn [mbind res_bind]. rewrite Hkind. rewrite (session_at_ok _ a s) by done. cbn [mbind res_bind].
  destruct (l_session st Hl a s Ha) as [_ _ _ _ _ (g & k & o & Hg & Hk & Hkg & Ho & Hso) _].
  unfold demux_shutdown, sstp_demux_remove_callback, session_at, shut. cbn. rewrite !lookup_insert_eq. cbn [mbind res_bind].
  cbn. rewrite Hk. rewrite bool_decide_true by (by eexists). cbn [negb orb]. unfold socket_ok in Hso.
  destruct (cb_installed s) eqn:Hcb; cbn [negb orb].
  - destruct Hso as (_ & Hsk & Hdr & Hws & Hud). unfold sk_of. cbn. rewrite Hk, Hg. unfold file_at. cbn.
    assert (Hgf : g <> f).
    { intros ->. unfold kind_at in Hkg. rewrite Hx in Hkg. cbn in Hkg. congruence. }
    rewrite lookup_delete_ne by done. unfold kind_at in Hkg. destruct (files st !! g) as [y|]; [|done].
    cbn [mbind res_bind]. rewrite Hsk. cbn [mbind res_bind]. cbn. rewrite lookup_insert_eq. cbn [mbind res_bind].
    rewrite Hdr, Hws, Hud, with_callbacks_back. unfold store. cbn. rewrite !insert_insert_eq.
    assert (partial_alter (fun _ => orig !! k) k (socks st) = <[k := o]> (socks st)) as -> by (by rewrite Ho).
    done.
  - cbn [mbind res_bind]. cbn. rewrite lookup_insert_eq. cbn [mbind res_bind]. unfold store. cbn.
    by rewrite insert_insert_eq.
Qed.

Lemma data_ok_shut d : data_ok d -> data_ok (sstp_demux_shutdown (set_closing d)).
Proof.
  intros [[p Hi] Hb]. split; [exists p | done]. eapply inv_same; [apply same_control_tx|]. by apply set_closing_inv.
Qed.

Lemma shut_session st f a s b t :
  heap (shut st f a s) !! b = Some t -> (b = a /\ tcp_file t = tcp_file s /\ tcp_sock t = tcp_sock s /\ ref t = ref s /\
    wq t = wq s /\ chan_registered t = chan_registered s /\ saved_write_space t = saved_write_space s /\ cb_installed t = false /\
    data t = sstp_demux_shutdown (set_closing (data s))) \/ (b <> a /\ heap st !! b = Some t).
Proof.
  cbn. rewrite lookup_insert_Some. intros [[<- <-]|[Hne Hb]]; [left|right; by split].
  by destruct (cb_installed s) eqn:Hc; split_and!.
Qed.

Lemma shut_socks st f a s j : life st -> heap st !! a = Some s ->
  socks (shut st f a s) !! j = if decide (tcp_sock s = Some j) then orig !! j else socks st !! j.
Proof.
  intros Hl Ha. destruct (l_session st Hl a s Ha) as [_ _ _ _ _ (g & k & o & Hg & Hk & Hkg & Ho & Hso) _].
  cbn. rewrite Hk. unfold socket_ok in Hso. destruct (cb_installed s).
  - destruct (decide (j = k)) as [->|]; [rewrite lookup_partial_alter_eq, decide_True by done | rewrite lookup_partial_alter_ne, decide_False by congruence]; done.
  - case_decide; [|done]. simplify_eq. by rewrite Ho.
Qed.

Lemma life_shut st f a s :
  life st -> f ∈ delayed st -> kind_at st f = Some (Session_file a) -> heap st !! a = Some s -> unwatched st a ->
  life (shut st f a s).
Proof.
  intros Hlife Hin Hkind Ha (Hnw & Hnh & Hnx). pose proof (shut_socks st f a s) as Hsocks. specialize (fun j => Hsocks j Hlife Ha).
  destruct Hlife as [Hf Hs Hfr Ho Hl H1 Hw Hr Hk Hsk Hone Hwo Hwi Hnd Hho Hxm Hfd].
  set (st' := shut st f a s) in *.
  assert (Hsome : forall g x, kind_at st' g = Some x -> g <> f /\ kind_at st g = Some x).
  { intros g x. unfold kind_at. cbn. destruct (decide (g = f)) as [->|]; [by rewrite lookup_delete_eq | by rewrite lookup_delete_ne]. }
  assert (Hat : forall g x, kind_at st g = Some x -> x <> Session_file a -> kind_at st' g = Some x).
  { intros g x Hg Hx. unfold kind_at in *. cbn. rewrite lookup_delete_ne; [done|]. intros ->. congruence. }
  assert (Hlive : forall b, live st' b <-> live st b /\ b <> a).
  { intros b. unfold live. cbn. destruct (decide (b = a)) as [->|]; [set_solver|]. rewrite lookup_insert_ne by done. set_solver. }
  assert (Hdom : dom (heap st') = dom (heap st)) by (cbn; apply dom_insert_lookup_L; by eexists).
  constructor; try done.
  - unfold st_files_ok. cbn. eapply files_ok_update; [done | by destruct (cb_installed s) |]. by apply files_ok_gone.
  - intros b t [(-> & E1 & E2 & E3 & E4 & E5 & E8 & E6 & E7)|[Hne Hb]]%shut_session.
    + destruct (Hs a s Ha) as [? ? ? ? Hd (g & k & o & Hg & Hk' & Hkg & Ho' & Hso) _].
      constructor; try congruence; [by rewrite E8 | rewrite E7; by apply data_ok_shut | | by rewrite E7].
      exists g, k, o. split_and!; [congruence | congruence | by apply Hat | done|]. unfold socket_ok. rewrite E6.
      by rewrite Hsocks, decide_True.
    + destruct (Hs b t Hb) as [? ? ? ? Hd (g & k & o & Hg & Hk' & Hkg & Ho' & Hso) Hrel].
      constructor; try done; [|intros Hin'; apply Hrel; cbn in Hin'; set_solver].
      exists g, k, o. split_and!; [done | done | by apply Hat | done|].
      assert (tcp_sock s <> Some k) by (intros E; apply Hne; by eapply (Hone b a t s k)).
      unfold socket_ok in *. rewrite Hsocks, decide_False by done. destruct (cb_installed t); [|done].
      split; [|apply Hso]. cbn. destruct Hso as [? _]. set_solver.
  - intros b Hb. apply Hfr. apply elem_of_dom. rewrite <- Hdom. by apply elem_of_dom.
  - by rewrite Hdom.
  - intros g b [Hne Hg]%Hsome. apply Hlive. split; [by eapply Hl|]. intros ->. apply Hne. by eapply H1.
  - intros g h b [_ Hg]%Hsome [_ Hh]%Hsome. by eapply H1.
  - intros b [Hb Hne]%Hlive. destruct (Hw b Hb) as [g Hg]. exists g. apply Hat; [done | congruence].
  - intros b Hb. apply elem_of_dom. rewrite Hdom. apply elem_of_dom. cbn in Hb. apply elem_of_union in Hb as [->%elem_of_singleton|Hb]; [by eexists | by apply Hr].
  - intros k Hno. rewrite Hsocks. case_decide as Hks; [done|]. apply Hk. intros b t Hb Hu.
    destruct (decide (b = a)) as [->|Hne]; [unfold uses in Hu; congruence|].
    apply (Hno b t); [|done]. cbn. by rewrite lookup_insert_ne.
  - intros g k [_ Hg]%Hsome. by eapply Hsk.
  - intros b c t u k Hb Hc Hu Hv.
    assert (G : forall b t, heap st' !! b = Some t -> exists t0, heap st !! b = Some t0 /\ tcp_sock t = tcp_sock t0).
    { clear -Ha. intros b t [(-> & E1 & E2 & _)|[Hne Hb]]%shut_session; [by exists s | by exists t]. }
    apply G in Hb as (t0 & Hb & Eb), Hc as (u0 & Hc & Ec). unfold uses in *. eapply (Hone b c t0 u0 k); congruence.
  - intros b w Hb. cbn in Hb. apply elem_of_difference in Hb as [Hb Hnot]. apply Hlive. split; [by eapply Hwo|].
    intros ->. destruct w; set_solver.
  - intros b i Hb. destruct (Hwi b i Hb) as [Hbl Hcb]. assert (b <> a) by (intros ->; by eapply Hnw).
    split; [by apply Hlive|]. intros t [(-> & _)|[_ Ht]]%shut_session; [done|]. by apply Hcb.
  - intros h k b Hb. apply Hlive. split; [by eapply Hho|]. intros ->. by eapply Hnh.
  - intros b skb Hb. apply Hlive. split; [by eapply Hxm|]. intros ->. by eapply Hnx.
Qed.

(** The state in which a session that is being freed gives its file back *)
Definition without_objects (st : kernel) (a : addr) (s : sstp_session) : kernel :=
  Kernel_state (<[a := with_ref s 0]> (heap st)) (bufs st ∖ {[a]}) (if wq s then wqs st ∖ {[a]} else wqs st)
    (if chan_registered s then chans st ∖ {[a]} else chans st) (socks st) (files st) (fds st) (delayed st) (works st)
    (wiring st) (hooks st) (xmits st) (releasing st) (next st) (next_file st) (freed st).

Lemma put_last st a s :
  heap st !! a = Some s -> ref s = 1 ->
  sstp_session_put st a =
    st' ← match tcp_file s with Some f => fput (without_objects st a s) f | None => Ok (without_objects st a s) end;
    Ok (with_freed (with_heap st' (delete a (heap st')))
         (freed st' ++ [with_data (with_ref s 0) (drop_ctrl_q (Z.to_nat SSTP_CTRL_Q_CAP) (data s))])).
Proof.
  intros Ha Href. unfold sstp_session_put. rewrite (session_at_ok st a s Ha). cbn [mbind res_bind]. rewrite Href.
  change (1 =? 1) with true. change (1 - 1) with 0. cbn iota. unfold release_session.
  rewrite (session_at_ok _ a (with_ref s 0)) by apply lookup_insert_eq. cbn [mbind res_bind].
  unfold without_objects. cbn [with_ref with_data tcp_file chan_registered wq data].
  by destruct (chan_registered s), (wq s), (tcp_file s).
Qed.

(** The last [put]: the session goes away with all it has, and gives its file back. *)
Lemma put_eq st a s f :
  heap st !! a = Some s -> ref s = 1 -> wq s = true -> chan_registered s = true -> tcp_file s = Some f ->
  st_files_ok None st -> is_Some (files st !! f) ->
  exists fl del, sstp_session_put st a = Ok (Kernel_state (delete a (heap st)) (bufs st ∖ {[a]}) (wqs st ∖ {[a]}) (chans st ∖ {[a]})
      (socks st) fl (fds st) del (works st) (wiring st) (hooks st) (xmits st) (releasing st) (next st) (next_file st)
      (freed st ++ [with_data (with_ref s 0) (drop_ctrl_q (Z.to_nat SSTP_CTRL_Q_CAP) (data s))])) /\
    same_kinds (files st) fl /\ files_ok None fl (fds st) del (next_file st) (delete a (heap st)).
Proof.
  intros Ha Href Hwq Hch Hf Hok Hfl. rewrite (put_last st a s Ha Href), Hf.
  unfold without_objects. rewrite Hwq, Hch. set (st1 := Kernel_state _ _ _ _ _ _ _ _ _ _ _ _ _ _ _ _).
  pose proof (held_from_session a s f Hok Ha Hf) as Hheld.
  (* the state in which the file is given back still has the session in it *)
  destruct (fput_ok (with_heap st1 (delete a (heap st))) f) as (x & fl & del & E & Hx & -> & -> & Hk & Hok'); [done|done|].
  assert (E' : fput st1 f = Ok (with_delayed (with_files st1 (<[f := File (kind x) (f_count x - 1)]> (files st1)))
    (if f_count x =? 1 then {[f]} ∪ delayed st1 else delayed st1))).
  { unfold fput, file_at in *. change (files (with_heap st1 _)) with (files st1) in *. rewrite Hx in E |- *. cbn [mbind res_bind] in *.
    destruct (f_count x <=? 0); [done|]. by destruct (f_count x =? 1). }
  rewrite E'. cbn [mbind res_bind]. cbn. rewrite delete_insert_eq. eexists _, _. split; [done|]. by split.
Qed.

Lemma life_put st a : life st -> exists st', put_released st a = Ok st' /\ life st'.
Proof.
  intros Hlife. unfold put_released. destruct (bool_decide (a ∈ releasing st)) eqn:Hrel; [|by eexists].
  apply bool_decide_eq_true in Hrel. cbn [andb]. destruct (busy st a) eqn:Hbusy; [by eexists|]. cbn [negb].
  destruct (l_releasing st Hlife a Hrel) as [s Ha]. pose proof (l_session st Hlife a s Ha) as Hsok.
  destruct Hsok as [Href Hwq Hch Hsv Hd (f & k & o & Hf & Hk & Hkf & Ho & Hso) Hclosed].
  destruct (put_eq (with_releasing st (releasing st ∖ {[a]})) a s f) as (fl & del & -> & Hkinds & Hok); try done;
    [apply Hlife | unfold kind_at in Hkf; cbn; by destruct (files st !! f) |].
  eexists. split; [done|]. unfold socket_ok in Hso.
  assert (Hcb : cb_installed s = false) by (destruct (cb_installed s); [by destruct Hso|done]). rewrite Hcb in Hso.
  destruct (Hclosed Hrel) as [Hcl Htx].
  destruct Hlife as [_ Hs Hfr Hobj Hl H1 Hw Hr Hk' Hsk Hone Hwo Hwi Hnd Hho Hxm Hfd].
  set (st' := Kernel_state _ _ _ _ _ _ _ _ _ _ _ _ _ _ _ _).
  assert (Hat : forall g, kind_at st' g = kind_at st g).
  { intros g. unfold kind_at. cbn. rewrite <- !lookup_fmap. by rewrite Hkinds. }
  assert (Hlive : forall b, live st b -> live st' b).
  { intros b [Hb Hnb]. assert (b <> a) by (by intros ->). unfold live. cbn. rewrite lookup_delete_ne by done. set_solver. }
  constructor; cbn; try done.
  - intros b t [Hne Hb]%lookup_delete_Some. destruct (Hs b t Hb) as [? ? ? ? ? (g & j & p & ? & ? & ? & ? & Hso') Hrb].
    constructor; try done; [|intros Hin; apply Hrb; cbn in Hin; set_solver].
    exists g, j, p. rewrite Hat. split_and!; try done. unfold socket_ok in *. destruct (cb_installed t); [|done].
    destruct Hso' as (Hnb & ?). split; [cbn; set_solver | done].
  - intros b [t [_ Hb]%lookup_delete_Some]. apply Hfr. by eexists.
  - destruct Hobj as (-> & -> & ->). rewrite dom_delete_L. done.
  - intros g b. rewrite Hat. intros Hg%Hl. by apply Hlive.
  - intros g h b. rewrite !Hat. apply H1.
  - intros b [[t Hb] Hnb]. cbn in Hb, Hnb. apply lookup_delete_Some in Hb as [Hne Hb].
    destruct (Hw b) as [g Hg]; [split; [by eexists | set_solver]|]. exists g. by rewrite Hat.
  - intros b Hb. destruct (Hr b) as [t Ht]; [set_solver|]. exists t. apply lookup_delete_Some. split; [set_solver | done].
  - intros j Hno. destruct (decide (tcp_sock s = Some j)) as [Hj|Hj].
    + assert (j = k) as -> by congruence. by rewrite Ho.
    + apply Hk'. intros b t Hb. destruct (decide (b = a)) as [->|]; [unfold uses; congruence|].
      apply (Hno b). by rewrite lookup_delete_ne.
  - intros g j. rewrite Hat. apply Hsk.
  - intros b c t u j [_ Hb]%lookup_delete_Some [_ Hc]%lookup_delete_Some. by eapply Hone.
  - intros b w Hb%Hwo. by apply Hlive.
  - intros b i Hb. destruct (Hwi b i Hb) as [Hbl Hc]. split; [by apply Hlive|].
    intros t [_ Ht]%lookup_delete_Some. by apply Hc.
  - intros h j b Hb%Hho. by apply Hlive.
  - intros b skb Hb%Hxm. by apply Hlive.
  - apply Forall_app. split; [done|]. apply Forall_singleton. unfold nothing_queued. cbn.
    destruct (drop_ctrl_q_ok (data s) Hd) as [E1 E2]. by rewrite E2.
Qed.

End Invariant.

Arguments l_files {orig} st _.
Arguments l_session {orig} st _.
Arguments l_fresh {orig} st _.
Arguments l_objects {orig} st _.
Arguments l_file {orig} st _.
Arguments l_file_one {orig} st _.
Arguments l_owned {orig} st _.
Arguments l_releasing {orig} st _.
Arguments l_socks {orig} st _.
Arguments l_socket {orig} st _.
Arguments l_one {orig} st _.
Arguments l_works {orig} st _.
Arguments l_wiring {orig} st _.
Arguments l_wiring_one {orig} st _.
Arguments l_hooks {orig} st _.
Arguments l_xmits {orig} st _.
Arguments l_freed {orig} st _.
