(* ===== verification/KmodLifeProps.v ===== *)
(** * Properties of the life of a session in the kernel module

    - A failed attach leaves everything as it was; an attach that succeeds has passed every check and hands
      the only reference to the session to the new descriptor.
    - As long as no socket is attached twice and no session file is released while a call that has looked
      at its session is under way, no freed object is used, whatever the order of the calls; sockets get
      their callbacks back, and nothing is left of a session.
    - The same without that discipline: five runs that use a freed session, overflow the stack or leak. *)

From stdpp Require Import gmap.
From S2P Require Import Prelude SstpFrame Kmod KmodRing KmodProps KmodLife KmodLifeInv.

Section Props.
Context {K : Kernel} (orig : gmap nat sock).

#[local] Abbreviation life := (KmodLifeInv.life orig).

(** ** Attach *)

(** A kTLS connection: what the module asks of the socket *)
Definition over_ktls (sk : sock) : Prop :=
  (sk_family sk = AF_INET \/ sk_family sk = AF_INET6) /\ sk_type sk = SOCK_STREAM /\ sk_protocol sk = IPPROTO_TCP /\
  exists tx_conf rx_conf, tls sk = Some (tx_conf, rx_conf) /\ tx_conf <> TLS_BASE /\ rx_conf <> TLS_BASE.

Lemma validate_ktls_iff sk : sstp_validate_ktls sk = 0 <-> exists k, sk = Some k /\ over_ktls k.
Proof.
  destruct sk as [k|]; [|split; [done | by intros (? & ? & _)]]. unfold sstp_validate_ktls, over_ktls. split.
  - intros H. exists k. split; [done|].
    destruct (Z.eqb_spec (sk_family k) AF_INET), (Z.eqb_spec (sk_family k) AF_INET6); try done;
    destruct (Z.eqb_spec (sk_type k) SOCK_STREAM); try done; destruct (Z.eqb_spec (sk_protocol k) IPPROTO_TCP); try done;
    destruct (tls k) as [[tx rx]|]; try done; destruct (Z.eqb_spec tx TLS_BASE), (Z.eqb_spec rx TLS_BASE); try done;
    (split_and!; [auto..|]; by eexists _, _).
  - intros (? & [= <-] & Hf & -> & -> & tx & rx & -> & ? & ?). rewrite !Z.eqb_refl.
    replace (tx =? TLS_BASE) with false by lia. replace (rx =? TLS_BASE) with false by lia.
    destruct Hf as [-> | ->]; done.
Qed.

(** What an attach needs *)
Record attachable (st : kernel) (e : attach_env) (arg : attach) (f k : nat) (sk : sock) : Prop := {
  at_arg : uarg e = Some arg;
  at_abi : abi_major arg = SSTP_ABI_VERSION_MAJOR;
  at_fd : 0 <= attach_tcp_fd arg /\ fds st !! attach_tcp_fd arg = Some f;
  at_kind : kind_at st f = Some (Socket k);
  at_sock : socks st !! k = Some sk /\ over_ktls sk;
  at_memory : kzalloc e = true /\ kmalloc e = true /\ alloc_workqueue e = true;
  at_channel : ppp_register_channel e = 0;
  at_session_fd : 0 <= get_unused_fd_flags e /\ fds st !! get_unused_fd_flags e = None;
  at_file : anon_inode_getfile e = 0
}.

(** The session an attach makes *)
Definition ready (m : Z) (f k : nat) (index : Z) : sstp_session :=
  {| ref := 1; data := attached; mtu := m; tcp_file := Some f; tcp_sock := Some k; chan_registered := true;
     chan_index := index; wq := true; saved_data_ready := Stack 0; saved_write_space := Stack 0;
     saved_user_data := Null; cb_installed := false |}.

Definition mtu_of (arg : attach) : Z := if attach_mtu arg =? 0 then 1500 else attach_mtu arg.

(** The state with a new session in it *)
Definition with_session (st : kernel) (e : attach_env) (arg : attach) (f k : nat) : kernel :=
  let a := next st in
  let held x := File (kind x) (f_count x + 1) in
  Kernel_state (<[a := ready (mtu_of arg) f k (ppp_channel_index e)]> (heap st)) ({[a]} ∪ bufs st) ({[a]} ∪ wqs st)
    ({[a]} ∪ chans st) (socks st) (<[next_file st := File (Session_file a) 1]> (alter held f (files st)))
    (<[get_unused_fd_flags e := next_file st]> (fds st)) (delayed st) (works st) (wiring st) (hooks st) (xmits st)
    (releasing st) (S a) (S (next_file st)) (freed st).

(** Two states that differ only in the addresses used up and the record of freed sessions *)
Definition same_state (st st' : kernel) : Prop :=
  heap st' = heap st /\ bufs st' = bufs st /\ wqs st' = wqs st /\ chans st' = chans st /\ socks st' = socks st /\
  files st' = files st /\ fds st' = fds st /\ delayed st' = delayed st /\ works st' = works st /\
  wiring st' = wiring st /\ hooks st' = hooks st /\ xmits st' = xmits st /\ releasing st' = releasing st /\
  next_file st' = next_file st /\ (next st <= next st')%nat /\
  exists l, freed st' = freed st ++ l /\ Forall nothing_queued l.

(** A state in the middle of an attach *)
Definition attaching (st : kernel) (s : sstp_session) (buf : bool) (st' : kernel) : Prop :=
  let a := next st in
  st' = Kernel_state (<[a := s]> (heap st)) (if buf then {[a]} ∪ bufs st else bufs st)
    (if wq s then {[a]} ∪ wqs st else wqs st) (if chan_registered s then {[a]} ∪ chans st else chans st) (socks st)
    (match tcp_file s with Some f => alter (fun x => File (kind x) (f_count x + 1)) f (files st) | None => files st end)
    (fds st) (delayed st) (works st) (wiring st) (hooks st) (xmits st) (releasing st) (S a) (next_file st) (freed st).

Lemma undo_set (a : addr) (X : gset addr) (b : bool) : a ∉ X -> (if b then {[a]} ∪ X else X) ∖ {[a]} = X.
Proof. intros. destruct b; set_solver. Qed.

Lemma err_free_undoes st s buf st' ret :
  life st -> attaching st s buf st' -> ref s = 1 -> data s = attached -> cb_installed s = false ->
  (forall f, tcp_file s = Some f -> exists i, fds st !! i = Some f) ->
  exists st'', err_free st' (next st) ret = Ok (st'', inl ret) /\ same_state st st''.
Proof.
  intros Hl -> Href Hdata Hcb Hfile. destruct (l_objects st Hl) as (Hb & Hw & Hc).
  assert (Hnew : heap st !! next st = None) by (apply eq_None_not_Some; intros ?%(l_fresh st Hl); lia).
  assert (Hndom : next st ∉ dom (heap st)) by (by apply not_elem_of_dom).
  unfold err_free. set (st1 := Kernel_state _ _ _ _ _ _ _ _ _ _ _ _ _ _ _ _).
  rewrite (put_last st1 (next st) s) by (done || apply lookup_insert_eq).
  assert (Hfin : forall fl del, fl = files st -> del = delayed st ->
    same_state st (Kernel_state (heap st)
      (bufs st) (wqs st) (chans st) (socks st) fl (fds st) del (works st) (wiring st) (hooks st) (xmits st) (releasing st)
      (S (next st)) (next_file st) (freed st ++ [with_data (with_ref s 0) (drop_ctrl_q (Z.to_nat SSTP_CTRL_Q_CAP) (data s))]))).
  { intros fl del -> ->. unfold same_state. cbn. split_and!; try done; [lia|]. eexists. split; [done|].
    apply Forall_singleton. unfold nothing_queued. cbn. by rewrite Hdata. }
  assert (Hheap : delete (next st) (<[next st := with_ref s 0]> (<[next st := s]> (heap st))) = heap st)
    by (rewrite insert_insert_eq; by apply delete_insert_id).
  assert (Hbufs : (if buf then {[next st]} ∪ bufs st else bufs st) ∖ {[next st]} = bufs st)
    by (apply undo_set; by rewrite Hb).
  assert (Hwqs : ({[next st]} ∪ wqs st) ∖ {[next st]} = wqs st) by (apply (undo_set _ _ true); by rewrite Hw).
  assert (Hchans : ({[next st]} ∪ chans st) ∖ {[next st]} = chans st) by (apply (undo_set _ _ true); by rewrite Hc).
  destruct (tcp_file s) as [f|] eqn:Hf.
  - destruct (Hfile f eq_refl) as [i Hi]. destruct (fd_file_there None i f (l_files st Hl) Hi) as (x & Hx & Hpos).
    assert (Hfl : <[f := File (kind x) (f_count x + 1 - 1)]> (alter (fun x => File (kind x) (f_count x + 1)) f (files st)) = files st).
    { apply map_eq. intros g. destruct (decide (g = f)) as [->|].
      - rewrite lookup_insert_eq, Hx. destruct x as [kx nx]. cbn. do 2 f_equal. lia.
      - by rewrite lookup_insert_ne, lookup_alter_ne. }
    assert (Hput : forall st2, files st2 = alter (fun x => File (kind x) (f_count x + 1)) f (files st) ->
      fput st2 f = Ok (with_files st2 (files st))).
    { intros st2 E. unfold fput, file_at. rewrite E, lookup_alter_eq, Hx. cbn [fmap option_fmap option_map mbind res_bind kind f_count].
      replace (f_count x + 1 <=? 0) with false by lia. replace (f_count x + 1 =? 1) with false by lia. by rewrite Hfl. }
    rewrite Hput by done. cbn [mbind res_bind]. eexists. split; [done|]. unfold without_objects. cbn.
    destruct (chan_registered s), (wq s); rewrite ?Hheap, ?Hbufs, ?Hwqs, ?Hchans; by apply Hfin.
  - cbn [mbind res_bind]. eexists. split; [done|]. unfold without_objects. cbn.
    destruct (chan_registered s), (wq s); rewrite ?Hheap, ?Hbufs, ?Hwqs, ?Hchans; by apply Hfin.
Qed.

Lemma alter_there {A} (g : A -> A) (m : gmap nat A) i x : m !! i = Some x -> <[i := g x]> m = alter g i m.
Proof.
  intros Hx. apply map_eq. intros j. destruct (decide (j = i)) as [->|].
  - by rewrite lookup_insert_eq, lookup_alter_eq, Hx.
  - by rewrite lookup_insert_ne, lookup_alter_ne.
Qed.

Lemma attaching_next st s buf st' s' :
  attaching st s buf st' -> tcp_file s' = tcp_file s -> wq s' = wq s -> chan_registered s' = chan_registered s ->
  attaching st s' buf (store st' (next st) s').
Proof. intros -> Ef Ew Ec. unfold attaching, store. cbn. by rewrite insert_insert_eq, Ef, Ew, Ec. Qed.

(** What an attach that came as far as [st'] ends in *)
Definition attach_result (st : kernel) (e : attach_env) (m : mem (kernel * (Z + addr * attach))) : Prop :=
  exists st' r, m = Ok (st', r) /\
  match r with
  | inl _ => same_state st st' /\ forall arg f k sk, ~ attachable st e arg f k sk
  | inr (a, out) => exists arg f k sk, attachable st e arg f k sk /\ a = next st /\ st' = with_session st e arg f k /\
      out = {| abi_major := abi_major arg; abi_minor := SSTP_ABI_VERSION_MINOR; attach_tcp_fd := attach_tcp_fd arg;
               attach_mtu := attach_mtu arg; session_fd := get_unused_fd_flags e |}
  end.

Lemma attach_fails st e s buf st' ret :
  life st -> attaching st s buf st' -> ref s = 1 -> data s = attached -> cb_installed s = false ->
  (forall f, tcp_file s = Some f -> exists i, fds st !! i = Some f) ->
  (forall arg f k sk, ~ attachable st e arg f k sk) -> attach_result st e (err_free st' (next st) ret).
Proof.
  intros Hl Hat Href Hdata Hcb Hfile Hnot. destruct (err_free_undoes st s buf st' ret) as (st'' & -> & Hsame); [done..|].
  by exists st'', (inl ret).
Qed.

Lemma publish_result st e arg f k sk st' s :
  life st -> s = with_wq (ready (mtu_of arg) f k (ppp_channel_index e)) false -> attaching st s true st' ->
  uarg e = Some arg -> abi_major arg = SSTP_ABI_VERSION_MAJOR -> 0 <= attach_tcp_fd arg ->
  fds st !! attach_tcp_fd arg = Some f -> kind_at st f = Some (Socket k) -> socks st !! k = Some sk -> over_ktls sk ->
  kzalloc e = true -> kmalloc e = true -> ppp_register_channel e = 0 ->
  attach_result st e (attach_publish st' (next st) arg e).
Proof.
  intros Hl Hs Hat Harg Habi Hpos Hfd Hkind Hsk Hktls Hkz Hkm Hreg. unfold attach_publish.
  assert (Hfile : forall g, Some f = Some g -> exists i, fds st !! i = Some g) by (intros ? [= <-]; by eexists).
  destruct (alloc_workqueue e) eqn:Hwq; cbn [negb].
  2:{ apply (attach_fails st e s true); try done; try (by subst s). intros ? ? ? ? []. intuition congruence. }
  pose proof Hat as Hat'. rewrite Hat' at 1. unfold session_at at 1. cbn [heap]. rewrite lookup_insert_eq. cbn [mbind res_bind].
  set (st1 := with_wqs _ _).
  assert (Hat1 : attaching st (with_wq s true) true st1).
  { subst st1. unfold attaching. rewrite Hat'. unfold store, with_wqs, with_heap. cbn. rewrite insert_insert_eq. by subst s. }
  assert (Hfds : fds st1 = fds st) by (by rewrite Hat1).
  assert (Hfail : forall ret, (forall arg f k sk, ~ attachable st e arg f k sk) -> attach_result st e (err_free st1 (next st) ret)).
  { intros ret Hnot. apply (attach_fails st e (with_wq s true) true); try done; by subst s. }
  unfold unused_fd. rewrite Hfds. cbv zeta.
  destruct ((0 <=? get_unused_fd_flags e) && bool_decide (is_Some (fds st !! get_unused_fd_flags e))) eqn:Hused.
  { change (- EMFILE <? 0) with true. cbn iota. apply Hfail. intros ? ? ? ? [].
    apply andb_prop in Hused as [_ [? Hu]%bool_decide_eq_true]. intuition congruence. }
  destruct (Z.ltb_spec (get_unused_fd_flags e) 0) as [Hneg|Hge].
  { apply Hfail. intros ? ? ? ? []. lia. }
  assert (Hfree : fds st !! get_unused_fd_flags e = None).
  { replace (0 <=? get_unused_fd_flags e) with true in Hused by lia. apply bool_decide_eq_false in Hused.
    by apply eq_None_not_Some. }
  destruct (Z.eqb_spec (anon_inode_getfile e) 0) as [Hanon|]; cbn [negb].
  2:{ apply Hfail. intros ? ? ? ? []. congruence. }
  eexists _, (inr _). split; [done|]. exists arg, f, k, sk. split; [by constructor|]. split; [done|]. split; [|done].
  rewrite Hat1. subst s. unfold with_session. cbn. done.
Qed.

Lemma session_result st e arg st' :
  life st -> attaching st (new_session (mtu_of arg)) false st' ->
  uarg e = Some arg -> abi_major arg = SSTP_ABI_VERSION_MAJOR -> 0 <= attach_tcp_fd arg -> kzalloc e = true ->
  attach_result st e (attach_session st' (next st) arg e).
Proof.
  intros Hl Hat Harg Habi Hpos Hkz. unfold attach_session.
  destruct (kmalloc e) eqn:Hkm; cbn [negb].
  2:{ apply (attach_fails st e (new_session (mtu_of arg)) false); try done. intros ? ? ? ? []. intuition congruence. }
  set (st1 := with_bufs _ _). assert (Hat1 : attaching st (new_session (mtu_of arg)) true st1) by (by subst st1; rewrite Hat).
  assert (Hfds1 : fds st1 = fds st) by (by rewrite Hat1). unfold fget. rewrite Hfds1.
  destruct (fds st !! attach_tcp_fd arg) as [f|] eqn:Hfd.
  2:{ cbn [mbind res_bind]. apply (attach_fails st e (new_session (mtu_of arg)) true); try done.
      intros ? ? ? ? []. assert (arg0 = arg) as -> by congruence. intuition congruence. }
  destruct (fd_file_there None _ f (l_files st Hl) Hfd) as (x & Hx & Hcount).
  assert (Hfiles1 : files st1 = files st) by (by rewrite Hat1). 
  assert (file_at st1 f = Ok x) as -> by (unfold file_at; by rewrite Hfiles1, Hx). cbn [mbind res_bind].
  rewrite (session_at_ok _ (next st) (new_session (mtu_of arg))) by (rewrite Hat1; cbn; by rewrite lookup_insert_eq).
  cbn [mbind res_bind].
  set (s1 := with_tcp_file _ _). set (st2 := store _ _ _).
  assert (Hat2 : attaching st s1 true st2).
  { subst st2 s1. rewrite Hat1. unfold attaching, store, with_files, with_heap. cbn. rewrite insert_insert_eq.
    by rewrite (alter_there (fun x => File (kind x) (f_count x + 1)) (files st) f x Hx). }
  assert (Hfiles2 : files st2 !! f = Some (File (kind x) (f_count x + 1))).
  { rewrite Hat2. cbn. by rewrite lookup_alter_eq, Hx. }
  unfold file_at. rewrite Hfiles2. cbn [mbind res_bind kind].
  assert (Hkind : kind_at st f = Some (kind x)) by (unfold kind_at; by rewrite Hx).
  assert (Hfile : forall g, Some f = Some g -> exists i, fds st !! i = Some g) by (intros ? [= <-]; by eexists).
  assert (Hsame : forall arg' f' k' sk', attachable st e arg' f' k' sk' -> arg' = arg /\ f' = f /\ kind x = Socket k').
  { intros ? ? ? ? []. assert (arg' = arg) as -> by congruence. assert (f' = f) as -> by intuition congruence. by simplify_eq. }
  destruct (kind x) as [|k|b] eqn:Ek.
  1,3: apply (attach_fails st e s1 true); try done; intros ? ? ? ? (_ & _ & ?)%Hsame; congruence.
  set (s2 := with_tcp_sock _ _). assert (Hat3 : attaching st s2 true (store st2 (next st) s2)) by (by eapply attaching_next).
  assert (Hsocks : socks (store st2 (next st) s2) = socks st) by (by rewrite Hat3). rewrite Hsocks.
  destruct (Z.eqb_spec (sstp_validate_ktls (socks st !! k)) 0) as [Hval|Hval]; cbn [negb].
  2:{ apply (attach_fails st e s2 true); try done. intros ? ? ? ? Hatt. pose proof Hatt as [_ _ _ _ [Hsk Hk] _ _ _ _].
      apply Hsame in Hatt as (_ & _ & ?). simplify_eq. apply Hval, validate_ktls_iff. eauto. }
  destruct (Z.eqb_spec (ppp_register_channel e) 0) as [Hreg|Hreg]; cbn [negb].
  2:{ apply (attach_fails st e s2 true); try done. by intros ? ? ? ? []. }
  apply validate_ktls_iff in Hval as (sk & Hsk & Hktls).
  eapply (publish_result st e arg f k sk); try done. clearbody st2. rewrite Hat2. unfold attaching, with_chans, store, with_heap.
  cbn. by rewrite !insert_insert_eq.
Qed.

Lemma attach_begin_result st e : life st -> attach_result st e (attach_begin st e).
Proof.
  intros Hl. unfold attach_begin.
  assert (Hno : forall ret, (forall arg f k sk, ~ attachable st e arg f k sk) -> attach_result st e (Ok (st, inl ret))).
  { intros ret Hnot. exists st, (inl ret). split; [done|]. split; [|done]. unfold same_state. split_and!; try done.
    exists []. by rewrite app_nil_r. }
  destruct (uarg e) as [arg|] eqn:Harg; [|apply Hno; by intros ? ? ? ? []; congruence].
  assert (Hsame : forall arg' f' k' sk', attachable st e arg' f' k' sk' -> arg' = arg) by (intros ? ? ? ? []; congruence).
  destruct (Z.eqb_spec (abi_major arg) SSTP_ABI_VERSION_MAJOR) as [Habi|]; cbn [negb].
  2:{ apply Hno. intros ? ? ? ? Hatt. pose proof Hatt as []. apply Hsame in Hatt. congruence. }
  destruct (Z.ltb_spec (attach_tcp_fd arg) 0) as [|Hpos].
  { apply Hno. intros ? ? ? ? Hatt. pose proof Hatt as []. apply Hsame in Hatt as ->. lia. }
  destruct (kzalloc e) eqn:Hkz; cbn [negb].
  2:{ apply Hno. intros ? ? ? ? []. intuition congruence. }
  by apply session_result.
Qed.


(** ** Every piece of code preserves the invariant *)

Lemma files_attached st e arg f k sk :
  life st -> attachable st e arg f k sk -> st_files_ok None (with_session st e arg f k).
Proof.
  intros Hl [_ _ [_ Hfd] Hkind _ _ _ [_ Hfree] _]. destruct (fget_ok st _ f (l_files st Hl) Hfd) as (x & fl & _ & Hx & _ & -> & Hheld).
  assert (Hnew : heap st !! next st = None) by (apply eq_None_not_Some; intros ?%(l_fresh st Hl); lia).
  assert (Hlt : forall g, is_Some (files st !! g) -> (g < next_file st)%nat) by (intros g; apply (fo_fresh _ _ _ _ _ _ (l_files st Hl))).
  unfold st_files_ok, with_session in *. cbn in *.
  rewrite (alter_there (fun x => File (kind x) (f_count x + 1)) (files st) f x Hx) in Hheld.
  apply held_to_fd; [|by rewrite lookup_insert_eq | done]. apply files_ok_new; [by eapply held_to_session|].
  intros a s. rewrite lookup_insert_Some. intros [[<- <-]|[_ Ha]]; cbn.
  - intros [= ->]. assert (next_file st < next_file st)%nat by (apply Hlt; by eexists). lia.
  - destruct (l_session st Hl a s Ha) as [_ _ _ _ _ (g & j & o & -> & _ & Hg & _) _]. intros [= ->].
    unfold kind_at in Hg. assert (next_file st < next_file st)%nat by (apply Hlt; by destruct (files st !! next_file st)). lia.
Qed.

Lemma kind_at_attached st e arg f k g : kind_at (with_session st e arg f k) g =
  if decide (g = next_file st) then Some (Session_file (next st)) else kind_at st g.
Proof.
  unfold kind_at. cbn. case_decide as Hg; [subst; by rewrite lookup_insert_eq|]. rewrite lookup_insert_ne by done.
  destruct (decide (g = f)) as [->|]; [rewrite lookup_alter_eq | by rewrite lookup_alter_ne]. by destruct (files st !! f).
Qed.

Lemma life_attached st e arg f k sk fd :
  life st -> attachable st e arg f k sk -> (forall a s, heap st !! a = Some s -> ~ uses s k) ->
  life (with_wiring (with_session st e arg f k) ((next st, fd) :: wiring st)).
Proof.
  intros Hlife Hatt Hfree. pose proof (files_attached st e arg f k sk Hlife Hatt) as Hfiles.
  pose proof Hatt as [_ _ _ Hkind [Hsk _] _ _ _ _].
  pose proof (kind_at_attached st e arg f k) as Hat.
  assert (Hnf : kind_at st (next_file st) = None).
  { unfold kind_at. destruct (files st !! next_file st) eqn:E; [|done].
    pose proof (fo_fresh _ _ _ _ _ _ (l_files st Hlife) (next_file st) (mk_is_Some _ _ E)). lia. }
  assert (Hat' : forall g x, kind_at st g = Some x -> kind_at (with_session st e arg f k) g = Some x).
  { intros g x Hg. rewrite Hat, decide_False by congruence. done. }
  assert (Hnew : heap st !! next st = None) by (apply eq_None_not_Some; intros ?%(l_fresh st Hlife); lia).
  destruct Hlife as [Hf Hs Hfr (Hb & Hw & Hc) Hl H1 Hown Hr Hk Hsock Hone Hwo Hwi Hnd Hho Hxm Hfd].
  set (st' := with_wiring _ _).
  assert (Hne : forall b, is_Some (heap st !! b) -> b <> next st) by (intros b ? ->; rewrite Hnew in *; by apply is_Some_None in H).
  assert (Hlive : forall b, live st b -> live st' b).
  { intros b [Hb' Hnb]. split; [|done]. cbn. rewrite lookup_insert_ne; [done|]. intros <-. by apply (Hne (next st)). }
  assert (Hnr : next st ∉ releasing st) by (intros Hin%Hr; by apply (Hne (next st))).
  constructor; try done.
  - intros b t. cbn. rewrite lookup_insert_Some. intros [[<- <-]|[Hneb Hbt]].
    + constructor; try done; [by exists 0%nat | apply attached_ok|]. destruct (Hsock f k Hkind) as [o Ho]. exists f, k, o.
      split_and!; [done | done | by apply Hat' | done|]. unfold socket_ok. cbn. by rewrite (Hk k Hfree).
    + destruct (Hs b t Hbt) as [? ? ? ? ? (g & j & o & ? & ? & ? & ? & ?) ?]. constructor; try done.
      exists g, j, o. split_and!; try done. by apply Hat'.
  - intros b. cbn. intros [t [[<- _]|[_ Hbt]]%lookup_insert_Some]; [lia|]. assert (is_Some (heap st !! b)) as ?%Hfr by (by eexists). lia.
  - cbn. rewrite Hb, Hw, Hc, dom_insert_L. done.
  - intros g b. change (kind_at st') with (kind_at (with_session st e arg f k)). rewrite Hat. case_decide.
    + intros [= <-]. split; [cbn; by rewrite lookup_insert_eq | done].
    + intros Hg%Hl. by apply Hlive.
  - intros g h b. change (kind_at st') with (kind_at (with_session st e arg f k)). rewrite !Hat.
    assert (G : forall g, kind_at st g <> Some (Session_file (next st))) by (intros i [Hi _]%Hl; by apply (Hne (next st))).
    repeat case_decide; try (by apply H1); [congruence | intros [= <-] Hh | intros Hg [= <-]]; by edestruct G.
  - intros b [Hbs Hnb]. cbn in Hbs, Hnb. destruct (decide (b = next st)) as [->|Hneb].
    + exists (next_file st). change (kind_at st') with (kind_at (with_session st e arg f k)). by rewrite Hat, decide_True.
    + rewrite lookup_insert_ne in Hbs by done. destruct (Hown b) as [g Hg]; [by split|]. exists g. by apply Hat'.
  - intros b Hin%Hr. cbn. destruct (decide (b = next st)) as [->|]; [by rewrite lookup_insert_eq | by rewrite lookup_insert_ne].
  - intros j Hno. cbn. apply Hk. intros b t Hbt. apply (Hno b). cbn. rewrite lookup_insert_ne; [done|].
    intros <-. apply (Hne (next st)); [by eexists | done].
  - intros g j. change (kind_at st') with (kind_at (with_session st e arg f k)). rewrite Hat. case_decide; [done|]. apply Hsock.
  - intros b c t u j. cbn. rewrite !lookup_insert_Some. intros [[<- <-]|[_ Hbt]] [[<- <-]|[_ Hcu]] Hu Hv; [done | | | by eapply Hone].
    + unfold uses in *. cbn in Hu. injection Hu as <-. by edestruct Hfree.
    + unfold uses in *. cbn in Hv. injection Hv as <-. by edestruct Hfree.
  - intros b w Hin%Hwo. by apply Hlive.
  - intros b i. cbn. rewrite elem_of_cons. intros [[= -> ->]|Hin].
    + split; [split; [cbn; by rewrite lookup_insert_eq | done]|]. intros t. rewrite lookup_insert_eq. by intros [= <-].
    + destruct (Hwi b i Hin) as [Hbl Hcb]. split; [by apply Hlive|]. intros t. rewrite lookup_insert_ne; [apply Hcb|].
      intros <-. destruct Hbl as [? _]. by apply (Hne (next st)).
  - cbn. apply NoDup_cons. split; [|done]. intros ([b i] & E & Hin)%list_elem_of_fmap. cbn in E. destruct (Hwi b i Hin) as [[? _] _].
    by apply (Hne b).
  - intros h j b Hin%Hho. by apply Hlive.
  - intros b skb Hin%Hxm. by apply Hlive.
Qed.

Lemma life_same st st' : life st -> same_state st st' -> life st'.
Proof.
  intros Hl (Hh & Hb & Hw & Hc & Hso & Hf & Hfd & Hd & Hwo & Hwi & Hho & Hx & Hr & Hnf & Hn & l & Hfr & Hall).
  destruct st' as [h b w c so f fd d wo wi ho x r n nf fr]. cbn in *. subst. destruct Hl as [? Hs Hfresh ? ? ? ? ? ? ? ? ? ? ? ? ? Hfree].
  constructor; try done; cbn.
  - intros a s Ha. destruct (Hs a s Ha). by constructor.
  - intros a Ha%Hfresh. lia.
  - by apply Forall_app.
Qed.

(** The callbacks are installed. *)
Lemma life_install st a s :
  pristine orig -> life st -> heap st !! a = Some s -> a ∉ releasing st -> cb_installed s = false -> a ∉ (wiring st).*1 ->
  exists st', sstp_demux_install_callback st a = Ok st' /\ life st' /\ live st' a.
Proof.
  intros Hpr Hlife Ha Hnr Hcb Hnw. pose proof (l_session st Hlife a s Ha) as [Href Hwq Hch Hsv Hd (f & k & o & Hf & Hk & Hkf & Ho & Hso) Hrel].
  unfold socket_ok in Hso. rewrite Hcb in Hso. unfold sstp_demux_install_callback. rewrite (session_at_ok st a s Ha).
  cbn [mbind res_bind]. unfold sk_of. rewrite Hk, Hf. unfold file_at. unfold kind_at in Hkf.
  destruct (files st !! f) as [x|] eqn:Hx; [|done]. cbn [mbind res_bind]. rewrite Hso. cbn [mbind res_bind].
  eexists. split; [done|]. set (s' := with_cb_installed _ true). set (sk := with_callbacks _ _ _ _). set (st' := store _ a s').
  assert (Hlive : forall b, live st b -> live st' b).
  { intros b [Hb Hnb]. split; [|done]. cbn. destruct (decide (b = a)) as [->|]; [by rewrite lookup_insert_eq | by rewrite lookup_insert_ne]. }
  assert (Hlive' : forall b, live st' b -> live st b).
  { intros b [Hb Hnb]. split; [|done]. cbn in Hb. destruct (decide (b = a)) as [->|]; [by eexists | by rewrite lookup_insert_ne in Hb]. }
  split; [|by apply Hlive; split; [eexists|]].
  destruct Hlife as [Hfi Hs Hfr (Hb & Hw & Hc) Hl H1 Hown Hr Hsk Hsock Hone Hwo Hwi Hnd Hho Hxm Hfd].
  assert (Hdom : dom (heap st') = dom (heap st)) by (cbn; apply dom_insert_lookup_L; by eexists).
  assert (Hget : forall b t, heap st' !! b = Some t -> exists t0, heap st !! b = Some t0 /\ tcp_sock t = tcp_sock t0 /\
    (b <> a -> t = t0)).
  { cbn. intros b t. rewrite lookup_insert_Some. intros [[<- <-]|[Hne Hbt]]; [by exists s | by exists t]. }
  constructor; try done.
  - unfold st_files_ok. cbn. by eapply files_ok_update.
  - cbn. intros b t. rewrite lookup_insert_Some. intros [[<- <-]|[Hne Hbt]].
    + constructor; try done; [by destruct (Hpr k o Ho) as (_ & m & _ & ?); exists m|].
      exists f, k, o. split_and!; try done; [unfold kind_at; cbn; by rewrite Hx|].
      unfold socket_ok. cbn. by rewrite lookup_insert_eq.
    + destruct (Hs b t Hbt) as [? ? ? ? ? (g & j & p & ? & Hj & ? & ? & Hso') ?]. constructor; try done.
      exists g, j, p. split_and!; try done. assert (j <> k) by (intros ->; apply Hne; by eapply (Hone a b s t k)).
      unfold socket_ok in *. cbn. by rewrite lookup_insert_ne.
  - intros b Hbs. apply Hfr. apply elem_of_dom. rewrite <- Hdom. by apply elem_of_dom.
  - by rewrite Hdom.
  - intros g b Hg%Hl. by apply Hlive.
  - intros b Hbl%Hlive'. by apply Hown.
  - intros b Hin%Hr. apply elem_of_dom. rewrite Hdom. by apply elem_of_dom.
  - intros j Hno. cbn. rewrite lookup_insert_ne.
    + apply Hsk. intros b t Hbt. destruct (decide (b = a)) as [->|Hne].
      * simplify_eq. apply (Hno a s'). cbn. by rewrite lookup_insert_eq.
      * apply (Hno b). cbn. by rewrite lookup_insert_ne.
    + intros ->. apply (Hno a s'); [cbn; by rewrite lookup_insert_eq | done].
  - intros b c t u j (t0 & Hbt & Eb & _)%Hget (u0 & Hcu & Ec & _)%Hget. unfold uses. rewrite Eb, Ec. by apply Hone.
  - intros b w Hin%Hwo. by apply Hlive.
  - intros b i Hin. destruct (Hwi b i Hin) as [Hbl Hcb']. split; [by apply Hlive|]. intros t (t0 & Hbt & _ & E)%Hget.
    assert (b <> a) as ?%E. { intros ->. apply Hnw. apply list_elem_of_fmap. by exists (a, i). } subst t0. by apply Hcb'.
  - intros h j b Hin%Hho. by apply Hlive.
  - intros b skb Hin%Hxm. by apply Hlive.
Qed.

Lemma remove_one_subset {A} `{EqDecision A} (x y : A) l : y ∈ remove_one x l -> y ∈ l.
Proof.
  induction l as [|z l IH]; cbn; [done|]. case_decide; [by right|]. rewrite !elem_of_cons. intros [->|?]; [by left | right; by apply IH].
Qed.

Lemma remove_one_sublist {A} `{EqDecision A} (x : A) l : remove_one x l `sublist_of` l.
Proof. induction l as [|z l IH]; cbn; [done|]. case_decide; [by apply sublist_cons | by apply sublist_skip]. Qed.

Lemma remove_one_keys {A B} `{EqDecision A, EqDecision B} (a : A) (b : B) l :
  NoDup l.*1 -> (a, b) ∈ l -> a ∉ (remove_one (a, b) l).*1.
Proof.
  induction l as [|[c d] l IH]; cbn; [by intros _ ?%not_elem_of_nil|]. rewrite NoDup_cons. intros [Hc Hnd] Hin.
  case_decide as E; [by simplify_eq|]. cbn. apply elem_of_cons in Hin as [|Hin]; [done|]. rewrite elem_of_cons. intros [->|Hin'].
  - apply Hc. apply list_elem_of_fmap. by exists (c, b).
  - by apply IH.
Qed.

Lemma life_attach_end st a fd copied :
  pristine orig -> life st -> (a, fd) ∈ wiring st ->
  exists st' ret, attach_end (with_wiring st (remove_one (a, fd) (wiring st))) a fd copied = Ok (st', ret) /\ life st'.
Proof.
  intros Hpr Hl Hin. set (st0 := with_wiring _ _). destruct (l_wiring st Hl a fd Hin) as [Hlive Hcb].
  assert (Hl0 : life st0).
  { apply (life_flight orig st (works st) (remove_one (a, fd) (wiring st)) (hooks st) (xmits st)); try done; try apply Hl.
    - intros b i ?%remove_one_subset. by eapply (l_wiring st Hl).
    - eapply sublist_NoDup; [apply (l_wiring_one st Hl)|]. apply fmap_sublist, remove_one_sublist. }
  unfold attach_end. destruct copied; cbn [negb].
  - destruct Hlive as [[s Ha] Hnr]. destruct (life_install st0 a s Hpr Hl0) as (st1 & -> & Hl1 & Hlive1); try done.
    + by apply Hcb.
    + apply remove_one_keys; [apply (l_wiring_one st Hl) | done].
    + cbn [mbind res_bind]. destruct (life_queue_work orig st1 a rx_work Hl1 Hlive1) as (st2 & -> & Hl2 & _).
      by exists st2, 0.
  - destruct (life_close orig st0 fd Hl0) as (st1 & -> & Hl1 & _). by exists st1, (- EFAULT).
Qed.

Lemma life_data_ready st a : life st -> live st a -> exists st', data_ready_rest st a = Ok st' /\ life st'.
Proof.
  intros Hl Ha. destruct (live_session orig st a Hl Ha) as (s & Hs & _). unfold data_ready_rest. rewrite (session_at_ok st a s Hs).
  cbn [mbind res_bind]. destruct (closing (data s)); cbn [negb]; [by exists st|].
  destruct (life_queue_work orig st a rx_work Hl Ha) as (st' & -> & Hl' & _). by exists st'.
Qed.

(** The saved callback is one of the stack: there is no recursion. *)
Lemma life_write_space stack st k a : life st -> live st a -> exists st', write_space_rest stack st k a = Ok st' /\ life st'.
Proof.
  intros Hl Ha. destruct (live_session orig st a Hl Ha) as (s & Hs & Hok). destruct (so_saved _ _ _ _ Hok) as [n Hn].
  assert (E : write_space_rest stack st k a =
    st ← (if negb (closing (data s)) then queue_work st a tx_work else Ok st); Ok st).
  { destruct stack; cbn [write_space_rest]; rewrite (session_at_ok st a s Hs); cbn [mbind res_bind]; by rewrite Hn. }
  rewrite E. destruct (closing (data s)); cbn [negb]; [by exists st|].
  destruct (life_queue_work orig st a tx_work Hl Ha) as (st' & -> & Hl' & _). by exists st'.
Qed.

(** ** Runs *)

(** The discipline: a socket carries one session; a session file is released when no attach, callback or
    [start_xmit] is between its look at the session and its end; the kernel and userspace keep to the
    interface of [kernel_recvmsg] and of [SSTP_IOC_RECV_CONTROL]. *)
Definition allowed (st : kernel) (o : op) : Prop :=
  match o with
  | Attach _ e => forall arg f k, uarg e = Some arg -> fds st !! attach_tcp_fd arg = Some f ->
      kind_at st f = Some (Socket k) -> forall a s, heap st !! a = Some s -> ~ uses s k
  | Fput f => forall a, kind_at st f = Some (Session_file a) -> unwatched st a
  | Rx a rs => forall s, heap st !! a = Some s -> recv_fits 64 (data s) rs
  | Ioctl fd c _ => forall a s, session_of st fd = Some a -> heap st !! a = Some s -> asks_when_told (data s) c
  | _ => True
  end.

Lemma life_work st a w f :
  life st -> (forall s, heap st !! a = Some s -> data_ok (data s) -> exists d, f (data s) = Ok d /\ data_ok d) ->
  exists st', run_work st a w f = Ok st' /\ life st'.
Proof.
  intros Hl Hf. unfold run_work. case_bool_decide as Hin; [|by exists st].
  pose proof (l_works st Hl a w Hin) as Ha. destruct (live_session orig st a Hl Ha) as (s & Hs & Hok).
  destruct (Hf s Hs (so_data _ _ _ _ Hok)) as (d & E & Hd). erewrite (session_at_ok _ a s) by exact Hs. cbn [mbind res_bind]. rewrite E.
  cbn [mbind res_bind]. eexists. split; [done|]. apply life_data; [|done | apply Ha | done].
  apply life_works; [done|]. intros b v [? _]%elem_of_difference. by eapply (l_works st Hl).
Qed.

Lemma life_hooks st l : life st -> (forall h k a, (h, k, a) ∈ l -> live st a) -> life (with_hooks st l).
Proof. intros Hl Hh. apply (life_flight orig st (works st) (wiring st) l (xmits st)); try done; apply Hl. Qed.

Lemma life_xmits st l : life st -> (forall a skb, (a, skb) ∈ l -> live st a) -> life (with_xmits st l).
Proof. intros Hl Hx. apply (life_flight orig st (works st) (wiring st) (hooks st) l); try done; apply Hl. Qed.

(** A socket is as it was, or it has the callbacks of a live session. *)
Lemma socket_cases st k sk :
  life st -> socks st !! k = Some sk ->
  orig !! k = Some sk \/ exists o a, sk = with_callbacks o Sstp Sstp (Session a) /\ live st a.
Proof.
  intros Hl Hsk. destruct (decide (map_Forall (fun _ s => tcp_sock s <> Some k) (heap st))) as [Hno|Hyes].
  - left. rewrite <- (l_socks st Hl k); [done|]. exact Hno.
  - apply map_not_Forall in Hyes as (a & s & Ha & Hu); [|apply _]. apply dec_stable in Hu.
    pose proof (l_session st Hl a s Ha) as [_ _ _ _ _ (f & j & o & _ & Hj & _ & Ho & Hso) _].
    assert (j = k) as -> by congruence. unfold socket_ok in Hso. destruct (cb_installed s); [right | left; congruence].
    destruct Hso as (Hnr & Hsk' & _). exists o, a. split; [congruence|]. by split; [eexists|].
Qed.

Lemma life_softirq st h k : pristine orig -> life st -> exists st', softirq st h k = Ok st' /\ life st'.
Proof.
  intros Hpr Hl. unfold softirq. destruct (socks st !! k) as [sk|] eqn:Hsk; [|by exists st].
  destruct (socket_cases st k sk Hl Hsk) as [Horig|(o & a & -> & Ha)].
  - destruct (Hpr k sk Horig) as (n & m & -> & ->). by destruct h; exists st.
  - cbn. destruct h; (eexists; split; [done|]); apply life_hooks; try done;
      intros h' j' b [[= -> -> ->]|Hin]%elem_of_cons; try done; by eapply (l_hooks st Hl).
Qed.

Lemma session_of_live st fd a : life st -> session_of st fd = Some a -> live st a.
Proof.
  intros Hl. unfold session_of. destruct (fds st !! fd) as [f|]; [|done]. destruct (files st !! f) as [x|] eqn:Hx; [|done].
  destruct (kind x) as [| |b] eqn:Hk; try done. intros [= ->]. apply (l_file st Hl f). unfold kind_at. by rewrite Hx, <- Hk.
Qed.

Lemma life_fput st f :
  life st -> (forall a, kind_at st f = Some (Session_file a) -> unwatched st a) -> exists st', fput_deferred st f = Ok st' /\ life st'.
Proof.
  intros Hl Hun. destruct (decide (f ∈ delayed st)) as [Hin|Hin].
  2:{ exists st. unfold fput_deferred. by rewrite bool_decide_false. }
  destruct (kind_at st f) as [kd|] eqn:Hkind.
  2:{ apply (fo_delayed _ _ _ _ _ _ (l_files st Hl)) in Hin as (x & Hx & _). unfold kind_at in Hkind. by rewrite Hx in Hkind. }
  destruct kd as [|k|a].
  3:{ pose proof (l_file st Hl f a Hkind) as [[s Ha] _]. rewrite (fput_session_eq orig st f a s) by done. eexists. split; [done|].
      apply life_shut; try done. by apply Hun. }
  all: pose proof (life_file_gone orig st f Hl Hin ltac:(by rewrite Hkind)) as Hgone; unfold fput_deferred, file_at;
    rewrite bool_decide_true by done; unfold kind_at in Hkind; destruct (files st !! f) as [x|]; [|done];
    cbn in Hkind; injection Hkind as Hkind; cbn [mbind res_bind]; rewrite Hkind; by eexists.
Qed.

Lemma exec_life stack st o : pristine orig -> life st -> allowed st o -> exists st', exec stack o st = Ok st' /\ life st'.
Proof.
  intros Hpr Hl Hal. destruct o as [capable e|a fd copied|fd|fd fd'|f|a|h k|h k a|a rs|a rets|a skb|a skb|fd n nb wk fl|fd c fl];
    cbn [exec allowed] in *.
  - destruct capable; [|by exists st]. cbn [sstp_misc_ioctl negb].
    destruct (attach_begin_result st e Hl) as (st' & r & -> & Hr). cbn [mbind res_bind]. destruct r as [ret|[a out]].
    + destruct Hr as [Hsame _]. exists st'. split; [done|]. by eapply life_same.
    + destruct Hr as (arg & f & k & sk & Hatt & -> & -> & ->). eexists. split; [done|].
      apply (life_attached st e arg f k sk (get_unused_fd_flags e) Hl Hatt). pose proof Hatt as [? _ [_ ?] ? _ _ _ _ _]. eauto.
  - case_bool_decide as Hin; [|by exists st]. destruct (life_attach_end st a fd copied Hpr Hl Hin) as (st' & ret & -> & Hl').
    cbn [mbind res_bind]. eauto.
  - destruct (life_close orig st fd Hl) as (st' & -> & Hl' & _). eauto.
  - case_bool_decide as Hused; [by exists st|]. destruct (life_dup orig st fd fd' Hl) as (fl & f & -> & Hl'); [by apply eq_None_not_Some|].
    cbn [mbind res_bind]. destruct f; eauto.
  - by apply life_fput.
  - by apply life_put.
  - by apply life_softirq.
  - case_bool_decide as Hin; [|by exists st]. pose proof (l_hooks st Hl h k a Hin) as Ha.
    assert (Hl' : life (with_hooks st (remove_one (h, k, a) (hooks st)))).
    { apply life_hooks; [done|]. intros ? ? ? ?%remove_one_subset. by eapply (l_hooks st Hl). }
    destruct h; [by apply life_data_ready | by apply life_write_space].
  - apply life_work; [done|]. intros s Hs Hd. apply rx_worker_ok; auto.
  - apply life_work; [done|]. intros s Hs Hd. by apply tx_worker_ok.
  - case_bool_decide as Hin; [|by exists st]. destruct (l_objects st Hl) as (_ & _ & Hc). rewrite Hc in Hin.
    apply elem_of_dom in Hin as [s Hs]. rewrite (session_at_ok st a s Hs). cbn [mbind res_bind]. eexists. split; [done|].
    destruct (closing (data s)) eqn:Hcl; [done|]. apply life_xmits; [done|].
    intros b skb' [[= -> ->]|Hin]%elem_of_cons; [|by eapply (l_xmits st Hl)]. split; [by eexists|].
    intros Hr. destruct (so_releasing _ _ _ _ (l_session st Hl a s Hs) Hr). congruence.
  - case_bool_decide as Hin; [|by exists st]. pose proof (l_xmits st Hl a skb Hin) as Ha.
    destruct (live_session orig st a Hl Ha) as (s & Hs & Hok). erewrite (session_at_ok _ a s) by exact Hs. cbn [mbind res_bind].
    eexists. split; [done|]. apply life_data; [|done | apply Ha | apply start_xmit_rest_ok, Hok].
    apply life_xmits; [done|]. intros ? ? ?%remove_one_subset. by eapply (l_xmits st Hl).
  - destruct (session_of st fd) as [a|] eqn:Ha; [|by exists st]. apply session_of_live in Ha; [|done].
    destruct (live_session orig st a Hl Ha) as (s & Hs & Hok). erewrite (session_at_ok _ a s) by exact Hs. cbn [mbind res_bind].
    destruct (read_ok (data s) n nb wk fl) as (d & r & -> & Hd); [apply Hok|]. cbn [mbind res_bind]. eexists. split; [done|].
    by apply life_data; [|done | apply Ha|].
  - destruct (session_of st fd) as [a|] eqn:Hfd; [|by exists st]. pose proof (session_of_live st fd a Hl Hfd) as Ha.
    destruct (live_session orig st a Hl Ha) as (s & Hs & Hok). erewrite (session_at_ok _ a s) by exact Hs. cbn [mbind res_bind].
    destruct (ioctl_ok s c fl) as (d & r & ans & -> & Hd); [eauto | apply Hok|]. cbn [mbind res_bind]. eexists. split; [done|].
    by apply life_data; [|done | apply Ha|].
Qed.

Fixpoint disciplined (stack : nat) (os : list op) (st : kernel) : Prop :=
  match os with
  | [] => True
  | o :: os => allowed st o /\ forall st', exec stack o st = Ok st' -> disciplined stack os st'
  end.

Lemma run_cons stack o os st : run stack (o :: os) st = st' ← exec stack o st; run stack os st'.
Proof.
  unfold run. cbn. destruct (exec stack o st) as [st'|[]|]; [done|]. cbn. induction os as [|o' os IH]; [done|]. by cbn.
Qed.

Lemma run_life stack os st : pristine orig -> life st -> disciplined stack os st -> exists st', run stack os st = Ok st' /\ life st'.
Proof.
  intros Hpr. revert st. induction os as [|o os IH]; intros st Hl Hd; [by exists st|]. destruct Hd as [Hal Hd].
  destruct (exec_life stack st o Hpr Hl Hal) as (st' & E & Hl'). rewrite run_cons, E. cbn [mbind res_bind].
  apply IH; [done | by apply Hd].
Qed.

End Props.

(** No session yet *)
Record started (st : kernel) : Prop := {
  st_heap : heap st = ∅;
  st_objects : bufs st = ∅ /\ wqs st = ∅ /\ chans st = ∅;
  st_flight : works st = ∅ /\ wiring st = [] /\ hooks st = [] /\ xmits st = [] /\ releasing st = ∅ /\ freed st = [];
  st_files : st_files_ok None st;
  st_kinds f a : kind_at st f <> Some (Session_file a);
  st_socks f k : kind_at st f = Some (Socket k) -> is_Some (socks st !! k);
  st_pristine : pristine (socks st)
}.

Lemma started_life st : started st -> life (socks st) st.
Proof.
  intros [Hh (Hb & Hw & Hc) (Hwo & Hwi & Hho & Hx & Hr & Hf) Hfi Hk Hs Hp].
  assert (Hno : forall a, ~ is_Some (heap st !! a)) by (intros a; rewrite Hh, lookup_empty; apply is_Some_None).
  assert (Hno' : forall a s, heap st !! a <> Some s) by (intros a s; by rewrite Hh).
  constructor; try done.
  - by intros a s ?%Hno'.
  - by intros a ?%Hno.
  - by rewrite Hb, Hw, Hc, Hh, dom_empty_L.
  - by intros f a ?%Hk.
  - by intros f g a ?%Hk.
  - by intros a [?%Hno _].
  - intros a. rewrite Hr. by intros ?%not_elem_of_empty.
  - by intros a b s t k ?%Hno'.
  - intros a w. rewrite Hwo. by intros ?%not_elem_of_empty.
  - intros a fd. rewrite Hwi. by intros ?%not_elem_of_nil.
  - rewrite Hwi. constructor.
  - intros h k a. rewrite Hho. by intros ?%not_elem_of_nil.
  - intros a skb. rewrite Hx. by intros ?%not_elem_of_nil.
  - by rewrite Hf.
Qed.

(** Neither an open nor a closed but unreleased session file *)
Definition no_session_left (st : kernel) : Prop :=
  (forall f a, kind_at st f <> Some (Session_file a)) /\ releasing st = ∅.

(** C19: However attaches, closes, callbacks, workers, transmissions, reads and ioctls of any number of sessions interleave,
    no freed object is used and no call panics, as long as no socket is attached twice, no session file is
    released while an attach, a callback or [start_xmit] is in the middle of its session, and userspace
    and [kernel_recvmsg] keep to their interfaces.  The session of a descriptor is always there with one
    reference.  Once the session files are gone, every session, receive buffer, workqueue, channel and
    queued work is gone, the sockets have their callbacks back, and the only references to files are
    descriptors.  A session is freed with its queues empty and its callbacks removed. *)
Theorem sessions_never_used_after_free {K : Kernel} (stack : nat) (st0 : kernel) (os : list op) :
  started st0 -> disciplined stack os st0 ->
  exists st, run stack os st0 = Ok st /\
    (forall fd a, session_of st fd = Some a -> exists s, heap st !! a = Some s /\ ref s = 1) /\
    (no_session_left st -> heap st = ∅ /\ bufs st = ∅ /\ wqs st = ∅ /\ chans st = ∅ /\ works st = ∅ /\ socks st = socks st0 /\
       forall f x, files st !! f = Some x -> f_count x = count (fun g => g = f) (fds st)) /\
    Forall nothing_queued (freed st).
Proof.
  intros Hst Hd. destruct (run_life (socks st0) stack os st0 (st_pristine st0 Hst) (started_life st0 Hst) Hd) as (st & E & Hl).
  exists st. split; [done|]. split_and!.
  - intros fd a Ha%(session_of_live (socks st0)); [|done]. destruct (live_session _ st a Hl Ha) as (s & Hs & []). eauto.
  - intros [Hnone Hrel].
    assert (Hheap : heap st = ∅).
    { apply map_empty. intros a. apply eq_None_not_Some. intros Ha. destruct (l_owned st Hl a) as [f Hf]; [|by eapply Hnone].
      split; [done|]. rewrite Hrel. apply not_elem_of_empty. }
    destruct (l_objects st Hl) as (Hb & Hw & Hc). rewrite Hheap, dom_empty_L in *. split_and!; try done.
    + apply elem_of_equiv_empty_L. intros [a w] [Ha _]%(l_works st Hl). rewrite Hheap, lookup_empty in Ha. by apply is_Some_None in Ha.
    + apply map_eq. intros k. apply (l_socks st Hl k). rewrite Hheap. by intros a s.
    + intros f x Hx. rewrite (fo_count _ _ _ _ _ _ (l_files st Hl) f x Hx), decide_False by done. unfold refs. rewrite Hheap.
      rewrite (count_none _ (∅ : gmap addr sstp_session)) by done. lia.
  - apply Hl.
Qed.

(** ** Without the discipline *)

(** A session whose chained callback is the one of this module, on a socket that leads back to it *)
Lemma write_space_overflows {K : Kernel} stack st k a s sk :
  heap st !! a = Some s -> saved_write_space s = Sstp -> socks st !! k = Some sk -> sk_user_data sk = Session a ->
  write_space_rest stack st k a = Panic.
Proof.
  revert st. induction stack as [|stack IH]; intros st Ha Hsv Hsk Hud; cbn [write_space_rest];
    rewrite (session_at_ok st a s Ha); cbn [mbind res_bind]; unfold queue_work; rewrite (session_at_ok st a s Ha);
    cbn [mbind res_bind]; destruct (closing (data s)), (wq s && _); cbn [negb mbind res_bind]; rewrite ?Hsv; try done.
  all: cbn [socks with_works]; rewrite Hsk, Hud; by apply IH.
Qed.

Module LifeDemo.

#[local] Instance idle : Kernel := {| dev_alloc_skb := fun _ _ => true; ktime_get_ns := fun n => Z.of_nat n |}.

(** A process with one kTLS connection, descriptor 3 *)
Definition connection : sock :=
  {| sk_family := AF_INET; sk_type := SOCK_STREAM; sk_protocol := IPPROTO_TCP; tls := Some (1, 1);
     sk_data_ready := Stack 1; sk_write_space := Stack 2; sk_user_data := Null |}.

Definition world : kernel :=
  Kernel_state ∅ ∅ ∅ ∅ {[0%nat := connection]} {[0%nat := File (Socket 0) 1]} {[3 := 0%nat]} ∅ ∅ [] [] [] ∅ 0 1 [].

Definition request : attach := {| abi_major := 0; abi_minor := 3; attach_tcp_fd := 3; attach_mtu := 1400; session_fd := 0 |}.

(** Everything works; the session gets descriptor [fd]. *)
Definition works_well (fd : Z) : attach_env :=
  {| uarg := Some request; kzalloc := true; kmalloc := true; ppp_register_channel := 0; ppp_channel_index := 7;
     alloc_workqueue := true; get_unused_fd_flags := fd; anon_inode_getfile := 0 |}.

Lemma world_kinds f x : files world !! f = Some x -> f = 0%nat /\ x = File (Socket 0) 1.
Proof. cbn. rewrite lookup_singleton_Some. by intros [<- <-]. Qed.

Lemma world_started : started world.
Proof.
  constructor; try done.
  - constructor; cbn.
    + intros f x [-> ->]%world_kinds. done.
    + intros f. split; [by intros ?%not_elem_of_empty|]. by intros (x & [_ ->]%world_kinds & ?).
    + intros i f. rewrite lookup_singleton_Some. intros [_ <-]. by eexists.
    + intros f [x [-> _]%world_kinds]. lia.
  - intros f a. unfold kind_at. destruct (files world !! f) as [x|] eqn:E; [|done]. by apply world_kinds in E as [_ ->].
  - intros f k. unfold kind_at. destruct (files world !! f) as [x|] eqn:E; [|done]. apply world_kinds in E as [_ ->].
    cbn. intros [= <-]. by eexists.
  - intros k o. cbn. rewrite lookup_singleton_Some. intros [_ <-]. by exists 1%nat, 2%nat.
Qed.

Lemma world_attachable : attachable world (works_well 4) request 0 0 connection.
Proof. constructor; try done. split; [done|]. split_and!; [by left | done | done |]. by exists 1, 1. Qed.


(** The life of one session *)
Definition session : list op :=
  [Attach true (works_well 4); Attach_end 0 4 true; Softirq sstp_sk_data_ready 0; Hook sstp_sk_data_ready 0 0; Rx 0 [];
   Xmit 0 [1; 2; 3]; Xmit_end 0 [1; 2; 3]; Close 3; Ioctl 4 SSTP_IOC_DETACH false; Close 4; Fput 1; Put 0; Fput 0].

Ltac steps :=
  lazymatch goal with
  | |- disciplined _ [] _ => exact I
  | |- _ => split; [|let E := fresh "E" in intros ? E; vm_compute in E; injection E as <-; steps]
  end.

Lemma session_disciplined : disciplined 1 session world.
Proof.
  unfold session. steps; try done.
  intros a Ea. split_and!; intros; by apply not_elem_of_nil.
Qed.

Lemma sessions_never_used_after_free_witness :
  exists st, run 1 session world = Ok st /\ heap st = ∅ /\ length (freed st) = 1%nat /\ Forall nothing_queued (freed st).
Proof.
  destruct (sessions_never_used_after_free 1 world session world_started session_disciplined) as (st & E & _ & _ & Hfr).
  exists st. split; [exact E|]. assert (Some (heap st, length (freed st)) = Some (∅, 1%nat)) as [= -> ->]; [|by repeat split].
  transitivity (match run 1 session world with Ok st => Some (heap st, length (freed st)) | _ => None end); [by rewrite E|].
  vm_compute. reflexivity.
Defined.

(** An attached session on descriptor [fd] *)
Definition attached_as (a : addr) (fd : Z) : list op := [Attach true (works_well fd); Attach_end a fd true].

Definition release (f : nat) (a : addr) (fd : Z) : list op := [Close fd; Fput f; Put a].


(** The peer closes while a reader waits: the reader is told the end of file, and only the next read finds
    the event. *)
Theorem woken_reader_misses_event :
  exists d d' e, rx_round attached (Bytes []) = Ok (d, false) /\
    session_read d SIZEOF_EVENT false true false = Ok (d, Returned 0 None) /\
    session_read d SIZEOF_EVENT false false false = Ok (d', Returned SIZEOF_EVENT (Some e)) /\ evt_type e = PEER_CLOSED.
Proof. eexists _, _, _. repeat (split; [vm_compute; reflexivity|]). reflexivity. Qed.

End LifeDemo.
