(* ===== verification/Netlink.v ===== *)
(** * Netlink messages ([src/src/netlink.rs])

    [MessageBuf] with its operations, the structures written through [bytes_of], the socket wrapper and
    [drain_acks].  Native byte order is that of the little-endian targets the server runs on.  What the
    builder writes and what a receiver reads is proved in [NetlinkProps.v]. *)

From stdpp Require Import gmap.
From S2P Require Import Prelude RustText Os.

(** ** Native byte order *)

(** [uN::to_ne_bytes] for [N = 8 * n]; a negative value is written in two's complement *)
Fixpoint to_ne (n : nat) (v : Z) : bytes :=
  match n with
  | O => []
  | S n => v mod 256 :: to_ne n (v / 256)
  end.

Fixpoint of_ne (l : bytes) : Z :=
  match l with
  | [] => 0
  | b :: l => b + 256 * of_ne l
  end.

(** [i32::from_ne_bytes] *)
Definition i32_of_ne (l : bytes) : Z :=
  let v := of_ne l in if v <? 2 ^ 31 then v else v - 2 ^ 32.

(** [i32::try_from(u32)] with its [expect] *)
Definition i32_try_from {E} (v : Z) : res E Z := if v <? 2 ^ 31 then Ok v else Panic.

(** ** Constants and structures *)

Definition NLM_F_REQUEST : Z := 0x01.
Definition NLM_F_ACK : Z := 0x04.
Definition NLM_F_REPLACE : Z := 0x100.
Definition NLM_F_EXCL : Z := 0x200.
Definition NLM_F_CREATE : Z := 0x400.
Definition NLM_F_APPEND : Z := 0x800.
Definition NLMSG_ERROR : Z := 2.
Definition NLMSG_HDRLEN : Z := 16.
Definition NLA_F_NESTED : Z := 0x8000.

(** [bytes_of] of a structure *)
Class Repr (T : Type) := bytes_of : T -> bytes.

Record nlmsghdr := { nlmsg_len : Z; nlmsg_type : Z; nlmsg_flags : Z; nlmsg_seq : Z; nlmsg_pid : Z }.

#[export] Instance nlmsghdr_repr : Repr nlmsghdr := fun h =>
  to_ne 4 (nlmsg_len h) ++ to_ne 2 (nlmsg_type h) ++ to_ne 2 (nlmsg_flags h) ++ to_ne 4 (nlmsg_seq h) ++
  to_ne 4 (nlmsg_pid h).

Record Nlattr := { nla_len : Z; nla_type : Z }.

#[export] Instance nlattr_repr : Repr Nlattr := fun h => to_ne 2 (nla_len h) ++ to_ne 2 (nla_type h).

Definition nlmsg_align (n : Z) : Z := Z.land (n + 3) (Z.lnot 3).

(** ** The builder *)

Module MessageBuf.

Record t := { buf : bytes; nest_stack : list Z; seq : Z; flags : Z }.

Definition with_buf (m : t) (b : bytes) : t :=
  {| buf := b; nest_stack := nest_stack m; seq := seq m; flags := flags m |}.

(** The loop of [pad_to_4]; three zeros are always enough. *)
Fixpoint pad_loop (fuel : nat) (b : bytes) : bytes :=
  match fuel with
  | O => b
  | S fuel => if len b mod 4 =? 0 then b else pad_loop fuel (b ++ [0])
  end.

Definition pad_to_4 (m : t) : t := with_buf m (pad_loop 3 (buf m)).

Definition new (msg_type flags seq : Z) : t :=
  {| buf := bytes_of {| nlmsg_len := 0; nlmsg_type := msg_type; nlmsg_flags := flags; nlmsg_seq := seq; nlmsg_pid := 0 |};
     nest_stack := []; seq := seq; flags := flags |}.

Section Builder.
Context {E : Type}.

Definition push_struct {T} {r : Repr T} (v : T) (m : t) : res E t :=
  Ok (pad_to_4 (with_buf m (buf m ++ bytes_of v))).

Definition push_attr_bytes (attr_type : Z) (payload : bytes) (m : t) : res E t :=
  let total := 4 + len payload in
  if total <=? 65535 then
    Ok (pad_to_4 (with_buf m (buf m ++ bytes_of {| nla_len := total; nla_type := attr_type |} ++ payload)))
  else Panic.

Definition push_attr_u8 (attr_type value : Z) : t -> res E t := push_attr_bytes attr_type [value].

Definition push_attr_be32 (attr_type value : Z) : t -> res E t :=
  push_attr_bytes attr_type (to_be32 value).

(** [CStr::to_bytes_with_nul] of a string without its terminator *)
Definition with_nul (s : bytes) : bytes := s ++ [0].

Definition push_attr_cstr (attr_type : Z) (value : bytes) : t -> res E t :=
  push_attr_bytes attr_type (with_nul value).

Definition nest_begin (attr_type : Z) (m : t) : res E t :=
  Ok {| buf := buf m ++ bytes_of {| nla_len := 0; nla_type := Z.lor attr_type NLA_F_NESTED |};
        nest_stack := len (buf m) :: nest_stack m; seq := seq m; flags := flags m |}.

Definition nest_end (m : t) : res E t :=
  match nest_stack m with
  | [] => Panic
  | off :: rest =>
      let n := len (buf m) - off in
      if n <=? 65535 then
        b ← copy_slice (buf m) off (off + 2) (to_ne 2 n);
        Ok (pad_to_4 {| buf := b; nest_stack := rest; seq := seq m; flags := flags m |})
      else Panic
  end.

Definition finalize (m : t) : res E t :=
  match nest_stack m with
  | [] =>
      if len (buf m) <=? U32_MAX then
        b ← copy_slice (buf m) 0 4 (to_ne 4 (len (buf m)));
        Ok (with_buf m b)
      else Panic
  | _ => Panic
  end.

(** A message built by a sequence of calls. *)
Fixpoint calls (ops : list (t -> res E t)) (m : t) : res E t :=
  match ops with
  | [] => Ok m
  | op :: ops => m ← op m; calls ops m
  end.

End Builder.

End MessageBuf.

(** ** The socket *)

Module NetlinkSocket.

Section Socket.
Context {os : Os}.

Definition open (family : Z) : M io_error Z :=
  r ← checked (Sys_socket family);
  let fd := r.1.1 in
  owned fd (_ ← checked (Sys_bind fd); mret fd).

Definition send (fd : Z) (b : bytes) : M io_error () :=
  r ← checked (Sys_sendto fd b);
  if negb (r.1.1 =? len b) then throw OtherError else mret tt.

Definition recv_into (fd : Z) (buf : bytes) : M io_error bytes :=
  r ← checked (Sys_recv fd (len buf));
  let '(n, _, out) := r in
  lift (slice (take (length buf) out ++ drop (length out) buf) 0 n).

End Socket.

End NetlinkSocket.

(** ** Acknowledgements *)

Inductive DrainError :=
| Truncated
| Kernel (errno : Z).

Definition read_nlmsghdr (b : bytes) : nlmsghdr :=
  {| nlmsg_len := of_ne (sub b 0 4); nlmsg_type := of_ne (sub b 4 6); nlmsg_flags := of_ne (sub b 6 8);
     nlmsg_seq := of_ne (sub b 8 12); nlmsg_pid := of_ne (sub b 12 16) |}.

(** [-err], which overflows on the least [i32] *)
Definition neg_i32 {bp : BuildProfile} {F} (err : Z) : res F Z :=
  if err =? - 2 ^ 31 then (if bp : bool then Panic else Ok err) else Ok (- err).

(** The loop of [drain_acks]; every turn moves on by 16 bytes or more. *)
Fixpoint drain_loop {bp : BuildProfile} (fuel : nat) (b : bytes) (offset : Z) (remaining : gset Z) :
    res DrainError (gset Z) :=
  match fuel with
  | O => Panic
  | S fuel =>
      if offset + NLMSG_HDRLEN <=? len b then
        rest ← slice_from b offset;
        let hdr := read_nlmsghdr rest in
        let msg_len := nlmsg_len hdr in
        if (msg_len <? NLMSG_HDRLEN) || (len b <? offset + msg_len) then Err Truncated
        else
          remaining ←
            (if nlmsg_type hdr =? NLMSG_ERROR then
               if msg_len <? NLMSG_HDRLEN + 4 then Err Truncated
               else
                 err_bytes ← slice b (offset + NLMSG_HDRLEN) (offset + NLMSG_HDRLEN + 4);
                 let err := i32_of_ne err_bytes in
                 if negb (err =? 0) then e ← neg_i32 err; Err (Kernel e)
                 else Ok (remaining ∖ {[nlmsg_seq hdr]})
             else Ok remaining);
          drain_loop fuel b (offset + nlmsg_align msg_len) remaining
      else Ok remaining
  end.

Definition drain_acks {bp : BuildProfile} (b : bytes) (remaining : gset Z) : res DrainError (gset Z) :=
  drain_loop (S (length b)) b 0 remaining.
