(* ===== verification/NetlinkProps.v ===== *)
(** * Netlink messages read back

    Attributes as trees, their encoding, and the walk of the receiving side that reads them back
    (netlink(7)): a 4-byte header with length and type, the payload, padding to four bytes, and a flag on
    the type of an attribute that holds attributes.

    [zip] is a message under construction, with the attributes pushed so far at each open level; each
    operation of the builder is a step of [zip].  [ops_of] are the calls that push a tree, so that an
    encoder which makes these calls sends a message that reads back as its trees. *)

From stdpp Require Import gmap.
From S2P Require Import Prelude RustText Os Netlink.

(** ** Native byte order *)

Lemma to_ne_length n v : length (to_ne n v) = n.
Proof. revert v. induction n as [|n IH]; intros v; [done|]. cbn. by rewrite IH. Qed.

#[export] Hint Rewrite to_ne_length : lens.

Lemma of_to_ne n v : of_ne (to_ne n v) = v mod 256 ^ Z.of_nat n.
Proof.
  revert v. induction n as [|n IH]; intros v; cbn [to_ne of_ne]; [by rewrite Z.mod_1_r|].
  rewrite IH, Nat2Z.inj_succ, Z.pow_succ_r by lia. rewrite Z.rem_mul_r by lia. lia.
Qed.

Lemma of_to_ne_small n v : 0 <= v < 256 ^ Z.of_nat n -> of_ne (to_ne n v) = v.
Proof. intros. by rewrite of_to_ne, Z.mod_small. Qed.

Lemma i32_to_ne v : - 2 ^ 31 <= v < 2 ^ 31 -> i32_of_ne (to_ne 4 v) = v.
Proof.
  intros Hv. unfold i32_of_ne. rewrite of_to_ne. change (256 ^ Z.of_nat 4) with (2 ^ 32).
  destruct (decide (0 <= v)) as [?|?].
  - rewrite Z.mod_small by lia. destruct (Z.ltb_spec v (2 ^ 31)); lia.
  - rewrite <- (Z.mod_add v 1) by lia. rewrite Z.mod_small by lia. destruct (Z.ltb_spec (v + 1 * 2 ^ 32) (2 ^ 31)); lia.
Qed.

Lemma nlmsg_align_eq n : nlmsg_align n = (n + 3) / 4 * 4.
Proof.
  unfold nlmsg_align. change (Z.lnot 3) with (Z.lnot (Z.ones 2)). rewrite <- Z.ldiff_land, Z.ldiff_ones_r by lia.
  by rewrite Z.shiftl_mul_pow2, Z.shiftr_div_pow2 by lia.
Qed.

(** ** Attribute trees *)

Inductive tree :=
| Flat (ty : Z) (payload : bytes)
| Nested (ty : Z) (inner : list tree).

Section TreeInd.
Context (P : tree -> Prop).
Hypothesis flat : forall ty payload, P (Flat ty payload).
Hypothesis nested : forall ty inner, Forall P inner -> P (Nested ty inner).

Fixpoint tree_ind' (t : tree) : P t :=
  match t with
  | Flat ty payload => flat ty payload
  | Nested ty inner =>
      nested ty inner
        ((fix go (l : list tree) : Forall P l :=
            match l with
            | [] => Forall_nil_2 P
            | x :: l => Forall_cons_2 P x l (tree_ind' x) (go l)
            end) inner)
  end.
End TreeInd.

Definition padding (n : Z) : bytes := zeros ((- n) mod 4).

Fixpoint enc (t : tree) : bytes :=
  match t with
  | Flat ty payload => to_ne 2 (4 + len payload) ++ to_ne 2 ty ++ payload ++ padding (len payload)
  | Nested ty inner =>
      let body := concat (map enc inner) in
      to_ne 2 (4 + len body) ++ to_ne 2 (Z.lor ty NLA_F_NESTED) ++ body
  end.

Definition encs (ts : list tree) : bytes := concat (map enc ts).

#[global] Arguments encs : simpl never.

Lemma encs_app a b : encs (a ++ b) = encs a ++ encs b.
Proof. unfold encs. by rewrite map_app, concat_app. Qed.

Lemma encs_cons t ts : encs (t :: ts) = enc t ++ encs ts.
Proof. done. Qed.

(** Types without the nesting flag, and lengths of 16 bits. *)
Definition ty_ok (ty : Z) : bool := (0 <=? ty) && (ty <? 0x8000).

Fixpoint fits (t : tree) : bool :=
  match t with
  | Flat ty payload => ty_ok ty && (4 + len payload <=? 65535)
  | Nested ty inner => ty_ok ty && (4 + len (encs inner) <=? 65535) && forallb fits inner
  end.

Lemma forallb_fits ts : forallb fits ts = true <-> Forall (fun t => fits t = true) ts.
Proof. rewrite List.forallb_forall, List.Forall_forall. done. Qed.

Lemma len_padding n : len (padding n) = (- n) mod 4.
Proof. unfold padding, zeros. pose proof (Z.mod_pos_bound (- n) 4 ltac:(lia)). rewrite length_replicate. lia. Qed.

Lemma enc_nested ty inner :
  enc (Nested ty inner) = to_ne 2 (4 + len (encs inner)) ++ to_ne 2 (Z.lor ty NLA_F_NESTED) ++ encs inner.
Proof. done. Qed.

Lemma enc_length t : (4 <= length (enc t))%nat.
Proof. destruct t; cbn [enc]; autorewrite with lens; lia. Qed.

Lemma encs_aligned_of ts : Forall (fun t => len (enc t) mod 4 = 0) ts -> len (encs ts) mod 4 = 0.
Proof.
  induction 1 as [|t ts Ht Hts IH]; [done|]. rewrite encs_cons, length_app, Nat2Z.inj_add. Z.div_mod_to_equations. lia.
Qed.

Lemma enc_aligned t : len (enc t) mod 4 = 0.
Proof.
  induction t as [ty payload|ty inner IH] using tree_ind'.
  - cbn [enc]. autorewrite with lens. pose proof (len_padding (len payload)). Z.div_mod_to_equations. lia.
  - rewrite enc_nested. apply encs_aligned_of in IH. autorewrite with lens. Z.div_mod_to_equations. lia.
Qed.

Lemma encs_aligned ts : len (encs ts) mod 4 = 0.
Proof. apply encs_aligned_of, Forall_true, enc_aligned. Qed.

(** ** The receiving side *)

Fixpoint read_attrs (fuel : nat) (l : bytes) : option (list tree) :=
  match fuel with
  | O => None
  | S fuel =>
      match l with
      | [] => Some []
      | _ =>
          if len l <? 4 then None
          else
            let n := of_ne (sub l 0 2) in
            let ty := of_ne (sub l 2 4) in
            if (n <? 4) || (len l <? n) then None
            else
              let payload := sub l 4 n in
              t ← (if NLA_F_NESTED <=? ty then inner ← read_attrs fuel payload; Some (Nested (ty - NLA_F_NESTED) inner)
                   else Some (Flat ty payload));
              ts ← read_attrs fuel (drop (Z.to_nat (nlmsg_align n)) l);
              Some (t :: ts)
      end
  end.

Lemma ty_nested ty : ty_ok ty = true -> Z.lor ty NLA_F_NESTED = ty + NLA_F_NESTED.
Proof.
  intros Hty. unfold ty_ok in Hty. assert (Hland : Z.land ty NLA_F_NESTED = 0).
  { apply Z.bits_inj'. intros i Hi. rewrite Z.land_spec, Z.bits_0. change NLA_F_NESTED with (2 ^ 15).
    rewrite Z.pow2_bits_eqb by lia. destruct (Z.eqb_spec 15 i) as [<-|]; [|by rewrite andb_false_r].
    destruct (decide (ty = 0)) as [->|]; [done|]. rewrite Z.bits_above_log2; [done|lia|]. apply Z.log2_lt_pow2; lia. }
  pose proof (Z.add_lor_land ty NLA_F_NESTED). lia.
Qed.

(** What the walk sees of an attribute at the head of the list. *)
Lemma head_fields n ty body rest :
  sub (to_ne 2 n ++ to_ne 2 ty ++ body ++ rest) 0 2 = to_ne 2 n /\
  sub (to_ne 2 n ++ to_ne 2 ty ++ body ++ rest) 2 4 = to_ne 2 ty /\
  sub (to_ne 2 n ++ to_ne 2 ty ++ body ++ rest) 4 (4 + len body) = body.
Proof.
  split_and!.
  - apply sub_prefix. by autorewrite with lens.
  - rewrite <- (app_nil_r (to_ne 2 n)), <- !app_assoc. cbn [app]. apply sub_app_mid; autorewrite with lens; lia.
  - rewrite !app_assoc. rewrite <- (app_assoc (to_ne 2 n ++ to_ne 2 ty)). apply sub_app_mid; autorewrite with lens; lia.
Qed.

Lemma read_head fuel n ty body rest :
  4 <= n <= 65535 -> 0 <= ty < 65536 -> n <= 4 + len body ->
  read_attrs (S fuel) (to_ne 2 n ++ to_ne 2 ty ++ body ++ rest) =
  (t ← (if NLA_F_NESTED <=? ty then inner ← read_attrs fuel (sub body 0 (n - 4)); Some (Nested (ty - NLA_F_NESTED) inner)
        else Some (Flat ty (sub body 0 (n - 4))));
   ts ← read_attrs fuel (drop (Z.to_nat (nlmsg_align n - 4)) (body ++ rest));
   Some (t :: ts)).
Proof.
  intros Hn Hty Hb. set (l := to_ne 2 n ++ to_ne 2 ty ++ body ++ rest).
  assert (Hl : len l = 4 + len body + len rest) by (subst l; autorewrite with lens; lia).
  destruct (head_fields n ty body rest) as (H1 & H2 & H3). fold l in H1, H2, H3.
  assert (H4 : sub l 4 n = sub body 0 (n - 4)).
  { rewrite <- H3. rewrite sub_sub by lia. f_equal; lia. }
  assert (H5 : drop (Z.to_nat (nlmsg_align n)) l = drop (Z.to_nat (nlmsg_align n - 4)) (body ++ rest)).
  { subst l. replace (Z.to_nat (nlmsg_align n)) with (4 + Z.to_nat (nlmsg_align n - 4))%nat
      by (rewrite nlmsg_align_eq; Z.div_mod_to_equations; lia). done. }
  assert (Hread : read_attrs (S fuel) l =
    if len l <? 4 then None else
      if (of_ne (sub l 0 2) <? 4) || (len l <? of_ne (sub l 0 2)) then None else
        t ← (if NLA_F_NESTED <=? of_ne (sub l 2 4)
             then inner ← read_attrs fuel (sub l 4 (of_ne (sub l 0 2))); Some (Nested (of_ne (sub l 2 4) - NLA_F_NESTED) inner)
             else Some (Flat (of_ne (sub l 2 4)) (sub l 4 (of_ne (sub l 0 2)))));
        ts ← read_attrs fuel (drop (Z.to_nat (nlmsg_align (of_ne (sub l 0 2)))) l);
        Some (t :: ts)) by done.
  rewrite Hread, H1, H2, !of_to_ne_small, H4, H5 by (change (256 ^ Z.of_nat 2) with 65536; lia).
  by replace (len l <? 4) with false by lia; replace ((n <? 4) || (len l <? n)) with false by lia.
Qed.

Lemma drop_padded n body rest :
  4 + len body = n -> drop (Z.to_nat (nlmsg_align n - 4)) (body ++ padding (len body) ++ rest) = rest.
Proof.
  intros <-. rewrite app_assoc. replace (Z.to_nat _) with (length (body ++ padding (len body))); [apply drop_app_length|].
  rewrite nlmsg_align_eq, length_app. pose proof (len_padding (len body)). Z.div_mod_to_equations. lia.
Qed.

(** The receiving side reads the trees that were encoded. *)
Lemma read_encs fuel ts :
  Forall (fun t => fits t = true) ts -> (length (encs ts) < fuel)%nat -> read_attrs fuel (encs ts) = Some ts.
Proof.
  revert ts. induction fuel as [|fuel IH]; intros ts Hts Hfuel; [lia|].
  destruct Hts as [|t ts Ht Hts]; [done|]. rewrite encs_cons in *. rewrite length_app in Hfuel.
  pose proof (enc_length t) as Hlen.
  assert (Hrest : read_attrs fuel (encs ts) = Some ts) by (apply IH; [done|lia]).
  destruct t as [ty payload|ty inner]; cbn [fits] in Ht.
  - unfold ty_ok in Ht. cbn [enc]. rewrite <- !app_assoc.
    rewrite read_head by lia. replace (NLA_F_NESTED <=? ty) with false by (unfold NLA_F_NESTED; lia).
    rewrite drop_padded by done. rewrite Hrest. cbn. by rewrite sub_all by lia.
  - apply andb_prop in Ht as [[Hty Hlen']%andb_prop Hin]. rewrite enc_nested in Hlen, Hfuel |- *. rewrite ty_nested in * by done.
    unfold ty_ok in Hty. rewrite <- !app_assoc. autorewrite with lens in Hfuel.
    rewrite read_head by (unfold NLA_F_NESTED; lia). replace (NLA_F_NESTED <=? _) with true by (unfold NLA_F_NESTED; lia).
    assert (Hin' : Forall (fun t => fits t = true) inner) by (by apply forallb_fits).
    rewrite sub_all, IH by (done || lia).
    pose proof (encs_aligned inner). replace (encs inner ++ encs ts) with (encs inner ++ padding (len (encs inner)) ++ encs ts).
    2:{ unfold padding. by replace (_ mod 4) with 0 by (Z.div_mod_to_equations; lia). }
    rewrite drop_padded, Hrest by done. cbn. by rewrite Z.add_simpl_r.
Qed.

(** ** The builder *)

Record zip := { base : bytes; top : list tree; opened : list (Z * list tree); z_seq : Z; z_flags : Z }.

Fixpoint zbytes (b : bytes) (fs : list (Z * list tree)) : bytes :=
  match fs with
  | [] => b
  | (ty, ts) :: fs => zbytes b fs ++ to_ne 2 0 ++ to_ne 2 (Z.lor ty NLA_F_NESTED) ++ encs ts
  end.

Fixpoint offsets (b : bytes) (fs : list (Z * list tree)) : list Z :=
  match fs with
  | [] => []
  | _ :: fs => len (zbytes b fs) :: offsets b fs
  end.

Definition render (z : zip) : MessageBuf.t :=
  {| MessageBuf.buf := zbytes (base z ++ encs (top z)) (opened z);
     MessageBuf.nest_stack := offsets (base z ++ encs (top z)) (opened z);
     MessageBuf.seq := z_seq z; MessageBuf.flags := z_flags z |}.

Definition zpush (t : tree) (z : zip) : zip :=
  match opened z with
  | [] => {| base := base z; top := top z ++ [t]; opened := []; z_seq := z_seq z; z_flags := z_flags z |}
  | (ty, ts) :: fs =>
      {| base := base z; top := top z; opened := (ty, ts ++ [t]) :: fs; z_seq := z_seq z; z_flags := z_flags z |}
  end.

Definition zopen (ty : Z) (z : zip) : zip :=
  {| base := base z; top := top z; opened := (ty, []) :: opened z; z_seq := z_seq z; z_flags := z_flags z |}.

Definition aligned (z : zip) : Prop := len (base z) mod 4 = 0.

Lemma pad_loop_eq b : MessageBuf.pad_loop 3 b = b ++ padding (len b).
Proof.
  unfold padding. pose proof (Z.mod_pos_bound (len b) 4 ltac:(lia)). cbn [MessageBuf.pad_loop].
  assert (Hm : (- len b) mod 4 = (4 - len b mod 4) mod 4) by (Z.div_mod_to_equations; lia).
  rewrite Hm. autorewrite with lens. cbn [length].
  assert (len b mod 4 = 0 \/ len b mod 4 = 1 \/ len b mod 4 = 2 \/ len b mod 4 = 3) as Hc by lia.
  destruct Hc as [Hc|[Hc|[Hc|Hc]]]; rewrite Hc; cbn [Z.eqb]; [by rewrite app_nil_r|..].
  - replace (Z.of_nat (length b + 1) mod 4 =? 0) with false by (Z.div_mod_to_equations; lia).
    replace (Z.of_nat (length b + 1 + 1) mod 4 =? 0) with false by (Z.div_mod_to_equations; lia).
    by rewrite <- !app_assoc.
  - replace (Z.of_nat (length b + 1) mod 4 =? 0) with false by (Z.div_mod_to_equations; lia).
    replace (Z.of_nat (length b + 1 + 1) mod 4 =? 0) with true by (Z.div_mod_to_equations; lia).
    by rewrite <- !app_assoc.
  - by replace (Z.of_nat (length b + 1) mod 4 =? 0) with true by (Z.div_mod_to_equations; lia).
Qed.

Lemma padding_0 n : n mod 4 = 0 -> padding n = [].
Proof. intros. unfold padding. by replace (- n mod 4) with 0 by (Z.div_mod_to_equations; lia). Qed.

Lemma zbytes_aligned b fs : len b mod 4 = 0 -> len (zbytes b fs) mod 4 = 0.
Proof.
  intros Hb. induction fs as [|[ty ts] fs IH]; [done|]. cbn [zbytes]. pose proof (encs_aligned ts).
  autorewrite with lens. Z.div_mod_to_equations. lia.
Qed.

Lemma render_aligned z : aligned z -> len (MessageBuf.buf (render z)) mod 4 = 0.
Proof.
  intros Hz. apply zbytes_aligned. pose proof (encs_aligned (top z)). unfold aligned in Hz.
  rewrite length_app, Nat2Z.inj_add. Z.div_mod_to_equations. lia.
Qed.

Lemma encs_snoc ts t : encs (ts ++ [t]) = encs ts ++ enc t.
Proof. rewrite encs_app. unfold encs at 2. cbn. by rewrite app_nil_r. Qed.

(** Pushing a tree appends its encoding and leaves the open levels alone. *)
Lemma render_zpush t z : render (zpush t z) = MessageBuf.with_buf (render z) (MessageBuf.buf (render z) ++ enc t).
Proof.
  destruct z as [b ts [|[ty us] fs] sq fl]; unfold render, zpush, MessageBuf.with_buf; cbn;
    rewrite encs_snoc, <- ?app_assoc; done.
Qed.

Lemma zpush_aligned t z : aligned z -> aligned (zpush t z).
Proof. by destruct z as [b ts [|[ty us] fs] sq fl]. Qed.

Section Calls.
Context {E : Type}.

Lemma push_attr_zip z ty payload :
  aligned z -> fits (Flat ty payload) = true ->
  MessageBuf.push_attr_bytes (E := E) ty payload (render z) = Ok (render (zpush (Flat ty payload) z)).
Proof.
  intros Hz Hf. cbn in Hf. unfold MessageBuf.push_attr_bytes. replace (_ <=? _) with true by lia. f_equal.
  unfold MessageBuf.pad_to_4. cbn [MessageBuf.buf MessageBuf.with_buf]. rewrite pad_loop_eq, render_zpush.
  unfold MessageBuf.with_buf. f_equal. pose proof (render_aligned z Hz). cbn [enc]. unfold bytes_of, nlattr_repr. cbn [nla_len nla_type].
  rewrite <- !app_assoc. do 4 f_equal. unfold padding. f_equal. autorewrite with lens. Z.div_mod_to_equations. lia.
Qed.

Lemma nest_begin_zip z ty : MessageBuf.nest_begin (E := E) ty (render z) = Ok (render (zopen ty z)).
Proof. done. Qed.

Lemma nest_end_zip z ty ts fs :
  aligned z -> opened z = (ty, ts) :: fs -> fits (Nested ty ts) = true ->
  MessageBuf.nest_end (E := E) (render z) =
  Ok (render (zpush (Nested ty ts)
                {| base := base z; top := top z; opened := fs; z_seq := z_seq z; z_flags := z_flags z |})).
Proof.
  intros Hz Ho Hf. rewrite render_zpush. unfold MessageBuf.nest_end, render. rewrite Ho. cbn [offsets zbytes MessageBuf.nest_stack MessageBuf.buf].
  set (w := zbytes _ fs). cbn [fits] in Hf.
  assert (Hn : len (w ++ to_ne 2 0 ++ to_ne 2 (Z.lor ty NLA_F_NESTED) ++ encs ts) - len w = 4 + len (encs ts))
    by (autorewrite with lens; lia).
  rewrite Hn. replace (4 + len (encs ts) <=? 65535) with true by lia.
  rewrite copy_slice_app by (autorewrite with lens; lia). cbn [mbind res_bind]. f_equal.
  unfold MessageBuf.pad_to_4, MessageBuf.with_buf. cbn [MessageBuf.buf MessageBuf.nest_stack MessageBuf.seq MessageBuf.flags].
  rewrite to_ne_length, pad_loop_eq. change (drop 2 (to_ne 2 0 ++ ?x)) with x.
  assert (Ha : len w mod 4 = 0).
  { apply zbytes_aligned. pose proof (encs_aligned (top z)). unfold aligned in Hz.
    rewrite length_app, Nat2Z.inj_add. Z.div_mod_to_equations. lia. }
  pose proof (encs_aligned ts). rewrite padding_0 by (autorewrite with lens; Z.div_mod_to_equations; lia).
  rewrite app_nil_r, enc_nested, <- !app_assoc. done.
Qed.

(** The calls that push a tree. *)
Fixpoint ops_of (t : tree) : list (MessageBuf.t -> res E MessageBuf.t) :=
  match t with
  | Flat ty payload => [MessageBuf.push_attr_bytes ty payload]
  | Nested ty inner => MessageBuf.nest_begin ty :: concat (map ops_of inner) ++ [MessageBuf.nest_end]
  end.

Lemma calls_app ops ops' m : MessageBuf.calls (E := E) (ops ++ ops') m = (m ← MessageBuf.calls ops m; MessageBuf.calls ops' m).
Proof.
  revert m. induction ops as [|op ops IH]; intros m; [done|]. cbn [app MessageBuf.calls].
  destruct (op m); cbn [mbind res_bind]; [apply IH|done|done].
Qed.

Definition zpushes (ts : list tree) (z : zip) : zip := fold_left (fun z t => zpush t z) ts z.

Lemma calls_trees_of ts :
  Forall (fun t => forall z, aligned z -> fits t = true -> MessageBuf.calls (ops_of t) (render z) = Ok (render (zpush t z))) ts ->
  forall z, aligned z -> forallb fits ts = true ->
  MessageBuf.calls (concat (map ops_of ts)) (render z) = Ok (render (zpushes ts z)).
Proof.
  induction 1 as [|t ts Ht Hts IH]; intros z Hz Hf; [done|]. cbn [forallb] in Hf. apply andb_prop in Hf as [H1 H2].
  cbn [map concat]. rewrite calls_app, Ht by done. cbn [mbind res_bind]. apply IH; [by apply zpush_aligned|done].
Qed.

Lemma zpushes_opened ts ty us z fs :
  opened z = (ty, us) :: fs ->
  zpushes ts z = {| base := base z; top := top z; opened := (ty, us ++ ts) :: fs; z_seq := z_seq z; z_flags := z_flags z |}.
Proof.
  revert z us. induction ts as [|t ts IH]; intros z us Ho; cbn.
  - rewrite app_nil_r, <- Ho. by destruct z.
  - rewrite (IH _ (us ++ [t])) by (unfold zpush; by rewrite Ho). unfold zpush. rewrite Ho. cbn. by rewrite <- app_assoc.
Qed.

Lemma calls_tree t z : aligned z -> fits t = true -> MessageBuf.calls (ops_of t) (render z) = Ok (render (zpush t z)).
Proof.
  revert z. induction t as [ty payload|ty inner IH] using tree_ind'; intros z Hz Hf; cbn [ops_of MessageBuf.calls].
  - by rewrite push_attr_zip.
  - rewrite nest_begin_zip. cbn [mbind res_bind]. rewrite calls_app, (calls_trees_of inner IH) by (done || cbn in Hf; lia).
    cbn [mbind res_bind MessageBuf.calls]. rewrite (zpushes_opened inner ty [] (zopen ty z) (opened z)) by done.
    cbn [app]. by rewrite (nest_end_zip _ ty inner (opened z)) by done.
Qed.

Lemma calls_trees ts z :
  aligned z -> forallb fits ts = true ->
  MessageBuf.calls (concat (map ops_of ts)) (render z) = Ok (render (zpushes ts z)).
Proof. apply calls_trees_of, Forall_true. intros t. apply calls_tree. Qed.
End Calls.

(** ** Messages *)

Definition read_message (struct_len : Z) (b : bytes) : option (nlmsghdr * bytes * list tree) :=
  if len b <? NLMSG_HDRLEN + struct_len then None
  else
    ts ← read_attrs (S (length b)) (drop (Z.to_nat (NLMSG_HDRLEN + struct_len)) b);
    Some (read_nlmsghdr b, sub b NLMSG_HDRLEN (NLMSG_HDRLEN + struct_len), ts).

Lemma read_header h rest :
  0 <= nlmsg_len h < 2 ^ 32 -> u16 (nlmsg_type h) -> u16 (nlmsg_flags h) -> u32 (nlmsg_seq h) -> u32 (nlmsg_pid h) ->
  read_nlmsghdr (bytes_of h ++ rest) = h.
Proof.
  intros Hl Ht Hf Hs Hp. destruct h as [l ty fl sq pid]; cbn in Hl, Ht, Hf, Hs, Hp. unfold read_nlmsghdr, bytes_of, nlmsghdr_repr.
  cbn [nlmsg_len nlmsg_type nlmsg_flags nlmsg_seq nlmsg_pid]. rewrite <- !app_assoc.
  unfold u16, u32 in *. f_equal.
  - rewrite sub_prefix by done. apply of_to_ne_small. done.
  - rewrite sub_app_mid by done. apply of_to_ne_small. done.
  - rewrite (app_assoc (to_ne 4 l)), sub_app_mid by done. apply of_to_ne_small. done.
  - rewrite (app_assoc (to_ne 4 l)), (app_assoc _ (to_ne 2 fl)), sub_app_mid by done. apply of_to_ne_small. done.
  - rewrite (app_assoc (to_ne 4 l)), (app_assoc _ (to_ne 2 fl)), (app_assoc _ (to_ne 4 sq)), sub_app_mid by done.
    apply of_to_ne_small. done.
Qed.

(** A message of a structure and attribute trees. *)
Definition message_ops {E T} {r : Repr T} (v : T) (ts : list tree) : list (MessageBuf.t -> res E MessageBuf.t) :=
  MessageBuf.push_struct v :: concat (map ops_of ts) ++ [MessageBuf.finalize].

Definition sent {T} {r : Repr T} (v : T) (ts : list tree) : bytes := bytes_of v ++ encs ts.

(** The message as it is sent: length, header, structure and trees. *)
Definition message_bytes {T} {r : Repr T} (ty fl sq : Z) (v : T) (ts : list tree) : bytes :=
  bytes_of {| nlmsg_len := NLMSG_HDRLEN + len (sent v ts); nlmsg_type := ty; nlmsg_flags := fl; nlmsg_seq := sq; nlmsg_pid := 0 |}
  ++ sent v ts.

Lemma calls_message {E T} {r : Repr T} ty fl sq (v : T) ts :
  len (bytes_of v) mod 4 = 0 -> forallb fits ts = true -> NLMSG_HDRLEN + len (sent v ts) <= U32_MAX ->
  MessageBuf.calls (E := E) (message_ops v ts) (MessageBuf.new ty fl sq) =
  Ok {| MessageBuf.buf := message_bytes ty fl sq v ts; MessageBuf.nest_stack := []; MessageBuf.seq := sq; MessageBuf.flags := fl |}.
Proof.
  intros Hv Hts Hlen. unfold message_ops. cbn [MessageBuf.calls]. unfold MessageBuf.push_struct. cbn [mbind res_bind].
  set (h := {| nlmsg_len := 0; nlmsg_type := ty; nlmsg_flags := fl; nlmsg_seq := sq; nlmsg_pid := 0 |}).
  set (z := {| base := bytes_of h ++ bytes_of v; top := []; opened := []; z_seq := sq; z_flags := fl |}).
  assert (Hh : len (bytes_of h) = 16) by done.
  assert (Hz : aligned z) by (unfold aligned; cbn [base z]; rewrite length_app, Nat2Z.inj_add, Hh; Z.div_mod_to_equations; lia).
  assert (Hnew : MessageBuf.pad_to_4 (MessageBuf.with_buf (MessageBuf.new ty fl sq) (MessageBuf.buf (MessageBuf.new ty fl sq) ++ bytes_of v)) = render z).
  { unfold MessageBuf.pad_to_4, MessageBuf.with_buf, render. cbn [MessageBuf.buf MessageBuf.nest_stack MessageBuf.seq MessageBuf.flags MessageBuf.new].
    cbn [base top opened z_seq z_flags z zbytes offsets]. change (encs []) with (@nil Z). rewrite app_nil_r, pad_loop_eq, padding_0; [by rewrite app_nil_r|exact Hz]. }
  rewrite Hnew, calls_app, calls_trees by done. cbn [mbind res_bind MessageBuf.calls].
  assert (Hr : render (zpushes ts z) = {| MessageBuf.buf := bytes_of h ++ sent v ts; MessageBuf.nest_stack := []; MessageBuf.seq := sq; MessageBuf.flags := fl |}).
  { assert (G : forall us z, opened z = [] -> zpushes us z =
      {| base := base z; top := top z ++ us; opened := []; z_seq := z_seq z; z_flags := z_flags z |}).
    { induction us as [|u us IH]; intros y Hy; cbn; [rewrite app_nil_r, <- Hy; by destruct y|].
      unfold zpush at 2. rewrite Hy, IH by done. cbn. by rewrite <- app_assoc. }
    rewrite G by done. unfold render, sent. cbn [base top opened z_seq z_flags z zbytes offsets app]. by rewrite <- app_assoc. }
  rewrite Hr. unfold MessageBuf.finalize. cbn [MessageBuf.nest_stack MessageBuf.buf].
  rewrite length_app, Nat2Z.inj_add, Hh. unfold NLMSG_HDRLEN in Hlen. replace (_ <=? _) with true by lia.
  change (bytes_of h ++ sent v ts) with ([] ++ (bytes_of h ++ sent v ts)).
  rewrite copy_slice_app; [done|done|by rewrite to_ne_length|rewrite to_ne_length, length_app; lia].
Qed.

(** What a receiver reads of the message. *)
Lemma read_message_bytes {T} {r : Repr T} ty fl sq (v : T) ts :
  u16 ty -> u16 fl -> u32 sq -> forallb fits ts = true -> NLMSG_HDRLEN + len (sent v ts) <= U32_MAX ->
  read_message (len (bytes_of v)) (message_bytes ty fl sq v ts) =
  Some ({| nlmsg_len := len (message_bytes ty fl sq v ts); nlmsg_type := ty; nlmsg_flags := fl; nlmsg_seq := sq; nlmsg_pid := 0 |},
        bytes_of v, ts).
Proof.
  intros Hty Hfl Hsq Hts Hlen. unfold message_bytes. set (h := {| nlmsg_len := _ |}).
  assert (Hh : len (bytes_of h) = 16) by done. set (b := bytes_of h ++ sent v ts).
  assert (Hb : len b = NLMSG_HDRLEN + len (sent v ts)) by (subst b; rewrite length_app, Nat2Z.inj_add, Hh; done).
  unfold read_message. replace (len b <? _) with false
    by (rewrite Hb; unfold sent; rewrite length_app, Nat2Z.inj_add; unfold NLMSG_HDRLEN; lia).
  assert (Hdrop : drop (Z.to_nat (NLMSG_HDRLEN + len (bytes_of v))) b = encs ts).
  { subst b. unfold sent. rewrite app_assoc. replace (Z.to_nat _) with (length (bytes_of h ++ bytes_of v)); [apply drop_app_length|].
    rewrite length_app. unfold NLMSG_HDRLEN. lia. }
  assert (Hsub : sub b NLMSG_HDRLEN (NLMSG_HDRLEN + len (bytes_of v)) = bytes_of v).
  { subst b. unfold sent. apply sub_app_mid; unfold NLMSG_HDRLEN; lia. }
  rewrite Hdrop, Hsub, read_encs; [|by apply forallb_fits|subst b; unfold sent; rewrite !length_app; lia].
  cbn [mbind option_bind]. rewrite Hb. subst b. rewrite read_header; [done|..]; cbn; try done.
  unfold NLMSG_HDRLEN, U32_MAX in *. lia.
Qed.

(** Every netlink message the server builds is well formed: whatever structure of a multiple of four
    bytes and whatever trees of attributes with 16-bit lengths are pushed by properly nested calls, the
    builder does not panic, and a receiver that walks the finished message reads its own length, the
    type, flags and sequence number, the structure and exactly those trees. *)
Theorem netlink_messages_read_back {E T} {r : Repr T} ty fl sq (v : T) ts :
  u16 ty -> u16 fl -> u32 sq -> len (bytes_of v) mod 4 = 0 -> forallb fits ts = true ->
  NLMSG_HDRLEN + len (sent v ts) <= U32_MAX ->
  exists m, MessageBuf.calls (E := E) (message_ops v ts) (MessageBuf.new ty fl sq) = Ok m /\
    MessageBuf.seq m = sq /\ MessageBuf.flags m = fl /\
    read_message (len (bytes_of v)) (MessageBuf.buf m) =
    Some ({| nlmsg_len := len (MessageBuf.buf m); nlmsg_type := ty; nlmsg_flags := fl; nlmsg_seq := sq; nlmsg_pid := 0 |},
          bytes_of v, ts).
Proof.
  intros. eexists. split; [by apply calls_message|]. split_and!; [done|done|]. by apply read_message_bytes.
Qed.

(** ** Acknowledgements *)

Record reply := { r_type : Z; r_flags : Z; r_seq : Z; r_pid : Z; r_payload : bytes }.

Definition reply_ok (r : reply) : Prop :=
  u16 (r_type r) /\ u16 (r_flags r) /\ u32 (r_seq r) /\ u32 (r_pid r) /\ NLMSG_HDRLEN + len (r_payload r) < 2 ^ 32.

Definition reply_bytes (r : reply) : bytes :=
  bytes_of {| nlmsg_len := NLMSG_HDRLEN + len (r_payload r); nlmsg_type := r_type r; nlmsg_flags := r_flags r;
              nlmsg_seq := r_seq r; nlmsg_pid := r_pid r |} ++ r_payload r ++ padding (len (r_payload r)).

(** What the replies of one datagram acknowledge. *)
Fixpoint acked {bp : BuildProfile} (rs : list reply) (remaining : gset Z) : res DrainError (gset Z) :=
  match rs with
  | [] => Ok remaining
  | r :: rs =>
      if r_type r =? NLMSG_ERROR then
        if len (r_payload r) <? 4 then Err Truncated
        else
          let err := i32_of_ne (sub (r_payload r) 0 4) in
          if err =? 0 then acked rs (remaining ∖ {[r_seq r]}) else e ← neg_i32 err; Err (Kernel e)
      else acked rs remaining
  end.

Lemma len_reply_bytes r : len (reply_bytes r) = nlmsg_align (NLMSG_HDRLEN + len (r_payload r)).
Proof.
  unfold reply_bytes. rewrite nlmsg_align_eq. rewrite !length_app, !Nat2Z.inj_add, len_padding.
  change (len (bytes_of _)) with 16. unfold NLMSG_HDRLEN. Z.div_mod_to_equations. lia.
Qed.

Section Drain.
Context {bp : BuildProfile}.

Lemma drain_loop_replies fuel pre rs remaining :
  Forall reply_ok rs -> (length (concat (map reply_bytes rs)) < fuel)%nat ->
  drain_loop fuel (pre ++ concat (map reply_bytes rs)) (len pre) remaining = acked rs remaining.
Proof.
  revert pre rs remaining. induction fuel as [|fuel IH]; intros pre rs remaining Hrs Hf; [lia|].
  destruct Hrs as [|r rs Hr Hrs]; cbn [map concat acked drain_loop].
  { rewrite app_nil_r. by replace (_ <=? _) with false by (unfold NLMSG_HDRLEN; lia). }
  cbn [map concat] in Hf. rewrite length_app in Hf. destruct Hr as (H1 & H2 & H3 & H4 & H5).
  set (l := concat (map reply_bytes rs)) in *. pose proof (len_reply_bytes r) as Hlen.
  assert (Hal : NLMSG_HDRLEN + len (r_payload r) <= nlmsg_align (NLMSG_HDRLEN + len (r_payload r)))
    by (rewrite nlmsg_align_eq; Z.div_mod_to_equations; lia).
  assert (Hb : len (pre ++ reply_bytes r ++ l) = len pre + len (reply_bytes r) + len l) by (autorewrite with lens; lia).
  unfold NLMSG_HDRLEN in *. replace (len pre + 16 <=? _) with true by lia.
  rewrite slice_from_ok by lia. cbn [mbind res_bind]. rewrite Nat2Z.id, drop_app_length.
  assert (Hhdr : read_nlmsghdr (reply_bytes r ++ l) =
    {| nlmsg_len := 16 + len (r_payload r); nlmsg_type := r_type r; nlmsg_flags := r_flags r; nlmsg_seq := r_seq r;
       nlmsg_pid := r_pid r |}).
  { unfold reply_bytes. rewrite <- !app_assoc. apply read_header; cbn; done || lia. }
  rewrite Hhdr. cbn [nlmsg_len nlmsg_type nlmsg_seq]. replace ((_ <? _) || (_ <? _)) with false by lia.
  assert (Hnext : forall rem, drain_loop fuel (pre ++ reply_bytes r ++ l) (len pre + nlmsg_align (16 + len (r_payload r))) rem
                              = acked rs rem).
  { intros rem. rewrite app_assoc, <- Hlen. replace (len pre + len (reply_bytes r)) with (len (pre ++ reply_bytes r))
      by (autorewrite with lens; lia). apply IH; [done|]. subst l. lia. }
  destruct (r_type r =? NLMSG_ERROR); [|cbn [mbind res_bind]; apply Hnext].
  destruct (Z.ltb_spec (len (r_payload r)) 4); [by replace (16 + len (r_payload r) <? 16 + 4) with true by lia|].
  replace (16 + len (r_payload r) <? 16 + 4) with false by lia.
  rewrite slice_ok by lia. cbn [mbind res_bind].
  assert (Hsub : sub (pre ++ reply_bytes r ++ l) (len pre + 16) (len pre + 16 + 4) = sub (r_payload r) 0 4).
  { unfold reply_bytes. set (h := bytes_of _). rewrite <- !app_assoc, (app_assoc pre h).
    set (w := (pre ++ h) ++ r_payload r ++ padding (len (r_payload r)) ++ l).
    assert (Hmid : sub w (len pre + 16) (len pre + 16 + len (r_payload r)) = r_payload r)
      by (apply sub_app_mid; rewrite length_app; change (length h) with 16%nat; lia).
    rewrite <- Hmid at 1. rewrite sub_sub by lia. by rewrite Z.add_0_r. }
  rewrite Hsub. destruct (i32_of_ne _ =? 0); cbn [negb mbind res_bind]; [apply Hnext|]. by destruct (neg_i32 _).
Qed.

(** No datagram makes the walk panic or run out of turns, unless a debug build meets the error number that
    has no positive counterpart. *)
Lemma drain_loop_total fuel b offset remaining :
  bp = false -> 0 <= offset -> Z.max 0 (len b - offset) < Z.of_nat fuel ->
  drain_loop fuel b offset remaining <> Panic.
Proof.
  intros Hbp. revert offset remaining. induction fuel as [|fuel IH]; intros offset remaining Ho Hf; cbn [drain_loop]; [lia|].
  unfold NLMSG_HDRLEN. destruct (Z.leb_spec (offset + 16) (len b)); [|done].
  rewrite slice_from_ok by lia. cbn [mbind res_bind]. set (h := read_nlmsghdr _).
  destruct ((nlmsg_len h <? 16) || (len b <? offset + nlmsg_len h)) eqn:E; [done|].
  assert (Hnext : forall rem, drain_loop fuel b (offset + nlmsg_align (nlmsg_len h)) rem <> Panic).
  { intros rem. assert (nlmsg_len h <= nlmsg_align (nlmsg_len h)) by (rewrite nlmsg_align_eq; Z.div_mod_to_equations; lia).
    apply IH; lia. }
  destruct (nlmsg_type h =? NLMSG_ERROR); [|apply Hnext].
  destruct (Z.ltb_spec (nlmsg_len h) (16 + 4)); [done|]. rewrite slice_ok by lia. cbn [mbind res_bind].
  case_match; [|cbn [mbind res_bind]; apply Hnext]. unfold neg_i32. rewrite Hbp. by case_match.
Qed.

Lemma drain_acks_replies rs remaining :
  Forall reply_ok rs -> drain_acks (concat (map reply_bytes rs)) remaining = acked rs remaining.
Proof. intros Hrs. exact (drain_loop_replies _ [] rs remaining Hrs (Nat.lt_succ_diag_r _)). Qed.

(** Acknowledgements are read exactly: over a datagram of any replies, [drain_acks] strikes out the
    sequence numbers of the replies with error number zero, passes over replies of other kinds, and stops
    at the first error with its positive number, or at one too short to hold a number.  A release build
    never panics on a datagram, whatever it holds. *)
Theorem acknowledgements_read_exactly rs remaining :
  Forall reply_ok rs ->
  drain_acks (concat (map reply_bytes rs)) remaining = acked rs remaining /\
  (bp = false -> forall b rem, drain_acks b rem <> Panic).
Proof.
  intros Hrs. split.
  - by apply drain_acks_replies.
  - intros Hbp b rem. apply drain_loop_total; [done|lia|lia].
Qed.
End Drain.

(** ** Exchanges

    A client sends a finished message on its socket and reads one datagram of replies. *)

Section Exchange.
Context {os : Os} {os_ok : OsOk os} {bp : BuildProfile}.

Lemma recv_into_ok {E} (f : io_error -> E) fd cap h r h' :
  0 <= cap -> on_err f (NetlinkSocket.recv_into fd (zeros cap)) h = (r, h') ->
  r <> Panic /\ sends h' = sends h /\ open_fds h' = open_fds h.
Proof using os_ok.
  intros Hc. unfold NetlinkSocket.recv_into. m_run.
  set (cap' := len (zeros cap)). assert (Hcap : cap' = cap) by (unfold cap', zeros; len_lia).
  destruct (answer h (Sys_recv fd cap')) as [n ints out|e] eqn:Ea; cbn [map_err].
  - intros [= <- <-]. apply recv_bound in Ea. split_and!; [|done|done].
    rewrite slice_ok; [done|]. unfold zeros in *. autorewrite with lens. lia.
  - by intros [= <- <-].
Qed.

Lemma send_ok {E} (f : io_error -> E) fd b h r h' :
  on_err f (NetlinkSocket.send fd b) h = (r, h') ->
  r <> Panic /\ sends h' = sends h ++ [(fd, b)] /\ open_fds h' = open_fds h.
Proof using Type.
  unfold NetlinkSocket.send. m_run. destruct (answer h (Sys_sendto fd b)) as [n ints out|e]; cbn [fst map_err].
  - by destruct (negb (n =? len b)); intros [= <- <-].
  - by intros [= <- <-].
Qed.

(** An exchange sends its message once, and opens and closes nothing. *)
Lemma exchanged {E A} (es er : io_error -> E) fd b cap (k : bytes -> M E A) h r h' :
  0 <= cap -> (forall x g, (k x g).2 = g) ->
  (_ ← on_err es (NetlinkSocket.send fd b); received ← on_err er (NetlinkSocket.recv_into fd (zeros cap)); k received) h = (r, h') ->
  sends h' = sends h ++ [(fd, b)] /\ open_fds h' = open_fds h /\ ((forall x g, (k x g).1 <> Panic) -> r <> Panic).
Proof using os_ok.
  intros Hcap Hk. rewrite bind_eq. destruct (on_err es _ h) as [r1 h1] eqn:Es. apply send_ok in Es as (Hp1 & Hs1 & Ho1).
  destruct r1 as [[]|e|]; [|by intros [= <- <-]|done]. rewrite bind_eq.
  destruct (on_err er _ h1) as [r2 h2] eqn:Er. apply recv_into_ok in Er as (Hp2 & Hs2 & Ho2); [|done].
  destruct r2 as [x|e|]; [|intros [= <- <-]; by rewrite Hs2, Ho2|done].
  intros Hr. pose proof (Hk x h2) as Hg. rewrite Hr in Hg. cbn in Hg. subst h'. rewrite Hs2, Ho2. split_and!; [done|done|].
  intros Hn. specialize (Hn x h2). by rewrite Hr in Hn.
Qed.

Lemma drain_acks_total b rem : bp = false -> drain_acks b rem <> Panic.
Proof using Type. intros Hbp. apply drain_loop_total; [done|lia|lia]. Qed.

(** [f] turns the client [c] into [c'] and makes the requests [rs], or some first ones when it fails. *)
Definition asks {E C R} (sock : C -> Z) (decode : bytes -> option R) (f : M E C) (c c' : C) (rs : list R) : Prop :=
  forall h r h', f h = (r, h') ->
  open_fds h' = open_fds h /\ (bp = false -> r <> Panic) /\ (forall x, r = Ok x -> x = c') /\
  exists bs, sends h' = sends h ++ map (pair (sock c)) bs /\
    (if r is Ok _ then map decode bs = map Some rs else map decode bs `prefix_of` map Some rs).

(** The frame of one exchange. *)
Definition one_message {E} (fd : Z) (b : bytes) (f : M E ()) : Prop :=
  forall h r h', f h = (r, h') ->
  sends h' = sends h ++ [(fd, b)] /\ open_fds h' = open_fds h /\ (bp = false -> r <> Panic).

Section Asks.
Context {E C R : Type} (sock : C -> Z) (decode : bytes -> option R).
Abbreviation asks := (asks (E := E) sock decode).

Lemma asks_one c c' (enc : res E MessageBuf.t) (ex : MessageBuf.t -> M E ()) req :
  (exists m, enc = Ok m /\ one_message (sock c) (MessageBuf.buf m) (ex m) /\ decode (MessageBuf.buf m) = Some req) ->
  asks (m ← lift enc; _ ← ex m; mret c') c c' [req].
Proof using Type.
  intros (m & -> & Hex & Hd) h r h'. m_run. destruct (ex m h) as [r1 h1] eqn:Ex. apply Hex in Ex as (Hs & Ho & Hp).
  destruct r1 as [[]|e|]; intros [= <- <-]; (split_and!; [done|naive_solver|naive_solver|]);
    exists [MessageBuf.buf m]; (split; [done|]); cbn; rewrite Hd; done.
Qed.

Lemma asks_bind f g c c' c'' rs rs' :
  sock c' = sock c -> asks f c c' rs -> asks (g c') c' c'' rs' -> asks (x ← f; g x) c c'' (rs ++ rs').
Proof using Type.
  intros Hsock Hf Hg h r h'. m_run. destruct (f h) as [r1 h1] eqn:Ef.
  destruct (Hf _ _ _ Ef) as (Ho & Hp & Hx & bs & Hs & Hb). destruct r1 as [x|e|].
  - rewrite (Hx x eq_refl). intros Eg. destruct (Hg _ _ _ Eg) as (Ho' & Hp' & Hx' & bs' & Hs' & Hb').
    rewrite Hsock, Hs in Hs'. split_and!; [congruence|done|done|]. exists (bs ++ bs'). split; [by rewrite Hs', map_app, app_assoc|].
    rewrite !map_app, Hb. destruct r; [by rewrite Hb'|by apply prefix_app..].
  - intros [= <- <-]. split_and!; [done|done|done|]. exists bs. split; [done|]. rewrite map_app. by apply prefix_app_r.
  - intros [= <- <-]. split_and!; [done|done|done|]. exists bs. split; [done|]. rewrite map_app. by apply prefix_app_r.
Qed.

Lemma asks_none c : asks (mret c) c c [].
Proof using Type. intros h r h' [= <- <-]. split_and!; [done|done|naive_solver|]. exists []. by rewrite app_nil_r. Qed.
End Asks.
End Exchange.

Lemma netlink_messages_read_back_witness :
  let v : nlmsghdr := {| nlmsg_len := 1; nlmsg_type := 2; nlmsg_flags := 3; nlmsg_seq := 4; nlmsg_pid := 5 |} in
  let ts := [Flat 3 [1; 2; 3; 4; 5]; Nested 2 [Flat 1 [7]; Nested 4 []]] in
  exists m, MessageBuf.calls (E := Empty_set) (message_ops v ts) (MessageBuf.new 36 0x501 U32_MAX) = Ok m /\
    len (MessageBuf.buf m) = 60 /\
    read_message 16 (MessageBuf.buf m) =
    Some ({| nlmsg_len := 60; nlmsg_type := 36; nlmsg_flags := 0x501; nlmsg_seq := U32_MAX; nlmsg_pid := 0 |}, bytes_of v, ts).
Proof.
  intros v ts.
  destruct (netlink_messages_read_back (E := Empty_set) 36 0x501 U32_MAX v ts) as (m & Hm & _ & _ & Hr); try done.
  exists m. assert (Hl : len (MessageBuf.buf m) = 60) by (vm_compute in Hm; by injection Hm as <-).
  split_and!; [done|done|]. rewrite Hl in Hr. exact Hr.
Defined.

Lemma acknowledgements_read_exactly_witness :
  let ok sq := {| r_type := NLMSG_ERROR; r_flags := 0; r_seq := sq; r_pid := 9; r_payload := to_ne 4 0 ++ zeros 17 |} in
  let bad := {| r_type := NLMSG_ERROR; r_flags := 0; r_seq := 3; r_pid := 9; r_payload := to_ne 4 (2 ^ 32 - 17) |} in
  let bp := true : BuildProfile in
  drain_acks (concat (map reply_bytes [ok 1; ok 2])) ({[1; 2; 3]} : gset Z) = Ok {[3]} /\
  drain_acks (concat (map reply_bytes [ok 1; bad; ok 2])) ({[1; 2; 3]} : gset Z) = Err (Kernel 17).
Proof.
  intros ok bad bp.
  assert (Hok : forall sq, u32 sq -> reply_ok (ok sq)) by (intros; split_and!; try done; by vm_compute).
  assert (Hbad : reply_ok bad) by (split_and!; by vm_compute).
  split.
  - rewrite (proj1 (acknowledgements_read_exactly (bp := bp) [ok 1; ok 2] _ ltac:(repeat constructor; by apply Hok))).
    by vm_compute.
  - rewrite (proj1 (acknowledgements_read_exactly (bp := bp) [ok 1; bad; ok 2] _
                      ltac:(repeat constructor; first [exact Hbad|by apply Hok]))).
    by vm_compute.
Defined.
