(* ===== verification/RtNetlink.v ===== *)
(** * Interface configuration over rtnetlink ([src/src/kppp/netlink.rs], [SessionIpConfig] of [kppp/mod.rs])

    The requests that set the MTU, the address pair, the link state and the routes of a session's
    interface, the exchange with the kernel, and the interface counters. *)

From stdpp Require Import strings gmap.
From S2P Require Import Prelude RustText Os Netlink.

Definition RTM_NEWLINK : Z := 16.
Definition RTM_GETLINK : Z := 18.
Definition RTM_NEWADDR : Z := 20.
Definition RTM_NEWROUTE : Z := 24.
Definition IFA_ADDRESS : Z := 1.
Definition IFA_LOCAL : Z := 2.
Definition IFLA_MTU : Z := 4.
Definition IFLA_STATS64 : Z := 23.
Definition RTA_DST : Z := 1.
Definition RTA_OIF : Z := 4.
Definition RTA_GATEWAY : Z := 5.
Definition RTA_PRIORITY : Z := 6.
Definition RTPROT_BOOT : Z := 3.
Definition RT_SCOPE_UNIVERSE : Z := 0.
Definition RT_SCOPE_LINK : Z := 253.
Definition RTN_UNICAST : Z := 1.
Definition RT_TABLE_MAIN : Z := 254.

(** [libc] *)
Definition AF_UNSPEC : Z := 0.
Definition AF_INET : Z := 2.
Definition IFF_UP : Z := 1.
Definition NETLINK_ROUTE : Z := 0.
Definition ENODEV : Z := 19.

Record Ifaddrmsg := { ifa_family : Z; ifa_prefixlen : Z; ifa_flags : Z; ifa_scope : Z; ifa_index : Z }.

#[export] Instance ifaddrmsg_repr : Repr Ifaddrmsg := fun m =>
  to_ne 1 (ifa_family m) ++ to_ne 1 (ifa_prefixlen m) ++ to_ne 1 (ifa_flags m) ++ to_ne 1 (ifa_scope m) ++
  to_ne 4 (ifa_index m).

Record Ifinfomsg := { ifi_family : Z; ifi_pad : Z; ifi_type : Z; ifi_index : Z; ifi_flags : Z; ifi_change : Z }.

#[export] Instance ifinfomsg_repr : Repr Ifinfomsg := fun m =>
  to_ne 1 (ifi_family m) ++ to_ne 1 (ifi_pad m) ++ to_ne 2 (ifi_type m) ++ to_ne 4 (ifi_index m) ++
  to_ne 4 (ifi_flags m) ++ to_ne 4 (ifi_change m).

Record Rtmsg := {
  rtm_family : Z; rtm_dst_len : Z; rtm_src_len : Z; rtm_tos : Z; rtm_table : Z; rtm_protocol : Z; rtm_scope : Z;
  rtm_type : Z; rtm_flags : Z }.

#[export] Instance rtmsg_repr : Repr Rtmsg := fun m =>
  to_ne 1 (rtm_family m) ++ to_ne 1 (rtm_dst_len m) ++ to_ne 1 (rtm_src_len m) ++ to_ne 1 (rtm_tos m) ++
  to_ne 1 (rtm_table m) ++ to_ne 1 (rtm_protocol m) ++ to_ne 1 (rtm_scope m) ++ to_ne 1 (rtm_type m) ++
  to_ne 4 (rtm_flags m).

(** ** Interface counters *)

Record LinkStats64 := { rx_packets : Z; tx_packets : Z; rx_bytes : Z; tx_bytes : Z }.

Definition read_u64 {E} (payload : bytes) (off : Z) : res E Z := b ← slice payload off (off + 8); Ok (of_ne b).

Definition from_payload {E} (payload : bytes) : res E (option LinkStats64) :=
  if len payload <? 32 then Ok None
  else
    a ← read_u64 payload 0;
    b ← read_u64 payload 8;
    c ← read_u64 payload 16;
    d ← read_u64 payload 24;
    Ok (Some {| rx_packets := a; tx_packets := b; rx_bytes := c; tx_bytes := d |}).

(** The loop of [find_stats64]; every turn drops four bytes or more. *)
Fixpoint find_loop {E} (fuel : nat) (attrs : bytes) : res E (option LinkStats64) :=
  match fuel with
  | O => Panic
  | S fuel =>
      if len attrs <? 4 then Ok None
      else
        len_bytes ← slice attrs 0 2;
        type_bytes ← slice attrs 2 4;
        let rta_len := of_ne len_bytes in
        let rta_type := of_ne type_bytes in
        if (rta_len <? 4) || (len attrs <? rta_len) then Ok None
        else if rta_type =? IFLA_STATS64 then payload ← slice attrs 4 rta_len; from_payload payload
        else
          let aligned := nlmsg_align rta_len in
          if len attrs <=? aligned then Ok None
          else attrs ← slice_from attrs aligned; find_loop fuel attrs
  end.

Definition find_stats64 {E} (attrs : bytes) : res E (option LinkStats64) := find_loop (S (length attrs)) attrs.

(** ** Requests *)

Section Encoders.
Context {E : Type}.

Definition link_msg (ifindex flags change : Z) : res E Ifinfomsg :=
  i ← i32_try_from ifindex;
  Ok {| ifi_family := AF_UNSPEC; ifi_pad := 0; ifi_type := 0; ifi_index := i; ifi_flags := flags; ifi_change := change |}.

Definition encode_add_p2p_addr (seq ifindex : Z) (local peer : bytes) : res E MessageBuf.t :=
  MessageBuf.calls
    [ MessageBuf.push_struct
        {| ifa_family := AF_INET; ifa_prefixlen := 32; ifa_flags := 0; ifa_scope := 0; ifa_index := ifindex |};
      MessageBuf.push_attr_bytes IFA_LOCAL local;
      MessageBuf.push_attr_bytes IFA_ADDRESS peer;
      MessageBuf.finalize ]
    (MessageBuf.new RTM_NEWADDR
       (Z.lor NLM_F_REQUEST (Z.lor NLM_F_ACK (Z.lor NLM_F_CREATE (Z.lor NLM_F_REPLACE NLM_F_EXCL)))) seq).

Definition encode_set_link_up (seq ifindex : Z) : res E MessageBuf.t :=
  msg ← link_msg ifindex IFF_UP IFF_UP;
  MessageBuf.calls [MessageBuf.push_struct msg; MessageBuf.finalize]
    (MessageBuf.new RTM_NEWLINK (Z.lor NLM_F_REQUEST NLM_F_ACK) seq).

Definition encode_set_mtu (seq ifindex mtu : Z) : res E MessageBuf.t :=
  msg ← link_msg ifindex 0 0;
  MessageBuf.calls [MessageBuf.push_struct msg; MessageBuf.push_attr_bytes IFLA_MTU (to_ne 4 mtu); MessageBuf.finalize]
    (MessageBuf.new RTM_NEWLINK (Z.lor NLM_F_REQUEST NLM_F_ACK) seq).

Definition encode_add_route (seq ifindex : Z) (dest : bytes) (prefix : Z) (gateway : option bytes) (metric : option Z) :
    res E MessageBuf.t :=
  let scope := match gateway with Some _ => RT_SCOPE_UNIVERSE | None => RT_SCOPE_LINK end in
  MessageBuf.calls
    ([ MessageBuf.push_struct
         {| rtm_family := AF_INET; rtm_dst_len := prefix; rtm_src_len := 0; rtm_tos := 0; rtm_table := RT_TABLE_MAIN;
            rtm_protocol := RTPROT_BOOT; rtm_scope := scope; rtm_type := RTN_UNICAST; rtm_flags := 0 |};
       MessageBuf.push_attr_bytes RTA_DST dest;
       MessageBuf.push_attr_bytes RTA_OIF (to_ne 4 ifindex) ] ++
     match gateway with Some gw => [MessageBuf.push_attr_bytes RTA_GATEWAY gw] | None => [] end ++
     match metric with Some m => [MessageBuf.push_attr_bytes RTA_PRIORITY (to_ne 4 m)] | None => [] end ++
     [MessageBuf.finalize])
    (MessageBuf.new RTM_NEWROUTE
       (Z.lor NLM_F_REQUEST (Z.lor NLM_F_ACK (Z.lor NLM_F_CREATE NLM_F_REPLACE))) seq).

Definition encode_get_link (seq ifindex : Z) : res E MessageBuf.t :=
  msg ← link_msg ifindex 0 0;
  MessageBuf.calls [MessageBuf.push_struct msg; MessageBuf.finalize]
    (MessageBuf.new RTM_GETLINK (Z.lor NLM_F_REQUEST NLM_F_ACK) seq).

End Encoders.

(** ** The client *)

Inductive NetlinkError :=
| Socket (e : io_error)
| Send (op : string) (e : io_error)
| Recv (op : string) (e : io_error)
| KernelErrno (op : string) (errno : Z)
| Unexpected (op : string) (got : Z).

Record SessionIpConfig := { local : bytes; peer_addr : bytes; netmask : option bytes; cfg_mtu : option Z }.

Module RtNetlink.

Record t := { sock : Z; seq : Z }.

Section Client.
Context {os : Os} {bp : BuildProfile}.

Definition open : M NetlinkError t :=
  fd ← on_err Socket (NetlinkSocket.open NETLINK_ROUTE);
  mret {| sock := fd; seq := 1 |}.

Definition next_seq (nl : t) : Z * t := (seq nl, {| sock := sock nl; seq := (seq nl + 1) mod 2 ^ 32 |}).

Definition exchange (nl : t) (op : string) (m : MessageBuf.t) : M NetlinkError () :=
  _ ← on_err (Send op) (NetlinkSocket.send (sock nl) (MessageBuf.buf m));
  received ← on_err (Recv op) (NetlinkSocket.recv_into (sock nl) (zeros 4096));
  match drain_acks received {[MessageBuf.seq m]} with
  | Ok remaining => if decide (remaining = ∅) then mret tt else throw (Unexpected op 0)
  | Err Truncated => throw (Recv op OtherError)
  | Err (Kernel errno) => throw (KernelErrno op errno)
  | Panic => lift Panic
  end.

Definition add_p2p_addr (nl : t) (ifindex : Z) (local peer : bytes) : M NetlinkError t :=
  let '(s, nl) := next_seq nl in
  m ← lift (encode_add_p2p_addr s ifindex local peer);
  _ ← exchange nl "RTM_NEWADDR" m;
  mret nl.

Definition set_link_up (nl : t) (ifindex : Z) : M NetlinkError t :=
  let '(s, nl) := next_seq nl in
  m ← lift (encode_set_link_up s ifindex);
  _ ← exchange nl "RTM_NEWLINK(IFF_UP)" m;
  mret nl.

Definition set_mtu (nl : t) (ifindex mtu : Z) : M NetlinkError t :=
  let '(s, nl) := next_seq nl in
  m ← lift (encode_set_mtu s ifindex mtu);
  _ ← exchange nl "RTM_NEWLINK(IFLA_MTU)" m;
  mret nl.

Definition add_route (nl : t) (ifindex : Z) (dest : bytes) (prefix : Z) (gateway : option bytes) (metric : option Z) :
    M NetlinkError t :=
  let '(s, nl) := next_seq nl in
  m ← lift (encode_add_route s ifindex dest prefix gateway metric);
  _ ← exchange nl "RTM_NEWROUTE" m;
  mret nl.

Definition bring_up (nl : t) (ifindex : Z) (cfg : SessionIpConfig) : M NetlinkError t :=
  nl ← match cfg_mtu cfg with Some mtu => set_mtu nl ifindex mtu | None => mret nl end;
  nl ← add_p2p_addr nl ifindex (local cfg) (peer_addr cfg);
  set_link_up nl ifindex.

Definition STATS_OP : string := "RTM_GETLINK(IFLA_STATS64)".

(** What [link_stats64] makes of the datagram it received. *)
Definition stats_reply (received : bytes) : res NetlinkError LinkStats64 :=
  if len received <? NLMSG_HDRLEN then Err (Unexpected STATS_OP 0)
  else
    let hdr := read_nlmsghdr received in
    if nlmsg_type hdr =? NLMSG_ERROR then
      if len received <? NLMSG_HDRLEN + 4 then Err (Unexpected STATS_OP (nlmsg_type hdr))
      else
        errbuf ← slice received NLMSG_HDRLEN (NLMSG_HDRLEN + 4);
        let err := i32_of_ne errbuf in
        if err =? 0 then Err (KernelErrno STATS_OP ENODEV)
        else e ← neg_i32 err; Err (KernelErrno STATS_OP e)
    else if nlmsg_type hdr =? RTM_NEWLINK then
      let body_off := NLMSG_HDRLEN + 16 in
      if len received <? body_off then Err (Unexpected STATS_OP (nlmsg_type hdr))
      else
        attrs ← slice received body_off (nlmsg_len hdr);
        stats ← find_stats64 attrs;
        ok_or stats (Unexpected STATS_OP IFLA_STATS64)
    else Err (Unexpected STATS_OP (nlmsg_type hdr)).

Definition link_stats64 (nl : t) (ifindex : Z) : M NetlinkError LinkStats64 :=
  let '(s, nl) := next_seq nl in
  m ← lift (encode_get_link s ifindex);
  _ ← on_err (Send "RTM_GETLINK") (NetlinkSocket.send (sock nl) (MessageBuf.buf m));
  received ← on_err (Recv "RTM_GETLINK") (NetlinkSocket.recv_into (sock nl) (zeros 8192));
  lift (stats_reply received).

End Client.

End RtNetlink.
