(* ===== verification/RtNetlinkProps.v ===== *)
(** * Properties of the interface configuration

    [decode_request] reads a message the way rtnetlink(7) describes it.  Every encoder's message decodes to
    the request it stands for; bringing an interface up sends the MTU, the address pair and the link state
    in this order; the counters of a link message are read back. *)

From stdpp Require Import strings gmap.
From S2P Require Import Prelude RustText Os Netlink NetlinkProps RtNetlink.

(** ** What the kernel is asked *)

Inductive request :=
| SetMtu (ifindex mtu : Z)
| SetAddr (ifindex prefix : Z) (local peer : bytes)
| LinkUp (ifindex : Z)
| AddRoute (ifindex : Z) (dest : bytes) (prefix scope : Z) (gateway : option bytes) (metric : option Z).

Fixpoint attr_of (ty : Z) (ts : list tree) : option bytes :=
  match ts with
  | [] => None
  | Flat ty' payload :: ts => if ty =? ty' then Some payload else attr_of ty ts
  | Nested _ _ :: ts => attr_of ty ts
  end.

Definition struct_len (ty : Z) : Z :=
  if ty =? RTM_NEWLINK then 16 else if ty =? RTM_NEWADDR then 8 else 12.

Definition interpret (ty : Z) (s : bytes) (ts : list tree) : option request :=
  if ty =? RTM_NEWLINK then
    let index := i32_of_ne (sub s 4 8) in
    match attr_of IFLA_MTU ts with
    | Some mtu => Some (SetMtu index (of_ne mtu))
    | None =>
        if (of_ne (sub s 8 12) =? IFF_UP) && (of_ne (sub s 12 16) =? IFF_UP) then Some (LinkUp index) else None
    end
  else if ty =? RTM_NEWADDR then
    local ← attr_of IFA_LOCAL ts;
    peer ← attr_of IFA_ADDRESS ts;
    Some (SetAddr (of_ne (sub s 4 8)) (byte_at s 1) local peer)
  else if ty =? RTM_NEWROUTE then
    dest ← attr_of RTA_DST ts;
    oif ← attr_of RTA_OIF ts;
    Some (AddRoute (of_ne oif) dest (byte_at s 1) (byte_at s 6) (attr_of RTA_GATEWAY ts) (of_ne <$> attr_of RTA_PRIORITY ts))
  else None.

(** The sequence number and the request of a message. *)
Definition decode_request (b : bytes) : option (Z * request) :=
  let ty := nlmsg_type (read_nlmsghdr b) in
  m ← read_message (struct_len ty) b;
  let '(h, s, ts) := m in
  r ← interpret ty s ts;
  Some (nlmsg_seq h, r).

Definition index_ok (i : Z) : Prop := 0 <= i < 2 ^ 31.

(** A message of the builder decodes by its structure and trees. *)
Lemma decode_built {T} {r : Repr T} ty fl sq (v : T) ts :
  u16 ty -> u16 fl -> u32 sq -> forallb fits ts = true -> NLMSG_HDRLEN + len (sent v ts) <= U32_MAX ->
  struct_len ty = len (bytes_of v) ->
  decode_request (message_bytes ty fl sq v ts) = r ← interpret ty (bytes_of v) ts; Some (sq, r).
Proof.
  intros Hty Hfl Hsq Hts Hlen Hv. unfold decode_request.
  assert (Ht : nlmsg_type (read_nlmsghdr (message_bytes ty fl sq v ts)) = ty).
  { unfold message_bytes. rewrite read_header; cbn; try done. unfold NLMSG_HDRLEN, U32_MAX in *. lia. }
  by rewrite Ht, Hv, read_message_bytes by done.
Qed.

(** [built ty v ts] proves that an encoder's calls give the message of a structure and trees. *)
Ltac built ty v ts sq :=
  eexists; split;
    [ refine (calls_message ty _ sq v ts eq_refl _ _) | split; [done|]; cbn [MessageBuf.buf]; rewrite decode_built ].

Section Encoders.
Context {E : Type}.

Lemma set_mtu_request sq i mtu :
  u32 sq -> index_ok i -> u32 mtu ->
  exists m, encode_set_mtu (E := E) sq i mtu = Ok m /\ MessageBuf.seq m = sq /\
    decode_request (MessageBuf.buf m) = Some (sq, SetMtu i mtu).
Proof.
  intros Hs Hi Hm. unfold encode_set_mtu, link_msg, i32_try_from, index_ok in *.
  replace (i <? 2 ^ 31) with true by lia. cbn [mbind res_bind]. set (v := {| ifi_family := AF_UNSPEC |}).
  built RTM_NEWLINK v [Flat IFLA_MTU (to_ne 4 mtu)] sq; try done.
  unfold interpret. change (sub (bytes_of v) 4 8) with (to_ne 4 i). rewrite i32_to_ne by lia.
  cbn -[to_ne of_ne]. by rewrite of_to_ne_small.
Qed.

Lemma link_up_request sq i :
  u32 sq -> index_ok i ->
  exists m, encode_set_link_up (E := E) sq i = Ok m /\ MessageBuf.seq m = sq /\
    decode_request (MessageBuf.buf m) = Some (sq, LinkUp i).
Proof.
  intros Hs Hi. unfold encode_set_link_up, link_msg, i32_try_from, index_ok in *.
  replace (i <? 2 ^ 31) with true by lia. cbn [mbind res_bind]. set (v := {| ifi_family := AF_UNSPEC |}).
  built RTM_NEWLINK v (@nil tree) sq; try done.
  unfold interpret. change (sub (bytes_of v) 4 8) with (to_ne 4 i). by rewrite i32_to_ne by lia.
Qed.

Lemma add_addr_request sq i local peer :
  u32 sq -> u32 i -> length local = 4%nat -> length peer = 4%nat ->
  exists m, encode_add_p2p_addr (E := E) sq i local peer = Ok m /\ MessageBuf.seq m = sq /\
    decode_request (MessageBuf.buf m) = Some (sq, SetAddr i 32 local peer).
Proof.
  intros Hs Hi Hl Hp. unfold encode_add_p2p_addr. set (v := {| ifa_family := AF_INET |}).
  destruct local as [|l1 [|l2 [|l3 [|l4 []]]]]; try done. destruct peer as [|p1 [|p2 [|p3 [|p4 []]]]]; try done.
  built RTM_NEWADDR v [Flat IFA_LOCAL [l1; l2; l3; l4]; Flat IFA_ADDRESS [p1; p2; p3; p4]] sq; try done.
  unfold interpret. change (sub (bytes_of v) 4 8) with (to_ne 4 i). by rewrite of_to_ne_small.
Qed.

Lemma add_route_request sq i dest prefix gateway metric :
  u32 sq -> u32 i -> length dest = 4%nat -> u8 prefix ->
  (forall g, gateway = Some g -> length g = 4%nat) -> (forall m, metric = Some m -> u32 m) ->
  exists m, encode_add_route (E := E) sq i dest prefix gateway metric = Ok m /\ MessageBuf.seq m = sq /\
    decode_request (MessageBuf.buf m) =
    Some (sq, AddRoute i dest prefix (if gateway is Some _ then RT_SCOPE_UNIVERSE else RT_SCOPE_LINK) gateway metric).
Proof.
  intros Hs Hi Hd Hpre Hg Hm. unfold encode_add_route.
  destruct dest as [|d1 [|d2 [|d3 [|d4 []]]]]; try done.
  assert (Hread : forall scope g o, interpret RTM_NEWROUTE
     (bytes_of {| rtm_family := AF_INET; rtm_dst_len := prefix; rtm_src_len := 0; rtm_tos := 0; rtm_table := RT_TABLE_MAIN;
                  rtm_protocol := RTPROT_BOOT; rtm_scope := scope; rtm_type := RTN_UNICAST; rtm_flags := 0 |})
     ([Flat RTA_DST [d1; d2; d3; d4]; Flat RTA_OIF (to_ne 4 i)] ++ match g with Some g => [Flat RTA_GATEWAY g] | None => [] end ++
      match o with Some m => [Flat RTA_PRIORITY (to_ne 4 m)] | None => [] end) =
     Some (AddRoute i [d1; d2; d3; d4] prefix (scope mod 256) g (of_ne <$> (to_ne 4 <$> o)))).
  { intros scope g o. assert (Hi' : of_ne (to_ne 4 i) = i) by (by apply of_to_ne_small).
    unfold interpret. set (v := Build_Rtmsg _ _ _ _ _ _ _ _ _). change (byte_at (bytes_of v) 1) with (prefix mod 256).
    change (byte_at (bytes_of v) 6) with (scope mod 256). rewrite (Z.mod_small prefix) by done.
    destruct g, o; cbn -[to_ne of_ne Z.modulo]; by rewrite Hi'. }
  destruct gateway as [g|]; [specialize (Hg g eq_refl); destruct g as [|g1 [|g2 [|g3 [|g4 []]]]]; try done|];
    destruct metric as [m|].
  1: built RTM_NEWROUTE (Build_Rtmsg AF_INET prefix 0 0 RT_TABLE_MAIN RTPROT_BOOT RT_SCOPE_UNIVERSE RTN_UNICAST 0)
       [Flat RTA_DST [d1; d2; d3; d4]; Flat RTA_OIF (to_ne 4 i); Flat RTA_GATEWAY [g1; g2; g3; g4]; Flat RTA_PRIORITY (to_ne 4 m)] sq; try done.
  2: built RTM_NEWROUTE (Build_Rtmsg AF_INET prefix 0 0 RT_TABLE_MAIN RTPROT_BOOT RT_SCOPE_UNIVERSE RTN_UNICAST 0)
       [Flat RTA_DST [d1; d2; d3; d4]; Flat RTA_OIF (to_ne 4 i); Flat RTA_GATEWAY [g1; g2; g3; g4]] sq; try done.
  3: built RTM_NEWROUTE (Build_Rtmsg AF_INET prefix 0 0 RT_TABLE_MAIN RTPROT_BOOT RT_SCOPE_LINK RTN_UNICAST 0)
       [Flat RTA_DST [d1; d2; d3; d4]; Flat RTA_OIF (to_ne 4 i); Flat RTA_PRIORITY (to_ne 4 m)] sq; try done.
  4: built RTM_NEWROUTE (Build_Rtmsg AF_INET prefix 0 0 RT_TABLE_MAIN RTPROT_BOOT RT_SCOPE_LINK RTN_UNICAST 0)
       [Flat RTA_DST [d1; d2; d3; d4]; Flat RTA_OIF (to_ne 4 i)] sq; try done.
  - pose proof (Hread RT_SCOPE_UNIVERSE (Some [g1; g2; g3; g4]) (Some m)) as H. cbn [app] in H. rewrite H.
    cbn -[to_ne of_ne]. by rewrite of_to_ne_small by (by apply Hm).
  - pose proof (Hread RT_SCOPE_UNIVERSE (Some [g1; g2; g3; g4]) None) as H. cbn [app] in H. by rewrite H.
  - pose proof (Hread RT_SCOPE_LINK None (Some m)) as H. cbn [app] in H. rewrite H.
    cbn -[to_ne of_ne]. by rewrite of_to_ne_small by (by apply Hm).
  - pose proof (Hread RT_SCOPE_LINK None None) as H. cbn [app] in H. by rewrite H.
Qed.
End Encoders.

(** ** The exchange *)

Section Exchange.
Context {os : Os} {os_ok : OsOk os} {bp : BuildProfile}.

Lemma exchange_ok nl op m : one_message (RtNetlink.sock nl) (MessageBuf.buf m) (RtNetlink.exchange nl op m).
Proof using os_ok.
  intros h r h' Hr. unfold RtNetlink.exchange in Hr. eapply exchanged in Hr as (Hs & Ho & Hp); [|lia|].
  - split_and!; [done|done|]. intros Hbp. apply Hp. intros x g. pose proof (drain_acks_total x {[MessageBuf.seq m]} Hbp).
    destruct (drain_acks x _) as [?|[]|]; [by case_decide|done..].
  - intros x g. destruct (drain_acks x _) as [?|[]|]; [by case_decide|done..].
Qed.

(** [f] turns the client [nl] into [nl'] and makes the requests [rs], or some first ones when it fails. *)
Abbreviation requests := (asks (E := NetlinkError) RtNetlink.sock decode_request).

Lemma requests_one nl nl' op enc sq req :
  RtNetlink.sock nl' = RtNetlink.sock nl ->
  (exists m, enc = Ok m /\ MessageBuf.seq m = sq /\ decode_request (MessageBuf.buf m) = Some (sq, req)) ->
  requests (m ← lift enc; _ ← RtNetlink.exchange nl' op m; mret nl') nl nl' [(sq, req)].
Proof using os_ok.
  intros Hsock (m & -> & Hsq & Hd). apply asks_one. exists m. split_and!; [done|rewrite <- Hsock; apply exchange_ok|done].
Qed.

Definition cfg_ok (cfg : SessionIpConfig) : Prop :=
  length (local cfg) = 4%nat /\ length (peer_addr cfg) = 4%nat /\ (forall m, cfg_mtu cfg = Some m -> u32 m).

(** The requests of an interface, numbered from [sq]. *)
Definition wanted (sq i : Z) (cfg : SessionIpConfig) : list (Z * request) :=
  match cfg_mtu cfg with
  | Some m => [(sq, SetMtu i m); ((sq + 1) mod 2 ^ 32, SetAddr i 32 (local cfg) (peer_addr cfg));
               (((sq + 1) mod 2 ^ 32 + 1) mod 2 ^ 32, LinkUp i)]
  | None => [(sq, SetAddr i 32 (local cfg) (peer_addr cfg)); ((sq + 1) mod 2 ^ 32, LinkUp i)]
  end.

Definition after (nl : RtNetlink.t) : RtNetlink.t := (RtNetlink.next_seq nl).2.

Lemma after_u32 nl : u32 (RtNetlink.seq (after nl)).
Proof. unfold u32. apply (Z.mod_pos_bound _ (2 ^ 32)). lia. Qed.

Lemma set_mtu_requests nl i m :
  u32 (RtNetlink.seq nl) -> index_ok i -> u32 m ->
  requests (RtNetlink.set_mtu nl i m) nl (after nl) [(RtNetlink.seq nl, SetMtu i m)].
Proof using os_ok. intros. apply requests_one; [done|]. by apply set_mtu_request. Qed.

Lemma set_link_up_requests nl i :
  u32 (RtNetlink.seq nl) -> index_ok i ->
  requests (RtNetlink.set_link_up nl i) nl (after nl) [(RtNetlink.seq nl, LinkUp i)].
Proof using os_ok. intros. apply requests_one; [done|]. by apply link_up_request. Qed.

Lemma add_p2p_addr_requests nl i l p :
  u32 (RtNetlink.seq nl) -> u32 i -> length l = 4%nat -> length p = 4%nat ->
  requests (RtNetlink.add_p2p_addr nl i l p) nl (after nl) [(RtNetlink.seq nl, SetAddr i 32 l p)].
Proof using os_ok. intros. apply requests_one; [done|]. by apply add_addr_request. Qed.

(** Bringing an interface up asks the kernel, over its netlink socket and with consecutive sequence
    numbers, for the MTU if there is one, then for the address pair, then for the link to go up, each for
    the given interface index and in messages that decode to just that.  A failure stops the sequence, no
    descriptor is opened or closed, and a release build does not panic. *)
Theorem bring_up_configures_interface nl i cfg :
  u32 (RtNetlink.seq nl) -> index_ok i -> cfg_ok cfg ->
  exists nl', RtNetlink.sock nl' = RtNetlink.sock nl /\
    requests (RtNetlink.bring_up nl i cfg) nl nl' (wanted (RtNetlink.seq nl) i cfg).
Proof using os_ok.
  intros Hsq Hi (Hl & Hp & Hm). assert (Hi' : u32 i) by (unfold index_ok, u32 in *; lia).
  assert (Hrest : forall nl, u32 (RtNetlink.seq nl) ->
    requests (nl ← RtNetlink.add_p2p_addr nl i (local cfg) (peer_addr cfg); RtNetlink.set_link_up nl i) nl (after (after nl))
      [(RtNetlink.seq nl, SetAddr i 32 (local cfg) (peer_addr cfg)); (RtNetlink.seq (after nl), LinkUp i)]).
  { intros x Hx. eapply (asks_bind RtNetlink.sock decode_request _ _ x (after x) (after (after x)) [_] [_]); [done|by apply add_p2p_addr_requests|].
    apply set_link_up_requests; [apply after_u32|done]. }
  unfold RtNetlink.bring_up, wanted. destruct (cfg_mtu cfg) as [m|].
  - exists (after (after (after nl))). split; [done|].
    apply (asks_bind RtNetlink.sock decode_request _ _ nl (after nl) (after (after (after nl))) [_] [_; _]); [done|apply set_mtu_requests; auto|].
    apply Hrest, after_u32.
  - exists (after (after nl)). split; [done|].
    apply (asks_bind RtNetlink.sock decode_request _ _ nl nl (after (after nl)) [] [_; _]); [done|apply asks_none|]. by apply Hrest.
Qed.
End Exchange.

(** ** Interface counters *)

(** The counters of the first [IFLA_STATS64] attribute. *)
Fixpoint stats_of (ts : list tree) : option LinkStats64 :=
  match ts with
  | [] => None
  | Flat ty payload :: ts =>
      if ty =? IFLA_STATS64 then
        if len payload <? 32 then None
        else Some {| rx_packets := of_ne (sub payload 0 8); tx_packets := of_ne (sub payload 8 16);
                     rx_bytes := of_ne (sub payload 16 24); tx_bytes := of_ne (sub payload 24 32) |}
      else stats_of ts
  | Nested _ _ :: ts => stats_of ts
  end.

Lemma from_payload_eq {E} payload :
  from_payload (E := E) payload =
  Ok (if len payload <? 32 then None
      else Some {| rx_packets := of_ne (sub payload 0 8); tx_packets := of_ne (sub payload 8 16);
                   rx_bytes := of_ne (sub payload 16 24); tx_bytes := of_ne (sub payload 24 32) |}).
Proof.
  unfold from_payload, read_u64. destruct (Z.ltb_spec (len payload) 32); [done|].
  by rewrite !slice_ok by lia.
Qed.

Lemma find_loop_trees {E} fuel ts :
  Forall (fun t => fits t = true) ts -> (length (encs ts) < fuel)%nat ->
  find_loop (E := E) fuel (encs ts) = Ok (stats_of ts).
Proof.
  revert ts. induction fuel as [|fuel IH]; intros ts Hts Hf; [lia|]. cbn [find_loop].
  destruct Hts as [|t ts Ht Hts]; [done|]. rewrite encs_cons in *. rewrite length_app in Hf.
  assert (exists n ty body, enc t = to_ne 2 n ++ to_ne 2 ty ++ body ++ padding (len body) /\ n = 4 + len body /\
    n <= 65535 /\ 0 <= ty < 65536 /\
    stats_of (t :: ts) = if ty =? IFLA_STATS64 then
        (if len body <? 32 then None
         else Some {| rx_packets := of_ne (sub body 0 8); tx_packets := of_ne (sub body 8 16);
                      rx_bytes := of_ne (sub body 16 24); tx_bytes := of_ne (sub body 24 32) |}) else stats_of ts)
    as (n & ty & body & He & Hn & Hn' & Hty & Hst).
  { destruct t as [ty payload|ty inner]; cbn [fits] in Ht.
    - exists (4 + len payload), ty, payload. unfold ty_ok in Ht. split_and!; [done|done|lia|lia|lia|done].
    - apply andb_prop in Ht as [[Hty Hl]%andb_prop _]. exists (4 + len (encs inner)), (Z.lor ty NLA_F_NESTED), (encs inner).
      rewrite padding_0, app_nil_r by apply encs_aligned. rewrite ty_nested by done. unfold ty_ok, NLA_F_NESTED in *.
      split_and!; [by rewrite enc_nested, ty_nested by (unfold ty_ok; lia)|done|lia|lia|lia|].
      by replace (_ =? IFLA_STATS64) with false by (unfold IFLA_STATS64; lia). }
  rewrite Hst, He in *. rewrite <- !app_assoc. set (l := to_ne 2 n ++ _).
  assert (Hl : len l = 4 + len body + len (padding (len body)) + len (encs ts)) by (subst l; autorewrite with lens; lia).
  destruct (head_fields n ty body (padding (len body) ++ encs ts)) as (H1 & H2 & H3). fold l in H1, H2, H3.
  replace (len l <? 4) with false by lia. rewrite !slice_ok by lia. cbn [mbind res_bind].
  rewrite H1, H2, !of_to_ne_small by (change (256 ^ Z.of_nat 2) with 65536; lia).
  replace ((n <? 4) || (len l <? n)) with false by lia. destruct (ty =? IFLA_STATS64).
  - rewrite slice_ok by lia. cbn [mbind res_bind]. rewrite Hn, H3. apply from_payload_eq.
  - assert (Hal : nlmsg_align n = 4 + len body + len (padding (len body)))
      by (rewrite nlmsg_align_eq, len_padding; Z.div_mod_to_equations; lia).
    destruct (Z.leb_spec (len l) (nlmsg_align n)).
    + assert (encs ts = []) as He0 by (apply nil_length_inv; lia).
      destruct ts as [|t' ts]; [done|]. apply (f_equal length) in He0. rewrite encs_cons, length_app in He0.
      pose proof (enc_length t'). cbn in He0. lia.
    + rewrite slice_from_ok by lia. cbn [mbind res_bind].
      replace (drop (Z.to_nat (nlmsg_align n)) l) with (encs ts); [apply IH; [done|autorewrite with lens in Hf; lia]|].
      subst l. rewrite !app_assoc. symmetry. rewrite Hal.
      replace (Z.to_nat _) with (length (((to_ne 2 n ++ to_ne 2 ty) ++ body) ++ padding (len body)))
        by (autorewrite with lens; lia). apply drop_app_length.
Qed.

(** The reply to a link request: the counters of the first statistics attribute; and a datagram that holds
    less than its header announces, as the kernel delivers when the reply exceeds the 8192-byte buffer,
    panics. *)
Theorem link_counters_read_back {bp : BuildProfile} ty fl sq (v : Ifinfomsg) ts :
  ty = RTM_NEWLINK -> u16 fl -> u32 sq -> forallb fits ts = true -> NLMSG_HDRLEN + len (sent v ts) <= U32_MAX ->
  RtNetlink.stats_reply (message_bytes ty fl sq v ts) =
    ok_or (stats_of ts) (Unexpected RtNetlink.STATS_OP IFLA_STATS64) /\
  (forall n, 32 <= Z.of_nat n < len (message_bytes ty fl sq v ts) ->
     RtNetlink.stats_reply (take n (message_bytes ty fl sq v ts)) = Panic).
Proof.
  intros -> Hfl Hsq Hts Hlen. unfold message_bytes. set (h := {| nlmsg_len := _ |}). set (b := bytes_of h ++ sent v ts).
  assert (Hh : len (bytes_of h) = 16) by done. assert (Hv : len (bytes_of v) = 16) by done.
  assert (Hb : len b = 16 + len (sent v ts)) by (subst b; rewrite length_app; lia).
  assert (Hs : len (sent v ts) = 16 + len (encs ts)) by (unfold sent; rewrite length_app; lia).
  assert (Hread : forall rest, read_nlmsghdr (bytes_of h ++ rest) = h).
  { intros rest. apply read_header; try done. cbn. unfold NLMSG_HDRLEN, U32_MAX in *. lia. }
  split.
  - assert (Hrb : read_nlmsghdr b = h) by apply Hread. unfold RtNetlink.stats_reply. cbn zeta. rewrite Hrb. change (nlmsg_type h) with RTM_NEWLINK. change (nlmsg_len h) with (16 + len (sent v ts)). unfold NLMSG_HDRLEN.
    replace (len b <? 16) with false by lia. change (RTM_NEWLINK =? NLMSG_ERROR) with false.
    change (RTM_NEWLINK =? RTM_NEWLINK) with true. cbn iota. replace (len b <? 16 + 16) with false by lia.
    rewrite slice_ok by lia. cbn [mbind res_bind].
    assert (Hsub : sub b (16 + 16) (16 + len (sent v ts)) = encs ts).
    { subst b. unfold sent at 1. rewrite app_assoc. apply sub_app_r; rewrite length_app; lia. }
    rewrite Hsub. unfold find_stats64. rewrite find_loop_trees by (by apply forallb_fits || lia). done.
  - intros n Hn. unfold RtNetlink.stats_reply.
    assert (Htake : take n b = bytes_of h ++ take (n - 16) (sent v ts)).
    { subst b. rewrite take_app. change (length (bytes_of h)) with 16%nat. by rewrite take_ge by (change (length (bytes_of h)) with 16%nat; lia). }
    assert (Hl : len (take n b) = Z.of_nat n) by (rewrite length_take; lia).
    assert (Hrb : read_nlmsghdr (take n b) = h) by (rewrite Htake; apply Hread). cbn zeta. rewrite Hrb, Hl. change (nlmsg_type h) with RTM_NEWLINK. change (nlmsg_len h) with (16 + len (sent v ts)). unfold NLMSG_HDRLEN.
    replace (Z.of_nat n <? 16) with false by lia. change (RTM_NEWLINK =? NLMSG_ERROR) with false.
    change (RTM_NEWLINK =? RTM_NEWLINK) with true. cbn iota. replace (Z.of_nat n <? 16 + 16) with false by lia.
    unfold slice. by replace (_ && _) with false by lia.
Qed.

(** ** A machine to run the code on *)

Module NetDemo.

(** The smallest descriptor above every one opened so far. *)
Fixpoint unused (h : history) : Z :=
  match h with
  | [] => 3
  | e :: h => match opened_by e with Some fd => Z.max (fd + 1) (unused h) | None => unused h end
  end.

Lemma unused_above h fd : fd ∈ open_fds h -> fd < unused h.
Proof.
  induction h as [|[c r] h IH]; [set_solver|]. cbn [open_fds fst unused]. intros Hfd.
  assert (Hle : unused h <= match opened_by (c, r) with Some fd => Z.max (fd + 1) (unused h) | None => unused h end).
  { destruct (opened_by (c, r)); lia. }
  assert (fd ∈ match opened_by (c, r) with Some fd => {[fd]} ∪ open_fds h | None => open_fds h end \/ fd ∈ open_fds h) as [H|H].
  { destruct c; set_solver. }
  - destruct (opened_by (c, r)); [|by apply IH]. apply elem_of_union in H as [H|H]; [set_solver by lia|apply IH in H; lia].
  - apply IH in H. lia.
Qed.

(** The sequence number of the last request. *)
Fixpoint last_seq (h : history) : Z :=
  match h with
  | (Sys_sendto _ b, _) :: _ => nlmsg_seq (read_nlmsghdr b)
  | _ :: h => last_seq h
  | [] => 0
  end.

Definition ack (sq : Z) : bytes :=
  reply_bytes {| r_type := NLMSG_ERROR; r_flags := 0; r_seq := sq; r_pid := 0; r_payload := to_ne 4 0 ++ zeros 16 |}.

(** A kernel that acknowledges every request, with or without the kernel module. *)
Definition machine (module : bool) : Os := fun h c =>
  match c with
  | Sys_open path _ => if negb module && (path =? "/dev/sstp")%string then Fail 2 else Ret (unused h) [] []
  | Sys_socket _ => Ret (unused h) [] []
  | Sys_sendto _ b => Ret (len b) [] []
  | Sys_recv _ cap => if cap <? 36 then Fail 22 else Ret 36 [] (ack (last_seq h))
  | Sys_read _ cap => Fail 11
  | Sys_ioctl _ _ (AttachArg _ _ _ _ _) => Ret 0 [unused h] []
  | Sys_ioctl _ _ (IfreqArg _ _) => Ret 0 [] (lit "tun0" ++ zeros 12)
  | Sys_ioctl _ _ (IntArg _) => Ret 0 [0] []
  | Sys_if_nametoindex _ => Ret 7 [] []
  | _ => Ret 0 [] []
  end.

#[export] Instance machine_ok module : OsOk (machine module).
Proof.
  split.
  - intros h c fd Hfd Hin. apply unused_above in Hin. unfold answer, machine in Hfd. destruct c as [path ?| | | | | | |? ? []| | | | | | | | |]; cbn in Hfd.
    all: try done.
    + destruct (negb module && _); simplify_eq. lia.
    + simplify_eq. lia.
    + destruct (0 <=? unused h); simplify_eq; lia.
  - intros h fd cap n ints out. unfold answer, machine. destruct (Z.ltb_spec cap 36); intros; simplify_eq. lia.
  - done.
  - intros h name i ints out [= <- <- <-]. lia.
Defined.

Definition cfg : SessionIpConfig := {| local := [10; 0; 0; 1]; peer_addr := [10; 0; 0; 2]; netmask := None; cfg_mtu := Some 1400 |}.
Definition nl : RtNetlink.t := {| RtNetlink.sock := 3; RtNetlink.seq := U32_MAX |}.

(** With the sequence numbers about to wrap around. *)
Lemma bring_up_configures_interface_witness :
  let os := machine true in let bp := false : BuildProfile in
  exists nl', RtNetlink.bring_up nl 7 cfg [] = (Ok nl', (RtNetlink.bring_up nl 7 cfg []).2) /\ RtNetlink.sock nl' = 3 /\
    exists bs, sends (RtNetlink.bring_up nl 7 cfg []).2 = map (pair 3) bs /\
      map decode_request bs =
      [Some (U32_MAX, SetMtu 7 1400); Some (0, SetAddr 7 32 [10; 0; 0; 1] [10; 0; 0; 2]); Some (1, LinkUp 7)].
Proof.
  intros os bp.
  destruct (bring_up_configures_interface (os := os) (bp := bp) nl 7 cfg) as (nl' & Hs & Hr);
    [done|done|by split_and!; [..|intros ? [= <-]]|].
  assert (Hout : (RtNetlink.bring_up nl 7 cfg []).1 = Ok {| RtNetlink.sock := 3; RtNetlink.seq := 2 |}) by (vm_compute; reflexivity).
  destruct (RtNetlink.bring_up nl 7 cfg []) as [r h'] eqn:E. cbn in Hout. subst r.
  destruct (Hr [] _ _ E) as (_ & _ & _ & bs & Hsent & Hdec). exists {| RtNetlink.sock := 3; RtNetlink.seq := 2 |}.
  split; [reflexivity|]. split; [reflexivity|]. exists bs. split; [exact Hsent|exact Hdec].
Defined.

End NetDemo.
