(* ===== verification/DataPath.v ===== *)
(** * The data path of a session ([src/src/kppp/]: [ioctl.rs], [unit.rs], [sstp_kmod.rs], [tun.rs], [session.rs])

    Request numbers, PPP units, the session of the kernel module, TUN devices, and [KpppSession] that picks
    one of the two backends.  Every value that owns a descriptor closes it when it is dropped; the scopes
    of the code are [owned] and [scoped]. *)

From stdpp Require Import strings gmap.
From S2P Require Import Prelude RustText RustStd Os Netlink RtNetlink.

(** ** [ioctl.rs] *)

Definition IOC_NRBITS : Z := 8.
Definition IOC_TYPEBITS : Z := 8.
Definition IOC_SIZEBITS : Z := 14.
Definition IOC_NRSHIFT : Z := 0.
Definition IOC_TYPESHIFT : Z := IOC_NRSHIFT + IOC_NRBITS.
Definition IOC_SIZESHIFT : Z := IOC_TYPESHIFT + IOC_TYPEBITS.
Definition IOC_DIRSHIFT : Z := IOC_SIZESHIFT + IOC_SIZEBITS.
Definition IOC_NONE : Z := 0.
Definition IOC_WRITE : Z := 1.
Definition IOC_READ : Z := 2.

Definition ioc (dir typ nr size : Z) : Z :=
  Z.lor (Z.shiftl dir IOC_DIRSHIFT mod 2 ^ 32)
    (Z.lor (Z.shiftl typ IOC_TYPESHIFT) (Z.lor (Z.shiftl nr IOC_NRSHIFT) (Z.shiftl (size mod 2 ^ 32) IOC_SIZESHIFT mod 2 ^ 32))).

Definition io (typ nr : Z) : Z := ioc IOC_NONE typ nr 0.
Definition ior (size typ nr : Z) : Z := ioc IOC_READ typ nr size.
Definition iow (size typ nr : Z) : Z := ioc IOC_WRITE typ nr size.
Definition iowr (size typ nr : Z) : Z := ioc (Z.lor IOC_READ IOC_WRITE) typ nr size.

(** [size_of::<libc::c_int>()] *)
Definition sizeof_int : Z := 4.

Definition PPP_T : Z := 0x74.
Definition PPPIOCATTCHAN : Z := iow sizeof_int PPP_T 56.
Definition PPPIOCCONNECT : Z := iow sizeof_int PPP_T 58.
Definition PPPIOCNEWUNIT : Z := iowr sizeof_int PPP_T 62.
Definition PPPIOCSMRU : Z := iow sizeof_int PPP_T 83.
Definition PPPIOCSFLAGS : Z := iow sizeof_int PPP_T 89.

(** [libc] *)
Definition O_RDWR : Z := 2.
Definition O_NONBLOCK : Z := 0x800.
Definition O_CLOEXEC : Z := 0x80000.
Definition ENOENT : Z := 2.
Definition EAGAIN : Z := 11.

Module DataPathMode.

Inductive t := Auto | Kernel | Tun.

End DataPathMode.

Section DataPath.
Context {os : Os} {bp : BuildProfile}.

Definition ioctl_set_int (fd request val : Z) : M io_error () := _ ← checked (Sys_ioctl fd request (IntArg val)); mret tt.

(** [_IOWR(..., int)]: the value the kernel left in place of [val] *)
Definition ioctl_xchg_int (fd request val : Z) : M io_error Z :=
  r ← checked (Sys_ioctl fd request (IntArg val));
  mret (hd val r.1.2).

Definition set_nonblock (fd : Z) : M io_error () :=
  r ← checked (Sys_getfl fd);
  _ ← checked (Sys_setfl fd (Z.lor r.1.1 O_NONBLOCK));
  mret tt.

(** ** [unit.rs] *)

Inductive UnitError :=
| UnitOpen (e : io_error)
| NewUnit (e : io_error)
| Configure (what : string) (e : io_error).

Record Unit := { unit_fd : Z; unit_index : Z; unit_name : bytes }.

Definition open_dev_ppp : M io_error Z := r ← checked (Sys_open "/dev/ppp" (Z.lor O_RDWR (Z.lor O_CLOEXEC O_NONBLOCK))); mret r.1.1.

Definition Unit_new : M UnitError Unit :=
  fd ← on_err UnitOpen open_dev_ppp;
  owned fd
    (assigned ← on_err NewUnit (ioctl_xchg_int fd PPPIOCNEWUNIT (-1));
     _ ← lift (assert_ (0 <=? assigned));
     mret {| unit_fd := fd; unit_index := assigned; unit_name := lit "ppp" ++ show_dec assigned |}).

Definition set_mru (u : Unit) (mru : Z) : M UnitError () :=
  mru ← lift (i32_try_from mru);
  on_err (Configure "PPPIOCSMRU") (ioctl_set_int (unit_fd u) PPPIOCSMRU mru).

Definition set_flags (u : Unit) (flags : Z) : M UnitError () :=
  on_err (Configure "PPPIOCSFLAGS") (ioctl_set_int (unit_fd u) PPPIOCSFLAGS flags).

(** ** [sstp_kmod.rs] *)

Definition SSTP_ABI_VERSION_MAJOR : Z := 0.
Definition SSTP_ABI_VERSION_MINOR : Z := 3.
Definition SSTP_IOC_MAGIC : Z := 0x53.

(** The sizes of the structures: [SstpAttachRaw], [SstpStats], and the three with a pointer. *)
Definition sizeof_attach : Z := 2 + 2 + 4 + 4 + 4.
Definition sizeof_stats : Z := 12 * 8.
Definition sizeof_control : Z := 4 + 4 + 8.

Definition SSTP_IOC_ATTACH : Z := iowr sizeof_attach SSTP_IOC_MAGIC 0x80.
Definition SSTP_IOC_DETACH : Z := io SSTP_IOC_MAGIC 0x81.
Definition SSTP_IOC_GETSTATS : Z := ior sizeof_stats SSTP_IOC_MAGIC 0x82.
Definition SSTP_IOC_GET_CHAN_INDEX : Z := ior sizeof_int SSTP_IOC_MAGIC 0x83.
Definition SSTP_IOC_RECV_CONTROL : Z := iowr sizeof_control SSTP_IOC_MAGIC 0x84.
Definition SSTP_IOC_SEND_CONTROL : Z := iow sizeof_control SSTP_IOC_MAGIC 0x85.
Definition SSTP_IOC_REKEY_TX : Z := iow sizeof_control SSTP_IOC_MAGIC 0x86.
Definition SSTP_IOC_REKEY_RX : Z := iow sizeof_control SSTP_IOC_MAGIC 0x87.

Inductive EventType := PeerClosed | TlsFatalAlert | TlsRekeyNeeded | ProtocolError | ControlPacket.

Definition EventType_from_u32 (v : Z) : option EventType :=
  if v =? 1 then Some PeerClosed
  else if v =? 2 then Some TlsFatalAlert
  else if v =? 3 then Some TlsRekeyNeeded
  else if v =? 4 then Some ProtocolError
  else if v =? 5 then Some ControlPacket
  else None.

Record EventRaw := { ev_type : Z; ev_arg : Z; ev_timestamp_ns : Z }.

Inductive KmodError :=
| NotAvailable
| OpenDenied (e : io_error)
| Attach (e : io_error)
| Ioctl (what : string) (e : io_error)
| ChannelBind (what : string) (e : io_error).

Definition open_dev_sstp : M io_error Z := r ← checked (Sys_open "/dev/sstp" (Z.lor O_RDWR O_CLOEXEC)); mret r.1.1.

Definition open_error (e : io_error) : KmodError :=
  match e with OsError n => if n =? ENOENT then NotAvailable else OpenDenied e | OtherError => OpenDenied e end.

Definition probe : M KmodError () := fd ← on_err open_error open_dev_sstp; scoped fd (mret tt).

Record KmodSession := { session_fd : Z; chan_fd : Z; chan_index : Z; ppp_unit : Z }.

Definition chan_index_for (session_fd : Z) : M KmodError Z :=
  r ← on_err (Ioctl "SSTP_IOC_GET_CHAN_INDEX") (checked (Sys_ioctl session_fd SSTP_IOC_GET_CHAN_INDEX (IntArg (-1))));
  mret (hd (-1) r.1.2).

Definition bind_channel_to_unit (chan_index ppp_unit : Z) : M KmodError Z :=
  r ← on_err (ChannelBind "open(/dev/ppp)") (checked (Sys_open "/dev/ppp" (Z.lor O_RDWR O_CLOEXEC)));
  let fd := r.1.1 in
  owned fd
    (_ ← on_err (ChannelBind "PPPIOCATTCHAN") (ioctl_set_int fd PPPIOCATTCHAN chan_index);
     _ ← on_err (ChannelBind "PPPIOCCONNECT") (ioctl_set_int fd PPPIOCCONNECT ppp_unit);
     mret fd).

Definition attach (tcp_fd ppp_unit mtu : Z) : M KmodError KmodSession :=
  dev ← on_err open_error open_dev_sstp;
  session_fd ←
    scoped dev
      (r ← on_err Attach (checked (Sys_ioctl dev SSTP_IOC_ATTACH
                                     (AttachArg SSTP_ABI_VERSION_MAJOR SSTP_ABI_VERSION_MINOR tcp_fd mtu (-1))));
       let session_fd := hd (-1) r.1.2 in
       if session_fd <? 0 then throw (Attach OtherError) else mret session_fd);
  owned session_fd
    (_ ← on_err (Ioctl "fcntl(O_NONBLOCK) on session_fd") (set_nonblock session_fd);
     chan_index ← chan_index_for session_fd;
     chan_fd ← bind_channel_to_unit chan_index ppp_unit;
     mret {| session_fd := session_fd; chan_fd := chan_fd; chan_index := chan_index; ppp_unit := ppp_unit |}).

Definition detach (k : KmodSession) : M KmodError () :=
  _ ← on_err (Ioctl "SSTP_IOC_DETACH") (checked (Sys_ioctl (session_fd k) SSTP_IOC_DETACH NoArg)); mret tt.

(** The twelve counters *)
Definition stats (k : KmodSession) : M KmodError (list Z) :=
  r ← on_err (Ioctl "SSTP_IOC_GETSTATS") (checked (Sys_ioctl (session_fd k) SSTP_IOC_GETSTATS StatsArg)); mret r.1.2.

Definition sizeof_event : Z := 16.

Definition read_event (k : KmodSession) : M KmodError (option EventRaw) :=
  r ← sys (Sys_read (session_fd k) sizeof_event);
  match r with
  | Fail e => if e =? EAGAIN then mret None else throw (Ioctl "read(session_fd)" (OsError e))
  | Ret rc _ out =>
      if negb (rc =? sizeof_event) then throw (Ioctl "read(session_fd)" OtherError)
      else mret (Some {| ev_type := of_ne (sub out 0 4); ev_arg := of_ne (sub out 4 8); ev_timestamp_ns := of_ne (sub out 8 16) |})
  end.

(** [recv_control]: the payload bytes and their number. *)
Definition recv_control (k : KmodSession) (buf_len : Z) : M KmodError (option (Z * bytes)) :=
  r ← on_err (Ioctl "SSTP_IOC_RECV_CONTROL")
        (checked (Sys_ioctl (session_fd k) SSTP_IOC_RECV_CONTROL (RecvControlArg (Z.min U32_MAX buf_len))));
  let '(rc, ints, out) := r in
  if rc =? 0 then mret None
  else
    _ ← lift (debug_assert (rc =? hd 0 ints));
    mret (Some (rc, out)).

Definition send_control (k : KmodSession) (body : bytes) : M io_error () :=
  if len body <=? U32_MAX then _ ← checked (Sys_ioctl (session_fd k) SSTP_IOC_SEND_CONTROL (SendControlArg body)); mret tt
  else throw OtherError.

Definition rekey (k : KmodSession) (request cipher_type : Z) (crypto_info : bytes) : M io_error () :=
  if len crypto_info <=? U32_MAX then _ ← checked (Sys_ioctl (session_fd k) request (RekeyArg cipher_type crypto_info)); mret tt
  else throw OtherError.

Definition drop_kmod {E} (k : KmodSession) : M E () := _ ← close (session_fd k); close (chan_fd k).

(** ** [tun.rs] *)

Definition IFF_TUN : Z := 0x0001.
Definition IFF_NO_PI : Z := 0x1000.
Definition IFNAMSIZ : Z := 16.
Definition TUNSETIFF : Z := 0x400454CA.

Inductive TunError :=
| TunOpen (e : io_error)
| SetIff (e : io_error)
| Nonblock (e : io_error)
| TunResolve (ifname : bytes) (e : io_error)
| Register_ (e : io_error)
| TunNetlink (e : NetlinkError).

Record TunSession := { tun_ifname : bytes; tun_ifindex : Z; tun_mtu : Z; tun_fd : Z }.

(** The bytes up to the first NUL *)
Fixpoint until_nul (l : bytes) : bytes :=
  match l with
  | [] => []
  | b :: l => if b =? 0 then [] else b :: until_nul l
  end.

Definition parse_ifname (raw : bytes) : bytes := from_utf8_lossy (until_nul raw).

(** [if_nametoindex] of a name; [CString::new] fails on a NUL inside. *)
Definition resolve_ifindex {E} (err : io_error -> E) (ifname : bytes) : M E Z :=
  _ ← lift (assert_ (negb (existsb (Z.eqb 0) ifname)));
  r ← sys (Sys_if_nametoindex ifname);
  match r with
  | Ret idx _ _ => if idx =? 0 then throw (err OtherError) else mret idx
  | Fail e => throw (err (OsError e))
  end.

Definition TunSession_bring_up (local peer : bytes) (mtu : Z) : M TunError TunSession :=
  r ← on_err TunOpen (checked (Sys_open "/dev/net/tun" (Z.lor O_RDWR O_CLOEXEC)));
  let fd := r.1.1 in
  owned fd
    (r ← on_err SetIff (checked (Sys_ioctl fd TUNSETIFF (IfreqArg (zeros IFNAMSIZ) (Z.lor IFF_TUN IFF_NO_PI))));
     let ifname := parse_ifname r.2 in
     _ ← on_err Nonblock (set_nonblock fd);
     ifindex ← resolve_ifindex (TunResolve ifname) ifname;
     nl ← on_err TunNetlink RtNetlink.open;
     scoped (RtNetlink.sock nl)
       (_ ← on_err TunNetlink
              (RtNetlink.bring_up nl ifindex {| local := local; peer_addr := peer; netmask := None; cfg_mtu := Some mtu |});
        _ ← on_err Register_ (checked (Sys_register fd));
        mret {| tun_ifname := ifname; tun_ifindex := ifindex; tun_mtu := mtu; tun_fd := fd |})).

(** ** [session.rs] *)

Definition DEFAULT_MTU : Z := 1400.

Definition effective_mtu (requested : option Z) : Z :=
  match requested with None => DEFAULT_MTU | Some m => Z.min 1500 (Z.max 576 m) end.

Inductive BringUpError :=
| UnitErr (e : UnitError)
| NetlinkErr (e : NetlinkError)
| KmodErr (e : KmodError)
| TunErr (e : TunError)
| ResolveIfindex (ifname : bytes) (e : io_error).

Record PppBackend := { unit : Unit; ppp_ifindex : Z; ppp_mtu : Z; kmod : KmodSession }.

Inductive Backend :=
| Ppp (p : PppBackend)
| Tun (t : TunSession).

Definition bring_up_ppp (tcp_fd : Z) (local peer : bytes) (mtu : Z) : M BringUpError Backend :=
  unit ← on_err UnitErr Unit_new;
  owned (unit_fd unit)
    (ifindex ← resolve_ifindex (ResolveIfindex (unit_name unit)) (unit_name unit);
     nl ← on_err NetlinkErr RtNetlink.open;
     scoped (RtNetlink.sock nl)
       (_ ← on_err NetlinkErr
              (RtNetlink.bring_up nl ifindex {| local := local; peer_addr := peer; netmask := None; cfg_mtu := Some mtu |});
        _ ← on_err KmodErr probe;
        kmod ← on_err KmodErr (attach tcp_fd (unit_index unit) mtu);
        mret (Ppp {| unit := unit; ppp_ifindex := ifindex; ppp_mtu := mtu; kmod := kmod |}))).

Definition bring_up_tun (local peer : bytes) (mtu : Z) : M BringUpError Backend :=
  tun ← on_err TunErr (TunSession_bring_up local peer mtu);
  mret (Tun tun).

Definition bring_up (mode : DataPathMode.t) (tcp_fd : Z) (local peer : bytes) (mtu : option Z) : M BringUpError Backend :=
  let mtu := effective_mtu mtu in
  match mode with
  | DataPathMode.Tun => bring_up_tun local peer mtu
  | DataPathMode.Kernel => bring_up_ppp tcp_fd local peer mtu
  | DataPathMode.Auto =>
      r ← attempt_ (bring_up_ppp tcp_fd local peer mtu);
      match r with
      | inl s => mret s
      | inr _ => bring_up_tun local peer mtu
      end
  end.

Definition ifindex (b : Backend) : Z := match b with Ppp p => ppp_ifindex p | Tun t => tun_ifindex t end.
Definition ifname (b : Backend) : bytes := match b with Ppp p => unit_name (unit p) | Tun t => tun_ifname t end.
Definition is_kernel (b : Backend) : bool := match b with Ppp _ => true | Tun _ => false end.
Definition mtu (b : Backend) : Z := match b with Ppp p => ppp_mtu p | Tun t => tun_mtu t end.

(** Fields are dropped in the order of their declaration. *)
Definition drop_backend {E} (b : Backend) : M E () :=
  match b with
  | Ppp p => _ ← close (unit_fd (unit p)); drop_kmod (kmod p)
  | Tun t => close (tun_fd t)
  end.

(** The descriptors a backend owns. *)
Definition backend_fds (b : Backend) : gset Z :=
  match b with
  | Ppp p => {[unit_fd (unit p); session_fd (kmod p); chan_fd (kmod p)]}
  | Tun t => {[tun_fd t]}
  end.

End DataPath.
