(* ===== verification/DataPathProps.v ===== *)
(** * Properties of the data path

    [keeps f R]: whatever the operating system answers, when [f] fails every descriptor it opened is closed
    again, and when it succeeds with [a] it leaves open just a set of new descriptors related to [a] by
    [R].  The rules below follow the combinators, so that the proof for an operation follows its code. *)

From stdpp Require Import strings gmap.
From S2P Require Import Prelude RustText RustStd Os Netlink NetlinkProps RtNetlink RtNetlinkProps DataPath.

(** The request numbers are those of Linux' [_IOC] encoding, direction, size, type and number, for the
    structures of [kernel-abi/sstp.h]. *)
Theorem request_numbers :
  [SSTP_IOC_ATTACH; SSTP_IOC_DETACH; SSTP_IOC_GETSTATS; SSTP_IOC_GET_CHAN_INDEX; SSTP_IOC_RECV_CONTROL;
   SSTP_IOC_SEND_CONTROL; SSTP_IOC_REKEY_TX; SSTP_IOC_REKEY_RX] =
  [0xc0105380; 0x5381; 0x80605382; 0x80045383; 0xc0105384; 0x40105385; 0x40105386; 0x40105387] /\
  [PPPIOCATTCHAN; PPPIOCCONNECT; PPPIOCNEWUNIT; PPPIOCSMRU; PPPIOCSFLAGS] =
  [0x40047438; 0x4004743a; 0xc004743e; 0x40047453; 0x40047459].
Proof. done. Qed.

Section Keeps.
Context {os : Os} {os_ok : OsOk os}.

Definition keeps {E A} (f : M E A) (R : A -> gset Z -> Prop) : Prop :=
  forall h r h', f h = (r, h') ->
  match r with
  | Ok a => exists S, R a S /\ S ## open_fds h /\ open_fds h' = open_fds h ∪ S
  | _ => open_fds h' = open_fds h
  end.

Definition none {A} (a : A) (S : gset Z) : Prop := S = ∅.
Definition one {A} (p : A -> Z) (a : A) (S : gset Z) : Prop := S = {[p a]}.

Lemma keeps_return {E A} (a : A) (R : A -> gset Z -> Prop) : R a ∅ -> keeps (E := E) (mret a) R.
Proof. intros HR h r h' [= <- <-]. exists ∅. split_and!; [done|set_solver|set_solver]. Qed.

Lemma keeps_ret {E A} (a : A) : keeps (E := E) (mret a) none.
Proof. by apply keeps_return. Qed.

Lemma keeps_throw {E A} (e : E) R : keeps (A := A) (throw e) R.
Proof. by intros h r h' [= <- <-]. Qed.

Lemma keeps_lift {E A} (x : res E A) : keeps (lift x) none.
Proof. intros h r h' [= <- <-]. destruct x; [|done|done]. exists ∅. split_and!; [done|set_solver|set_solver]. Qed.

Lemma keeps_weaken {E A} (f : M E A) (R R' : A -> gset Z -> Prop) :
  keeps f R -> (forall a S, R a S -> R' a S) -> keeps f R'.
Proof. intros Hf HR h r h' Hr. specialize (Hf _ _ _ Hr). destruct r; [naive_solver|done|done]. Qed.

Lemma keeps_bind {E A B} (f : M E A) (g : A -> M E B) (R : B -> gset Z -> Prop) :
  keeps f none -> (forall a, keeps (g a) R) -> keeps (a ← f; g a) R.
Proof.
  intros Hf Hg h r h'. rewrite bind_eq. destruct (f h) as [[a|e|] h1] eqn:Ef; specialize (Hf _ _ _ Ef); cbn in Hf.
  - destruct Hf as (S & -> & _ & Hh). intros Hr. specialize (Hg a _ _ _ Hr). replace (open_fds h1) with (open_fds h) in Hg by set_solver.
    done.
  - by intros [= <- <-].
  - by intros [= <- <-].
Qed.

Lemma keeps_on_err {E F A} (e : E -> F) (f : M E A) R : keeps f R -> keeps (on_err e f) R.
Proof.
  intros Hf h r h'. rewrite on_err_eq. destruct (f h) as [x h1] eqn:Ef. specialize (Hf _ _ _ Ef).
  intros [= <- <-]. by destruct x.
Qed.

Lemma keeps_attempt {E F A} (f : M E A) R :
  keeps f R -> keeps (E := F) (attempt_ f) (fun x S => match x with inl a => R a S | inr _ => S = ∅ end).
Proof.
  intros Hf h r h'. unfold attempt_. destruct (f h) as [x h1] eqn:Ef. specialize (Hf _ _ _ Ef).
  intros [= <- <-]. destruct x; cbn; [done| |done]. exists ∅. split_and!; [done|set_solver|set_solver].
Qed.

(** A call that opens and closes nothing. *)
Definition neutral (c : syscall) : bool :=
  match c with
  | Sys_open _ _ | Sys_socket _ | Sys_close _ | Sys_ioctl _ _ (AttachArg _ _ _ _ _) => false
  | _ => true
  end.

Lemma open_fds_neutral c r h : neutral c = true -> open_fds ((c, r) :: h) = open_fds h.
Proof. destruct c as [| | | | | | |fd req []| | | | | | | | |]; done. Qed.

Lemma keeps_sys {E} c : neutral c = true -> keeps (E := E) (sys c) none.
Proof.
  intros Hc h r h' [= <- <-]. exists ∅. split_and!; [done|set_solver|]. rewrite open_fds_neutral by done. set_solver.
Qed.

Lemma keeps_checked c : neutral c = true -> keeps (checked c) none.
Proof.
  intros Hc. apply keeps_bind; [by apply keeps_sys|]. intros []; [apply keeps_ret|apply keeps_throw].
Qed.

(** A call that opens the descriptor it returns. *)
Lemma keeps_open c :
  (forall r, opened_by (c, r) = match r with Ret fd _ _ => Some fd | Fail _ => None end) ->
  keeps (checked c) (one (fun x => x.1.1)).
Proof using os_ok.
  intros Hc h r h'. unfold checked. rewrite bind_eq. cbn. pose proof (fresh_fd h c) as Hf.
  assert (Hopen : open_fds ((c, answer h c) :: h) =
    match opened_by (c, answer h c) with Some fd => {[fd]} ∪ open_fds h | None => open_fds h end).
  { destruct c; try done. specialize (Hc (Ret 0 [] [])). done. }
  rewrite Hc in Hf, Hopen. destruct (answer h c) as [fd ints out|e]; intros [= <- <-]; [|done].
  exists {[fd]}. split_and!; [done|set_solver|]. rewrite Hopen. set_solver.
Qed.

(** The scope that owns a new descriptor. *)
Lemma keeps_owned {E A B} (p : A -> Z) (f : M E A) (g : A -> M E B) (R : B -> gset Z -> Prop) :
  keeps f (one p) -> (forall a, keeps (g a) (fun b S => R b ({[p a]} ∪ S))) -> keeps (a ← f; owned (p a) (g a)) R.
Proof.
  intros Hf Hg h r h'. rewrite bind_eq. destruct (f h) as [[a|e|] h1] eqn:Ef; specialize (Hf _ _ _ Ef); cbn in Hf.
  2,3: by intros [= <- <-].
  destruct Hf as (S & -> & Hd & Hh1). unfold owned. destruct (g a h1) as [[b|e|] h2] eqn:Eg; specialize (Hg a _ _ _ Eg); cbn in Hg.
  - intros [= <- <-]. destruct Hg as (S & HR & Hd' & Hh2). exists ({[p a]} ∪ S). split_and!; [done|set_solver|set_solver].
  - intros [= <- <-]. change (open_fds h2 ∖ {[p a]} = open_fds h). set_solver.
  - intros [= <- <-]. change (open_fds h2 ∖ {[p a]} = open_fds h). set_solver.
Qed.

(** The scope that closes it in every case. *)
Lemma keeps_scoped {E A B} (p : A -> Z) (f : M E A) (g : A -> M E B) (R : B -> gset Z -> Prop) :
  keeps f (one p) -> (forall a, keeps (g a) R) -> keeps (a ← f; scoped (p a) (g a)) R.
Proof.
  intros Hf Hg h r h'. rewrite bind_eq. destruct (f h) as [[a|e|] h1] eqn:Ef; specialize (Hf _ _ _ Ef); cbn in Hf.
  2,3: by intros [= <- <-].
  destruct Hf as (S & -> & Hd & Hh1). unfold scoped. destruct (g a h1) as [x h2] eqn:Eg. specialize (Hg a _ _ _ Eg).
  intros [= <- <-]. change (open_fds (_ :: h2)) with (open_fds h2 ∖ {[p a]}). destruct x as [b|e|].
  - destruct Hg as (S & HR & Hd' & Hh2). exists S. split_and!; [done|set_solver|set_solver].
  - set_solver.
  - set_solver.
Qed.
End Keeps.

Create HintDb keeps.
#[export] Hint Resolve keeps_ret keeps_throw keeps_lift keeps_on_err keeps_sys keeps_checked : keeps.

(** [follow] takes the operations of the code one after the other. *)
Ltac follow :=
  repeat first
    [ apply keeps_bind; [solve [eauto 6 with keeps]|intros ?]
    | apply keeps_on_err
    | match goal with |- keeps (match ?x with _ => _ end) _ => destruct x end
    | apply keeps_throw
    | solve [eauto 6 with keeps] ].

Section Operations.
Context {os : Os} {os_ok : OsOk os} {bp : BuildProfile}.

Lemma keeps_exchange nl op m : keeps (RtNetlink.exchange nl op m) none.
Proof using os_ok.
  intros h r h' Hr. apply exchange_ok in Hr as (_ & Ho & _). rewrite Ho.
  destruct r; [|done|done]. exists ∅. split_and!; [done|set_solver|set_solver].
Qed.
#[local] Hint Resolve keeps_exchange : keeps.

Lemma keeps_set_mtu nl i m : keeps (RtNetlink.set_mtu nl i m) none.
Proof using os_ok. unfold RtNetlink.set_mtu, RtNetlink.next_seq. follow. Qed.

Lemma keeps_add_p2p_addr nl i l p : keeps (RtNetlink.add_p2p_addr nl i l p) none.
Proof using os_ok. unfold RtNetlink.add_p2p_addr, RtNetlink.next_seq. follow. Qed.

Lemma keeps_set_link_up nl i : keeps (RtNetlink.set_link_up nl i) none.
Proof using os_ok. unfold RtNetlink.set_link_up, RtNetlink.next_seq. follow. Qed.
#[local] Hint Resolve keeps_set_mtu keeps_add_p2p_addr keeps_set_link_up : keeps.

Lemma keeps_rt_bring_up nl i cfg : keeps (RtNetlink.bring_up nl i cfg) none.
Proof using os_ok.
  unfold RtNetlink.bring_up. apply keeps_bind; [destruct (cfg_mtu cfg); follow|intros ?]. follow.
Qed.

(** Handing a new descriptor on in a result. *)
Lemma keeps_handed {E A B} (p : A -> Z) (q : B -> Z) (f : M E A) (g : A -> B) :
  keeps f (one p) -> (forall a, q (g a) = p a) -> keeps (a ← f; mret (g a)) (one q).
Proof.
  intros Hf Hq h r h'. rewrite bind_eq. destruct (f h) as [[a|e|] h1] eqn:Ef; specialize (Hf _ _ _ Ef); cbn in Hf;
    intros [= <- <-]; [|done|done]. destruct Hf as (S & -> & ? & ?). exists {[p a]}. unfold one. by rewrite Hq.
Qed.

Lemma keeps_nl_open family : keeps (NetlinkSocket.open family) (one id).
Proof using os_ok.
  unfold NetlinkSocket.open. apply (keeps_owned (fun x => x.1.1)); [by apply keeps_open; intros []|].
  intros a. follow. apply keeps_return. unfold one. set_solver.
Qed.

Lemma keeps_rt_open : keeps RtNetlink.open (one RtNetlink.sock).
Proof using os_ok. apply (keeps_handed id); [apply keeps_on_err, keeps_nl_open|done]. Qed.

Lemma keeps_ioctl_set_int fd req v : keeps (ioctl_set_int fd req v) none.
Proof using os_ok. unfold ioctl_set_int. follow. Qed.

Lemma keeps_ioctl_xchg_int fd req v : keeps (ioctl_xchg_int fd req v) none.
Proof using os_ok. unfold ioctl_xchg_int. follow. Qed.

Lemma keeps_set_nonblock fd : keeps (set_nonblock fd) none.
Proof using os_ok. unfold set_nonblock. follow. Qed.

Lemma keeps_resolve {E} (e : io_error -> E) name : keeps (resolve_ifindex e name) none.
Proof using os_ok. unfold resolve_ifindex. follow. Qed.
#[local] Hint Resolve keeps_rt_bring_up keeps_ioctl_set_int keeps_ioctl_xchg_int keeps_set_nonblock keeps_resolve : keeps.

Lemma keeps_unit : keeps Unit_new (one unit_fd).
Proof using os_ok.
  unfold Unit_new. apply (keeps_owned id).
  - apply keeps_on_err. unfold open_dev_ppp. apply (keeps_handed (fun x => x.1.1)); [by apply keeps_open; intros []|done].
  - intros fd. follow. apply keeps_return. unfold one. cbn. set_solver.
Qed.

Lemma keeps_open_dev_sstp : keeps open_dev_sstp (one id).
Proof using os_ok. apply (keeps_handed (fun x => x.1.1)); [by apply keeps_open; intros []|done]. Qed.

Lemma keeps_probe : keeps probe none.
Proof using os_ok.
  unfold probe. apply (keeps_scoped id); [apply keeps_on_err, keeps_open_dev_sstp|]. intros. apply keeps_ret.
Qed.
#[local] Hint Resolve keeps_probe : keeps.

Lemma keeps_chan_index fd : keeps (chan_index_for fd) none.
Proof using os_ok. unfold chan_index_for. follow. Qed.
#[local] Hint Resolve keeps_chan_index : keeps.

Lemma keeps_bind_channel c u : keeps (bind_channel_to_unit c u) (one id).
Proof using os_ok.
  unfold bind_channel_to_unit. apply (keeps_owned (fun x => x.1.1)); [apply keeps_on_err; by apply keeps_open; intros []|].
  intros a. follow. apply keeps_return. unfold one. set_solver.
Qed.
Lemma keeps_assoc {E A B C} (f : M E A) (g : A -> M E B) (k : B -> M E C) R :
  keeps (b ← (a ← f; g a); k b) R -> keeps (a ← f; b ← g a; k b) R.
Proof using Type.
  intros H h r h' Hr. apply (H h r h'). rewrite <- Hr, !bind_eq. by destruct (f h) as [[a|e|] h1].
Qed.

(** The attach request opens the descriptor it writes into its structure. *)
Lemma keeps_attach_request dev tcp mtu :
  keeps (r ← on_err Attach (checked (Sys_ioctl dev SSTP_IOC_ATTACH
                                       (AttachArg SSTP_ABI_VERSION_MAJOR SSTP_ABI_VERSION_MINOR tcp mtu (-1))));
         let session_fd := hd (-1) r.1.2 in
         if session_fd <? 0 then throw (Attach OtherError) else mret session_fd) (one id).
Proof using os_ok.
  intros h r h'. set (c := Sys_ioctl _ _ _). rewrite bind_eq, on_err_eq. unfold checked. rewrite bind_eq. cbn [sys fst snd].
  pose proof (fresh_fd h c) as Hf. destruct (answer h c) as [rc ints out|e]; [|by intros [= <- <-]].
  cbn [throw mret m_ret map_err fst snd]. destruct ints as [|fd ints]; cbn [hd]; [by intros [= <- <-]|].
  cbn [opened_by] in Hf. destruct (Z.ltb_spec fd 0); intros [= <- <-]; cbn [open_fds fst opened_by].
  - by replace (0 <=? fd) with false by lia.
  - replace (0 <=? fd) with true in * by lia. exists {[fd]}. specialize (Hf fd eq_refl).
    split_and!; [done|set_solver|set_solver].
Qed.

Lemma keeps_attach tcp u mtu :
  keeps (attach tcp u mtu) (fun k S => S = {[session_fd k; chan_fd k]}).
Proof using os_ok.
  unfold attach. apply keeps_assoc. apply (keeps_owned id).
  - apply (keeps_scoped id); [apply keeps_on_err, keeps_open_dev_sstp|]. intros dev. apply keeps_attach_request.
  - intros s. follow. intros h r h'. rewrite bind_eq.
    destruct (bind_channel_to_unit _ u h) as [[c|e|] h1] eqn:Eb; apply keeps_bind_channel in Eb; cbn in Eb; intros [= <- <-]; try done.
    destruct Eb as (S & -> & ? & ?). exists {[c]}. split_and!; [by cbn; set_solver|done|done].
Qed.

Lemma keeps_ppp tcp l p mtu : keeps (bring_up_ppp tcp l p mtu) (fun b S => S = backend_fds b).
Proof using os_ok.
  unfold bring_up_ppp. apply (keeps_owned unit_fd); [apply keeps_on_err, keeps_unit|]. intros u. follow.
  apply (keeps_scoped RtNetlink.sock); [apply keeps_on_err, keeps_rt_open|]. intros nl. follow.
  intros h r h'. rewrite bind_eq, on_err_eq. destruct (attach tcp (unit_index u) mtu h) as [[k|e|] h1] eqn:Ea;
    apply keeps_attach in Ea; cbn in Ea; intros [= <- <-]; try done.
  destruct Ea as (S & -> & ? & ?). eexists. split_and!; [|done|done]. cbn. set_solver.
Qed.

Lemma keeps_tun l p mtu : keeps (bring_up_tun l p mtu) (fun b S => S = backend_fds b).
Proof using os_ok.
  assert (Ht : keeps (TunSession_bring_up l p mtu) (one tun_fd)).
  { unfold TunSession_bring_up. apply (keeps_owned (fun x => x.1.1)); [apply keeps_on_err; by apply keeps_open; intros []|].
    intros a. follow. apply (keeps_scoped RtNetlink.sock); [apply keeps_on_err, keeps_rt_open|]. intros nl. follow.
    apply keeps_return. unfold one. cbn. set_solver. }
  intros h r h'. unfold bring_up_tun. rewrite bind_eq, on_err_eq.
  destruct (TunSession_bring_up l p mtu h) as [[t|e|] h1] eqn:Et; apply Ht in Et; cbn in Et; intros [= <- <-]; done.
Qed.

Lemma keeps_bring_up mode tcp l p mtu : keeps (bring_up mode tcp l p mtu) (fun b S => S = backend_fds b).
Proof using os_ok.
  unfold bring_up. destruct mode; [|apply keeps_ppp|apply keeps_tun].
  intros h r h'. rewrite bind_eq. destruct (attempt_ _ h) as [[[b|e]|e|] h1] eqn:Ea;
    apply (keeps_attempt _ _ (keeps_ppp _ _ _ _)) in Ea; cbn in Ea.
  - intros [= <- <-]. done.
  - destruct Ea as (S & -> & _ & Hh). intros Ht. apply keeps_tun in Ht. by replace (open_fds h1) with (open_fds h) in Ht by set_solver.
  - by intros [= <- <-].
  - by intros [= <- <-].
Qed.

(** Whatever the operating system answers, bringing up the data path of a session leaks no descriptor:
    on failure, on a panic, and when the kernel path fails over to a TUN device, everything opened on the
    way is closed again; on success just the descriptors of the chosen backend stay open, all of them new;
    and dropping the session closes exactly these. *)
Theorem data_path_leaks_nothing mode tcp local peer mtu h r h' :
  bring_up mode tcp local peer mtu h = (r, h') ->
  match r with
  | Ok b =>
      backend_fds b ## open_fds h /\ open_fds h' = open_fds h ∪ backend_fds b /\
      open_fds (drop_backend (E := Empty_set) b h').2 = open_fds h
  | _ => open_fds h' = open_fds h
  end.
Proof using os_ok.
  intros Hr. apply keeps_bring_up in Hr. destruct r as [b|e|]; [|done|done]. destruct Hr as (S & -> & Hd & Hh).
  split_and!; [done|done|]. destruct b as [q|t]; unfold drop_backend, drop_kmod, close; m_run; cbn [open_fds fst snd backend_fds] in *;
    rewrite Hh; set_solver.
Qed.
End Operations.

(** ** What is sent *)

(** [quiet f P]: [f] sends nothing, and its result satisfies [P]. *)
Section Quiet.
Context {os : Os} {os_ok : OsOk os} {bp : BuildProfile}.

Definition quiet {E A} (f : M E A) (P : A -> Prop) : Prop :=
  forall h r h', f h = (r, h') -> sends h' = sends h /\ forall a, r = Ok a -> P a.

Definition any {A} (a : A) : Prop := True.

Lemma quiet_ret {E A} (a : A) (P : A -> Prop) : P a -> quiet (E := E) (mret a) P.
Proof using Type. intros Ha h r h' [= <- <-]. split; [done|]. by intros ? [= <-]. Qed.

Lemma quiet_throw {E A} (e : E) (P : A -> Prop) : quiet (throw e) P.
Proof using Type. by intros h r h' [= <- <-]. Qed.

Lemma quiet_lift {E A} (x : res E A) : quiet (lift x) any.
Proof using Type. by intros h r h' [= <- <-]. Qed.

Lemma quiet_bind {E A B} (f : M E A) (g : A -> M E B) P Q :
  quiet f P -> (forall a, P a -> quiet (g a) Q) -> quiet (a ← f; g a) Q.
Proof using Type.
  intros Hf Hg h r h'. rewrite bind_eq. destruct (f h) as [[a|e|] h1] eqn:Ef; destruct (Hf _ _ _ Ef) as [Hs Ha].
  - intros Hr. destruct (Hg a (Ha a eq_refl) _ _ _ Hr) as [? ?]. split; [congruence|done].
  - by intros [= <- <-].
  - by intros [= <- <-].
Qed.

Lemma quiet_on_err {E F A} (e : E -> F) (f : M E A) P : quiet f P -> quiet (on_err e f) P.
Proof using Type.
  intros Hf h r h'. rewrite on_err_eq. destruct (f h) as [x h1] eqn:Ef. destruct (Hf _ _ _ Ef) as [Hs Ha].
  intros [= <- <-]. split; [done|]. destruct x; naive_solver.
Qed.

Lemma quiet_owned {E A} fd (f : M E A) P : quiet f P -> quiet (owned fd f) P.
Proof using Type.
  intros Hf h r h'. unfold owned. destruct (f h) as [[a|e|] h1] eqn:Ef; destruct (Hf _ _ _ Ef) as [Hs Ha]; by intros [= <- <-].
Qed.

Lemma quiet_scoped {E A} fd (f : M E A) P : quiet f P -> quiet (scoped fd f) P.
Proof using Type.
  intros Hf h r h'. unfold scoped. destruct (f h) as [x h1] eqn:Ef. destruct (Hf _ _ _ Ef) as [Hs Ha]. by intros [= <- <-].
Qed.

Lemma quiet_sys {E} c : (if c is Sys_sendto _ _ then false else true) = true -> quiet (E := E) (sys c) any.
Proof using Type. intros Hc h r h' [= <- <-]. by destruct c. Qed.

Lemma quiet_checked c : (if c is Sys_sendto _ _ then false else true) = true -> quiet (checked c) any.
Proof using Type.
  intros Hc. eapply quiet_bind; [by apply quiet_sys|]. intros [] _; [by apply quiet_ret|apply quiet_throw].
Qed.

(** [f] sends some datagrams on one socket, related to its outcome. *)
Definition says {E A} (f : M E A) (W : res E A -> list bytes -> Prop) : Prop :=
  forall h r h', f h = (r, h') -> exists fd bs, sends h' = sends h ++ map (pair fd) bs /\ W r bs.

Lemma says_bind {E A B} (f : M E A) (g : A -> M E B) P (W : res E B -> list bytes -> Prop) :
  quiet f P -> (forall e, W (Err e) []) -> W Panic [] -> (forall a, P a -> says (g a) W) -> says (a ← f; g a) W.
Proof using Type.
  intros Hf He Hp Hg h r h'. rewrite bind_eq. destruct (f h) as [[a|e|] h1] eqn:Ef; destruct (Hf _ _ _ Ef) as [Hs Ha].
  - intros Hr. destruct (Hg a (Ha a eq_refl) _ _ _ Hr) as (fd & bs & ? & ?). exists fd, bs. split; [congruence|done].
  - intros [= <- <-]. exists 0, []. by rewrite app_nil_r.
  - intros [= <- <-]. exists 0, []. by rewrite app_nil_r.
Qed.

Lemma says_owned {E A} fd (f : M E A) W : says f W -> says (owned fd f) W.
Proof using Type. intros Hf h r h'. unfold owned. destruct (f h) as [[a|e|] h1] eqn:Ef; apply Hf in Ef; by intros [= <- <-]. Qed.

Lemma says_scoped {E A} fd (f : M E A) W : says f W -> says (scoped fd f) W.
Proof using Type. intros Hf h r h'. unfold scoped. destruct (f h) as [x h1] eqn:Ef. apply Hf in Ef. by intros [= <- <-]. Qed.

(** The requests of an interface, then a quiet rest. *)
Lemma says_bring_up {E A} (e : NetlinkError -> E) nl i cfg (g : RtNetlink.t -> M E A) (P : A -> Prop) :
  RtNetlink.seq nl = 1 -> index_ok i -> cfg_ok cfg -> (forall x, quiet (g x) P) ->
  says (x ← on_err e (RtNetlink.bring_up nl i cfg); g x)
    (fun r bs => match r with
                 | Ok a => P a /\ map decode_request bs = map Some (wanted 1 i cfg)
                 | _ => map decode_request bs `prefix_of` map Some (wanted 1 i cfg)
                 end).
Proof using os_ok.
  intros Hseq Hi Hcfg Hg h r h'. rewrite bind_eq, on_err_eq.
  destruct (bring_up_configures_interface nl i cfg ltac:(by rewrite Hseq) Hi Hcfg) as (nl' & _ & Hreq). rewrite Hseq in Hreq.
  destruct (RtNetlink.bring_up nl i cfg h) as [[x|err|] h1] eqn:Eb; destruct (Hreq _ _ _ Eb) as (_ & _ & _ & bs & Hs & Hb).
  - cbn [fst snd map_err]. intros Hr. destruct (Hg x _ _ _ Hr) as [Hs' Ha]. exists (RtNetlink.sock nl), bs.
    split; [congruence|]. destruct r; [split; [by apply Ha|done]|by rewrite Hb..].
  - intros [= <- <-]. by exists (RtNetlink.sock nl), bs.
  - intros [= <- <-]. by exists (RtNetlink.sock nl), bs.
Qed.
End Quiet.

Create HintDb quiet.
#[export] Hint Resolve quiet_throw quiet_lift quiet_on_err quiet_owned quiet_scoped quiet_sys quiet_checked : quiet.

(** [hush] takes the operations of the code one after the other. *)
Ltac hush :=
  repeat first
    [ eapply quiet_bind; [solve [eauto 6 with quiet]|intros ? ?]
    | apply quiet_on_err | apply quiet_owned | apply quiet_scoped | apply quiet_throw
    | match goal with |- quiet (match ?x with _ => _ end) _ => destruct x eqn:? end
    | apply quiet_ret; done
    | solve [eauto 6 with quiet] ].

Section Configured.
Context {os : Os} {os_ok : OsOk os} {bp : BuildProfile}.

Lemma quiet_ioctl_set_int fd req v : quiet (ioctl_set_int fd req v) any.
Proof using Type. unfold ioctl_set_int. hush. Qed.

Lemma quiet_ioctl_xchg_int fd req v : quiet (ioctl_xchg_int fd req v) any.
Proof using Type. unfold ioctl_xchg_int. hush. Qed.

Lemma quiet_set_nonblock fd : quiet (set_nonblock fd) any.
Proof using Type. unfold set_nonblock. hush. Qed.

Lemma quiet_chan_index fd : quiet (chan_index_for fd) any.
Proof using Type. unfold chan_index_for. hush. Qed.

Lemma quiet_probe : quiet probe any.
Proof using Type. unfold probe, open_dev_sstp. eapply (quiet_bind _ _ any); [hush|intros; hush]. Qed.
#[local] Hint Resolve quiet_ioctl_set_int quiet_ioctl_xchg_int quiet_set_nonblock quiet_chan_index quiet_probe : quiet.

Lemma quiet_bind_channel c u : quiet (bind_channel_to_unit c u) any.
Proof using Type. unfold bind_channel_to_unit. hush. Qed.
#[local] Hint Resolve quiet_bind_channel : quiet.

Lemma quiet_attach tcp u mtu : quiet (attach tcp u mtu) any.
Proof using Type.
  unfold attach, open_dev_sstp. eapply (quiet_bind _ _ any); [hush|]. intros dev _.
  eapply (quiet_bind _ _ any); [|intros; hush]. hush.
Qed.

Lemma quiet_unit : quiet Unit_new any.
Proof using Type. unfold Unit_new, open_dev_ppp. eapply (quiet_bind _ _ any); [hush|intros; hush]. Qed.

Lemma quiet_rt_open : quiet RtNetlink.open (fun nl => RtNetlink.seq nl = 1).
Proof using Type.
  unfold RtNetlink.open, NetlinkSocket.open. eapply (quiet_bind _ _ any); [hush|]. intros. by apply quiet_ret.
Qed.

Lemma quiet_resolve {E} (e : io_error -> E) name : quiet (resolve_ifindex e name) index_ok.
Proof using os_ok.
  unfold resolve_ifindex. eapply quiet_bind; [apply quiet_lift|]. intros _ _ h r h'. rewrite bind_eq. cbn [sys].
  destruct (answer h (Sys_if_nametoindex name)) as [i ints out|n] eqn:Ea; [|by intros [= <- <-]].
  apply ifindex_bound in Ea. destruct (Z.eqb_spec i 0); intros [= <- <-]; (split; [done|]); [done|].
  by intros ? [= <-].
Qed.
#[local] Hint Resolve quiet_attach quiet_unit quiet_rt_open quiet_resolve : quiet.

(** The configuration the interface of a backend is given. *)
Definition config (local peer : bytes) (mtu : Z) : SessionIpConfig :=
  {| local := local; peer_addr := peer; netmask := None; cfg_mtu := Some mtu |}.

(** What the outcome of a bring-up says about the datagrams sent. *)
Definition configured (kernel : bool) (local peer : bytes) (m : Z) {E} (r : res E Backend) (bs : list bytes) : Prop :=
  match r with
  | Ok b => mtu b = m /\ is_kernel b = kernel /\ map decode_request bs = map Some (wanted 1 (ifindex b) (config local peer m))
  | _ => exists i, map decode_request bs `prefix_of` map Some (wanted 1 i (config local peer m))
  end.

Lemma configured_nothing k l p m {E} (r : res E Backend) : (forall b, r <> Ok b) -> configured k l p m r [].
Proof using Type. intros Hr. destruct r; [congruence|exists 0; apply prefix_nil..]. Qed.

Lemma says_weaken {E A} (f : M E A) (W W' : res E A -> list bytes -> Prop) :
  says f W -> (forall r bs, W r bs -> W' r bs) -> says f W'.
Proof using Type. intros Hf HW h r h' Hr. destruct (Hf _ _ _ Hr) as (fd & bs & ? & ?). eauto. Qed.

Lemma says_ppp tcp l p m : length l = 4%nat -> length p = 4%nat -> u32 m -> says (bring_up_ppp tcp l p m) (configured true l p m).
Proof using os_ok.
  intros Hl Hp Hm. unfold bring_up_ppp.
  eapply says_bind; [eauto with quiet|intros; by apply configured_nothing..|]. intros u _. apply says_owned.
  eapply says_bind; [eauto with quiet|intros; by apply configured_nothing..|]. intros i Hi.
  eapply says_bind; [eauto with quiet|intros; by apply configured_nothing..|]. intros nl Hnl. apply says_scoped.
  eapply says_weaken; [apply (says_bring_up NetlinkErr nl i (config l p m) _ (fun b => mtu b = m /\ is_kernel b = true /\ ifindex b = i)); try done|].
  - split_and!; [done|done|]. by intros ? [= <-].
  - intros x. hush.
  - intros [b|e|] bs; cbn; [|eauto|eauto]. by intros [(? & ? & <-) ?].
Qed.

Lemma says_tun l p m : length l = 4%nat -> length p = 4%nat -> u32 m -> says (bring_up_tun l p m) (configured false l p m).
Proof using os_ok.
  intros Hl Hp Hm.
  assert (Ht : says (TunSession_bring_up l p m) (fun r => configured false l p m (t ← r; Ok (Tun t)))).
  { unfold TunSession_bring_up.
    eapply says_bind; [eauto with quiet|intros; by apply configured_nothing..|]. intros u _. apply says_owned.
    eapply says_bind; [eauto with quiet|intros; by apply configured_nothing..|]. intros ? _.
    eapply says_bind; [eauto with quiet|intros; by apply configured_nothing..|]. intros ? _.
    eapply says_bind; [eauto with quiet|intros; by apply configured_nothing..|]. intros i Hi.
    eapply says_bind; [eauto with quiet|intros; by apply configured_nothing..|]. intros nl Hnl. apply says_scoped.
    eapply says_weaken; [apply (says_bring_up TunNetlink nl i (config l p m) _ (fun t => tun_mtu t = m /\ tun_ifindex t = i)); try done|].
    - split_and!; [done|done|]. by intros ? [= <-].
    - intros x. hush.
    - intros [b|e|] bs; cbn; [|eauto|eauto]. by intros [[? <-] ?]. }
  intros h r h'. unfold bring_up_tun. rewrite bind_eq, on_err_eq. destruct (TunSession_bring_up l p m h) as [[t|e|] h1] eqn:Et;
    apply Ht in Et as (fd & bs & Hs & Hc); intros [= <- <-]; by exists fd, bs.
Qed.

(** C27: A session that comes up has the interface it reports, configured as asked: its MTU is the requested
    one brought into 576 to 1500, and the requests sent to the kernel, in this order, are exactly that
    MTU, the address pair with prefix 32, and the link up, all for the interface of the chosen backend.
    A request may be for another interface only when automatic mode gave up on the kernel path first, and
    then the earlier ones are an initial part of the same list for that interface. *)
Theorem data_path_configured_as_asked mode tcp local peer requested h b h' :
  length local = 4%nat -> length peer = 4%nat ->
  bring_up mode tcp local peer requested h = (Ok b, h') ->
  576 <= mtu b <= 1500 /\ (forall m, requested = Some m -> 576 <= m <= 1500 -> mtu b = m) /\
  (mode = DataPathMode.Kernel -> is_kernel b = true) /\
  (mode = DataPathMode.Tun -> is_kernel b = false) /\
  exists fd bs fd' bs' i, sends h' = sends h ++ map (pair fd) bs ++ map (pair fd') bs' /\
    (bs = [] \/ mode = DataPathMode.Auto /\ is_kernel b = false /\
                map decode_request bs `prefix_of` map Some (wanted 1 i (config local peer (mtu b)))) /\
    map decode_request bs' = map Some (wanted 1 (ifindex b) (config local peer (mtu b))).
Proof using os_ok.
  intros Hl Hp. unfold bring_up. set (m := effective_mtu requested).
  assert (Hm : 576 <= m <= 1500) by (subst m; unfold effective_mtu, DEFAULT_MTU; destruct requested; lia).
  assert (Hm' : forall x, requested = Some x -> 576 <= x <= 1500 -> m = x) by (intros x ->; subst m; unfold effective_mtu; lia).
  assert (Hu : u32 m) by (unfold u32; lia). clearbody m. destruct mode.
  - rewrite bind_eq. unfold attempt_. destruct (bring_up_ppp tcp local peer m h) as [[b1|e|] h1] eqn:Eb; [..|done];
      apply says_ppp in Eb as (fd & bs & Hs & Hc); try done; cbn [catch].
    + intros [= <- <-]. destruct Hc as (-> & -> & Hc). split_and!; [lia|lia|done|done|done|].
      exists fd, [], fd, bs, 0. cbn. eauto.
    + destruct Hc as [i Hi]. intros Ht. apply says_tun in Ht as (fd' & bs' & Hs' & -> & Hk & Hc'); try done. rewrite Hk.
      split_and!; [lia|lia|done|done|done|]. exists fd, bs, fd', bs', i. rewrite Hs', Hs, <- app_assoc. eauto 6.
  - intros Hr. apply says_ppp in Hr as (fd & bs & Hs & -> & -> & Hc); try done. split_and!; [lia|lia|done|done|done|].
    exists fd, [], fd, bs, 0. cbn. eauto.
  - intros Hr. apply says_tun in Hr as (fd & bs & Hs & -> & -> & Hc); try done. split_and!; [lia|lia|done|done|done|].
    exists fd, [], fd, bs, 0. cbn. eauto.
Qed.
End Configured.

(** ** Runs *)

Module DataPathDemo.
Import NetDemo.

Abbreviation start module :=
  (bring_up (os := machine module) (bp := true) DataPathMode.Auto 9 [10; 0; 0; 1] [10; 0; 0; 2] (Some 9000) []).

Definition view (b : Backend) : bool * Z * Z := (is_kernel b, mtu b, ifindex b).

Lemma start_view module : (if (start module).1 is Ok b then Some (view b) else None) = Some (module, 1500, 7).
Proof. destruct module; vm_compute; reflexivity. Qed.

Lemma start_ok module : exists b h', start module = (Ok b, h') /\ view b = (module, 1500, 7).
Proof.
  pose proof (start_view module) as Hv. destruct (start module) as [[b|e|] h']; [|discriminate Hv|discriminate Hv].
  exists b, h'. split; [reflexivity|]. cbn [fst] in Hv. congruence.
Qed.

(** Without the module the session falls back to a TUN device. *)
Lemma data_path_leaks_nothing_witness :
  exists b h', start false = (Ok b, h') /\ is_kernel b = false /\ open_fds h' = ∅ ∪ backend_fds b /\
    open_fds (drop_backend (os := machine false) (E := Empty_set) b h').2 = ∅.
Proof.
  destruct (start_ok false) as (b & h' & E & [= Hk _ _]). exists b, h'.
  pose proof (data_path_leaks_nothing (os := machine false) (bp := true) DataPathMode.Auto 9 [10; 0; 0; 1] [10; 0; 0; 2] (Some 9000)
                [] _ h' E) as (_ & Ho & Hd).
  split; [exact E|]. split; [exact Hk|]. split; [exact Ho|exact Hd].
Defined.

(** With it, the session has the kernel path. *)
Lemma data_path_configured_as_asked_witness :
  exists b h', start true = (Ok b, h') /\ is_kernel b = true /\ mtu b = 1500 /\
    exists fd bs, sends h' = map (pair fd) bs /\
      map decode_request bs =
      [Some (1, SetMtu 7 1500); Some (2, SetAddr 7 32 [10; 0; 0; 1] [10; 0; 0; 2]); Some (3, LinkUp 7)].
Proof.
  destruct (start_ok true) as (b & h' & E & [= Hk Hm Hi]). exists b, h'.
  destruct (data_path_configured_as_asked (os := machine true) (bp := true) DataPathMode.Auto 9 [10; 0; 0; 1] [10; 0; 0; 2] (Some 9000)
              [] b h' eq_refl eq_refl E) as (_ & _ & _ & _ & fd & bs & fd' & bs' & i & Hsent & Hbs & Hdec).
  rewrite Hm, Hi in Hdec. destruct Hbs as [->|(_ & Hk' & _)]; [|congruence].
  split; [exact E|]. split; [exact Hk|]. split; [exact Hm|]. exists fd', bs'. split; [exact Hsent|exact Hdec].
Defined.

End DataPathDemo.
