(* ===== verification/KmodEvents.v ===== *)
(** * The session task and the kernel module ([src/src/session.rs]: the [kmod_fut] arm of the select and the
    [KmodEvents] arm of [drive_sstp])

    When the session file is readable the task reads its events until there are none, then handles them in
    order: for a control packet it asks the module for the payload and hands it to the SSTP state machine,
    every other event ends the session.  The workers of the module run at the same time.  [system] is the
    module's session with the task; [step] interleaves single calls of both.  The theorem is that control
    packets reach the state machine exactly once and in order, and that none is left when the task sleeps. *)

From S2P Require Import Prelude SstpFrame SstpMsg Crypto SstpServer PppDriver Session SessionProps DataPath.
From S2P Require Import Kmod KmodRing KmodProps.

(** The numbers of the events ([SSTP_EVT_*] of the ABI) *)
Definition evt_number (e : evt) : Z :=
  match e with
  | PEER_CLOSED => 1
  | TLS_FATAL_ALERT => 2
  | TLS_REKEY_NEEDED => 3
  | PROTOCOL_ERROR => 4
  | CONTROL_PACKET => 5
  end.

(** Where the task is: in its select, reading events, handling the events it has read, or over. *)
Inductive phase :=
| Waiting
| Reading (evs : list sstp_event)
| Handling (evs : list sstp_event)
| Ended.

(** [queued] are the control packets the module has queued so far, [delivered] the ones handed to the
    state machine. *)
Record system := {
  kmod : session;
  task : Session.t;
  at_ : phase;
  queued : list bytes;
  delivered : list bytes
}.

Section Events.
Context {K : Kernel} {bp : BuildProfile} {lib : AwsLc} {env : Environment}.

(** One event of the [KmodEvents] arm: the module, the task, what was handed to the state machine, what it
    does, and whether the session goes on. *)
Definition handle_event (k : session) (s : Session.t) (ev : sstp_event)
    : mem (session * Session.t * list bytes * list output * bool) :=
  match EventType_from_u32 (evt_number (evt_type ev)) with
  | Some ControlPacket =>
      '(k, rc, payload) ← ioc_recv_control k SSTP_CONTROL_MAX;
      if rc <? 0 then Ok (k, s, [], [], false)
      else if rc =? 0 then Ok (k, s, [], [], true)
      else
        '(s, out, go) ← Session.on_kmod_control s payload;
        Ok (k, s, [payload], out, go)
  | Some _ => Ok (k, s, [], [], false)
  | None => Ok (k, s, [], [], true)
  end.

(** The start of the [KmodEvents] arm *)
Definition begin_handling (s : Session.t) : Session.t :=
  Session.with_server s (Session.clear_hello (Session.server s)) (Session.tx_buf s).

(** The control packets in the queue of the module *)
Definition control_frames (k : session) : list bytes := omap id (frames_of k).

(** A call of the module's side: the control packets it has queued are noted. *)
Definition module_moves (x : system) (k : session) : system :=
  {| kmod := k; task := task x; at_ := at_ x;
     queued := queued x ++ drop (length (control_frames (kmod x))) (control_frames k); delivered := delivered x |}.

Definition task_moves (x : system) (k : session) (s : Session.t) (got : list bytes) (p : phase) : system :=
  {| kmod := k; task := s; at_ := p; queued := queued x; delivered := delivered x ++ got |}.

Inductive step : system -> system -> Prop :=
| S_rx x r k go :
    closing (kmod x) = false -> fits (kmod x) r -> rx_round (kmod x) r = Ok (k, go) -> step x (module_moves x k)
| S_tx x ret k go : closing (kmod x) = false -> tx_round (kmod x) ret = Ok (k, go) -> step x (module_moves x k)
| S_xmit x skb : step x (module_moves x (sstp_chan_start_xmit (kmod x) skb).1)
| S_send x body reserved ret k rc :
    ioc_send_control (kmod x) body reserved ret = Ok (k, rc) -> step x (module_moves x k)
| S_wake x : at_ x = Waiting -> step x (task_moves x (kmod x) (task x) [] (Reading []))
| S_read x evs k e :
    at_ x = Reading evs -> sstp_session_read (kmod x) = Ok (k, Some e) ->
    step x (task_moves x k (task x) [] (Reading (evs ++ [e])))
| S_again x evs k :
    at_ x = Reading evs -> sstp_session_read (kmod x) = Ok (k, None) ->
    step x (task_moves x k (begin_handling (task x)) [] (Handling evs))
| S_handle x e evs k s got out (go : bool) :
    at_ x = Handling (e :: evs) -> handle_event (kmod x) (task x) e = Ok (k, s, got, out, go) ->
    step x (task_moves x k s got (if go then Handling evs else Ended))
| S_done x : at_ x = Handling [] -> step x (task_moves x (kmod x) (task x) [] Waiting).

(** A panic of the state machine ends the task: there is no step for it.  A session that was just attached: *)
Definition starts (s : Session.t) : system :=
  {| kmod := attached; task := s; at_ := Waiting; queued := []; delivered := [] |}.

(** ** The queue of control packets only grows at its end *)

Definition grows (k k' : session) : Prop :=
  (frames_ok k -> frames_ok k') /\ (frames_ok k -> exists l, frames_of k' = frames_of k ++ map Some l).

Lemma queue_grows_refl k : grows k k.
Proof. split; [done|]. exists []. by rewrite app_nil_r. Qed.

Lemma queue_grows_trans k1 k2 k3 : grows k1 k2 -> grows k2 k3 -> grows k1 k3.
Proof.
  intros [H1 F1] [H2 F2]. split; [auto|]. intros Hok. destruct (F1 Hok) as [l E1], (F2 (H1 Hok)) as [m E2].
  exists (l ++ m). by rewrite E2, E1, map_app, app_assoc.
Qed.

Lemma grows_same k k' : ctrl_q k' = ctrl_q k -> ctrl_q_head k' = ctrl_q_head k -> ctrl_q_tail k' = ctrl_q_tail k -> grows k k'.
Proof.
  intros E1 E2 E3. unfold grows, frames_ok, frames_of. rewrite E1, E2, E3. split; [done|]. exists []. by rewrite app_nil_r.
Qed.

Lemma emit_grows k ty arg k' : sstp_session_emit k ty arg = Ok k' -> grows k k'.
Proof.
  unfold sstp_session_emit. case_match; intros He.
  - apply bind_ok in He as (l & _ & He). apply bind_ok in He as (k1 & H1 & [= <-]). revert H1.
    case_match; [intros (? & _ & [= <-])%bind_ok; by apply grows_same | intros [= <-]; by apply grows_same].
  - apply bind_ok in He as (? & _ & [= <-]). by apply grows_same.
Qed.

Lemma queue_control_grows k p k' : queue_control k p = Ok k' -> grows k k'.
Proof.
  unfold queue_control. intros ([k1 e] & H1 & H)%bind_ok.
  assert (grows k k1).
  { destruct (alloc k (len p)); [|injection H1 as <- <-; apply queue_grows_refl]. revert H1.
    destruct (Z.eqb_spec ((ctrl_q_head k + 1) mod SSTP_CTRL_Q_CAP) (ctrl_q_tail k)) as [|Hne]; cbn [negb].
    { by intros [= <- <-]; apply queue_grows_refl. }
    intros (q & Hq & [= <- <-])%bind_ok. unfold arr_set in Hq. destruct ((0 <=? _) && _) eqn:Hb; [|done]. injection Hq as <-.
    split.
    - intros (Hl & Hh & Ht). pose proof (Z.mod_pos_bound (ctrl_q_head k + 1) SSTP_CTRL_Q_CAP ltac:(done)).
      split; cbn; [by rewrite length_insert | by split].
    - intros Hok. exists [p]. unfold frames_of. cbn. by apply ring_push. }
  eapply queue_grows_trans; [done|]. destruct e; cbn [negb] in H; [|injection H as <-; by apply grows_same].
  eapply queue_grows_trans; [|by eapply emit_grows]. by apply grows_same.
Qed.

Lemma deliver_ppp_grows k p k' : sstp_deliver_ppp k p = Ok k' -> grows k k'.
Proof.
  intros H. destruct (deliver_ppp_ok k p) as (t & Ht & _ & _ & Hf & _ & _ & _ & Hok). rewrite Ht in H. injection H as <-.
  split; [done|]. intros _. exists []. by rewrite Hf, app_nil_r.
Qed.

Lemma demux_loop_grows fuel k off k' off' : demux_loop fuel k off = Ok (k', off') -> grows k k'.
Proof.
  revert k off. induction fuel as [|fuel IH]; intros k off; cbn [demux_loop]; [intros [= <- <-]; apply queue_grows_refl|].
  case_match; [intros [= <- <-]; apply queue_grows_refl|].
  intros (? & _ & (? & _ & (? & _ & (? & _ & Hd)%bind_ok)%bind_ok)%bind_ok)%bind_ok. revert Hd. case_match.
  { intros (k1 & Hk1 & [= <- <-])%bind_ok. eapply queue_grows_trans; [|eapply queue_grows_trans; [by eapply emit_grows | by apply grows_same]].
    by apply grows_same. }
  case_match; [intros [= <- <-]; apply queue_grows_refl|].
  intros (body & _ & (k1 & Hk1 & Hd)%bind_ok)%bind_ok. apply IH in Hd. eapply queue_grows_trans; [|done].
  eapply (queue_grows_trans k (inc sstp_frames_rx k)); [by apply grows_same|]. revert Hk1.
  case_match; [apply deliver_ppp_grows | apply queue_control_grows].
Qed.

Lemma rx_round_grows k r k' go : rx_round k r = Ok (k', go) -> grows k k'.
Proof.
  unfold rx_round. intros ([k1 rc] & Hr & H)%bind_ok. eapply (queue_grows_trans k k1).
  - clear H. revert Hr. unfold sstp_demux_recv_once. case_match; [intros [= <- <-]; apply queue_grows_refl|].
    destruct r as [b|rt|e].
    + case_match; [done|]. case_match; intros [= <- <-]; by apply grows_same.
    + intros (k2 & Hk2 & [= <- <-])%bind_ok. eapply queue_grows_trans; [by eapply emit_grows | by apply grows_same].
    + intros [= <- <-]. apply queue_grows_refl.
  - clear Hr. revert H. case_match.
    { intros (k2 & Hk2 & [= <- <-])%bind_ok. eapply queue_grows_trans; [by eapply emit_grows | by apply grows_same]. }
    case_match.
    { repeat (case_match; [intros [= <- <-]; apply queue_grows_refl|]). intros (k2 & Hk2 & [= <- <-])%bind_ok.
      eapply queue_grows_trans; [by eapply emit_grows | by apply grows_same]. }
    case_match; [|intros [= <- <-]; apply queue_grows_refl]. intros ([k2 n] & Hk2 & Hd)%bind_ok. unfold sstp_demux_parse in Hk2.
    apply demux_loop_grows in Hk2. revert Hd. case_match; [by intros [= <- <-]|]. intros (t & _ & [= <- <-])%bind_ok.
    eapply queue_grows_trans; [done | by apply grows_same].
Qed.

Lemma tx_round_grows k ret k' go : tx_round k ret = Ok (k', go) -> grows k k'.
Proof.
  unfold tx_round. destruct (build_batch _ 0 0 (tx_q k)) as [batch rest].
  repeat (case_match; [intros [= <- <-]; by apply grows_same|]). intros (k1 & Hk1 & [= <- <-])%bind_ok.
  eapply queue_grows_trans; [|eapply queue_grows_trans; [by eapply emit_grows | by apply grows_same]]. by apply grows_same.
Qed.

Lemma send_control_grows k body reserved ret k' rc : ioc_send_control k body reserved ret = Ok (k', rc) -> grows k k'.
Proof.
  unfold ioc_send_control. repeat (case_match; [intros [= <- <-]; by apply grows_same|]).
  intros (k1 & Hk1 & [= <- <-])%bind_ok.
  eapply queue_grows_trans; [|eapply queue_grows_trans; [by eapply emit_grows | by apply grows_same]]. by apply grows_same.
Qed.

Lemma xmit_grows k skb : grows k (sstp_chan_start_xmit k skb).1.
Proof. unfold sstp_chan_start_xmit. repeat case_match; by apply grows_same. Qed.

(** ** Every control packet is handled once *)

Definition nonempty (l : list bytes) : list bytes := List.filter (fun b => negb (len b =? 0)) l.

(** The control packets whose events the task has read and not handled *)
Definition owed (p : phase) : nat :=
  match p with
  | Reading evs | Handling evs => length (List.filter is_control_event evs)
  | _ => O
  end.

Record sys_inv (x : system) : Prop := {
  si_kmod : exists pending, inv (kmod x) pending /\ (at_ x <> Ended -> pending = owed (at_ x));
  si_rx : rx_bounded (kmod x);
  si_flow : nonempty (queued x) = delivered x ++ nonempty (control_frames (kmod x))
}.

Lemma nonempty_app l m : nonempty (l ++ m) = nonempty l ++ nonempty m.
Proof. apply List.filter_app. Qed.

Lemma grows_control k k' : grows k k' -> frames_ok k -> exists l, control_frames k' = control_frames k ++ l.
Proof.
  intros [_ G] Hok. destruct (G Hok) as [l E]. exists l. unfold control_frames. rewrite E, omap_app. f_equal.
  clear E. induction l as [|b l IH]; [done|]. cbn. f_equal. exact IH.
Qed.

Lemma module_step x k :
  sys_inv x -> grows (kmod x) k -> (forall pending, inv (kmod x) pending -> inv k pending /\ rx_bounded k) -> sys_inv (module_moves x k).
Proof.
  intros [(p & Hi & Hp) Hrx Hflow] Hg Hk. destruct (Hk p Hi) as [Hi' Hrx'].
  destruct (grows_control (kmod x) k Hg (inv_frames _ _ Hi)) as [l E].
  constructor; cbn; [by exists p | done|]. rewrite E, drop_app_length, !nonempty_app, Hflow. by rewrite app_assoc.
Qed.

(** The call for a control packet finds the first one. *)
Lemma recv_first k pending :
  inv k (S pending) -> exists k' b rest, ioc_recv_control k SSTP_CONTROL_MAX = Ok (k', len b, b) /\
    control_frames k = b :: rest /\ control_frames k' = rest /\ inv k' pending /\ rx_buf k' = rx_buf k /\ closing k' = closing k.
Proof.
  intros Hi. pose proof Hi as [_ Hfr Hsome Hc _ _].
  destruct (recv_control_ok k SSTP_CONTROL_MAX Hfr) as (k' & rc & b' & Hr & _ & Ht & Hh & _).
  destruct (recv_control_inv k SSTP_CONTROL_MAX pending Hi) as (k2 & rc2 & p2 & Hr2 & Hi' & Hb & Hcl).
  rewrite Hr in Hr2. simplify_eq. destruct (frames_of k) as [|o l] eqn:Hf; [simpl in *; lia|].
  apply Forall_inv in Hsome as (b & -> & Hlb). destruct (Hh b eq_refl) as [-> ->]; [unfold SSTP_CONTROL_MAX; lia|].
  exists k2, b, (omap id l). unfold control_frames. by rewrite Hf, Ht.
Qed.

Lemma handle_step x e evs k s got out (go : bool) :
  sys_inv x -> at_ x = Handling (e :: evs) -> handle_event (kmod x) (task x) e = Ok (k, s, got, out, go) ->
  sys_inv (task_moves x k s got (if go then Handling evs else Ended)).
Proof.
  intros [(p & Hi & Hp) Hrx Hflow] Hat. rewrite Hat in Hp. pose proof (Hp ltac:(done)) as ->. cbn [owed] in Hi.
  assert (Hother : evt_type e <> CONTROL_PACKET -> Ok (kmod x, task x, [], [], false) = Ok (E := Empty_set) (k, s, got, out, go) ->
    sys_inv (task_moves x k s got (if go then Handling evs else Ended))).
  { intros _ [= <- <- <- <- <-]. constructor; cbn; [by eexists | done | by rewrite app_nil_r]. }
  unfold handle_event. destruct (evt_type e) eqn:Hty; cbn [evt_number]; try (by apply Hother).
  change (EventType_from_u32 5) with (Some ControlPacket). cbn iota.
  assert (Hctl : is_control_event e = true) by (unfold is_control_event; by rewrite bool_decide_true).
  cbn [List.filter] in Hi. rewrite Hctl in Hi. cbn [length] in Hi.
  destruct (recv_first (kmod x) _ Hi) as (k' & b & rest & -> & Hcf & Hcf' & Hi' & Hb & Hcl). cbn [mbind res_bind].
  replace (len b <? 0) with false by lia. rewrite Hcf in Hflow. cbn [nonempty List.filter] in Hflow.
  assert (Hrx' : rx_bounded k') by (unfold rx_bounded, rx_len in *; by rewrite Hb, Hcl).
  destruct (Z.eqb_spec (len b) 0) as [E0|Hne]; cbn [negb] in Hflow.
  - intros [= <- <- <- <- <-]. constructor; cbn; [by eexists | done|]. by rewrite app_nil_r, Hcf'.
  - intros ([[s' out'] go'] & _ & [= <- <- <- <- <-])%bind_ok. constructor; cbn; [|done|by rewrite Hcf', <- app_assoc].
    exists (length (List.filter is_control_event evs)). split; [done|]. by destruct go'.
Qed.

(** Two results of one call *)
Ltac same_call E :=
  match type of E with ?m = Ok _ => match goal with H : m = Ok _ |- _ => rewrite E in H; injection H as <- <- end end.

Lemma step_inv x y : step x y -> sys_inv x -> sys_inv y.
Proof.
  intros Hstep Hx. pose proof Hx as [(p & Hi & Hp) Hrx Hflow]. destruct Hstep.
  - apply module_step; [done | by eapply rx_round_grows|]. intros q Hq.
    destruct (rx_round_inv (kmod x) r q) as (k' & go' & E & ? & ?); auto. by same_call E.
  - apply module_step; [done | by eapply tx_round_grows|]. intros q Hq.
    destruct (tx_round_inv (kmod x) ret q) as (k' & go' & E & ? & ?); auto. by same_call E.
  - apply module_step; [done | apply xmit_grows|]. intros q Hq. by apply start_xmit_inv.
  - apply module_step; [done | by eapply send_control_grows|]. intros q Hq.
    destruct (send_control_inv (kmod x) body reserved ret q) as (k' & rc' & E & ? & ?); auto. by same_call E.
  - rewrite H in Hp. constructor; cbn; [exists p; split; [done | by intros _; apply Hp] | done | by rewrite app_nil_r].
  - destruct (read_event_inv (kmod x) p Hi) as (k' & E & (_ & Hb & Hf & _) & Hcl & Hi').
    match goal with Hr : sstp_session_read _ = _ |- _ => rewrite E in Hr; injection Hr as <- He end. rewrite He in Hi'. rewrite H in Hp.
    constructor; cbn.
    + eexists. split; [exact Hi'|]. intros _. rewrite (Hp ltac:(done)). cbn [owed]. rewrite List.filter_app, length_app. cbn.
      by destruct (is_control_event e).
    + unfold rx_bounded, rx_len in *. by rewrite Hb, Hcl.
    + rewrite app_nil_r. etransitivity; [exact Hflow|]. unfold control_frames. by rewrite Hf.
  - destruct (read_event_inv (kmod x) p Hi) as (k' & E & (_ & Hb & Hf & _) & Hcl & Hi').
    match goal with Hr : sstp_session_read _ = _ |- _ => rewrite E in Hr; injection Hr as <- He end. rewrite He in Hi'. rewrite H in Hp.
    constructor; cbn; [eexists; split; [exact Hi'|]; intros _; rewrite (Hp ltac:(done)); cbn; lia | |].
    + unfold rx_bounded, rx_len in *. by rewrite Hb, Hcl.
    + rewrite app_nil_r. etransitivity; [exact Hflow|]. unfold control_frames. by rewrite Hf.
  - by eapply handle_step.
  - rewrite H in Hp. constructor; cbn; [exists p; split; [done | by intros _; apply Hp] | done | by rewrite app_nil_r].
Qed.

Lemma reachable_inv s x : rtc step (starts s) x -> sys_inv x.
Proof.
  intros H. assert (G : sys_inv (starts s)); [|revert G; induction H as [|x y z Hs _ IH]; [done|]; intros Hx; by apply IH, (step_inv x)].
  constructor; [exists O; split; [apply attached_inv | done] | done | done].
Qed.


(** ** Running it *)

(** The next step of the task *)
Definition task_turn (x : system) : option system :=
  match at_ x with
  | Waiting => Some (task_moves x (kmod x) (task x) [] (Reading []))
  | Reading evs =>
      match sstp_session_read (kmod x) with
      | Ok (k, Some e) => Some (task_moves x k (task x) [] (Reading (evs ++ [e])))
      | Ok (k, None) => Some (task_moves x k (begin_handling (task x)) [] (Handling evs))
      | _ => None
      end
  | Handling [] => Some (task_moves x (kmod x) (task x) [] Waiting)
  | Handling (e :: evs) =>
      match handle_event (kmod x) (task x) e with
      | Ok (k, s, got, _, go) => Some (task_moves x k s got (if (go : bool) then Handling evs else Ended))
      | _ => None
      end
  | Ended => None
  end.

Definition receives (b : bytes) (x : system) : option system :=
  if closing (kmod x) || (SSTP_RX_BUF_CAP - rx_len (kmod x) <? len b) then None
  else match rx_round (kmod x) (Bytes b) with Ok (k, _) => Some (module_moves x k) | _ => None end.

Lemma task_turn_step x y : task_turn x = Some y -> step x y.
Proof.
  unfold task_turn. destruct (at_ x) as [|evs|[|e evs]|] eqn:Hat; try done.
  - intros [= <-]. by apply S_wake.
  - destruct (sstp_session_read (kmod x)) as [[k [e|]]|[]|] eqn:E; intros [= <-]; [by eapply S_read | by eapply S_again].
  - intros [= <-]. by apply S_done.
  - destruct (handle_event (kmod x) (task x) e) as [[[[[k s] got] out] go]|[]|] eqn:E; [|done]. intros [= <-]. by eapply S_handle.
Qed.

Lemma receives_step b x y : receives b x = Some y -> step x y.
Proof.
  unfold receives. destruct (closing (kmod x)) eqn:Hc; [done|]. cbn [orb]. destruct (Z.ltb_spec (SSTP_RX_BUF_CAP - rx_len (kmod x)) (len b)); [done|].
  destruct (rx_round (kmod x) (Bytes b)) as [[k go]|[]|] eqn:E; [|done]. intros [= <-]. by eapply (S_rx x (Bytes b)).
Qed.

(** The module receives [b], and the task makes [n] steps. *)
Fixpoint task_turns (n : nat) (x : system) : option system :=
  match n with
  | O => Some x
  | S n => y ← task_turn x; task_turns n y
  end.

Lemma run_steps b n x y : (x1 ← receives b x; task_turns n x1) = Some y -> rtc step x y.
Proof.
  intros (x1 & H1%receives_step & H)%bind_Some. eapply rtc_l; [done|]. clear H1. revert x1 H.
  induction n as [|n IH]; intros x1; cbn; [by intros [= ->]|]. intros (x2 & H2%task_turn_step & H)%bind_Some.
  eapply rtc_l; [done | by apply IH].
Qed.

End Events.

Module EventsDemo.

#[local] Instance idle : Kernel := {| dev_alloc_skb := fun _ _ => true; ktime_get_ns := fun n => Z.of_nat n |}.
#[local] Instance release : BuildProfile := false.
#[local] Existing Instance ToyCrypto.toy.
#[local] Existing Instance SessionProps.Run.world.

(** An SSTP Echo Request, as the module takes it from the stream *)
Definition body : bytes := [0; 8; 0; 0].
Definition packet : bytes := [0x10; 1; 0; 8] ++ body.

Definition demo : option system := x ← receives packet (starts Run.start.1); task_turns 4 x.

Lemma demo_steps x : demo = Some x -> rtc step (starts Run.start.1) x.
Proof. unfold demo. apply run_steps. Qed.


(** A control packet without a body gets an event and an empty answer, and the task takes it for none. *)
Theorem empty_control_packet_ignored :
  forall s, match x ← receives [0x10; 1; 0; 4] (starts s); task_turns 4 x with
            | Some x => queued x = [[]] /\ delivered x = [] /\ control_frames (kmod x) = [] /\ at_ x = Handling []
            | None => False
            end.
Proof. intros s. vm_compute. by repeat split. Qed.

End EventsDemo.
