(* ===== verification/Tc.v ===== *)
(** * Traffic shaping ([src/src/shape/mod.rs], [tc.rs], [netlink.rs])

    A policy is installed on the interface of a session by up to four traffic-control requests: an HTB
    queueing discipline with one class for the traffic to the client, and an ingress discipline with a
    policing filter for the traffic from the client. *)

From stdpp Require Import strings gmap.
From S2P Require Import Prelude RustText Os Netlink RtNetlink Mikrotik.

(** ** [tc.rs] *)

Definition RTM_NEWQDISC : Z := 36.
Definition RTM_NEWTCLASS : Z := 40.
Definition RTM_NEWTFILTER : Z := 44.

Definition handle (major minor : Z) : Z := Z.lor (Z.shiftl major 16) minor.

Definition TC_H_ROOT : Z := 0xFFFFFFFF.
Definition TC_H_INGRESS : Z := 0xFFFFFFF1.

Record Tcmsg := {
  tcm_family : Z; tcm_pad1 : Z; tcm_pad2 : Z; tcm_ifindex : Z; tcm_handle : Z; tcm_parent : Z; tcm_info : Z }.

#[export] Instance tcmsg_repr : Repr Tcmsg := fun m =>
  to_ne 1 (tcm_family m) ++ to_ne 1 (tcm_pad1 m) ++ to_ne 2 (tcm_pad2 m) ++ to_ne 4 (tcm_ifindex m) ++
  to_ne 4 (tcm_handle m) ++ to_ne 4 (tcm_parent m) ++ to_ne 4 (tcm_info m).

Definition TCA_KIND : Z := 1.
Definition TCA_OPTIONS : Z := 2.

Record TcRatespec := { cell_log : Z; linklayer : Z; overhead : Z; cell_align : Z; mpu : Z; rate : Z }.

#[export] Instance ratespec_repr : Repr TcRatespec := fun r =>
  to_ne 1 (cell_log r) ++ to_ne 1 (linklayer r) ++ to_ne 2 (overhead r) ++ to_ne 2 (cell_align r) ++ to_ne 2 (mpu r) ++
  to_ne 4 (rate r).

Definition TcRatespec_default : TcRatespec :=
  {| cell_log := 0; linklayer := 0; overhead := 0; cell_align := 0; mpu := 0; rate := 0 |}.

Definition TCA_HTB_PARMS : Z := 1.
Definition TCA_HTB_INIT : Z := 2.
Definition TCA_HTB_RATE64 : Z := 6.
Definition TCA_HTB_CEIL64 : Z := 7.
Definition HTB_VER : Z := 3.

Record TcHtbGlob := { version : Z; rate2quantum : Z; defcls : Z; debug : Z; direct_pkts : Z }.

#[export] Instance htbglob_repr : Repr TcHtbGlob := fun g =>
  to_ne 4 (version g) ++ to_ne 4 (rate2quantum g) ++ to_ne 4 (defcls g) ++ to_ne 4 (debug g) ++ to_ne 4 (direct_pkts g).

Record TcHtbOpt := {
  htb_rate : TcRatespec; ceil : TcRatespec; buffer : Z; cbuffer : Z; quantum : Z; level : Z; prio : Z }.

#[export] Instance htbopt_repr : Repr TcHtbOpt := fun o =>
  bytes_of (htb_rate o) ++ bytes_of (ceil o) ++ to_ne 4 (buffer o) ++ to_ne 4 (cbuffer o) ++ to_ne 4 (quantum o) ++
  to_ne 4 (level o) ++ to_ne 4 (prio o).

Definition TC_ACT_SHOT : Z := 2.

Record TcPolice := {
  index : Z; action : Z; limit : Z; burst : Z; police_mtu : Z; police_rate : TcRatespec; peakrate : TcRatespec;
  refcnt : Z; bindcnt : Z; capab : Z }.

#[export] Instance police_repr : Repr TcPolice := fun p =>
  to_ne 4 (index p) ++ to_ne 4 (action p) ++ to_ne 4 (limit p) ++ to_ne 4 (burst p) ++ to_ne 4 (police_mtu p) ++
  bytes_of (police_rate p) ++ bytes_of (peakrate p) ++ to_ne 4 (refcnt p) ++ to_ne 4 (bindcnt p) ++ to_ne 4 (capab p).

Definition KIND_HTB : bytes := lit "htb" ++ [0].
Definition KIND_INGRESS : bytes := lit "ingress" ++ [0].
Definition KIND_U32 : bytes := lit "u32" ++ [0].

Definition TCA_U32_SEL : Z := 5.
Definition TCA_U32_POLICE : Z := 6.
Definition TC_U32_TERMINAL : Z := 1.

Record TcU32Sel := {
  sel_flags : Z; offshift : Z; nkeys : Z; sel_pad : Z; offmask : Z; off : Z; offoff : Z; hoff : Z; hmask : Z }.

#[export] Instance u32sel_repr : Repr TcU32Sel := fun s =>
  to_ne 1 (sel_flags s) ++ to_ne 1 (offshift s) ++ to_ne 1 (nkeys s) ++ to_ne 1 (sel_pad s) ++ to_ne 2 (offmask s) ++
  to_ne 2 (off s) ++ to_ne 2 (offoff s) ++ to_ne 2 (hoff s) ++ to_ne 4 (hmask s).

Definition TCA_POLICE_TBF : Z := 1.
Definition TCA_POLICE_RATE : Z := 2.
Definition TCA_POLICE_RATE64 : Z := 8.
Definition ETH_P_ALL : Z := 0x0003.

(** [u16::to_be] on a little-endian machine *)
Definition swap16 (v : Z) : Z := v mod 256 * 256 + v / 256.

(** ** Rates and bursts *)

Definition flat (bps : Z) : RateSpec :=
  {| rate_bps := bps; burst_rate_bps := None; burst_threshold_bps := None; burst_time_secs := None; min_rate_bps := None |}.

Definition saturating_burst_bytes (rate_bytes_per_sec mtu : Z) : Z :=
  let one_ms := rate_bytes_per_sec / 1000 in
  let target := saturating_u64 (one_ms + mtu) in
  Z.min target U32_MAX.

Definition saturating_ingress_burst_bytes (rate_bytes_per_sec mtu : Z) : Z :=
  let ten_ms := rate_bytes_per_sec / 100 in
  let floor := saturating_u64 (mtu * 10) in
  let target := Z.max ten_ms floor in
  Z.min target U32_MAX.

Section Arithmetic.
Context {bp : BuildProfile} {E : Type}.

Definition burst_bytes_to_psched_ticks (burst_bytes rate_bytes_per_sec : Z) : res E Z :=
  if rate_bytes_per_sec =? 0 then Ok U32_MAX
  else
    p ← arith_u64 (burst_bytes * 1000000000);
    let ns := p / rate_bytes_per_sec in
    Ok (Z.min ns U32_MAX).

(** The loop of [compute_cell_log]; a shift by 24 leaves one byte of a 32-bit number. *)
Fixpoint cell_log_loop (fuel : nat) (mtu n : Z) : Z :=
  match fuel with
  | O => n
  | S fuel => if 255 <? Z.shiftr mtu n then cell_log_loop fuel mtu (n + 1) else n
  end.

Definition compute_cell_log (mtu : Z) : Z :=
  let mtu := if mtu =? 0 then 2047 else mtu in
  Z.max (cell_log_loop 32 mtu 0) 1.

(** One slot of the rate table; dividing by zero panics. *)
Definition rate_slot (rate_bytes_per_sec cell_log : Z) (i : nat) : res E Z :=
  let sz := Z.shiftl (Z.of_nat i + 1) cell_log mod 2 ^ 32 in
  if rate_bytes_per_sec =? 0 then Panic
  else
    let ticks := saturating_u64 (sz * 1000000000) / rate_bytes_per_sec in
    Ok (Z.min ticks U32_MAX).

Fixpoint rate_slots (rate_bytes_per_sec cell_log : Z) (js : list nat) : res E (list Z) :=
  match js with
  | [] => Ok []
  | i :: js =>
      v ← rate_slot rate_bytes_per_sec cell_log i;
      vs ← rate_slots rate_bytes_per_sec cell_log js;
      Ok (v :: vs)
  end.

Definition compute_rate_table (rate_bytes_per_sec cell_log : Z) : res E (list Z) :=
  rate_slots rate_bytes_per_sec cell_log (seq 0 256).

Definition rate_table_bytes (tab : list Z) : bytes := concat (map (to_ne 4) tab).

End Arithmetic.

(** ** Requests *)

Definition NEW_OR_REPLACE : Z := Z.lor NLM_F_REQUEST (Z.lor NLM_F_ACK (Z.lor NLM_F_CREATE NLM_F_REPLACE)).

Section Encoders.
Context {bp : BuildProfile} {E : Type}.

Definition tcmsg (ifindex handle parent info : Z) : res E Tcmsg :=
  i ← i32_try_from ifindex;
  Ok {| tcm_family := AF_UNSPEC; tcm_pad1 := 0; tcm_pad2 := 0; tcm_ifindex := i; tcm_handle := handle;
        tcm_parent := parent; tcm_info := info |}.

Definition htb_glob : TcHtbGlob :=
  {| version := HTB_VER; rate2quantum := 10; defcls := 1; debug := 0; direct_pkts := 0 |}.

Definition encode_htb_root (seq ifindex : Z) : res E MessageBuf.t :=
  msg ← tcmsg ifindex (handle 1 0) TC_H_ROOT 0;
  MessageBuf.calls
    [ MessageBuf.push_struct msg;
      MessageBuf.push_attr_bytes TCA_KIND KIND_HTB;
      MessageBuf.nest_begin TCA_OPTIONS;
      MessageBuf.push_attr_bytes TCA_HTB_INIT (bytes_of htb_glob);
      MessageBuf.nest_end;
      MessageBuf.finalize ]
    (MessageBuf.new RTM_NEWQDISC NEW_OR_REPLACE seq).

(** A rate of zero is raised to one byte per second, a ceiling of zero to the rate. *)
Definition htb_opt (spec : RateSpec) (priority : option Z) : TcHtbOpt :=
  let rate_bps_u64 := rate_bps spec / 8 in
  let ceil_bps_u64 := default (rate_bps spec) (burst_rate_bps spec) / 8 in
  let mtu := 1500 in
  let ratespec r := {| cell_log := 0; linklayer := 1; overhead := 0; cell_align := 0; mpu := 0; rate := r |} in
  let r := Z.min rate_bps_u64 U32_MAX in
  let c := Z.min ceil_bps_u64 U32_MAX in
  let r := if r =? 0 then 1 else r in
  let c := if c =? 0 then r else c in
  {| htb_rate := ratespec r; ceil := ratespec c; buffer := saturating_burst_bytes rate_bps_u64 mtu;
     cbuffer := saturating_burst_bytes ceil_bps_u64 mtu; quantum := 0; level := 0; prio := default 0 priority |}.

Definition encode_htb_leaf (seq ifindex : Z) (spec : RateSpec) (priority : option Z) : res E MessageBuf.t :=
  let rate_bps_u64 := rate_bps spec / 8 in
  let ceil_bps_u64 := default (rate_bps spec) (burst_rate_bps spec) / 8 in
  msg ← tcmsg ifindex (handle 1 1) (handle 1 0) 0;
  MessageBuf.calls
    [ MessageBuf.push_struct msg;
      MessageBuf.push_attr_bytes TCA_KIND KIND_HTB;
      MessageBuf.nest_begin TCA_OPTIONS;
      MessageBuf.push_attr_bytes TCA_HTB_PARMS (bytes_of (htb_opt spec priority));
      MessageBuf.push_attr_bytes TCA_HTB_RATE64 (to_ne 8 rate_bps_u64);
      MessageBuf.push_attr_bytes TCA_HTB_CEIL64 (to_ne 8 ceil_bps_u64);
      MessageBuf.nest_end;
      MessageBuf.finalize ]
    (MessageBuf.new RTM_NEWTCLASS NEW_OR_REPLACE seq).

Definition encode_ingress_qdisc (seq ifindex : Z) : res E MessageBuf.t :=
  msg ← tcmsg ifindex (handle 0xFFFF 0) TC_H_INGRESS 0;
  MessageBuf.calls [MessageBuf.push_struct msg; MessageBuf.push_attr_bytes TCA_KIND KIND_INGRESS; MessageBuf.finalize]
    (MessageBuf.new RTM_NEWQDISC NEW_OR_REPLACE seq).

Definition match_all : TcU32Sel :=
  {| sel_flags := TC_U32_TERMINAL; offshift := 0; nkeys := 0; sel_pad := 0; offmask := 0; off := 0; offoff := 0; hoff := 0;
     hmask := 0 |}.

Definition police_parm (spec : RateSpec) (burst_ticks : Z) : TcPolice :=
  let rate_bps_u64 := rate_bps spec / 8 in
  let r := Z.min rate_bps_u64 U32_MAX in
  let r := if r =? 0 then 1 else r in
  {| index := 0; action := TC_ACT_SHOT; limit := 0; burst := burst_ticks; police_mtu := 1500;
     police_rate := {| cell_log := compute_cell_log 1500; linklayer := 0; overhead := 0; cell_align := -1; mpu := 0; rate := r |};
     peakrate := TcRatespec_default; refcnt := 0; bindcnt := 0; capab := 0 |}.

Definition encode_ingress_police_filter (seq ifindex : Z) (spec : RateSpec) : res E MessageBuf.t :=
  let rate_bps_u64 := rate_bps spec / 8 in
  let mtu := 1500 in
  let burst_bytes := saturating_ingress_burst_bytes rate_bps_u64 mtu in
  burst_ticks ← burst_bytes_to_psched_ticks burst_bytes rate_bps_u64;
  rtab ← compute_rate_table (Z.max rate_bps_u64 1) (compute_cell_log mtu);
  let prio := 1 in
  let info := Z.lor (Z.shiftl prio 16) (swap16 ETH_P_ALL) in
  msg ← tcmsg ifindex 0 (handle 0xFFFF 0) info;
  MessageBuf.calls
    [ MessageBuf.push_struct msg;
      MessageBuf.push_attr_bytes TCA_KIND KIND_U32;
      MessageBuf.nest_begin TCA_OPTIONS;
      MessageBuf.push_attr_bytes TCA_U32_SEL (bytes_of match_all);
      MessageBuf.nest_begin TCA_U32_POLICE;
      MessageBuf.push_attr_bytes TCA_POLICE_TBF (bytes_of (police_parm spec burst_ticks));
      MessageBuf.push_attr_bytes TCA_POLICE_RATE (rate_table_bytes rtab);
      MessageBuf.push_attr_bytes TCA_POLICE_RATE64 (to_ne 8 rate_bps_u64);
      MessageBuf.nest_end;
      MessageBuf.nest_end;
      MessageBuf.finalize ]
    (MessageBuf.new RTM_NEWTFILTER NEW_OR_REPLACE seq).

End Encoders.

(** ** The client *)

Inductive ShapeError :=
| ShapeNetlink (e : io_error)
| ShapeKernel (op : string) (errno : Z).

Module TcNetlink.

Record t := { sock : Z; seq : Z }.

Section Client.
Context {os : Os} {bp : BuildProfile}.

Definition open : M ShapeError t :=
  fd ← on_err ShapeNetlink (NetlinkSocket.open NETLINK_ROUTE);
  mret {| sock := fd; seq := 1 |}.

Definition next_seq (nl : t) : Z * t := (seq nl, {| sock := sock nl; seq := (seq nl + 1) mod 2 ^ 32 |}).

Definition exchange (nl : t) (op : string) (m : MessageBuf.t) : M ShapeError () :=
  _ ← on_err ShapeNetlink (NetlinkSocket.send (sock nl) (MessageBuf.buf m));
  received ← on_err ShapeNetlink (NetlinkSocket.recv_into (sock nl) (zeros 4096));
  match drain_acks received {[MessageBuf.seq m]} with
  | Ok remaining => if decide (remaining = ∅) then mret tt else throw (ShapeNetlink OtherError)
  | Err Truncated => throw (ShapeNetlink OtherError)
  | Err (Kernel errno) => throw (ShapeKernel op errno)
  | Panic => lift Panic
  end.

End Client.

End TcNetlink.

(** The [Shaper] is its client. *)
Module Shaper.
Section Shaper.
Context {os : Os} {bp : BuildProfile}.
Abbreviation t := TcNetlink.t.

Definition open : M ShapeError t := TcNetlink.open.

Definition install_htb_root (nl : t) (ifindex : Z) : M ShapeError t :=
  let '(s, nl) := TcNetlink.next_seq nl in
  m ← lift (encode_htb_root s ifindex);
  _ ← TcNetlink.exchange nl "RTM_NEWQDISC(htb root)" m;
  mret nl.

Definition install_htb_leaf (nl : t) (ifindex : Z) (spec : RateSpec) (priority : option Z) : M ShapeError t :=
  let '(s, nl) := TcNetlink.next_seq nl in
  m ← lift (encode_htb_leaf s ifindex spec priority);
  _ ← TcNetlink.exchange nl "RTM_NEWTCLASS(htb leaf)" m;
  mret nl.

Definition install_ingress_qdisc (nl : t) (ifindex : Z) : M ShapeError t :=
  let '(s, nl) := TcNetlink.next_seq nl in
  m ← lift (encode_ingress_qdisc s ifindex);
  _ ← TcNetlink.exchange nl "RTM_NEWQDISC(ingress)" m;
  mret nl.

Definition install_ingress_police_filter (nl : t) (ifindex : Z) (spec : RateSpec) : M ShapeError t :=
  let '(s, nl) := TcNetlink.next_seq nl in
  m ← lift (encode_ingress_police_filter s ifindex spec);
  _ ← TcNetlink.exchange nl "RTM_NEWTFILTER(u32+police)" m;
  mret nl.

Definition clear (nl : t) (ifindex : Z) : M ShapeError t := mret nl.

Definition apply (nl : t) (ifindex : Z) (policy : ShapingPolicy) : M ShapeError t :=
  if is_empty policy then clear nl ifindex
  else
    nl ← match egress policy with
         | Some eg => nl ← install_htb_root nl ifindex; install_htb_leaf nl ifindex eg (priority policy)
         | None => mret nl
         end;
    match ingress policy with
    | Some ing => nl ← install_ingress_qdisc nl ifindex; install_ingress_police_filter nl ifindex ing
    | None => mret nl
    end.

End Shaper.
End Shaper.
