(* ===== verification/TcProps.v ===== *)
(** * Properties of traffic shaping

    [decode_tc] reads a traffic-control message the way rtnetlink(7) and tc(8) lay it out.  Installing a
    policy sends exactly the messages for its directions, with the rates, bursts and the transmit-time
    table of the policy; nothing overflows or divides by zero on the way. *)

From stdpp Require Import strings gmap.
From S2P Require Import Prelude RustText RustStd Os Netlink NetlinkProps RtNetlink RtNetlinkProps Mikrotik Tc.

(** ** Arithmetic *)

Definition u64 (z : Z) : Prop := 0 <= z <= U64_MAX.

Lemma burst_ticks_ok {bp : BuildProfile} {E} burst_ r :
  u32 burst_ -> 0 <= r ->
  burst_bytes_to_psched_ticks (E := E) burst_ r = Ok (if r =? 0 then U32_MAX else Z.min (burst_ * 10 ^ 9 / r) U32_MAX).
Proof.
  intros Hb Hr. unfold burst_bytes_to_psched_ticks. destruct (r =? 0); [done|].
  unfold arith_u64, U64_MAX, u32 in *. replace (_ && _) with true by lia. done.
Qed.

Lemma cell_log_loop_spec fuel mtu n :
  0 <= n -> 0 <= mtu < 256 * 2 ^ (n + Z.of_nat fuel) ->
  let k := cell_log_loop fuel mtu n in
  n <= k /\ Z.shiftr mtu k <= 255 /\ forall j, n <= j < k -> 255 < Z.shiftr mtu j.
Proof.
  revert n. induction fuel as [|fuel IH]; intros n Hn Hm k.
  - cbn in k. subst k. rewrite Z.add_0_r in Hm. split_and!; [lia| |lia]. rewrite Z.shiftr_div_pow2 by lia.
    enough (mtu / 2 ^ n < 256) by lia. apply Z.div_lt_upper_bound; nia.
  - cbn [cell_log_loop] in k. destruct (Z.ltb_spec 255 (Z.shiftr mtu n)) as [Hlt|Hge].
    + destruct (IH (n + 1)) as (H1 & H2 & H3); [lia| |].
      { replace (n + 1 + Z.of_nat fuel) with (n + Z.of_nat (S fuel)) by lia. done. }
      subst k. split_and!; [lia|done|]. intros j Hj. destruct (decide (j = n)) as [->|]; [done|]. apply H3. lia.
    + subst k. split_and!; [lia|done|lia].
Qed.

(** The cell size of the rate table is the least one, and at least 2, that covers every packet up to the
    MTU with 256 slots. *)
Theorem cell_log_least mtu :
  u32 mtu -> mtu <> 0 ->
  let k := compute_cell_log mtu in
  1 <= k <= 24 /\ Z.shiftr mtu k < 256 /\ forall j, 1 <= j < k -> 256 <= Z.shiftr mtu j.
Proof.
  intros Hm H0. unfold compute_cell_log. replace (mtu =? 0) with false by lia. cbn zeta.
  destruct (cell_log_loop_spec 32 mtu 0) as (H1 & H2 & H3); [lia|unfold u32 in Hm; cbn; lia|].
  set (n := cell_log_loop 32 mtu 0) in *. clearbody n. assert (Hn : n <= 24).
  { destruct (decide (24 < n)) as [Hlt|]; [|lia]. specialize (H3 24 ltac:(lia)). rewrite Z.shiftr_div_pow2 in H3 by lia.
    unfold u32 in Hm. assert (mtu / 2 ^ 24 < 256) by (apply Z.div_lt_upper_bound; lia). lia. }
  split_and!; [lia|lia| |].
  - destruct (decide (n = 0)) as [E|]; [|replace (Z.max n 1) with n by lia; lia]. subst n.
    rewrite Z.shiftr_0_r in H2. change (Z.max 0 1) with 1. rewrite Z.shiftr_div_pow2 by lia. change (2 ^ 1) with 2. Z.div_mod_to_equations. lia.
  - intros j Hj. specialize (H3 j ltac:(lia)). lia.
Qed.

(** The transmit time of a full cell, in nanoseconds. *)
Definition transmit_ns (r cell_log : Z) (i : nat) : Z := Z.min ((Z.of_nat i + 1) * 2 ^ cell_log * 10 ^ 9 / r) U32_MAX.

Lemma rate_slots_ok {E} r c js :
  0 < r -> 0 <= c <= 20 -> Forall (fun i => (i < 256)%nat) js -> rate_slots (E := E) r c js = Ok (map (transmit_ns r c) js).
Proof.
  intros Hr Hc. induction 1 as [|i js Hi Hjs IH]; [done|]. cbn [rate_slots map].
  assert (Hs : rate_slot (E := E) r c i = Ok (transmit_ns r c i)).
  { unfold rate_slot, transmit_ns. replace (r =? 0) with false by lia. rewrite Z.shiftl_mul_pow2 by lia.
    assert (2 ^ c <= 2 ^ 20) by (apply Z.pow_le_mono_r; lia). assert (0 < 2 ^ c) by (apply Z.pow_pos_nonneg; lia).
    assert (Hx : 0 < (Z.of_nat i + 1) * 2 ^ c <= 2 ^ 28) by (change (2 ^ 28) with (256 * 2 ^ 20); nia).
    set (x := (Z.of_nat i + 1) * 2 ^ c) in *. clearbody x. rewrite Z.mod_small by lia.
    replace (saturating_u64 (x * 1000000000)) with (x * 10 ^ 9) by (unfold saturating_u64, U64_MAX; lia). done. }
  by rewrite Hs, IH.
Qed.

Lemma rate_table_ok {E} r c :
  0 < r -> 0 <= c <= 20 -> compute_rate_table (E := E) r c = Ok (map (transmit_ns r c) (seq 0 256)).
Proof.
  intros Hr Hc. apply rate_slots_ok; [done|done|]. apply Forall_forall. intros i Hi. apply elem_of_seq in Hi. lia.
Qed.

(** ** What the kernel is asked *)

Inductive tc_request :=
| HtbQdisc (ifindex handle parent default_class : Z)
| HtbClass (ifindex handle parent rate ceil rate64 ceil64 buffer cbuffer prio : Z)
| IngressQdisc (ifindex handle parent : Z)
| Policer (ifindex parent info rate rate64 burst mtu action cell_log : Z) (table : list Z).

Fixpoint nested_of (ty : Z) (ts : list tree) : option (list tree) :=
  match ts with
  | [] => None
  | Nested ty' inner :: ts => if ty =? ty' then Some inner else nested_of ty ts
  | Flat _ _ :: ts => nested_of ty ts
  end.

Fixpoint words (fuel : nat) (l : bytes) : list Z :=
  match fuel, l with
  | S fuel, _ :: _ => of_ne (take 4 l) :: words fuel (drop 4 l)
  | _, _ => []
  end.

Definition u32_at (s : bytes) (o : Z) : Z := of_ne (sub s o (o + 4)).

Definition interpret_tc (ty : Z) (s : bytes) (ts : list tree) : option tc_request :=
  let ifindex := i32_of_ne (sub s 4 8) in
  let handle := u32_at s 8 in
  let parent := u32_at s 12 in
  kind ← attr_of TCA_KIND ts;
  if ty =? RTM_NEWQDISC then
    if bytes_eqb kind KIND_INGRESS then Some (IngressQdisc ifindex handle parent)
    else
      opts ← nested_of TCA_OPTIONS ts;
      init ← attr_of TCA_HTB_INIT opts;
      if bytes_eqb kind KIND_HTB && (u32_at init 0 =? HTB_VER) then Some (HtbQdisc ifindex handle parent (u32_at init 8)) else None
  else if (ty =? RTM_NEWTCLASS) && bytes_eqb kind KIND_HTB then
    opts ← nested_of TCA_OPTIONS ts;
    p ← attr_of TCA_HTB_PARMS opts;
    r64 ← attr_of TCA_HTB_RATE64 opts;
    c64 ← attr_of TCA_HTB_CEIL64 opts;
    Some (HtbClass ifindex handle parent (u32_at p 8) (u32_at p 20) (of_ne r64) (of_ne c64) (u32_at p 24) (u32_at p 28) (u32_at p 40))
  else if (ty =? RTM_NEWTFILTER) && bytes_eqb kind KIND_U32 then
    opts ← nested_of TCA_OPTIONS ts;
    sel ← attr_of TCA_U32_SEL opts;
    act ← nested_of TCA_U32_POLICE opts;
    p ← attr_of TCA_POLICE_TBF act;
    tab ← attr_of TCA_POLICE_RATE act;
    r64 ← attr_of TCA_POLICE_RATE64 act;
    if (byte_at sel 0 =? TC_U32_TERMINAL) && (byte_at sel 2 =? 0) then
      Some (Policer ifindex parent (u32_at s 16) (u32_at p 28) (of_ne r64) (u32_at p 12) (u32_at p 16) (u32_at p 4)
              (byte_at p 20) (words (length tab) tab))
    else None
  else None.

Definition decode_tc (b : bytes) : option (Z * tc_request) :=
  m ← read_message 20 b;
  let '(h, s, ts) := m in
  r ← interpret_tc (nlmsg_type h) s ts;
  Some (nlmsg_seq h, r).

Lemma decode_tc_built ty fl sq (v : Tcmsg) ts :
  u16 ty -> u16 fl -> u32 sq -> forallb fits ts = true -> NLMSG_HDRLEN + len (sent v ts) <= U32_MAX ->
  decode_tc (message_bytes ty fl sq v ts) = r ← interpret_tc ty (bytes_of v) ts; Some (sq, r).
Proof.
  intros. unfold decode_tc. change 20 with (len (bytes_of v)). rewrite read_message_bytes by done. done.
Qed.

(** ** Messages of the encoders *)

Definition spec_ok (s : RateSpec) : Prop := u64 (rate_bps s) /\ forall b, burst_rate_bps s = Some b -> u64 b.

(** A rate in bytes per second as the 32-bit field takes it. *)
Definition rate32 (r : Z) : Z := Z.max 1 (Z.min r U32_MAX).

Definition police_burst (r : Z) : Z :=
  if r =? 0 then U32_MAX else Z.min (Z.min (Z.max (r / 100) 15000) U32_MAX * 10 ^ 9 / r) U32_MAX.

Definition egress_wanted (i : Z) (s : RateSpec) (prio : option Z) : list tc_request :=
  let r := rate_bps s / 8 in
  let c := default (rate_bps s) (burst_rate_bps s) / 8 in
  [ HtbQdisc i 0x10000 0xFFFFFFFF 1;
    HtbClass i 0x10001 0x10000 (rate32 r) (if c =? 0 then rate32 r else Z.min c U32_MAX) r c
      (Z.min (r / 1000 + 1500) U32_MAX) (Z.min (c / 1000 + 1500) U32_MAX) (default 0 prio) ].

Definition ingress_wanted (i : Z) (s : RateSpec) : list tc_request :=
  let r := rate_bps s / 8 in
  [ IngressQdisc i 0xFFFF0000 0xFFFFFFF1;
    Policer i 0xFFFF0000 0x10300 (rate32 r) r (police_burst r) 1500 TC_ACT_SHOT 3 (map (transmit_ns (Z.max r 1) 3) (seq 0 256)) ].

Section Encoders.
Context {bp : BuildProfile} {E : Type}.

(** The encoder's message decodes to the request. *)
Definition encodes (enc : res E MessageBuf.t) (sq : Z) (req : tc_request) : Prop :=
  exists m, enc = Ok m /\ MessageBuf.seq m = sq /\ decode_tc (MessageBuf.buf m) = Some (sq, req).

Lemma encodes_built ty sq (v : Tcmsg) ts req :
  u16 ty -> u32 sq -> forallb fits ts = true -> len (encs ts) <= 65535 ->
  interpret_tc ty (bytes_of v) ts = Some req ->
  encodes (MessageBuf.calls (message_ops v ts) (MessageBuf.new ty NEW_OR_REPLACE sq)) sq req.
Proof.
  intros Hty Hsq Hts Hlen Hi. assert (Hs : NLMSG_HDRLEN + len (sent v ts) <= U32_MAX).
  { unfold sent. rewrite length_app. assert (len (bytes_of v) = 20) by done. unfold NLMSG_HDRLEN, U32_MAX. lia. }
  eexists. split_and!; [by apply calls_message|done|]. cbn [MessageBuf.buf]. by rewrite decode_tc_built, Hi.
Qed.

Lemma tcmsg_ok i h p info :
  index_ok i ->
  tcmsg (E := E) i h p info =
  Ok {| tcm_family := AF_UNSPEC; tcm_pad1 := 0; tcm_pad2 := 0; tcm_ifindex := i; tcm_handle := h; tcm_parent := p; tcm_info := info |}.
Proof. intros Hi. unfold tcmsg, i32_try_from, index_ok in *. by replace (i <? 2 ^ 31) with true by lia. Qed.

(** Reading a field back. *)
Lemma field_u32 s o v : sub s o (o + 4) = to_ne 4 v -> u32 v -> u32_at s o = v.
Proof. unfold u32_at. intros -> Hv. by apply of_to_ne_small. Qed.

Lemma field_u64 v : u64 v -> of_ne (to_ne 8 v) = v.
Proof. intros Hv. apply of_to_ne_small. unfold u64, U64_MAX in *. change (256 ^ Z.of_nat 8) with 18446744073709551616. lia. Qed.

Lemma div_u64 v k : u64 v -> 0 < k -> u64 (v / k).
Proof.
  unfold u64. intros Hv Hk. split; [apply Z.div_pos; lia|]. apply Z.le_trans with v; [|lia]. apply Z.div_le_upper_bound; nia.
Qed.

Lemma htb_root_request sq i :
  u32 sq -> index_ok i -> encodes (encode_htb_root sq i) sq (HtbQdisc i 0x10000 0xFFFFFFFF 1).
Proof.
  intros Hs Hi. unfold encode_htb_root. rewrite tcmsg_ok by done. cbn [mbind res_bind]. set (v := Build_Tcmsg _ _ _ _ _ _ _).
  refine (encodes_built RTM_NEWQDISC sq v [Flat TCA_KIND KIND_HTB; Nested TCA_OPTIONS [Flat TCA_HTB_INIT (bytes_of htb_glob)]] _ _ Hs _ _ _);
    try done.
  unfold interpret_tc. change (sub (bytes_of v) 4 8) with (to_ne 4 i). unfold index_ok in Hi. rewrite i32_to_ne by lia. done.
Qed.

Lemma ingress_request sq i :
  u32 sq -> index_ok i -> encodes (encode_ingress_qdisc sq i) sq (IngressQdisc i 0xFFFF0000 0xFFFFFFF1).
Proof.
  intros Hs Hi. unfold encode_ingress_qdisc. rewrite tcmsg_ok by done. cbn [mbind res_bind]. set (v := Build_Tcmsg _ _ _ _ _ _ _).
  refine (encodes_built RTM_NEWQDISC sq v [Flat TCA_KIND KIND_INGRESS] _ _ Hs _ _ _); try done.
  unfold interpret_tc. change (sub (bytes_of v) 4 8) with (to_ne 4 i). unfold index_ok in Hi. rewrite i32_to_ne by lia. done.
Qed.

Lemma htb_leaf_request sq i s prio :
  u32 sq -> index_ok i -> spec_ok s -> (forall p, prio = Some p -> u8 p) ->
  exists req, egress_wanted i s prio = [HtbQdisc i 0x10000 0xFFFFFFFF 1; req] /\ encodes (encode_htb_leaf sq i s prio) sq req.
Proof.
  intros Hs Hi (Hr & Hb) Hp. eexists. split; [reflexivity|]. unfold encode_htb_leaf. rewrite tcmsg_ok by done. cbn [mbind res_bind].
  set (v := Build_Tcmsg _ _ _ _ _ _ _). set (r := rate_bps s / 8). set (c := default (rate_bps s) (burst_rate_bps s) / 8).
  assert (Hru : u64 r) by (apply div_u64; [done|lia]).
  assert (Hcu : u64 c) by (apply div_u64; [destruct (burst_rate_bps s) as [b|] eqn:Eb; [by apply Hb|done]|lia]).
  set (o := htb_opt s prio).
  refine (encodes_built RTM_NEWTCLASS sq v
    [Flat TCA_KIND KIND_HTB; Nested TCA_OPTIONS [Flat TCA_HTB_PARMS (bytes_of o); Flat TCA_HTB_RATE64 (to_ne 8 r); Flat TCA_HTB_CEIL64 (to_ne 8 c)]]
    _ _ Hs _ _ _); try done.
  unfold interpret_tc. change (sub (bytes_of v) 4 8) with (to_ne 4 i). unfold index_ok in Hi. rewrite i32_to_ne by lia.
  cbn [attr_of nested_of]. cbn -[u32_at to_ne of_ne bytes_of o v r c].
  rewrite !field_u64 by done. unfold u64, U64_MAX in Hru, Hcu.
  assert (Hburst : forall x, 0 <= x <= 18446744073709551615 ->
    saturating_burst_bytes x 1500 = Z.min (x / 1000 + 1500) U32_MAX /\ u32 (Z.min (x / 1000 + 1500) U32_MAX)).
  { intros x Hx. assert (0 <= x / 1000) by (apply Z.div_pos; lia). assert (x / 1000 < 18446744073709552) by (apply Z.div_lt_upper_bound; lia).
    unfold saturating_burst_bytes, saturating_u64, U64_MAX, U32_MAX, u32. lia. }
  assert (Hrate : rate (htb_rate o) = rate32 r).
  { cbn. fold r. unfold rate32, U32_MAX. destruct (Z.eqb_spec (Z.min r 4294967295) 0); lia. }
  assert (Hceil : rate (ceil o) = if c =? 0 then rate32 r else Z.min c U32_MAX).
  { unfold o, htb_opt. cbn [ceil rate]. fold r c. unfold rate32, U32_MAX.
    destruct (Z.eqb_spec (Z.min c 4294967295) 0), (Z.eqb_spec (Z.min r 4294967295) 0), (Z.eqb_spec c 0); lia. }
  rewrite (field_u32 (bytes_of o) 8 (rate (htb_rate o))), (field_u32 (bytes_of o) 20 (rate (ceil o))),
    (field_u32 (bytes_of o) 24 (saturating_burst_bytes r 1500)), (field_u32 (bytes_of o) 28 (saturating_burst_bytes c 1500)),
    (field_u32 (bytes_of o) 40 (default 0 prio)), Hrate, Hceil, (proj1 (Hburst r ltac:(lia))), (proj1 (Hburst c ltac:(lia)));
    try reflexivity.
  - destruct prio as [p|]; [|done]. specialize (Hp p eq_refl). unfold u8, u32 in *. cbn. lia.
  - rewrite (proj1 (Hburst c ltac:(lia))). by apply Hburst.
  - rewrite (proj1 (Hburst r ltac:(lia))). by apply Hburst.
  - rewrite Hceil. unfold rate32, U32_MAX, u32. destruct (c =? 0); lia.
  - rewrite Hrate. unfold rate32, U32_MAX, u32. lia.
Qed.

(** *** The policing filter *)

Lemma words_of_table tab fuel :
  (length tab <= fuel)%nat -> Forall u32 tab -> words fuel (rate_table_bytes tab) = tab.
Proof.
  revert fuel. induction tab as [|v tab IH]; intros fuel Hf Hu; [by destruct fuel|]. destruct fuel as [|fuel]; [cbn in Hf; lia|].
  inversion Hu as [|? ? Hv Ht]; subst. unfold rate_table_bytes. cbn [map concat]. change (concat (map (to_ne 4) tab)) with (rate_table_bytes tab).
  assert (Hl : length (to_ne 4 v) = 4%nat) by done. destruct (to_ne 4 v) as [|b l] eqn:Ev; [done|]. cbn [app words].
  change (b :: l ++ rate_table_bytes tab) with ((b :: l) ++ rate_table_bytes tab). rewrite <- Ev in *.
  rewrite take_app_length' by done. rewrite drop_app_length' by done. rewrite of_to_ne_small by done. f_equal. apply IH; [cbn in Hf; lia|done].
Qed.

Lemma len_table tab : len (rate_table_bytes tab) = 4 * len tab.
Proof. unfold rate_table_bytes. induction tab as [|v tab IH]; [done|]. cbn [map concat]. rewrite length_app. change (length (to_ne 4 v)) with 4%nat. cbn [length]. lia. Qed.

Lemma transmit_u32 r c i : 0 < r -> 0 <= c -> u32 (transmit_ns r c i).
Proof.
  intros Hr Hc. unfold transmit_ns, u32, U32_MAX. assert (0 < 2 ^ c) by (apply Z.pow_pos_nonneg; lia).
  assert (0 <= (Z.of_nat i + 1) * 2 ^ c * 10 ^ 9 / r) by (apply Z.div_pos; lia). lia.
Qed.

Lemma police_request sq i s :
  u32 sq -> index_ok i -> u64 (rate_bps s) ->
  exists req, ingress_wanted i s = [IngressQdisc i 0xFFFF0000 0xFFFFFFF1; req] /\
    encodes (encode_ingress_police_filter sq i s) sq req.
Proof.
  intros Hs Hi Hr. eexists. split; [reflexivity|]. unfold encode_ingress_police_filter. set (r := rate_bps s / 8).
  assert (Hru : u64 r) by (apply div_u64; [done|lia]). unfold u64, U64_MAX in Hru.
  assert (H100 : 0 <= r / 100) by (apply Z.div_pos; lia).
  assert (Hb : saturating_ingress_burst_bytes r 1500 = Z.min (Z.max (r / 100) 15000) U32_MAX) by done.
  rewrite burst_ticks_ok by (rewrite ?Hb; unfold u32, U32_MAX; lia). cbn [mbind res_bind]. rewrite Hb. fold (police_burst r).
  change (compute_cell_log 1500) with 3. rewrite rate_table_ok by lia. cbn [mbind res_bind]. rewrite tcmsg_ok by done. cbn [mbind res_bind].
  set (v := Build_Tcmsg _ _ _ _ _ _ _). set (tab := map (transmit_ns (Z.max r 1) 3) (seq 0 256)). set (p := police_parm s (police_burst r)).
  assert (Hburst : u32 (police_burst r)).
  { unfold police_burst, u32, U32_MAX. destruct (Z.eqb_spec r 0); [lia|].
    assert (0 <= Z.min (Z.max (r / 100) 15000) 4294967295 * 10 ^ 9 / r) by (apply Z.div_pos; lia). lia. }
  assert (Htab : Forall u32 tab) by (apply Forall_map, Forall_true; intros j; apply transmit_u32; lia).
  assert (Hlt : len (rate_table_bytes tab) = 1024) by (rewrite len_table; unfold tab; by rewrite length_map, length_seq).
  clearbody tab.
  set (acts := [Flat TCA_POLICE_TBF (bytes_of p); Flat TCA_POLICE_RATE (rate_table_bytes tab); Flat TCA_POLICE_RATE64 (to_ne 8 r)]).
  assert (Ha : len (encs acts) = 1100).
  { unfold acts. rewrite !encs_cons. change (encs []) with (@nil Z). cbn [enc]. rewrite Hlt, !length_app.
    change (length (padding 1024)) with 0%nat. change (length (bytes_of p)) with 56%nat. change (length (padding (Z.of_nat 56))) with 0%nat.
    change (length (to_ne 8 r)) with 8%nat. change (length (padding (Z.of_nat 8))) with 0%nat. cbn [to_ne length]. lia. }
  assert (Hn : length (encs acts) = 1100%nat) by lia.
  refine (encodes_built RTM_NEWTFILTER sq v
    [Flat TCA_KIND KIND_U32; Nested TCA_OPTIONS [Flat TCA_U32_SEL (bytes_of match_all); Nested TCA_U32_POLICE acts]] _ _ Hs _ _ _);
    try done.
  - assert (Hf : forallb fits acts = true) by (unfold acts; cbn [forallb fits]; rewrite Hlt; done).
    cbn [forallb fits]. rewrite !encs_cons, enc_nested, !length_app, Hf, Hn. done.
  - rewrite !encs_cons, !enc_nested, !encs_cons, enc_nested, !length_app, Hn. done.
  - unfold interpret_tc. change (sub (bytes_of v) 4 8) with (to_ne 4 i). unfold index_ok in Hi. rewrite i32_to_ne by lia.
    cbn [attr_of nested_of]. cbn -[u32_at to_ne of_ne bytes_of byte_at p v r words].
    rewrite words_of_table by (done || (pose proof (len_table tab); lia)).
    assert (Hrate : rate (police_rate p) = rate32 r).
    { cbn. fold r. unfold rate32, U32_MAX. destruct (Z.eqb_spec (Z.min r 4294967295) 0); lia. }
    rewrite field_u64 by (unfold u64, U64_MAX; lia).
    rewrite (field_u32 (bytes_of p) 28 (rate (police_rate p))), (field_u32 (bytes_of p) 12 (police_burst r)), Hrate;
      [reflexivity|reflexivity|done|reflexivity|]. rewrite Hrate. unfold rate32, u32, U32_MAX. lia.
Qed.
End Encoders.

(** ** Installing a policy *)

Section Install.
Context {os : Os} {os_ok : OsOk os} {bp : BuildProfile}.

Lemma tc_exchange_ok nl op m : one_message (TcNetlink.sock nl) (MessageBuf.buf m) (TcNetlink.exchange nl op m).
Proof using os_ok.
  intros h r h' Hr. unfold TcNetlink.exchange in Hr. eapply exchanged in Hr as (Hs & Ho & Hp); [|lia|].
  - split_and!; [done|done|]. intros Hbp. apply Hp. intros x g. pose proof (drain_acks_total x {[MessageBuf.seq m]} Hbp).
    destruct (drain_acks x _) as [?|[]|]; [by case_decide|done..].
  - intros x g. destruct (drain_acks x _) as [?|[]|]; [by case_decide|done..].
Qed.

Abbreviation tc_asks := (asks (E := ShapeError) TcNetlink.sock decode_tc).

Definition tc_after (nl : TcNetlink.t) : TcNetlink.t := (TcNetlink.next_seq nl).2.

Fixpoint after_n (n : nat) (nl : TcNetlink.t) : TcNetlink.t :=
  match n with O => nl | S n => after_n n (tc_after nl) end.

(** Consecutive sequence numbers from [sq], modulo [2 ^ 32]. *)
Fixpoint numbered {A} (sq : Z) (l : list A) : list (Z * A) :=
  match l with [] => [] | a :: l => (sq, a) :: numbered ((sq + 1) mod 2 ^ 32) l end.

Lemma tc_after_u32 nl : u32 (TcNetlink.seq (tc_after nl)).
Proof. unfold u32. apply (Z.mod_pos_bound _ (2 ^ 32)). lia. Qed.

Lemma tc_asks_one nl op enc req :
  encodes enc (TcNetlink.seq nl) req ->
  tc_asks (m ← lift enc; _ ← TcNetlink.exchange (tc_after nl) op m; mret (tc_after nl)) nl (tc_after nl) [(TcNetlink.seq nl, req)].
Proof using os_ok.
  intros (m & -> & Hsq & Hd). apply asks_one. exists m. split_and!; [done|apply (tc_exchange_ok (tc_after nl))|done].
Qed.

Lemma tc_asks_two nl f g req req' :
  tc_asks f nl (tc_after nl) [(TcNetlink.seq nl, req)] ->
  tc_asks (g (tc_after nl)) (tc_after nl) (after_n 2 nl) [(TcNetlink.seq (tc_after nl), req')] ->
  tc_asks (x ← f; g x) nl (after_n 2 nl) (numbered (TcNetlink.seq nl) [req; req']).
Proof. intros Hf Hg. exact (asks_bind TcNetlink.sock decode_tc f g nl (tc_after nl) (after_n 2 nl) [_] [_] eq_refl Hf Hg). Qed.

Lemma egress_asks nl i s prio :
  u32 (TcNetlink.seq nl) -> index_ok i -> spec_ok s -> (forall p, prio = Some p -> u8 p) ->
  tc_asks (nl ← Shaper.install_htb_root nl i; Shaper.install_htb_leaf nl i s prio) nl (after_n 2 nl)
    (numbered (TcNetlink.seq nl) (egress_wanted i s prio)).
Proof using os_ok.
  intros Hq Hi Hs Hp.
  destruct (htb_leaf_request (E := ShapeError) (TcNetlink.seq (tc_after nl)) i s prio (tc_after_u32 nl) Hi Hs Hp) as (req & -> & He).
  apply (tc_asks_two nl _ (fun nl => Shaper.install_htb_leaf nl i s prio)).
  - apply tc_asks_one. by apply htb_root_request.
  - by apply (tc_asks_one (tc_after nl)).
Qed.

Lemma ingress_asks nl i s :
  u32 (TcNetlink.seq nl) -> index_ok i -> u64 (rate_bps s) ->
  tc_asks (nl ← Shaper.install_ingress_qdisc nl i; Shaper.install_ingress_police_filter nl i s) nl (after_n 2 nl)
    (numbered (TcNetlink.seq nl) (ingress_wanted i s)).
Proof using os_ok.
  intros Hq Hi Hs.
  destruct (police_request (E := ShapeError) (TcNetlink.seq (tc_after nl)) i s (tc_after_u32 nl) Hi Hs) as (req & -> & He).
  apply (tc_asks_two nl _ (fun nl => Shaper.install_ingress_police_filter nl i s)).
  - apply tc_asks_one. by apply ingress_request.
  - by apply (tc_asks_one (tc_after nl)).
Qed.

Definition policy_ok (p : ShapingPolicy) : Prop :=
  (forall s, egress p = Some s -> spec_ok s) /\ (forall s, ingress p = Some s -> spec_ok s) /\
  (forall x, priority p = Some x -> u8 x).

Definition policy_wanted (i : Z) (p : ShapingPolicy) : list tc_request :=
  match egress p with Some s => egress_wanted i s (priority p) | None => [] end ++
  match ingress p with Some s => ingress_wanted i s | None => [] end.

Lemma policy_installed nl i p :
  u32 (TcNetlink.seq nl) -> index_ok i -> policy_ok p ->
  tc_asks (Shaper.apply nl i p) nl (after_n (length (policy_wanted i p)) nl) (numbered (TcNetlink.seq nl) (policy_wanted i p)).
Proof using os_ok.
  intros Hq Hi (He & Hg & Hp). unfold Shaper.apply, policy_wanted, is_empty, Shaper.clear.
  destruct (egress p) as [eg|], (ingress p) as [ing|].
  - exact (asks_bind TcNetlink.sock decode_tc _ _ nl (after_n 2 nl) (after_n 4 nl) [_; _] [_; _] eq_refl
             (egress_asks nl i eg _ Hq Hi (He _ eq_refl) Hp) (ingress_asks (after_n 2 nl) i ing (tc_after_u32 _) Hi (proj1 (Hg _ eq_refl)))).
  - exact (asks_bind TcNetlink.sock decode_tc _ _ nl (after_n 2 nl) (after_n 2 nl) [_; _] [] eq_refl
             (egress_asks nl i eg _ Hq Hi (He _ eq_refl) Hp) (asks_none TcNetlink.sock decode_tc _)).
  - exact (asks_bind TcNetlink.sock decode_tc _ _ nl nl (after_n 2 nl) [] [_; _] eq_refl
             (asks_none TcNetlink.sock decode_tc _) (ingress_asks nl i ing Hq Hi (proj1 (Hg _ eq_refl)))).
  - apply asks_none.
Qed.

(** *** Policies of the attribute *)

Lemma f64_as_u64_range f : u64 (f64_as_u64 f).
Proof using Type.
  destruct f as [| [] | | [] m e]; cbn [f64_as_u64]; unfold u64, U64_MAX; try lia. destruct (Z.leb_spec 0 e).
  - assert (0 < 2 ^ e) by (apply Z.pow_pos_nonneg; lia). nia.
  - assert (0 <= Z.pos m / 2 ^ (- e)) by (apply Z.div_pos; [lia|]; apply Z.pow_pos_nonneg; lia). lia.
Qed.

Lemma parse_bps_range s field n : parse_bps s field = Ok n -> u64 n.
Proof using Type.
  unfold parse_bps. destruct (len s =? 0) eqn:E0; [done|]. rewrite idx_ok by lia. cbn [mbind res_bind].
  assert (Hm : forall num m, (0 <= m) -> (if len num =? 0 then Err (BadNumber field s)
    else match parse_uint U64_MAX num with
         | Some n => if n * m <=? U64_MAX then Ok (n * m) else Err (BadNumber field s)
         | None => f ← ok_or (parse_f64 num) (BadNumber field s);
             if negb (is_finite f) || f64_lt f (f64_of_Z 0) then Err (BadNumber field s)
             else let scaled := f64_mul f (f64_of_Z m) in
                  if negb (is_finite scaled) || f64_lt scaled (f64_of_Z 0) || f64_lt (f64_of_Z U64_MAX) scaled
                  then Err (BadNumber field s) else Ok (f64_as_u64 scaled)
         end) = Ok n -> u64 n).
  { intros num m Hm. destruct (len num =? 0); [done|]. destruct (parse_uint U64_MAX num) as [k|] eqn:Ek.
    - apply parse_uint_range in Ek; [|done]. destruct (Z.leb_spec (k * m) U64_MAX); [|done]. intros [= <-]. unfold u64. nia.
    - destruct (parse_f64 num) as [f|]; [|done]. cbn [ok_or mbind res_bind]. destruct (_ || _); [done|]. cbn zeta.
      destruct (_ || _); [done|]. intros [= <-]. apply f64_as_u64_range. }
  assert (Hmul : forall x k, multiplier_of x = Some k -> 0 <= k).
  { intros x k. unfold multiplier_of. repeat case_match; intros [= <-]; lia. }
  destruct (multiplier_of _) as [k|] eqn:Ek; [rewrite slice_ok by lia|]; cbn [mbind res_bind]; apply Hm; [by eapply Hmul|lia].
Qed.

Lemma parse_pair_range field name pr : parse_pair field name = Ok pr -> u64 (rx pr) /\ u64 (tx pr).
Proof using Type.
  unfold parse_pair, parse_pair_with. destruct (split_byte 47 field) as [|a halves]; [done|].
  destruct (parse_bps a name) as [r|e|] eqn:Ea; [|done|done]. apply parse_bps_range in Ea. cbn [mbind res_bind].
  destruct halves as [|b halves]; [by intros [= <-]|]. destruct (parse_bps b name) as [t|e|] eqn:Eb; [|done|done].
  apply parse_bps_range in Eb. cbn [mbind res_bind]. destruct halves; [|done]. by intros [= <-].
Qed.

Lemma next_with_inv {A} (f : bytes -> res ParseError A) fields o rest :
  next_with f fields = Ok (o, rest) -> forall a, o = Some a -> exists x, f x = Ok a.
Proof using Type.
  destruct fields as [|x fields]; cbn; [intros [= <- <-]; done|]. destruct (f x) as [a|e|] eqn:Ef; [|done|done].
  intros [= <- <-] a' [= <-]. eauto.
Qed.

(** Every policy the attribute gives is within the ranges of its types. *)
Lemma parse_policy_ok value p : parse value = Ok p -> policy_ok p.
Proof using Type.
  unfold parse. destruct (_ =? 0); [done|]. destruct (split_ascii_whitespace _) as [|first fields]; [done|].
  destruct (parse_pair first "rate") as [rate|e|] eqn:Er; [|done|done]. apply parse_pair_range in Er as [Hrx Htx]. cbn [mbind res_bind].
  destruct (next_with _ fields) as [[br f1]|e|] eqn:Eb; [|done|done]. cbn [mbind res_bind].
  destruct (next_with _ f1) as [[bt f2]|e|]; [|done|done]. cbn [mbind res_bind].
  destruct (next_with _ f2) as [[bm f3]|e|]; [|done|done]. cbn [mbind res_bind].
  destruct (next_with parse_priority f3) as [[pr f4]|e|] eqn:Ep; [|done|done]. cbn [mbind res_bind].
  destruct (next_with _ f4) as [[mr f5]|e|]; [|done|done]. cbn [mbind res_bind]. destruct f5; [|done]. intros [= <-].
  pose proof (next_with_inv _ _ _ _ Eb) as Hb. pose proof (next_with_inv _ _ _ _ Ep) as Hp.
  assert (Hspec : forall (get : Pair -> Z) x y z s, u64 (get rate) -> (forall q, u64 (rx q) /\ u64 (tx q) -> u64 (get q)) ->
    build_spec (get rate) (option_map get br) x y z = Some s -> spec_ok s).
  { intros get x y z s Hg Hq. unfold build_spec, spec_ok. intros Hs.
    assert (rate_bps s = get rate /\ burst_rate_bps s = option_map get br) as [-> Hbs].
    { destruct (get rate =? 0), (option_map get br), z; simplify_eq; done. }
    split; [done|]. intros b Hb'. rewrite Hbs in Hb'. destruct br as [q|]; [|done]. injection Hb' as <-. apply Hq.
    destruct (Hb q eq_refl) as [x' Hx]. by apply parse_pair_range in Hx. }
  split_and!; cbn [egress ingress priority].
  - intros s. apply (Hspec rx); [done|]. by intros q [? ?].
  - intros s. apply (Hspec tx); [done|]. by intros q [? ?].
  - intros x ->. destruct (Hp x eq_refl) as [t Ht]. unfold parse_priority in Ht. destruct (parse_i64 t) as [n|]; [|done].
    cbn [ok_or mbind res_bind] in Ht. destruct (negb _) eqn:En; [done|]. injection Ht as <-. unfold u8. lia.
Qed.

End Install.

Module ShapeDemo.
Import NetDemo.

Definition client : TcNetlink.t := {| TcNetlink.sock := 3; TcNetlink.seq := U32_MAX |}.
Definition policy : ShapingPolicy := {| egress := Some (flat 8000000); ingress := Some (flat 4); priority := None |}.
Abbreviation run := (Shaper.apply (os := machine true) (bp := false) client 7 policy []).


End ShapeDemo.
