(* ===== verification/Nft.v ===== *)
(** * MSS clamping ([src/src/shape/mss.rs], [mss_shared.rs])

    One nftables table for the process holds, for each MSS value in use, a set of interface names and a
    chain with two rules that clamp the MSS option of the SYN segments passing through an interface of the
    set.  Sessions add their interface to the set of their MSS and remove it when they end. *)

From stdpp Require Import strings gmap.
From S2P Require Import Prelude RustText Os Netlink RtNetlink Tc.

(** ** [mss.rs] *)

(** [str::contains] *)
Fixpoint contains (p l : bytes) : bool :=
  bytes_eqb (take (length p) l) p || match l with [] => false | _ :: l => contains p l end.

Definition tls_record_overhead (version cipher : bytes) : Z :=
  if bytes_eqb version (lit "TLSv1.3") then 22
  else if bytes_eqb version (lit "TLSv1.2") then
    if contains (lit "CHACHA20") cipher then 21
    else if contains (lit "GCM") cipher then 29
    else 56
  else 56.

Record Mss4Bounds := { mss_link : Z; mss_underlay : Z; mss4 : Z; tls_overhead : Z; encap : Z }.

Definition compute_mss4 (mtu : Z) (version cipher : bytes) : Mss4Bounds :=
  let UNDERLAY_PMTU := 1500 in
  let INNER_IP_TCP := 40 in
  let OUTER_IP_TCP := 40 in
  let SSTP_DATA := 4 in
  let PPP_ACP := 4 in
  let tls := tls_record_overhead version cipher in
  let mtu_clamped := clamp 576 1500 mtu in
  let mss_link := saturating_sub mtu_clamped INNER_IP_TCP in
  let encap := OUTER_IP_TCP + tls + SSTP_DATA + PPP_ACP in
  let mss_underlay := saturating_sub UNDERLAY_PMTU (encap + INNER_IP_TCP) in
  let mss4 := as_u16 (clamp 536 1460 (Z.min mss_link mss_underlay)) in
  {| mss_link := mss_link; mss_underlay := mss_underlay; mss4 := mss4; tls_overhead := tls; encap := encap |}.

(** ** Constants of [mss_shared.rs] *)

Definition NFNL_SUBSYS_NFTABLES : Z := 10.
Definition NFNL_MSG_BATCH_BEGIN : Z := 0x10.
Definition NFNL_MSG_BATCH_END : Z := 0x11.
Definition NFT_MSG_NEWTABLE : Z := 0.
Definition NFT_MSG_DELTABLE : Z := 2.
Definition NFT_MSG_NEWCHAIN : Z := 3.
Definition NFT_MSG_NEWRULE : Z := 6.
Definition NFT_MSG_NEWSET : Z := 9.
Definition NFT_MSG_NEWSETELEM : Z := 12.
Definition NFT_MSG_DELSETELEM : Z := 14.
Definition NFPROTO_UNSPEC : Z := 0.
Definition NFPROTO_IPV4 : Z := 2.
Definition NFNETLINK_V0 : Z := 0.
Definition NF_INET_FORWARD : Z := 2.
Definition NF_ACCEPT : Z := 1.
Definition NFTA_TABLE_NAME : Z := 1.
Definition NFTA_CHAIN_TABLE : Z := 1.
Definition NFTA_CHAIN_NAME : Z := 3.
Definition NFTA_CHAIN_HOOK : Z := 4.
Definition NFTA_CHAIN_POLICY : Z := 5.
Definition NFTA_CHAIN_TYPE : Z := 7.
Definition NFTA_RULE_TABLE : Z := 1.
Definition NFTA_RULE_CHAIN : Z := 2.
Definition NFTA_RULE_EXPRESSIONS : Z := 4.
Definition NFTA_HOOK_HOOKNUM : Z := 1.
Definition NFTA_HOOK_PRIORITY : Z := 2.
Definition NFTA_SET_TABLE : Z := 1.
Definition NFTA_SET_NAME : Z := 2.
Definition NFTA_SET_FLAGS : Z := 3.
Definition NFTA_SET_KEY_TYPE : Z := 4.
Definition NFTA_SET_KEY_LEN : Z := 5.
Definition NFTA_SET_USERDATA : Z := 13.
Definition NFTA_SET_ID : Z := 10.
Definition NFTA_SET_ELEM_LIST_TABLE : Z := 1.
Definition NFTA_SET_ELEM_LIST_SET : Z := 2.
Definition NFTA_SET_ELEM_LIST_ELEMENTS : Z := 3.
Definition NFTA_SET_ELEM_KEY : Z := 1.
Definition NFTA_LIST_ELEM : Z := 1.
Definition NFTA_EXPR_NAME : Z := 1.
Definition NFTA_EXPR_DATA : Z := 2.
Definition NFTA_META_DREG : Z := 1.
Definition NFTA_META_KEY : Z := 2.
Definition NFTA_LOOKUP_SET : Z := 1.
Definition NFTA_LOOKUP_SREG : Z := 2.
Definition NFTA_PAYLOAD_DREG : Z := 1.
Definition NFTA_PAYLOAD_BASE : Z := 2.
Definition NFTA_PAYLOAD_OFFSET : Z := 3.
Definition NFTA_PAYLOAD_LEN : Z := 4.
Definition NFTA_BITWISE_SREG : Z := 1.
Definition NFTA_BITWISE_DREG : Z := 2.
Definition NFTA_BITWISE_LEN : Z := 3.
Definition NFTA_BITWISE_MASK : Z := 4.
Definition NFTA_BITWISE_XOR : Z := 5.
Definition NFTA_BITWISE_OP : Z := 6.
Definition NFTA_CMP_SREG : Z := 1.
Definition NFTA_CMP_OP : Z := 2.
Definition NFTA_CMP_DATA : Z := 3.
Definition NFTA_DATA_VALUE : Z := 1.
Definition NFTA_IMMEDIATE_DREG : Z := 1.
Definition NFTA_IMMEDIATE_DATA : Z := 2.
Definition NFTA_EXTHDR_TYPE : Z := 2.
Definition NFTA_EXTHDR_OFFSET : Z := 3.
Definition NFTA_EXTHDR_LEN : Z := 4.
Definition NFTA_EXTHDR_OP : Z := 6.
Definition NFTA_EXTHDR_SREG : Z := 7.
Definition NFT_REG_1 : Z := 1.
Definition NFT_META_IIFNAME : Z := 6.
Definition NFT_META_OIFNAME : Z := 7.
Definition NFT_META_L4PROTO : Z := 16.
Definition NFT_CMP_EQ : Z := 0.
Definition NFT_PAYLOAD_TRANSPORT_HEADER : Z := 2.
Definition NFT_BITWISE_BOOL : Z := 0.
Definition NFT_EXTHDR_OP_TCPOPT : Z := 1.
Definition NFT_SET_FLAGS : Z := 0.
Definition NFT_KEY_TYPE_IFNAME : Z := 0x29.

Definition IFNAME_SET_USERDATA : bytes := [0x00; 0x04; 0x01; 0x00; 0x00; 0x00].
Definition IFNAMSIZ : Z := 16.
Definition IPPROTO_TCP : Z := 6.
Definition NETLINK_NETFILTER : Z := 12.

Record Nfgenmsg := { nfgen_family : Z; nf_version : Z; res_id : Z }.

#[export] Instance nfgenmsg_repr : Repr Nfgenmsg := fun m =>
  to_ne 1 (nfgen_family m) ++ to_ne 1 (nf_version m) ++ to_ne 2 (res_id m).

(** ** Batches *)

(** The process-wide counters *)
Record Static := { NEXT_SEQ : Z; NEXT_SET_ID : Z }.

Definition fetch_add (v : Z) : Z := (v + 1) mod 2 ^ 32.

Definition next_seq (st : Static) : Z * Static :=
  (NEXT_SEQ st, {| NEXT_SEQ := fetch_add (NEXT_SEQ st); NEXT_SET_ID := NEXT_SET_ID st |}).
Definition next_set_id (st : Static) : Z * Static :=
  (NEXT_SET_ID st, {| NEXT_SEQ := NEXT_SEQ st; NEXT_SET_ID := fetch_add (NEXT_SET_ID st) |}).

Record Batch := { b_bytes : bytes; expected_acks : list Z }.

Section Batches.
Context {E : Type}.
Abbreviation call := (MessageBuf.t -> res E MessageBuf.t).

Definition push_envelope (b : Batch) (msg_type : Z) (st : Static) : res E (Batch * Static) :=
  let '(seq, st) := next_seq st in
  env ← MessageBuf.calls
          [ MessageBuf.push_struct
              {| nfgen_family := NFPROTO_UNSPEC; nf_version := NFNETLINK_V0; res_id := swap16 NFNL_SUBSYS_NFTABLES |};
            MessageBuf.finalize ]
          (MessageBuf.new msg_type NLM_F_REQUEST seq);
  Ok ({| b_bytes := b_bytes b ++ MessageBuf.buf env; expected_acks := expected_acks b |}, st).

Definition Batch_new : Static -> res E (Batch * Static) := push_envelope {| b_bytes := []; expected_acks := [] |} NFNL_MSG_BATCH_BEGIN.

Definition Batch_finalize (b : Batch) : Static -> res E (Batch * Static) := push_envelope b NFNL_MSG_BATCH_END.

Definition push (b : Batch) (msg : MessageBuf.t) : res E Batch :=
  msg ← MessageBuf.finalize msg;
  Ok {| b_bytes := b_bytes b ++ MessageBuf.buf msg;
        expected_acks := expected_acks b ++ (if negb (Z.land (MessageBuf.flags msg) NLM_F_ACK =? 0) then [MessageBuf.seq msg] else []) |}.

Definition nft_msg_type (op : Z) : Z := Z.lor (Z.shiftl NFNL_SUBSYS_NFTABLES 8) op.

Definition nf_msg (op flags : Z) (st : Static) : res E (MessageBuf.t * Static) :=
  let '(seq, st) := next_seq st in
  msg ← MessageBuf.push_struct {| nfgen_family := NFPROTO_IPV4; nf_version := NFNETLINK_V0; res_id := 0 |}
          (MessageBuf.new (nft_msg_type op) flags seq);
  Ok (msg, st).

(** A batch of one message: every builder starts a batch, makes the message, adds its attributes, pushes it
    and ends the batch. *)
Definition one_batch (op flags : Z) (attrs : Static -> list call * Static) (st : Static) : res E (Batch * Static) :=
  '(batch, st) ← Batch_new st;
  '(msg, st) ← nf_msg op flags st;
  let '(attrs, st) := attrs st in
  msg ← MessageBuf.calls attrs msg;
  batch ← push batch msg;
  Batch_finalize batch st.

Definition plain (attrs : list call) (st : Static) : list call * Static := (attrs, st).

Context (TABLE_NAME : bytes).

Definition CREATE_EXCL : Z := Z.lor NLM_F_REQUEST (Z.lor NLM_F_ACK (Z.lor NLM_F_CREATE NLM_F_EXCL)).

Definition build_create_table_batch : Static -> res E (Batch * Static) :=
  one_batch NFT_MSG_NEWTABLE CREATE_EXCL (plain [MessageBuf.push_attr_cstr NFTA_TABLE_NAME TABLE_NAME]).

Definition build_delete_table_batch : Static -> res E (Batch * Static) :=
  one_batch NFT_MSG_DELTABLE (Z.lor NLM_F_REQUEST NLM_F_ACK) (plain [MessageBuf.push_attr_cstr NFTA_TABLE_NAME TABLE_NAME]).

Definition build_create_set_batch (set_name : bytes) : Static -> res E (Batch * Static) :=
  one_batch NFT_MSG_NEWSET CREATE_EXCL
    (fun st =>
       let '(id, st) := next_set_id st in
       ([ MessageBuf.push_attr_cstr NFTA_SET_TABLE TABLE_NAME;
          MessageBuf.push_attr_cstr NFTA_SET_NAME set_name;
          MessageBuf.push_attr_be32 NFTA_SET_FLAGS NFT_SET_FLAGS;
          MessageBuf.push_attr_be32 NFTA_SET_KEY_TYPE NFT_KEY_TYPE_IFNAME;
          MessageBuf.push_attr_be32 NFTA_SET_KEY_LEN IFNAMSIZ;
          MessageBuf.push_attr_be32 NFTA_SET_ID id;
          MessageBuf.push_attr_bytes NFTA_SET_USERDATA IFNAME_SET_USERDATA ], st)).

(** The priority is -150 as an unsigned number. *)
Definition build_create_chain_batch (chain_name : bytes) : Static -> res E (Batch * Static) :=
  one_batch NFT_MSG_NEWCHAIN CREATE_EXCL
    (plain
       [ MessageBuf.push_attr_cstr NFTA_CHAIN_TABLE TABLE_NAME;
         MessageBuf.push_attr_cstr NFTA_CHAIN_NAME chain_name;
         MessageBuf.push_attr_cstr NFTA_CHAIN_TYPE (lit "filter");
         MessageBuf.push_attr_be32 NFTA_CHAIN_POLICY NF_ACCEPT;
         MessageBuf.nest_begin NFTA_CHAIN_HOOK;
         MessageBuf.push_attr_be32 NFTA_HOOK_HOOKNUM NF_INET_FORWARD;
         MessageBuf.push_attr_be32 NFTA_HOOK_PRIORITY ((-150) mod 2 ^ 32);
         MessageBuf.nest_end ]).

(** *** Expressions *)

Definition expr_begin (name : bytes) : list call :=
  [ MessageBuf.nest_begin NFTA_LIST_ELEM; MessageBuf.push_attr_cstr NFTA_EXPR_NAME name; MessageBuf.nest_begin NFTA_EXPR_DATA ].

Definition expr_end : list call := [MessageBuf.nest_end; MessageBuf.nest_end].

Definition data_nest (ty : Z) (data : bytes) : list call :=
  [MessageBuf.nest_begin ty; MessageBuf.push_attr_bytes NFTA_DATA_VALUE data; MessageBuf.nest_end].

Definition encode_meta_load (key dreg : Z) : list call :=
  expr_begin (lit "meta") ++
  [MessageBuf.push_attr_be32 NFTA_META_KEY key; MessageBuf.push_attr_be32 NFTA_META_DREG dreg] ++ expr_end.

Definition encode_lookup (sreg : Z) (set_name : bytes) : list call :=
  expr_begin (lit "lookup") ++
  [MessageBuf.push_attr_cstr NFTA_LOOKUP_SET set_name; MessageBuf.push_attr_be32 NFTA_LOOKUP_SREG sreg] ++ expr_end.

Definition encode_cmp (sreg : Z) (data : bytes) (cmp_op : Z) : list call :=
  expr_begin (lit "cmp") ++
  [MessageBuf.push_attr_be32 NFTA_CMP_SREG sreg; MessageBuf.push_attr_be32 NFTA_CMP_OP cmp_op] ++
  data_nest NFTA_CMP_DATA data ++ expr_end.

Definition encode_payload_load (dreg base offset len : Z) : list call :=
  expr_begin (lit "payload") ++
  [ MessageBuf.push_attr_be32 NFTA_PAYLOAD_DREG dreg; MessageBuf.push_attr_be32 NFTA_PAYLOAD_BASE base;
    MessageBuf.push_attr_be32 NFTA_PAYLOAD_OFFSET offset; MessageBuf.push_attr_be32 NFTA_PAYLOAD_LEN len ] ++ expr_end.

Definition encode_bitwise (sreg dreg : Z) (mask xor : bytes) : list call :=
  expr_begin (lit "bitwise") ++
  [ MessageBuf.push_attr_be32 NFTA_BITWISE_SREG sreg; MessageBuf.push_attr_be32 NFTA_BITWISE_DREG dreg;
    MessageBuf.push_attr_be32 NFTA_BITWISE_LEN (len mask) ] ++
  data_nest NFTA_BITWISE_MASK mask ++ data_nest NFTA_BITWISE_XOR xor ++
  [MessageBuf.push_attr_be32 NFTA_BITWISE_OP NFT_BITWISE_BOOL] ++ expr_end.

Definition encode_immediate (dreg : Z) (data : bytes) : list call :=
  expr_begin (lit "immediate") ++ [MessageBuf.push_attr_be32 NFTA_IMMEDIATE_DREG dreg] ++ data_nest NFTA_IMMEDIATE_DATA data ++ expr_end.

Definition encode_exthdr_set (sreg option offset len : Z) : list call :=
  expr_begin (lit "exthdr") ++
  [ MessageBuf.push_attr_be32 NFTA_EXTHDR_OP NFT_EXTHDR_OP_TCPOPT; MessageBuf.push_attr_u8 NFTA_EXTHDR_TYPE option;
    MessageBuf.push_attr_be32 NFTA_EXTHDR_OFFSET offset; MessageBuf.push_attr_be32 NFTA_EXTHDR_LEN len;
    MessageBuf.push_attr_be32 NFTA_EXTHDR_SREG sreg ] ++ expr_end.

Definition build_rule_batch (chain_name set_name : bytes) (ingress : bool) (mss : Z) : Static -> res E (Batch * Static) :=
  one_batch NFT_MSG_NEWRULE (Z.lor NLM_F_REQUEST (Z.lor NLM_F_ACK (Z.lor NLM_F_CREATE NLM_F_APPEND)))
    (plain
       ([ MessageBuf.push_attr_cstr NFTA_RULE_TABLE TABLE_NAME;
          MessageBuf.push_attr_cstr NFTA_RULE_CHAIN chain_name;
          MessageBuf.nest_begin NFTA_RULE_EXPRESSIONS ] ++
        encode_meta_load (if ingress then NFT_META_IIFNAME else NFT_META_OIFNAME) NFT_REG_1 ++
        encode_lookup NFT_REG_1 set_name ++
        encode_meta_load NFT_META_L4PROTO NFT_REG_1 ++
        encode_cmp NFT_REG_1 [IPPROTO_TCP] NFT_CMP_EQ ++
        encode_payload_load NFT_REG_1 NFT_PAYLOAD_TRANSPORT_HEADER 13 1 ++
        encode_bitwise NFT_REG_1 NFT_REG_1 [0x06] [0x00] ++
        encode_cmp NFT_REG_1 [0x02] NFT_CMP_EQ ++
        encode_immediate NFT_REG_1 (to_be16 mss) ++
        encode_exthdr_set NFT_REG_1 2 2 2 ++
        [MessageBuf.nest_end])).

(** *** Set elements *)

(** The interface name with its terminator in a buffer of [IFNAMSIZ] bytes, cut off at its end *)
Definition elem_key (ifname : bytes) : bytes :=
  let src := MessageBuf.with_nul ifname in
  let n := Nat.min (length src) 16 in
  take n src ++ zeros (IFNAMSIZ - Z.of_nat n).

Definition encode_set_elem_msg (set_name ifname : bytes) : list call :=
  [ MessageBuf.push_attr_cstr NFTA_SET_ELEM_LIST_TABLE TABLE_NAME;
    MessageBuf.push_attr_cstr NFTA_SET_ELEM_LIST_SET set_name;
    MessageBuf.nest_begin NFTA_SET_ELEM_LIST_ELEMENTS;
    MessageBuf.nest_begin NFTA_LIST_ELEM;
    MessageBuf.nest_begin NFTA_SET_ELEM_KEY;
    MessageBuf.push_attr_bytes NFTA_DATA_VALUE (elem_key ifname);
    MessageBuf.nest_end;
    MessageBuf.nest_end;
    MessageBuf.nest_end ].

Definition build_add_elem_batch (set_name ifname : bytes) : Static -> res E (Batch * Static) :=
  one_batch NFT_MSG_NEWSETELEM (Z.lor NLM_F_REQUEST (Z.lor NLM_F_ACK NLM_F_CREATE)) (plain (encode_set_elem_msg set_name ifname)).

Definition build_del_elem_batch (set_name ifname : bytes) : Static -> res E (Batch * Static) :=
  one_batch NFT_MSG_DELSETELEM (Z.lor NLM_F_REQUEST NLM_F_ACK) (plain (encode_set_elem_msg set_name ifname)).

End Batches.

(** ** The shared table *)

(** [Waiting] is the model's: the loop of [exchange_batch] has read [fuel] datagrams and still misses an
    acknowledgement. *)
Inductive SharedMssError :=
| InvalidName
| NfNetlinkError (op : string) (e : io_error)
| NfKernel (op : string) (errno : Z)
| Waiting.

Record MssGroup := { chain_name : bytes; set_name : bytes; refcount : Z; kernel_created : bool }.

(** [Inner] under its lock, with the counters only its methods use. *)
Record Inner := { table_exists : bool; groups : gmap Z MssGroup; statics : Static }.

Record SharedMssGuard := { g_ifname : bytes; g_mss : Z }.

(** Computations that also change [Inner], whatever their outcome. *)
Definition G (A : Type) : Type := Inner -> history -> res SharedMssError A * Inner * history.

#[export] Instance g_ret : MRet G := fun A a i h => (Ok a, i, h).

#[export] Instance g_bind : MBind G := fun A B f m i h =>
  match m i h with
  | (Ok a, i, h) => f a i h
  | (Err e, i, h) => (Err e, i, h)
  | (Panic, i, h) => (Panic, i, h)
  end.

Definition run_m {A} (m : M SharedMssError A) : G A := fun i h => let '(r, h) := m h in (r, i, h).
Definition get : G Inner := fun i h => (Ok i, i, h).
Definition modify (f : Inner -> Inner) : G () := fun i h => (Ok tt, f i, h).
Definition attempt_g {A} (m : G A) : G (A + SharedMssError) := fun i h =>
  match m i h with
  | (Ok a, i, h) => (Ok (inl a), i, h)
  | (Err e, i, h) => (Ok (inr e), i, h)
  | (Panic, i, h) => (Panic, i, h)
  end.

Definition with_table (b : bool) (i : Inner) : Inner := {| table_exists := b; groups := groups i; statics := statics i |}.
Definition with_groups (g : gmap Z MssGroup) (i : Inner) : Inner := {| table_exists := table_exists i; groups := g; statics := statics i |}.
Definition with_statics (s : Static) (i : Inner) : Inner := {| table_exists := table_exists i; groups := groups i; statics := s |}.

Module NfNetlink.
Section Socket.
Context {os : Os} {bp : BuildProfile} (fuel : nat).

Definition open : M SharedMssError Z := on_err (NfNetlinkError "socket") (NetlinkSocket.open NETLINK_NETFILTER).

Fixpoint await (fuel : nat) (sock : Z) (op : string) (remaining : gset Z) : M SharedMssError () :=
  if decide (remaining = ∅) then mret tt
  else
    match fuel with
    | O => throw Waiting
    | S fuel =>
        received ← on_err (NfNetlinkError op) (NetlinkSocket.recv_into sock (zeros 8192));
        match drain_acks received remaining with
        | Ok remaining => await fuel sock op remaining
        | Err Truncated => throw (NfNetlinkError op OtherError)
        | Err (Kernel errno) => throw (NfKernel op errno)
        | Panic => lift Panic
        end
    end.

Definition exchange_batch (sock : Z) (op : string) (batch : Batch) : M SharedMssError () :=
  _ ← on_err (NfNetlinkError op) (NetlinkSocket.send sock (b_bytes batch));
  await fuel sock op (list_to_set (expected_acks batch)).

End Socket.
End NfNetlink.

Section Shared.
Context {os : Os} {bp : BuildProfile} (fuel : nat) (pid : Z).

Definition TABLE_NAME : bytes := lit "sstp_mss_" ++ show_dec pid.

Definition scoped_g {A} (fd : Z) (m : G A) : G A := fun i h =>
  let '(r, i, h) := m i h in (r, i, (close (E := SharedMssError) fd h).2).

(** Building a batch and exchanging it *)
Definition transact (sock : Z) (op : string) (build : Static -> res SharedMssError (Batch * Static)) : G () :=
  i ← get;
  '(batch, st) ← run_m (lift (build (statics i)));
  _ ← modify (with_statics st);
  run_m (NfNetlink.exchange_batch fuel sock op batch).

Definition SharedMssTable_new : Inner :=
  {| table_exists := false; groups := ∅; statics := {| NEXT_SEQ := 1; NEXT_SET_ID := 1 |} |}.

Definition new_group (mss : Z) : MssGroup :=
  {| chain_name := lit "fwd_" ++ show_dec mss; set_name := lit "ifaces_" ++ show_dec mss; refcount := 0; kernel_created := false |}.

Definition created (g : MssGroup) : MssGroup :=
  {| chain_name := chain_name g; set_name := set_name g; refcount := refcount g; kernel_created := true |}.
Definition with_refcount (n : Z) (g : MssGroup) : MssGroup :=
  {| chain_name := chain_name g; set_name := set_name g; refcount := n; kernel_created := kernel_created g |}.

(** [refcount += 1] *)
Definition incr (n : Z) : res SharedMssError Z :=
  if n <? U32_MAX then Ok (n + 1) else if bp : bool then Panic else Ok 0.

Definition ensure_table (sock : Z) : G () :=
  i ← get;
  if table_exists i then mret tt
  else
    _ ← attempt_g (transact sock "flush-stale-table" (build_delete_table_batch TABLE_NAME));
    _ ← transact sock "create-table" (build_create_table_batch TABLE_NAME);
    modify (with_table true).

Definition ensure_group (sock mss : Z) : G MssGroup :=
  i ← get;
  let group := default (new_group mss) (groups i !! mss) in
  _ ← modify (fun i => with_groups (<[mss := group]> (groups i)) i);
  if kernel_created group then mret group
  else
    _ ← transact sock "create-set" (build_create_set_batch TABLE_NAME (set_name group));
    _ ← transact sock "create-chain" (build_create_chain_batch TABLE_NAME (chain_name group));
    _ ← transact sock "create-rule-iif" (build_rule_batch TABLE_NAME (chain_name group) (set_name group) true mss);
    _ ← transact sock "create-rule-oif" (build_rule_batch TABLE_NAME (chain_name group) (set_name group) false mss);
    _ ← modify (fun i => with_groups (<[mss := created group]> (groups i)) i);
    mret (created group).

Definition add (ifname : bytes) (mss : Z) : G SharedMssGuard :=
  if existsb (Z.eqb 0) ifname then run_m (throw InvalidName)
  else
    sock ← run_m NfNetlink.open;
    scoped_g sock
      (_ ← ensure_table sock;
       group ← ensure_group sock mss;
       _ ← transact sock "add-set-elem" (build_add_elem_batch TABLE_NAME (set_name group) ifname);
       n ← run_m (lift (incr (refcount group)));
       _ ← modify (fun i => with_groups (<[mss := with_refcount n group]> (groups i)) i);
       mret {| g_ifname := ifname; g_mss := mss |}).

Definition remove (ifname : bytes) (mss : Z) : G () :=
  if existsb (Z.eqb 0) ifname then mret tt
  else
    s ← attempt_g (run_m NfNetlink.open);
    match s with
    | inr _ => mret tt
    | inl sock =>
        scoped_g sock
          (i ← get;
           match groups i !! mss with
           | None => mret tt
           | Some group =>
               _ ← attempt_g (transact sock "del-set-elem" (build_del_elem_batch TABLE_NAME (set_name group) ifname));
               modify (fun i => with_groups (<[mss := with_refcount (saturating_sub (refcount group) 1) group]> (groups i)) i)
           end)
    end.

Definition destroy : G () :=
  i ← get;
  if negb (table_exists i) then mret tt
  else
    s ← attempt_g (run_m NfNetlink.open);
    match s with
    | inr _ => mret tt
    | inl sock =>
        scoped_g sock
          (_ ← attempt_g (transact sock "destroy-table" (build_delete_table_batch TABLE_NAME));
           modify (fun i => with_groups ∅ (with_table false i)))
    end.

(** Dropping the handle of a session *)
Definition SharedMssHandle_drop (g : SharedMssGuard) : G () := remove (g_ifname g) (g_mss g).

End Shared.
