(* ===== verification/NftWire.v ===== *)
(** * The nftables batches

    [decode_batch] reads a batch the way libnftnl lays it out: a begin message, one operation, an end
    message.  Every builder's batch decodes to its operation, and the rules clamp the MSS option of exactly
    the SYN segments that enter or leave through an interface of the set. *)

From stdpp Require Import strings gmap.
From S2P Require Import Prelude RustText RustStd Os Netlink NetlinkProps RtNetlink RtNetlinkProps Tc TcProps Nft.

(** ** Operations *)

Inductive expr :=
| Meta (key dreg : Z)
| Lookup (set : bytes) (sreg : Z)
| Cmp (sreg op : Z) (data : bytes)
| Payload (dreg base offset len : Z)
| Bitwise (sreg dreg len : Z) (mask xor : bytes) (op : Z)
| Immediate (dreg : Z) (data : bytes)
| Exthdr (op ty offset len sreg : Z).

Inductive nft_op :=
| NewTable (table : bytes)
| DelTable (table : bytes)
| NewSet (table set : bytes)
| NewChain (table chain ty : bytes) (policy hook priority : Z)
| NewRule (table chain : bytes) (body : list expr)
| NewElem (table set key : bytes)
| DelElem (table set key : bytes).

(** ** Reading *)

(** A string with its terminator *)
Definition cstr (p : bytes) : option bytes :=
  match reverse p with
  | 0 :: r => Some (reverse r)
  | _ => None
  end.

Definition be_num (p : bytes) : option Z :=
  match p with
  | [a; b; c; d] => Some (be32 a b c d)
  | _ => None
  end.

Definition str_of (ty : Z) (ts : list tree) : option bytes := p ← attr_of ty ts; cstr p.
Definition num_of (ty : Z) (ts : list tree) : option Z := p ← attr_of ty ts; be_num p.
Definition data_of (ty : Z) (ts : list tree) : option bytes := inner ← nested_of ty ts; attr_of NFTA_DATA_VALUE inner.

Definition read_expr (t : tree) : option expr :=
  match t with
  | Flat _ _ => None
  | Nested _ ts =>
      name ← str_of NFTA_EXPR_NAME ts;
      d ← nested_of NFTA_EXPR_DATA ts;
      if bytes_eqb name (lit "meta") then
        key ← num_of NFTA_META_KEY d; dreg ← num_of NFTA_META_DREG d; Some (Meta key dreg)
      else if bytes_eqb name (lit "lookup") then
        set ← str_of NFTA_LOOKUP_SET d; sreg ← num_of NFTA_LOOKUP_SREG d; Some (Lookup set sreg)
      else if bytes_eqb name (lit "cmp") then
        sreg ← num_of NFTA_CMP_SREG d; op ← num_of NFTA_CMP_OP d; data ← data_of NFTA_CMP_DATA d; Some (Cmp sreg op data)
      else if bytes_eqb name (lit "payload") then
        dreg ← num_of NFTA_PAYLOAD_DREG d; base ← num_of NFTA_PAYLOAD_BASE d; off ← num_of NFTA_PAYLOAD_OFFSET d;
        n ← num_of NFTA_PAYLOAD_LEN d; Some (Payload dreg base off n)
      else if bytes_eqb name (lit "bitwise") then
        sreg ← num_of NFTA_BITWISE_SREG d; dreg ← num_of NFTA_BITWISE_DREG d; n ← num_of NFTA_BITWISE_LEN d;
        mask ← data_of NFTA_BITWISE_MASK d; xor ← data_of NFTA_BITWISE_XOR d; op ← num_of NFTA_BITWISE_OP d;
        Some (Bitwise sreg dreg n mask xor op)
      else if bytes_eqb name (lit "immediate") then
        dreg ← num_of NFTA_IMMEDIATE_DREG d; data ← data_of NFTA_IMMEDIATE_DATA d; Some (Immediate dreg data)
      else if bytes_eqb name (lit "exthdr") then
        op ← num_of NFTA_EXTHDR_OP d; ty ← attr_of NFTA_EXTHDR_TYPE d; off ← num_of NFTA_EXTHDR_OFFSET d;
        n ← num_of NFTA_EXTHDR_LEN d; sreg ← num_of NFTA_EXTHDR_SREG d; Some (Exthdr op (of_ne ty) off n sreg)
      else None
  end.

Definition elem_of_msg (ts : list tree) : option bytes :=
  es ← nested_of NFTA_SET_ELEM_LIST_ELEMENTS ts;
  e ← nested_of NFTA_LIST_ELEM es;
  data_of NFTA_SET_ELEM_KEY e.

Definition interpret_nft (ty : Z) (ts : list tree) : option nft_op :=
  if ty =? nft_msg_type NFT_MSG_NEWTABLE then t ← str_of NFTA_TABLE_NAME ts; Some (NewTable t)
  else if ty =? nft_msg_type NFT_MSG_DELTABLE then t ← str_of NFTA_TABLE_NAME ts; Some (DelTable t)
  else if ty =? nft_msg_type NFT_MSG_NEWSET then
    t ← str_of NFTA_SET_TABLE ts; s ← str_of NFTA_SET_NAME ts; flags ← num_of NFTA_SET_FLAGS ts;
    key ← num_of NFTA_SET_KEY_TYPE ts; n ← num_of NFTA_SET_KEY_LEN ts;
    if (flags =? 0) && (key =? NFT_KEY_TYPE_IFNAME) && (n =? IFNAMSIZ) then Some (NewSet t s) else None
  else if ty =? nft_msg_type NFT_MSG_NEWCHAIN then
    t ← str_of NFTA_CHAIN_TABLE ts; c ← str_of NFTA_CHAIN_NAME ts; k ← str_of NFTA_CHAIN_TYPE ts;
    policy ← num_of NFTA_CHAIN_POLICY ts; h ← nested_of NFTA_CHAIN_HOOK ts; hook ← num_of NFTA_HOOK_HOOKNUM h;
    prio ← num_of NFTA_HOOK_PRIORITY h; Some (NewChain t c k policy hook (if prio <? 2 ^ 31 then prio else prio - 2 ^ 32))
  else if ty =? nft_msg_type NFT_MSG_NEWRULE then
    t ← str_of NFTA_RULE_TABLE ts; c ← str_of NFTA_RULE_CHAIN ts; es ← nested_of NFTA_RULE_EXPRESSIONS ts;
    body ← mapM read_expr es; Some (NewRule t c body)
  else if ty =? nft_msg_type NFT_MSG_NEWSETELEM then
    t ← str_of NFTA_SET_ELEM_LIST_TABLE ts; s ← str_of NFTA_SET_ELEM_LIST_SET ts; k ← elem_of_msg ts; Some (NewElem t s k)
  else if ty =? nft_msg_type NFT_MSG_DELSETELEM then
    t ← str_of NFTA_SET_ELEM_LIST_TABLE ts; s ← str_of NFTA_SET_ELEM_LIST_SET ts; k ← elem_of_msg ts; Some (DelElem t s k)
  else None.

(** The first message of a batch and the rest. *)
Definition next_message (b : bytes) : option (nlmsghdr * list tree * bytes) :=
  if len b <? NLMSG_HDRLEN then None
  else
    let n := Z.to_nat (nlmsg_len (read_nlmsghdr b)) in
    m ← read_message 4 (take n b);
    Some (m.1.1, m.2, drop n b).

(** The sequence number and the operation of a batch of one operation. *)
Definition decode_batch (b : bytes) : option (Z * nft_op) :=
  '(h0, _, b) ← next_message b;
  '(h, ts, b) ← next_message b;
  '(h1, _, b) ← next_message b;
  op ← interpret_nft (nlmsg_type h) ts;
  if (nlmsg_type h0 =? NFNL_MSG_BATCH_BEGIN) && (nlmsg_type h1 =? NFNL_MSG_BATCH_END) && (len b =? 0)
  then Some (nlmsg_seq h, op) else None.

(** ** Sizes *)

(** A bound on the encoded size, linear in the lengths of the payloads. *)
Fixpoint size (t : tree) : Z :=
  match t with
  | Flat _ p => 7 + len p
  | Nested _ inner => 4 + foldr (fun t n => size t + n) 0 inner
  end.

Definition sizes (ts : list tree) : Z := foldr (fun t n => size t + n) 0 ts.

Fixpoint tys_ok (t : tree) : bool :=
  match t with
  | Flat ty _ => ty_ok ty
  | Nested ty inner => ty_ok ty && forallb tys_ok inner
  end.

Lemma size_bound t : len (enc t) <= size t /\ 0 <= size t.
Proof.
  induction t as [ty p|ty inner IH] using tree_ind'.
  - cbn [enc size]. rewrite !length_app. pose proof (len_padding (len p)). pose proof (Z.mod_pos_bound (- len p) 4 ltac:(lia)).
    autorewrite with lens. lia.
  - rewrite enc_nested, !length_app. cbn [size]. assert (H : len (encs inner) <= sizes inner /\ 0 <= sizes inner).
    { induction IH as [|t ts Ht Hts IH']; [done|]. rewrite encs_cons, length_app. cbn [sizes foldr] in *. fold (sizes ts) in *. lia. }
    unfold sizes in H. autorewrite with lens. lia.
Qed.

Lemma sizes_bound ts : len (encs ts) <= sizes ts /\ 0 <= sizes ts.
Proof.
  induction ts as [|t ts IH]; [done|]. rewrite encs_cons, length_app. cbn [sizes foldr]. fold (sizes ts). pose proof (size_bound t). lia.
Qed.

Lemma fits_sized t : tys_ok t = true -> size t <= 65535 -> fits t = true.
Proof.
  induction t as [ty p|ty inner IH] using tree_ind'; cbn [tys_ok size fits]; intros Ht Hs.
  - rewrite Ht. lia.
  - apply andb_prop in Ht as [-> Hi]. change (foldr _ 0 inner) with (sizes inner) in Hs. pose proof (sizes_bound inner) as [Hb _].
    replace (4 + len (encs inner) <=? 65535) with true by lia. cbn [andb].
    revert Hi Hs. clear Hb. induction IH as [|t ts Hft Hts IH']; intros Hi Hs; [done|]. cbn [forallb] in Hi |- *.
    apply andb_prop in Hi as [H1 H2]. cbn [sizes foldr] in Hs. fold (sizes ts) in Hs. pose proof (size_bound t). pose proof (sizes_bound ts).
    rewrite Hft by (done || lia). apply IH'; [done|lia].
Qed.

Lemma fits_all ts : forallb tys_ok ts = true -> sizes ts <= 65535 -> forallb fits ts = true /\ len (encs ts) <= 65535.
Proof.
  intros Ht Hs. split; [|pose proof (sizes_bound ts); lia]. revert Ht Hs. induction ts as [|t ts IH]; intros Ht Hs; [done|].
  cbn [forallb] in *. apply andb_prop in Ht as [H1 H2]. cbn [sizes foldr] in Hs. fold (sizes ts) in Hs. pose proof (size_bound t). pose proof (sizes_bound ts).
  rewrite fits_sized by (done || lia). apply IH; [done|lia].
Qed.

(** ** Batches of the builders *)

Lemma next_message_built ty fl sq (v : Nfgenmsg) ts rest :
  u16 ty -> u16 fl -> u32 sq -> forallb fits ts = true -> NLMSG_HDRLEN + len (sent v ts) <= U32_MAX ->
  next_message (message_bytes ty fl sq v ts ++ rest) =
  Some ({| nlmsg_len := len (message_bytes ty fl sq v ts); nlmsg_type := ty; nlmsg_flags := fl; nlmsg_seq := sq; nlmsg_pid := 0 |}, ts, rest).
Proof.
  intros Hty Hfl Hsq Hts Hlen. set (m := message_bytes ty fl sq v ts).
  assert (Hm : len m = NLMSG_HDRLEN + len (sent v ts)).
  { unfold m, message_bytes. rewrite length_app, Nat2Z.inj_add. done. }
  assert (Hread : nlmsg_len (read_nlmsghdr (m ++ rest)) = len m).
  { unfold m at 1, message_bytes. rewrite <- app_assoc, read_header; cbn [nlmsg_len nlmsg_type nlmsg_flags nlmsg_seq nlmsg_pid]; try done.
    unfold NLMSG_HDRLEN, U32_MAX in *. lia. }
  unfold next_message. rewrite Hread, Nat2Z.id, take_app_length, drop_app_length.
  replace (len (m ++ rest) <? NLMSG_HDRLEN) with false by (rewrite length_app; unfold NLMSG_HDRLEN in *; lia).
  change 4 with (len (bytes_of v)). unfold m at 1. by rewrite read_message_bytes.
Qed.

Definition bump (st : Static) : Static :=
  {| NEXT_SEQ := fetch_add (NEXT_SEQ st); NEXT_SET_ID := NEXT_SET_ID st |}.

Definition statics_ok (st : Static) : Prop := u32 (NEXT_SEQ st) /\ u32 (NEXT_SET_ID st).

Lemma fetch_add_u32 v : u32 (fetch_add v).
Proof. apply (Z.mod_pos_bound _ (2 ^ 32)). lia. Qed.

Lemma be_num_to v : u32 v -> be_num (to_be32 v) = Some v.
Proof. intros Hv. unfold be_num, to_be32. f_equal. by apply be32_to_be32. Qed.

Lemma cstr_with_nul s : cstr (MessageBuf.with_nul s) = Some s.
Proof. unfold cstr, MessageBuf.with_nul. rewrite reverse_snoc. by rewrite reverse_involutive. Qed.

Section Built.
Context {E : Type}.

(** A builder makes a batch of one operation that asks for an acknowledgement of its sequence number. *)
Definition builds (build : Static -> res E (Batch * Static)) (op : nft_op) : Prop :=
  forall st, statics_ok st ->
  exists b st', build st = Ok (b, st') /\ statics_ok st' /\
    expected_acks b = [fetch_add (NEXT_SEQ st)] /\ decode_batch (b_bytes b) = Some (fetch_add (NEXT_SEQ st), op).

Lemma envelope_ok b ty st :
  u16 ty -> statics_ok st ->
  push_envelope (E := E) b ty st =
  Ok ({| b_bytes := b_bytes b ++ message_bytes ty NLM_F_REQUEST (NEXT_SEQ st)
           {| nfgen_family := NFPROTO_UNSPEC; nf_version := NFNETLINK_V0; res_id := swap16 NFNL_SUBSYS_NFTABLES |} [];
         expected_acks := expected_acks b |}, bump st).
Proof.
  intros Hty (Hs & _). unfold push_envelope, next_seq. set (v := Build_Nfgenmsg _ _ _).
  pose proof (calls_message (E := E) ty NLM_F_REQUEST (NEXT_SEQ st) v [] eq_refl eq_refl) as Hc.
  unfold message_ops in Hc. cbn [map concat app] in Hc. rewrite Hc by done. done.
Qed.

Lemma builds_one op flags attrs ts nop :
  u16 (nft_msg_type op) -> u16 flags -> negb (Z.land flags NLM_F_ACK =? 0) = true ->
  (forall st, statics_ok st -> (attrs st).1 = concat (map ops_of (ts st)) /\ statics_ok (attrs st).2 /\
     forallb tys_ok (ts st) = true /\ sizes (ts st) <= 65535 /\
     interpret_nft (nft_msg_type op) (ts st) = Some nop) ->
  builds (one_batch op flags attrs) nop.
Proof.
  intros Hty Hfl Hack Ha st Hst. unfold one_batch, Batch_new, Batch_finalize.
  rewrite envelope_ok by done. cbn [mbind res_bind b_bytes expected_acks app]. unfold nf_msg, next_seq. cbn [bump NEXT_SEQ NEXT_SET_ID].
  set (sq := fetch_add (NEXT_SEQ st)). set (v := Build_Nfgenmsg _ _ 0).
  assert (Hsq : u32 sq) by apply fetch_add_u32.
  assert (Hst2 : statics_ok {| NEXT_SEQ := fetch_add sq; NEXT_SET_ID := NEXT_SET_ID st |}) by (split; [apply fetch_add_u32|apply Hst]).
  destruct (Ha _ Hst2) as (Hops & Hst3 & Hty' & Hsz & Hi). destruct (fits_all _ Hty' Hsz) as [Hf Hl]. clear Hty' Hsz. set (t := ts _) in *. clearbody t.
  destruct (MessageBuf.push_struct v _) as [m0|e|] eqn:Em0; [|done|done]. cbn [mbind res_bind].
  destruct (attrs _) as [as_ st3]. cbn [fst snd] in *. subst as_.
  assert (Hlen : NLMSG_HDRLEN + len (sent v t) <= U32_MAX).
  { unfold sent. rewrite length_app. assert (len (bytes_of v) = 4) by done. unfold NLMSG_HDRLEN, U32_MAX. lia. }
  pose proof (calls_message (E := E) (nft_msg_type op) flags sq v t eq_refl Hf Hlen) as Hc.
  unfold message_ops in Hc. cbn [MessageBuf.calls] in Hc. rewrite Em0 in Hc. cbn [mbind res_bind] in Hc. rewrite calls_app in Hc.
  destruct (MessageBuf.calls (concat (map ops_of t)) m0) as [m1|e|]; [|done|done]. cbn [mbind res_bind MessageBuf.calls] in Hc |- *.
  unfold push. destruct (MessageBuf.finalize m1) as [m2|e|]; [|done|done]. cbn [mbind res_bind] in Hc |- *. injection Hc as ->.
  cbn [MessageBuf.flags MessageBuf.seq MessageBuf.buf]. rewrite Hack. rewrite envelope_ok by done. cbn [b_bytes expected_acks app].
  do 2 eexists. split; [reflexivity|]. split; [split; [apply fetch_add_u32|apply Hst3]|]. split; [done|].
  cbn [b_bytes]. unfold decode_batch. rewrite <- !app_assoc. cbn [app].
  rewrite next_message_built by (done || apply Hst). cbn [mbind option_bind].
  rewrite next_message_built by done. cbn [mbind option_bind].
  rewrite <- (app_nil_r (message_bytes NFNL_MSG_BATCH_END _ _ _ _)).
  rewrite next_message_built by (done || apply Hst3). cbn [mbind option_bind nlmsg_type]. by rewrite Hi.
Qed.

(** *** The operations *)

Definition name_ok (n : bytes) : Prop := len n <= 100.

Definition ex (name : bytes) (d : list tree) : tree :=
  Nested NFTA_LIST_ELEM [Flat NFTA_EXPR_NAME (MessageBuf.with_nul name); Nested NFTA_EXPR_DATA d].

Definition clamp_trees (set : bytes) (ingress : bool) (mss : Z) : list tree :=
  [ ex (lit "meta") [Flat NFTA_META_KEY (to_be32 (if ingress then NFT_META_IIFNAME else NFT_META_OIFNAME)); Flat NFTA_META_DREG (to_be32 NFT_REG_1)];
    ex (lit "lookup") [Flat NFTA_LOOKUP_SET (MessageBuf.with_nul set); Flat NFTA_LOOKUP_SREG (to_be32 NFT_REG_1)];
    ex (lit "meta") [Flat NFTA_META_KEY (to_be32 NFT_META_L4PROTO); Flat NFTA_META_DREG (to_be32 NFT_REG_1)];
    ex (lit "cmp") [Flat NFTA_CMP_SREG (to_be32 NFT_REG_1); Flat NFTA_CMP_OP (to_be32 NFT_CMP_EQ);
                    Nested NFTA_CMP_DATA [Flat NFTA_DATA_VALUE [IPPROTO_TCP]]];
    ex (lit "payload") [Flat NFTA_PAYLOAD_DREG (to_be32 NFT_REG_1); Flat NFTA_PAYLOAD_BASE (to_be32 NFT_PAYLOAD_TRANSPORT_HEADER);
                        Flat NFTA_PAYLOAD_OFFSET (to_be32 13); Flat NFTA_PAYLOAD_LEN (to_be32 1)];
    ex (lit "bitwise") [Flat NFTA_BITWISE_SREG (to_be32 NFT_REG_1); Flat NFTA_BITWISE_DREG (to_be32 NFT_REG_1); Flat NFTA_BITWISE_LEN (to_be32 1);
                        Nested NFTA_BITWISE_MASK [Flat NFTA_DATA_VALUE [0x06]]; Nested NFTA_BITWISE_XOR [Flat NFTA_DATA_VALUE [0x00]];
                        Flat NFTA_BITWISE_OP (to_be32 NFT_BITWISE_BOOL)];
    ex (lit "cmp") [Flat NFTA_CMP_SREG (to_be32 NFT_REG_1); Flat NFTA_CMP_OP (to_be32 NFT_CMP_EQ);
                    Nested NFTA_CMP_DATA [Flat NFTA_DATA_VALUE [0x02]]];
    ex (lit "immediate") [Flat NFTA_IMMEDIATE_DREG (to_be32 NFT_REG_1); Nested NFTA_IMMEDIATE_DATA [Flat NFTA_DATA_VALUE (to_be16 mss)]];
    ex (lit "exthdr") [Flat NFTA_EXTHDR_OP (to_be32 NFT_EXTHDR_OP_TCPOPT); Flat NFTA_EXTHDR_TYPE [2]; Flat NFTA_EXTHDR_OFFSET (to_be32 2);
                       Flat NFTA_EXTHDR_LEN (to_be32 2); Flat NFTA_EXTHDR_SREG (to_be32 NFT_REG_1)] ].

(** The rule: for a segment through an interface of the set, TCP with SYN and without RST, the MSS option
    (kind 2, two bytes at offset 2) becomes [mss]. *)
Definition clamp_rule (set : bytes) (ingress : bool) (mss : Z) : list expr :=
  [ Meta (if ingress then NFT_META_IIFNAME else NFT_META_OIFNAME) NFT_REG_1; Lookup set NFT_REG_1;
    Meta NFT_META_L4PROTO NFT_REG_1; Cmp NFT_REG_1 NFT_CMP_EQ [IPPROTO_TCP];
    Payload NFT_REG_1 NFT_PAYLOAD_TRANSPORT_HEADER 13 1; Bitwise NFT_REG_1 NFT_REG_1 1 [0x06] [0x00] NFT_BITWISE_BOOL;
    Cmp NFT_REG_1 NFT_CMP_EQ [0x02]; Immediate NFT_REG_1 (to_be16 mss); Exthdr NFT_EXTHDR_OP_TCPOPT 2 2 2 NFT_REG_1 ].

Context (table : bytes) (table_ok : name_ok table).

Definition elem_trees (set ifname : bytes) : list tree :=
  [Flat NFTA_SET_ELEM_LIST_TABLE (MessageBuf.with_nul table); Flat NFTA_SET_ELEM_LIST_SET (MessageBuf.with_nul set);
   Nested NFTA_SET_ELEM_LIST_ELEMENTS [Nested NFTA_LIST_ELEM [Nested NFTA_SET_ELEM_KEY [Flat NFTA_DATA_VALUE (elem_key ifname)]]]].

(** [shaped ts] leaves the content of the operation to prove. *)
Ltac shaped ts :=
  apply (builds_one _ _ _ ts); [done|done|done|]; intros st Hst; split; [done|]; split; [first [done|split; [apply Hst|apply fetch_add_u32]]|];
  unfold name_ok in *; split; [done|]; split;
  [ cbn [sizes size foldr clamp_trees ex elem_trees]; unfold MessageBuf.with_nul; autorewrite with lens; cbn -[elem_key]; lia
  | unfold interpret_nft; cbn -[to_be32 be_num cstr MessageBuf.with_nul elem_key]; rewrite ?cstr_with_nul; cbn -[to_be32 be_num cstr MessageBuf.with_nul elem_key] ].

Lemma builds_new_table : builds (build_create_table_batch table) (NewTable table).
Proof using table_ok. shaped (fun _ : Static => [Flat NFTA_TABLE_NAME (MessageBuf.with_nul table)]). done. Qed.

Lemma builds_del_table : builds (build_delete_table_batch table) (DelTable table).
Proof using table_ok. shaped (fun _ : Static => [Flat NFTA_TABLE_NAME (MessageBuf.with_nul table)]). done. Qed.

Lemma builds_new_set set : name_ok set -> builds (build_create_set_batch table set) (NewSet table set).
Proof using table_ok.
  intros Hs. shaped (fun st => [Flat NFTA_SET_TABLE (MessageBuf.with_nul table); Flat NFTA_SET_NAME (MessageBuf.with_nul set);
    Flat NFTA_SET_FLAGS (to_be32 NFT_SET_FLAGS); Flat NFTA_SET_KEY_TYPE (to_be32 NFT_KEY_TYPE_IFNAME); Flat NFTA_SET_KEY_LEN (to_be32 IFNAMSIZ);
    Flat NFTA_SET_ID (to_be32 (NEXT_SET_ID st)); Flat NFTA_SET_USERDATA IFNAME_SET_USERDATA]). done.
Qed.

Lemma builds_new_chain chain :
  name_ok chain -> builds (build_create_chain_batch table chain) (NewChain table chain (lit "filter") NF_ACCEPT NF_INET_FORWARD (-150)).
Proof using table_ok.
  intros Hc. shaped (fun _ : Static => [Flat NFTA_CHAIN_TABLE (MessageBuf.with_nul table); Flat NFTA_CHAIN_NAME (MessageBuf.with_nul chain);
    Flat NFTA_CHAIN_TYPE (MessageBuf.with_nul (lit "filter")); Flat NFTA_CHAIN_POLICY (to_be32 NF_ACCEPT);
    Nested NFTA_CHAIN_HOOK [Flat NFTA_HOOK_HOOKNUM (to_be32 NF_INET_FORWARD); Flat NFTA_HOOK_PRIORITY (to_be32 ((-150) mod 2 ^ 32))]]). done.
Qed.

Lemma builds_rule chain set ingress mss :
  name_ok chain -> name_ok set -> builds (build_rule_batch table chain set ingress mss) (NewRule table chain (clamp_rule set ingress mss)).
Proof using table_ok.
  intros Hc Hs. shaped (fun _ : Static => [Flat NFTA_RULE_TABLE (MessageBuf.with_nul table); Flat NFTA_RULE_CHAIN (MessageBuf.with_nul chain);
    Nested NFTA_RULE_EXPRESSIONS (clamp_trees set ingress mss)]).
  destruct ingress; vm_compute; reflexivity.
Qed.

Lemma len_elem_key ifname : len (elem_key ifname) = 16.
Proof using Type. unfold elem_key, MessageBuf.with_nul, IFNAMSIZ, zeros. rewrite length_app, length_take, length_replicate, length_app. cbn [length]. lia. Qed.

Lemma builds_add_elem set ifname : name_ok set -> builds (build_add_elem_batch table set ifname) (NewElem table set (elem_key ifname)).
Proof using table_ok. intros Hs. pose proof (len_elem_key ifname). shaped (fun _ : Static => elem_trees set ifname). done. Qed.

Lemma builds_del_elem set ifname : name_ok set -> builds (build_del_elem_batch table set ifname) (DelElem table set (elem_key ifname)).
Proof using table_ok. intros Hs. pose proof (len_elem_key ifname). shaped (fun _ : Static => elem_trees set ifname). done. Qed.
End Built.

(** ** The rule *)

(** What the expressions look at in a forwarded packet; names are padded to 16 bytes. *)
Record segment := { iif : bytes; oif : bytes; l4proto : Z; tcp_flags : Z }.

Definition meta_value (s : segment) (key : Z) : option bytes :=
  if key =? NFT_META_IIFNAME then Some (elem_key (iif s))
  else if key =? NFT_META_OIFNAME then Some (elem_key (oif s))
  else if key =? NFT_META_L4PROTO then Some [l4proto s]
  else None.

(** The MSS a rule writes into the segment, if it gets that far: the expressions are run one after the
    other over the registers, a failed lookup or comparison ends the rule (nft(8)). *)
Fixpoint run_rule (sets : bytes -> gset bytes) (s : segment) (regs : Z -> bytes) (body : list expr) : option Z :=
  let set_reg r v := fun x => if x =? r then v else regs x in
  match body with
  | [] => None
  | Meta key dreg :: rest => v ← meta_value s key; run_rule sets s (set_reg dreg v) rest
  | Lookup set sreg :: rest => if decide (regs sreg ∈ sets set) then run_rule sets s regs rest else None
  | Cmp sreg op data :: rest => if (op =? NFT_CMP_EQ) && bytes_eqb (regs sreg) data then run_rule sets s regs rest else None
  | Payload dreg base off n :: rest =>
      if (base =? NFT_PAYLOAD_TRANSPORT_HEADER) && (off =? 13) && (n =? 1) then run_rule sets s (set_reg dreg [tcp_flags s]) rest else None
  | Bitwise sreg dreg n mask xor op :: rest =>
      run_rule sets s (set_reg dreg (zip_with Z.lxor (zip_with Z.land (regs sreg) mask) xor)) rest
  | Immediate dreg data :: rest => run_rule sets s (set_reg dreg data) rest
  | Exthdr op ty off n sreg :: rest =>
      if (op =? NFT_EXTHDR_OP_TCPOPT) && (ty =? 2) && (off =? 2) && (n =? 2) then
        match regs sreg with [a; b] => Some (be16 a b) | _ => None end
      else None
  end.

(** The rule of an MSS group acts on exactly the TCP segments with SYN and without RST through an interface
    of its set, and writes the MSS of the group. *)
Lemma clamp_rule_meaning sets s regs set ingress mss :
  u16 mss ->
  run_rule sets s regs (clamp_rule set ingress mss) =
  if decide (elem_key (if ingress then iif s else oif s) ∈ sets set) then
    if (l4proto s =? IPPROTO_TCP) && (Z.land (tcp_flags s) 0x06 =? 0x02) then Some mss else None
  else None.
Proof.
  intros Hm. unfold clamp_rule. destruct ingress; cbn [run_rule]; unfold meta_value; cbn -[elem_key decide bytes_eqb Z.land Z.lxor to_be16];
    (case_decide; [|done]).
  all: unfold bytes_eqb; case_bool_decide as H1; [|replace (l4proto s =? IPPROTO_TCP) with false; [done|]; symmetry; apply Z.eqb_neq; congruence].
  all: injection H1 as ->; cbn [Z.eqb]; case_bool_decide as H2; rewrite Z.lxor_0_r in H2.
  all: [> injection H2 as -> | replace (Z.land (tcp_flags s) 6 =? 2) with false by (symmetry; apply Z.eqb_neq; congruence); done | injection H2 as -> | replace (Z.land (tcp_flags s) 6 =? 2) with false by (symmetry; apply Z.eqb_neq; congruence); done].
  all: cbn; by rewrite be16_to_be16.
Qed.

(** ** The MSS *)

(** The bytes of a TLS record around [n] bytes of plaintext: content type and tag in TLS 1.3 (RFC 8446, 5.2);
    explicit nonce and tag (RFC 5288) or the tag alone (RFC 7905) for the AEAD ciphers of TLS 1.2; initial
    vector, MAC and at least one byte of padding to the block for AES-CBC with SHA-1 (RFC 5246, 6.2.3.2). *)
Inductive protection := Tls13 | Gcm12 | Chacha12 | CbcSha.

Definition record_size (p : protection) (n : Z) : Z :=
  match p with
  | Tls13 => 5 + n + 1 + 16
  | Gcm12 => 5 + 8 + n + 16
  | Chacha12 => 5 + n + 16
  | CbcSha => 5 + 16 + 16 * ((n + 20) / 16 + 1)
  end.

(** What the names of the version and the cipher say. *)
Definition protection_of (version cipher : bytes) : protection :=
  if bytes_eqb version (lit "TLSv1.3") then Tls13
  else if bytes_eqb version (lit "TLSv1.2") && contains (lit "CHACHA20") cipher then Chacha12
  else if bytes_eqb version (lit "TLSv1.2") && contains (lit "GCM") cipher then Gcm12
  else CbcSha.

(** The outer packet of a TCP segment of [mss] bytes: inner headers, PPP and SSTP headers, the record, and
    the outer headers. *)
Definition outer_packet (p : protection) (mss : Z) : Z := 20 + 20 + record_size p (4 + 4 + 20 + 20 + mss).

(** The MSS a session is clamped to.  It is between 536 and 1460 bytes, and a segment of that size fits the
    interface's MTU, taken between 576 and 1500.  With an AEAD cipher the packet that carries it through the
    tunnel fits 1500 bytes.  And it is the largest such size: one byte more does not fit one of the two. *)
Theorem mss4_largest_that_fits mtu version cipher :
  0 <= mtu -> protection_of version cipher <> CbcSha ->
  let m := mss4 (compute_mss4 mtu version cipher) in
  536 <= m <= 1460 /\ m + 40 <= Z.max 576 (Z.min 1500 mtu) /\ outer_packet (protection_of version cipher) m <= 1500 /\
  (Z.max 576 (Z.min 1500 mtu) < m + 1 + 40 \/ 1500 < outer_packet (protection_of version cipher) (m + 1)).
Proof.
  intros Hmtu. unfold protection_of, compute_mss4, tls_record_overhead. cbn zeta. cbn [mss4]. unfold as_u16, saturating_sub. rewrite !clamp_eq by lia.
  destruct (bytes_eqb version (lit "TLSv1.3")).
  - intros _. rewrite Z.mod_small by lia. unfold outer_packet, record_size. lia.
  - destruct (bytes_eqb version (lit "TLSv1.2")); [|done]. cbn [andb]. destruct (contains (lit "CHACHA20") cipher).
    + intros _. rewrite Z.mod_small by lia. unfold outer_packet, record_size. lia.
    + destruct (contains (lit "GCM") cipher); [|done]. intros _. rewrite Z.mod_small by lia. unfold outer_packet, record_size. lia.
Qed.

Lemma mss4_largest_that_fits_witness :
  let m := mss4 (compute_mss4 1500 (lit "TLSv1.2") (lit "ECDHE-RSA-AES128-GCM-SHA256")) in
  m = 1383 /\ outer_packet Gcm12 m <= 1500 /\ 1500 < outer_packet Gcm12 (m + 1).
Proof.
  pose proof (mss4_largest_that_fits 1500 (lit "TLSv1.2") (lit "ECDHE-RSA-AES128-GCM-SHA256") ltac:(lia) ltac:(vm_compute; discriminate)) as H.
  vm_compute in H. vm_compute. destruct H as (_ & _ & H & [H'|H']); [discriminate|]. split; [reflexivity|split; assumption].
Defined.

(** With AES-CBC and SHA-1 a record has up to 57 bytes around the plaintext, one more than the 56 that
    [tls_record_overhead] takes, and a full segment does not fit. *)
Theorem cbc_segment_overflows :
  mss4 (compute_mss4 1500 (lit "TLSv1.2") (lit "ECDHE-RSA-AES128-SHA")) = 1356 /\ outer_packet CbcSha 1356 = 1501.
Proof. split; reflexivity. Qed.
