(* ===== verification/NftTable.v ===== *)
(** * The shared table against the kernel

    [ruleset_of] is the nftables ruleset after a history of calls: the operations of the batches the kernel
    accepted, executed in order.  [NftKernel] says what nfnetlink documents of the exchange: an accepted
    operation was possible, and the reply to a batch carries the verdict on it.  Calls may fail and replies
    may get lost at any point.

    The interface of every live handle is clamped, in every run; and a group whose creation broke off half
    way never becomes usable again. *)

From stdpp Require Import strings gmap.
From S2P Require Import Prelude RustText RustStd Os Netlink NetlinkProps RtNetlink RtNetlinkProps Tc TcProps Nft NftWire.

(** ** The ruleset *)

(** A base chain: its type, policy, hook and priority, and its rules. *)
Record kchain := { base : bytes * Z * Z * Z; rules_of : list (list expr) }.

Definition appended (more : list (list expr)) (c : kchain) : kchain := {| base := base c; rules_of := rules_of c ++ more |}.

Record ktable := { sets : gmap bytes (gset bytes); chains : gmap bytes kchain }.

Abbreviation ruleset := (@gmap bytes (@list_eq_dec Z Z.eq_dec) (@list_countable Z Z.eq_dec Z_countable) ktable).

Definition with_set (s : bytes) (v : gset bytes) (t : ktable) : ktable := {| sets := <[s := v]> (sets t); chains := chains t |}.
Definition with_chain (c : bytes) (v : kchain) (t : ktable) : ktable := {| sets := sets t; chains := <[c := v]> (chains t) |}.

(** An operation on the ruleset, [None] when it is not possible (nft(8): tables, sets and chains are created
    exclusively; deleting needs the object to be there). *)
Definition exec (op : nft_op) (rs : ruleset) : option ruleset :=
  match op with
  | NewTable t => match rs !! t with Some _ => None | None => Some (<[t := {| sets := ∅; chains := ∅ |}]> rs) end
  | DelTable t => _ ← rs !! t; Some (delete t rs)
  | NewSet t s =>
      k ← rs !! t;
      match sets k !! s with Some _ => None | None => Some (<[t := with_set s ∅ k]> rs) end
  | NewChain t c ty policy hook priority =>
      k ← rs !! t;
      match chains k !! c with Some _ => None | None => Some (<[t := with_chain c {| base := (ty, policy, hook, priority); rules_of := [] |} k]> rs) end
  | NewRule t c body => k ← rs !! t; rules ← chains k !! c; Some (<[t := with_chain c (appended [body] rules) k]> rs)
  | NewElem t s x => k ← rs !! t; xs ← sets k !! s; Some (<[t := with_set s ({[x]} ∪ xs) k]> rs)
  | DelElem t s x =>
      k ← rs !! t; xs ← sets k !! s;
      if decide (x ∈ xs) then Some (<[t := with_set s (xs ∖ {[x]}) k]> rs) else None
  end.

Section Ruleset.
Context (initial : ruleset) (verdict : history -> nft_op -> Z).

Fixpoint ruleset_of (h : history) : ruleset :=
  match h with
  | [] => initial
  | (Sys_sendto _ b, Ret _ _ _) :: h =>
      match decode_batch b with
      | Some (_, op) => if verdict h op =? 0 then default (ruleset_of h) (exec op (ruleset_of h)) else ruleset_of h
      | None => ruleset_of h
      end
  | _ :: h => ruleset_of h
  end.
End Ruleset.

(** The reply to a request: its sequence number and the negated error code. *)
Definition verdict_reply (sq errno : Z) (rest : bytes) : bytes :=
  reply_bytes {| r_type := NLMSG_ERROR; r_flags := 0; r_seq := sq; r_pid := 0; r_payload := to_ne 4 (- errno) ++ rest |}.

Class NftKernel (os : Os) := {
  initial : ruleset;
  verdict : history -> nft_op -> Z;
  accepted_possible : forall h op, verdict h op = 0 -> is_Some (exec op (ruleset_of initial verdict h));
  verdict_range : forall h op, 0 <= verdict h op < 4096;
  send_whole : forall h fd b sq op n ints out,
    decode_batch b = Some (sq, op) -> answer h (Sys_sendto fd b) = Ret n ints out -> n = len b;
  replied : forall h fd b sq op r n ints out,
    decode_batch b = Some (sq, op) ->
    answer ((Sys_sendto fd b, r) :: h) (Sys_recv fd 8192) = Ret n ints out ->
    exists rest, len rest <= 64 /\ out = verdict_reply sq (verdict h op) rest /\ n = len out
}.

(** ** Growth *)

Lemma appended_nil c : appended [] c = c.
Proof. destruct c. unfold appended. cbn. by rewrite app_nil_r. Qed.

Lemma appended_app m1 m2 c : appended m2 (appended m1 c) = appended (m1 ++ m2) c.
Proof. unfold appended. cbn. by rewrite app_assoc. Qed.

(** What is in the table stays there. *)
Definition grows (T : bytes) (rs rs' : ruleset) : Prop :=
  forall k, rs !! T = Some k -> exists k', rs' !! T = Some k' /\
    (forall s xs, sets k !! s = Some xs -> exists xs', sets k' !! s = Some xs' /\ xs ⊆ xs') /\
    (forall c rules, chains k !! c = Some rules -> exists more, chains k' !! c = Some (appended more rules)).

Lemma grows_refl T rs : grows T rs rs.
Proof. intros k Hk. exists k. split_and!; [done| |]; [eauto|]. intros c rules Hc. exists []. by rewrite appended_nil. Qed.

Lemma grows_trans T a b c : grows T a b -> grows T b c -> grows T a c.
Proof.
  intros H1 H2 k Hk. destruct (H1 k Hk) as (k1 & Hk1 & Hs1 & Hc1). destruct (H2 k1 Hk1) as (k2 & Hk2 & Hs2 & Hc2).
  exists k2. split_and!; [done| |].
  - intros s xs Hs. destruct (Hs1 _ _ Hs) as (ys & Hy & ?). destruct (Hs2 _ _ Hy) as (zs & Hz & ?). exists zs. split; [done|set_solver].
  - intros n rules Hn. destruct (Hc1 _ _ Hn) as (m1 & Hm1). destruct (Hc2 _ _ Hm1) as (m2 & Hm2). exists (m1 ++ m2). by rewrite <- appended_app.
Qed.

Definition deletes (op : nft_op) : bool := match op with DelTable _ | DelElem _ _ _ => true | _ => false end.

(** Replacing one table by a larger one. *)
Lemma grows_insert T t k k' rs :
  rs !! t = Some k ->
  (forall s xs, sets k !! s = Some xs -> exists xs', sets k' !! s = Some xs' /\ xs ⊆ xs') ->
  (forall c rules, chains k !! c = Some rules -> exists more, chains k' !! c = Some (appended more rules)) ->
  grows T rs (<[t := k']> rs).
Proof.
  intros Ht Hs Hc k0 Hk0. destruct (decide (t = T)) as [->|Hne].
  - rewrite Ht in Hk0. injection Hk0 as <-. exists k'. split_and!; [by rewrite lookup_insert_eq|done|done].
  - rewrite lookup_insert_ne by done. by apply grows_refl.
Qed.

Lemma keep_set (k : ktable) : forall s xs, sets k !! s = Some xs -> exists xs', sets k !! s = Some xs' /\ xs ⊆ xs'.
Proof. eauto. Qed.

Lemma keep_chain (k : ktable) : forall c rules, chains k !! c = Some rules -> exists more, chains k !! c = Some (appended more rules).
Proof. intros c rules Hc. exists []. by rewrite appended_nil. Qed.

Lemma exec_grows T op rs rs' : deletes op = false -> exec op rs = Some rs' -> grows T rs rs'.
Proof.
  intros Hd. destruct op as [t|t|t s|t c ? ? ? ?|t c body|t s x|t s x]; cbn in Hd; try done; cbn [exec].
  - destruct (rs !! t) eqn:Ht; [done|]. intros [= <-] k Hk. destruct (decide (t = T)) as [->|]; [congruence|].
    rewrite lookup_insert_ne by done. by apply grows_refl.
  - destruct (rs !! t) as [k|] eqn:Ht; [|done]. cbn. destruct (sets k !! s) eqn:Hs; [done|]. intros [= <-].
    eapply grows_insert; [done| |exact (keep_chain k)]. intros s' xs Hs'. cbn. rewrite lookup_insert_ne by congruence. eauto.
  - destruct (rs !! t) as [k|] eqn:Ht; [|done]. cbn. destruct (chains k !! c) eqn:Hc; [done|]. intros [= <-].
    eapply grows_insert; [done|exact (keep_set k)|]. intros c' rules Hc'. cbn. rewrite lookup_insert_ne by congruence. by apply keep_chain.
  - destruct (rs !! t) as [k|] eqn:Ht; [|done]. cbn. destruct (chains k !! c) as [rules|] eqn:Hc; [|done]. cbn. intros [= <-].
    eapply grows_insert; [done|exact (keep_set k)|]. intros c' rules' Hc'. cbn. destruct (decide (c = c')) as [->|].
    + rewrite lookup_insert_eq. rewrite Hc in Hc'. injection Hc' as <-. eauto.
    + rewrite lookup_insert_ne by done. by apply keep_chain.
  - destruct (rs !! t) as [k|] eqn:Ht; [|done]. cbn. destruct (sets k !! s) as [xs|] eqn:Hs; [|done]. cbn. intros [= <-].
    eapply grows_insert; [done| |exact (keep_chain k)]. intros s' xs' Hs'. cbn. destruct (decide (s = s')) as [->|].
    + rewrite lookup_insert_eq. rewrite Hs in Hs'. injection Hs' as <-. eexists. split; [done|set_solver].
    + rewrite lookup_insert_ne by done. eauto.
Qed.

(** ** The invariant *)

Section Invariant.
Context (T : bytes).

(** The outcome of an operation: done, or an error that leaves open whether it was done. *)
Definition outcome (op : nft_op) (rs rs' : ruleset) (r : res SharedMssError ()) : Prop :=
  (r = Ok tt /\ exec op rs = Some rs') \/ ((exists e, r = Err e /\ e <> Waiting) /\ (rs' = rs \/ exec op rs = Some rs')).


(** Filter chains on the forward hook, at the mangle priority. *)
Definition forward_base : bytes * Z * Z * Z := (lit "filter", NF_ACCEPT, NF_INET_FORWARD, -150).

Definition group_in (k : ktable) (mss : Z) (g : MssGroup) : Prop :=
  exists xs c, sets k !! set_name g = Some xs /\ chains k !! chain_name g = Some c /\ base c = forward_base /\
    clamp_rule (set_name g) true mss ∈ rules_of c /\ clamp_rule (set_name g) false mss ∈ rules_of c.

(** The names of a group, and the kernel's part of it once it is created. *)
Definition group_ok (rs : ruleset) (mss : Z) (g : MssGroup) : Prop :=
  chain_name g = chain_name (new_group mss) /\ set_name g = set_name (new_group mss) /\
  (kernel_created g = true -> exists k, rs !! T = Some k /\ group_in k mss g).

Definition guard_ok (i : Inner) (rs : ruleset) (g : SharedMssGuard) : Prop :=
  exists grp k xs, groups i !! g_mss g = Some grp /\ kernel_created grp = true /\ rs !! T = Some k /\
    sets k !! set_name grp = Some xs /\ elem_key (g_ifname g) ∈ xs.

Definition inner_ok (i : Inner) (rs : ruleset) : Prop :=
  statics_ok (statics i) /\ (table_exists i = false -> groups i = ∅) /\
  (forall mss g, groups i !! mss = Some g -> group_ok rs mss g).

Lemma group_in_grows k k' mss g :
  (forall s xs, sets k !! s = Some xs -> exists xs', sets k' !! s = Some xs' /\ xs ⊆ xs') ->
  (forall c rules, chains k !! c = Some rules -> exists more, chains k' !! c = Some (appended more rules)) ->
  group_in k mss g -> group_in k' mss g.
Proof.
  intros Hs Hc (xs & body & Hx & Hb & Hba & H1 & H2). destruct (Hs _ _ Hx) as (xs' & Hx' & _). destruct (Hc _ _ Hb) as (more & Hb').
  exists xs', (appended more body). split_and!; [done|done|done|apply elem_of_app; by left..].
Qed.

Lemma group_ok_grows rs rs' mss g : grows T rs rs' -> group_ok rs mss g -> group_ok rs' mss g.
Proof.
  intros Hg (Hn & Hs & Hk). split_and!; [done|done|]. intros Hc. destruct (Hk Hc) as (k & Hk0 & Hin).
  destruct (Hg k Hk0) as (k' & Hk' & H1 & H2). exists k'. split; [done|]. by eapply group_in_grows.
Qed.

Lemma guard_ok_grows i rs rs' g : grows T rs rs' -> guard_ok i rs g -> guard_ok i rs' g.
Proof.
  intros Hg (grp & k & xs & H1 & H2 & H3 & H4 & H5). destruct (Hg k H3) as (k' & Hk' & Hs & _). destruct (Hs _ _ H4) as (xs' & Hx & Hsub).
  exists grp, k', xs'. split_and!; [done|done|done|done|set_solver].
Qed.

Lemma inner_ok_grows i rs rs' : grows T rs rs' -> inner_ok i rs -> inner_ok i rs'.
Proof.
  intros Hg (H1 & H2 & H3). split_and!; [done|done|]. intros mss g Hm. eapply group_ok_grows; [done|by apply H3].
Qed.

(** Any outcome of an operation that deletes nothing. *)
Lemma outcome_grows op rs rs' r : deletes op = false -> outcome op rs rs' r -> grows T rs rs'.
Proof.
  intros Hd [[_ He]|[_ [->|He]]]; [by eapply exec_grows|apply grows_refl|by eapply exec_grows].
Qed.

(** *** Facts about the table that last *)

Definition has_set (s : bytes) (rs : ruleset) : Prop := exists k xs, rs !! T = Some k /\ sets k !! s = Some xs.
Definition has_chain (c : bytes) (b : bytes * Z * Z * Z) (rs : ruleset) : Prop := exists k l, rs !! T = Some k /\ chains k !! c = Some l /\ base l = b.
Definition has_rule (c : bytes) (body : list expr) (rs : ruleset) : Prop :=
  exists k l, rs !! T = Some k /\ chains k !! c = Some l /\ body ∈ rules_of l.
Definition has_elem (s x : bytes) (rs : ruleset) : Prop := exists k xs, rs !! T = Some k /\ sets k !! s = Some xs /\ x ∈ xs.

Definition lasting (F : ruleset -> Prop) : Prop := forall rs rs', grows T rs rs' -> F rs -> F rs'.

Lemma lasting_true : lasting (fun _ => True).
Proof. done. Qed.

Lemma lasting_and F F' : lasting F -> lasting F' -> lasting (fun rs => F rs /\ F' rs).
Proof. intros H H' rs rs' Hg [? ?]. split; eauto. Qed.

Lemma lasting_set s : lasting (has_set s).
Proof.
  intros rs rs' Hg (k & xs & Hk & Hs). destruct (Hg k Hk) as (k' & Hk' & H1 & _). destruct (H1 _ _ Hs) as (xs' & ? & _). by exists k', xs'.
Qed.

Lemma lasting_chain c b : lasting (has_chain c b).
Proof.
  intros rs rs' Hg (k & l & Hk & Hc & Hb). destruct (Hg k Hk) as (k' & Hk' & _ & H2). destruct (H2 _ _ Hc) as (more & ?). by exists k', (appended more l).
Qed.

Lemma lasting_rule c body : lasting (has_rule c body).
Proof.
  intros rs rs' Hg (k & l & Hk & Hc & Hin). destruct (Hg k Hk) as (k' & Hk' & _ & H2). destruct (H2 _ _ Hc) as (more & ?).
  exists k', (appended more l). split_and!; [done|done|]. apply elem_of_app. by left.
Qed.

Lemma lasting_elem s x : lasting (has_elem s x).
Proof.
  intros rs rs' Hg (k & xs & Hk & Hs & Hx). destruct (Hg k Hk) as (k' & Hk' & H1 & _). destruct (H1 _ _ Hs) as (xs' & ? & ?).
  exists k', xs'. split_and!; [done|done|set_solver].
Qed.

(** What an operation on the table leaves behind. *)
Definition effect_of (op : nft_op) (rs : ruleset) : Prop :=
  match op with
  | NewSet t s => t = T -> has_set s rs
  | NewChain t c ty policy hook priority => t = T -> has_chain c (ty, policy, hook, priority) rs
  | NewRule t c body => t = T -> has_rule c body rs
  | NewElem t s x => t = T -> has_elem s x rs
  | _ => True
  end.

Lemma exec_effect op rs rs' : exec op rs = Some rs' -> effect_of op rs'.
Proof.
  destruct op as [t|t|t s|t c ? ? ? ?|t c body|t s x|t s x]; cbn [exec effect_of]; try done.
  - intros He ->. destruct (rs !! T) as [k|]; [|done]. cbn [mbind option_bind] in He. destruct (sets k !! s); [done|]. injection He as <-.
    eexists _, _. rewrite lookup_insert_eq. split; [reflexivity|]. cbn. rewrite lookup_insert_eq. reflexivity.
  - intros He ->. destruct (rs !! T) as [k|]; [|done]. cbn [mbind option_bind] in He. destruct (chains k !! c); [done|]. injection He as <-.
    eexists _, _. rewrite lookup_insert_eq. split; [reflexivity|]. cbn. rewrite lookup_insert_eq. split; reflexivity.
  - intros He ->. destruct (rs !! T) as [k|]; [|done]. cbn [mbind option_bind] in He. destruct (chains k !! c) as [l|]; [|done]. injection He as <-.
    eexists _, _. rewrite lookup_insert_eq. split; [reflexivity|]. cbn. rewrite lookup_insert_eq. split; [reflexivity|]. apply elem_of_app. right. set_solver.
  - intros He ->. destruct (rs !! T) as [k|]; [|done]. cbn [mbind option_bind] in He. destruct (sets k !! s) as [xs|]; [|done]. injection He as <-.
    eexists _, _. rewrite lookup_insert_eq. split; [reflexivity|]. cbn. rewrite lookup_insert_eq. split; [reflexivity|]. set_solver.
Qed.

(** *** Names *)

Lemma len_show_digits n v acc : (length (show_digits n v acc) <= n + length acc)%nat.
Proof.
  revert v acc. induction n as [|n IH]; intros v acc; cbn [show_digits]; [lia|]. destruct (_ =? 0); [cbn; lia|].
  etrans; [apply IH|]. cbn. lia.
Qed.

Lemma names_ok pid mss : name_ok (TABLE_NAME pid) /\ name_ok (chain_name (new_group mss)) /\ name_ok (set_name (new_group mss)).
Proof.
  pose proof (len_show_digits 20 pid []). pose proof (len_show_digits 20 mss []). unfold name_ok, TABLE_NAME, new_group, show_dec. cbn [chain_name set_name].
  rewrite !length_app. cbn [length] in *. change (length (lit "sstp_mss_")) with 9%nat. change (length (lit "fwd_")) with 4%nat.
  change (length (lit "ifaces_")) with 7%nat. lia.
Qed.

Lemma set_name_inj m m' : u16 m -> u16 m' -> set_name (new_group m) = set_name (new_group m') -> m = m'.
Proof.
  unfold u16, new_group. cbn [set_name]. intros Hm Hm' He. apply app_inv_head in He.
  pose proof (parse_show_dec 65535 m ltac:(lia) ltac:(unfold U64_MAX; lia)) as H1.
  pose proof (parse_show_dec 65535 m' ltac:(lia) ltac:(unfold U64_MAX; lia)) as H2. congruence.
Qed.

(** *** The invariant of a table with live guards *)

Definition table_ok (live : list SharedMssGuard) (i : Inner) (rs : ruleset) : Prop :=
  inner_ok i rs /\ Forall (fun g => u16 (g_mss g) /\ guard_ok i rs g) live.

Lemma table_ok_grows live i rs rs' : grows T rs rs' -> table_ok live i rs -> table_ok live i rs'.
Proof.
  intros Hg (Hi & Hl). split; [by eapply inner_ok_grows|]. eapply Forall_impl; [exact Hl|]. intros g [? ?]. split; [done|]. by eapply guard_ok_grows.
Qed.

Lemma table_ok_statics live i rs st : statics_ok st -> table_ok live i rs -> table_ok live (with_statics st i) rs.
Proof. intros Hst ((H1 & H2 & H3) & Hl). done. Qed.
End Invariant.

(** ** Exchanges *)

Lemma verdict_drained {bp : BuildProfile} sq errno rest :
  u32 sq -> 0 <= errno < 4096 -> len rest <= 64 ->
  drain_acks (verdict_reply sq errno rest) {[sq]} = if errno =? 0 then Ok ∅ else Err (Kernel errno).
Proof.
  intros Hsq He Hr. pose proof (drain_acks_replies [{| r_type := NLMSG_ERROR; r_flags := 0; r_seq := sq; r_pid := 0; r_payload := to_ne 4 (- errno) ++ rest |}] {[sq]}) as Hd.
  unfold verdict_reply. cbn [map concat] in Hd. rewrite app_nil_r in Hd. rewrite Hd.
  - cbn [acked r_type r_payload r_seq]. change (NLMSG_ERROR =? NLMSG_ERROR) with true. cbn iota.
    replace (len (to_ne 4 (- errno) ++ rest) <? 4) with false by (rewrite length_app; autorewrite with lens; lia).
    rewrite sub_prefix by done. rewrite i32_to_ne by lia. unfold neg_i32. replace (- errno =? - 2 ^ 31) with false by lia.
    destruct (Z.eqb_spec errno 0) as [->|]; [cbn; f_equal; set_solver|]. replace (- errno =? 0) with false by lia.
    cbn [mbind res_bind]. by rewrite Z.opp_involutive.
  - constructor; [|done]. split_and!; try done; try lia; cbn [r_flags r_pid r_seq r_payload]; [apply Hsq..|].
    unfold NLMSG_HDRLEN. rewrite length_app. autorewrite with lens. lia.
Qed.

Section Table.
Context {os : Os} {os_ok : OsOk os} {kernel : NftKernel os} {bp : BuildProfile} (fuel : nat) (pid : Z).
Hypothesis fuel_ok : (0 < fuel)%nat.

Abbreviation rules h := (ruleset_of initial verdict h).

Lemma exchange_batch_ok sock opn b sq op h r h' :
  decode_batch (b_bytes b) = Some (sq, op) -> expected_acks b = [sq] -> u32 sq ->
  NfNetlink.exchange_batch fuel sock opn b h = (r, h') -> outcome op (rules h) (rules h') r.
Proof using os_ok fuel_ok.
  intros Hd Ha Hsq. unfold NfNetlink.exchange_batch. rewrite bind_eq, on_err_eq. unfold NetlinkSocket.send. m_run.
  destruct (answer h (Sys_sendto sock (b_bytes b))) as [n ints out|e] eqn:Es; cbn [fst snd].
  2: { intros [= <- <-]. right. split; [eexists; split; [reflexivity|discriminate]|]. by left. }
  rewrite (send_whole _ _ _ _ _ _ _ _ Hd Es), Z.eqb_refl. cbn [negb fst snd map_err].
  set (h1 := (Sys_sendto sock (b_bytes b), Ret (len (b_bytes b)) ints out) :: h).
  assert (Hh1 : rules h1 = if verdict h op =? 0 then default (rules h) (exec op (rules h)) else rules h).
  { subst h1. cbn [ruleset_of]. by rewrite Hd. }
  rewrite Ha. destruct fuel as [|fuel']; [lia|]. cbn [NfNetlink.await].
  replace (list_to_set [sq] : gset Z) with ({[sq]} : gset Z) by (cbn; set_solver).
  case_decide as Hemp; [set_solver|]. rewrite bind_eq, on_err_eq. unfold NetlinkSocket.recv_into. m_run.
  assert (Hz : length (zeros 8192) = Z.to_nat 8192) by apply length_replicate. rewrite Hz, Z2Nat.id by lia.
  destruct (answer h1 (Sys_recv sock 8192)) as [n2 ints2 out2|e] eqn:Er; cbn [map_err].
  - pose proof (recv_bound _ _ _ _ _ _ Er) as Hn. destruct (replied _ _ _ _ _ _ _ _ _ Hd Er) as (rest & Hrest & -> & ->).
    set (reply := verdict_reply sq (verdict h op) rest) in *.
    rewrite slice_ok by (rewrite length_app, length_take, length_drop, Hz; lia). cbn [map_err].
    assert (Hsub : sub (take (Z.to_nat 8192) reply ++ drop (length reply) (zeros 8192)) 0 (len reply) = reply).
    { rewrite take_ge by lia. by apply sub_prefix. }
    rewrite Hsub. subst reply. cbn [fst snd map_err]. rewrite (verdict_drained sq (verdict h op) rest Hsq (verdict_range h op) Hrest).
    destruct (Z.eqb_spec (verdict h op) 0) as [Ev|Ev].
    + destruct (accepted_possible h op Ev) as [rs' Hrs']. rewrite Hrs' in Hh1. cbn [default] in Hh1.
      destruct fuel'; cbn [NfNetlink.await]; (case_decide as Hd0; [|by destruct Hd0]); intros [= <- <-]; left; (split; [done|]); cbn [ruleset_of];
        fold h1; rewrite Hh1, Hrs'; reflexivity.
    + intros [= <- <-]. right. split; [eexists; split; [reflexivity|discriminate]|]. left. cbn [ruleset_of]. fold h1. by rewrite Hh1.
  - intros [= <- <-]. right. split; [eexists; split; [reflexivity|discriminate]|]. cbn [ruleset_of]. fold h1. rewrite Hh1.
    destruct (Z.eqb_spec (verdict h op) 0) as [Ev|Ev]; [|by left]. right. destruct (accepted_possible h op Ev) as [rs' Hrs']. by rewrite Hrs'.
Qed.

(** Building and exchanging a batch changes only the counters of [Inner]. *)
Lemma transact_ok sock opn build op i h r i' h' :
  builds build op -> statics_ok (statics i) ->
  transact fuel sock opn build i h = (r, i', h') ->
  (exists st, statics_ok st /\ i' = with_statics st i) /\ outcome op (rules h) (rules h') r.
Proof using os_ok fuel_ok.
  intros Hb Hst. destruct (Hb _ Hst) as (b & st & Hbuild & Hst' & Ha & Hd). unfold transact, get, run_m, modify, lift.
  unfold mbind, g_bind. cbn beta iota. rewrite Hbuild. cbn beta iota.
  destruct (NfNetlink.exchange_batch fuel sock opn b h) as [r1 h1] eqn:Ex. intros [= <- <- <-]. split; [by exists st|].
  eapply exchange_batch_ok; [exact Hd|exact Ha|apply fetch_add_u32|exact Ex].
Qed.

(** Opening the socket leaves the ruleset alone. *)
Lemma nf_open_ok h r h' : NfNetlink.open h = (r, h') -> rules h' = rules h /\ r <> Panic.
Proof using Type.
  unfold NfNetlink.open, NetlinkSocket.open. m_run. unfold owned, close. m_run.
  destruct (answer h _) as [fd ints out|e]; cbn; [|by intros [= <- <-]].
  destruct (answer _ (Sys_bind fd)); cbn; by intros [= <- <-].
Qed.

Lemma rules_close fd h : rules (close (E := SharedMssError) fd h).2 = rules h.
Proof using Type. done. Qed.


(** ** Triples *)

Abbreviation T := (TABLE_NAME pid).

Abbreviation pred := (Inner -> ruleset -> Prop).

Definition triple {A : Type} (P : Inner -> ruleset -> Prop) (m : G A) (Q : res SharedMssError A -> Inner -> ruleset -> Prop) : Prop :=
  forall i h r i' h', P i (rules h) -> m i h = (r, i', h') -> Q r i' (rules h').

Lemma triple_ret {A : Type} (a : A) (P : pred) (Q : res SharedMssError A -> Inner -> ruleset -> Prop) :
  (forall i rs, P i rs -> Q (Ok a) i rs) -> triple P (mret a) Q.
Proof using Type. intros H i h r i' h' HP [= <- <- <-]. by apply H. Qed.

Lemma triple_bind {A B : Type} (m : G A) (f : A -> G B) (P : pred) (R : res SharedMssError A -> pred) (Q : res SharedMssError B -> pred) :
  triple P m R -> (forall e i rs, R (Err e) i rs -> Q (Err e) i rs) -> (forall i rs, R Panic i rs -> Q Panic i rs) ->
  (forall a, triple (R (Ok a)) (f a) Q) -> triple P (a ← m; f a) Q.
Proof using Type.
  intros Hm He Hp Hf i h r i' h' HP. unfold mbind, g_bind. destruct (m i h) as [[[a|e|] i1] h1] eqn:Em.
  - apply (Hf a). by eapply Hm.
  - intros [= <- <- <-]. apply He. by eapply Hm.
  - intros [= <- <- <-]. apply Hp. by eapply Hm.
Qed.

(** The same condition after every outcome. *)
Lemma triple_seq {A B : Type} (m : G A) (f : A -> G B) (P Q : pred) (R : A -> Inner -> ruleset -> Prop) :
  triple P m (fun r i rs => Q i rs /\ (forall a, r = Ok a -> R a i rs)) ->
  (forall a, triple (fun i rs => Q i rs /\ R a i rs) (f a) (fun _ => Q)) -> triple P (a ← m; f a) (fun _ => Q).
Proof using Type.
  intros Hm Hf. eapply triple_bind; [exact Hm|by intros ? ? ? []|by intros ? ? []|]. intros a i h r i' h' [HQ HR]. apply Hf. split; [done|by apply HR].
Qed.

Lemma triple_modify (f : Inner -> Inner) (P : pred) (Q : Inner -> ruleset -> Prop) : (forall i rs, P i rs -> Q (f i) rs) -> triple P (modify f) (fun _ => Q).
Proof using Type. intros H i h r i' h' HP [= <- <- <-]. by apply H. Qed.

Lemma triple_scoped {A : Type} fd (m : G A) (P : pred) (Q : res SharedMssError A -> pred) : triple P m Q -> triple P (scoped_g fd m) Q.
Proof using Type.
  intros Hm i h r i' h' HP. unfold scoped_g. destruct (m i h) as [[r1 i1] h1] eqn:Em. intros [= <- <- <-]. by apply (Hm _ _ _ _ _ HP Em).
Qed.

Lemma triple_attempt {A : Type} (m : G A) (P Q : pred) : triple P m (fun _ => Q) -> triple P (attempt_g m) (fun _ => Q).
Proof using Type.
  intros Hm i h r i' h' HP. unfold attempt_g. destruct (m i h) as [[[a|e|] i1] h1] eqn:Em; intros [= <- <- <-]; by apply (Hm _ _ _ _ _ HP Em).
Qed.

Lemma triple_open_total (P : pred) : triple P (run_m NfNetlink.open) (fun r i rs => P i rs /\ r <> Panic).
Proof using Type.
  intros i h r i' h' HP. unfold run_m. destruct (NfNetlink.open h) as [r1 h1] eqn:Eo. apply nf_open_ok in Eo as [Hr Hp].
  intros [= <- <- <-]. by rewrite Hr.
Qed.

Lemma triple_open (P : pred) : triple P (run_m NfNetlink.open) (fun _ => P).
Proof using Type. intros i h r i' h' HP Hr. by destruct (triple_open_total P _ _ _ _ _ HP Hr). Qed.

(** An operation that deletes nothing keeps the invariant and every lasting fact, and has its effect. *)
Lemma triple_transact sock opn build op live (F : ruleset -> Prop) (tb : bool) (gs : gmap Z MssGroup) :
  builds build op -> deletes op = false -> lasting T F ->
  triple (fun i rs => table_ok T live i rs /\ F rs /\ table_exists i = tb /\ groups i = gs) (transact fuel sock opn build)
         (fun r i rs => table_ok T live i rs /\ (F rs /\ (r = Ok tt -> effect_of T op rs)) /\ table_exists i = tb /\ groups i = gs).
Proof using os_ok fuel_ok.
  intros Hb Hd HF i h r i' h' (Ht & Hf & Htb & Hgs) Hr. pose proof Ht as ((Hst & _) & _).
  destruct (transact_ok _ _ _ _ _ _ _ _ _ Hb Hst Hr) as ((st & Hst' & ->) & Ho). pose proof (outcome_grows T _ _ _ _ Hd Ho) as Hg.
  split_and!; [by apply table_ok_statics, (table_ok_grows T live i (rules h))|by eapply HF| |done|done].
  intros ->. destruct Ho as [[_ He]|[(e & He & _) _]]; [by eapply exec_effect|done].
Qed.

Lemma triple_get {A : Type} (f : Inner -> G A) (P : pred) (Q : res SharedMssError A -> pred) :
  (forall i0, triple (fun i rs => i = i0 /\ P i rs) (f i0) Q) -> triple P (i ← get; f i) Q.
Proof using Type. intros H i h r i' h' HP Hr. by apply (H i i h r i' h'). Qed.

Lemma triple_weaken {A : Type} (m : G A) (P P' : pred) (Q Q' : res SharedMssError A -> pred) :
  triple P m Q -> (forall i rs, P' i rs -> P i rs) -> (forall r i rs, Q r i rs -> Q' r i rs) -> triple P' m Q'.
Proof using Type. intros H HP HQ i h r i' h' Hi Hr. by eapply HQ, H, Hr; apply HP. Qed.

(** Without a table there are no groups and no guards, and the kernel's ruleset does not matter. *)
Definition no_table (live : list SharedMssGuard) (i : Inner) (rs : ruleset) : Prop :=
  live = [] /\ statics_ok (statics i) /\ table_exists i = false /\ groups i = ∅.

Lemma no_table_ok live i rs : no_table live i rs -> table_ok T live i rs.
Proof using Type.
  intros (-> & Hs & Ht & Hg). split; [|done]. split_and!; [done|done|]. rewrite Hg. intros mss g. by rewrite lookup_empty.
Qed.

Lemma table_missing live i rs : table_ok T live i rs -> table_exists i = false -> no_table live i rs.
Proof using Type.
  intros ((Hs & Hg & _) & Hl) Ht. specialize (Hg Ht). split_and!; [|done|done|done]. destruct Hl as [|g live [_ (grp & k & xs & Hgrp & _)]]; [done|].
  by rewrite Hg, lookup_empty in Hgrp.
Qed.

Lemma triple_no_table sock opn build op live :
  builds build op -> triple (no_table live) (transact fuel sock opn build) (fun _ => no_table live).
Proof using os_ok fuel_ok.
  intros Hb i h r i' h' (-> & Hs & Ht & Hg) Hr. by destruct (transact_ok _ _ _ _ _ _ _ _ _ Hb Hs Hr) as ((st & Hst & ->) & _).
Qed.

Lemma triple_ensure_table sock live :
  triple (table_ok T live) (ensure_table fuel pid sock)
    (fun r i rs => table_ok T live i rs /\ (r = Ok tt -> table_exists i = true)).
Proof using os_ok fuel_ok.
  unfold ensure_table. apply triple_get. intros i0. destruct (table_exists i0) eqn:Et.
  - apply triple_ret. by intros i rs [-> Hi].
  - destruct (names_ok pid 0) as [Hn _].
    eapply (triple_weaken _ (no_table live) _ _ _); [|intros i rs [-> Hi]; by apply table_missing|intros r i rs Hq; exact Hq].
    eapply (triple_bind _ _ _ (fun _ => no_table live)); [apply triple_attempt, (triple_no_table _ _ _ _ _ (builds_del_table _ Hn))
      |intros e i rs Hi; split; [by apply no_table_ok|done]|intros i rs Hi; split; [by apply no_table_ok|done]|]. intros _.
    eapply (triple_bind _ _ _ (fun _ => no_table live)); [apply (triple_no_table _ _ _ _ _ (builds_new_table _ Hn))
      |intros e i rs Hi; split; [by apply no_table_ok|done]|intros i rs Hi; split; [by apply no_table_ok|done]|]. intros _.
    intros i h r i' h' Hi [= <- <- <-]. split; [|done]. destruct (no_table_ok _ _ _ Hi) as ((H1 & H2 & H3) & H4). split; [|done]. by split_and!.
Qed.

(** *** Groups *)

Definition at_work (live : list SharedMssGuard) (gs : gmap Z MssGroup) (F : ruleset -> Prop) (i : Inner) (rs : ruleset) : Prop :=
  table_ok T live i rs /\ F rs /\ table_exists i = true /\ groups i = gs.

Lemma triple_step {A : Type} sock opn build op live gs (F F' : ruleset -> Prop) (rest : G A) (Q : res SharedMssError A -> pred) :
  builds build op -> deletes op = false -> lasting T F -> (forall rs, F rs -> effect_of T op rs -> F' rs) ->
  (forall r i rs, (forall a, r <> Ok a) -> table_ok T live i rs -> Q r i rs) ->
  triple (at_work live gs F') rest Q -> triple (at_work live gs F) (_ ← transact fuel sock opn build; rest) Q.
Proof using os_ok fuel_ok.
  intros Hb Hd HF HF' HQ Hrest. eapply triple_bind; [by eapply (triple_transact _ _ _ _ live F true gs)| | |].
  - intros e i rs (H & _). by apply HQ.
  - intros i rs (H & _). by apply HQ.
  - intros [] i h r i' h' (H1 & (H2 & H3) & H4 & H5). apply Hrest. split_and!; [done|by apply HF', H3|done|done].
Qed.

Definition group_ready (mss : Z) (grp : MssGroup) (i : Inner) : Prop :=
  groups i !! mss = Some grp /\ kernel_created grp = true /\ chain_name grp = chain_name (new_group mss) /\
  set_name grp = set_name (new_group mss).

(** Changing the entry of a group keeps the others and the guards. *)
Lemma groups_insert_ok live i rs mss grp :
  table_ok T live i rs -> table_exists i = true -> group_ok T rs mss grp ->
  (forall old, groups i !! mss = Some old -> kernel_created old = true -> kernel_created grp = true) ->
  table_ok T live (with_groups (<[mss := grp]> (groups i)) i) rs.
Proof using Type.
  intros ((H1 & H2 & H3) & Hl) Ht Hg Hold. split.
  - split_and!; [done|cbn; congruence|]. intros m g. cbn [groups with_groups]. destruct (decide (mss = m)) as [->|].
    + rewrite lookup_insert_eq. by intros [= <-].
    + rewrite lookup_insert_ne by done. apply H3.
  - eapply Forall_impl; [exact Hl|]. intros g [Hu (grp0 & k & xs & Hm & Hc & Hk & Hs & Hx)]. split; [done|].
    destruct (decide (mss = g_mss g)) as [->|].
    + destruct (H3 _ _ Hm) as (_ & Hn & _). destruct Hg as (_ & Hn' & _). exists grp, k, xs. cbn [groups with_groups]. rewrite lookup_insert_eq.
      split_and!; [done|by eapply Hold|done|by rewrite Hn', <- Hn|done].
    + exists grp0, k, xs. cbn [groups with_groups]. rewrite lookup_insert_ne by done. by split_and!.
Qed.

(** The four steps of a new group. *)
Lemma triple_create sock mss live gs grp :
  chain_name grp = chain_name (new_group mss) -> set_name grp = set_name (new_group mss) ->
  triple (at_work live gs (fun _ => True))
    (_ ← transact fuel sock "create-set" (build_create_set_batch T (set_name grp));
     _ ← transact fuel sock "create-chain" (build_create_chain_batch T (chain_name grp));
     _ ← transact fuel sock "create-rule-iif" (build_rule_batch T (chain_name grp) (set_name grp) true mss);
     _ ← transact fuel sock "create-rule-oif" (build_rule_batch T (chain_name grp) (set_name grp) false mss);
     _ ← modify (fun i => with_groups (<[mss := created grp]> (groups i)) i);
     mret (created grp))
    (fun r i rs => table_ok T live i rs /\ (forall grp, r = Ok grp -> table_exists i = true /\ group_ready mss grp i)).
Proof using os_ok fuel_ok.
  intros Hcn Hsn. destruct (names_ok pid mss) as (Hn & Hc & Hs). rewrite <- Hcn in Hc. rewrite <- Hsn in Hs.
  assert (HQ : forall (r : res SharedMssError MssGroup) i rs, (forall a, r <> Ok a) -> table_ok T live i rs ->
    table_ok T live i rs /\ forall g, r = Ok g -> table_exists i = true /\ group_ready mss g i).
  { intros r i rs Hr Ht. split; [done|]. intros g ->. by destruct (Hr g). }
  set (sn := set_name grp) in *. set (cn := chain_name grp) in *.
  eapply (triple_step _ _ _ _ _ _ _ (has_set T sn));
    [by apply builds_new_set|done|apply lasting_true|intros rs _ He; by apply He|exact HQ|].
  eapply (triple_step _ _ _ _ _ _ _ (fun rs => has_set T sn rs /\ has_chain T cn forward_base rs));
    [by apply builds_new_chain|done|apply lasting_set|intros rs ? He; split; [done|by apply He]|exact HQ|].
  eapply (triple_step _ _ _ _ _ _ _ (fun rs => (has_set T sn rs /\ has_chain T cn forward_base rs) /\ has_rule T cn (clamp_rule sn true mss) rs));
    [by apply builds_rule|done|apply lasting_and; [apply lasting_set|apply lasting_chain]|intros rs ? He; split; [done|by apply He]|exact HQ|].
  eapply (triple_step _ _ _ _ _ _ _
           (fun rs => ((has_set T sn rs /\ has_chain T cn forward_base rs) /\ has_rule T cn (clamp_rule sn true mss) rs) /\ has_rule T cn (clamp_rule sn false mss) rs));
    [by apply builds_rule|done|apply lasting_and; [apply lasting_and; [apply lasting_set|apply lasting_chain]|apply lasting_rule]
    |intros rs ? He; split; [done|by apply He]|exact HQ|].
  intros i h r i' h' (Ht & (((Hset & Hch) & H1) & H2) & He & Hgs) [= <- <- <-]. split.
  - apply groups_insert_ok; [done|done| |done]. split_and!; [done|done|]. intros _.
    destruct Hset as (k & xs & Hk & Hxs). destruct Hch as (k0 & l0 & Hk0 & Hl0 & Hb0). destruct H1 as (k1 & l1 & Hk1 & Hl1 & Hr1).
    destruct H2 as (k2 & l2 & Hk2 & Hl2 & Hr2). simplify_eq. exists k. split; [done|]. eexists xs, _. by split_and!.
  - intros g [= <-]. split; [done|]. split_and!; [cbn [groups with_groups]; by rewrite lookup_insert_eq|done|done|done].
Qed.

Lemma triple_ensure_group sock mss live :
  triple (fun i rs => table_ok T live i rs /\ table_exists i = true) (ensure_group fuel pid sock mss)
    (fun r i rs => table_ok T live i rs /\ (forall grp, r = Ok grp -> table_exists i = true /\ group_ready mss grp i)).
Proof using os_ok fuel_ok.
  unfold ensure_group. apply triple_get. intros i0. set (grp := default (new_group mss) (groups i0 !! mss)). cbn zeta.
  assert (Hgrp : forall rs, table_ok T live i0 rs -> group_ok T rs mss grp).
  { intros rs ((_ & _ & H3) & _). subst grp. destruct (groups i0 !! mss) as [g|] eqn:Eg; [by apply H3|]. cbn [default]. by split_and!. }
  eapply (triple_bind _ _ _ (fun _ i rs => at_work live (<[mss := grp]> (groups i0)) (fun _ => group_ok T rs mss grp) i rs)).
  - intros i h r i' h' [-> [Ht He]] [= <- <- <-]. split_and!; [|by apply Hgrp|done|done]. apply groups_insert_ok; [done|done|by apply Hgrp|].
    subst grp. by intros old ->.
  - by intros e i rs (H & _).
  - by intros i rs (H & _).
  - intros _ i h r i' h' (H1 & (H2 & H3 & _) & H4 & H5). destruct (kernel_created grp) eqn:Ek.
    + intros [= <- <- <-]. split; [done|]. intros g [= <-]. split; [done|]. unfold group_ready. rewrite H5. split_and!; [by rewrite lookup_insert_eq|done|done|done].
    + by apply (triple_create sock mss live (groups i) grp H2 H3).
Qed.

(** ** The methods *)

Definition apart (g g' : SharedMssGuard) : Prop := g_mss g <> g_mss g' \/ elem_key (g_ifname g) <> elem_key (g_ifname g').

Lemma triple_add ifname mss live :
  u16 mss ->
  triple (table_ok T live) (add fuel pid ifname mss)
    (fun r i rs => table_ok T (match r with Ok g => g :: live | _ => live end) i rs /\
                   (forall g, r = Ok g -> g = {| g_ifname := ifname; g_mss := mss |})).
Proof using os_ok fuel_ok.
  intros Hm. unfold add. destruct (existsb (Z.eqb 0) ifname); [by intros i h r i' h' Ht [= <- <- <-]|].
  eapply triple_bind; [apply triple_open|by intros e i rs H|by intros i rs H|]. intros sock. apply triple_scoped.
  eapply triple_bind; [apply triple_ensure_table|by intros e i rs [H _]|by intros i rs [H _]|]. intros [].
  eapply (triple_bind _ _ _ (fun r i rs => table_ok T live i rs /\ (forall grp, r = Ok grp -> table_exists i = true /\ group_ready mss grp i)));
    [|by intros e i rs [H _]|by intros i rs [H _]|].
  { intros i h r i' h' [Ht He] Hr. eapply triple_ensure_group; [|exact Hr]. by split; [|apply He]. }
  intros grp i h r i' h' [Ht Hg] Hrun. destruct (Hg grp eq_refl) as (He & Hlook & Hc & Hcn & Hsn).
  assert (Hw : at_work live (groups i) (fun _ => True) i (rules h)) by done. clear Ht. destruct (names_ok pid mss) as (Hn & _ & Hs).
  rewrite Hsn in Hrun. revert Hrun.
  eapply (triple_step _ _ _ _ _ _ _ (has_elem T (set_name (new_group mss)) (elem_key ifname)) _
           (fun r i rs => table_ok T (match r with Ok g => g :: live | _ => live end) i rs /\ (forall g, r = Ok g -> g = {| g_ifname := ifname; g_mss := mss |})));
    [by apply builds_add_elem|done|apply lasting_true|intros rs _ Hx; by apply Hx|by intros [] i1 rs Hr Ht; [destruct (Hr a)| |]| |exact Hw].
  intros i1 h1 r1 i1' h1' (Ht & Hx & He1 & Hgs). unfold mbind, g_bind, run_m, lift. cbn beta iota.
  destruct (incr (refcount grp)) as [n|e|]; [|by intros [= <- <- <-]|by intros [= <- <- <-]].
  intros [= <- <- <-]. split; [|by intros g [= <-]]. rewrite <- Hgs in Hlook. pose proof Ht as ((_ & _ & H3) & _).
  assert (Hok : table_ok T live (with_groups (<[mss := with_refcount n grp]> (groups i1)) i1) (rules h1)).
  { apply groups_insert_ok; [done|done|by apply (H3 mss grp)|done]. }
  destruct Hok as [Hin Hl]. split; [done|]. constructor; [|done]. split; [done|]. destruct Hx as (k & xs & Hk & Hxs & Hin').
  exists (with_refcount n grp), k, xs. cbn [g_mss g_ifname groups with_groups with_refcount kernel_created set_name]. rewrite lookup_insert_eq, Hsn. by split_and!.
Qed.

(** Removing one element leaves the other guards in place. *)
Lemma del_elem_ok live i rs rs' g :
  u16 (g_mss g) -> Forall (apart g) live -> table_ok T live i rs ->
  exec (DelElem T (set_name (new_group (g_mss g))) (elem_key (g_ifname g))) rs = Some rs' -> table_ok T live i rs'.
Proof using Type.
  intros Hm Ha ((H1 & H2 & H3) & Hl). cbn [exec]. destruct (rs !! T) as [k|] eqn:Hk; [|done]. cbn [mbind option_bind].
  set (sn := set_name (new_group (g_mss g))). destruct (sets k !! sn) as [xs|] eqn:Hs; [|done]. cbn [mbind option_bind].
  case_decide; [|done]. intros [= <-]. set (k' := with_set sn (xs ∖ {[elem_key (g_ifname g)]}) k).
  assert (Hk' : forall s ys, sets k !! s = Some ys -> exists ys', sets k' !! s = Some ys' /\ (s <> sn -> ys' = ys) /\
    (s = sn -> ys' = ys ∖ {[elem_key (g_ifname g)]})).
  { intros s ys Hy. subst k'. cbn [with_set sets]. destruct (decide (sn = s)) as [<-|].
    - rewrite lookup_insert_eq. rewrite Hs in Hy. injection Hy as <-. eexists. by split_and!.
    - rewrite lookup_insert_ne by done. exists ys. by split_and!. }
  split.
  - split_and!; [done|done|]. intros mss grp Hgrp. destruct (H3 _ _ Hgrp) as (Hc & Hn & Hin). split_and!; [done|done|].
    intros Hcr. destruct (Hin Hcr) as (k0 & Hk0 & ys & body & Hy & Hb & Hba & Hr1 & Hr2). rewrite Hk in Hk0. injection Hk0 as <-.
    exists k'. rewrite lookup_insert_eq. split; [done|]. destruct (Hk' _ _ Hy) as (ys' & Hy' & _). exists ys', body. by split_and!.
  - apply Forall_forall. intros g' Hg'. pose proof (proj1 (Forall_forall _ _) Ha _ Hg') as Hap.
    destruct (proj1 (Forall_forall _ _) Hl _ Hg') as [Hm' (grp & k0 & ys & Hgrp & Hcr & Hk0 & Hy & Hx)]. split; [done|].
    rewrite Hk in Hk0. injection Hk0 as <-. destruct (Hk' _ _ Hy) as (ys' & Hy' & Hne & Heq). exists grp, k', ys'. rewrite lookup_insert_eq.
    split_and!; [done|done|done|done|]. destruct (decide (set_name grp = sn)) as [He|Hn]; [|by rewrite Hne].
    rewrite (Heq He). apply elem_of_difference. split; [done|]. rewrite not_elem_of_singleton. intros Hkey. destruct Hap as [Hap|Hap]; [|by destruct Hap].
    apply Hap. destruct (H3 _ _ Hgrp) as (_ & Hn & _). rewrite Hn in He. by apply set_name_inj.
Qed.

Lemma triple_remove g live :
  u16 (g_mss g) -> Forall (apart g) live ->
  triple (table_ok T live) (SharedMssHandle_drop fuel pid g) (fun _ => table_ok T live).
Proof using os_ok fuel_ok.
  intros Hm Ha. unfold SharedMssHandle_drop, remove. destruct (existsb (Z.eqb 0) (g_ifname g)); [by apply triple_ret|].
  eapply triple_bind; [apply triple_attempt, triple_open|by intros|by intros|]. intros [sock|e]; [|by apply triple_ret]. apply triple_scoped.
  apply triple_get. intros i0. destruct (groups i0 !! g_mss g) as [grp|] eqn:Eg; [|apply triple_ret; by intros i rs [_ H]].
  intros i h r i' h' [-> Ht]. pose proof Ht as ((Hst & _ & H3) & _). destruct (H3 _ _ Eg) as (Hcn & Hsn & _). rewrite Hsn.
  destruct (names_ok pid (g_mss g)) as (Hn & _ & Hs). pose proof (builds_del_elem (E := SharedMssError) T Hn _ (g_ifname g) Hs) as Hb.
  unfold mbind, g_bind, attempt_g. destruct (transact fuel sock "del-set-elem" _ i0 h) as [[r1 i1] h1] eqn:Etr.
  destruct (transact_ok _ _ _ _ _ _ _ _ _ Hb Hst Etr) as ((st & Hst' & ->) & Ho).
  assert (Ht1 : table_ok T live (with_statics st i0) (rules h1)).
  { apply table_ok_statics; [done|]. destruct Ho as [[_ He]|[_ [->|He]]]; [|done|]; by eapply del_elem_ok. }
  destruct (table_exists i0) eqn:Ete.
  2: { destruct (table_missing _ _ _ Ht Ete) as (_ & _ & _ & Hg). by rewrite Hg, lookup_empty in Eg. }
  assert (Hfin : table_ok T live (with_groups (<[g_mss g := with_refcount (saturating_sub (refcount grp) 1) grp]> (groups (with_statics st i0))) (with_statics st i0)) (rules h1)).
  { apply groups_insert_ok; [done|done|by apply (proj2 (proj2 (proj1 Ht1)) (g_mss g) grp)|]. cbn [groups with_statics]. rewrite Eg. by intros old [= <-]. }
  destruct r1 as [[]|e|]; intros [= <- <- <-]; [exact Hfin|exact Hfin|exact Ht1].
Qed.

Lemma triple_destroy : triple (table_ok T []) (destroy fuel pid) (fun _ => table_ok T []).
Proof using os_ok fuel_ok.
  unfold destroy. apply triple_get. intros i0. destruct (table_exists i0) eqn:Et; [|apply triple_ret; by intros i rs [_ H]]. cbn [negb].
  eapply (triple_bind _ _ _ (fun _ i rs => i = i0 /\ table_ok T [] i rs)); [apply triple_attempt, triple_open|by intros e i rs [_ H]|by intros i rs [_ H]|].
  intros [sock|e]; [|apply triple_ret; by intros i rs [_ H]]. apply triple_scoped. intros i h r i' h' [-> Ht].
  pose proof Ht as ((Hst & _) & _). destruct (names_ok pid 0) as [Hn _]. pose proof (builds_del_table (E := SharedMssError) T Hn) as Hb.
  unfold mbind, g_bind, attempt_g. destruct (transact fuel sock "destroy-table" _ i0 h) as [[r1 i1] h1] eqn:Etr.
  destruct (transact_ok _ _ _ _ _ _ _ _ _ Hb Hst Etr) as ((st & Hst' & ->) & Ho).
  assert (Hfin : table_ok T [] (with_groups ∅ (with_table false (with_statics st i0))) (rules h1)) by (apply no_table_ok; by split_and!).
  destruct Ho as [[-> _]|[(e & -> & _) _]]; intros [= <- <- <-]; exact Hfin.
Qed.

(** ** The table in use *)

Definition guard_key (g : SharedMssGuard) : Z * bytes := (g_mss g, elem_key (g_ifname g)).

(** The table's state, the calls so far and the guards the sessions hold. *)
Abbreviation mss_state := (Inner * history * list SharedMssGuard)%type.

(** One call of a method, under the table's lock, or a call some other part of the program makes.  A session
    adds an interface of its own, and the table is destroyed after the last session. *)
Inductive mss_step : mss_state -> mss_state -> Prop :=
| Step_add ifname mss i h live r i' h' :
    u16 mss -> guard_key {| g_ifname := ifname; g_mss := mss |} ∉ map guard_key live ->
    add fuel pid ifname mss i h = (r, i', h') ->
    mss_step (i, h, live) (i', h', match r with Ok g => g :: live | _ => live end)
| Step_drop g live live' i h r i' h' :
    live ≡ₚ g :: live' -> SharedMssHandle_drop fuel pid g i h = (r, i', h') -> mss_step (i, h, live) (i', h', live')
| Step_destroy i h r i' h' : destroy fuel pid i h = (r, i', h') -> mss_step (i, h, []) (i', h', [])
| Step_other c i h live : (forall fd b, c = Sys_sendto fd b -> decode_batch b = None) -> mss_step (i, h, live) (i, (c, answer h c) :: h, live).

Inductive mss_reachable : mss_state -> Prop :=
| Mss_start h : mss_reachable (SharedMssTable_new, h, [])
| Mss_next s s' : mss_reachable s -> mss_step s s' -> mss_reachable s'.

Definition mss_inv (s : mss_state) : Prop :=
  let '(i, h, live) := s in table_ok T live i (rules h) /\ NoDup (map guard_key live).

Lemma apart_fresh g live : guard_key g ∉ map guard_key live -> Forall (apart g) live.
Proof using Type.
  intros Hn. apply Forall_forall. intros g' Hg'. unfold apart. destruct (decide (g_mss g = g_mss g')) as [He|]; [|by left]. right. intros Hk.
  apply Hn, list_elem_of_fmap. exists g'. split; [|done]. unfold guard_key. by rewrite He, Hk.
Qed.

Lemma rules_other c r h : (forall fd b, c = Sys_sendto fd b -> decode_batch b = None) -> rules ((c, r) :: h) = rules h.
Proof using Type.
  intros Hc. unfold rules. cbn [ruleset_of]. destruct c; try done. destruct r; [|done]. by rewrite (Hc _ _ eq_refl).
Qed.

Lemma mss_step_inv s s' : mss_inv s -> mss_step s s' -> mss_inv s'.
Proof using os_ok fuel_ok.
  intros Hi Hs. destruct Hs as [ifname mss i h live r i' h' Hm Hk Hr|g live live' i h r i' h' Hp Hr|i h r i' h' Hr|c i h live Hc]; destruct Hi as [Ht Hn].
  - destruct (triple_add _ _ live Hm _ _ _ _ _ Ht Hr) as [Ht' Hg]. split; [done|]. destruct r as [g| |]; [|done..].
    rewrite (Hg g eq_refl). cbn [map]. by constructor.
  - assert (Ht' : table_ok T (g :: live') i (rules h)) by (destruct Ht as [? Hl]; split; [done|by rewrite <- Hp]).
    rewrite Hp in Hn. cbn [map] in Hn. apply NoDup_cons in Hn as [Hg Hn]. split; [|done]. destruct Ht' as [Hi Hl]. inversion Hl as [|? ? [Hm _] Hl']; subst.
    eapply triple_remove; [done|by apply apart_fresh|by split|done].
  - split; [|done]. by eapply triple_destroy.
  - split; [|done]. by rewrite rules_other.
Qed.

Lemma mss_reachable_inv s : mss_reachable s -> mss_inv s.
Proof using os_ok fuel_ok.
  induction 1 as [h|s s' _ IH Hs]; [|by eapply mss_step_inv]. split; [|constructor]. apply no_table_ok. by split_and!.
Qed.

(** What the kernel does to a segment on the forward hook: the chain's rules, until one sets the MSS. *)
Definition sets_of (k : ktable) (s : bytes) : gset bytes := default ∅ (sets k !! s).

Definition mss_written (k : ktable) (seg : segment) (mss : Z) : Prop :=
  exists name c rule, chains k !! name = Some c /\ base c = forward_base /\ rule ∈ rules_of c /\ run_rule (sets_of k) seg (fun _ => []) rule = Some mss.

(** C28: In every run of the shared MSS table, whatever calls fail and whatever replies get lost, the
    interface of every guard a session holds is clamped: the kernel's table has a chain on the forward
    hook with a rule that writes the guard's MSS into every TCP segment with SYN and without RST that
    comes from or goes to the interface. *)
Theorem mss_clamps_in_place i h live g seg :
  mss_reachable (i, h, live) -> g ∈ live -> iif seg = g_ifname g \/ oif seg = g_ifname g ->
  l4proto seg = IPPROTO_TCP -> Z.land (tcp_flags seg) 0x06 = 0x02 ->
  exists k, rules h !! T = Some k /\ mss_written k seg (g_mss g).
Proof using os_ok fuel_ok.
  intros Hreach Hg Hif Htcp Hsyn. destruct (mss_reachable_inv _ Hreach) as [((_ & _ & H3) & Hl) _].
  destruct (proj1 (Forall_forall _ _) Hl _ Hg) as [Hm (grp & k & xs & Hgrp & Hc & Hk & Hx & Hin)]. exists k. split; [done|].
  destruct (H3 _ _ Hgrp) as (_ & _ & Hcr). destruct (Hcr Hc) as (k' & Hk' & ys & c & _ & Hch & Hba & Hr1 & Hr2). rewrite Hk in Hk'. injection Hk' as <-.
  assert (Hs : elem_key (g_ifname g) ∈ sets_of k (set_name grp)) by (unfold sets_of; by rewrite Hx).
  assert (Ht : (l4proto seg =? IPPROTO_TCP) && (Z.land (tcp_flags seg) 0x06 =? 0x02) = true) by (rewrite Htcp, Hsyn; done).
  destruct Hif as [Hi|Ho]; [exists (chain_name grp), c, (clamp_rule (set_name grp) true (g_mss g))|exists (chain_name grp), c, (clamp_rule (set_name grp) false (g_mss g))];
    (split_and!; [done|done|done|]); rewrite clamp_rule_meaning by done; cbn iota.
  - by rewrite Hi, decide_True, Ht by done.
  - by rewrite Ho, decide_True, Ht by done.
Qed.

(** *** A group that was not finished *)

(** The kernel has the set of the group, the table does not know it. *)
Definition half_built (mss : Z) (i : Inner) (rs : ruleset) : Prop :=
  statics_ok (statics i) /\ table_exists i = true /\
  (forall grp, groups i !! mss = Some grp -> kernel_created grp = false /\ set_name grp = set_name (new_group mss)) /\
  has_set T (set_name (new_group mss)) rs.

Lemma set_exists_refused s rs : has_set T s rs -> exec (NewSet T s) rs = None.
Proof using Type. intros (k & xs & Hk & Hs). cbn [exec]. rewrite Hk. cbn [mbind option_bind]. by rewrite Hs. Qed.

Lemma triple_ensure_group_half sock mss :
  triple (half_built mss) (ensure_group fuel pid sock mss) (fun r i rs => (exists e, r = Err e) /\ half_built mss i rs).
Proof using os_ok fuel_ok.
  unfold ensure_group. apply triple_get. intros i0 i h r i' h' [-> (Hst & Ht & Hg & Hs)].
  assert (Hgrp : kernel_created (default (new_group mss) (groups i0 !! mss)) = false /\
                 set_name (default (new_group mss) (groups i0 !! mss)) = set_name (new_group mss)).
  { destruct (groups i0 !! mss) as [grp|] eqn:E; [by apply Hg|done]. }
  set (grp := default _ _) in *. destruct Hgrp as [Hc Hn]. cbn zeta. rewrite Hc, Hn. destruct (names_ok pid mss) as (HT & _ & Hsn).
  unfold modify, mbind, g_bind. cbn beta iota. set (i1 := with_groups _ i0).
  destruct (transact fuel sock "create-set" _ i1 h) as [[r1 i2] h1] eqn:Etr.
  destruct (transact_ok _ _ _ _ _ _ _ _ _ (builds_new_set T HT _ Hsn) (Hst : statics_ok (statics i1)) Etr) as ((st & Hst' & ->) & Ho).
  pose proof (set_exists_refused _ _ Hs) as Hno. destruct Ho as [[_ He]|[(e & -> & _) [Hr|He]]]; [congruence| |congruence].
  intros [= <- <- <-]. split; [by eexists|]. rewrite Hr. split_and!; [done|done| |done]. intros g0. subst i1. cbn [with_statics with_groups groups].
  rewrite lookup_insert_eq. by intros [= <-].
Qed.

Lemma triple_add_half ifname mss :
  triple (half_built mss) (add fuel pid ifname mss) (fun r i rs => (exists e, r = Err e) /\ half_built mss i rs).
Proof using os_ok fuel_ok.
  unfold add. destruct (existsb (Z.eqb 0) ifname); [intros i h r i' h' H [= <- <- <-]; split; [by eexists|done]|].
  eapply triple_bind; [apply triple_open_total|intros e i rs [H _]; split; [by eexists|done]|intros i rs [_ Hp]; by destruct Hp|]. intros sock. apply triple_scoped.
  eapply (triple_bind _ _ _ (fun r i rs => r = Ok tt /\ half_built mss i rs)); [|by intros e i rs [? _]|by intros i rs [? _]|].
  { intros i h r i' h' [Hh _]. unfold ensure_table, get, mbind, g_bind. cbn beta iota. rewrite (proj1 (proj2 Hh)). by intros [= <- <- <-]. }
  intros []. eapply triple_bind; [eapply triple_weaken; [apply (triple_ensure_group_half sock mss)|by intros i rs [_ H]|intros r i rs H; exact H]| | |].
  - intros e i rs [_ H]. split; [by eexists|done].
  - by intros i rs [[e ?] _].
  - by intros grp i h r i' h' [[e ?] _].
Qed.

(** When creating a group broke off after its set was made, the table does not recover: every later [add]
    with that MSS fails, because the set is made exclusively and is there already, and leaves the table in
    the same state. *)
Theorem half_built_group_never_usable ifname mss i h r i' h' :
  half_built mss i (rules h) -> add fuel pid ifname mss i h = (r, i', h') ->
  (exists e, r = Err e) /\ half_built mss i' (rules h').
Proof using os_ok fuel_ok. intros Hh Hr. by eapply triple_add_half. Qed.
End Table.

(** ** A kernel *)

Module NftDemo.
Import NetDemo.

Section Kernel.
(** What the kernel is short of memory for. *)
Context (refuse : history -> nft_op -> bool).

Fixpoint current (h : history) : ruleset :=
  match h with
  | [] => ∅
  | (Sys_sendto _ b, Ret _ _ _) :: h =>
      match decode_batch b with
      | Some (_, op) => if refuse h op then current h else default (current h) (exec op (current h))
      | None => current h
      end
  | _ :: h => current h
  end.

Definition judged (h : history) (op : nft_op) : Z :=
  if refuse h op then 12
  else match exec op (current h) with
       | Some _ => 0
       | None => match op with DelTable _ | DelElem _ _ _ => 2 | _ => 17 end
       end.

Definition nft_machine : Os := fun h c =>
  match c, h with
  | Sys_recv fd cap, (Sys_sendto fd' b, _) :: h' =>
      match decode_batch b with
      | Some (sq, op) =>
          let out := verdict_reply sq (judged h' op) (zeros 16) in
          if (fd =? fd') && (len out <=? cap) then Ret (len out) [] out else Fail 11
      | None => machine true h c
      end
  | _, _ => machine true h c
  end.

Lemma current_ruleset h : ruleset_of ∅ judged h = current h.
Proof.
  induction h as [|[c r] h IH]; [done|]. cbn [ruleset_of current]. rewrite IH. destruct c; try done. destruct r; [|done].
  destruct (decode_batch b) as [[sq op]|]; [|done]. unfold judged. destruct (refuse h op); [done|].
  destruct (exec op (current h)); [done|]. by destruct op.
Qed.

#[export] Instance nft_machine_kernel : NftKernel nft_machine.
Proof.
  refine {| initial := ∅; verdict := judged |}.
  - intros h op. rewrite current_ruleset. unfold judged. destruct (refuse h op); [done|]. destruct (exec op (current h)); [by eexists|]. by destruct op.
  - intros h op. unfold judged. destruct (refuse h op); [lia|]. destruct (exec op (current h)); [lia|]. destruct op; lia.
  - intros h fd b sq op n ints out _ [= <- <- <-]. done.
  - intros h fd b sq op r n ints out Hd. unfold answer, nft_machine. rewrite Hd. destruct (_ && _); [|done]. intros [= <- <- <-]. by exists (zeros 16).
Defined.

#[export] Instance nft_machine_ok : OsOk nft_machine.
Proof.
  split.
  - intros h c fd. assert (Hc : opened_by (c, nft_machine h c) = opened_by (c, machine true h c)).
    { unfold nft_machine. by destruct c, h as [|[[] ?] ?]. }
    unfold answer. rewrite Hc. apply (fresh_fd (os := machine true)).
  - intros h fd cap n ints out. unfold answer, nft_machine. pose proof (recv_bound (os := machine true) h fd cap n ints out) as Hm. unfold answer in Hm.
    destruct h as [|[[] r] h]; try exact Hm. destruct (decode_batch b) as [[sq op]|]; [|exact Hm].
    destruct (_ && _) eqn:E; [|done]. apply andb_true_iff in E as [_ E]. apply Z.leb_le in E. intros [= <- _ _]. split; [apply Nat2Z.is_nonneg|exact E].
  - intros h fd cap. exact (read_bound (os := machine true) h fd cap).
  - exact (ifindex_bound (os := machine true)).
Defined.
End Kernel.

(** A call of [add] and its effect on the guards. *)
Definition adding {os : Os} (ifname : bytes) (mss : Z) (s : Inner * history * list SharedMssGuard) : Inner * history * list SharedMssGuard :=
  let '(i, h, live) := s in
  let '(r, i', h') := add (bp := true) 1 4711 ifname mss i h in
  (i', h', match r with Ok g => g :: live | _ => live end).

Definition dropping {os : Os} (g : SharedMssGuard) (live : list SharedMssGuard) (s : Inner * history * list SharedMssGuard) : Inner * history * list SharedMssGuard :=
  let '(i, h, _) := s in
  let '(r, i', h') := SharedMssHandle_drop (bp := true) 1 4711 g i h in (i', h', live).

Abbreviation obliging := (nft_machine (fun _ _ => false)).
Abbreviation two_sessions := (adding (os := obliging) (lit "ppp1") 1360 (adding (os := obliging) (lit "ppp0") 1360 (SharedMssTable_new, [], []))).
Abbreviation ppp0 := {| g_ifname := lit "ppp0"; g_mss := 1360 |}.
Abbreviation ppp1 := {| g_ifname := lit "ppp1"; g_mss := 1360 |}.

Lemma two_sessions_up : two_sessions.2 = [ppp1; ppp0].
Proof. vm_compute. reflexivity. Qed.

Lemma adding_step ifname mss s :
  u16 mss -> guard_key {| g_ifname := ifname; g_mss := mss |} ∉ map guard_key s.2 ->
  mss_step (os := obliging) (bp := true) 1 4711 s (adding (os := obliging) ifname mss s).
Proof.
  destruct s as [[i h] live]. intros Hm Hk. unfold adding. destruct (add 1 4711 ifname mss i h) as [[r i'] h'] eqn:E. by eapply Step_add.
Qed.

Lemma dropping_step g live s :
  s.2 ≡ₚ g :: live -> mss_step (os := obliging) (bp := true) 1 4711 s (dropping (os := obliging) g live s).
Proof.
  destruct s as [[i h] live']. intros Hp. unfold dropping. destruct (SharedMssHandle_drop 1 4711 g i h) as [[r i'] h'] eqn:E. by eapply Step_drop.
Qed.

Lemma dropping_live {os : Os} g live s : (dropping g live s).2 = live.
Proof. unfold dropping. destruct s as [[i h] l]. by destruct (SharedMssHandle_drop 1 4711 g i h) as [[r i'] h']. Qed.

Abbreviation one_session := (adding (os := obliging) (lit "ppp0") 1360 (SharedMssTable_new, [], [])).
Abbreviation one_left := (dropping (os := obliging) ppp0 [ppp1] two_sessions).

Lemma one_left_reachable : mss_reachable (os := obliging) (bp := true) 1 4711 one_left.
Proof.
  assert (H0 : one_session.2 = [ppp0]) by (vm_compute; reflexivity).
  assert (H1 : mss_reachable (os := obliging) (bp := true) 1 4711 one_session).
  { eapply Mss_next; [apply Mss_start|]. apply adding_step; [split; done|]. apply not_elem_of_nil. }
  assert (H2 : mss_reachable (os := obliging) (bp := true) 1 4711 two_sessions).
  { eapply Mss_next; [exact H1|]. apply adding_step; [split; done|]. rewrite H0. apply not_elem_of_cons. split; [|apply not_elem_of_nil].
    vm_compute. discriminate. }
  eapply Mss_next; [exact H2|]. apply dropping_step. rewrite two_sessions_up. apply Permutation_swap.
Qed.

(** After one of two sessions has ended, a SYN to the other one is still clamped. *)
Lemma mss_clamps_in_place_witness :
  exists k, ruleset_of (initial (os := obliging)) (verdict (os := obliging)) one_left.1.2 !! TABLE_NAME 4711 = Some k /\
    mss_written k {| iif := lit "eth0"; oif := lit "ppp1"; l4proto := IPPROTO_TCP; tcp_flags := 0x02 |} 1360.
Proof.
  pose proof one_left_reachable as Hs. pose proof (dropping_live (os := obliging) ppp0 [ppp1] two_sessions) as Hl.
  destruct one_left as [[i h] live]. cbn [fst snd] in *. subst live.
  apply (mss_clamps_in_place (os := obliging) (bp := true) 1 4711 Nat.lt_0_1 i h [ppp1] ppp1 {| iif := lit "eth0"; oif := lit "ppp1"; l4proto := IPPROTO_TCP; tcp_flags := 0x02 |} Hs).
  - apply list_elem_of_here.
  - right. reflexivity.
  - reflexivity.
  - reflexivity.
Defined.

(** A kernel that has no memory for the first chain. *)
Definition no_chain_yet (h : history) : bool :=
  forallb (fun s => match decode_batch s.2 with Some (_, NewChain _ _ _ _ _ _) => false | _ => true end) (sends h).

Abbreviation short := (nft_machine (fun h op => match op with NewChain _ _ _ _ _ _ => no_chain_yet h | _ => false end)).
Abbreviation first_try := (add (os := short) (bp := true) 1 4711 (lit "ppp0") 1360 SharedMssTable_new []).
Abbreviation second_try := (add (os := short) (bp := true) 1 4711 (lit "ppp1") 1360 first_try.1.2 first_try.2).

Lemma half_built_group_never_usable_witness :
  first_try.1.1 = Err (NfKernel "create-chain" 12) /\ exists e, second_try.1.1 = Err e.
Proof.
  split; [vm_compute; reflexivity|].
  assert (Hh : half_built 4711 1360 first_try.1.2 (ruleset_of (initial (os := short)) (verdict (os := short)) first_try.2)).
  { split_and!; [vm_compute; split; split; first [discriminate|reflexivity]|vm_compute; reflexivity| |].
    - assert (Hg : groups first_try.1.2 !! 1360 = Some (new_group 1360)) by (vm_compute; reflexivity). rewrite Hg. intros grp [= <-]. split; reflexivity.
    - eexists _, _. split; vm_compute; reflexivity. }
  destruct second_try as [[r i'] h'] eqn:E.
  destruct (half_built_group_never_usable (os := short) (bp := true) 1 4711 ltac:(lia) _ _ _ _ _ _ _ Hh E) as [He _]. exact He.
Defined.
End NftDemo.
