(* ===== verification/Tls.v ===== *)
(** * TLS: [src/src/crypto/tls.rs] and [src/src/crypto/ktls.rs]

    The server context, the handshake and the byte stream over libssl, and the hand-over of a connection
    to the kernel's TLS.  libssl is the operating system's sibling: its functions are calls of [Os] whose
    answers are a parameter.  Error messages are kept up to their constant part. *)

From stdpp Require Import strings gmap.
From S2P Require Import Prelude RustText RustStd Crypto Os Netlink.

(** ** [ktls.rs]: structures of the kernel *)

Definition SOL_TCP : Z := 6.
Definition SOL_TLS : Z := 282.
Definition TCP_ULP : Z := 31.
Definition TLS_TX : Z := 1.
Definition TLS_RX : Z := 2.

Definition TLS_1_2_VERSION : Z := 0x0303.
Definition TLS_1_3_VERSION : Z := 0x0304.
Definition TLS_CIPHER_AES_GCM_128 : Z := 51.
Definition TLS_CIPHER_AES_GCM_256 : Z := 52.
Definition TLS_CIPHER_CHACHA20_POLY1305 : Z := 54.

Record TlsCryptoInfo := { version : Z; cipher_type : Z }.

(** [TlsCryptoInfoAesGcm128], [TlsCryptoInfoAesGcm256] and [TlsCryptoInfoChacha20Poly1305] have the same
    fields in the same order and differ in the widths of [iv], [key] and [salt]. *)
Record TlsCryptoInfoAead := { info : TlsCryptoInfo; iv : bytes; key : bytes; salt : bytes; rec_seq : bytes }.

#[export] Instance tls_crypto_info_repr : Repr TlsCryptoInfo := fun i => to_ne 2 (version i) ++ to_ne 2 (cipher_type i).
#[export] Instance tls_crypto_info_aead_repr : Repr TlsCryptoInfoAead := fun c =>
  bytes_of (info c) ++ iv c ++ key c ++ salt c ++ rec_seq c.

Section Ktls.
Context {os : Os}.

Definition set_ulp_tls (fd : Z) : M io_error () := _ ← checked (Sys_setsockopt fd SOL_TCP TCP_ULP (lit "tls")); mret tt.

Definition set_crypto_info (fd direction : Z) (c : TlsCryptoInfoAead) : M io_error () :=
  _ ← checked (Sys_setsockopt fd SOL_TLS direction (bytes_of c)); mret tt.

Definition install_aes_gcm_128 (fd : Z) (tx rx : TlsCryptoInfoAead) : M io_error () :=
  _ ← set_ulp_tls fd; _ ← set_crypto_info fd TLS_TX tx; set_crypto_info fd TLS_RX rx.

Definition install_aes_gcm_256 (fd : Z) (tx rx : TlsCryptoInfoAead) : M io_error () :=
  _ ← set_ulp_tls fd; _ ← set_crypto_info fd TLS_TX tx; set_crypto_info fd TLS_RX rx.

Definition install_chacha20_poly1305 (fd : Z) (tx rx : TlsCryptoInfoAead) : M io_error () :=
  _ ← set_ulp_tls fd; _ ← set_crypto_info fd TLS_TX tx; set_crypto_info fd TLS_RX rx.
End Ktls.

(** ** Key derivation *)

Section Hkdf.
Context {lib : AwsLc} {E : Type}.

(** The encoded [HkdfLabel], with an empty context *)
Definition hkdf_info (label : bytes) (length : Z) : res E bytes :=
  let full_label := lit "tls13 " ++ label in
  if len full_label <=? 255 then Ok (to_be16 length ++ [len full_label] ++ full_label ++ [0]) else Panic.

Definition hkdf_expand_label_sha256 (secret label : bytes) (length : Z) : res E bytes :=
  if length <=? 32 then
    info ← hkdf_info label length;
    let h := hmac_new Sha256 secret in
    let h := hmac_update h info in
    let h := hmac_update h [0x01] in
    slice (hmac_finish h) 0 length
  else Panic.

Definition hkdf_expand_label_sha384 (secret label : bytes) (length : Z) : res E bytes :=
  if length <=? 48 then
    info ← hkdf_info label length;
    let h := hmac_new Sha384 secret in
    let h := hmac_update h info in
    let h := hmac_update h [0x01] in
    slice (hmac_finish h) 0 length
  else Panic.

(** [u64::to_be_bytes] *)
Definition to_be64 (v : Z) : bytes := rev (to_ne 8 v).

(** [out.copy_from_slice(src)] into an array of [n] bytes *)
Definition filled (n : Z) (src : bytes) : res E bytes := copy_slice (zeros n) 0 n src.

Definition build_aes_gcm_128 (v : Z) (k s i : bytes) (seq : Z) : res E TlsCryptoInfoAead :=
  k ← filled 16 k; s ← filled 4 s; i ← filled 8 i;
  Ok {| info := {| version := v; cipher_type := TLS_CIPHER_AES_GCM_128 |}; iv := i; key := k; salt := s; rec_seq := to_be64 seq |}.

Definition build_aes_gcm_256 (v : Z) (k s i : bytes) (seq : Z) : res E TlsCryptoInfoAead :=
  k ← filled 32 k; s ← filled 4 s; i ← filled 8 i;
  Ok {| info := {| version := v; cipher_type := TLS_CIPHER_AES_GCM_256 |}; iv := i; key := k; salt := s; rec_seq := to_be64 seq |}.

Definition build_chacha20_poly1305 (v : Z) (k i : bytes) (seq : Z) : res E TlsCryptoInfoAead :=
  k ← filled 32 k; i ← filled 12 i;
  Ok {| info := {| version := v; cipher_type := TLS_CIPHER_CHACHA20_POLY1305 |}; iv := i; key := k; salt := []; rec_seq := to_be64 seq |}.
End Hkdf.

(** ** [tls.rs]: errors and names *)

Inductive TlsError :=
| Init (what : string)
| Io (e : io_error)
| Handshake (what : string)
| BufferedData (n : Z).

Inductive Direction := Write | Read.

Record KtlsEligibility := { compatible : bool; tls_version : bytes; cipher : bytes }.

Definition KtlsEligibility_unknown : KtlsEligibility := {| compatible := false; tls_version := lit "unknown"; cipher := lit "unknown" |}.

Definition one_of (names : list string) (x : bytes) : bool := existsb (fun n => bytes_eqb x (lit n)) names.

Definition KTLS_CIPHERS : list string :=
  [ "TLS_AES_128_GCM_SHA256"; "TLS_AES_256_GCM_SHA384"; "TLS_CHACHA20_POLY1305_SHA256";
    "ECDHE-RSA-AES128-GCM-SHA256"; "ECDHE-RSA-AES256-GCM-SHA384"; "ECDHE-RSA-CHACHA20-POLY1305";
    "ECDHE-ECDSA-AES128-GCM-SHA256"; "ECDHE-ECDSA-AES256-GCM-SHA384"; "ECDHE-ECDSA-CHACHA20-POLY1305";
    "AES128-GCM-SHA256"; "AES256-GCM-SHA384" ]%string.

Definition SSL_KEY_UPDATE_REQUESTED : Z := 1.
Definition SSL_KEY_UPDATE_NOT_REQUESTED : Z := 0.

(** ** The connection *)

(** A [TlsStream]: the descriptor of its socket.  The [SSL] object is the connection the [Ssl] calls are
    about. *)
Record TlsStream := { fd : Z }.

Section Stream.
Context {os : Os} {lib : AwsLc}.

(** A call of libssl: its return value, integers and bytes; nothing for a null pointer *)
Definition ssl {E} (c : sslcall) : M E (option (Z * list Z * bytes)) :=
  r ← sys (Ssl c); mret (match r with Ret rc ints out => Some (rc, ints, out) | Fail _ => None end).

Definition ssl_rc {E} (c : sslcall) : M E Z := r ← ssl c; mret (match r with Some (rc, _, _) => rc | None => 0 end).

(** [CStr::from_ptr(..).to_string_lossy()] *)
Definition ssl_name {E} (c : sslcall) (null : bytes) : M E bytes :=
  r ← ssl c; mret (match r with Some (_, _, s) => from_utf8_lossy s | None => null end).

Definition ktls_eligibility {E} (s : TlsStream) : M E KtlsEligibility :=
  c ← ssl SSL_get_current_cipher;
  match c with
  | None => mret KtlsEligibility_unknown
  | Some _ =>
      cipher_name ← ssl_name SSL_CIPHER_get_name [];
      version_name ← ssl_name SSL_get_version (lit "unknown");
      mret {| compatible := one_of ["TLSv1.2"; "TLSv1.3"]%string version_name && one_of KTLS_CIPHERS cipher_name;
              tls_version := version_name; cipher := cipher_name |}
  end.

Definition request_key_update (s : TlsStream) (request_peer : bool) : M TlsError () :=
  rc ← ssl_rc (SSL_key_update (if request_peer then SSL_KEY_UPDATE_REQUESTED else SSL_KEY_UPDATE_NOT_REQUESTED));
  if rc =? 1 then mret tt else throw (Io OtherError).

(** The secret is written to the front of a buffer of 48 bytes; [got] is its length. *)
Definition tls13_traffic_secret (s : TlsStream) (dir : Direction) (expected_len : Z) : M TlsError bytes :=
  r ← ssl (match dir with Write => SSL_get_write_traffic_secret | Read => SSL_get_read_traffic_secret end);
  match r with
  | Some (rc, ints, out) =>
      let got := hd 48 ints in
      if negb (rc =? 1) || negb (got =? expected_len) then throw (Init "SSL_get_traffic_secret") else mret (take (Z.to_nat got) (take 48 (out ++ zeros 48)))
  | None => throw (Init "SSL_get_traffic_secret")
  end.

Definition sequences : M TlsError (Z * Z) :=
  w ← ssl_rc SSL_get_write_sequence; r ← ssl_rc SSL_get_read_sequence; mret (w, r).

(** [SSL_generate_key_block] into a block of [n] bytes *)
Definition key_block (n : Z) : M TlsError bytes :=
  r ← ssl (SSL_generate_key_block n);
  match r with
  | Some (rc, _, out) => if negb (rc =? 1) then throw (Init "SSL_generate_key_block") else lift (filled n out)
  | None => throw (Init "SSL_generate_key_block")
  end.

Definition derive_tls13_aes128_gcm (s : TlsStream) : M TlsError (TlsCryptoInfoAead * TlsCryptoInfoAead) :=
  write_secret ← tls13_traffic_secret s Write 32;
  read_secret ← tls13_traffic_secret s Read 32;
  write_key ← lift (hkdf_expand_label_sha256 write_secret (lit "key") 16);
  write_iv ← lift (hkdf_expand_label_sha256 write_secret (lit "iv") 12);
  read_key ← lift (hkdf_expand_label_sha256 read_secret (lit "key") 16);
  read_iv ← lift (hkdf_expand_label_sha256 read_secret (lit "iv") 12);
  '(write_seq, read_seq) ← sequences;
  ws ← lift (slice write_iv 0 4); wi ← lift (slice write_iv 4 12);
  tx ← lift (build_aes_gcm_128 TLS_1_3_VERSION write_key ws wi write_seq);
  rs ← lift (slice read_iv 0 4); ri ← lift (slice read_iv 4 12);
  rx ← lift (build_aes_gcm_128 TLS_1_3_VERSION read_key rs ri read_seq);
  mret (tx, rx).

Definition derive_tls12_aes128_gcm (s : TlsStream) : M TlsError (TlsCryptoInfoAead * TlsCryptoInfoAead) :=
  block ← key_block 40;
  client_key ← lift (slice block 0 16); server_key ← lift (slice block 16 32);
  client_salt ← lift (slice block 32 36); server_salt ← lift (slice block 36 40);
  '(write_seq, read_seq) ← sequences;
  tx ← lift (build_aes_gcm_128 TLS_1_2_VERSION server_key server_salt (to_be64 write_seq) write_seq);
  rx ← lift (build_aes_gcm_128 TLS_1_2_VERSION client_key client_salt (to_be64 read_seq) read_seq);
  mret (tx, rx).

Definition derive_tls13_aes256_gcm (s : TlsStream) : M TlsError (TlsCryptoInfoAead * TlsCryptoInfoAead) :=
  write_secret ← tls13_traffic_secret s Write 48;
  read_secret ← tls13_traffic_secret s Read 48;
  write_key ← lift (hkdf_expand_label_sha384 write_secret (lit "key") 32);
  write_iv ← lift (hkdf_expand_label_sha384 write_secret (lit "iv") 12);
  read_key ← lift (hkdf_expand_label_sha384 read_secret (lit "key") 32);
  read_iv ← lift (hkdf_expand_label_sha384 read_secret (lit "iv") 12);
  '(write_seq, read_seq) ← sequences;
  ws ← lift (slice write_iv 0 4); wi ← lift (slice write_iv 4 12);
  tx ← lift (build_aes_gcm_256 TLS_1_3_VERSION write_key ws wi write_seq);
  rs ← lift (slice read_iv 0 4); ri ← lift (slice read_iv 4 12);
  rx ← lift (build_aes_gcm_256 TLS_1_3_VERSION read_key rs ri read_seq);
  mret (tx, rx).

Definition derive_tls12_aes256_gcm (s : TlsStream) : M TlsError (TlsCryptoInfoAead * TlsCryptoInfoAead) :=
  block ← key_block 72;
  client_key ← lift (slice block 0 32); server_key ← lift (slice block 32 64);
  client_salt ← lift (slice block 64 68); server_salt ← lift (slice block 68 72);
  '(write_seq, read_seq) ← sequences;
  tx ← lift (build_aes_gcm_256 TLS_1_2_VERSION server_key server_salt (to_be64 write_seq) write_seq);
  rx ← lift (build_aes_gcm_256 TLS_1_2_VERSION client_key client_salt (to_be64 read_seq) read_seq);
  mret (tx, rx).

Definition derive_tls13_chacha20_poly1305 (s : TlsStream) : M TlsError (TlsCryptoInfoAead * TlsCryptoInfoAead) :=
  write_secret ← tls13_traffic_secret s Write 32;
  read_secret ← tls13_traffic_secret s Read 32;
  write_key ← lift (hkdf_expand_label_sha256 write_secret (lit "key") 32);
  write_iv ← lift (hkdf_expand_label_sha256 write_secret (lit "iv") 12);
  read_key ← lift (hkdf_expand_label_sha256 read_secret (lit "key") 32);
  read_iv ← lift (hkdf_expand_label_sha256 read_secret (lit "iv") 12);
  '(write_seq, read_seq) ← sequences;
  tx ← lift (build_chacha20_poly1305 TLS_1_3_VERSION write_key write_iv write_seq);
  rx ← lift (build_chacha20_poly1305 TLS_1_3_VERSION read_key read_iv read_seq);
  mret (tx, rx).

Definition derive_tls12_chacha20_poly1305 (s : TlsStream) : M TlsError (TlsCryptoInfoAead * TlsCryptoInfoAead) :=
  block ← key_block 88;
  client_key ← lift (slice block 0 32); server_key ← lift (slice block 32 64);
  client_iv ← lift (slice block 64 76); server_iv ← lift (slice block 76 88);
  '(write_seq, read_seq) ← sequences;
  tx ← lift (build_chacha20_poly1305 TLS_1_2_VERSION server_key server_iv write_seq);
  rx ← lift (build_chacha20_poly1305 TLS_1_2_VERSION client_key client_iv read_seq);
  mret (tx, rx).

(** *** The hand-over *)

Inductive ktls_suite := Aes128Gcm | Aes256Gcm | Chacha20Poly1305.

(** The match on the names of the version and the cipher *)
Definition suite_of (version_name cipher_name : bytes) : option (bool * ktls_suite) :=
  if bytes_eqb version_name (lit "TLSv1.3") && bytes_eqb cipher_name (lit "TLS_AES_128_GCM_SHA256") then Some (true, Aes128Gcm)
  else if bytes_eqb version_name (lit "TLSv1.2") &&
          one_of ["ECDHE-RSA-AES128-GCM-SHA256"; "ECDHE-ECDSA-AES128-GCM-SHA256"; "AES128-GCM-SHA256"]%string cipher_name then Some (false, Aes128Gcm)
  else if bytes_eqb version_name (lit "TLSv1.3") && bytes_eqb cipher_name (lit "TLS_AES_256_GCM_SHA384") then Some (true, Aes256Gcm)
  else if bytes_eqb version_name (lit "TLSv1.2") &&
          one_of ["ECDHE-RSA-AES256-GCM-SHA384"; "ECDHE-ECDSA-AES256-GCM-SHA384"; "AES256-GCM-SHA384"]%string cipher_name then Some (false, Aes256Gcm)
  else if bytes_eqb version_name (lit "TLSv1.3") && bytes_eqb cipher_name (lit "TLS_CHACHA20_POLY1305_SHA256") then Some (true, Chacha20Poly1305)
  else if bytes_eqb version_name (lit "TLSv1.2") &&
          one_of ["ECDHE-RSA-CHACHA20-POLY1305"; "ECDHE-ECDSA-CHACHA20-POLY1305"]%string cipher_name then Some (false, Chacha20Poly1305)
  else None.

Definition derive (s : TlsStream) (suite : bool * ktls_suite) : M TlsError (TlsCryptoInfoAead * TlsCryptoInfoAead) :=
  match suite with
  | (true, Aes128Gcm) => derive_tls13_aes128_gcm s
  | (false, Aes128Gcm) => derive_tls12_aes128_gcm s
  | (true, Aes256Gcm) => derive_tls13_aes256_gcm s
  | (false, Aes256Gcm) => derive_tls12_aes256_gcm s
  | (true, Chacha20Poly1305) => derive_tls13_chacha20_poly1305 s
  | (false, Chacha20Poly1305) => derive_tls12_chacha20_poly1305 s
  end.

Definition install (s : TlsStream) (suite : ktls_suite) (tx rx : TlsCryptoInfoAead) : M io_error () :=
  match suite with
  | Aes128Gcm => install_aes_gcm_128 (fd s) tx rx
  | Aes256Gcm => install_aes_gcm_256 (fd s) tx rx
  | Chacha20Poly1305 => install_chacha20_poly1305 (fd s) tx rx
  end.

Definition install_ktls (s : TlsStream) : M TlsError () :=
  has_pending ← ssl_rc SSL_has_pending;
  if negb (has_pending =? 0) then
    pending ← ssl_rc SSL_pending;
    throw (BufferedData (Z.max 0 pending))
  else
    c ← ssl SSL_get_current_cipher;
    match c with
    | None => throw (Init "no cipher negotiated")
    | Some _ =>
        cipher_name ← ssl_name SSL_CIPHER_get_name [];
        version_name ← ssl_name SSL_get_version [];
        match suite_of version_name cipher_name with
        | None => throw (Init "kTLS unsupported")
        | Some suite =>
            '(tx, rx) ← derive s suite;
            on_err (fun _ => Init "kTLS setsockopt") (install s suite.2 tx rx)
        end
    end.
End Stream.

(** ** The server context *)

Definition TLS1_2_VERSION : Z := 771.
Definition SSL_FILETYPE_PEM : Z := 1.
Definition SSL_SESS_CACHE_OFF : Z := 0.
Definition SSL_OP_NO_TICKET : Z := 0x4000.

Definition TLS12_CIPHERS : bytes :=
  lit ("ECDHE-ECDSA-AES128-GCM-SHA256:ECDHE-ECDSA-AES256-GCM-SHA384:" ++
       "ECDHE-RSA-AES128-GCM-SHA256:ECDHE-RSA-AES256-GCM-SHA384:" ++
       "ECDHE-ECDSA-CHACHA20-POLY1305:ECDHE-RSA-CHACHA20-POLY1305:" ++
       "AES128-GCM-SHA256:AES256-GCM-SHA384").

(** The one-shot digests of AWS-LC *)
Class Digests := { SHA1 : bytes -> bytes; SHA256 : bytes -> bytes }.

Record SslContext := { cert_hash_sha1 : bytes; cert_hash_sha256 : bytes }.

Definition path_to_cstring (p : bytes) : res TlsError bytes :=
  match from_utf8 p with
  | None => Err (Init "non-UTF-8 path")
  | Some p => if existsb (Z.eqb 0) p then Err (Init "path contains NUL") else Ok p
  end.

Section Context.
Context {os : Os} {digests : Digests}.

(** [if rc != 1 { return Err(TlsError::Init(..)) }] *)
Definition must (c : sslcall) (what : string) : M TlsError () := rc ← ssl_rc c; if rc =? 1 then mret tt else throw (Init what).

(** The owner of a libssl object frees it when the rest of its scope fails. *)
Definition freed_on_error {A} (free : sslcall) (m : M TlsError A) : M TlsError A := fun h =>
  match m h with
  | (Ok a, h) => (Ok a, h)
  | (r, h) => (r, (ssl (E := TlsError) free h).2)
  end.

Definition leaf_cert_der : M TlsError bytes :=
  x509 ← ssl SSL_CTX_get0_certificate;
  match x509 with
  | None => throw (Init "SSL_CTX_get0_certificate returned null")
  | Some _ =>
      len ← ssl_rc I2d_X509_length;
      if len <=? 0 then throw (Init "i2d_X509 length probe failed")
      else
        r ← ssl I2d_X509;
        match r with
        | Some (written, _, out) => if negb (written =? len) then throw (Init "i2d_X509 wrote") else mret (take (Z.to_nat len) (out ++ zeros len))
        | None => throw (Init "i2d_X509 wrote")
        end
  end.

Definition leaf_cert_hash_sha256 : M TlsError bytes := der ← leaf_cert_der; mret (SHA256 der).
Definition leaf_cert_hash_sha1 : M TlsError bytes := der ← leaf_cert_der; mret (SHA1 der).

Definition server_from_pem (cert key : bytes) (aead_only : bool) : M TlsError SslContext :=
  ctx ← ssl SSL_CTX_new;
  match ctx with
  | None => throw (Init "SSL_CTX_new returned null")
  | Some _ =>
      freed_on_error SSL_CTX_free
        (_ ← must (SSL_CTX_set_min_proto_version TLS1_2_VERSION) "SSL_CTX_set_min_proto_version failed";
         _ ← (if aead_only then must (SSL_CTX_set_cipher_list TLS12_CIPHERS) "SSL_CTX_set_cipher_list (TLS 1.2 AEAD-only)" else mret tt);
         cert_c ← lift (path_to_cstring cert);
         key_c ← lift (path_to_cstring key);
         _ ← must (SSL_CTX_use_certificate_chain_file cert_c) "loading certificate chain";
         _ ← must (SSL_CTX_use_PrivateKey_file key_c SSL_FILETYPE_PEM) "loading private key";
         _ ← must SSL_CTX_check_private_key "private key does not match certificate";
         _ ← ssl (SSL_CTX_set_session_cache_mode SSL_SESS_CACHE_OFF);
         _ ← must (SSL_CTX_set_num_tickets 0) "SSL_CTX_set_num_tickets(0)";
         _ ← ssl (SSL_CTX_set_options SSL_OP_NO_TICKET);
         _ ← ssl SSL_CTX_set_alpn_select_cb;
         sha256 ← leaf_cert_hash_sha256;
         sha1 ← leaf_cert_hash_sha1;
         mret {| cert_hash_sha1 := sha1; cert_hash_sha256 := sha256 |})
  end.
End Context.

(** ** The byte stream *)

Definition SSL_ERROR_WANT_READ : Z := 2.
Definition SSL_ERROR_WANT_WRITE : Z := 3.
Definition SSL_ERROR_ZERO_RETURN : Z := 6.

Definition I32_MAX : Z := 2147483647.

(** The outcome of a poll: the task waits, or goes on with a result *)
Inductive Poll (A : Type) := Pending | Ready (r : A + io_error).
Arguments Pending {A}.
Arguments Ready {A} r.

Section Io.
Context {os : Os}.

(** [ready!(fd.poll_*_ready_mut(cx))?.clear_ready()], and go on once the socket is ready *)
Definition when_ready {E A} (write : bool) (k : M E (option (Poll A))) : M E (option (Poll A)) :=
  r ← sys (Sys_ready write);
  match r with
  | Ret rc _ _ => if rc =? 0 then mret (Some Pending) else k
  | Fail e => mret (Some (Ready (inr (OsError e))))
  end.

Definition ssl_io_err : io_error := OtherError.

(** The loops repeat while libssl asks for a direction and the socket gets ready for it; [fuel] bounds the
    rounds, and the result is [None] when they do not suffice. *)
Fixpoint handshake (fuel : nat) : M TlsError (option ()) :=
  match fuel with
  | O => mret None
  | S fuel =>
      r ← ssl_rc SSL_do_handshake;
      if r =? 1 then mret (Some tt)
      else
        e ← ssl_rc (SSL_get_error r);
        if (e =? SSL_ERROR_WANT_READ) || (e =? SSL_ERROR_WANT_WRITE) then
          w ← sys (Sys_ready (e =? SSL_ERROR_WANT_WRITE));
          match w with Ret _ _ _ => handshake fuel | Fail e => throw (Io (OsError e)) end
        else throw (Handshake "SSL_do_handshake")
  end.

Definition accept (fuel : nat) (tcp_fd : Z) : M TlsError (option TlsStream) :=
  s ← ssl SSL_new;
  match s with
  | None => throw (Handshake "SSL_new returned null")
  | Some _ =>
      freed_on_error SSL_free
        (rc ← ssl_rc (SSL_set_fd tcp_fd);
         if negb (rc =? 1) then throw (Handshake "SSL_set_fd failed")
         else
           _ ← ssl SSL_set_accept_state;
           r ← handshake fuel;
           mret (option_map (fun _ => {| fd := tcp_fd |}) r))
  end.

(** The bytes read, none at the end of the stream; [room] is the rest of the buffer. *)
Fixpoint poll_read (fuel : nat) (room : Z) : M TlsError (option (Poll bytes)) :=
  match fuel with
  | O => mret None
  | S fuel =>
      r ← ssl (SSL_read (Z.min room I32_MAX));
      let '(n, data) := match r with Some (n, _, data) => (n, data) | None => (0, []) end in
      if 0 <? n then mret (Some (Ready (inl (take (Z.to_nat n) data))))
      else
        e ← ssl_rc (SSL_get_error n);
        if e =? SSL_ERROR_ZERO_RETURN then mret (Some (Ready (inl [])))
        else if e =? SSL_ERROR_WANT_READ then when_ready false (poll_read fuel room)
        else if e =? SSL_ERROR_WANT_WRITE then when_ready true (poll_read fuel room)
        else mret (Some (Ready (inr ssl_io_err)))
  end.

(** The number of bytes taken; libssl is only called when the socket is ready to be written. *)
Fixpoint write_loop (fuel : nat) (data : bytes) : M TlsError (option (Poll Z)) :=
  match fuel with
  | O => mret None
  | S fuel =>
      when_ready true
        (n ← ssl_rc (SSL_write (take (Z.to_nat I32_MAX) data));
         if 0 <? n then mret (Some (Ready (inl n)))
         else
           e ← ssl_rc (SSL_get_error n);
           if e =? SSL_ERROR_WANT_WRITE then write_loop fuel data
           else if e =? SSL_ERROR_WANT_READ then when_ready false (write_loop fuel data)
           else mret (Some (Ready (inr ssl_io_err))))
  end.

Definition poll_write (fuel : nat) (data : bytes) : M TlsError (option (Poll Z)) :=
  if len data =? 0 then mret (Some (Ready (inl 0))) else write_loop fuel data.

Definition poll_flush : M TlsError (option (Poll ())) := mret (Some (Ready (inl tt))).

Fixpoint poll_shutdown (fuel : nat) : M TlsError (option (Poll ())) :=
  match fuel with
  | O => mret None
  | S fuel =>
      r ← ssl_rc SSL_shutdown;
      if 0 <=? r then mret (Some (Ready (inl tt)))
      else
        e ← ssl_rc (SSL_get_error r);
        if e =? SSL_ERROR_WANT_READ then when_ready false (poll_shutdown fuel)
        else if e =? SSL_ERROR_WANT_WRITE then when_ready true (poll_shutdown fuel)
        else mret (Some (Ready (inr ssl_io_err)))
  end.
End Io.

(** ** ALPN *)

Definition ALPN_HTTP_1_1 : bytes := 8 :: lit "http/1.1".
Definition OPENSSL_NPN_NEGOTIATED : Z := 1.
Definition SSL_TLSEXT_ERR_OK : Z := 0.
Definition SSL_TLSEXT_ERR_NOACK : Z := 3.

(** [SSL_select_next_proto] of AWS-LC takes the client's list and the server's and gives a status and a
    protocol. *)
Definition alpn_select_cb (SSL_select_next_proto : bytes -> bytes -> Z * bytes) (offered : bytes) : Z * option bytes :=
  let '(rc, chosen) := SSL_select_next_proto offered ALPN_HTTP_1_1 in
  if rc =? OPENSSL_NPN_NEGOTIATED then (SSL_TLSEXT_ERR_OK, Some chosen) else (SSL_TLSEXT_ERR_NOACK, None).
