(* ===== verification/TlsProps.v ===== *)
(** * The hand-over to the kernel's TLS

    [HKDF_Expand_Label] and [record_nonce] are what the RFCs say about keys and nonces; [kernel_state] and
    [kernel_nonce] what the kernel makes of the structures it is given.  [Libssl] says what libssl documents
    of the accessors.  A connection handed over goes on where libssl stopped, with the same keys and the
    next nonces; and a hand-over that is refused because of buffered data has not touched the socket. *)

From stdpp Require Import strings gmap.
From S2P Require Import Prelude RustText RustStd Crypto Os Netlink NetlinkProps Tls.

(** ** HKDF (RFC 5869, RFC 8446 7.1) *)

Section Reference.
Context {lib : AwsLc}.

Fixpoint hkdf_blocks (md : Md) (prk info : bytes) (n : nat) (i : Z) (prev : bytes) : bytes :=
  match n with
  | O => []
  | S n => let t := HMAC md prk (prev ++ info ++ [i]) in t ++ hkdf_blocks md prk info n (i + 1) t
  end.

Definition HKDF_Expand (md : Md) (prk info : bytes) (L : Z) : bytes :=
  take (Z.to_nat L) (hkdf_blocks md prk info (Z.to_nat ((L + md_len md - 1) / md_len md)) 1 []).

Definition HkdfLabel (L : Z) (label ctx : bytes) : bytes :=
  let full := lit "tls13 " ++ label in to_be16 L ++ len full :: full ++ len ctx :: ctx.

Definition HKDF_Expand_Label (md : Md) (secret label ctx : bytes) (L : Z) : bytes :=
  HKDF_Expand md secret (HkdfLabel L label ctx) L.

Context {laws : AwsLcLaws lib}.

Lemma hkdf_one_block {E} md secret label L :
  0 < L <= md_len md -> len label <= 249 ->
  (info ← hkdf_info (E := E) label L;
   slice (hmac_finish (hmac_update (hmac_update (hmac_new md secret) info) [0x01])) 0 L) = Ok (HKDF_Expand_Label md secret label [] L).
Proof using laws.
  intros HL Hl. unfold hkdf_info. rewrite length_app. change (length (lit "tls13 ")) with 6%nat.
  replace (Z.of_nat (6 + length label) <=? 255) with true by lia. cbn [mbind res_bind].
  unfold HKDF_Expand_Label, HKDF_Expand. replace ((L + md_len md - 1) / md_len md) with 1 by (apply Z.div_unique with (L - 1); lia).
  change (Z.to_nat 1) with 1%nat. cbn [hkdf_blocks]. rewrite app_nil_r, app_nil_l.
  set (info := to_be16 L ++ _ ++ _ ++ [0]). unfold hmac_finish, hmac_update, hmac_new.
  replace (len info =? 0) with false by (subst info; rewrite length_app; cbn; lia). change (len [1] =? 0) with false. cbn iota.
  pose proof (HMAC_incremental md secret [info; [0x01]]) as Hi. cbn [fold_left concat] in Hi. rewrite app_nil_r in Hi. rewrite Hi.
  pose proof (HMAC_length md secret (info ++ [1])) as Hlen. unfold slice. rewrite Hlen.
  replace ((0 <=? 0) && (0 <=? L) && (L <=? md_len md)) with true by lia. f_equal. unfold sub. rewrite Z.sub_0_r, drop_0.
  unfold HkdfLabel. subst info. rewrite !length_app. cbn [app length]. done.
Qed.

Lemma hkdf_sha256_eq {E} secret label L :
  0 < L <= 32 -> len label <= 249 -> hkdf_expand_label_sha256 (E := E) secret label L = Ok (HKDF_Expand_Label Sha256 secret label [] L).
Proof using laws. intros HL Hl. unfold hkdf_expand_label_sha256. replace (L <=? 32) with true by lia. by apply (hkdf_one_block Sha256). Qed.

Lemma hkdf_sha384_eq {E} secret label L :
  0 < L <= 48 -> len label <= 249 -> hkdf_expand_label_sha384 (E := E) secret label L = Ok (HKDF_Expand_Label Sha384 secret label [] L).
Proof using laws. intros HL Hl. unfold hkdf_expand_label_sha384. replace (L <=? 48) with true by lia. by apply (hkdf_one_block Sha384). Qed.

Lemma hkdf_length md secret label L : 0 < L <= md_len md -> len (HKDF_Expand_Label md secret label [] L) = L.
Proof using laws.
  intros HL. unfold HKDF_Expand_Label, HKDF_Expand. replace ((L + md_len md - 1) / md_len md) with 1 by (apply Z.div_unique with (L - 1); lia).
  change (Z.to_nat 1) with 1%nat. cbn [hkdf_blocks]. rewrite app_nil_r, length_take.
  pose proof (HMAC_length md secret ([] ++ HkdfLabel L label [] ++ [1])). lia.
Qed.
End Reference.

(** ** Record protection *)

(** One direction of a connection: the key, the implicit part of the nonce, and the number of the next
    record. *)
Record direction_state := { d_tls13 : bool; d_suite : ktls_suite; d_key : bytes; d_iv : bytes; d_seq : Z }.

(** RFC 8446 5.3 and RFC 7905: the number is added to the static IV.  RFC 5288: the salt is followed by an
    explicit nonce, for which libssl takes the number of the record. *)
Definition explicit_nonce (tls13 : bool) (suite : ktls_suite) : bool :=
  match suite with Chacha20Poly1305 => false | _ => negb tls13 end.

Definition record_nonce (d : direction_state) (n : Z) : bytes :=
  if explicit_nonce (d_tls13 d) (d_suite d) then d_iv d ++ to_be64 n else zip_with Z.lxor (d_iv d) (zeros 4 ++ to_be64 n).

Definition suite_md (suite : ktls_suite) : Md := match suite with Aes256Gcm => Sha384 | _ => Sha256 end.
Definition suite_key_len (suite : ktls_suite) : Z := match suite with Aes128Gcm => 16 | _ => 32 end.
Definition suite_id (suite : ktls_suite) : Z :=
  match suite with Aes128Gcm => TLS_CIPHER_AES_GCM_128 | Aes256Gcm => TLS_CIPHER_AES_GCM_256 | Chacha20Poly1305 => TLS_CIPHER_CHACHA20_POLY1305 end.
(** The fixed part of the nonce in the key block (RFC 5288, RFC 7905) *)
Definition suite_iv_len (suite : ktls_suite) : Z := match suite with Chacha20Poly1305 => 12 | _ => 4 end.

(** RFC 8446 7.3: the traffic keys of a secret. *)
Definition tls13_direction {lib : AwsLc} (suite : ktls_suite) (secret : bytes) (n : Z) : direction_state :=
  {| d_tls13 := true; d_suite := suite; d_key := HKDF_Expand_Label (suite_md suite) secret (lit "key") [] (suite_key_len suite);
     d_iv := HKDF_Expand_Label (suite_md suite) secret (lit "iv") [] 12; d_seq := n |}.

(** RFC 5246 6.3: the client's key, the server's key, the client's IV, the server's IV; an AEAD cipher has
    no MAC keys. *)
Definition block_len (suite : ktls_suite) : Z := 2 * suite_key_len suite + 2 * suite_iv_len suite.

Definition tls12_direction (suite : ktls_suite) (block : bytes) (server : bool) (n : Z) : direction_state :=
  let k := suite_key_len suite in
  let v := suite_iv_len suite in
  {| d_tls13 := false; d_suite := suite;
     d_key := if server then sub block k (2 * k) else sub block 0 k;
     d_iv := if server then sub block (2 * k + v) (2 * k + 2 * v) else sub block (2 * k) (2 * k + v);
     d_seq := n |}.

(** ** What the kernel is given *)

(** The number in a big-endian field *)
Definition be_value (l : bytes) : Z := fold_left (fun acc b => acc * 256 + b) l 0.

(** [struct tls12_crypto_info_*] of <linux/tls.h> *)
Record kernel_info := { ki_version : Z; ki_cipher : Z; ki_iv : bytes; ki_key : bytes; ki_salt : bytes; ki_rec_seq : Z }.

Definition kernel_layout (c : Z) : option (Z * Z * Z) :=
  if c =? 51 then Some (8, 16, 4) else if c =? 52 then Some (8, 32, 4) else if c =? 54 then Some (12, 32, 0) else None.

Definition kernel_state (value : bytes) : option kernel_info :=
  '(vi, vk, vs) ← kernel_layout (of_ne (sub value 2 4));
  if len value =? 4 + vi + vk + vs + 8 then
    Some {| ki_version := of_ne (sub value 0 2); ki_cipher := of_ne (sub value 2 4); ki_iv := sub value 4 (4 + vi); ki_key := sub value (4 + vi) (4 + vi + vk);
            ki_salt := sub value (4 + vi + vk) (4 + vi + vk + vs); ki_rec_seq := be_value (sub value (4 + vi + vk + vs) (4 + vi + vk + vs + 8)) |}
  else None.

(** The nonce of the kernel's [k]-th record.  In TLS 1.2 with GCM the field [iv] is the explicit nonce, which
    is counted up; otherwise salt and [iv] are the static IV, to which the record number is added. *)
Definition kernel_nonce (i : kernel_info) (k : Z) : bytes :=
  if (ki_version i =? 0x0303) && negb (ki_cipher i =? 54) then ki_salt i ++ to_be64 (be_value (ki_iv i) + k)
  else zip_with Z.lxor (ki_salt i ++ ki_iv i) (zeros 4 ++ to_be64 (ki_rec_seq i + k)).

(** ** From libssl's state to the kernel's *)

Definition direction_ok (d : direction_state) : Prop :=
  len (d_key d) = suite_key_len (d_suite d) /\ len (d_iv d) = (if explicit_nonce (d_tls13 d) (d_suite d) then 4 else 12) /\ 0 <= d_seq d < 2 ^ 64.

Definition info_of (d : direction_state) : TlsCryptoInfoAead :=
  {| info := {| version := if d_tls13 d then TLS_1_3_VERSION else TLS_1_2_VERSION; cipher_type := suite_id (d_suite d) |};
     iv := match d_suite d with Chacha20Poly1305 => d_iv d | _ => if d_tls13 d then drop 4 (d_iv d) else to_be64 (d_seq d) end;
     key := d_key d;
     salt := match d_suite d with Chacha20Poly1305 => [] | _ => take 4 (d_iv d) end;
     rec_seq := to_be64 (d_seq d) |}.

Lemma len_to_be64 v : length (to_be64 v) = 8%nat.
Proof. unfold to_be64. by rewrite length_rev. Qed.

Lemma be_value_rev l : be_value (rev l) = foldr (fun b acc => acc * 256 + b) 0 l.
Proof. unfold be_value. rewrite <- fold_left_rev_right, rev_involutive. done. Qed.

Lemma be_value_to_be64 v : 0 <= v < 2 ^ 64 -> be_value (to_be64 v) = v.
Proof.
  intros Hv. unfold to_be64. rewrite be_value_rev.
  assert (Hn : forall n v, 0 <= v < 256 ^ Z.of_nat n -> foldr (fun b acc => acc * 256 + b) 0 (to_ne n v) = v).
  { clear v Hv. induction n as [|n IH]; intros v Hv; [cbn in *; lia|]. cbn [to_ne foldr].
    rewrite Nat2Z.inj_succ, Z.pow_succ_r in Hv by lia. rewrite IH by (split; [apply Z.div_pos; lia|apply Z.div_lt_upper_bound; lia]).
    pose proof (Z.div_mod v 256). lia. }
  apply Hn. change (256 ^ Z.of_nat 8) with (2 ^ 64). lia.
Qed.

(** The fields of a structure read back. *)
Lemma kernel_state_fields v c i k s q vi vk vs :
  kernel_layout c = Some (vi, vk, vs) -> 0 <= v < 65536 -> 0 <= c < 65536 -> len i = vi -> len k = vk -> len s = vs -> 0 <= q < 2 ^ 64 ->
  kernel_state (bytes_of {| info := {| version := v; cipher_type := c |}; iv := i; key := k; salt := s; rec_seq := to_be64 q |}) =
  Some {| ki_version := v; ki_cipher := c; ki_iv := i; ki_key := k; ki_salt := s; ki_rec_seq := q |}.
Proof.
  intros Hlay Hv Hc Hi Hk Hs Hq. unfold bytes_of, tls_crypto_info_aead_repr, bytes_of, tls_crypto_info_repr. cbn [info iv key salt rec_seq version cipher_type].
  rewrite <- !app_assoc. set (value := to_ne 2 v ++ _). pose proof (len_to_be64 q) as Hl8.
  assert (Hlen : len value = 4 + vi + vk + vs + 8) by (subst value; rewrite !length_app; cbn [length to_ne]; lia).
  assert (H0 : sub value 0 2 = to_ne 2 v) by (by apply sub_prefix).
  assert (H2 : sub value 2 4 = to_ne 2 c) by (by apply sub_app_mid).
  assert (Hvi : sub value 4 (4 + vi) = i).
  { subst value. rewrite (app_assoc (to_ne 2 v)). apply sub_app_mid; rewrite length_app; cbn [length to_ne]; lia. }
  assert (Hvk : sub value (4 + vi) (4 + vi + vk) = k).
  { subst value. rewrite (app_assoc (to_ne 2 v)), (app_assoc _ i). apply sub_app_mid; rewrite !length_app; cbn [length to_ne]; lia. }
  assert (Hvs : sub value (4 + vi + vk) (4 + vi + vk + vs) = s).
  { subst value. rewrite (app_assoc (to_ne 2 v)), (app_assoc _ i), (app_assoc _ k). apply sub_app_mid; rewrite !length_app; cbn [length to_ne]; lia. }
  assert (Hvq : sub value (4 + vi + vk + vs) (4 + vi + vk + vs + 8) = to_be64 q).
  { subst value. rewrite (app_assoc (to_ne 2 v)), (app_assoc _ i), (app_assoc _ k), (app_assoc _ s), <- (app_nil_r (to_be64 q)).
    apply sub_app_mid; rewrite !length_app; cbn [length to_ne]; lia. }
  unfold kernel_state. rewrite H2, of_to_ne_small by done. rewrite Hlay. cbn [mbind option_bind]. replace (len value =? _) with true by lia.
  rewrite H0, Hvi, Hvk, Hvs, Hvq, be_value_to_be64 by done. by rewrite of_to_ne_small.
Qed.

Lemma kernel_reads_info d :
  direction_ok d ->
  kernel_state (bytes_of (info_of d)) =
  Some {| ki_version := version (info (info_of d)); ki_cipher := cipher_type (info (info_of d)); ki_iv := iv (info_of d); ki_key := d_key d;
          ki_salt := salt (info_of d); ki_rec_seq := d_seq d |}.
Proof.
  intros (Hk & Hi & Hq). unfold info_of. pose proof (len_to_be64 (d_seq d)) as Hl8.
  destruct (d_suite d) eqn:Es, (d_tls13 d) eqn:Et; cbn [explicit_nonce negb suite_key_len] in *.
  all: erewrite kernel_state_fields; [reflexivity|reflexivity|done|done|..]; rewrite ?length_drop, ?length_take; try lia; try done.
Qed.

(** The kernel's nonces are those of libssl's next records. *)
Lemma kernel_nonce_next d k i :
  direction_ok d -> 0 <= k -> kernel_state (bytes_of (info_of d)) = Some i -> kernel_nonce i k = record_nonce d (d_seq d + k).
Proof.
  intros Hd Hk. rewrite kernel_reads_info by done. intros [= <-]. destruct Hd as (_ & Hi & Hq). unfold kernel_nonce, record_nonce, info_of.
  cbn [ki_version ki_cipher ki_iv ki_salt ki_rec_seq info version cipher_type iv salt].
  destruct (d_suite d), (d_tls13 d); cbn [explicit_nonce negb] in *.
  all: match goal with |- (if ?b then _ else _) = _ => let v := eval vm_compute in b in change b with v; cbn iota end.
  all: try (rewrite take_drop; done).
  all: try done.
  all: rewrite be_value_to_be64, take_ge by (done || lia); done.
Qed.

(** ** libssl *)

Definition secret_call (d : Direction) : sslcall := match d with Write => SSL_get_write_traffic_secret | Read => SSL_get_read_traffic_secret end.
Definition sequence_call (d : Direction) : sslcall := match d with Write => SSL_get_write_sequence | Read => SSL_get_read_sequence end.

(** The accessors of a connection after its handshake: they change nothing, and the functions that may fail
    give the secrets and the key block of the connection when they succeed. *)
Class Libssl (os : Os) := {
  conn_cipher : bytes;
  conn_version : bytes;
  secret : Direction -> bytes;
  block : Z -> bytes;
  sequence : Direction -> Z;
  cipher_answer : forall h, answer h (Ssl SSL_CIPHER_get_name) = Ret 1 [] conn_cipher;
  version_answer : forall h, answer h (Ssl SSL_get_version) = Ret 1 [] conn_version;
  names_text : from_utf8_lossy conn_cipher = conn_cipher /\ from_utf8_lossy conn_version = conn_version;
  secret_answer : forall h d ints out, answer h (Ssl (secret_call d)) = Ret 1 ints out -> ints = [len out] /\ out = secret d;
  block_answer : forall h n ints out, answer h (Ssl (SSL_generate_key_block n)) = Ret 1 ints out -> out = block n;
  block_length : forall n, 0 <= n -> len (block n) = n;
  sequence_answer : forall h d, answer h (Ssl (sequence_call d)) = Ret (sequence d) [] [];
  sequence_range : forall d, 0 <= sequence d < 2 ^ 64
}.

(** The options set on sockets, the first one first. *)
Fixpoint sockopts (h : history) : list (Z * Z * Z * bytes) :=
  match h with
  | [] => []
  | (Sys_setsockopt fd level name value, _) :: h => sockopts h ++ [(fd, level, name, value)]
  | _ :: h => sockopts h
  end.

(** The keys of the connection in one direction, by the RFCs *)
Definition connection_keys {os : Os} {libssl : Libssl os} {lib : AwsLc} (suite : bool * ktls_suite) (d : Direction) : direction_state :=
  if suite.1 then tls13_direction suite.2 (secret d) (sequence d)
  else tls12_direction suite.2 (block (block_len suite.2)) (match d with Write => true | Read => false end) (sequence d).

Lemma filled_eq {E} n src : len src = n -> filled (E := E) n src = Ok src.
Proof.
  intros <-. unfold filled, copy_slice. assert (Hz : len (zeros (len src)) = len src) by (unfold zeros; rewrite length_replicate; lia).
  rewrite Hz. replace ((0 <=? 0) && _ && _ && _) with true by lia. cbn [Z.to_nat]. rewrite take_0, drop_ge by lia. by rewrite app_nil_r.
Qed.

Section Install.
Context {os : Os} {libssl : Libssl os} {lib : AwsLc} {laws : AwsLcLaws lib}.

(** [m] gives a result with [P] or an initialisation error, and sets no option. *)
Definition gives {A : Type} (m : M TlsError A) (P : A -> Prop) : Prop :=
  forall h, exists h', sockopts h' = sockopts h /\ ((exists a, m h = (Ok a, h') /\ P a) \/ (exists e, m h = (Err (Init e), h'))).

Lemma gives_ret {A : Type} (a : A) (P : A -> Prop) : P a -> gives (mret a) P.
Proof using Type. intros Ha h. exists h. split; [done|]. left. by exists a. Qed.

Lemma gives_bind_lift {A B : Type} (r : res TlsError A) a (f : A -> M TlsError B) Q : r = Ok a -> gives (f a) Q -> gives (lift r ≫= f) Q.
Proof using Type. intros -> Hf. exact Hf. Qed.

Lemma gives_throw {A : Type} e (P : A -> Prop) : gives (throw (Init e)) P.
Proof using Type. intros h. exists h. split; [done|]. right. by exists e. Qed.

Lemma gives_bind {A B : Type} (m : M TlsError A) (f : A -> M TlsError B) P Q :
  gives m P -> (forall a, P a -> gives (f a) Q) -> gives (m ≫= f) Q.
Proof using Type.
  intros Hm Hf h. destruct (Hm h) as (h1 & H1 & [(a & Ha & HP)|(e & He)]).
  - destruct (Hf a HP h1) as (h2 & H2 & Hr). exists h2. rewrite bind_eq, Ha. by split; [congruence|].
  - exists h1. rewrite bind_eq, He. split; [done|]. right. by exists e.
Qed.

Lemma gives_secret s d n : n <= 48 -> gives (tls13_traffic_secret s d n) (fun x => x = secret d /\ len x = n).
Proof using Type.
  intros Hn h. unfold tls13_traffic_secret, ssl. m_run.
  replace (match d with Write => SSL_get_write_traffic_secret | Read => SSL_get_read_traffic_secret end) with (secret_call d) by done.
  set (c := secret_call d). exists ((Ssl c, answer h (Ssl c)) :: h). split; [done|]. destruct (answer h (Ssl c)) as [rc ints out|e] eqn:Ea; [|right; by eexists].
  destruct (Z.eqb_spec rc 1) as [->|]; [|right; by eexists]. destruct (secret_answer _ _ _ _ Ea) as [-> Ho]. cbn [hd negb orb].
  destruct (Z.eqb_spec (len out) n) as [Hl|]; [|right; by eexists]. left. cbn [negb orb]. exists (secret d). split; [|by subst out].
  do 2 f_equal. rewrite Ho. rewrite take_take, take_app_le by (rewrite <- Ho; lia). apply take_ge. rewrite <- Ho. lia.
Qed.

Lemma gives_block n : 0 <= n -> gives (key_block n) (fun x => x = block n).
Proof using Type.
  intros Hn h. unfold key_block, ssl. m_run. set (c := SSL_generate_key_block n). exists ((Ssl c, answer h (Ssl c)) :: h). split; [done|].
  destruct (answer h (Ssl c)) as [rc ints out|e] eqn:Ea; [|right; by eexists]. destruct (Z.eqb_spec rc 1) as [->|]; [|right; by eexists].
  pose proof (block_answer _ _ _ _ Ea) as ->. left. exists (block n). split; [|done]. cbn [negb]. pose proof (block_length n Hn) as Hl.
  by rewrite filled_eq.
Qed.

Lemma gives_sequences : gives sequences (fun x => x = (sequence Write, sequence Read)).
Proof using Type.
  intros h. unfold sequences, ssl_rc, ssl. m_run. rewrite (sequence_answer h Write). cbn beta iota.
  rewrite (sequence_answer _ Read). eexists. split; [|left; by eexists]. done.
Qed.

(** *** The structures *)

Lemma slice_part {E} l lo hi : 0 <= lo <= hi -> hi <= len l -> slice (E := E) l lo hi = Ok (sub l lo hi).
Proof using Type. intros. unfold slice. by replace (_ && _ && _) with true by lia. Qed.

Lemma split_iv l : len l = 12 -> sub l 0 4 = take 4 l /\ sub l 4 12 = drop 4 l.
Proof using Type. intros Hl. unfold sub. rewrite drop_0. split; [done|]. apply take_ge. rewrite length_drop. lia. Qed.

Lemma build_128_eq {E} v k sl i q :
  len k = 16 -> len sl = 4 -> len i = 8 ->
  build_aes_gcm_128 (E := E) v k sl i q =
  Ok {| info := {| version := v; cipher_type := TLS_CIPHER_AES_GCM_128 |}; iv := i; key := k; salt := sl; rec_seq := to_be64 q |}.
Proof using Type. intros. unfold build_aes_gcm_128. by rewrite !filled_eq. Qed.

Lemma build_256_eq {E} v k sl i q :
  len k = 32 -> len sl = 4 -> len i = 8 ->
  build_aes_gcm_256 (E := E) v k sl i q =
  Ok {| info := {| version := v; cipher_type := TLS_CIPHER_AES_GCM_256 |}; iv := i; key := k; salt := sl; rec_seq := to_be64 q |}.
Proof using Type. intros. unfold build_aes_gcm_256. by rewrite !filled_eq. Qed.

Lemma build_chacha_eq {E} v k i q :
  len k = 32 -> len i = 12 ->
  build_chacha20_poly1305 (E := E) v k i q =
  Ok {| info := {| version := v; cipher_type := TLS_CIPHER_CHACHA20_POLY1305 |}; iv := i; key := k; salt := []; rec_seq := to_be64 q |}.
Proof using Type. intros. unfold build_chacha20_poly1305. by rewrite !filled_eq. Qed.

Definition both_directions (suite : bool * ktls_suite) (x : TlsCryptoInfoAead * TlsCryptoInfoAead) : Prop :=
  x = (info_of (connection_keys suite Write), info_of (connection_keys suite Read)).

(** One step of a derivation whose value is known *)
Ltac lift_step eq := eapply gives_bind_lift; [eq|].
Ltac secret_step d n := eapply gives_bind; [apply (gives_secret _ d n); lia|]; intros ? [-> ?].
Ltac sequence_step := eapply gives_bind; [apply gives_sequences|]; intros ? ->.

Lemma derive_gives s suite : gives (derive s suite) (both_directions suite).
Proof using laws.
  assert (Hk : len (lit "key") <= 249) by done. assert (Hi : len (lit "iv") <= 249) by done.
  pose proof (fun md d l => hkdf_length md (secret d) l 12 ltac:(destruct md; split; done)) as H12.
  pose proof (fun md d l => hkdf_length md (secret d) l 16 ltac:(destruct md; split; done)) as H16.
  assert (H4 : forall md d l, len (take 4 (HKDF_Expand_Label md (secret d) l [] 12)) = 4) by (intros md d l; rewrite length_take; specialize (H12 md d l); lia).
  assert (H8 : forall md d l, len (drop 4 (HKDF_Expand_Label md (secret d) l [] 12)) = 8) by (intros md d l; rewrite length_drop; specialize (H12 md d l); lia).
  pose proof (fun n => block_length n) as Hb.
  destruct suite as [[] []]; cbn [derive].
  - unfold derive_tls13_aes128_gcm. secret_step Write 32. secret_step Read 32.
    do 4 (lift_step ltac:(apply hkdf_sha256_eq; (done || lia))). sequence_step.
    do 2 (lift_step ltac:(apply slice_part; rewrite ?H12; lia)). rewrite !(proj1 (split_iv _ (H12 _ _ _))), !(proj2 (split_iv _ (H12 _ _ _))).
    lift_step ltac:(apply build_128_eq; [apply H16|apply H4|apply H8]).
    do 2 (lift_step ltac:(apply slice_part; rewrite ?H12; lia)). rewrite !(proj1 (split_iv _ (H12 _ _ _))), !(proj2 (split_iv _ (H12 _ _ _))).
    lift_step ltac:(apply build_128_eq; [apply H16|apply H4|apply H8]).
    apply gives_ret. reflexivity.
  - unfold derive_tls13_aes256_gcm. secret_step Write 48. secret_step Read 48.
    do 4 (lift_step ltac:(apply hkdf_sha384_eq; (done || lia))). sequence_step.
    do 2 (lift_step ltac:(apply slice_part; rewrite ?H12; lia)). rewrite !(proj1 (split_iv _ (H12 _ _ _))), !(proj2 (split_iv _ (H12 _ _ _))).
    lift_step ltac:(apply build_256_eq; [by apply hkdf_length|apply H4|apply H8]).
    do 2 (lift_step ltac:(apply slice_part; rewrite ?H12; lia)). rewrite !(proj1 (split_iv _ (H12 _ _ _))), !(proj2 (split_iv _ (H12 _ _ _))).
    lift_step ltac:(apply build_256_eq; [by apply hkdf_length|apply H4|apply H8]).
    apply gives_ret. reflexivity.
  - unfold derive_tls13_chacha20_poly1305. secret_step Write 32. secret_step Read 32.
    do 4 (lift_step ltac:(apply hkdf_sha256_eq; (done || lia))). sequence_step.
    do 2 (lift_step ltac:(apply build_chacha_eq; [by apply hkdf_length|apply H12])).
    apply gives_ret. reflexivity.
  - unfold derive_tls12_aes128_gcm. eapply gives_bind; [by apply gives_block|]. intros ? ->. specialize (Hb 40 ltac:(lia)).
    do 4 (lift_step ltac:(apply slice_part; lia)). sequence_step.
    do 2 (lift_step ltac:(apply build_128_eq; [rewrite len_sub; lia|rewrite len_sub; lia|by rewrite len_to_be64])).
    apply gives_ret. unfold both_directions, info_of, connection_keys. cbn [fst snd tls12_direction d_suite d_tls13 d_key d_iv d_seq suite_key_len suite_iv_len block_len Z.mul Z.add Pos.mul Pos.add].
    f_equal; f_equal; symmetry; apply take_ge; apply Nat2Z.inj_le; rewrite len_sub; lia.
  - unfold derive_tls12_aes256_gcm. eapply gives_bind; [by apply gives_block|]. intros ? ->. specialize (Hb 72 ltac:(lia)).
    do 4 (lift_step ltac:(apply slice_part; lia)). sequence_step.
    do 2 (lift_step ltac:(apply build_256_eq; [rewrite len_sub; lia|rewrite len_sub; lia|by rewrite len_to_be64])).
    apply gives_ret. unfold both_directions, info_of, connection_keys. cbn [fst snd tls12_direction d_suite d_tls13 d_key d_iv d_seq suite_key_len suite_iv_len block_len Z.mul Z.add Pos.mul Pos.add].
    f_equal; f_equal; symmetry; apply take_ge; apply Nat2Z.inj_le; rewrite len_sub; lia.
  - unfold derive_tls12_chacha20_poly1305. eapply gives_bind; [by apply gives_block|]. intros ? ->. specialize (Hb 88 ltac:(lia)).
    do 4 (lift_step ltac:(apply slice_part; lia)). sequence_step.
    do 2 (lift_step ltac:(apply build_chacha_eq; rewrite len_sub; lia)).
    apply gives_ret. reflexivity.
Qed.

Lemma connection_keys_ok suite d : direction_ok (connection_keys suite d).
Proof using laws.
  pose proof (sequence_range d) as Hq. assert (Hb : len (block (block_len suite.2)) = block_len suite.2) by (apply block_length; by destruct suite as [? []]).
  destruct suite as [[] su]; unfold connection_keys; cbn [fst snd] in *.
  - unfold direction_ok, tls13_direction. cbn [d_key d_suite d_iv d_tls13 d_seq]. split_and!; [apply hkdf_length; by destruct su| |lia|lia].
    replace (explicit_nonce true su) with false by (by destruct su). apply hkdf_length. by destruct su.
  - unfold direction_ok, tls12_direction. cbn [d_key d_suite d_iv d_tls13 d_seq]. split_and!; [| |lia|lia].
    all: assert (Hl : block_len su = 2 * suite_key_len su + 2 * suite_iv_len su) by done; rewrite Hl in *; destruct su, d; cbn [suite_key_len suite_iv_len explicit_nonce negb] in *; rewrite len_sub; lia.
Qed.

(** *** The hand-over *)

Lemma ssl_run {E} c h :
  ssl (E := E) c h = (Ok (match answer h (Ssl c) with Ret rc ints out => Some (rc, ints, out) | Fail _ => None end), (Ssl c, answer h (Ssl c)) :: h).
Proof using Type. done. Qed.

Lemma ssl_rc_run {E} c h : ssl_rc (E := E) c h = (Ok (match answer h (Ssl c) with Ret rc _ _ => rc | Fail _ => 0 end), (Ssl c, answer h (Ssl c)) :: h).
Proof using Type. unfold ssl_rc. rewrite bind_eq, ssl_run. by destruct (answer h (Ssl c)). Qed.

Lemma ssl_name_run {E} c null h :
  ssl_name (E := E) c null h = (Ok (match answer h (Ssl c) with Ret _ _ out => from_utf8_lossy out | Fail _ => null end), (Ssl c, answer h (Ssl c)) :: h).
Proof using Type. unfold ssl_name. rewrite bind_eq, ssl_run. by destruct (answer h (Ssl c)). Qed.

(** The kernel is set up for a direction: it reads the right key, and its nonces are those of libssl's next
    records. *)
Definition continues (value : bytes) (d : direction_state) : Prop :=
  exists i, kernel_state value = Some i /\ ki_version i = (if d_tls13 d then TLS_1_3_VERSION else TLS_1_2_VERSION) /\
    ki_cipher i = suite_id (d_suite d) /\ ki_key i = d_key d /\ ki_rec_seq i = d_seq d /\
    forall k, 0 <= k -> kernel_nonce i k = record_nonce d (d_seq d + k).

Lemma info_continues d : direction_ok d -> continues (bytes_of (info_of d)) d.
Proof using Type.
  intros Hd. eexists. split; [by apply kernel_reads_info|]. split_and!; [done|done|done|done|]. intros k Hk. eapply kernel_nonce_next; [done|done|by apply kernel_reads_info].
Qed.

Lemma install_run s su tx rx h r h' :
  install s su tx rx h = (r, h') ->
  (r = Ok tt -> sockopts h' = sockopts h ++ [(fd s, SOL_TCP, TCP_ULP, lit "tls"); (fd s, SOL_TLS, TLS_TX, bytes_of tx); (fd s, SOL_TLS, TLS_RX, bytes_of rx)]) /\
  r <> Panic.
Proof using Type.
  assert (Heq : install s su tx rx = install_aes_gcm_128 (fd s) tx rx) by (by destruct su). rewrite Heq.
  unfold install_aes_gcm_128, set_ulp_tls, set_crypto_info. m_run.
  destruct (answer h _); [|by intros [= <- <-]]. cbn beta iota zeta. destruct (answer _ _); [|by intros [= <- <-]]. cbn beta iota zeta.
  destruct (answer _ _); [|by intros [= <- <-]]. cbn beta iota zeta. intros [= <- <-]. split; [|done]. intros _. cbn [sockopts]. by rewrite <- !app_assoc.
Qed.

(** The socket got the TLS protocol and the keys of both directions. *)
Definition handed_over (s : TlsStream) (h h' : history) : Prop :=
  exists suite tx rx, suite_of conn_version conn_cipher = Some suite /\
    sockopts h' = sockopts h ++ [(fd s, SOL_TCP, TCP_ULP, lit "tls"); (fd s, SOL_TLS, TLS_TX, tx); (fd s, SOL_TLS, TLS_RX, rx)] /\
    continues tx (connection_keys suite Write) /\ continues rx (connection_keys suite Read).

Lemma install_ktls_run s h r h' :
  install_ktls s h = (r, h') ->
  match r with
  | Ok _ => handed_over s h h'
  | Err (BufferedData _) => sockopts h' = sockopts h
  | Err _ => True
  | Panic => False
  end.
Proof using laws.
  unfold handed_over. destruct names_text as [Hc Hv]. unfold install_ktls. rewrite bind_eq, ssl_rc_run. destruct (negb _).
  { rewrite bind_eq, ssl_rc_run. by intros [= <- <-]. }
  set (h1 := (Ssl SSL_has_pending, answer h (Ssl SSL_has_pending)) :: h). assert (H1 : sockopts h1 = sockopts h) by done. clearbody h1. rewrite bind_eq, ssl_run.
  destruct (answer h1 (Ssl SSL_get_current_cipher)); [|by intros [= <- <-]]. rewrite bind_eq, ssl_name_run, cipher_answer, Hc, bind_eq, ssl_name_run, version_answer, Hv.
  destruct (suite_of conn_version conn_cipher) as [suite|]; [|by intros [= <- <-]].
  match goal with |- (_ ≫= _) ?h2 = _ -> _ => destruct (derive_gives s suite h2) as (h3 & H3 & [([tx rx] & Hd & Hb)|(e & Hd)]) end; rewrite bind_eq, Hd; [|by intros [= <- <-]].
  injection Hb as -> ->. rewrite on_err_eq. destruct (install s suite.2 _ _ h3) as [r1 h4] eqn:Ei. apply install_run in Ei as [Hok Hp].
  destruct r1 as [[]|e|]; intros [= <- <-]; [|done|done]. exists suite; eexists _, _. split; [done|]. split; [|split; apply info_continues, connection_keys_ok].
  rewrite (Hok eq_refl), H3. by rewrite <- H1.
Qed.

(** C30: A connection whose hand-over to the kernel succeeds goes on without a break: the socket gets the TLS
    protocol and then the keys for sending and receiving, and for both directions the kernel reads the
    key and the record number of the connection and makes, for every record to come, the nonce that libssl
    would have made next, in TLS 1.2 and 1.3 and for all three ciphers.  When libssl still holds data
    nothing is done to the socket, so that the connection can stay with libssl.  The hand-over never
    panics. *)
Theorem ktls_continues_the_connection s h r h' :
  install_ktls s h = (r, h') ->
  match r with
  | Ok _ =>
      exists suite tx rx, suite_of conn_version conn_cipher = Some suite /\
        sockopts h' = sockopts h ++ [(fd s, SOL_TCP, TCP_ULP, lit "tls"); (fd s, SOL_TLS, TLS_TX, tx); (fd s, SOL_TLS, TLS_RX, rx)] /\
        continues tx (connection_keys suite Write) /\ continues rx (connection_keys suite Read)
  | Err (BufferedData _) => sockopts h' = sockopts h
  | Err _ => True
  | Panic => False
  end.
Proof using laws. exact (install_ktls_run s h r h'). Qed.
End Install.

(** ** Who may be handed over *)

(** TLS 1.3 has cipher suites of its own, named TLS_ (RFC 8446, B.4). *)
Definition names_match (version_name cipher_name : bytes) : Prop :=
  bytes_eqb version_name (lit "TLSv1.3") = bytes_eqb (take 4 cipher_name) (lit "TLS_").

Definition ktls_names (v c : bytes) : bool := one_of ["TLSv1.2"; "TLSv1.3"]%string v && one_of KTLS_CIPHERS c.

Lemma one_of_In names x : one_of names x = true -> exists n, In n names /\ x = lit n.
Proof. unfold one_of. rewrite existsb_exists. intros (n & Hn & He). exists n. split; [done|]. by apply bool_decide_eq_true in He. Qed.

(** The two name lists agree. *)
Lemma eligible_iff_supported v c : names_match v c -> ktls_names v c = true <-> is_Some (suite_of v c).
Proof.
  intros Hm. split.
  - unfold ktls_names. rewrite andb_true_iff. intros [Hv Hc]. apply one_of_In in Hv as (nv & Hnv & ->). apply one_of_In in Hc as (nc & Hnc & ->).
    unfold KTLS_CIPHERS in Hnc. cbn [In] in Hnv, Hnc. unfold names_match in Hm. revert Hm.
    destruct Hnv as [<-|[<-|[]]]; repeat (destruct Hnc as [<-|Hnc]; [vm_compute; first [discriminate|by eexists]|]); done.
  - unfold suite_of, ktls_names. intros [su Hs].
    assert (Hsub : forall names, forallb (fun n => existsb (String.eqb n) KTLS_CIPHERS) names = true -> one_of names c = true -> one_of KTLS_CIPHERS c = true).
    { intros names Hn Hc. apply one_of_In in Hc as (n & Hin & ->). rewrite forallb_forall in Hn. specialize (Hn _ Hin). rewrite existsb_exists in Hn.
      destruct Hn as (m & Hm' & He). apply String.eqb_eq in He as ->. unfold one_of. rewrite existsb_exists. exists m. split; [done|]. by apply bool_decide_eq_true. }
    assert (Hv : one_of ["TLSv1.2"; "TLSv1.3"]%string v = bytes_eqb v (lit "TLSv1.2") || bytes_eqb v (lit "TLSv1.3")) by (unfold one_of; cbn [existsb]; by rewrite orb_false_r).
    rewrite Hv. assert (H1 : forall n, bytes_eqb c (lit n) = one_of [n] c) by (intros n; unfold one_of; cbn [existsb]; by rewrite orb_false_r). rewrite !H1 in Hs.
    destruct (bytes_eqb v (lit "TLSv1.3")), (bytes_eqb v (lit "TLSv1.2")); cbn [andb orb] in *; try discriminate.
    all: repeat match type of Hs with (if ?b then _ else _) = _ => destruct b eqn:?; [by eapply Hsub; [|eassumption]|] end; done.
Qed.

(** The ciphers the kernel-only server offers for TLS 1.2. *)
Fixpoint split_colon (l acc : bytes) : list bytes :=
  match l with
  | [] => [rev acc]
  | b :: l => if b =? 58 then rev acc :: split_colon l [] else split_colon l (b :: acc)
  end.

(** A session is called fit for the kernel exactly when the hand-over has a case for its cipher; and every
    cipher that a server restricted to the kernel data path accepts in TLS 1.2 is one of these. *)
Theorem eligible_sessions_supported {os : Os} s h e h' :
  ktls_eligibility (E := TlsError) s h = (Ok e, h') -> names_match (tls_version e) (cipher e) ->
  (compatible e = true <-> is_Some (suite_of (tls_version e) (cipher e))) /\
  Forall (fun c => is_Some (suite_of (lit "TLSv1.2") c)) (split_colon TLS12_CIPHERS []).
Proof.
  intros He Hm. split.
  2: { assert (Hall : forallb (fun c => bool_decide (is_Some (suite_of (lit "TLSv1.2") c))) (split_colon TLS12_CIPHERS []) = true) by (vm_compute; reflexivity).
       apply Forall_forall. intros c Hc. rewrite forallb_forall in Hall. apply list_elem_of_In in Hc. exact (proj1 (bool_decide_eq_true _) (Hall _ Hc)). }
  unfold ktls_eligibility in He. rewrite bind_eq, ssl_run in He. destruct (answer h _) as [? ? ?|?].
  - rewrite bind_eq, ssl_name_run, bind_eq, ssl_name_run in He. injection He as <- _. by apply eligible_iff_supported.
  - injection He as <- _. cbn [compatible tls_version cipher KtlsEligibility_unknown]. split; [done|]. vm_compute. by intros [? ?].
Qed.

(** ** The server context *)

(** The contexts that exist: created and not freed. *)
Fixpoint contexts (h : history) : Z :=
  match h with
  | [] => 0
  | (Ssl SSL_CTX_new, Ret _ _ _) :: h => contexts h + 1
  | (Ssl SSL_CTX_free, _) :: h => contexts h - 1
  | _ :: h => contexts h
  end.

(** What must have succeeded before a context is used, and what must have been asked for. *)
Definition required (cert key : bytes) (aead_only : bool) : list sslcall :=
  [SSL_CTX_set_min_proto_version TLS1_2_VERSION; SSL_CTX_use_certificate_chain_file cert; SSL_CTX_use_PrivateKey_file key SSL_FILETYPE_PEM;
   SSL_CTX_check_private_key; SSL_CTX_set_num_tickets 0] ++ (if aead_only then [SSL_CTX_set_cipher_list TLS12_CIPHERS] else []).
Definition requested : list sslcall := [SSL_CTX_set_session_cache_mode SSL_SESS_CACHE_OFF; SSL_CTX_set_options SSL_OP_NO_TICKET].

Definition succeeded (new : history) (c : sslcall) : Prop := exists ints out, (Ssl c, Ret 1 ints out) ∈ new.
Definition made (new : history) (c : sslcall) : Prop := exists r, (Ssl c, r) ∈ new.

Section ServerContext.
Context {os : Os} {digests : Digests}.

(** A computation over an existing context: what it has called, and what holds of its result *)
Definition does {A : Type} (m : M TlsError A) (P : A -> history -> Prop) : Prop :=
  forall h r h', m h = (r, h') -> contexts h' = contexts h /\ exists new, h' = new ++ h /\ match r with Ok a => P a new | Err _ => True | Panic => False end.

Lemma does_bind {A B : Type} (m : M TlsError A) (f : A -> M TlsError B) P Q :
  does m P -> (forall a n1, P a n1 -> does (f a) (fun b n2 => Q b (n2 ++ n1))) -> does (m ≫= f) Q.
Proof using Type.
  intros Hm Hf h r h'. rewrite bind_eq. destruct (m h) as [r1 h1] eqn:Em. destruct (Hm _ _ _ Em) as (Hc & n1 & -> & H1).
  destruct r1 as [a|e|]; [|intros [= <- <-]; split; [done|by exists n1]|done]. intros Hr. destruct (Hf a n1 H1 _ _ _ Hr) as (Hc2 & n2 & -> & H2).
  split; [congruence|]. exists (n2 ++ n1). by rewrite app_assoc.
Qed.

Lemma does_ret {A : Type} (a : A) (P : A -> history -> Prop) : P a [] -> does (mret a) P.
Proof using Type. intros HP h r h' [= <- <-]. split; [done|]. by exists []. Qed.

Lemma does_lift {A : Type} (r : res TlsError A) : r <> Panic -> does (lift r) (fun a _ => r = Ok a).
Proof using Type. intros Hp h r' h' [= <- <-]. split; [done|]. exists []. split; [done|]. by destruct r. Qed.

Definition plain (c : sslcall) : bool := match c with SSL_CTX_new | SSL_CTX_free => false | _ => true end.

Lemma does_ssl c : plain c = true -> does (ssl c) (fun _ new => made new c).
Proof using Type.
  intros Hc h r h'. rewrite ssl_run. intros [= <- <-]. split; [by destruct c|]. exists [(Ssl c, answer h (Ssl c))]. split; [done|]. eexists. apply list_elem_of_here.
Qed.

Lemma does_must c what : plain c = true -> does (must c what) (fun _ new => succeeded new c).
Proof using Type.
  intros Hc h r h'. unfold must. rewrite bind_eq, ssl_rc_run. intros Hr. assert (Hcon : contexts ((Ssl c, answer h (Ssl c)) :: h) = contexts h) by (by destruct c).
  destruct (answer h (Ssl c)) as [rc ints out|e]; cbn beta iota in Hr.
  - destruct (Z.eqb_spec rc 1) as [->|]; injection Hr as <- <-; (split; [done|]); eexists [_]; (split; [reflexivity|]); [|done]. exists ints, out. apply list_elem_of_here.
  - injection Hr as <- <-. split; [done|]. by eexists [_].
Qed.

Lemma does_leaf_cert_der : does leaf_cert_der (fun _ _ => True).
Proof using Type.
  unfold leaf_cert_der. eapply does_bind; [by apply does_ssl|]. intros [x|] n1 _; [|intros h r h' [= <- <-]; split; [done|by exists []]].
  intros h r h'. rewrite bind_eq, ssl_rc_run. set (n := match answer h _ with Ret rc _ _ => rc | Fail _ => 0 end). destruct (n <=? 0).
  { intros [= <- <-]. split; [done|]. by eexists [_]. }
  rewrite bind_eq, ssl_run. destruct (answer _ (Ssl I2d_X509)) as [w ints out|e] eqn:Ea; [destruct (negb (w =? n))|]; intros [= <- <-]; (split; [done|]); by eexists [_; _].
Qed.

Lemma succeeded_app n1 n2 c : succeeded n1 c \/ succeeded n2 c -> succeeded (n1 ++ n2) c.
Proof using Type. intros [(i & o & H)|(i & o & H)]; exists i, o; apply elem_of_app; tauto. Qed.

Lemma made_app n1 n2 c : made n1 c \/ made n2 c -> made (n1 ++ n2) c.
Proof using Type. intros [(r & H)|(r & H)]; exists r; apply elem_of_app; tauto. Qed.

Definition configured (cert key : bytes) (aead_only : bool) (new : history) : Prop :=
  (exists cert_c key_c, path_to_cstring cert = Ok cert_c /\ path_to_cstring key = Ok key_c /\ Forall (succeeded new) (required cert_c key_c aead_only)) /\
  Forall (made new) requested.

Ltac in_calls := first [assumption | apply succeeded_app; first [right; in_calls | left; in_calls] | apply made_app; first [right; in_calls | left; in_calls]].

(** Everything after the creation of the context *)
Definition set_up (cert key : bytes) (aead_only : bool) : M TlsError SslContext :=
  _ ← must (SSL_CTX_set_min_proto_version TLS1_2_VERSION) "SSL_CTX_set_min_proto_version failed";
  _ ← (if aead_only then must (SSL_CTX_set_cipher_list TLS12_CIPHERS) "SSL_CTX_set_cipher_list (TLS 1.2 AEAD-only)" else mret tt);
  cert_c ← lift (path_to_cstring cert);
  key_c ← lift (path_to_cstring key);
  _ ← must (SSL_CTX_use_certificate_chain_file cert_c) "loading certificate chain";
  _ ← must (SSL_CTX_use_PrivateKey_file key_c SSL_FILETYPE_PEM) "loading private key";
  _ ← must SSL_CTX_check_private_key "private key does not match certificate";
  _ ← ssl (SSL_CTX_set_session_cache_mode SSL_SESS_CACHE_OFF);
  _ ← must (SSL_CTX_set_num_tickets 0) "SSL_CTX_set_num_tickets(0)";
  _ ← ssl (SSL_CTX_set_options SSL_OP_NO_TICKET);
  _ ← ssl SSL_CTX_set_alpn_select_cb;
  sha256 ← leaf_cert_hash_sha256;
  sha1 ← leaf_cert_hash_sha1;
  mret {| cert_hash_sha1 := sha1; cert_hash_sha256 := sha256 |}.

Lemma path_total p : path_to_cstring p <> Panic.
Proof using Type. unfold path_to_cstring. destruct (from_utf8 p); [|done]. by destruct (existsb _ _). Qed.

Lemma does_set_up cert key aead_only : does (set_up cert key aead_only) (fun _ new => configured cert key aead_only new).
Proof using Type.
  unfold set_up. eapply does_bind; [by apply does_must|]. intros ? n1 H1.
  eapply (does_bind _ _ (fun _ new => aead_only = true -> succeeded new (SSL_CTX_set_cipher_list TLS12_CIPHERS))).
  { destruct aead_only; [|by apply does_ret]. intros h r h' Hr. destruct (does_must (SSL_CTX_set_cipher_list TLS12_CIPHERS) _ eq_refl _ _ _ Hr) as (Hc & new & Hn & H). split; [done|]. exists new.
    split; [done|]. by destruct r. }
  intros ? n2 H2. eapply does_bind; [apply does_lift, path_total|]. intros cert_c n3 Hcert. eapply does_bind; [apply does_lift, path_total|]. intros key_c n4 Hkey.
  eapply does_bind; [by apply does_must|]. intros ? n5 H5. eapply does_bind; [by apply does_must|]. intros ? n6 H6.
  eapply does_bind; [by apply does_must|]. intros ? n7 H7. eapply does_bind; [by apply does_ssl|]. intros ? n8 H8.
  eapply does_bind; [by apply does_must|]. intros ? n9 H9. eapply does_bind; [by apply does_ssl|]. intros ? n10 H10.
  eapply does_bind; [by apply does_ssl|]. intros ? n11 _.
  eapply (does_bind _ _ (fun _ _ => True)); [eapply does_bind; [apply does_leaf_cert_der|]; intros; by apply does_ret|]. intros sha256 n12 _.
  eapply (does_bind _ _ (fun _ _ => True)); [eapply does_bind; [apply does_leaf_cert_der|]; intros; by apply does_ret|]. intros sha1 n13 _.
  apply does_ret. split.
  - exists cert_c, key_c. split; [done|]. split; [done|]. unfold required. apply Forall_app. split.
    + repeat (constructor; [in_calls|]). constructor.
    + destruct aead_only; [|constructor]. specialize (H2 eq_refl). repeat (constructor; [in_calls|]). constructor.
  - repeat (constructor; [in_calls|]). constructor.
Qed.

End ServerContext.

(** ** The byte stream *)

(** What libssl has handed out and taken. *)
Fixpoint received (h : history) : bytes :=
  match h with
  | [] => []
  | (Ssl (SSL_read _), Ret n _ data) :: h => received h ++ (if 0 <? n then take (Z.to_nat n) data else [])
  | _ :: h => received h
  end.

Fixpoint written (h : history) : bytes :=
  match h with
  | [] => []
  | (Ssl (SSL_write data), Ret n _ _) :: h => written h ++ (if 0 <? n then take (Z.to_nat n) data else [])
  | _ :: h => written h
  end.

(** A task that waits has asked for the readiness of the socket and was told to wait. *)
Definition parked (h : history) : Prop := exists w ints out h1, h = (Sys_ready w, Ret 0 ints out) :: h1.

Section ByteStream.
Context {os : Os}.

Lemma when_ready_run {A : Type} w (k : M TlsError (option (Poll A))) h r h' :
  when_ready w k h = (r, h') ->
  (exists e, r = Ok (Some (Ready (inr (OsError e)))) /\ h' = (Sys_ready w, Fail e) :: h) \/
  (r = Ok (Some Pending) /\ parked h' /\ exists x, h' = (Sys_ready w, x) :: h) \/
  (exists x, k ((Sys_ready w, x) :: h) = (r, h')).
Proof using Type.
  unfold when_ready. m_run. destruct (answer h (Sys_ready w)) as [rc ints out|e].
  - destruct (Z.eqb_spec rc 0) as [->|].
    + intros [= <- <-]. right. left. split; [done|]. split; [by eexists w, ints, out, h|]. by eexists.
    + intros Hk. right. right. by eexists.
  - intros [= <- <-]. left. eexists _. split; [reflexivity|]. reflexivity.
Qed.

(** What a poll for reading does to the stream: data is handed on as libssl gave it, and a task waits only
    when libssl had none and the socket is watched. *)
Definition read_ok (h : history) (r : res TlsError (option (Poll bytes))) (h' : history) : Prop :=
  match r with
  | Ok (Some (Ready (inl d))) => received h' = received h ++ d
  | Ok (Some (Ready (inr _))) | Ok None => received h' = received h
  | Ok (Some Pending) => received h' = received h /\ parked h'
  | _ => False
  end.

Theorem poll_read_loses_nothing fuel room h r h' : poll_read fuel room h = (r, h') -> read_ok h r h'.
Proof using Type.
  revert h r h'. induction fuel as [|fuel IH]; intros h r h'; [by intros [= <- <-]|]. cbn [poll_read]. rewrite bind_eq, ssl_run.
  set (a := answer h (Ssl (SSL_read (Z.min room I32_MAX)))). set (h1 := (Ssl (SSL_read (Z.min room I32_MAX)), a) :: h).
  destruct (match match a with Ret rc ints out => Some (rc, ints, out) | Fail _ => None end with Some (n, _, data) => (n, data) | None => (0, []) end) as [n data] eqn:En.
  assert (Hrec : received h1 = received h ++ (if 0 <? n then take (Z.to_nat n) data else [])).
  { subst h1. cbn [received]. destruct a; injection En as <- <-; [done|]. cbn. by rewrite app_nil_r. }
  destruct (0 <? n); [by intros [= <- <-]|]. rewrite app_nil_r in Hrec. rewrite bind_eq, ssl_rc_run. clearbody h1. clear a En.
  set (h2 := (Ssl (SSL_get_error n), answer h1 (Ssl (SSL_get_error n))) :: h1). assert (H2 : received h2 = received h) by done.
  destruct (_ =? SSL_ERROR_ZERO_RETURN); [intros [= <- <-]; cbn [read_ok]; by rewrite app_nil_r|].
  assert (Hwait : forall w, when_ready w (poll_read fuel room) h2 = (r, h') -> read_ok h r h').
  { intros w Hw. apply when_ready_run in Hw as [(e & -> & ->)|[(-> & Hp & x & ->)|(x & Hk)]]; [done|done|]. apply IH in Hk. unfold read_ok in *.
    change (received ((Sys_ready w, x) :: h2)) with (received h2) in Hk. by rewrite H2 in Hk. }
  destruct (_ =? SSL_ERROR_WANT_READ); [apply Hwait|]. destruct (_ =? SSL_ERROR_WANT_WRITE); [apply Hwait|]. by intros [= <- <-].
Qed.

Definition write_ok (h : history) (data : bytes) (r : res TlsError (option (Poll Z))) (h' : history) : Prop :=
  match r with
  | Ok (Some (Ready (inl n))) => written h' = written h ++ take (Z.to_nat n) data
  | Ok (Some (Ready (inr _))) | Ok None => written h' = written h
  | Ok (Some Pending) => written h' = written h /\ parked h'
  | _ => False
  end.

(** libssl does not take more than it is given. *)
Class WriteBound := write_bound : forall h data n ints out, answer h (Ssl (SSL_write data)) = Ret n ints out -> n <= len data.

Theorem poll_write_reports_what_was_taken {bound : WriteBound} fuel data h r h' : poll_write fuel data h = (r, h') -> write_ok h data r h'.
Proof using Type.
  unfold poll_write. destruct (Z.eqb_spec (len data) 0) as [Hz|_]; [intros [= <- <-]; cbn [write_ok]; by rewrite take_0, app_nil_r|].
  revert h r h'. induction fuel as [|fuel IH]; intros h r h'; [by intros [= <- <-]|]. cbn [write_loop].
  intros Hw. apply when_ready_run in Hw as [(e & -> & ->)|[(-> & Hp & x & ->)|(x & Hk)]]; [done|done|]. revert Hk. set (h0 := (Sys_ready true, x) :: h).
  set (chunk := take (Z.to_nat I32_MAX) data). rewrite bind_eq, ssl_rc_run. set (a := answer h0 (Ssl (SSL_write chunk))). set (h1 := (Ssl (SSL_write chunk), a) :: h0).
  set (n := match a with Ret rc _ _ => rc | Fail _ => 0 end).
  assert (Hwr : written h1 = written h ++ (if 0 <? n then take (Z.to_nat n) data else [])).
  { subst h1 n. cbn [written]. destruct a as [rc ints out|e] eqn:Ea; [|cbn; by rewrite app_nil_r]. change (written h0) with (written h). f_equal. destruct (0 <? rc); [|done].
    pose proof (bound _ _ _ _ _ Ea) as Hb. subst chunk. rewrite take_take. rewrite length_take in Hb. f_equal. lia. }
  clearbody h1 n. clear a. destruct (0 <? n); [by intros [= <- <-]|]. rewrite app_nil_r in Hwr. rewrite bind_eq, ssl_rc_run.
  set (h2 := (Ssl (SSL_get_error n), answer h1 (Ssl (SSL_get_error n))) :: h1). assert (H2 : written h2 = written h) by done.
  assert (Hloop : forall g, written g = written h2 -> write_loop fuel data g = (r, h') -> write_ok h data r h').
  { intros g Hg Hk. apply IH in Hk. unfold write_ok in *. by rewrite Hg, H2 in Hk. }
  destruct (_ =? SSL_ERROR_WANT_WRITE); [by apply Hloop|]. destruct (_ =? SSL_ERROR_WANT_READ); [|by intros [= <- <-]].
  intros Hk. apply when_ready_run in Hk as [(e & -> & ->)|[(-> & Hp & y & ->)|(y & Hk)]]; [done|done|]. by eapply Hloop, Hk.
Qed.
End ByteStream.

Module TlsDemo.
Import ToyCrypto.
#[local] Existing Instance toy.
#[local] Existing Instance toy_laws.

(** A connection in TLS 1.2 with AES-256-GCM that has sent seven records and received five. *)
Definition demo_block (n : Z) : bytes := map Z.of_nat (seq 1 (Z.to_nat n)).
Definition demo_sequence (d : Direction) : Z := match d with Write => 7 | Read => 5 end.

Definition connection : Os := fun h c =>
  match c with
  | Ssl SSL_CIPHER_get_name => Ret 1 [] (lit "ECDHE-RSA-AES256-GCM-SHA384")
  | Ssl SSL_get_version => Ret 1 [] (lit "TLSv1.2")
  | Ssl (SSL_get_write_traffic_secret | SSL_get_read_traffic_secret) => Ret 0 [] []
  | Ssl (SSL_generate_key_block n) => Ret 1 [] (demo_block n)
  | Ssl SSL_get_write_sequence => Ret 7 [] []
  | Ssl SSL_get_read_sequence => Ret 5 [] []
  | Ssl SSL_has_pending => Ret 0 [] []
  | _ => Ret 1 [] []
  end.

#[export] Instance connection_libssl : Libssl connection.
Proof.
  refine {| conn_cipher := lit "ECDHE-RSA-AES256-GCM-SHA384"; conn_version := lit "TLSv1.2"; secret := fun _ => []; block := demo_block;
            sequence := demo_sequence |}.
  - done.
  - done.
  - split; vm_compute; reflexivity.
  - by intros h [] ints out.
  - by intros h n ints out [= <- <-].
  - intros n Hn. unfold demo_block. rewrite length_map, length_seq. lia.
  - by intros h [].
  - intros []; cbn; lia.
Defined.

(** The eighth record is the first of the kernel. *)
Lemma ktls_continues_the_connection_witness :
  exists tx rx, sockopts (install_ktls (os := connection) {| fd := 5 |} []).2 =
      [(5, SOL_TCP, TCP_ULP, lit "tls"); (5, SOL_TLS, TLS_TX, tx); (5, SOL_TLS, TLS_RX, rx)] /\
    continues tx (connection_keys (os := connection) (false, Aes256Gcm) Write) /\ continues rx (connection_keys (os := connection) (false, Aes256Gcm) Read) /\
    record_nonce (connection_keys (os := connection) (false, Aes256Gcm) Write) 7 = [69; 70; 71; 72; 0; 0; 0; 0; 0; 0; 0; 7].
Proof.
  destruct (install_ktls (os := connection) {| fd := 5 |} []) as [r h'] eqn:E.
  pose proof (ktls_continues_the_connection (os := connection) _ _ _ _ E) as H.
  assert (Hr : r = Ok tt). { change r with (r, h').1. rewrite <- E. vm_compute. reflexivity. } subst r.
  destruct H as (suite & tx & rx & Hs & Ho & Htx & Hrx). assert (Hs' : suite = (false, Aes256Gcm)).
  { assert (Hv : suite_of (conn_version (os := connection)) (conn_cipher (os := connection)) = Some (false, Aes256Gcm)) by (vm_compute; reflexivity). congruence. }
  subst suite. exists tx, rx. split; [exact Ho|]. split; [exact Htx|]. split; [exact Hrx|]. vm_compute. reflexivity.
Defined.


Lemma eligible_sessions_supported_witness :
  exists e h', ktls_eligibility (os := connection) (E := TlsError) {| fd := 5 |} [] = (Ok e, h') /\
    (compatible e = true <-> is_Some (suite_of (tls_version e) (cipher e))).
Proof.
  eexists _, _. split; [vm_compute; reflexivity|].
  eapply (eligible_sessions_supported (os := connection) {| fd := 5 |} []); vm_compute; reflexivity.
Defined.
End TlsDemo.
