(* ===== verification/Task.v ===== *)
(** * The resources of a session ([src/src/session.rs]: the [NetworkUp] branch of [handle_ppp_step], and the
    accounting, policy and tear-down parts of [drive_sstp])

    [Session.v] models the protocol half of the session task; this file models the other half: what an
    Access-Accept leaves behind, the way the data path is brought up with kTLS, shaping, MSS clamping and
    routes, the accounting records, the deadlines of the RADIUS policy, and the destructors that run when
    the task ends.  [Books.t] holds the locals concerned; every operation is a computation over the
    process-wide MSS table and the history of system calls.  Instants are nanoseconds. *)

From stdpp Require Import strings gmap.
From S2P Require Import Prelude RustText RustStd Crypto Os Netlink RtNetlink DataPath Mikrotik Tc Nft Tls.
From S2P Require Import PppDriver Radius Accounting.

Definition SECOND : Z := 1000000000.
Definition MILLISECOND : Z := 1000000.

(** ** What [show session] reads *)

Module SessionInfo.

Record t := {
  started_at : option Z;
  tls_version : option bytes;
  cipher : option bytes;
  correlation_id : option bytes;
  auth_method : option AuthMethod.t;
  username : option bytes;
  assigned_ip : option bytes;
  local_ip : option bytes;
  ifname : option bytes;
  mtu : option Z;
  backend : option string;
  shaping : option ShapingPolicy
}.

Definition default : t :=
  {| started_at := None; tls_version := None; cipher := None; correlation_id := None; auth_method := None;
     username := None; assigned_ip := None; local_ip := None; ifname := None; mtu := None; backend := None;
     shaping := None |}.

End SessionInfo.

Definition publish_auth_accept (g : SessionInfo.t) (user assigned_ip : bytes) : SessionInfo.t :=
  {| SessionInfo.started_at := SessionInfo.started_at g; SessionInfo.tls_version := SessionInfo.tls_version g;
     SessionInfo.cipher := SessionInfo.cipher g; SessionInfo.correlation_id := SessionInfo.correlation_id g;
     SessionInfo.auth_method := SessionInfo.auth_method g; SessionInfo.username := Some user;
     SessionInfo.assigned_ip := Some assigned_ip; SessionInfo.local_ip := SessionInfo.local_ip g;
     SessionInfo.ifname := SessionInfo.ifname g; SessionInfo.mtu := SessionInfo.mtu g;
     SessionInfo.backend := SessionInfo.backend g; SessionInfo.shaping := SessionInfo.shaping g |}.

Definition publish_data_path (g : SessionInfo.t) (ifname : bytes) (mtu : Z) (backend : string)
    (shaping : option ShapingPolicy) : SessionInfo.t :=
  {| SessionInfo.started_at := SessionInfo.started_at g; SessionInfo.tls_version := SessionInfo.tls_version g;
     SessionInfo.cipher := SessionInfo.cipher g; SessionInfo.correlation_id := SessionInfo.correlation_id g;
     SessionInfo.auth_method := SessionInfo.auth_method g; SessionInfo.username := SessionInfo.username g;
     SessionInfo.assigned_ip := SessionInfo.assigned_ip g; SessionInfo.local_ip := SessionInfo.local_ip g;
     SessionInfo.ifname := Some ifname; SessionInfo.mtu := Some mtu; SessionInfo.backend := Some backend;
     SessionInfo.shaping := shaping |}.

(** ** Accounting *)

Definition default_counters : AcctCounters :=
  {| session_time := 0; input_octets := 0; output_octets := 0; input_packets := 0; output_packets := 0 |}.

(** [format!("{nanos:016x}")] of a [u128] *)
Fixpoint hex_digits (fuel : nat) (n : Z) : bytes :=
  match fuel with
  | O => []
  | S fuel => if n <? 16 then [hex_digit n] else hex_digits fuel (n / 16) ++ [hex_digit (n mod 16)]
  end.

Definition hex016 (nanos : Z) : bytes :=
  let d := hex_digits 32 nanos in repeat 48 (16 - length d) ++ d.

Definition AcctSession_new (nanos : Z) (framed_ip : bytes) (nas_port : Z) : AcctSession :=
  {| session_id := hex016 nanos; authentic := 1; acct_framed_ip := framed_ip; nas_ip := None; nas_port := nas_port;
     acct_class := None |}.

Definition with_class (s : AcctSession) (c : option bytes) : AcctSession :=
  {| session_id := session_id s; authentic := authentic s; acct_framed_ip := acct_framed_ip s; nas_ip := nas_ip s;
     nas_port := nas_port s; acct_class := c |}.

Module DisconnectReason.

Inductive t := AdminRequested | RadiusDisconnect | ServerShutdown.

Definition session_end (r : t) : SessionEnd.t :=
  match r with
  | AdminRequested => SessionEnd.AdminReset
  | RadiusDisconnect => SessionEnd.AdminReset
  | ServerShutdown => SessionEnd.NasReboot
  end.

End DisconnectReason.

(** What [AcctBridge::submit] is given. *)
Record AcctRecord := {
  r_user : bytes;
  r_peer : SocketAddr;
  r_session : AcctSession;
  r_event : AcctEvent;
  r_counters : AcctCounters
}.

Record AcctState := {
  a_username : bytes;
  a_ifindex : Z;
  a_session : AcctSession;
  a_started : Z;
  a_last_counters : AcctCounters
}.

(** ** The locals *)

Module Pending.

Record t := { shaping : option ShapingPolicy; policy : option SessionPolicy.t; username : option bytes }.

End Pending.

Module Deadlines.

Record t := {
  acct_interim_period : Z;
  last_acct_interim : Z;
  session_timeout_deadline : option Z;
  idle_timeout : option Z;
  idle_timeout_deadline : option Z;
  last_activity_octets : Z
}.

End Deadlines.

Module Books.

Record t := {
  kppp : option Backend;
  pending : Pending.t;
  mss_handle : option SharedMssGuard;
  acct_state : option AcctState;
  acct_cause : SessionEnd.t;
  deadlines : Deadlines.t;
  info : SessionInfo.t
}.

Definition with_pending (b : t) (p : Pending.t) (i : SessionInfo.t) : t :=
  {| kppp := kppp b; pending := p; mss_handle := mss_handle b; acct_state := acct_state b;
     acct_cause := acct_cause b; deadlines := deadlines b; info := i |}.

Definition with_cause (b : t) (c : SessionEnd.t) : t :=
  {| kppp := kppp b; pending := pending b; mss_handle := mss_handle b; acct_state := acct_state b;
     acct_cause := c; deadlines := deadlines b; info := info b |}.

Definition with_deadlines (b : t) (a : option AcctState) (d : Deadlines.t) : t :=
  {| kppp := kppp b; pending := pending b; mss_handle := mss_handle b; acct_state := a;
     acct_cause := acct_cause b; deadlines := d; info := info b |}.

End Books.

(** The arguments of the task that do not change. *)
Module Config.

Record t := {
  id : Z;
  peer : SocketAddr;
  local_ip : bytes;
  data_path : DataPathMode.t;
  acct : bool;
  mss_table : bool;
  tls : TlsStream
}.

End Config.

Section Task.
Context {os : Os} {bp : BuildProfile} {lib : AwsLc} (fuel : nat) (pid : Z) (cfg : Config.t).

(** The locals at the start of [drive_sstp]. *)
Definition init (now : Z) (i : SessionInfo.t) : Books.t :=
  {| Books.kppp := None;
     Books.pending := {| Pending.shaping := None; Pending.policy := None; Pending.username := None |};
     Books.mss_handle := None; Books.acct_state := None; Books.acct_cause := SessionEnd.LostCarrier;
     Books.deadlines :=
       {| Deadlines.acct_interim_period := 60 * SECOND;
          Deadlines.last_acct_interim := now - (Config.id cfg) mod 60 * MILLISECOND;
          Deadlines.session_timeout_deadline := None; Deadlines.idle_timeout := None;
          Deadlines.idle_timeout_deadline := None; Deadlines.last_activity_octets := 0 |};
     Books.info := i |}.

(** An Access-Accept: kept until the interface exists. *)
Definition on_accept (b : Books.t) (user ip : bytes) (o : AuthOutcome) : Books.t :=
  Books.with_pending b
    {| Pending.shaping := outcome_shaping o; Pending.policy := Some (policy o); Pending.username := Some user |}
    (publish_auth_accept (Books.info b) user ip).

(** ** [NetworkUp] *)

(** [Auto] is settled by the negotiated cipher. *)
Definition effective_data_path (ktls : KtlsEligibility) : DataPathMode.t :=
  match Config.data_path cfg with
  | DataPathMode.Auto => if compatible ktls then DataPathMode.Kernel else DataPathMode.Tun
  | m => m
  end.

(** kTLS before the kernel module: the data path to bring up, [None] when the session cannot go on. *)
Definition secure_data_path (ktls : KtlsEligibility) : M SharedMssError (option DataPathMode.t) :=
  match effective_data_path ktls with
  | DataPathMode.Kernel =>
      if compatible ktls then
        r ← attempt_ (install_ktls (Config.tls cfg));
        match r, Config.data_path cfg with
        | inl _, _ => mret (Some DataPathMode.Kernel)
        | inr (BufferedData _), DataPathMode.Auto => mret (Some DataPathMode.Tun)
        | inr _, _ => mret None
        end
      else mret (Some DataPathMode.Kernel)
  | m => mret (Some m)
  end.

Definition apply_shaping (ifindex : Z) (shaping : option ShapingPolicy) : M SharedMssError () :=
  match shaping with
  | None => mret tt
  | Some policy =>
      r ← attempt_ Shaper.open;
      match r with
      | inl shaper => scoped (TcNetlink.sock shaper) (_ ← attempt_ (Shaper.apply shaper ifindex policy); mret tt)
      | inr _ => mret tt
      end
  end.

Definition clamp_mss (ifname : bytes) (link_mtu : option Z) (ktls : KtlsEligibility) (handle : option SharedMssGuard) :
    G (option SharedMssGuard) :=
  if Config.mss_table cfg then
    let bounds := compute_mss4 (default 1500 link_mtu) (tls_version ktls) (cipher ktls) in
    r ← attempt_g (Nft.add fuel pid ifname (mss4 bounds));
    mret (match r with inl guard => Some guard | inr _ => handle end)
  else mret handle.

(** Each failure is logged; the sequence number advances in any case. *)
Fixpoint add_routes (rt : RtNetlink.t) (ifindex : Z) (routes : list Route.FramedRoute) : M SharedMssError () :=
  match routes with
  | [] => mret tt
  | r :: routes =>
      _ ← attempt_ (RtNetlink.add_route rt ifindex (Route.dest r) (Route.prefix r) (Route.gateway r) (Route.metric r));
      add_routes (RtNetlink.next_seq rt).2 ifindex routes
  end.

Definition apply_routes (ifindex : Z) (policy : option SessionPolicy.t) : M SharedMssError () :=
  match policy with
  | None => mret tt
  | Some p =>
      if decide (SessionPolicy.framed_routes p = []) then mret tt
      else
        r ← attempt_ RtNetlink.open;
        match r with
        | inl rt => scoped (RtNetlink.sock rt) (add_routes rt ifindex (SessionPolicy.framed_routes p))
        | inr _ => mret tt
        end
  end.

(** The Start record and the state for the records to come; [nanos] is the wall clock. *)
Definition start_accounting (now nanos : Z) (peer_ip : bytes) (ifindex : Z) (p : Pending.t) :
    option AcctState * list AcctRecord :=
  match Pending.username p with
  | Some user =>
      if Config.acct cfg then
        let session := AcctSession_new nanos peer_ip (Config.id cfg mod 2 ^ 32) in
        let session := match Pending.policy p with Some pol => with_class session (SessionPolicy.class pol) | None => session end in
        (Some {| a_username := user; a_ifindex := ifindex; a_session := session; a_started := now;
                 a_last_counters := default_counters |},
         [{| r_user := user; r_peer := Config.peer cfg; r_session := session; r_event := Start;
             r_counters := default_counters |}])
      else (None, [])
  | None => (None, [])
  end.

(** The interface is there: publish it, then shaping, MSS clamping, routes and the Start record. *)
Definition path_ready (b : Books.t) (now nanos : Z) (peer_ip : bytes) (link_mtu : option Z) (ktls : KtlsEligibility) (k : Backend) :
    G (Books.t * list AcctRecord * bool) :=
  let p := Books.pending b in
  let info := publish_data_path (Books.info b) (ifname k) (mtu k) (if is_kernel k then "kmod" else "tun")%string (Pending.shaping p) in
  _ ← run_m (apply_shaping (ifindex k) (Pending.shaping p));
  handle ← clamp_mss (ifname k) link_mtu ktls (Books.mss_handle b);
  _ ← run_m (apply_routes (ifindex k) (Pending.policy p));
  let '(state, records) := start_accounting now nanos peer_ip (ifindex k) p in
  mret ({| Books.kppp := Some k;
           Books.pending := {| Pending.shaping := None; Pending.policy := Pending.policy p; Pending.username := None |};
           Books.mss_handle := handle;
           Books.acct_state := match state with Some _ => state | None => Books.acct_state b end;
           Books.acct_cause := Books.acct_cause b; Books.deadlines := Books.deadlines b; Books.info := info |},
        records, true).

Definition network_up (b : Books.t) (now nanos : Z) (addrs : AssignedAddrs.t) : G (Books.t * list AcctRecord * bool) :=
  match Books.kppp b with
  | Some _ => mret (b, [], true)
  | None =>
      let peer_ip := AssignedAddrs.ip addrs in
      let link_mtu := AssignedAddrs.mtu addrs in
      ktls ← run_m (ktls_eligibility (Config.tls cfg));
      mode ← run_m (secure_data_path ktls);
      match mode with
      | None => mret (b, [], false)
      | Some mode =>
          r ← run_m (attempt_ (bring_up mode (fd (Config.tls cfg)) (Config.local_ip cfg) peer_ip link_mtu));
          match r with
          | inr _ => mret (b, [], false)
          | inl k => path_ready b now nanos peer_ip link_mtu ktls k
          end
      end
  end.

(** ** The loop *)

(** [sample_acct_counters]: on a failure the octets and packets of the last sample. *)
Definition sample_acct_counters (now ifindex started : Z) (fallback : AcctCounters) : M SharedMssError AcctCounters :=
  let session_time := (Z.max 0 (now - started) / SECOND) mod 2 ^ 32 in
  r ← attempt_ (nl ← RtNetlink.open; scoped (RtNetlink.sock nl) (RtNetlink.link_stats64 nl ifindex));
  mret match r with
       | inl s =>
           {| session_time := session_time; input_octets := rx_bytes s; output_octets := tx_bytes s;
              input_packets := rx_packets s mod 2 ^ 32; output_packets := tx_packets s mod 2 ^ 32 |}
       | inr _ =>
           {| session_time := session_time; input_octets := input_octets fallback; output_octets := output_octets fallback;
              input_packets := input_packets fallback; output_packets := output_packets fallback |}
       end.

(** The head of the loop: the policy of the Access-Accept, once the interface is up. *)
Definition apply_policy (b : Books.t) (now : Z) : Books.t :=
  match Books.kppp b, Pending.policy (Books.pending b) with
  | Some _, Some policy =>
      let d := Books.deadlines b in
      let p := Books.pending b in
      {| Books.kppp := Books.kppp b;
         Books.pending := {| Pending.shaping := Pending.shaping p; Pending.policy := None; Pending.username := Pending.username p |};
         Books.mss_handle := Books.mss_handle b; Books.acct_state := Books.acct_state b; Books.acct_cause := Books.acct_cause b;
         Books.deadlines :=
           {| Deadlines.acct_interim_period :=
                match SessionPolicy.acct_interim_interval policy with Some s => s * SECOND | None => Deadlines.acct_interim_period d end;
              Deadlines.last_acct_interim := Deadlines.last_acct_interim d;
              Deadlines.session_timeout_deadline :=
                match SessionPolicy.session_timeout policy with Some s => Some (now + s * SECOND) | None => Deadlines.session_timeout_deadline d end;
              Deadlines.idle_timeout :=
                match SessionPolicy.idle_timeout policy with Some s => Some (s * SECOND) | None => Deadlines.idle_timeout d end;
              Deadlines.idle_timeout_deadline :=
                match SessionPolicy.idle_timeout policy with Some s => Some (now + s * SECOND) | None => Deadlines.idle_timeout_deadline d end;
              Deadlines.last_activity_octets := Deadlines.last_activity_octets d |};
         Books.info := Books.info b |}
  | _, _ => b
  end.

(** The accounting part of [PeriodicTick] *)
Definition periodic_tick (b : Books.t) (now : Z) : M SharedMssError (Books.t * list AcctRecord) :=
  let d := Books.deadlines b in
  if Z.max 0 (now - Deadlines.last_acct_interim d) <? Deadlines.acct_interim_period d then mret (b, [])
  else
    let ticked (octets : Z) (deadline : option Z) : Deadlines.t :=
      {| Deadlines.acct_interim_period := Deadlines.acct_interim_period d; Deadlines.last_acct_interim := now;
         Deadlines.session_timeout_deadline := Deadlines.session_timeout_deadline d; Deadlines.idle_timeout := Deadlines.idle_timeout d;
         Deadlines.idle_timeout_deadline := deadline; Deadlines.last_activity_octets := octets |} in
    match Books.acct_state b with
    | Some state =>
        if Config.acct cfg then
          counters ← sample_acct_counters now (a_ifindex state) (a_started state) (a_last_counters state);
          let total := Z.min U64_MAX (input_octets counters + output_octets counters) in
          let moved := negb (total =? Deadlines.last_activity_octets d) in
          let deadline :=
            match Deadlines.idle_timeout d with
            | Some period => if moved then Some (now + period) else Deadlines.idle_timeout_deadline d
            | None => Deadlines.idle_timeout_deadline d
            end in
          mret (Books.with_deadlines b
                  (Some {| a_username := a_username state; a_ifindex := a_ifindex state; a_session := a_session state;
                           a_started := a_started state; a_last_counters := counters |})
                  (ticked (if moved then total else Deadlines.last_activity_octets d) deadline),
                [{| r_user := a_username state; r_peer := Config.peer cfg; r_session := a_session state;
                    r_event := InterimUpdate; r_counters := counters |}])
        else mret (Books.with_deadlines b (Books.acct_state b) (ticked (Deadlines.last_activity_octets d) (Deadlines.idle_timeout_deadline d)), [])
    | None => mret (Books.with_deadlines b None (ticked (Deadlines.last_activity_octets d) (Deadlines.idle_timeout_deadline d)), [])
    end.

(** The events of the loop as the books see them.  [Over] is every way the task ends on its own: the
    protocol is finished, the connection or the control channel is gone. *)
Inductive event :=
| Accepted (user ip : bytes) (outcome : AuthOutcome)
| NetworkUp (addrs : AssignedAddrs.t) (nanos : Z)
| Tick
| Drain
| Disconnect (reason : DisconnectReason.t)
| Rekey (request_peer : bool)
| SessionTimeout
| IdleTimeout
| Over.

(** A deadline wakes the task only when it has passed. *)
Definition expired (deadline : option Z) (now : Z) : bool := match deadline with Some d => d <=? now | None => false end.

Definition enabled (b : Books.t) (now : Z) (ev : event) : bool :=
  match ev with
  | SessionTimeout => expired (Deadlines.session_timeout_deadline (Books.deadlines b)) now
  | IdleTimeout => expired (Deadlines.idle_timeout_deadline (Books.deadlines b)) now
  | _ => true
  end.

(** [Rekey]: refused once the kernel module has the connection. *)
Definition rekey_command (b : Books.t) (request_peer : bool) : M SharedMssError () :=
  if match Books.kppp b with Some k => is_kernel k | None => false end then mret tt
  else _ ← attempt_ (request_key_update (Config.tls cfg) request_peer); mret tt.

Definition on_event (b : Books.t) (now : Z) (ev : event) : G (Books.t * list AcctRecord * bool) :=
  match ev with
  | Accepted user ip o => mret (on_accept b user ip o, [], true)
  | NetworkUp addrs nanos => network_up b now nanos addrs
  | Tick => '(b, recs) ← run_m (periodic_tick b now); mret (b, recs, true)
  | Drain => mret (Books.with_cause b SessionEnd.NasReboot, [], true)
  | Disconnect r => mret (Books.with_cause b (DisconnectReason.session_end r), [], true)
  | Rekey request_peer => _ ← run_m (rekey_command b request_peer); mret (b, [], true)
  | SessionTimeout => mret (Books.with_cause b SessionEnd.SessionTimeout, [], false)
  | IdleTimeout => mret (Books.with_cause b SessionEnd.IdleTimeout, [], false)
  | Over => mret (b, [], false)
  end.

Definition turn (b : Books.t) (now : Z) (ev : event) : G (Books.t * list AcctRecord * bool) :=
  '(b, recs, go) ← on_event b now ev;
  mret (if go : bool then apply_policy b now else b, recs, go).

(** [AcctStopGuard::drop] *)
Definition stop_guard (b : Books.t) (now : Z) : M SharedMssError (list AcctRecord) :=
  match Books.acct_state b with
  | Some state =>
      if Config.acct cfg then
        counters ← sample_acct_counters now (a_ifindex state) (a_started state) (a_last_counters state);
        mret [{| r_user := a_username state; r_peer := Config.peer cfg; r_session := a_session state;
                 r_event := Stop (SessionEnd.to_terminate_cause (Books.acct_cause b)); r_counters := counters |}]
      else mret []
  | None => mret []
  end.

(** The locals are dropped in the reverse order of their declaration: the guard, the MSS handle, the data
    path. *)
Definition finish (b : Books.t) (now : Z) : G (list AcctRecord) :=
  recs ← run_m (stop_guard b now);
  _ ← match Books.mss_handle b with Some g => SharedMssHandle_drop fuel pid g | None => mret tt end;
  _ ← match Books.kppp b with Some k => run_m (drop_backend k) | None => mret tt end;
  mret recs.

End Task.
