(* ===== verification/TaskProps.v ===== *)
(** * The resources of a session: descriptors and the TLS connection

    [steps] are the runs of the resource half of the session task.  The data path and the TLS connection
    agree: the kernel module gets a connection that was handed over to kTLS, and a session on a TUN device
    keeps an untouched one.  Whatever fails on the way, nothing stays open after the session. *)

From stdpp Require Import strings gmap.
From S2P Require Import Prelude RustText RustStd Crypto Os Netlink NetlinkProps RtNetlink RtNetlinkProps DataPath DataPathProps.
From S2P Require Import Mikrotik Tc TcProps Nft Tls TlsProps PppDriver Radius Accounting Task.

(** ** Socket options *)

Section Mute.
Context {os : Os}.

(** [mute m]: [m] sets no socket option. *)
Definition mute {E A : Type} (m : M E A) : Prop := forall h, sockopts (m h).2 = sockopts h.

Definition optionless (c : syscall) : bool := match c with Sys_setsockopt _ _ _ _ => false | _ => true end.

Lemma mute_ret {E A : Type} (a : A) : mute (E := E) (mret a).
Proof. done. Qed.
Lemma mute_throw {E A : Type} (e : E) : mute (A := A) (throw e).
Proof. done. Qed.
Lemma mute_lift {E A : Type} (r : res E A) : mute (lift r).
Proof. done. Qed.
Lemma mute_sys {E : Type} c : optionless c = true -> mute (E := E) (sys c).
Proof. by destruct c. Qed.
Lemma mute_close {E : Type} fd : mute (E := E) (close fd).
Proof. done. Qed.

Lemma mute_bind {E A B : Type} (m : M E A) (f : A -> M E B) : mute m -> (forall a, mute (f a)) -> mute (m ≫= f).
Proof. intros Hm Hf h. specialize (Hm h). rewrite bind_eq. destruct (m h) as [[a|e|] h1]; cbn in *; [by rewrite Hf|done|done]. Qed.

Lemma mute_on_err {E F A : Type} (f : E -> F) (m : M E A) : mute m -> mute (on_err f m).
Proof. intros Hm h. specialize (Hm h). by rewrite on_err_eq. Qed.

Lemma mute_attempt {E F A : Type} (m : M E A) : mute m -> mute (E := F) (attempt_ m).
Proof. intros Hm h. specialize (Hm h). unfold attempt_. by destruct (m h). Qed.

Lemma mute_owned {E A : Type} fd (m : M E A) : mute m -> mute (owned fd m).
Proof. intros Hm h. specialize (Hm h). unfold owned. by destruct (m h) as [[a|e|] h1]. Qed.

Lemma mute_scoped {E A : Type} fd (m : M E A) : mute m -> mute (scoped fd m).
Proof. intros Hm h. specialize (Hm h). unfold scoped. by destruct (m h). Qed.

Lemma mute_checked c : optionless c = true -> mute (checked c).
Proof. intros Hc. apply mute_bind; [by apply mute_sys|]. by intros []. Qed.
End Mute.

Create HintDb mute.
#[export] Hint Resolve mute_ret mute_throw mute_lift mute_close : mute.

(** [muted] takes the operations of the code one after the other. *)
Ltac muted :=
  intros; cbv zeta;
  repeat first
    [ solve [auto with mute]
    | apply mute_bind; [|intros ?]
    | apply mute_on_err
    | apply mute_attempt
    | apply mute_owned
    | apply mute_scoped
    | apply mute_sys; reflexivity
    | apply mute_checked; reflexivity
    | match goal with |- mute (match ?x with _ => _ end) => destruct x end ].

Section MuteOps.
Context {os : Os} {bp : BuildProfile} {lib : AwsLc} (fuel : nat) (pid : Z).

Lemma mute_nl_open f : mute (NetlinkSocket.open f).
Proof. unfold NetlinkSocket.open. muted. Qed.
Lemma mute_send fd b : mute (NetlinkSocket.send fd b).
Proof. unfold NetlinkSocket.send. muted. Qed.
Lemma mute_recv fd b : mute (NetlinkSocket.recv_into fd b).
Proof. unfold NetlinkSocket.recv_into. muted. Qed.
#[local] Hint Resolve mute_nl_open mute_send mute_recv : mute.

Lemma mute_rt_open : mute RtNetlink.open.
Proof. unfold RtNetlink.open. muted. Qed.
Lemma mute_exchange nl op m : mute (RtNetlink.exchange nl op m).
Proof. unfold RtNetlink.exchange. muted. Qed.
#[local] Hint Resolve mute_rt_open mute_exchange : mute.

Lemma mute_rt_bring_up nl i cfg : mute (RtNetlink.bring_up nl i cfg).
Proof. unfold RtNetlink.bring_up, RtNetlink.set_mtu, RtNetlink.add_p2p_addr, RtNetlink.set_link_up, RtNetlink.next_seq. muted. Qed.
Lemma mute_add_route nl i d p g m : mute (RtNetlink.add_route nl i d p g m).
Proof. unfold RtNetlink.add_route, RtNetlink.next_seq. muted. Qed.
Lemma mute_link_stats nl i : mute (RtNetlink.link_stats64 nl i).
Proof. unfold RtNetlink.link_stats64, RtNetlink.next_seq. muted. Qed.
#[local] Hint Resolve mute_rt_bring_up mute_add_route mute_link_stats : mute.

Lemma mute_resolve {E : Type} (e : io_error -> E) n : mute (resolve_ifindex e n).
Proof. unfold resolve_ifindex. muted. Qed.
Lemma mute_nonblock n : mute (set_nonblock n).
Proof. unfold set_nonblock. muted. Qed.
#[local] Hint Resolve mute_resolve mute_nonblock : mute.

Lemma mute_tun l p m : mute (bring_up_tun l p m).
Proof. unfold bring_up_tun, TunSession_bring_up. muted. Qed.
Lemma mute_unit : mute Unit_new.
Proof. unfold Unit_new, open_dev_ppp, ioctl_xchg_int. muted. Qed.
Lemma mute_probe : mute probe.
Proof. unfold probe, open_dev_sstp. muted. Qed.
Lemma mute_attach t u m : mute (attach t u m).
Proof. unfold attach, open_dev_sstp, chan_index_for, bind_channel_to_unit, ioctl_set_int. muted. Qed.
#[local] Hint Resolve mute_tun mute_unit mute_probe mute_attach : mute.

Lemma mute_data_path mode t l p m : mute (bring_up mode t l p m).
Proof. unfold bring_up, bring_up_ppp. muted. Qed.

Lemma mute_shaping i s : mute (apply_shaping i s).
Proof.
  assert (Hx : forall nl op m, mute (TcNetlink.exchange nl op m)) by (unfold TcNetlink.exchange; muted).
  unfold apply_shaping, Shaper.open, TcNetlink.open, Shaper.apply, Shaper.clear, Shaper.install_htb_root, Shaper.install_htb_leaf,
    Shaper.install_ingress_qdisc, Shaper.install_ingress_police_filter, TcNetlink.next_seq. muted.
Qed.

Lemma mute_add_routes rt i rs : mute (add_routes rt i rs).
Proof. revert rt. induction rs; intros rt; cbn [add_routes]; muted. Qed.
#[local] Hint Resolve mute_add_routes : mute.

Lemma mute_routes i p : mute (apply_routes i p).
Proof. unfold apply_routes. muted. Qed.

Lemma mute_eligibility s : mute (E := SharedMssError) (ktls_eligibility s).
Proof. unfold ktls_eligibility, ssl_name, ssl. muted. Qed.
End MuteOps.

(** ** Computations over the MSS table *)

Section Table.
Context {os : Os}.

Lemma g_bind_eq {A B : Type} (m : G A) (f : A -> G B) i h :
  (m ≫= f) i h = match m i h with (Ok a, i, h) => f a i h | (Err e, i, h) => (Err e, i, h) | (Panic, i, h) => (Panic, i, h) end.
Proof using Type. done. Qed.

Definition mute_g {A : Type} (m : G A) : Prop := forall i h, sockopts (m i h).2 = sockopts h.

Lemma mute_g_run {A : Type} (m : M SharedMssError A) : mute m -> mute_g (run_m m).
Proof using Type. intros Hm i h. specialize (Hm h). unfold run_m. by destruct (m h). Qed.

Lemma mute_g_bind {A B : Type} (m : G A) (f : A -> G B) : mute_g m -> (forall a, mute_g (f a)) -> mute_g (m ≫= f).
Proof using Type. intros Hm Hf i h. specialize (Hm i h). rewrite g_bind_eq. destruct (m i h) as [[[a|e|] i1] h1]; cbn in *; [by rewrite Hf|done|done]. Qed.

Lemma mute_g_attempt {A : Type} (m : G A) : mute_g m -> mute_g (attempt_g m).
Proof using Type. intros Hm i h. specialize (Hm i h). unfold attempt_g. by destruct (m i h) as [[[a|e|] i1] h1]. Qed.

Lemma mute_g_scoped {A : Type} fd (m : G A) : mute_g m -> mute_g (scoped_g fd m).
Proof using Type. intros Hm i h. specialize (Hm i h). unfold scoped_g. by destruct (m i h) as [[r i1] h1]. Qed.

Lemma mute_g_ret {A : Type} (a : A) : mute_g (mret a).
Proof using Type. done. Qed.
Lemma mute_g_get : mute_g get.
Proof using Type. done. Qed.
Lemma mute_g_modify f : mute_g (modify f).
Proof using Type. done. Qed.

(** [keeps] for these computations. *)
Definition keeps_g {A : Type} (f : G A) (R : A -> gset Z -> Prop) : Prop :=
  forall i h r i' h', f i h = (r, i', h') ->
  match r with
  | Ok a => exists S, R a S /\ S ## open_fds h /\ open_fds h' = open_fds h ∪ S
  | _ => open_fds h' = open_fds h
  end.

Lemma keeps_g_run {A : Type} (m : M SharedMssError A) R : keeps m R -> keeps_g (run_m m) R.
Proof using Type. intros Hm i h r i' h'. unfold run_m. destruct (m h) as [r1 h1] eqn:E. intros [= <- <- <-]. exact (Hm _ _ _ E). Qed.

Lemma keeps_g_ret {A : Type} (a : A) (R : A -> gset Z -> Prop) : R a ∅ -> keeps_g (mret a) R.
Proof using Type. intros HR i h r i' h' [= <- <- <-]. exists ∅. split_and!; [done|set_solver|set_solver]. Qed.

Lemma keeps_g_get : keeps_g get none.
Proof using Type. intros i h r i' h' [= <- <- <-]. exists ∅. split_and!; [done|set_solver|set_solver]. Qed.
Lemma keeps_g_modify f : keeps_g (modify f) none.
Proof using Type. intros i h r i' h' [= <- <- <-]. exists ∅. split_and!; [done|set_solver|set_solver]. Qed.

Lemma keeps_g_bind {A B : Type} (f : G A) (g : A -> G B) R : keeps_g f none -> (forall a, keeps_g (g a) R) -> keeps_g (f ≫= g) R.
Proof using Type.
  intros Hf Hg i h r i' h'. rewrite g_bind_eq. destruct (f i h) as [[[a|e|] i1] h1] eqn:Ef; specialize (Hf _ _ _ _ _ Ef); cbn in Hf.
  - destruct Hf as (S & -> & _ & Hh). intros Hr. specialize (Hg a _ _ _ _ _ Hr). by replace (open_fds h1) with (open_fds h) in Hg by set_solver.
  - by intros [= <- <- <-].
  - by intros [= <- <- <-].
Qed.

Lemma keeps_g_attempt {A : Type} (m : G A) : keeps_g m none -> keeps_g (attempt_g m) none.
Proof using Type.
  intros Hm i h r i' h'. unfold attempt_g. destruct (m i h) as [[[a|e|] i1] h1] eqn:E; specialize (Hm _ _ _ _ _ E); cbn in Hm; intros [= <- <- <-].
  - destruct Hm as (S & -> & ? & ?). by exists ∅.
  - exists ∅. split_and!; [done|set_solver|set_solver].
  - done.
Qed.

(** A socket and the scope that closes it *)
Lemma keeps_g_scoped {A : Type} fd (g : G A) i h r i' h' :
  keeps_g g none -> fd ∉ open_fds h -> (forall h1, open_fds h1 = open_fds h ∪ {[fd]} -> scoped_g fd g i h1 = (r, i', h') ->
  match r with Ok a => exists S, none a S /\ S ## open_fds h /\ open_fds h' = open_fds h ∪ S | _ => open_fds h' = open_fds h end).
Proof using Type.
  intros Hg Hfd h1 Hh1. unfold scoped_g. destruct (g i h1) as [[r1 i1] h2] eqn:E. specialize (Hg _ _ _ _ _ E). intros [= <- <- <-].
  change (open_fds (_ :: h2)) with (open_fds h2 ∖ {[fd]}). destruct r1 as [a|e|].
  - destruct Hg as (S & -> & ? & Hh2). exists ∅. split_and!; [done|set_solver|set_solver].
  - set_solver.
  - set_solver.
Qed.

Context {os_ok : OsOk os}.

Lemma keeps_g_open_scoped {A : Type} (g : Z -> G A) :
  (forall fd, keeps_g (g fd) none) -> keeps_g (run_m NfNetlink.open ≫= fun fd => scoped_g fd (g fd)) none.
Proof using os_ok.
  intros Hg i h r i' h'. rewrite g_bind_eq. assert (Ho : keeps NfNetlink.open (one id)) by apply keeps_on_err, keeps_nl_open.
  apply keeps_g_run in Ho. destruct (run_m NfNetlink.open i h) as [[[fd|e|] i1] h1] eqn:E; specialize (Ho _ _ _ _ _ E); cbn in Ho.
  - destruct Ho as (S & -> & Hd & Hh). intros Hr. eapply (keeps_g_scoped fd); [apply Hg| |done|done]. set_solver.
  - by intros [= <- <- <-].
  - by intros [= <- <- <-].
Qed.
End Table.

Create HintDb keeps_g.
#[export] Hint Resolve mute_g_ret mute_g_get mute_g_modify : mute.
#[export] Hint Resolve keeps_g_get keeps_g_modify : keeps_g.

Ltac muted_g :=
  intros; cbv zeta;
  repeat first
    [ solve [auto with mute]
    | apply mute_g_run; solve [auto with mute]
    | apply mute_g_bind; [|intros ?]
    | apply mute_g_attempt
    | apply mute_g_scoped
    | match goal with |- mute_g (match ?x with _ => _ end) => destruct x end ].

Ltac follow_g :=
  intros; cbv zeta;
  repeat first
    [ solve [auto with keeps_g]
    | apply keeps_g_ret; reflexivity
    | apply keeps_g_bind; [|intros ?]
    | apply keeps_g_attempt
    | match goal with |- keeps_g (match ?x with _ => _ end) _ => destruct x end ].

Section TableOps.
Context {os : Os} {os_ok : OsOk os} {bp : BuildProfile} (fuel : nat) (pid : Z).

Lemma mute_await n sock op rem : mute (NfNetlink.await n sock op rem).
Proof.
  revert rem. induction n as [|n IH]; intros rem; cbn [NfNetlink.await]; case_decide; try done.
  apply mute_bind; [apply mute_on_err, mute_recv|]. intros b. destruct (drain_acks _ _) as [rem'|[]|]; [apply IH|done|done|done].
Qed.

Lemma mute_transact sock op build : mute_g (transact fuel sock op build).
Proof.
  unfold transact. muted_g. apply mute_g_run. unfold NfNetlink.exchange_batch. apply mute_bind; [apply mute_on_err, mute_send|]. intros _. apply mute_await.
Qed.
#[local] Hint Resolve mute_transact : mute.

Lemma mute_add ifname mss : mute_g (Nft.add fuel pid ifname mss).
Proof.
  assert (Ho : mute NfNetlink.open) by apply mute_on_err, mute_nl_open.
  unfold Nft.add, ensure_table, ensure_group. muted_g.
Qed.

Lemma keeps_await n sock op rem : keeps (NfNetlink.await n sock op rem) none.
Proof using os_ok.
  revert rem. induction n as [|n IH]; intros rem; cbn [NfNetlink.await]; case_decide; try apply keeps_ret; try apply keeps_throw.
  apply keeps_bind; [apply keeps_on_err; unfold NetlinkSocket.recv_into; apply keeps_bind; [by apply keeps_checked|intros [[? ?] ?]; apply keeps_lift]|].
  intros b. destruct (drain_acks _ _) as [rem'|[]|]; [apply IH|apply keeps_throw|apply keeps_throw|apply keeps_lift].
Qed.

Lemma keeps_transact sock op build : keeps_g (transact fuel sock op build) none.
Proof using os_ok.
  unfold transact. follow_g; [apply keeps_g_run, keeps_lift|]. apply keeps_g_run. unfold NfNetlink.exchange_batch. apply keeps_bind; [|intros _; apply keeps_await].
  apply keeps_on_err. unfold NetlinkSocket.send. apply keeps_bind; [by apply keeps_checked|]. intros r. destruct (negb _); [apply keeps_throw|apply keeps_ret].
Qed.
#[local] Hint Resolve keeps_transact : keeps_g.

Lemma keeps_add ifname mss : keeps_g (Nft.add fuel pid ifname mss) none.
Proof using os_ok.
  unfold Nft.add. destruct (existsb _ _); [apply keeps_g_run, keeps_throw|]. apply keeps_g_open_scoped. intros sock. unfold ensure_table, ensure_group. follow_g.
  apply keeps_g_run, keeps_lift.
Qed.

Lemma keeps_remove ifname mss : keeps_g (remove fuel pid ifname mss) none.
Proof using os_ok.
  unfold remove. destruct (existsb _ _); [by apply keeps_g_ret|]. intros i h r i' h'. rewrite g_bind_eq. unfold attempt_g at 1.
  assert (Ho : keeps NfNetlink.open (one id)) by apply keeps_on_err, keeps_nl_open. apply keeps_g_run in Ho.
  destruct (run_m NfNetlink.open i h) as [[[fd|e|] i1] h1] eqn:E; specialize (Ho _ _ _ _ _ E); cbn in Ho.
  - destruct Ho as (S & -> & Hd & Hh). intros Hr. eapply (keeps_g_scoped fd); [|set_solver|done|done]. follow_g.
  - intros [= <- <- <-]. exists ∅. split_and!; [done|set_solver|set_solver].
  - by intros [= <- <- <-].
Qed.
End TableOps.

(** ** Runs *)

Section Runs.
Context {os : Os} {bp : BuildProfile} {lib : AwsLc} (fuel : nat) (pid : Z) (cfg : Config.t).

(** The locals, the MSS table of the process, the calls made so far and the time. *)
Definition world : Type := Books.t * Inner * history * Z.

(** A record with the time it was submitted and the calls made until then *)
Record entry := { e_time : Z; e_calls : history; e_record : AcctRecord }.

Definition entries (now : Z) (h : history) (recs : list AcctRecord) : list entry :=
  map (fun r => {| e_time := now; e_calls := h; e_record := r |}) recs.

(** The events of a session with their times, the records submitted, and whether the task goes on. *)
Inductive steps (w : world) : list (Z * event) -> list entry -> world -> bool -> Prop :=
| steps_refl : steps w [] [] w true
| steps_turn evs log b i h t now ev b' i' h' recs go :
    steps w evs log (b, i, h, t) true -> t <= now -> enabled b now ev = true ->
    turn fuel pid cfg b now ev i h = (Ok (b', recs, go), i', h') ->
    steps w (evs ++ [(now, ev)]) (log ++ entries now h' recs) (b', i', h', now) go.

(** What [path_ready] returns, whatever fails on the way *)
Lemma path_ready_result b now nanos ip m ktls k i h b' recs go i' h' :
  path_ready fuel pid cfg b now nanos ip m ktls k i h = (Ok (b', recs, go), i', h') ->
  go = true /\ Books.kppp b' = Some k /\ recs = (start_accounting cfg now nanos ip (ifindex k) (Books.pending b)).2 /\
  Books.acct_state b' = match (start_accounting cfg now nanos ip (ifindex k) (Books.pending b)).1 with Some s => Some s | None => Books.acct_state b end /\
  Books.acct_cause b' = Books.acct_cause b /\ Books.deadlines b' = Books.deadlines b /\
  Pending.policy (Books.pending b') = Pending.policy (Books.pending b) /\ Pending.username (Books.pending b') = None.
Proof using Type.
  unfold path_ready. cbv zeta. rewrite g_bind_eq. destruct (run_m _ i h) as [[[x|e|] i1] h1]; [|done|done].
  rewrite g_bind_eq. destruct (clamp_mss _ _ _ _ _ _ _ i1 h1) as [[[g|e|] i2] h2]; [|done|done].
  rewrite g_bind_eq. destruct (run_m _ i2 h2) as [[[y|e|] i3] h3]; [|done|done].
  destruct (start_accounting _ _ _ _ _ _) as [[st|] rs]; intros [= <- <- <- <- <-]; done.
Qed.
End Runs.

(** ** Descriptors *)

Section Descriptors.
Context {os : Os} {os_ok : OsOk os} {bp : BuildProfile} {lib : AwsLc} (fuel : nat) (pid : Z) (cfg : Config.t).

Lemma keeps_attempt_scoped {E F A B : Type} (p : A -> Z) (f : M E A) (g : A -> M F B) (b : B) :
  keeps f (one p) -> (forall a, keeps (g a) none) ->
  keeps (r ← attempt_ f; match r with inl a => scoped (p a) (g a) | inr _ => mret b end) none.
Proof using os_ok.
  intros Hf Hg h r h' Hr. destruct (f h) as [x h1] eqn:Ef. pose proof (keeps_scoped p (on_err (fun _ : E => tt) f) (fun a => on_err (fun _ => tt) (g a)) none) as Hs.
  specialize (Hs ltac:(by apply keeps_on_err) ltac:(intros a; by apply keeps_on_err)). specialize (Hs h). specialize (Hf _ _ _ Ef).
  rewrite bind_eq in Hr. unfold attempt_ in Hr. rewrite Ef in Hr. destruct x as [a|e|]; cbn [catch] in Hr.
  - rewrite bind_eq, on_err_eq, Ef in Hs. cbn [fst snd map_err] in Hs. unfold scoped in *. rewrite on_err_eq in Hs. destruct (g a h1) as [r1 h2].
    injection Hr as <- <-. specialize (Hs _ _ eq_refl). by destruct r1.
  - injection Hr as <- <-. rewrite Hf. exists ∅. split_and!; [done|clear; set_solver|clear; set_solver].
  - by injection Hr as <- <-.
Qed.

Lemma keeps_attempt_none {E F A : Type} (f : M E A) : keeps f none -> keeps (E := F) (attempt_ f) none.
Proof using os_ok.
  intros Hf. eapply keeps_weaken; [by apply keeps_attempt|]. intros [a|e] S HS; [exact HS|exact HS].
Qed.
#[local] Hint Resolve keeps_attempt_none : keeps.

Lemma keeps_ssl {E : Type} c : keeps (E := E) (ssl c) none.
Proof using os_ok. unfold ssl. follow. Qed.
Lemma keeps_ssl_name {E : Type} c n : keeps (E := E) (ssl_name c n) none.
Proof using os_ok. unfold ssl_name. apply keeps_bind; [apply keeps_ssl|]. intros ?. follow. Qed.
Lemma keeps_ssl_rc {E : Type} c : keeps (E := E) (ssl_rc c) none.
Proof using os_ok. unfold ssl_rc. apply keeps_bind; [apply keeps_ssl|]. intros ?. follow. Qed.
#[local] Hint Resolve keeps_ssl keeps_ssl_name keeps_ssl_rc : keeps.

Lemma keeps_eligibility {E : Type} s : keeps (E := E) (ktls_eligibility s) none.
Proof using os_ok. unfold ktls_eligibility. follow. Qed.

Lemma keeps_secret s d n : keeps (tls13_traffic_secret s d n) none.
Proof using os_ok. unfold tls13_traffic_secret. follow. Qed.
Lemma keeps_sequences : keeps sequences none.
Proof using os_ok. unfold sequences. follow. Qed.
Lemma keeps_key_block n : keeps (key_block n) none.
Proof using os_ok. unfold key_block. follow. Qed.
#[local] Hint Resolve keeps_secret keeps_sequences keeps_key_block : keeps.

Lemma keeps_derive s su : keeps (derive s su) none.
Proof using os_ok.
  destruct su as [[] []]; cbn [derive]; unfold derive_tls13_aes128_gcm, derive_tls12_aes128_gcm, derive_tls13_aes256_gcm, derive_tls12_aes256_gcm,
    derive_tls13_chacha20_poly1305, derive_tls12_chacha20_poly1305; follow.
Qed.
Lemma keeps_ulp n : keeps (set_ulp_tls n) none.
Proof using os_ok. unfold set_ulp_tls. follow. Qed.
Lemma keeps_crypto_info n d c : keeps (set_crypto_info n d c) none.
Proof using os_ok. unfold set_crypto_info. follow. Qed.
#[local] Hint Resolve keeps_ulp keeps_crypto_info : keeps.
Lemma keeps_install s su tx rx : keeps (install s su tx rx) none.
Proof using os_ok.
  destruct su; cbn [install]; unfold install_aes_gcm_128, install_aes_gcm_256, install_chacha20_poly1305; follow.
Qed.
#[local] Hint Resolve keeps_derive keeps_install : keeps.
Lemma keeps_install_ktls s : keeps (install_ktls s) none.
Proof using os_ok. unfold install_ktls. follow. Qed.
#[local] Hint Resolve keeps_install_ktls : keeps.

Lemma keeps_secure ktls : keeps (secure_data_path cfg ktls) none.
Proof using os_ok. unfold secure_data_path. follow. Qed.

Lemma keeps_tc_exchange nl op m : keeps (TcNetlink.exchange nl op m) none.
Proof using os_ok.
  intros h r h' Hr. apply tc_exchange_ok in Hr as (_ & Ho & _). rewrite Ho. destruct r; [|done|done]. exists ∅. split_and!; [done|clear; set_solver|clear; set_solver].
Qed.
#[local] Hint Resolve keeps_tc_exchange : keeps.

Lemma keeps_shaping i s : keeps (apply_shaping i s) none.
Proof using os_ok.
  destruct s as [p|]; [|apply keeps_ret]. apply (keeps_attempt_scoped TcNetlink.sock).
  - unfold Shaper.open, TcNetlink.open. apply (keeps_handed id); [apply keeps_on_err, keeps_nl_open|done].
  - intros nl. apply keeps_bind; [|intros _; apply keeps_ret]. apply keeps_attempt_none.
    assert (Hr : forall nl i, keeps (Shaper.install_htb_root nl i) none) by (intros; unfold Shaper.install_htb_root, TcNetlink.next_seq; follow).
    assert (Hl : forall nl i s p, keeps (Shaper.install_htb_leaf nl i s p) none) by (intros; unfold Shaper.install_htb_leaf, TcNetlink.next_seq; follow).
    assert (Hq : forall nl i, keeps (Shaper.install_ingress_qdisc nl i) none) by (intros; unfold Shaper.install_ingress_qdisc, TcNetlink.next_seq; follow).
    assert (Hp : forall nl i s, keeps (Shaper.install_ingress_police_filter nl i s) none) by (intros; unfold Shaper.install_ingress_police_filter, TcNetlink.next_seq; follow).
    unfold Shaper.apply, Shaper.clear. destruct (is_empty p); [apply keeps_ret|]. apply keeps_bind; [destruct (egress p); follow|]. intros. follow.
Qed.

Lemma keeps_add_routes rt i rs : keeps (add_routes rt i rs) none.
Proof using os_ok.
  revert rt. induction rs as [|r rs IH]; intros rt; cbn [add_routes]; [apply keeps_ret|]. apply keeps_bind; [|intros _; apply IH].
  apply keeps_attempt_none. unfold RtNetlink.add_route, RtNetlink.next_seq. pose proof keeps_exchange. follow.
Qed.

Lemma keeps_routes i p : keeps (apply_routes i p) none.
Proof using os_ok.
  destruct p as [p|]; cbn [apply_routes]; [|apply keeps_ret]. case_decide; [apply keeps_ret|].
  apply (keeps_attempt_scoped RtNetlink.sock); [apply keeps_rt_open|]. intros rt. apply keeps_add_routes.
Qed.

Lemma keeps_sample now i st c : keeps (sample_acct_counters now i st c) none.
Proof using os_ok.
  unfold sample_acct_counters. apply keeps_bind; [|intros ?; apply keeps_ret]. apply keeps_attempt_none. apply (keeps_scoped RtNetlink.sock); [apply keeps_rt_open|].
  intros nl. unfold RtNetlink.link_stats64, RtNetlink.next_seq, NetlinkSocket.send, NetlinkSocket.recv_into. apply keeps_bind; [apply keeps_lift|]. intros m.
  apply keeps_bind; [apply keeps_on_err, keeps_bind; [by apply keeps_checked|intros r; follow]|]. intros _.
  apply keeps_bind; [apply keeps_on_err, keeps_bind; [by apply keeps_checked|intros r; follow]|]. intros b. apply keeps_lift.
Qed.

Lemma keeps_rekey b r : keeps (rekey_command cfg b r) none.
Proof using os_ok.
  unfold rekey_command. destruct (match Books.kppp b with Some _ => _ | None => _ end); [apply keeps_ret|]. apply keeps_bind; [|intros _; apply keeps_ret].
  apply keeps_attempt_none. unfold request_key_update. follow.
Qed.
End Descriptors.

Lemma fresh_trans (X Y U S T : gset Z) : S ## X -> Y = X ∪ S -> T ## Y -> U = Y ∪ T -> S ∪ T ## X /\ U = X ∪ (S ∪ T).
Proof. intros Hs -> Ht ->. split; [set_solver|by rewrite (assoc_L (∪))]. Qed.

Section Leak.
Context {os : Os}.

(** What a computation that succeeds leaves open *)
Definition leaves {A : Type} (f : G A) (R : A -> gset Z -> Prop) : Prop :=
  forall i h a i' h', f i h = (Ok a, i', h') -> exists S, R a S /\ S ## open_fds h /\ open_fds h' = open_fds h ∪ S.

Lemma leaves_keeps {A : Type} (f : G A) R : keeps_g f R -> leaves f R.
Proof using Type. intros Hf i h a i' h' Hr. exact (Hf _ _ _ _ _ Hr). Qed.

Lemma leaves_run {A : Type} (f : M SharedMssError A) R : keeps f R -> leaves (run_m f) R.
Proof using Type. intros Hf. by apply leaves_keeps, keeps_g_run. Qed.

Lemma leaves_ret {A : Type} (a : A) (R : A -> gset Z -> Prop) : R a ∅ -> leaves (mret a) R.
Proof using Type. intros HR. by apply leaves_keeps, keeps_g_ret. Qed.

Lemma leaves_bind {A B : Type} (f : G A) (g : A -> G B) R1 (R : B -> gset Z -> Prop) :
  leaves f R1 -> (forall a S1, R1 a S1 -> leaves (g a) (fun b S => R b (S1 ∪ S))) -> leaves (f ≫= g) R.
Proof using Type.
  intros Hf Hg i h b i' h'. rewrite g_bind_eq. destruct (f i h) as [[[a|e|] i1] h1] eqn:Ef; [|done|done]. intros Hr.
  destruct (Hf _ _ _ _ _ Ef) as (S1 & H1 & Hd & Hh). destruct (Hg a S1 H1 _ _ _ _ _ Hr) as (S & HR & Hd' & Hh'). exists (S1 ∪ S). split; [done|]. by eapply fresh_trans.
Qed.

Lemma leaves_then {A B : Type} (f : G A) (g : A -> G B) (R : B -> gset Z -> Prop) :
  leaves f none -> (forall a, leaves (g a) R) -> leaves (f ≫= g) R.
Proof using Type.
  intros Hf Hg. eapply leaves_bind; [exact Hf|]. intros a S1 -> i h b i' h' Hr. destruct (Hg a _ _ _ _ _ Hr) as (S & HR & Hd & Hh). exists S. by rewrite (left_id_L ∅ (∪)).
Qed.
End Leak.

Section Session.
Context {os : Os} {os_ok : OsOk os} {bp : BuildProfile} {lib : AwsLc} (fuel : nat) (pid : Z) (cfg : Config.t).

Definition fds (b : Books.t) : gset Z := match Books.kppp b with Some k => backend_fds k | None => ∅ end.

Lemma leaves_network_up b now nanos addrs :
  leaves (network_up fuel pid cfg b now nanos addrs) (fun x S => fds x.1.1 = fds b ∪ S).
Proof using os_ok.
  unfold network_up. destruct (Books.kppp b) as [k|] eqn:Ek.
  { apply leaves_ret. cbn. clear. set_solver. }
  assert (Hb : fds b = ∅) by (unfold fds; by rewrite Ek). rewrite Hb.
  apply leaves_then; [apply leaves_run, keeps_eligibility|]. intros ktls. apply leaves_then; [apply leaves_run, keeps_secure|]. intros [mode|].
  2: { apply leaves_ret. cbn. rewrite Hb. clear. set_solver. }
  eapply leaves_bind; [apply leaves_run, keeps_attempt, keeps_bring_up|]. intros [k|e] S1 HS.
  2: { apply leaves_ret. cbn. rewrite Hb, HS. clear. set_solver. }
  subst S1. unfold path_ready. cbv zeta. apply leaves_then; [apply leaves_run, keeps_shaping|]. intros _. apply leaves_then.
  { unfold clamp_mss. destruct (Config.mss_table cfg); [|by apply leaves_ret].
    apply leaves_then; [apply leaves_keeps, keeps_g_attempt, keeps_add|]. intros r. by apply leaves_ret. }
  intros handle. apply leaves_then; [apply leaves_run, keeps_routes|]. intros _. destruct (start_accounting _ _ _ _ _ _) as [st recs].
  apply leaves_ret. cbn. clear. set_solver.
Qed.

Lemma policy_fds b now : fds (apply_policy b now) = fds b.
Proof using Type. unfold fds, apply_policy. by destruct (Books.kppp b) eqn:Ek, (Pending.policy (Books.pending b)); cbn; rewrite ?Ek. Qed.

Lemma leaves_tick b now : leaves (run_m (periodic_tick cfg b now)) (fun x S => fds x.1 = fds b ∪ S).
Proof using os_ok.
  assert (Hk : fds b = fds b ∪ ∅) by (clear; set_solver). unfold periodic_tick. destruct (_ <? _); [by apply leaves_ret|]. cbv zeta. destruct (Books.acct_state b) as [st|]; [|by apply leaves_ret].
  destruct (Config.acct cfg); [|by apply leaves_ret]. intros i h a i' h' Hr. unfold run_m in Hr. rewrite bind_eq in Hr.
  destruct (sample_acct_counters _ _ _ _ h) as [[c|e|] h1] eqn:Es; [|done|done]. apply keeps_sample in Es as (S & -> & Hd & Hh). injection Hr as <- <- <-. by exists ∅.
Qed.

Lemma leaves_turn b now ev : leaves (turn fuel pid cfg b now ev) (fun x S => fds x.1.1 = fds b ∪ S).
Proof using os_ok.
  assert (Hk : fds b = fds b ∪ ∅) by (clear; set_solver).
  unfold turn. apply (leaves_bind _ _ (fun x S => fds x.1.1 = fds b ∪ S)).
  - destruct ev; cbn [on_event]; try by apply leaves_ret.
    + apply leaves_network_up.
    + eapply leaves_bind; [apply leaves_tick|]. intros [b' recs] S1 HS. apply leaves_ret. cbn in *. by rewrite (right_id_L ∅ (∪)).
    + apply leaves_then; [apply leaves_run, keeps_rekey|]. intros _. by apply leaves_ret.
  - intros [[b' recs] go] S1 HS. apply leaves_ret. cbn in *. rewrite (right_id_L ∅ (∪)). by destruct go; rewrite ?policy_fds.
Qed.

Lemma leaves_steps b i h t evs log w go :
  fds b = ∅ -> steps fuel pid cfg (b, i, h, t) evs log w go ->
  fds w.1.1.1 ## open_fds h /\ open_fds w.1.2 = open_fds h ∪ fds w.1.1.1.
Proof using os_ok.
  intros Hb. induction 1 as [|evs log b1 i1 h1 t1 now ev b' i' h' recs go Hs IH Ht Hen Hturn].
  - cbn. rewrite Hb. clear. set_solver.
  - cbn in *. destruct IH as [Hd Hh]. apply leaves_turn in Hturn as (S & HS & Hd' & Hh'). cbn in HS. rewrite HS. by eapply fresh_trans.
Qed.

Lemma finish_closes b now i h recs i' h' base :
  fds b ## base -> open_fds h = base ∪ fds b -> finish fuel pid cfg b now i h = (Ok recs, i', h') -> open_fds h' = base.
Proof using os_ok.
  intros Hd Hh. unfold finish. rewrite g_bind_eq. destruct (run_m (stop_guard cfg b now) i h) as [[[rs|e|] i1] h1] eqn:E1; [|done|done].
  assert (H1 : open_fds h1 = open_fds h).
  { assert (Hk : keeps (stop_guard cfg b now) none).
    { unfold stop_guard. destruct (Books.acct_state b); [|apply keeps_ret]. destruct (Config.acct cfg); [|apply keeps_ret].
      apply keeps_bind; [apply keeps_sample|]. intros c. apply keeps_ret. }
    apply (keeps_g_run _ _ Hk) in E1 as (S & -> & _ & ->). clear. set_solver. }
  rewrite g_bind_eq. destruct ((match Books.mss_handle b with Some g => SharedMssHandle_drop fuel pid g | None => mret tt end : G ()) i1 h1) as [[[[]|e|] i2] h2] eqn:E2; [|done|done].
  assert (H2 : open_fds h2 = open_fds h1).
  { destruct (Books.mss_handle b) as [g|]; [|by injection E2 as <- <-]. apply keeps_remove in E2 as (S & -> & _ & ->). clear. set_solver. }
  rewrite g_bind_eq. unfold fds in *. destruct (Books.kppp b) as [k|].
  - unfold run_m. destruct k as [q|q]; unfold drop_backend, drop_kmod, close; m_run; intros [= <- <- <-]; cbn [open_fds fst snd backend_fds] in *;
      clear - Hd Hh H1 H2; set_solver.
  - intros [= <- <- <-]. clear - Hd Hh H1 H2. set_solver.
Qed.

End Session.

(** ** The data path and the TLS connection *)

(** [SSTP_IOC_ATTACH] fails with [EOPNOTSUPP] unless kTLS is installed in both directions
    ([kernel-abi/sstp.h]). *)
Class AttachNeedsKtls (os : Os) :=
  attach_needs_ktls : forall h dev req major minor tcp mtu s rc ints out,
    answer h (Sys_ioctl dev req (AttachArg major minor tcp mtu s)) = Ret rc ints out ->
    exists tx rx, (tcp, SOL_TLS, TLS_TX, tx) ∈ sockopts h /\ (tcp, SOL_TLS, TLS_RX, rx) ∈ sockopts h.

Section Needs.
Context {os : Os}.

(** [m] succeeds only with a result in [P], after options in [C] were set. *)
Definition needs {E A : Type} (m : M E A) (C : list (Z * Z * Z * bytes) -> Prop) (P : A -> Prop) : Prop :=
  forall h a h', m h = (Ok a, h') -> C (sockopts h) /\ P a.

Lemma needs_ret {E A : Type} (a : A) (P : A -> Prop) : P a -> needs (E := E) (mret a) (fun _ => True) P.
Proof. by intros Ha h a' h' [= <- <-]. Qed.

Lemma needs_first {E A B : Type} (m : M E A) (f : A -> M E B) C P Q :
  needs m C P -> (forall a, needs (f a) (fun _ => True) Q) -> needs (m ≫= f) C Q.
Proof.
  intros Hm Hf h b h'. rewrite bind_eq. destruct (m h) as [[a|e|] h1] eqn:Em; [|done|done]. intros Hr.
  split; [exact (proj1 (Hm _ _ _ Em))|exact (proj2 (Hf _ _ _ _ Hr))].
Qed.

Lemma needs_then {E A B : Type} (m : M E A) (f : A -> M E B) C Q : mute m -> (forall a, needs (f a) C Q) -> needs (m ≫= f) C Q.
Proof.
  intros Hm Hf h b h'. specialize (Hm h). rewrite bind_eq. destruct (m h) as [[a|e|] h1]; [|done|done]. cbn in Hm. rewrite <- Hm. apply Hf.
Qed.

Lemma needs_on_err {E F A : Type} (f : E -> F) (m : M E A) C P : needs m C P -> needs (on_err f m) C P.
Proof. intros Hm h a h'. rewrite on_err_eq. destruct (m h) as [[x|e|] h1] eqn:Em; [|done|done]. intros [= <- <-]. exact (Hm _ _ _ Em). Qed.

Lemma needs_owned {E A : Type} fd (m : M E A) C P : needs m C P -> needs (owned fd m) C P.
Proof. intros Hm h a h'. unfold owned. destruct (m h) as [[x|e|] h1] eqn:Em; [|done|done]. intros [= <- <-]. exact (Hm _ _ _ Em). Qed.

Lemma needs_scoped {E A : Type} fd (m : M E A) C P : needs m C P -> needs (scoped fd m) C P.
Proof. intros Hm h a h'. unfold scoped. destruct (m h) as [[x|e|] h1] eqn:Em; [|done|done]. intros [= <- <-]. exact (Hm _ _ _ Em). Qed.

Lemma needs_any {E A : Type} (m : M E A) : needs m (fun _ => True) any.
Proof. done. Qed.
End Needs.

Section Agreement.
Context {os : Os} {kmod_ok : AttachNeedsKtls os} {libssl : Libssl os} {bp : BuildProfile} {lib : AwsLc} {laws : AwsLcLaws lib}.
Context (fuel : nat) (pid : Z) (cfg : Config.t).

Definition ktls_on (tcp : Z) (opts : list (Z * Z * Z * bytes)) : Prop := exists tx, (tcp, SOL_TLS, TLS_TX, tx) ∈ opts.

Lemma attach_needs t u m : needs (attach t u m) (ktls_on t) any.
Proof using kmod_ok.
  unfold attach. apply needs_then; [unfold open_dev_sstp; muted|]. intros dev.
  apply (needs_first _ _ _ any); [|intros s; apply needs_any]. apply needs_scoped. intros h a h'. rewrite bind_eq, on_err_eq. unfold checked. rewrite bind_eq.
  cbn [sys]. destruct (answer h _) as [rc ints out|e] eqn:Ea; [|done]. intros _. split; [|done]. destruct (attach_needs_ktls _ _ _ _ _ _ _ _ _ _ _ Ea) as (tx & rx & H & _). by exists tx.
Qed.

Lemma ppp_needs t l p m : needs (bring_up_ppp t l p m) (ktls_on t) (fun k => is_kernel k = true).
Proof using kmod_ok.
  unfold bring_up_ppp. apply needs_then; [apply mute_on_err, mute_unit|]. intros u. apply needs_owned. apply needs_then; [apply mute_resolve|]. intros i.
  apply needs_then; [apply mute_on_err, mute_rt_open|]. intros nl. apply needs_scoped. apply needs_then; [apply mute_on_err, mute_rt_bring_up|]. intros ?.
  apply needs_then; [apply mute_on_err, mute_probe|]. intros _. apply (needs_first _ _ _ any); [apply needs_on_err, attach_needs|]. intros k. by apply needs_ret.
Qed.

Lemma tun_needs l p m : needs (bring_up_tun l p m) (fun _ => True) (fun k => is_kernel k = false).
Proof using Type. unfold bring_up_tun. apply (needs_first _ _ _ any); [apply needs_any|]. intros k. by apply needs_ret. Qed.

(** After [secure_data_path]: the connection was handed over when the kernel path is next and the session
    fit for it; otherwise the TUN path is next, or the kernel path was forced, on an untouched connection. *)
Definition secured (h h' : history) (mode : DataPathMode.t) : Prop :=
  match mode with
  | DataPathMode.Kernel => Config.data_path cfg <> DataPathMode.Tun /\ (handed_over (Config.tls cfg) h h' \/ sockopts h' = sockopts h)
  | DataPathMode.Tun => Config.data_path cfg <> DataPathMode.Kernel /\ sockopts h' = sockopts h
  | DataPathMode.Auto => False
  end.

Lemma secure_run ktls h mode h' : secure_data_path cfg ktls h = (Ok (Some mode), h') -> secured h h' mode.
Proof using laws.
  unfold secure_data_path, effective_data_path. destruct (Config.data_path cfg) eqn:Ed, (compatible ktls); try (intros [= <- <-]; cbn; rewrite Ed; by auto).
  all: rewrite bind_eq; unfold attempt_; destruct (install_ktls (Config.tls cfg) h) as [r h1] eqn:Ei; apply install_ktls_run in Ei.
  all: destruct r as [[]|[]|]; cbn [catch]; intros Hr; try discriminate; injection Hr as <- <-; cbn; rewrite Ed; split; auto; discriminate.
Qed.

Lemma data_path_run mode h h1 k h2 :
  (forall o, o ∈ sockopts h -> o.1.1.1 <> fd (Config.tls cfg)) -> secured h h1 mode ->
  forall l p m, bring_up mode (fd (Config.tls cfg)) l p m h1 = (Ok k, h2) ->
  if is_kernel k then Config.data_path cfg <> DataPathMode.Tun /\ handed_over (Config.tls cfg) h h2
  else Config.data_path cfg <> DataPathMode.Kernel /\ sockopts h2 = sockopts h.
Proof using kmod_ok.
  intros Hnew Hs l p m Hk. pose proof (mute_data_path mode (fd (Config.tls cfg)) l p m h1) as Hm. rewrite Hk in Hm. cbn [snd] in Hm. destruct mode; cbn [secured] in Hs; [done| |].
  - destruct (ppp_needs _ _ _ _ _ _ _ Hk) as [[tx Hon] ->]. destruct Hs as [Hd [Hh|Hh]].
    + split; [done|]. unfold handed_over in *. by rewrite Hm.
    + rewrite Hh in Hon. by apply Hnew in Hon.
  - destruct (tun_needs _ _ _ _ _ _ Hk) as [_ ->]. destruct Hs as [Hd Hh]. split; [done|]. by rewrite Hm.
Qed.

Lemma path_ready_mute b now nanos ip m ktls k : mute_g (path_ready fuel pid cfg b now nanos ip m ktls k).
Proof using Type.
  unfold path_ready. cbv zeta. apply mute_g_bind; [apply mute_g_run, mute_shaping|]. intros _. apply mute_g_bind.
  { unfold clamp_mss. destruct (Config.mss_table cfg); [|done]. apply mute_g_bind; [apply mute_g_attempt, mute_add|]. done. }
  intros handle. apply mute_g_bind; [apply mute_g_run, mute_routes|]. intros _. by destruct (start_accounting _ _ _ _ _ _).
Qed.

(** C32: The data path and the TLS connection of a session agree.  When [NetworkUp] gives the session the
    kernel module, this was allowed by the configuration and the connection was handed over to kTLS before,
    so that it goes on without a break; when it gives it a TUN device, the connection still belongs to
    libssl: not one option of the socket was changed.  Failures of shaping, MSS clamping and routes change
    nothing in this, and a session without a data path is ended and reports nothing. *)
Theorem data_path_matches_tls b now nanos addrs i h b' recs go i' h' :
  Books.kppp b = None -> (forall o, o ∈ sockopts h -> o.1.1.1 <> fd (Config.tls cfg)) ->
  network_up fuel pid cfg b now nanos addrs i h = (Ok (b', recs, go), i', h') ->
  match Books.kppp b' with
  | Some k =>
      go = true /\
      if is_kernel k then Config.data_path cfg <> DataPathMode.Tun /\ handed_over (Config.tls cfg) h h'
      else Config.data_path cfg <> DataPathMode.Kernel /\ sockopts h' = sockopts h
  | None => go = false /\ recs = []
  end.
Proof using kmod_ok laws.
  intros Hb Hnew. unfold network_up. rewrite Hb, g_bind_eq. pose proof (mute_eligibility (Config.tls cfg) h) as He. unfold run_m at 1.
  destruct (ktls_eligibility (Config.tls cfg) h) as [[ktls|e|] h0]; [|done|done]. cbn [snd] in He. rewrite g_bind_eq. unfold run_m at 1.
  destruct (secure_data_path cfg ktls h0) as [[[mode|]|e|] h1] eqn:Es; [| |done|done].
  2: { intros [= <- <- <- <- <-]. by rewrite Hb. }
  apply secure_run in Es. rewrite g_bind_eq. unfold run_m at 1, attempt_.
  destruct (bring_up mode _ _ _ _ h1) as [[k|e|] h2] eqn:Ek; cbn [catch]; [| |done].
  2: { intros [= <- <- <- <- <-]. by rewrite Hb. }
  intros Hr. pose proof (path_ready_mute b now nanos (AssignedAddrs.ip addrs) (AssignedAddrs.mtu addrs) ktls k i h2) as Hm. rewrite Hr in Hm. cbn [snd] in Hm.
  apply path_ready_result in Hr as (-> & -> & _). split; [done|].
  assert (Hnew0 : forall o, o ∈ sockopts h0 -> o.1.1.1 <> fd (Config.tls cfg)) by (by rewrite He).
  pose proof (data_path_run _ _ _ _ _ Hnew0 Es _ _ _ Ek) as Hd. unfold handed_over in *. by rewrite Hm, <- He.
Qed.
End Agreement.
