(* ===== verification/TaskBooks.v ===== *)
(** * The resources of a session: accounting records and deadlines

    The accounting records of a session are a Start, Interim-Updates and a Stop with the cause that ended
    it; the deadline of the RADIUS policy is kept; the idle timeout does not follow the traffic, and the
    MSS of a session without Framed-MTU does not fit its interface.  [TaskDemo] runs a session. *)

From stdpp Require Import strings gmap.
From S2P Require Import Prelude RustText RustStd Crypto Os Netlink NetlinkProps RtNetlink RtNetlinkProps DataPath DataPathProps.
From S2P Require Import Mikrotik Tc TcProps Nft NftWire NftTable Tls TlsProps PppDriver Radius Accounting Task TaskProps.

(** ** Accounting *)

Section Accounting.
Context {os : Os} {bp : BuildProfile} {lib : AwsLc} (fuel : nat) (pid : Z) (cfg : Config.t).

(** The kernel reported these counters in a reply received in [h]. *)
Definition reported (h : history) (s : LinkStats64) : Prop :=
  exists fd n ints out reply, let buf := zeros 8192 in
    (Sys_recv fd (len buf), Ret n ints out) ∈ h /\
    slice (E := io_error) (take (length buf) out ++ drop (length out) buf) 0 n = Ok reply /\ RtNetlink.stats_reply reply = Ok s.

Definition volume (c : AcctCounters) : Z * Z * Z * Z := (input_octets c, output_octets c, input_packets c, output_packets c).

(** Fresh counters of the kernel, or those of the record before *)
Definition sampled (before : AcctCounters) (h : history) (c : AcctCounters) : Prop :=
  volume c = volume before \/
  exists s, reported h s /\ volume c = (rx_bytes s, tx_bytes s, rx_packets s mod 2 ^ 32, tx_packets s mod 2 ^ 32).

Definition seconds (t0 t : Z) : Z := ((t - t0) / SECOND) mod 2 ^ 32.

Lemma link_stats_reported nl i h s h' : RtNetlink.link_stats64 nl i h = (Ok s, h') -> reported h' s.
Proof using Type.
  unfold RtNetlink.link_stats64, RtNetlink.next_seq, NetlinkSocket.send, NetlinkSocket.recv_into. cbv zeta. rewrite bind_eq.
  destruct (lift _ h) as [[m|e|] h0]; [|done|done]. rewrite bind_eq, on_err_eq. destruct ((r ← checked _; _) h0) as [[u|e|] h1]; [|done|done]. cbn [map_err fst snd].
  rewrite bind_eq, on_err_eq. unfold checked. rewrite !bind_eq. cbn [sys]. destruct (answer h1 _) as [n ints out|e] eqn:Ea; [|done].
  cbn [mret m_ret map_err fst snd lift]. destruct (slice _ 0 n) as [reply|e|] eqn:Er; [|done|done]. cbn [map_err]. intros [= Hs <-].
  exists (RtNetlink.sock nl), n, ints, out, reply. cbv zeta. split; [apply list_elem_of_here|by split].
Qed.

Lemma sample_run now i t0 c h c' h' :
  t0 <= now -> sample_acct_counters now i t0 c h = (Ok c', h') -> session_time c' = seconds t0 now /\ sampled c h' c'.
Proof using Type.
  intros Ht. unfold sample_acct_counters, seconds. rewrite bind_eq, Z.max_r by lia. unfold attempt_. rewrite bind_eq.
  destruct (RtNetlink.open h) as [[nl|e|] h1]; [|cbn [catch]; intros [= <- <-]; split; [done|by left]|done]. unfold scoped.
  destruct (RtNetlink.link_stats64 nl i h1) as [[s|e|] h2] eqn:Es; cbn [catch]; [| |done].
  - intros [= <- <-]. split; [done|]. right. exists s. split; [|done]. apply link_stats_reported in Es as (fd & n & ints & out & reply & Hin & Hr).
    exists fd, n, ints, out, reply. split; [by apply list_elem_of_further|done].
  - intros [= <- <-]. split; [done|by left].
Qed.

(** *** What the events ask for *)

(** The user and the policy of the last Access-Accept; and for the first [NetworkUp], if it came, the time,
    the user and the identity of the accounting session, if there was an Access-Accept before. *)
Record asked := { k_accepted : option (bytes * SessionPolicy.t); k_up : option (option (Z * bytes * AcctSession)) }.

Definition asked_step (k : asked) (e : Z * event) : asked :=
  match e with
  | (_, Accepted user _ o) => {| k_accepted := Some (user, policy o); k_up := k_up k |}
  | (t, NetworkUp addrs nanos) =>
      match k_up k with
      | Some _ => k
      | None =>
          {| k_accepted := k_accepted k;
             k_up := Some (match k_accepted k with
                           | Some (user, p) =>
                               Some (t, user, with_class (AcctSession_new nanos (AssignedAddrs.ip addrs) (Config.id cfg mod 2 ^ 32)) (SessionPolicy.class p))
                           | None => None
                           end) |}
      end
  | _ => k
  end.

Definition asked_for (evs : list (Z * event)) : asked := fold_left asked_step evs {| k_accepted := None; k_up := None |}.

Definition cause_step (c : SessionEnd.t) (e : Z * event) : SessionEnd.t :=
  match e.2 with
  | Drain => SessionEnd.NasReboot
  | Disconnect r => DisconnectReason.session_end r
  | SessionTimeout => SessionEnd.SessionTimeout
  | IdleTimeout => SessionEnd.IdleTimeout
  | _ => c
  end.

Definition cause_of (evs : list (Z * event)) : SessionEnd.t := fold_left cause_step evs SessionEnd.LostCarrier.

(** *** The records *)

Definition start_record (user : bytes) (s : AcctSession) : AcctRecord :=
  {| r_user := user; r_peer := Config.peer cfg; r_session := s; r_event := Start; r_counters := default_counters |}.

(** A later record of the same accounting session *)
Definition follows (t0 : Z) (user : bytes) (s : AcctSession) (ev : AcctEvent) (e : entry) : Prop :=
  r_user (e_record e) = user /\ r_peer (e_record e) = Config.peer cfg /\ r_session (e_record e) = s /\ r_event (e_record e) = ev /\
  session_time (r_counters (e_record e)) = seconds t0 (e_time e).

Definition last_counters (c : AcctCounters) (l : list entry) : AcctCounters := default c ((fun e => r_counters (e_record e)) <$> last l).

Fixpoint chained (c : AcctCounters) (l : list entry) : Prop :=
  match l with
  | [] => True
  | e :: l => sampled c (e_calls e) (r_counters (e_record e)) /\ chained (r_counters (e_record e)) l
  end.

Lemma chained_snoc c l e : chained c l -> sampled (last_counters c l) (e_calls e) (r_counters (e_record e)) -> chained c (l ++ [e]).
Proof using Type.
  revert c. induction l as [|x l IH]; intros c; cbn [chained app]; [by intros _ H|]. intros [Hx Hl] He. split; [done|]. apply IH; [done|].
  destruct l as [|y l]; [exact He|]. unfold last_counters in *. cbn [last] in He. destruct (last (y :: l)) eqn:El; [exact He|]. by apply last_None in El.
Qed.

Lemma last_counters_snoc c l e : last_counters c (l ++ [e]) = r_counters (e_record e).
Proof using Type. unfold last_counters. by rewrite last_snoc. Qed.

(** The books between two events *)
Definition books_ok (evs : list (Z * event)) (log : list entry) (b : Books.t) (t : Z) (go : bool) : Prop :=
  Books.acct_cause b = cause_of evs /\
  match Books.kppp b with
  | None => Books.acct_state b = None /\ log = [] /\
            (go = true -> k_up (asked_for evs) = None /\ Pending.username (Books.pending b) = fst <$> k_accepted (asked_for evs) /\
                          Pending.policy (Books.pending b) = snd <$> k_accepted (asked_for evs))
  | Some _ =>
      match k_up (asked_for evs) with
      | Some (Some (t0, user, s)) =>
          if Config.acct cfg then
            exists st e0 l, Books.acct_state b = Some st /\ a_username st = user /\ a_session st = s /\ a_started st = t0 /\ t0 <= t /\
              log = e0 :: l /\ e_time e0 = t0 /\ e_record e0 = start_record user s /\ a_last_counters st = last_counters default_counters l /\
              Forall (follows t0 user s InterimUpdate) l /\ chained default_counters l
          else Books.acct_state b = None /\ log = []
      | Some None => Books.acct_state b = None /\ log = []
      | None => False
      end
  end.

Lemma asked_snoc evs e : asked_for (evs ++ [e]) = asked_step (asked_for evs) e.
Proof using Type. unfold asked_for. by rewrite fold_left_app. Qed.

Lemma cause_snoc evs e : cause_of (evs ++ [e]) = cause_step (cause_of evs) e.
Proof using Type. unfold cause_of. by rewrite fold_left_app. Qed.

Lemma policy_ok_books evs log b t now go : books_ok evs log b t go -> books_ok evs log (apply_policy b now) t go.
Proof using Type.
  unfold apply_policy. destruct (Books.kppp b) eqn:Ek; [|done]. destruct (Pending.policy _); [|done]. unfold books_ok. cbn [Books.kppp Books.acct_cause Books.acct_state]. by rewrite Ek.
Qed.

(** Events that leave the data path and the records alone *)
Lemma idle_ok_books evs log b b' t now e go go' :
  books_ok evs log b t true -> t <= now -> Books.kppp b' = Books.kppp b -> Books.acct_state b' = Books.acct_state b -> 
  Books.acct_cause b' = cause_step (Books.acct_cause b) e -> k_up (asked_step (asked_for evs) e) = k_up (asked_for evs) ->
  (go = true -> Pending.username (Books.pending b') = fst <$> k_accepted (asked_step (asked_for evs) e) /\
                Pending.policy (Books.pending b') = snd <$> k_accepted (asked_step (asked_for evs) e)) \/ Books.kppp b <> None ->
  go' = go -> books_ok (evs ++ [e]) (log ++ []) b' now go'.
Proof using Type.
  intros [Hc Hk] Ht Hkp Hst Hcause Hup Hacc ->. unfold books_ok. rewrite app_nil_r, asked_snoc, cause_snoc, Hkp, Hst, Hup, Hcause, Hc. split; [done|].
  destruct (Books.kppp b).
  - destruct (k_up (asked_for evs)) as [[[[t0 u] s]|]|]; [|done|done]. destruct (Config.acct cfg); [|done]. destruct Hk as (st & e0 & l & H). exists st, e0, l. naive_solver lia.
  - destruct Hk as (? & ? & Hgo). destruct (Hgo eq_refl) as (? & _). split; [done|]. split; [done|]. intros Hg. destruct Hacc as [Hacc|]; [|done]. split; [done|]. by apply Hacc.
Qed.

Lemma tick_ok_books evs log b t now h b' recs h' :
  books_ok evs log b t true -> t <= now -> periodic_tick cfg b now h = (Ok (b', recs), h') ->
  books_ok (evs ++ [(now, Tick)]) (log ++ entries now h' recs) b' now true.
Proof using Type.
  intros Hok Ht. unfold periodic_tick. cbv zeta. destruct (_ <? _).
  { intros [= <- <- <-]. apply (idle_ok_books _ _ b _ t _ _ true); try done. destruct Hok as [_ Hk]. destruct (Books.kppp b); [by right|]. left. intros _. naive_solver. }
  assert (Hidle : forall d, books_ok (evs ++ [(now, Tick)]) (log ++ []) (Books.with_deadlines b (Books.acct_state b) d) now true).
  { intros d. apply (idle_ok_books _ _ b _ t _ _ true); try done. destruct Hok as [_ Hk]. destruct (Books.kppp b); [by right|]. left. intros _. naive_solver. }
  destruct (Books.acct_state b) as [st|] eqn:Est; [|by intros [= <- <- <-]]. destruct (Config.acct cfg) eqn:Ea; [|by intros [= <- <- <-]].
  rewrite bind_eq. destruct (sample_acct_counters _ _ _ _ h) as [[c|e|] h1] eqn:Es; [|done|done]. intros [= <- <- <-].
  destruct Hok as [Hc Hk]. unfold books_ok. rewrite asked_snoc, cause_snoc. cbn [asked_step cause_step snd Books.kppp Books.with_deadlines Books.acct_cause Books.acct_state]. split; [done|].
  destruct (Books.kppp b) as [k|]; [|naive_solver]. destruct (k_up (asked_for evs)) as [[[[t0 u] s]|]|]; [|naive_solver|done]. rewrite Ea in *.
  destruct Hk as (st' & e0 & l & Hst & Hu & Hs & Ht0 & Hle & -> & He0 & Hr0 & Hlast & Hall & Hch). rewrite Est in Hst. injection Hst as <-.
  apply sample_run in Es as [Hsec Hsam]; [|lia]. rewrite Ht0 in Hsec. rewrite Hlast in Hsam.
  eexists _, e0, (l ++ entries now h1 [_]). cbn [app entries map]. split; [done|]. split_and!; try done; cbn [a_last_counters a_started]; try lia.
  - by rewrite last_counters_snoc.
  - apply Forall_app. split; [done|]. constructor; [|done]. split_and!; try done; cbn.
  - by apply chained_snoc.
Qed.

(** [network_up] gives a data path or ends the session *)
Lemma network_up_cases b now nanos addrs i h b' recs go i' h' :
  Books.kppp b = None -> network_up fuel pid cfg b now nanos addrs i h = (Ok (b', recs, go), i', h') ->
  (b' = b /\ recs = [] /\ go = false) \/
  exists ktls k h1, path_ready fuel pid cfg b now nanos (AssignedAddrs.ip addrs) (AssignedAddrs.mtu addrs) ktls k i h1 = (Ok (b', recs, go), i', h').
Proof using Type.
  intros Hb. unfold network_up. rewrite Hb, g_bind_eq. unfold run_m at 1. destruct (ktls_eligibility _ h) as [[ktls|e|] h0]; [|done|done].
  rewrite g_bind_eq. unfold run_m at 1. destruct (secure_data_path cfg ktls h0) as [[[mode|]|e|] h1]; [| |done|done].
  2: { intros [= <- <- <- <- <-]. by left. }
  rewrite g_bind_eq. unfold run_m at 1, attempt_. destruct (bring_up mode _ _ _ _ h1) as [[k|e|] h2]; cbn [catch]; [| |done].
  - intros Hr. right. by exists ktls, k, h2.
  - intros [= <- <- <- <- <-]. by left.
Qed.

Lemma network_up_ok_books evs log b t now nanos addrs i h b' recs go i' h' :
  books_ok evs log b t true -> t <= now -> network_up fuel pid cfg b now nanos addrs i h = (Ok (b', recs, go), i', h') ->
  books_ok (evs ++ [(now, NetworkUp addrs nanos)]) (log ++ entries now h' recs) b' now go.
Proof using Type.
  intros Hok Ht Hr. destruct (Books.kppp b) as [k|] eqn:Ek.
  { unfold network_up in Hr. rewrite Ek in Hr. injection Hr as <- <- <- <- <-. apply (idle_ok_books _ _ b _ t _ _ true); try done.
    - destruct Hok as [_ Hk]. rewrite Ek in Hk. cbn [asked_step]. by destruct (k_up (asked_for evs)) eqn:Eu.
    - right. by rewrite Ek. }
  destruct Hok as [Hc Hk]. rewrite Ek in Hk. destruct Hk as (Hst & -> & Hgo). destruct (Hgo eq_refl) as (Hup & Hu & Hp).
  unfold books_ok. rewrite asked_snoc, cause_snoc. cbn [cause_step snd asked_step]. rewrite Hup. cbn [k_up app].
  destruct (network_up_cases _ _ _ _ _ _ _ _ _ _ _ Ek Hr) as [(-> & -> & ->)|(ktls & k & h1 & Hr')]; [by rewrite Ek|]. clear Hr. rename Hr' into Hr.
  apply path_ready_result in Hr as (-> & -> & -> & Hst' & Hc' & _). rewrite Hc', Hst'. split; [done|].
  unfold start_accounting. rewrite Hu, Hp. destruct (k_accepted (asked_for evs)) as [[user p]|]; cbn [fmap option_fmap option_map fst snd]; [|done].
  destruct (Config.acct cfg); [|done]. cbn [fst snd entries map]. eexists _, _, []. by split_and!.
Qed.

Lemma steps_ok_books i0 info h0 t0 evs log w go :
  steps fuel pid cfg (init cfg t0 info, i0, h0, t0) evs log w go -> books_ok evs log w.1.1.1 w.2 go.
Proof using Type.
  induction 1 as [|evs log b i h t now ev b' i' h' recs go Hs IH Ht Hen Hturn]; [done|]. cbn [fst snd] in *.
  unfold turn in Hturn. rewrite g_bind_eq in Hturn. destruct (on_event _ _ _ _ _ _ i h) as [[[[[b1 recs1] go1]|e|] i1] h1] eqn:Ee; [|done|done].
  injection Hturn as Hb' <- <- <- <-.
  assert (Hk : books_ok (evs ++ [(now, ev)]) (log ++ entries now h1 recs1) b1 now go1).
  2: { subst b'. destruct go1; [by apply policy_ok_books|done]. }
  clear Hb' b'. assert (Hpend : Books.kppp b <> None \/ Books.kppp b = None /\ Pending.username (Books.pending b) = fst <$> k_accepted (asked_for evs) /\
    Pending.policy (Books.pending b) = snd <$> k_accepted (asked_for evs)).
  { destruct IH as [_ Hk]. destruct (Books.kppp b); [by left|]. right. naive_solver. }
  destruct ev; cbn [on_event] in Ee.
  2: { by eapply network_up_ok_books. }
  2: { rewrite g_bind_eq in Ee. unfold run_m in Ee. destruct (periodic_tick cfg b now h) as [[[b2 r2]|e|] h2] eqn:Etick; [|done|done].
       injection Ee as <- <- <- <- <-. by eapply tick_ok_books. }
  4: { rewrite g_bind_eq in Ee. destruct (run_m _ i h) as [[[x|e|] i2] h2]; [|done|done]. injection Ee as <- <- <- <- <-.
       apply (idle_ok_books _ _ b _ t _ _ true); try done. naive_solver. }
  all: injection Ee as <- <- <- <- <-; eapply (idle_ok_books _ _ b _ t); try done; cbn [asked_step k_accepted fst snd fmap option_fmap option_map]; naive_solver.
Qed.

End Accounting.

(** ** Deadlines *)

Section Limits.
Context {os : Os} {bp : BuildProfile} {lib : AwsLc} (fuel : nat) (pid : Z) (cfg : Config.t).

(** The policy that waits for the interface, whether the interface is up, and the end of the session *)
Record limits := { l_policy : option SessionPolicy.t; l_up : bool; l_end : option Z }.

Definition limits_step (l : limits) (e : Z * event) : limits :=
  let l := match e.2 with
           | Accepted _ _ o => {| l_policy := Some (policy o); l_up := l_up l; l_end := l_end l |}
           | NetworkUp _ _ => {| l_policy := l_policy l; l_up := true; l_end := l_end l |}
           | _ => l
           end in
  match l_policy l with
  | Some p =>
      if l_up l then
        {| l_policy := None; l_up := true;
           l_end := match SessionPolicy.session_timeout p with Some s => Some (e.1 + s * SECOND) | None => l_end l end |}
      else l
  | None => l
  end.

Definition limits_of (evs : list (Z * event)) : limits := fold_left limits_step evs {| l_policy := None; l_up := false; l_end := None |}.

Definition limits_ok (evs : list (Z * event)) (b : Books.t) : Prop :=
  l_policy (limits_of evs) = Pending.policy (Books.pending b) /\ l_up (limits_of evs) = bool_decide (is_Some (Books.kppp b)) /\
  l_end (limits_of evs) = Deadlines.session_timeout_deadline (Books.deadlines b).

Lemma tick_fields b now h b' recs h' :
  periodic_tick cfg b now h = (Ok (b', recs), h') ->
  Books.kppp b' = Books.kppp b /\ Books.pending b' = Books.pending b /\
  Deadlines.session_timeout_deadline (Books.deadlines b') = Deadlines.session_timeout_deadline (Books.deadlines b) /\
  (Config.acct cfg = false \/ 0 < Deadlines.acct_interim_period (Books.deadlines b) /\ now < Deadlines.last_acct_interim (Books.deadlines b) + Deadlines.acct_interim_period (Books.deadlines b) ->
   Deadlines.idle_timeout_deadline (Books.deadlines b') = Deadlines.idle_timeout_deadline (Books.deadlines b) /\
   (Config.acct cfg = true -> Books.deadlines b' = Books.deadlines b)).
Proof using Type.
  unfold periodic_tick. cbv zeta. destruct (Z.ltb_spec (Z.max 0 (now - Deadlines.last_acct_interim (Books.deadlines b))) (Deadlines.acct_interim_period (Books.deadlines b))) as [Hl|Hl].
  { by intros [= <- <- <-]. }
  assert (Hlate : forall A : Prop, Config.acct cfg = true -> Config.acct cfg = false \/ 0 < Deadlines.acct_interim_period (Books.deadlines b) /\
    now < Deadlines.last_acct_interim (Books.deadlines b) + Deadlines.acct_interim_period (Books.deadlines b) -> A) by (intros A ? [|]; [congruence|lia]).
  destruct (Books.acct_state b).
  - destruct (Config.acct cfg); [|by intros [= <- <- <-]]. rewrite bind_eq. destruct (sample_acct_counters _ _ _ _ h) as [[c|e|] h1]; [|done|done].
    intros [= <- <- <-]. cbn. split_and!; try done. by apply Hlate.
  - intros [= <- <- <-]. cbn. split_and!; try done. intros Hc. split; [done|]. intros Ha. by apply Hlate.
Qed.

Lemma steps_limits i0 info h0 t0 evs log w go : steps fuel pid cfg (init cfg t0 info, i0, h0, t0) evs log w go -> go = true -> limits_ok evs w.1.1.1.
Proof using Type.
  induction 1 as [|evs log b i h t now ev b' i' h' recs go Hs IH Ht Hen Hturn]; [done|]. intros ->. destruct (IH eq_refl) as (Hp & Hu & He). clear IH. cbn [fst snd] in *.
  unfold turn in Hturn. rewrite g_bind_eq in Hturn. destruct (on_event _ _ _ _ _ _ i h) as [[[[[b1 recs1] go1]|e|] i1] h1] eqn:Ee; [|done|done].
  injection Hturn as Hb' <- -> <- <-. unfold limits_ok, limits_of. rewrite fold_left_app. cbn [fold_left]. fold (limits_of evs).
  assert (Hk : let l := limits_of evs in let l1 := match ev with
             | Accepted _ _ o => {| l_policy := Some (policy o); l_up := l_up l; l_end := l_end l |}
             | NetworkUp _ _ => {| l_policy := l_policy l; l_up := true; l_end := l_end l |}
             | _ => l end in
          l_policy l1 = Pending.policy (Books.pending b1) /\ l_up l1 = bool_decide (is_Some (Books.kppp b1)) /\
          l_end l1 = Deadlines.session_timeout_deadline (Books.deadlines b1)).
  2: { subst b'. unfold limits_step. cbn [fst snd]. cbv zeta in Hk. revert Hk. generalize (match ev with Accepted _ _ o => {| l_policy := Some (policy o); l_up := l_up (limits_of evs); l_end := l_end (limits_of evs) |}
         | NetworkUp _ _ => {| l_policy := l_policy (limits_of evs); l_up := true; l_end := l_end (limits_of evs) |} | _ => limits_of evs end).
       intros l (H1 & H2 & H3). unfold apply_policy. rewrite H1, H2. destruct (Books.kppp b1) eqn:Ek, (Pending.policy (Books.pending b1)) eqn:Epp; cbn; rewrite ?Ek, ?Epp, ?H1, ?H2, ?H3; done. }
  cbv zeta. destruct ev; cbn [on_event] in Ee.
  2: { cbn [l_policy l_up l_end]. destruct (Books.kppp b) as [k|] eqn:Ek.
       - unfold network_up in Ee. rewrite Ek in Ee. injection Ee as <- <- <- <-. by rewrite Ek.
       - destruct (network_up_cases _ _ _ _ _ _ _ _ _ _ _ _ _ _ Ek Ee) as [(_ & _ & [=])|(ktls & k & h2 & Hr)].
         apply path_ready_result in Hr as (_ & -> & _ & _ & _ & -> & -> & _). done. }
  2: { rewrite g_bind_eq in Ee. unfold run_m in Ee. destruct (periodic_tick cfg b now h) as [[[b2 r2]|e|] h2] eqn:Etick; [|done|done].
       injection Ee as <- <- <- <-. apply tick_fields in Etick as (-> & -> & -> & _). done. }
  4: { rewrite g_bind_eq in Ee. destruct (run_m _ i h) as [[[x|e|] i2] h2]; [|done|done]. by injection Ee as <- <- <- <-. }
  all: try discriminate; by injection Ee as <- <- <- <-.
Qed.

(** A session ends when its Session-Timeout is over, and not before by it: the deadline is that of the
    Access-Accept, counted from the moment the interface came up; as long as the session lives, the timeout
    is due exactly when the deadline has passed, and then it ends the session with the cause
    Session-Timeout. *)
Theorem session_timeout_enforced i0 info h0 t0 evs log b i h t now :
  steps fuel pid cfg (init cfg t0 info, i0, h0, t0) evs log (b, i, h, t) true ->
  (enabled b now SessionTimeout = true <-> exists d, l_end (limits_of evs) = Some d /\ d <= now) /\
  exists b', turn fuel pid cfg b now SessionTimeout i h = (Ok (b', [], false), i, h) /\ Books.acct_cause b' = SessionEnd.SessionTimeout.
Proof using Type.
  intros Hs. destruct (steps_limits _ _ _ _ _ _ _ _ Hs eq_refl) as (_ & _ & He). cbn [fst snd] in He. cbn [enabled]. rewrite <- He. split.
  - unfold expired. destruct (l_end (limits_of evs)) as [d|]; [|naive_solver]. rewrite Z.leb_le. naive_solver.
  - eexists. by split.
Qed.

(** The idle timeout does not follow the traffic.  Without accounting its deadline never moves, and with
    accounting it does not move before the first interim period is over: a session with an Idle-Timeout is
    ended at that time even if packets pass all the time. *)
Theorem idle_timeout_ignores_traffic b i h t evs log b' i' h' t' go :
  steps fuel pid cfg (b, i, h, t) evs log (b', i', h', t') go -> Pending.policy (Books.pending b) = None ->
  (forall e, e ∈ evs -> match e.2 with Accepted _ _ _ => False | _ => True end) ->
  Config.acct cfg = false \/
    0 < Deadlines.acct_interim_period (Books.deadlines b) /\ t' < Deadlines.last_acct_interim (Books.deadlines b) + Deadlines.acct_interim_period (Books.deadlines b) ->
  Deadlines.idle_timeout_deadline (Books.deadlines b') = Deadlines.idle_timeout_deadline (Books.deadlines b).
Proof using Type.
  intros Hs Hp Hev Hc. enough (Hk : Pending.policy (Books.pending b') = None /\
    Deadlines.idle_timeout_deadline (Books.deadlines b') = Deadlines.idle_timeout_deadline (Books.deadlines b) /\
    (Config.acct cfg = true -> Books.deadlines b' = Books.deadlines b)) by naive_solver.
  remember (b', i', h', t') as w eqn:Ew. revert b' i' h' t' Ew Hc. induction Hs as [|evs log b1 i1 h1 t1 now ev b2 i2 h2 recs go Hs IH Ht Hen Hturn]; intros b' i' h' t' [= -> -> -> ->] Hc; [done|].
  assert (Hc1 : Config.acct cfg = false \/ 0 < Deadlines.acct_interim_period (Books.deadlines b) /\
    t1 < Deadlines.last_acct_interim (Books.deadlines b) + Deadlines.acct_interim_period (Books.deadlines b)) by (destruct Hc as [|[? ?]]; [by left|right; lia]).
  destruct (IH ltac:(intros e He; apply Hev; set_solver) _ _ _ _ eq_refl Hc1) as (Hp1 & Hi1 & Hd1). clear IH.
  unfold turn in Hturn. rewrite g_bind_eq in Hturn. destruct (on_event _ _ _ _ _ _ i1 h1) as [[[[[b3 recs3] go3]|e|] i3] h3] eqn:Ee; [|done|done].
  injection Hturn as Hb' <- <- <- <-. assert (Hk : Pending.policy (Books.pending b3) = None /\
    Deadlines.idle_timeout_deadline (Books.deadlines b3) = Deadlines.idle_timeout_deadline (Books.deadlines b) /\
    (Config.acct cfg = true -> Books.deadlines b3 = Books.deadlines b)).
  2: { subst b'. destruct go3; [|done]. unfold apply_policy. destruct Hk as (Hk & ?). rewrite Hk. by destruct (Books.kppp b3). }
  specialize (Hev (t', ev) ltac:(set_solver)). cbn [snd] in Hev. destruct ev; cbn [on_event] in Ee; try done.
  - destruct (Books.kppp b1) as [k|] eqn:Ek.
    { unfold network_up in Ee. rewrite Ek in Ee. by injection Ee as <- <- <- <- <-. }
    destruct (network_up_cases _ _ _ _ _ _ _ _ _ _ _ _ _ _ Ek Ee) as [(-> & _)|(ktls & k & h4 & Hr)]; [done|].
    apply path_ready_result in Hr as (_ & _ & _ & _ & _ & -> & -> & _). done.
  - rewrite g_bind_eq in Ee. unfold run_m in Ee. destruct (periodic_tick cfg b1 t' h1) as [[[b4 r4]|e|] h4] eqn:Etick; [|done|done].
    injection Ee as <- <- <- <- <-. apply tick_fields in Etick as (_ & -> & _ & Hidle). split; [done|].
    destruct Hidle as [-> Hd4].
    { destruct (Config.acct cfg); [|by left]. right. rewrite Hd1 by done. by destruct Hc. }
    split; [done|]. intros Ha. by rewrite Hd4, Hd1.
  - by injection Ee as <- <- <- <- <-.
  - by injection Ee as <- <- <- <- <-.
  - rewrite g_bind_eq in Ee. destruct (run_m _ i1 h1) as [[[x|e|] i4] h4]; [|done|done]. by injection Ee as <- <- <- <- <-.
  - by injection Ee as <- <- <- <- <-.
  - by injection Ee as <- <- <- <- <-.
  - by injection Ee as <- <- <- <- <-.
Qed.
End Limits.

(** ** The MSS without Framed-MTU *)

Section Mss.
Context {os : Os} {bp : BuildProfile} {lib : AwsLc} (fuel : nat) (pid : Z) (cfg : Config.t).

(** [m] returns only results in [P]. *)
Definition returns {E A : Type} (m : M E A) (P : A -> Prop) : Prop := needs m (fun _ => True) P.

Lemma returns_bind {E A B : Type} (m : M E A) (f : A -> M E B) P : (forall a, returns (f a) P) -> returns (m ≫= f) P.
Proof using Type. intros Hf. eapply needs_first; [apply needs_any|exact Hf]. Qed.

Lemma ppp_mtu_kept t l p m : returns (bring_up_ppp t l p m) (fun k => mtu k = m).
Proof using Type.
  unfold bring_up_ppp. apply returns_bind. intros u. apply needs_owned, returns_bind. intros i. apply returns_bind. intros nl. apply needs_scoped, returns_bind. intros ?.
  apply returns_bind. intros _. apply returns_bind. intros k. by apply needs_ret.
Qed.

Lemma tun_mtu_kept l p m : returns (bring_up_tun l p m) (fun k => mtu k = m).
Proof using Type.
  unfold bring_up_tun. intros h k h'. rewrite bind_eq, on_err_eq. destruct (TunSession_bring_up l p m h) as [[t|e|] h1] eqn:Et; [|done|done]. intros [= <- <-]. split; [done|].
  assert (Ht : returns (TunSession_bring_up l p m) (fun t => tun_mtu t = m)); [|by apply Ht in Et as [_ ?]].
  unfold TunSession_bring_up. apply returns_bind. intros r. apply needs_owned, returns_bind. intros r2. apply returns_bind. intros _. apply returns_bind. intros i.
  apply returns_bind. intros nl. apply needs_scoped, returns_bind. intros ?. apply returns_bind. intros ?. by apply needs_ret.
Qed.

Lemma bring_up_mtu mode t l p m : returns (bring_up mode t l p m) (fun k => mtu k = effective_mtu m).
Proof using Type.
  unfold bring_up. destruct mode; [|apply ppp_mtu_kept|apply tun_mtu_kept]. intros h k h'. rewrite bind_eq. unfold attempt_.
  destruct (bring_up_ppp t l p _ h) as [[k1|e|] h1] eqn:Ek; cbn [catch]; [| |done].
  - intros [= <- <-]. by apply ppp_mtu_kept in Ek.
  - intros Hk. by apply tun_mtu_kept in Hk.
Qed.

Lemma add_guard name mss i h g i' h' : Nft.add fuel pid name mss i h = (Ok g, i', h') -> g = {| g_ifname := name; g_mss := mss |}.
Proof using Type.
  unfold Nft.add. destruct (existsb _ _); [done|]. rewrite g_bind_eq. destruct (run_m _ i h) as [[[s|e|] i1] h1]; [|done|done]. unfold scoped_g.
  rewrite g_bind_eq. destruct (ensure_table _ _ _ i1 h1) as [[[u|e|] i2] h2]; [|done|done]. rewrite g_bind_eq. destruct (ensure_group _ _ _ _ i2 h2) as [[[grp|e|] i3] h3]; [|done|done].
  rewrite g_bind_eq. destruct (transact _ _ _ _ i3 h3) as [[[v|e|] i4] h4]; [|done|done]. rewrite g_bind_eq. destruct (run_m _ i4 h4) as [[[n|e|] i5] h5]; [|done|done].
  by intros [= <- <- <-].
Qed.

(** A session without a Framed-MTU gets an interface with an MTU of 1400, and with an AEAD cipher an MSS
    computed for 1500: a full segment of that MSS with its headers is larger than what the interface
    carries. *)
Theorem unlimited_session_clamped_too_high mode t l p h k h1 version_ cipher_ i h2 g i' h3 :
  bring_up mode t l p None h = (Ok k, h1) -> tls_record_overhead version_ cipher_ <> 56 ->
  clamp_mss fuel pid cfg (ifname k) None {| compatible := true; tls_version := version_; cipher := cipher_ |} None i h2 = (Ok (Some g), i', h3) ->
  mtu k = 1400 /\ g_mss g + 40 > mtu k.
Proof using Type.
  intros Hk Hc. apply bring_up_mtu in Hk as [_ Hm]. rewrite Hm. unfold clamp_mss. destruct (Config.mss_table cfg); [|done]. cbv zeta. rewrite g_bind_eq. unfold attempt_g.
  destruct (Nft.add _ _ _ _ i h2) as [[[g1|e|] i1] h4] eqn:Ea; [| |done]; [|done]. apply add_guard in Ea. intros [= <- <- <-]. subst g1. cbn [g_mss tls_version cipher]. split; [done|].
  assert (Ho : tls_record_overhead version_ cipher_ <= 29).
  { revert Hc. unfold tls_record_overhead. repeat case_match; lia. }
  unfold compute_mss4. cbn [default mss4]. change (effective_mtu None) with 1400. assert (0 <= tls_record_overhead version_ cipher_) by (unfold tls_record_overhead; repeat case_match; lia).
  rewrite !clamp_eq by lia. unfold saturating_sub, as_u16. rewrite Z.mod_small by lia. lia.
Qed.
End Mss.

(** ** A session to run *)

Module TaskDemo.
Import NetDemo NftDemo.
#[local] Existing Instance ToyCrypto.toy.
#[local] Existing Instance ToyCrypto.toy_laws.

Definition refuse_none (h : history) (op : nft_op) : bool := false.

(** The counters of the interface: seven packets in, nine out *)
Definition stats_answer (sq : Z) : bytes :=
  reply_bytes {| r_type := RTM_NEWLINK; r_flags := 0; r_seq := sq; r_pid := 0;
                 r_payload := zeros 16 ++ to_ne 2 36 ++ to_ne 2 IFLA_STATS64 ++ to_ne 8 7 ++ to_ne 8 9 ++ to_ne 8 700 ++ to_ne 8 900 |}.

Definition has_ktls (tcp : Z) (h : history) : bool :=
  let set name := existsb (fun o => (o.1.1.1 =? tcp) && (o.1.1.2 =? SOL_TLS) && (o.1.2 =? name)) (sockopts h) in set TLS_TX && set TLS_RX.

(** A kernel with the module, nftables and kTLS, and a connection in TLS 1.2 *)
Definition host : Os := fun h c =>
  match c, h with
  | Ssl _, _ => TlsDemo.connection h c
  | Sys_ioctl _ _ (AttachArg _ _ tcp _ _), _ => if has_ktls tcp h then Ret 0 [unused h] [] else Fail 95
  | Sys_recv _ cap, (Sys_sendto _ b, _) :: _ =>
      if (nlmsg_type (read_nlmsghdr b) =? RTM_GETLINK) && (68 <=? cap) then Ret 68 [] (stats_answer (last_seq h)) else nft_machine refuse_none h c
  | _, _ => nft_machine refuse_none h c
  end.

#[export] Instance host_ok : OsOk host.
Proof.
  split.
  - intros h c fd Ho. pose proof (fresh_fd (os := nft_machine refuse_none) h c fd) as Hm. unfold answer, host in *. destruct c as [| | | | | | |? ? []| | | | | | | | |]; try (by apply Hm).
    cbn [opened_by] in *. destruct (has_ktls _ _); [|done]. intros Hin. apply unused_above in Hin. destruct (0 <=? unused h); simplify_eq. lia.
  - intros h fd cap n ints out. pose proof (recv_bound (os := nft_machine refuse_none) h fd cap n ints out) as Hm. unfold answer, host in *. destruct h as [|[[] ?] ?]; try exact Hm.
    match goal with |- context [if ?b then _ else _] => destruct b eqn:Ec end; [|exact Hm]. intros [= <- <- <-]. lia.
  - intros h fd cap n ints out. unfold answer, host. by destruct h as [|[[] ?] ?].
  - intros h name i ints out. apply (ifindex_bound (os := nft_machine refuse_none) h name i ints out).
Defined.

#[export] Instance host_libssl : Libssl host.
Proof.
  refine {| conn_cipher := lit "ECDHE-RSA-AES256-GCM-SHA384"; conn_version := lit "TLSv1.2"; secret := fun _ => []; block := TlsDemo.demo_block;
            sequence := TlsDemo.demo_sequence |}.
  - done.
  - done.
  - split; vm_compute; reflexivity.
  - by intros h [] ints out.
  - by intros h n ints out [= <- <-].
  - intros n Hn. unfold TlsDemo.demo_block. rewrite length_map, length_seq. lia.
  - by intros h [].
  - intros []; cbn; lia.
Defined.

#[export] Instance host_attach : AttachNeedsKtls host.
Proof.
  intros h dev req major minor tcp mtu s rc ints out. unfold answer, host. destruct (has_ktls tcp h) eqn:Hk; [|by destruct h as [|[[] ?] ?]]. intros _.
  unfold has_ktls in Hk. apply andb_true_iff in Hk as [Ht Hr]. apply existsb_exists in Ht as ([[[t1 l1] n1] v1] & Hin1 & H1). apply existsb_exists in Hr as ([[[t2 l2] n2] v2] & Hin2 & H2).
  cbn [fst snd] in *. exists v1, v2. rewrite !list_elem_of_In. split; [replace (tcp, SOL_TLS, TLS_TX, v1) with (t1, l1, n1, v1)|replace (tcp, SOL_TLS, TLS_RX, v2) with (t2, l2, n2, v2)]; try done; repeat f_equal; lia.
Defined.

Section Play.
Context {os : Os} {bp : BuildProfile} {lib : AwsLc} (fuel : nat) (pid : Z) (cfg : Config.t).

Fixpoint play (b : Books.t) (i : Inner) (h : history) (t : Z) (evs : list (Z * Task.event)) : option (list entry * world * bool) :=
  match evs with
  | [] => Some ([], (b, i, h, t), true)
  | (now, ev) :: evs =>
      if (t <=? now) && enabled b now ev then
        match turn fuel pid cfg b now ev i h with
        | (Ok (b', recs, true), i', h') =>
            match play b' i' h' now evs with Some (log, w, go) => Some (entries now h' recs ++ log, w, go) | None => None end
        | (Ok (b', recs, false), i', h') => match evs with [] => Some (entries now h' recs, (b', i', h', now), false) | _ => None end
        | _ => None
        end
      else None
  end.

Lemma play_steps w evs0 log0 evs b i h t log w' go :
  steps fuel pid cfg w evs0 log0 (b, i, h, t) true -> play b i h t evs = Some (log, w', go) -> steps fuel pid cfg w (evs0 ++ evs) (log0 ++ log) w' go.
Proof using Type.
  revert evs0 log0 b i h t log. induction evs as [|[now ev] evs IH]; intros evs0 log0 b i h t log Hs; cbn [play].
  { intros [= <- <- <-]. by rewrite !app_nil_r. }
  destruct ((t <=? now) && enabled b now ev) eqn:Ec; [|done]. apply andb_true_iff in Ec as [Ht Hen]. apply Z.leb_le in Ht.
  destruct (turn fuel pid cfg b now ev i h) as [[[[[b' recs] []]|e|] i'] h'] eqn:Et; [| |done|done].
  - destruct (play b' i' h' now evs) as [[[log1 w1] go1]|] eqn:Ep; [|done]. intros [= <- <- <-].
    rewrite (cons_middle (now, ev) evs0 evs), !app_assoc. eapply IH; [|exact Ep]. by eapply steps_turn.
  - destruct evs; [|done]. intros [= <- <- <-]. by eapply steps_turn.
Qed.
End Play.

Definition peer_addr : SocketAddr := {| ip := V4 [192; 0; 2; 1]; port := 4711 |}.
Definition config : Config.t :=
  {| Config.id := 7; Config.peer := peer_addr; Config.local_ip := [10; 0; 0; 1]; Config.data_path := DataPathMode.Auto; Config.acct := true;
     Config.mss_table := true; Config.tls := {| fd := 2 |} |}.
Definition granted : AuthOutcome :=
  {| verdict := AuthVerdict.Reject []; outcome_shaping := Some {| egress := Some (flat 8000000); ingress := None; priority := None |};
     policy := {| SessionPolicy.framed_routes := [{| Route.dest := [10; 1; 0; 0]; Route.prefix := 16; Route.gateway := None; Route.metric := None |}];
                  SessionPolicy.class := Some (lit "gold"); SessionPolicy.session_timeout := Some 90; SessionPolicy.idle_timeout := None;
                  SessionPolicy.acct_interim_interval := None |} |}.
Definition addresses : AssignedAddrs.t :=
  {| AssignedAddrs.ip := [10; 0; 0; 2]; AssignedAddrs.mtu := None; AssignedAddrs.dns1 := None; AssignedAddrs.dns2 := None;
     AssignedAddrs.nbns1 := None; AssignedAddrs.nbns2 := None |}.
Definition story : list (Z * Task.event) :=
  [(1 * SECOND, Accepted (lit "alice") [10; 0; 0; 2] granted); (5 * SECOND, NetworkUp addresses 255); (70 * SECOND, Tick); (95 * SECOND, Task.SessionTimeout)].

Abbreviation books0 := (init config 0 SessionInfo.default).
Abbreviation played := (play (os := host) (bp := false) 4 99 config books0 SharedMssTable_new [] 0 story).

(** What can be seen of a run *)
Definition summary (x : option (list entry * world * bool)) : option (list (AcctEvent * Z * Z) * option (bool * Z * bytes) * option Z * bool) :=
  match x with
  | Some (log, (b, i, h, t), go) =>
      Some (map (fun e => (r_event (e_record e), session_time (r_counters (e_record e)), input_octets (r_counters (e_record e)))) log,
            (fun k => (is_kernel k, mtu k, ifname k)) <$> Books.kppp b, g_mss <$> Books.mss_handle b, go)
  | None => None
  end.

Lemma played_summary : summary played = Some ([(Start, 0, 0); (InterimUpdate, 65, 700)], Some (true, 1400, lit "ppp0"), Some 1383, false).
Proof. vm_compute. reflexivity. Qed.

Lemma story_run n x : play (os := host) (bp := false) 4 99 config books0 SharedMssTable_new [] 0 (take n story) = Some x ->
  steps (os := host) (bp := false) 4 99 config (books0, SharedMssTable_new, [], 0) (take n story) x.1.1 x.1.2 x.2.
Proof. destruct x as [[log w] go]. intros Hp. exact (play_steps (os := host) (bp := false) 4 99 config _ [] [] _ _ _ _ _ _ _ _ (steps_refl _ _ _ _) Hp). Qed.

Abbreviation closed := (match played with Some (_, (b, i, h, _), _) => finish (os := host) (bp := false) 4 99 config b (95 * SECOND) i h | None => (Panic, SharedMssTable_new, []) end).



Abbreviation accepted := (on_accept books0 (lit "alice") [10; 0; 0; 2] granted).
Abbreviation brought_up := (network_up (os := host) (bp := false) 4 99 config accepted (5 * SECOND) 255 addresses SharedMssTable_new []).

Lemma data_path_matches_tls_witness :
  exists b' recs go i' h' k, brought_up = (Ok (b', recs, go), i', h') /\ Books.kppp b' = Some k /\ is_kernel k = true /\
    handed_over (os := host) (Config.tls config) [] h'.
Proof.
  assert (Hnone : forall o, o ∈ sockopts [] -> o.1.1.1 <> fd (Config.tls config)) by (intros o Ho; by apply elem_of_nil in Ho).
  assert (Hk : match brought_up with (Ok (b', _, _), _, _) => is_kernel <$> Books.kppp b' | _ => None end = Some true) by (vm_compute; reflexivity).
  destruct brought_up as [[[[[b' recs] go]|e|] i'] h'] eqn:Eu; [|done|done].
  pose proof (data_path_matches_tls (os := host) (bp := false) 4 99 config accepted (5 * SECOND) 255 addresses SharedMssTable_new [] b' recs go i' h' eq_refl Hnone Eu) as H.
  destruct (Books.kppp b') as [k|] eqn:Ek; [|done]. injection Hk as Hk. rewrite Hk in H. destruct H as (_ & _ & H). exists b', recs, go, i', h', k. split; [reflexivity|]. split; [exact Ek|]. split; [exact Hk|exact H].
Defined.

Abbreviation living := (play (os := host) (bp := false) 4 99 config books0 SharedMssTable_new [] 0 (take 3 story)).

Lemma session_timeout_enforced_witness :
  exists log b i h t, living = Some (log, (b, i, h, t), true) /\ enabled b (94 * SECOND) Task.SessionTimeout = false /\ enabled b (95 * SECOND) Task.SessionTimeout = true.
Proof.
  assert (Hg : match living with Some (_, _, true) => true | _ => false end = true) by (vm_compute; reflexivity).
  destruct living as [[[log [[[b i] h] t]] [|]]|] eqn:El; [|done|done]. exists log, b, i, h, t. split; [reflexivity|].
  assert (He : l_end (limits_of (take 3 story)) = Some (95 * SECOND)) by (vm_compute; reflexivity).
  pose proof (session_timeout_enforced (os := host) (bp := false) 4 99 config _ _ _ _ _ _ _ _ _ _ (94 * SECOND) (story_run 3 _ El)) as [H1 _].
  pose proof (session_timeout_enforced (os := host) (bp := false) 4 99 config _ _ _ _ _ _ _ _ _ _ (95 * SECOND) (story_run 3 _ El)) as [H2 _].
  rewrite He in H1, H2. split.
  - destruct (enabled b (94 * SECOND) Task.SessionTimeout); [|done]. destruct (proj1 H1 eq_refl) as (d & [= <-] & Hd). clear - Hd. unfold SECOND in Hd. lia.
  - apply H2. exists (95 * SECOND). split; [reflexivity|clear; unfold SECOND; lia].
Defined.
End TaskDemo.
