(* ===== verification/TaskAttach.v ===== *)
(** * One attach per connection

    The kernel module is safe only while no socket is attached twice ([KmodLifeProps]).  The session task
    keeps to it: over all its turns and its destructors it issues [SSTP_IOC_ATTACH] at most once, and for the
    socket of its own connection. *)

From stdpp Require Import strings gmap.
From S2P Require Import Prelude RustText RustStd Crypto Os Netlink RtNetlink DataPath DataPathProps.
From S2P Require Import Mikrotik Tc Nft Tls TlsProps PppDriver Radius Accounting Task TaskProps TaskBooks.

(** The sockets given to [SSTP_IOC_ATTACH], the last one first. *)
Definition attach_of (e : Os.event) : option Z :=
  match e.1 with Sys_ioctl _ _ (AttachArg _ _ tcp _ _) => Some tcp | _ => None end.

Definition attaches (h : history) : list Z := omap attach_of h.

(** ** Counting attaches *)

Section Count.
Context {os : Os} (tcp : Z).

(** From [h] to [h'] the socket [tcp] was attached at most [n] times, and no other socket. *)
Definition grown (n : nat) (h h' : history) : Prop := exists k, (k <= n)%nat /\ attaches h' = replicate k tcp ++ attaches h.

Definition adds {E A : Type} (n : nat) (m : M E A) : Prop := forall h, grown n h (m h).2.

Lemma grown_refl n h : grown n h h.
Proof using Type. exists O. split; [lia|done]. Qed.

Lemma grown_trans n n' h h1 h2 : grown n h h1 -> grown n' h1 h2 -> grown (n + n') h h2.
Proof using Type. intros (k & Hk & H1) (k' & Hk' & H2). exists (k' + k)%nat. split; [lia|]. by rewrite H2, H1, replicate_add, <- app_assoc. Qed.

Lemma grown_quiet n h c r h' : attach_of (c, r) = None -> grown n h h' -> grown n h ((c, r) :: h').
Proof using Type. intros Hc (k & Hk & Hh). exists k. split; [done|]. unfold attaches in *. cbn. by rewrite Hc. Qed.

Lemma adds_ret {E A : Type} n (a : A) : adds (E := E) n (mret a).
Proof using Type. intros h. apply grown_refl. Qed.
Lemma adds_throw {E A : Type} n (e : E) : adds (A := A) n (throw e).
Proof using Type. intros h. apply grown_refl. Qed.
Lemma adds_lift {E A : Type} n (r : res E A) : adds n (lift r).
Proof using Type. intros h. apply grown_refl. Qed.

Lemma adds_sys {E : Type} n c : attach_of (c, Fail 0) = None -> adds (E := E) n (sys c).
Proof using Type. intros Hc h. apply grown_quiet; [exact Hc|apply grown_refl]. Qed.

Lemma adds_close {E : Type} n fd : adds (E := E) n (close fd).
Proof using Type. intros h. by apply grown_quiet, grown_refl. Qed.

Lemma adds_bind {E A B : Type} n n' (m : M E A) (f : A -> M E B) : adds n m -> (forall a, adds n' (f a)) -> adds (n + n') (m ≫= f).
Proof using Type.
  intros Hm Hf h. specialize (Hm h). rewrite bind_eq. destruct (m h) as [[a|e|] h1]; cbn in Hm |- *.
  - by eapply grown_trans; [|apply Hf].
  - eapply grown_trans; [exact Hm|apply grown_refl].
  - eapply grown_trans; [exact Hm|apply grown_refl].
Qed.

Lemma adds_then {E A B : Type} n (m : M E A) (f : A -> M E B) : adds 0 m -> (forall a, adds n (f a)) -> adds n (m ≫= f).
Proof using Type. apply (adds_bind 0). Qed.

Lemma adds_first {E A B : Type} n (m : M E A) (f : A -> M E B) : adds n m -> (forall a, adds 0 (f a)) -> adds n (m ≫= f).
Proof using Type. rewrite <- (Nat.add_0_r n) at 2. apply (adds_bind n 0). Qed.

Lemma adds_on_err {E F A : Type} n (f : E -> F) (m : M E A) : adds n m -> adds n (on_err f m).
Proof using Type. intros Hm h. specialize (Hm h). by rewrite on_err_eq. Qed.

Lemma adds_attempt {E F A : Type} n (m : M E A) : adds n m -> adds (E := F) n (attempt_ m).
Proof using Type. intros Hm h. specialize (Hm h). unfold attempt_. by destruct (m h). Qed.

Lemma adds_owned {E A : Type} n fd (m : M E A) : adds n m -> adds n (owned fd m).
Proof using Type. intros Hm h. specialize (Hm h). unfold owned. destruct (m h) as [[a|e|] h1]; [done|by apply grown_quiet|by apply grown_quiet]. Qed.

Lemma adds_scoped {E A : Type} n fd (m : M E A) : adds n m -> adds n (scoped fd m).
Proof using Type. intros Hm h. specialize (Hm h). unfold scoped. destruct (m h). by apply grown_quiet. Qed.

Lemma adds_checked n c : attach_of (c, Fail 0) = None -> adds n (checked c).
Proof using Type. intros Hc. apply adds_then; [by apply adds_sys|]. intros []; [apply adds_ret|apply adds_throw]. Qed.

(** The same for the computations over the MSS table *)
Definition adds_g {A : Type} (n : nat) (m : G A) : Prop := forall i h, grown n h (m i h).2.

Lemma adds_g_run {A : Type} n (m : M SharedMssError A) : adds n m -> adds_g n (run_m m).
Proof using Type. intros Hm i h. specialize (Hm h). unfold run_m. by destruct (m h). Qed.

Lemma adds_g_ret {A : Type} n (a : A) : adds_g n (mret a).
Proof using Type. intros i h. apply grown_refl. Qed.
Lemma adds_g_get n : adds_g n get.
Proof using Type. intros i h. apply grown_refl. Qed.
Lemma adds_g_modify n f : adds_g n (modify f).
Proof using Type. intros i h. apply grown_refl. Qed.

Lemma adds_g_bind {A B : Type} n n' (m : G A) (f : A -> G B) : adds_g n m -> (forall a, adds_g n' (f a)) -> adds_g (n + n') (m ≫= f).
Proof using Type.
  intros Hm Hf i h. specialize (Hm i h). rewrite g_bind_eq. destruct (m i h) as [[[a|e|] i1] h1]; cbn in Hm |- *.
  - by eapply grown_trans; [|apply Hf].
  - eapply grown_trans; [exact Hm|apply grown_refl].
  - eapply grown_trans; [exact Hm|apply grown_refl].
Qed.

Lemma adds_g_then {A B : Type} n (m : G A) (f : A -> G B) : adds_g 0 m -> (forall a, adds_g n (f a)) -> adds_g n (m ≫= f).
Proof using Type. apply (adds_g_bind 0). Qed.

Lemma adds_g_attempt {A : Type} n (m : G A) : adds_g n m -> adds_g n (attempt_g m).
Proof using Type. intros Hm i h. specialize (Hm i h). unfold attempt_g. by destruct (m i h) as [[[a|e|] i1] h1]. Qed.

Lemma adds_g_scoped {A : Type} n fd (m : G A) : adds_g n m -> adds_g n (scoped_g fd m).
Proof using Type. intros Hm i h. specialize (Hm i h). unfold scoped_g. destruct (m i h) as [[r i1] h1]. by apply grown_quiet. Qed.
End Count.

Create HintDb adds.
#[export] Hint Resolve adds_ret adds_throw adds_lift adds_close adds_g_ret adds_g_get adds_g_modify : adds.

(** [count] takes the operations of the code one after the other. *)
Ltac count :=
  intros; cbv zeta;
  repeat first
    [ solve [auto with adds]
    | apply adds_then; [|intros ?]
    | apply adds_on_err
    | apply adds_attempt
    | apply adds_owned
    | apply adds_scoped
    | apply adds_sys; reflexivity
    | apply adds_checked; reflexivity
    | apply adds_g_run; solve [auto with adds]
    | apply adds_g_then; [|intros ?]
    | apply adds_g_attempt
    | apply adds_g_scoped
    | match goal with |- adds _ _ (match ?x with _ => _ end) => destruct x end
    | match goal with |- adds_g _ _ (match ?x with _ => _ end) => destruct x end ].

(** ** The operations of the task *)

Section Ops.
Context {os : Os} {bp : BuildProfile} {lib : AwsLc} (fuel : nat) (pid : Z) (cfg : Config.t) (tcp : Z).

Abbreviation quiet m := (adds tcp 0 m).
Abbreviation quiet_g m := (adds_g tcp 0 m).

Lemma calm_netlink f fd b : quiet (NetlinkSocket.open f) /\ quiet (NetlinkSocket.send fd b) /\ quiet (NetlinkSocket.recv_into fd b).
Proof using Type. unfold NetlinkSocket.open, NetlinkSocket.send, NetlinkSocket.recv_into. split_and!; count. Qed.

Lemma calm_nl_open f : quiet (NetlinkSocket.open f).
Proof using Type. apply (calm_netlink f 0 []). Qed.
Lemma calm_send fd b : quiet (NetlinkSocket.send fd b).
Proof using Type. apply (calm_netlink 0 fd b). Qed.
Lemma calm_recv fd b : quiet (NetlinkSocket.recv_into fd b).
Proof using Type. apply (calm_netlink 0 fd b). Qed.
#[local] Hint Resolve calm_nl_open calm_send calm_recv : adds.

Lemma calm_rt_open : quiet RtNetlink.open.
Proof using Type. unfold RtNetlink.open. count. Qed.
Lemma calm_exchange nl op m : quiet (RtNetlink.exchange nl op m).
Proof using Type. unfold RtNetlink.exchange. count. Qed.
#[local] Hint Resolve calm_rt_open calm_exchange : adds.

Lemma calm_rt_bring_up nl i c : quiet (RtNetlink.bring_up nl i c).
Proof using Type. unfold RtNetlink.bring_up, RtNetlink.set_mtu, RtNetlink.add_p2p_addr, RtNetlink.set_link_up, RtNetlink.next_seq. count. Qed.
Lemma calm_add_route nl i d p g m : quiet (RtNetlink.add_route nl i d p g m).
Proof using Type. unfold RtNetlink.add_route, RtNetlink.next_seq. count. Qed.
Lemma calm_link_stats nl i : quiet (RtNetlink.link_stats64 nl i).
Proof using Type. unfold RtNetlink.link_stats64, RtNetlink.next_seq. count. Qed.
Lemma calm_resolve {E : Type} (e : io_error -> E) n : quiet (resolve_ifindex e n).
Proof using Type. unfold resolve_ifindex. count. Qed.
Lemma calm_nonblock n : quiet (set_nonblock n).
Proof using Type. unfold set_nonblock. count. Qed.
#[local] Hint Resolve calm_rt_bring_up calm_add_route calm_link_stats calm_resolve calm_nonblock : adds.

Lemma calm_tun l p m : quiet (bring_up_tun l p m).
Proof using Type. unfold bring_up_tun, TunSession_bring_up. count. Qed.

(** The one place of the attach *)
Lemma adds_attach u m : adds tcp 1 (attach tcp u m).
Proof using Type.
  unfold attach. apply adds_then; [unfold open_dev_sstp; count|]. intros dev. apply adds_first.
  - apply adds_scoped, adds_first; [|intros r; count]. apply adds_on_err. intros h. unfold checked. rewrite bind_eq. exists 1%nat. split; [lia|].
    cbn [sys]. by destruct (answer h _).
  - intros s. unfold chan_index_for, bind_channel_to_unit, ioctl_set_int. count.
Qed.

Lemma adds_ppp l p m : adds tcp 1 (bring_up_ppp tcp l p m).
Proof using Type.
  unfold bring_up_ppp. apply adds_then; [unfold Unit_new, open_dev_ppp, ioctl_xchg_int; count|]. intros u. apply adds_owned.
  apply adds_then; [count|]. intros i. apply adds_then; [count|]. intros nl. apply adds_scoped. apply adds_then; [count|]. intros _.
  apply adds_then; [unfold probe, open_dev_sstp; count|]. intros _. apply adds_first; [apply adds_on_err, adds_attach|count].
Qed.

(** [Auto] falls back to the TUN device after a failed attach, not to a second one. *)
Lemma adds_bring_up mode l p m : adds tcp 1 (bring_up mode tcp l p m).
Proof using Type.
  unfold bring_up. cbv zeta. destruct mode.
  - apply adds_first; [apply adds_attempt, adds_ppp|]. intros [k|e]; [apply adds_ret|apply calm_tun].
  - apply adds_ppp.
  - intros h. destruct (calm_tun l p (effective_mtu m) h) as (k & Hk & Hh). exists k. split; [lia|done].
Qed.

Lemma calm_shaping i s : quiet (apply_shaping i s).
Proof using Type.
  assert (Hx : forall nl op m, quiet (TcNetlink.exchange nl op m)) by (unfold TcNetlink.exchange; count).
  unfold apply_shaping, Shaper.open, TcNetlink.open, Shaper.apply, Shaper.clear, Shaper.install_htb_root, Shaper.install_htb_leaf,
    Shaper.install_ingress_qdisc, Shaper.install_ingress_police_filter, TcNetlink.next_seq. count.
Qed.

Lemma calm_add_routes rt i rs : quiet (add_routes rt i rs).
Proof using Type. revert rt. induction rs; intros rt; cbn [add_routes]; count. Qed.
#[local] Hint Resolve calm_shaping calm_add_routes : adds.

Lemma calm_routes i p : quiet (apply_routes i p).
Proof using Type. unfold apply_routes. count. Qed.

Lemma calm_ssl {E : Type} c : quiet (ssl (E := E) c).
Proof using Type. unfold ssl. count. Qed.
Lemma calm_ssl_rc {E : Type} c : quiet (ssl_rc (E := E) c).
Proof using Type. pose proof (@calm_ssl E). unfold ssl_rc. count. Qed.
Lemma calm_ssl_name {E : Type} c n : quiet (ssl_name (E := E) c n).
Proof using Type. pose proof (@calm_ssl E). unfold ssl_name. count. Qed.
#[local] Hint Resolve calm_routes calm_ssl calm_ssl_rc calm_ssl_name : adds.

Lemma calm_eligibility {E : Type} s : quiet (ktls_eligibility (E := E) s).
Proof using Type. unfold ktls_eligibility. count. Qed.

Lemma calm_derive s su : quiet (derive s su).
Proof using Type.
  assert (Hs : forall d n, quiet (tls13_traffic_secret s d n)) by (unfold tls13_traffic_secret; count).
  assert (Hq : quiet sequences) by (unfold sequences; count). assert (Hk : forall n, quiet (key_block n)) by (unfold key_block; count).
  destruct su as [[] []]; cbn [derive]; unfold derive_tls13_aes128_gcm, derive_tls12_aes128_gcm, derive_tls13_aes256_gcm, derive_tls12_aes256_gcm,
    derive_tls13_chacha20_poly1305, derive_tls12_chacha20_poly1305; count.
Qed.

Lemma calm_install s su tx rx : quiet (install s su tx rx).
Proof using Type.
  destruct su; cbn [install]; unfold install_aes_gcm_128, install_aes_gcm_256, install_chacha20_poly1305, set_ulp_tls, set_crypto_info; count.
Qed.
#[local] Hint Resolve calm_eligibility calm_derive calm_install : adds.

Lemma calm_secure ktls : quiet (secure_data_path cfg ktls).
Proof using Type.
  assert (Hi : quiet (install_ktls (Config.tls cfg))) by (unfold install_ktls; count). unfold secure_data_path. count.
Qed.

Lemma calm_sample now i st c : quiet (sample_acct_counters now i st c).
Proof using Type. unfold sample_acct_counters. count. Qed.
#[local] Hint Resolve calm_secure calm_sample : adds.

Lemma calm_tick b now : quiet (periodic_tick cfg b now).
Proof using Type. unfold periodic_tick. count. Qed.
Lemma calm_rekey b r : quiet (rekey_command cfg b r).
Proof using Type. unfold rekey_command, request_key_update. count. Qed.
Lemma calm_stop b now : quiet (stop_guard cfg b now).
Proof using Type. unfold stop_guard. count. Qed.

Lemma calm_await n sock op rem : quiet (NfNetlink.await n sock op rem).
Proof using Type.
  revert rem. induction n as [|n IH]; intros rem; cbn [NfNetlink.await]; case_decide; count.
Qed.
#[local] Hint Resolve calm_tick calm_rekey calm_stop calm_await : adds.

Lemma calm_transact sock op build : quiet_g (transact fuel sock op build).
Proof using Type.
  assert (He : forall b, quiet (NfNetlink.exchange_batch fuel sock op b)) by (unfold NfNetlink.exchange_batch; count). unfold transact. count.
Qed.
#[local] Hint Resolve calm_transact : adds.

Lemma calm_clamp n m k g : quiet_g (clamp_mss fuel pid cfg n m k g).
Proof using Type. assert (Ho : quiet NfNetlink.open) by count. unfold clamp_mss, Nft.add, ensure_table, ensure_group. count. Qed.
Lemma calm_remove n m : quiet_g (remove fuel pid n m).
Proof using Type. assert (Ho : quiet NfNetlink.open) by count. unfold remove. count. Qed.
#[local] Hint Resolve calm_clamp calm_remove : adds.

Lemma calm_path_ready b now nanos ip m ktls k : quiet_g (path_ready fuel pid cfg b now nanos ip m ktls k).
Proof using Type. unfold path_ready. count. Qed.

Lemma calm_finish b now : quiet_g (finish fuel pid cfg b now).
Proof using Type.
  assert (Hd : forall k, adds (E := SharedMssError) tcp 0 (drop_backend k)) by (intros []; unfold drop_backend, drop_kmod; count).
  unfold finish, SharedMssHandle_drop. count.
Qed.
End Ops.

(** ** Runs *)

Section Session.
Context {os : Os} {bp : BuildProfile} {lib : AwsLc} (fuel : nat) (pid : Z) (cfg : Config.t).

Abbreviation sock := (fd (Config.tls cfg)).

Lemma adds_network_up b now nanos addrs : Books.kppp b = None -> adds_g sock 1 (network_up fuel pid cfg b now nanos addrs).
Proof using Type.
  intros Hb. unfold network_up. rewrite Hb. apply adds_g_then; [apply adds_g_run, calm_eligibility|]. intros ktls.
  apply adds_g_then; [apply adds_g_run, calm_secure|]. intros [mode|]; [|apply adds_g_ret].
  apply (adds_g_bind sock 1 0); [apply adds_g_run, adds_attempt, adds_bring_up|]. intros [k|e]; [apply calm_path_ready|apply adds_g_ret].
Qed.

(** An event that does not bring up the data path attaches nothing. *)
Definition brings_up (b : Books.t) (ev : event) : bool :=
  match ev, Books.kppp b with NetworkUp _ _, None => true | _, _ => false end.

Lemma calm_event b now ev : brings_up b ev = false -> adds_g sock 0 (on_event fuel pid cfg b now ev).
Proof using Type.
  intros Hb. destruct ev; cbn [on_event]; try apply adds_g_ret.
  - unfold network_up. cbn [brings_up] in Hb. destruct (Books.kppp b); [apply adds_g_ret|done].
  - apply adds_g_then; [apply adds_g_run, calm_tick|]. intros [b' recs]. apply adds_g_ret.
  - apply adds_g_then; [apply adds_g_run, calm_rekey|]. intros _. apply adds_g_ret.
Qed.

Lemma policy_kppp b now : Books.kppp (apply_policy b now) = Books.kppp b.
Proof using Type. unfold apply_policy. by destruct (Books.kppp b) eqn:Ek, (Pending.policy (Books.pending b)). Qed.

Lemma tick_kppp b now h b' recs h' : periodic_tick cfg b now h = (Ok (b', recs), h') -> Books.kppp b' = Books.kppp b.
Proof using Type.
  unfold periodic_tick. destruct (_ <? _); [by intros [= <- <- <-]|]. cbv zeta. destruct (Books.acct_state b) as [st|]; [|by intros [= <- <- <-]].
  destruct (Config.acct cfg); [|by intros [= <- <- <-]]. rewrite bind_eq. destruct (sample_acct_counters _ _ _ _ h) as [[c|e|] h1]; [|done|done]. by intros [= <- <- <-].
Qed.

(** A session that goes on after [NetworkUp] has its data path, and no event takes it away. *)
Lemma event_kppp b now ev i h b' recs go i' h' :
  on_event fuel pid cfg b now ev i h = (Ok (b', recs, go), i', h') ->
  if brings_up b ev then go = true -> is_Some (Books.kppp b') else Books.kppp b' = Books.kppp b.
Proof using Type.
  destruct ev; cbn [on_event brings_up]; try by intros [= <- <- <- <- <-].
  - unfold network_up. destruct (Books.kppp b) as [k|] eqn:Ek; [by intros [= <- <- <- <- <-]|].
    rewrite g_bind_eq. destruct (run_m _ i h) as [[[ktls|e|] i1] h1]; [|done|done].
    rewrite g_bind_eq. destruct (run_m _ i1 h1) as [[[[mode|]|e|] i2] h2]; [|by intros [= <- <- <- <- <-]|done|done].
    rewrite g_bind_eq. destruct (run_m _ i2 h2) as [[[[k|e]|e|] i3] h3]; [|by intros [= <- <- <- <- <-]|done|done].
    intros Hr _. apply path_ready_result in Hr as (_ & -> & _). done.
  - rewrite g_bind_eq. unfold run_m. destruct (periodic_tick cfg b now h) as [[[b1 rs]|e|] h1] eqn:Et; [|done|done]. intros [= <- <- <- <- <-]. by eapply tick_kppp.
  - rewrite g_bind_eq. destruct (run_m _ i h) as [[[x|e|] i1] h1]; [|done|done]. by intros [= <- <- <- <- <-].
Qed.

(** As long as the task goes on without a data path it has not attached. *)
Lemma attaches_steps i0 info h0 t0 evs log w go :
  steps fuel pid cfg (init cfg t0 info, i0, h0, t0) evs log w go ->
  grown sock (if go then match Books.kppp w.1.1.1 with Some _ => 1 | None => 0 end else 1) h0 w.1.2.
Proof using Type.
  induction 1 as [|evs log b i h t now ev b' i' h' recs go Hs IH Ht Hen Hturn]; [apply grown_refl|]. cbn [fst snd] in *.
  unfold turn in Hturn. rewrite g_bind_eq in Hturn. destruct (on_event fuel pid cfg b now ev i h) as [[[[[b1 rs] go1]|e|] i1] h1] eqn:Ev; [|done|done].
  injection Hturn as Hb <- <- <- <-. pose proof (event_kppp _ _ _ _ _ _ _ _ _ _ Ev) as Hk.
  assert (Hb' : Books.kppp b' = Books.kppp b1) by (rewrite <- Hb; destruct go1; by rewrite ?policy_kppp). rewrite Hb'. clear Hb Hb'.
  destruct (brings_up b ev) eqn:Eb.
  - assert (Hn : Books.kppp b = None) by (unfold brings_up in Eb; destruct ev, (Books.kppp b); done). rewrite Hn in IH. destruct ev as [|addrs nanos| | | | | | |]; try done.
    pose proof (adds_network_up b now nanos addrs Hn i h) as Ha. cbn [on_event] in Ev. rewrite Ev in Ha.
    replace (if go1 then _ else 1%nat) with (0 + 1)%nat; [exact (grown_trans _ _ _ _ _ _ IH Ha)|]. destruct go1; [|done]. by destruct (Hk eq_refl) as [k ->].
  - pose proof (calm_event b now ev Eb i h) as Ha. rewrite Ev in Ha. rewrite Hk. destruct (grown_trans _ _ _ _ _ _ IH Ha) as (k & Hle & Hh). exists k. split; [|done].
    destruct go1, (Books.kppp b); lia.
Qed.

(** A session attaches at most once.  Whatever events it goes through and whatever the kernel answers,
    so also when the attach or a later step fails and [Auto] falls back to a TUN device, and however often
    the protocol reports the network layer up, the task and its destructors issue [SSTP_IOC_ATTACH] at most
    once, and only for the socket of the session's own connection. *)
Theorem session_attaches_once i0 info h0 t0 evs log b i1 h1 t1 go now recs i2 h2 :
  steps fuel pid cfg (init cfg t0 info, i0, h0, t0) evs log (b, i1, h1, t1) go ->
  finish fuel pid cfg b now i1 h1 = (Ok recs, i2, h2) ->
  exists k, (k <= 1)%nat /\ attaches h2 = replicate k (fd (Config.tls cfg)) ++ attaches h0.
Proof using Type.
  intros Hs Hf. apply attaches_steps in Hs. pose proof (calm_finish fuel pid cfg sock b now i1 h1) as Hq. rewrite Hf in Hq.
  destruct (grown_trans _ _ _ _ _ _ Hs Hq) as (k & Hle & Hh). exists k. split; [|done]. cbn [fst] in Hle. destruct go, (Books.kppp b); lia.
Qed.
End Session.

Module AttachDemo.
Import TaskDemo.
#[local] Existing Instance ToyCrypto.toy.

(** The session of [TaskBooks.TaskDemo]: one attach, of its socket. *)
Lemma session_attaches_once_witness :
  exists b i h t recs i' h' k, played = Some ((default ([], (books0, SharedMssTable_new, [], 0), true) played).1.1, (b, i, h, t), false) /\
    finish (os := host) (bp := false) 4 99 config b (95 * SECOND) i h = (Ok recs, i', h') /\
    attaches h' = [2] /\ (k <= 1)%nat /\ attaches h' = replicate k (fd (Config.tls config)) ++ attaches [].
Proof.
  assert (Hr : exists r, closed.1.1 = Ok r) by (eexists; vm_compute; reflexivity). destruct Hr as [recs Hr].
  assert (Ha : attaches closed.2 = [2]) by (vm_compute; reflexivity).
  pose proof played_summary as Hs. destruct played as [[[log [[[b i] h] t]] go]|] eqn:Ep; [|done]. cbn [summary] in Hs. injection Hs as _ _ _ ->.
  cbv beta iota in Hr, Ha. destruct (finish (os := host) (bp := false) 4 99 config b (95 * SECOND) i h) as [[r i'] h'] eqn:Ef. cbn [fst snd] in Hr, Ha. subst r.
  destruct (session_attaches_once (os := host) (bp := false) 4 99 config _ _ _ _ _ _ _ _ _ _ _ _ _ _ _ (story_run 4 _ Ep) Ef) as (k & Hk & Hh).
  exists b, i, h, t, recs, i', h', k. split; [reflexivity|]. split; [exact Ef|]. split; [exact Ha|]. split; [exact Hk|exact Hh].
Defined.
End AttachDemo.
