(* ===== verification/Registry.v ===== *)
(** * Sessions of the process ([src/src/session.rs]: [SessionId], [SessionHandle], [Registry], [spawn_handle],
    [RegistrationGuard] and the phases of [run]; [src/src/metrics.rs]; [src/src/control.rs]: the handlers;
    [src/src/main.rs]: [accept_loop] and the drain)

    [Process.t] is what the threads of the server share: the registry, the control channels, the shutdown
    watch and the counters, together with the state of each session task and each accept loop that touches
    them.  Every critical section is one step; the threads interleave freely, so a run is any sequence of
    the events below.  What a session does after its preamble is the subject of [Session.v] and [Task.v];
    here only its end and the commands it takes matter. *)

From stdpp Require Import strings gmap.
From S2P Require Import Prelude RustText RustStd Mikrotik PppDriver Radius Accounting Os DataPath Task.

Definition CONTROL_CHANNEL_DEPTH : Z := 4.

Inductive ControlCommand :=
| Disconnect (reason : DisconnectReason.t)
| Rekey (request_peer : bool)
| PeriodicTick.

(** The phases of [run]: not polled yet, TLS handshake, HTTP preamble, [drive_sstp]. *)
Inductive Phase := Spawned | TlsHandshake | Preamble | Driving.

(** A session task with the receiving end of its channel and of the watch, and the block it shares with its
    handle. *)
Record SessionTask := {
  phase : Phase;
  control_rx : list ControlCommand;
  drain_changed : bool;
  info : SessionInfo.t
}.

(** The channel and the info block of a handle are those of the task with its id. *)
Record SessionHandle := { id : Z; peer : SocketAddr }.

(** An accept loop: whether it still accepts, its own view of the watch, and the channels it ticks. *)
Record Worker := { accepting : bool; shutdown_changed : bool; tick_senders : list Z }.

Module Metrics.

Record t := { connections_accepted : Z; connections_active : Z; handshake_failures : Z }.

Definition zero : t := {| connections_accepted := 0; connections_active := 0; handshake_failures := 0 |}.

(** [Counter::inc] and [Gauge::inc], [Gauge::dec]: 64-bit, wrapping *)
Definition counter_inc (v : Z) : Z := (v + 1) mod 2 ^ 64.
Definition wrap_i64 (v : Z) : Z := (v + 2 ^ 63) mod 2 ^ 64 - 2 ^ 63.
Definition gauge_inc (v : Z) : Z := wrap_i64 (v + 1).
Definition gauge_dec (v : Z) : Z := wrap_i64 (v - 1).

End Metrics.

(** The main task: waiting for a signal or a change of the watch, told everyone, told every session. *)
Inductive Main := Waiting | ShutdownSent | Broadcast.

Module Process.

Record t := {
  next_id : Z;
  registry : gmap Z SessionHandle;
  tasks : gmap Z SessionTask;
  workers : gmap Z Worker;
  main : Main;
  metrics : Metrics.t
}.

Definition with_tasks (p : t) (m : gmap Z SessionTask) : t :=
  {| next_id := next_id p; registry := registry p; tasks := m; workers := workers p; main := main p; metrics := metrics p |}.
Definition with_workers (p : t) (m : gmap Z Worker) : t :=
  {| next_id := next_id p; registry := registry p; tasks := tasks p; workers := m; main := main p; metrics := metrics p |}.

End Process.

(** ** [Registry] and [SessionHandle] *)

Definition register (p : Process.t) (h : SessionHandle) : Process.t :=
  {| Process.next_id := Process.next_id p; Process.registry := <[id h := h]> (Process.registry p); Process.tasks := Process.tasks p;
     Process.workers := Process.workers p; Process.main := Process.main p; Process.metrics := Process.metrics p |}.

Definition unregister (p : Process.t) (i : Z) : Process.t :=
  {| Process.next_id := Process.next_id p; Process.registry := delete i (Process.registry p); Process.tasks := Process.tasks p;
     Process.workers := Process.workers p; Process.main := Process.main p; Process.metrics := Process.metrics p |}.

Definition get (p : Process.t) (i : Z) : option SessionHandle := Process.registry p !! i.

(** The values of the map, in the order of its iterator *)
Definition snapshot (p : Process.t) : list SessionHandle := (map_to_list (Process.registry p)).*2.

Definition registry_len (p : Process.t) : Z := Z.of_nat (size (Process.registry p)).

Definition queued (t : SessionTask) (c : ControlCommand) : SessionTask :=
  {| phase := phase t; control_rx := control_rx t ++ [c]; drain_changed := drain_changed t; info := info t |}.

(** [mpsc::Sender::try_send] on the channel of a session: closed when its task is gone, full with
    [CONTROL_CHANNEL_DEPTH] commands in it. *)
Definition try_send_to (p : Process.t) (i : Z) (c : ControlCommand) : Process.t * bool :=
  match Process.tasks p !! i with
  | None => (p, false)
  | Some t =>
      if len (control_rx t) <? CONTROL_CHANNEL_DEPTH then (Process.with_tasks p (<[i := queued t c]> (Process.tasks p)), true)
      else (p, false)
  end.

Definition try_send (p : Process.t) (h : SessionHandle) (c : ControlCommand) : Process.t * bool := try_send_to p (id h) c.

Definition broadcast_disconnect (p : Process.t) (reason : DisconnectReason.t) : Process.t :=
  fold_left (fun p h => (try_send p h (Disconnect reason)).1) (snapshot p) p.

(** [SessionId::next] *)
Definition next (p : Process.t) : Z * Process.t :=
  (Process.next_id p,
   {| Process.next_id := (Process.next_id p + 1) mod 2 ^ 64; Process.registry := Process.registry p; Process.tasks := Process.tasks p;
      Process.workers := Process.workers p; Process.main := Process.main p; Process.metrics := Process.metrics p |}).

Definition with_metrics (p : Process.t) (m : Metrics.t) : Process.t :=
  {| Process.next_id := Process.next_id p; Process.registry := Process.registry p; Process.tasks := Process.tasks p;
     Process.workers := Process.workers p; Process.main := Process.main p; Process.metrics := m |}.

(** [spawn_handle] and the start of the task; the watch is subscribed to, so that only a later change
    counts. *)
Definition spawn_handle (p : Process.t) (from : SocketAddr) : Z * Process.t :=
  let '(i, p) := next p in
  let p := register p {| id := i; peer := from |} in
  let m := Process.metrics p in
  let p := with_metrics p {| Metrics.connections_accepted := Metrics.counter_inc (Metrics.connections_accepted m);
                             Metrics.connections_active := Metrics.gauge_inc (Metrics.connections_active m);
                             Metrics.handshake_failures := Metrics.handshake_failures m |} in
  (i, Process.with_tasks p (<[i := {| phase := Spawned; control_rx := []; drain_changed := false; info := SessionInfo.default |}]> (Process.tasks p))).

(** The task returns: its locals are dropped, the [RegistrationGuard] among them. *)
Definition end_session (p : Process.t) (i : Z) : Process.t :=
  let p := unregister p i in
  let m := Process.metrics p in
  let p := with_metrics p {| Metrics.connections_accepted := Metrics.connections_accepted m;
                             Metrics.connections_active := Metrics.gauge_dec (Metrics.connections_active m);
                             Metrics.handshake_failures := Metrics.handshake_failures m |} in
  Process.with_tasks p (delete i (Process.tasks p)).

Definition handshake_failed (p : Process.t) : Process.t :=
  let m := Process.metrics p in
  with_metrics p {| Metrics.connections_accepted := Metrics.connections_accepted m; Metrics.connections_active := Metrics.connections_active m;
                    Metrics.handshake_failures := Metrics.counter_inc (Metrics.handshake_failures m) |}.

(** ** The phases of [run] *)

Definition with_phase (t : SessionTask) (ph : Phase) (i : SessionInfo.t) : SessionTask :=
  {| phase := ph; control_rx := control_rx t; drain_changed := drain_changed t; info := i |}.

(** What [run] publishes before the handshake, after it, and after the preamble *)
Definition publish_start (g : SessionInfo.t) (now : Z) (local_ip : bytes) (method : AuthMethod.t) : SessionInfo.t :=
  {| SessionInfo.started_at := Some now; SessionInfo.tls_version := SessionInfo.tls_version g; SessionInfo.cipher := SessionInfo.cipher g;
     SessionInfo.correlation_id := SessionInfo.correlation_id g; SessionInfo.auth_method := Some method;
     SessionInfo.username := SessionInfo.username g; SessionInfo.assigned_ip := SessionInfo.assigned_ip g;
     SessionInfo.local_ip := Some local_ip; SessionInfo.ifname := SessionInfo.ifname g; SessionInfo.mtu := SessionInfo.mtu g;
     SessionInfo.backend := SessionInfo.backend g; SessionInfo.shaping := SessionInfo.shaping g |}.

Definition publish_tls (g : SessionInfo.t) (version cipher : bytes) : SessionInfo.t :=
  {| SessionInfo.started_at := SessionInfo.started_at g; SessionInfo.tls_version := Some version; SessionInfo.cipher := Some cipher;
     SessionInfo.correlation_id := SessionInfo.correlation_id g; SessionInfo.auth_method := SessionInfo.auth_method g;
     SessionInfo.username := SessionInfo.username g; SessionInfo.assigned_ip := SessionInfo.assigned_ip g;
     SessionInfo.local_ip := SessionInfo.local_ip g; SessionInfo.ifname := SessionInfo.ifname g; SessionInfo.mtu := SessionInfo.mtu g;
     SessionInfo.backend := SessionInfo.backend g; SessionInfo.shaping := SessionInfo.shaping g |}.

Definition publish_preamble (g : SessionInfo.t) (correlation_id : option bytes) : SessionInfo.t :=
  {| SessionInfo.started_at := SessionInfo.started_at g; SessionInfo.tls_version := SessionInfo.tls_version g;
     SessionInfo.cipher := SessionInfo.cipher g; SessionInfo.correlation_id := correlation_id;
     SessionInfo.auth_method := SessionInfo.auth_method g; SessionInfo.username := SessionInfo.username g;
     SessionInfo.assigned_ip := SessionInfo.assigned_ip g; SessionInfo.local_ip := SessionInfo.local_ip g;
     SessionInfo.ifname := SessionInfo.ifname g; SessionInfo.mtu := SessionInfo.mtu g; SessionInfo.backend := SessionInfo.backend g;
     SessionInfo.shaping := SessionInfo.shaping g |}.

(** What the world has for the task when it is polled: how far the handshake and the preamble are, and for
    [drive_sstp] what it publishes and whether it goes on after this turn. *)
Inductive progress :=
| TlsPending
| TlsDone (version cipher : bytes)
| TlsFailed
| PreambleDone (correlation_id : option bytes)
| PreambleFailed
| Turn (publish : SessionInfo.t -> SessionInfo.t) (go : bool).

(** What [drive_sstp] acts on in a turn *)
Inductive handled := ByDrain | ByControl (c : ControlCommand) | ByOther.

(** The arguments of [run] that it publishes *)
Record Settings := { s_local_ip : bytes; s_auth_method : AuthMethod.t }.

Definition set_task (p : Process.t) (i : Z) (t : SessionTask) : Process.t := Process.with_tasks p (<[i := t]> (Process.tasks p)).

(** The [select!] of the handshake: the drain first, then the control channel, where any command ends the
    session, then the handshake. *)
Definition poll_handshake (p : Process.t) (i : Z) (t : SessionTask) (e : progress) : option Process.t :=
  if drain_changed t then Some (end_session p i)
  else
    match control_rx t with
    | _ :: _ => Some (end_session p i)
    | [] =>
        match e with
        | TlsPending => Some (set_task p i (with_phase t TlsHandshake (info t)))
        | TlsDone version cipher => Some (set_task p i (with_phase t Preamble (publish_tls (info t) version cipher)))
        | TlsFailed => Some (end_session (handshake_failed p) i)
        | _ => None
        end
    end.

(** A turn of [drive_sstp] *)
Definition poll_drive (p : Process.t) (i : Z) (t : SessionTask) (publish : SessionInfo.t -> SessionInfo.t) (go : bool) : Process.t * handled :=
  let '(rest, drain, by_) :=
    if drain_changed t then (control_rx t, false, ByDrain)
    else match control_rx t with c :: q => (q, false, ByControl c) | [] => ([], false, ByOther) end in
  let t := {| phase := Driving; control_rx := rest; drain_changed := drain; info := publish (info t) |} in
  (if go then set_task p i t else end_session p i, by_).

Definition poll (s : Settings) (p : Process.t) (i now : Z) (e : progress) : option (Process.t * handled) :=
  match Process.tasks p !! i with
  | None => None
  | Some t =>
      match phase t with
      | Spawned =>
          let t := with_phase t TlsHandshake (publish_start (info t) now (s_local_ip s) (s_auth_method s)) in
          (fun q => (q, ByOther)) <$> poll_handshake p i t e
      | TlsHandshake => (fun q => (q, ByOther)) <$> poll_handshake p i t e
      | Preamble =>
          match e with
          | PreambleDone correlation_id => Some (set_task p i (with_phase t Driving (publish_preamble (info t) correlation_id)), ByOther)
          | PreambleFailed => Some (end_session (handshake_failed p) i, ByOther)
          | _ => None
          end
      | Driving => match e with Turn publish go => Some (poll_drive p i t publish go) | _ => None end
      end
  end.

(** ** [accept_loop] *)

Definition set_worker (p : Process.t) (w : Z) (k : Worker) : Process.t := Process.with_workers p (<[w := k]> (Process.workers p)).

(** A connection; the watch may have changed after the loop looked at it. *)
Definition accept_event (p : Process.t) (w : Z) (from : SocketAddr) : option Process.t :=
  match Process.workers p !! w with
  | Some k =>
      if accepting k then
        let '(i, p) := spawn_handle p from in
        Some (set_worker p w {| accepting := true; shutdown_changed := shutdown_changed k; tick_senders := tick_senders k ++ [i] |})
      else None
  | None => None
  end.

(** The worker's timer: closed channels are dropped, the others get a tick. *)
Definition tick_event (p : Process.t) (w : Z) : option Process.t :=
  match Process.workers p !! w with
  | Some k =>
      if accepting k then
        let senders := filter (fun i => is_Some (Process.tasks p !! i)) (tick_senders k) in
        let p := set_worker p w {| accepting := true; shutdown_changed := shutdown_changed k; tick_senders := senders |} in
        Some (fold_left (fun p i => (try_send_to p i PeriodicTick).1) senders p)
      else None
  | None => None
  end.

Definition stop_accepting (p : Process.t) (w : Z) : option Process.t :=
  match Process.workers p !! w with
  | Some k =>
      if accepting k && shutdown_changed k
      then Some (set_worker p w {| accepting := false; shutdown_changed := false; tick_senders := tick_senders k |})
      else None
  | None => None
  end.

(** ** The drain of [main] *)

(** [watch::Sender::send]: every receiver that exists sees a change. *)
Definition send_shutdown (p : Process.t) : Process.t :=
  {| Process.next_id := Process.next_id p; Process.registry := Process.registry p;
     Process.tasks := (fun t => {| phase := phase t; control_rx := control_rx t; drain_changed := true; info := info t |}) <$> Process.tasks p;
     Process.workers := (fun k => {| accepting := accepting k; shutdown_changed := true; tick_senders := tick_senders k |}) <$> Process.workers p;
     Process.main := Process.main p; Process.metrics := Process.metrics p |}.

Definition with_main (p : Process.t) (m : Main) : Process.t :=
  {| Process.next_id := Process.next_id p; Process.registry := Process.registry p; Process.tasks := Process.tasks p;
     Process.workers := Process.workers p; Process.main := m; Process.metrics := Process.metrics p |}.

(** [wait_for_shutdown] returned *)
Definition main_sends (p : Process.t) : option Process.t :=
  match Process.main p with Waiting => Some (with_main (send_shutdown p) ShutdownSent) | _ => None end.

Definition main_broadcasts (p : Process.t) : option Process.t :=
  match Process.main p with
  | ShutdownSent =>
      Some (with_main (if 0 <? registry_len p then broadcast_disconnect p DisconnectReason.ServerShutdown else p) Broadcast)
  | _ => None
  end.

Definition DRAIN_GRACE : Z := 10 * SECOND.

(** The rest of the drain, from [now]: poll every 100 ms until the registry is empty or the grace period is
    over, and give the time and what is left.  [remaining t] is the length of the registry at [t], and the
    sleep begun at [t] takes [late t] more than asked.  [None]: [fuel] rounds were not enough. *)
Fixpoint drain_poll (fuel : nat) (remaining late : Z -> Z) (now deadline : Z) : option (Z * Z) :=
  if negb (remaining now =? 0) && (now <? deadline) then
    match fuel with
    | O => None
    | S fuel => drain_poll fuel remaining late (now + 100 * MILLISECOND + late now) deadline
    end
  else Some (now, remaining now).

(** [accept_loop] after its loop: each task is given what is left of the grace period.  The list holds
    when each task finishes; the result is when the loop returns and whether a task was abandoned. *)
Fixpoint drain_tasks (deadline now : Z) (tasks : list Z) : Z * bool :=
  match tasks with
  | [] => (now, false)
  | finished :: r =>
      let timeout := Z.max 0 (deadline - now) in
      if finished <=? now + timeout then drain_tasks deadline (Z.max now finished) r else (now + timeout, true)
  end.

Definition drain_worker (now : Z) (tasks : list Z) : Z * bool :=
  match tasks with [] => (now, false) | _ => drain_tasks (now + DRAIN_GRACE) now tasks end.

(** ** [control.rs] *)

(** [SocketAddr::to_string] *)
Definition show_addr (a : SocketAddr) : bytes :=
  match ip a with
  | V4 o => show_ipv4 o ++ [58] ++ show_dec (port a)
  | V6 s => [91] ++ show_ipv6 s ++ [93; 58] ++ show_dec (port a)
  end.

(** [format!("{:02}")] *)
Definition show_02 (n : Z) : bytes := if n <? 10 then 48 :: show_dec n else show_dec n.

Definition format_duration (nanos : Z) : bytes :=
  let total := nanos / SECOND in
  let h := total / 3600 in
  let m := (total mod 3600) / 60 in
  let s := total mod 60 in
  if 0 <? h then show_dec h ++ lit "h" ++ show_02 m ++ lit "m" ++ show_02 s ++ lit "s"
  else if 0 <? m then show_dec m ++ lit "m" ++ show_02 s ++ lit "s"
  else show_dec s ++ lit "s".

Definition format_rate (rate : option RateSpec) : bytes :=
  match rate with
  | None => lit "-"
  | Some r =>
      match burst_rate_bps r with
      | Some b => show_dec (rate_bps r) ++ lit "/burst " ++ show_dec b
      | None => show_dec (rate_bps r)
      end
  end.

(** [format!("{m:?}")] *)
Definition debug_method (m : AuthMethod.t) : bytes :=
  match m with AuthMethod.Pap => lit "Pap" | AuthMethod.ChapMd5 => lit "ChapMd5" | AuthMethod.MsChapV2 => lit "MsChapV2" end.

Record SessionListItem := {
  li_id : bytes; li_peer : bytes; li_user : bytes; li_ip : bytes; li_uptime : bytes; li_backend : bytes; li_cipher : bytes
}.

Record SessionDetail := {
  d_id : bytes; d_peer : bytes; d_uptime : bytes; d_user : bytes; d_auth_method : bytes; d_assigned_ip : bytes; d_local_ip : bytes;
  d_ifname : bytes; d_backend : bytes; d_mtu : bytes; d_tls_version : bytes; d_cipher : bytes; d_correlation_id : bytes;
  d_rate_egress : bytes; d_rate_ingress : bytes
}.

Record CommandResult := { ok : bool; message : bytes }.

Record InfoResponse := { uptime_seconds : Z; io_threads : Z; auth_threads : Z; active_sessions : Z }.

Definition hyphen {A} (f : A -> bytes) (o : option A) : bytes := match o with Some a => f a | None => lit "-" end.

(** [SessionHandle::info] *)
Definition info_of (p : Process.t) (h : SessionHandle) : SessionInfo.t :=
  match Process.tasks p !! id h with Some t => info t | None => SessionInfo.default end.

Definition render_info (p : Process.t) (now started io auth : Z) : InfoResponse :=
  {| uptime_seconds := (now - started) / SECOND; io_threads := io; auth_threads := auth; active_sessions := registry_len p |}.

Definition list_item (p : Process.t) (now : Z) (h : SessionHandle) : SessionListItem :=
  let i := info_of p h in
  {| li_id := show_dec (id h); li_peer := show_addr (peer h); li_user := hyphen (fun u => u) (SessionInfo.username i);
     li_ip := hyphen show_ipv4 (SessionInfo.assigned_ip i); li_uptime := hyphen (fun t => format_duration (now - t)) (SessionInfo.started_at i);
     li_backend := hyphen lit (SessionInfo.backend i); li_cipher := hyphen (fun c => c) (SessionInfo.cipher i) |}.

Definition render_sess_list (p : Process.t) (now : Z) : list SessionListItem := map (list_item p now) (snapshot p).

(** [h.as_ref().and_then(|h| h.info().f)] *)
Definition field_of {A} (p : Process.t) (h : option SessionHandle) (f : SessionInfo.t -> option A) : option A := h ≫= fun h => f (info_of p h).

Definition render_sess_one (p : Process.t) (now raw_id : Z) : SessionDetail :=
  let h := get p raw_id in
  {| d_id := show_dec raw_id; d_peer := hyphen (fun h => show_addr (peer h)) h;
     d_uptime := hyphen (fun t => format_duration (now - t)) (field_of p h SessionInfo.started_at);
     d_user := hyphen (fun x => x) (field_of p h SessionInfo.username); d_auth_method := hyphen debug_method (field_of p h SessionInfo.auth_method);
     d_assigned_ip := hyphen show_ipv4 (field_of p h SessionInfo.assigned_ip); d_local_ip := hyphen show_ipv4 (field_of p h SessionInfo.local_ip);
     d_ifname := hyphen (fun x => x) (field_of p h SessionInfo.ifname); d_backend := hyphen lit (field_of p h SessionInfo.backend);
     d_mtu := hyphen show_dec (field_of p h SessionInfo.mtu); d_tls_version := hyphen (fun x => x) (field_of p h SessionInfo.tls_version);
     d_cipher := hyphen (fun x => x) (field_of p h SessionInfo.cipher); d_correlation_id := hyphen (fun x => x) (field_of p h SessionInfo.correlation_id);
     d_rate_egress := hyphen (fun h => format_rate (SessionInfo.shaping (info_of p h) ≫= egress)) h;
     d_rate_ingress := hyphen (fun h => format_rate (SessionInfo.shaping (info_of p h) ≫= ingress)) h |}.

Definition not_notified (raw_id : Z) : CommandResult :=
  {| ok := false; message := lit "session " ++ show_dec raw_id ++ lit " could not be notified (queue full or exiting)" |}.
Definition no_such_session (raw_id : Z) : CommandResult := {| ok := false; message := lit "no such session " ++ show_dec raw_id |}.

Definition disable_session (p : Process.t) (raw_id : Z) : Process.t * CommandResult :=
  match get p raw_id with
  | None => (p, no_such_session raw_id)
  | Some h =>
      let '(p, sent) := try_send p h (Disconnect DisconnectReason.AdminRequested) in
      (p, if sent : bool then {| ok := true; message := lit "disconnect queued for session " ++ show_dec raw_id |} else not_notified raw_id)
  end.

Definition rekey_session (p : Process.t) (raw_id : Z) (request_peer : bool) : Process.t * CommandResult :=
  match get p raw_id with
  | None => (p, no_such_session raw_id)
  | Some h =>
      let '(p, sent) := try_send p h (Rekey request_peer) in
      (p, if sent : bool then
            {| ok := true;
               message := (if request_peer then lit "rekey queued (with update_requested)" else lit "rekey queued") ++ lit " for session " ++ show_dec raw_id |}
          else not_notified raw_id)
  end.

Definition shutdown (p : Process.t) : Process.t * bytes := (send_shutdown p, lit "shutting down").

(** ** Runs of the process *)

Inductive event :=
| Accept (worker : Z) (from : SocketAddr)
| WorkerTick (worker : Z)
| StopAccepting (worker : Z)
| Poll (session now : Z) (e : progress)
| DisableSession (raw_id : Z)
| RekeySession (raw_id : Z) (request_peer : bool)
| ShutdownCommand
| MainSends
| MainBroadcasts.

Definition step (s : Settings) (p : Process.t) (ev : event) : option Process.t :=
  match ev with
  | Accept w from => accept_event p w from
  | WorkerTick w => tick_event p w
  | StopAccepting w => stop_accepting p w
  | Poll i now e => fst <$> poll s p i now e
  | DisableSession i => Some (disable_session p i).1
  | RekeySession i r => Some (rekey_session p i r).1
  | ShutdownCommand => Some (shutdown p).1
  | MainSends => main_sends p
  | MainBroadcasts => main_broadcasts p
  end.

Definition boot (n : nat) : Process.t :=
  {| Process.next_id := 1; Process.registry := ∅; Process.tasks := ∅;
     Process.workers := list_to_map (map (fun w => (Z.of_nat w, {| accepting := true; shutdown_changed := false; tick_senders := [] |})) (seq 0 n));
     Process.main := Waiting; Process.metrics := Metrics.zero |}.
