(* ===== verification/RegistryProps.v ===== *)
(** * Properties of the registry, the control channels and the accept loops

    Runs of [Registry.v] from [boot], with any number of workers and any interleaving: the registry holds
    exactly the live sessions and the gauge counts them, a control channel is a queue, and what the
    1 Hz tick of the workers does to sessions that are not in [drive_sstp] yet. *)

From stdpp Require Import strings gmap.
From S2P Require Import Prelude RustText RustStd Mikrotik PppDriver Radius Accounting Os DataPath Task Registry.

Fixpoint exec (s : Settings) (p : Process.t) (evs : list event) : option Process.t :=
  match evs with [] => Some p | ev :: r => step s p ev ≫= fun p => exec s p r end.

Lemma exec_app s p a b : exec s p (a ++ b) = exec s p a ≫= fun q => exec s q b.
Proof. revert p. induction a as [|ev a IH]; intros p; [done|]. simpl. destruct (step s p ev); simpl; auto. Qed.

(** ** Sending *)

(** [q] is [p] with commands added to the channels: no task appears, disappears or changes otherwise. *)
Definition more_queued (t t' : SessionTask) : Prop :=
  phase t' = phase t /\ drain_changed t' = drain_changed t /\ info t' = info t
  /\ exists cs, control_rx t' = control_rx t ++ cs /\ (len (control_rx t) <= CONTROL_CHANNEL_DEPTH -> len (control_rx t') <= CONTROL_CHANNEL_DEPTH).

Record only_sends (p q : Process.t) : Prop := {
  os_next : Process.next_id q = Process.next_id p;
  os_reg : Process.registry q = Process.registry p;
  os_workers : Process.workers q = Process.workers p;
  os_main : Process.main q = Process.main p;
  os_metrics : Process.metrics q = Process.metrics p;
  os_tasks : forall i, option_Forall2 more_queued (Process.tasks p !! i) (Process.tasks q !! i)
}.

#[export] Instance more_queued_refl : Reflexive more_queued.
Proof. intros t. repeat split; exists []; rewrite app_nil_r; auto. Qed.

#[export] Instance more_queued_trans : Transitive more_queued.
Proof.
  intros t u v (H1 & H2 & H3 & cs & E1 & L1) (K1 & K2 & K3 & ds & E2 & L2).
  repeat split; [congruence..|]. exists (cs ++ ds). split; [by rewrite E2, E1, app_assoc|auto].
Qed.

#[export] Instance only_sends_refl : Reflexive only_sends.
Proof. intros p. split; auto. intros i. reflexivity. Qed.

#[export] Instance only_sends_trans : Transitive only_sends.
Proof.
  intros p q r [A1 A2 A3 A4 A5 A6] [B1 B2 B3 B4 B5 B6]. split; [congruence..|].
  intros i. etransitivity; [apply A6|apply B6].
Qed.

Lemma queued_more t c : len (control_rx t) < CONTROL_CHANNEL_DEPTH -> more_queued t (queued t c).
Proof. intros H. repeat split. exists [c]. split; [done|]. cbn. autorewrite with lens. cbn. lia. Qed.

Lemma try_send_to_only p i c : only_sends p (try_send_to p i c).1.
Proof.
  unfold try_send_to. destruct (Process.tasks p !! i) as [t|] eqn:E; [|reflexivity].
  destruct (Z.ltb_spec (len (control_rx t)) CONTROL_CHANNEL_DEPTH); [|reflexivity].
  split; try done. intros j. cbn. destruct (decide (i = j)) as [<-|Hj]; simplify_map_eq.
  - constructor. by apply queued_more.
  - reflexivity.
Qed.

Lemma fold_only {A} (f : Process.t -> A -> Process.t) (l : list A) p :
  (forall p a, only_sends p (f p a)) -> only_sends p (fold_left f l p).
Proof. intros Hf. revert p. induction l as [|a l IH]; intros p; [reflexivity|]. simpl. etransitivity; [apply Hf|apply IH]. Qed.

Lemma broadcast_only p r : only_sends p (broadcast_disconnect p r).
Proof. apply fold_only. intros q h. apply try_send_to_only. Qed.

Lemma disable_only p i : only_sends p (disable_session p i).1.
Proof.
  unfold disable_session. destruct (get p i) as [h|]; [|reflexivity].
  pose proof (try_send_to_only p (id h) (Disconnect DisconnectReason.AdminRequested)) as H. unfold try_send.
  by destruct (try_send_to p (id h) _) as [q b].
Qed.

Lemma rekey_only p i r : only_sends p (rekey_session p i r).1.
Proof.
  unfold rekey_session. destruct (get p i) as [h|]; [|reflexivity].
  pose proof (try_send_to_only p (id h) (Rekey r)) as H. unfold try_send.
  by destruct (try_send_to p (id h) _) as [q b].
Qed.

(** ** The invariant *)

Definition senders (p : Process.t) (w : Z) : list Z := match Process.workers p !! w with Some k => tick_senders k | None => [] end.

Record coherent (p : Process.t) : Prop := {
  c_next : 1 <= Process.next_id p < 2 ^ 63;
  c_dom : forall i, is_Some (Process.registry p !! i) <-> is_Some (Process.tasks p !! i);
  c_handle : forall i h, Process.registry p !! i = Some h -> id h = i;
  c_ids : forall i, is_Some (Process.tasks p !! i) -> 1 <= i < Process.next_id p;
  c_active : Metrics.connections_active (Process.metrics p) = registry_len p;
  c_accepted : Metrics.connections_accepted (Process.metrics p) = Process.next_id p - 1;
  c_failed : 0 <= Metrics.handshake_failures (Process.metrics p) <= Process.next_id p - 1 - registry_len p;
  c_depth : forall i t, Process.tasks p !! i = Some t -> len (control_rx t) <= CONTROL_CHANNEL_DEPTH;
  c_ticked : forall i, is_Some (Process.tasks p !! i) -> exists w, i ∈ senders p w;
  c_once : forall w, NoDup (senders p w) /\ Forall (fun i => 1 <= i < Process.next_id p) (senders p w);
  c_apart : forall v w i, i ∈ senders p v -> i ∈ senders p w -> v = w
}.

Lemma only_sends_some p q i : only_sends p q -> is_Some (Process.tasks q !! i) <-> is_Some (Process.tasks p !! i).
Proof. intros H. pose proof (os_tasks _ _ H i) as F. destruct F; split; intros [? ?]; eauto; discriminate. Qed.

(** Steps that neither open nor close a session *)
Record same_sessions (p q : Process.t) : Prop := {
  ss_next : Process.next_id q = Process.next_id p;
  ss_reg : Process.registry q = Process.registry p;
  ss_metrics : Process.metrics q = Process.metrics p;
  ss_live : forall i, is_Some (Process.tasks q !! i) <-> is_Some (Process.tasks p !! i);
  ss_depth : (forall i t, Process.tasks p !! i = Some t -> len (control_rx t) <= CONTROL_CHANNEL_DEPTH) ->
             forall i t, Process.tasks q !! i = Some t -> len (control_rx t) <= CONTROL_CHANNEL_DEPTH;
  ss_sublist : forall w, sublist (senders q w) (senders p w);
  ss_kept : forall w i, is_Some (Process.tasks p !! i) -> i ∈ senders p w -> i ∈ senders q w
}.

Lemma same_sessions_coherent p q : same_sessions p q -> coherent p -> coherent q.
Proof.
  intros [S1 S2 S3 S4 S5 S6 S7] [C1 C2 C3 C4 C5 C6 C7 C8 C9 C10 C11].
  assert (He : forall w i, i ∈ senders q w -> i ∈ senders p w) by (intros w i Hi; by eapply elem_of_sublist).
  split; unfold registry_len in *; rewrite ?S1, ?S2, ?S3; auto.
  - intros i. rewrite S4. apply C2.
  - intros i Hi. apply C4. by rewrite <- S4.
  - by apply S5.
  - intros i Hi. destruct (C9 i) as [w Hw]; [by rewrite <- S4|]. exists w. apply S7; [by rewrite <- S4|done].
  - intros w. destruct (C10 w) as [N F]. split; [by eapply sublist_NoDup|]. rewrite Forall_forall in F |- *. auto.
  - intros v w i Hv Hw. eauto.
Qed.

Lemma only_sends_same p q : only_sends p q -> same_sessions p q.
Proof.
  intros H. assert (Hs : forall w, senders q w = senders p w) by (intros w; unfold senders; by rewrite (os_workers _ _ H)).
  split; try apply H; intros.
  - by apply only_sends_some.
  - pose proof (os_tasks _ _ H i) as F. rewrite H1 in F. inversion F as [u ? M Hp Hq|]; subst.
    destruct M as (_ & _ & _ & cs & _ & L). eauto.
  - by rewrite Hs.
  - by rewrite Hs.
Qed.

Lemma set_task_same p i t t' : Process.tasks p !! i = Some t -> len (control_rx t') <= len (control_rx t) -> same_sessions p (set_task p i t').
Proof.
  intros Ht Hl. split; try done; cbn.
  - intros j. destruct (decide (i = j)) as [<-|]; simplify_map_eq; [|done]. split; eauto.
  - intros HD j u. destruct (decide (i = j)) as [<-|]; simplify_map_eq; [|eauto]. intros [= <-]. pose proof (HD _ _ Ht). lia.
Qed.

Lemma senders_set p w k v : senders (set_worker p w k) v = if decide (w = v) then tick_senders k else senders p v.
Proof. unfold senders, set_worker. cbn. case_decide; simplify_map_eq; done. Qed.

Lemma set_worker_same p w k k' :
  Process.workers p !! w = Some k -> sublist (tick_senders k') (tick_senders k) ->
  (forall i, is_Some (Process.tasks p !! i) -> i ∈ tick_senders k -> i ∈ tick_senders k') -> same_sessions p (set_worker p w k').
Proof.
  intros Hk Hs Hl. assert (Hw : senders p w = tick_senders k) by (unfold senders; by rewrite Hk).
  split; try done; intros v; rewrite senders_set; case_decide; subst; rewrite ?Hw; auto.
Qed.

Lemma send_shutdown_same p : same_sessions p (send_shutdown p).
Proof.
  assert (Hs : forall w, senders (send_shutdown p) w = senders p w).
  { intros w. unfold senders, send_shutdown. cbn. rewrite lookup_fmap. by destruct (Process.workers p !! w). }
  split; try done; cbn; intros; rewrite ?Hs; auto.
  - rewrite lookup_fmap, fmap_is_Some. done.
  - rewrite lookup_fmap in H0. destruct (Process.tasks p !! i) eqn:E; simplify_eq/=. eauto.
Qed.

Lemma with_main_same p m : same_sessions p (with_main p m).
Proof. by split. Qed.

#[export] Instance same_sessions_trans : Transitive same_sessions.
Proof.
  intros p q r [A1 A2 A3 A4 A5 A6 A7] [B1 B2 B3 B4 B5 B6 B7]. split; [congruence..| | | |].
  - intros i. rewrite B4. apply A4.
  - intros H. by apply B5, A5.
  - intros w. etransitivity; [apply B6|apply A6].
  - intros w i Hi Hw. apply B7; [by rewrite A4|by apply A7].
Qed.

(** *** The end of a session *)

Lemma registry_len_nonneg p : 0 <= registry_len p.
Proof. unfold registry_len. lia. Qed.

Lemma wrap_small v : - 2 ^ 63 <= v < 2 ^ 63 -> Metrics.wrap_i64 v = v.
Proof. intros H. unfold Metrics.wrap_i64. rewrite Z.mod_small by lia. lia. Qed.

Lemma registry_len_delete p i h : Process.registry p !! i = Some h -> registry_len (unregister p i) = registry_len p - 1.
Proof.
  intros H. unfold registry_len. cbn. rewrite map_size_delete_Some by eauto.
  assert (size (Process.registry p) <> 0%nat) by (intros E; apply map_size_empty_inv in E; rewrite E in H; by rewrite lookup_empty in H). lia.
Qed.

Lemma end_session_coherent p p' i :
  (p' = p \/ p' = handshake_failed p) -> is_Some (Process.tasks p !! i) -> coherent p -> coherent (end_session p' i).
Proof.
  intros Hp Hi [C1 C2 C3 C4 C5 C6 C7 C8 C9 C10 C11].
  destruct (proj2 (C2 i) Hi) as [h Hh]. pose proof (registry_len_delete p i h Hh) as HL. pose proof (registry_len_nonneg (unregister p i)) as H0.
  assert (HR : Process.next_id p' = Process.next_id p /\ Process.registry p' = Process.registry p /\ Process.tasks p' = Process.tasks p
    /\ Process.workers p' = Process.workers p /\ Metrics.connections_active (Process.metrics p') = registry_len p
    /\ Metrics.connections_accepted (Process.metrics p') = Process.next_id p - 1
    /\ 0 <= Metrics.handshake_failures (Process.metrics p') <= Process.next_id p - registry_len p).
  { destruct Hp as [->| ->]; cbn; repeat split; auto; try lia; unfold Metrics.counter_inc; rewrite Z.mod_small by lia; lia. }
  destruct HR as (R1 & R2 & R3 & R4 & R5 & R6 & R7).
  assert (HE : registry_len (end_session p' i) = registry_len p - 1) by (rewrite <- HL; unfold registry_len; cbn; by rewrite R2).
  assert (Hs : forall w, senders (end_session p' i) w = senders p w) by (intros w; unfold senders, end_session; cbn; by rewrite R4).
  split; try rewrite HE; cbn; rewrite ?R1, ?R2, ?R3, ?R5; auto.
  - intros j. destruct (decide (i = j)) as [<-|]; simplify_map_eq; [split; by intros [? ?]|apply C2].
  - intros j g Hg. apply lookup_delete_Some in Hg as [_ Hg]. auto.
  - intros j [t Hj]. apply lookup_delete_Some in Hj as [_ Hj]. eauto.
  - unfold Metrics.gauge_dec. apply wrap_small. lia.
  - lia.
  - intros j t Hj. apply lookup_delete_Some in Hj as [_ Hj]. eauto.
  - intros j [t Hj]. apply lookup_delete_Some in Hj as [_ Hj]. destruct (C9 j) as [w Hw]; [eauto|]. exists w. by rewrite Hs.
  - intros w. rewrite Hs. apply C10.
  - intros v w j. rewrite !Hs. apply C11.
Qed.

(** *** A new session *)

Lemma not_in_registry p : coherent p -> Process.registry p !! Process.next_id p = None /\ Process.tasks p !! Process.next_id p = None.
Proof.
  intros C. assert (H : Process.tasks p !! Process.next_id p = None).
  { apply eq_None_not_Some. intros H. pose proof (c_ids _ C _ H). lia. }
  split; [|done]. apply eq_None_not_Some. intros H1. apply (c_dom _ C) in H1 as [? H1]. congruence.
Qed.

Lemma accept_coherent p q w from :
  accept_event p w from = Some q -> Process.next_id p + 1 < 2 ^ 63 -> coherent p ->
  coherent q /\ Process.next_id q = Process.next_id p + 1.
Proof.
  unfold accept_event. intros H Hn C. destruct (Process.workers p !! w) as [k|] eqn:Hk; [|done].
  destruct (accepting k); [|done]. destruct (not_in_registry p C) as [Hr Ht].
  destruct C as [C1 C2 C3 C4 C5 C6 C7 C8 C9 C10 C11]. set (n := Process.next_id p) in *.
  assert (HN : (n + 1) mod 2 ^ 64 = n + 1) by (apply Z.mod_small; lia).
  set (sp := spawn_handle p from) in H. destruct sp as [i p1] eqn:E. subst sp. injection E as <- <-.
  injection H as <-. cbn [Process.next_id spawn_handle set_worker Process.with_workers Process.with_tasks].
  match goal with |- coherent ?q0 /\ _ => set (q := q0) end.
  assert (Q1 : Process.next_id q = n + 1) by done.
  assert (Q2 : Process.registry q = <[n := {| id := n; peer := from |}]> (Process.registry p)) by done.
  assert (Q3 : exists t, control_rx t = [] /\ Process.tasks q = <[n := t]> (Process.tasks p)) by (eexists; split; [|done]; done).
  destruct Q3 as (t0 & Ht0 & Q3).
  assert (Hl : registry_len q = registry_len p + 1).
  { unfold registry_len. rewrite Q2, map_size_insert_None by done. lia. }
  pose proof (registry_len_nonneg p) as H0.
  assert (Hw : senders p w = tick_senders k) by (unfold senders; by rewrite Hk).
  assert (Hs : forall v, senders q v = if decide (w = v) then senders p v ++ [n] else senders p v).
  { intros v. unfold q. rewrite senders_set. case_decide; [subst v; by rewrite Hw|done]. }
  assert (Hin : forall v i, i ∈ senders q v -> i ∈ senders p v \/ (i = n /\ v = w)).
  { intros v i. rewrite Hs. case_decide; subst; rewrite ?elem_of_app, ?list_elem_of_singleton; naive_solver. }
  assert (Hold : forall v i, i ∈ senders p v -> 1 <= i < n) by (intros v i Hi; destruct (C10 v) as [_ F]; rewrite Forall_forall in F; auto).
  split; [|done].
  split; rewrite ?Hl, ?Q1, ?Q2, ?Q3; auto; try lia.
  - intros i. rewrite !lookup_insert_is_Some'. by rewrite C2.
  - intros i h Hi. apply lookup_insert_Some in Hi as [[<- <-]|[_ Hi]]; [done|auto].
  - intros i Hi. apply lookup_insert_is_Some' in Hi as [<-|Hi]; [lia|]. pose proof (C4 _ Hi). lia.
  - cbn. unfold Metrics.gauge_inc. rewrite C5. apply wrap_small. lia.
  - cbn. unfold Metrics.counter_inc. rewrite C6, Z.mod_small by lia. lia.
  - cbn. lia.
  - intros i t Hi. apply lookup_insert_Some in Hi as [[<- <-]|[_ Hi]]; [by rewrite Ht0|by apply (C8 i)].
  - intros i Hi. apply lookup_insert_is_Some' in Hi as [<-|Hi].
    + exists w. rewrite Hs. rewrite decide_True by done. set_solver.
    + destruct (C9 i Hi) as [v Hv]. exists v. rewrite Hs. case_decide; set_solver.
  - intros v. destruct (C10 v) as [N F]. split.
    + rewrite Hs. case_decide; [|done]. apply NoDup_app. split; [done|]. split; [|apply NoDup_singleton].
      intros x Hx ->%list_elem_of_singleton. pose proof (Hold _ _ Hx). lia.
    + apply Forall_forall. intros i [Hi|[-> _]]%Hin; [|lia]. pose proof (Hold _ _ Hi). lia.
  - intros v u i [Hv|[-> ->]]%Hin [Hu|[E ->]]%Hin; try done; [eauto|subst; pose proof (Hold _ _ Hv); lia|pose proof (Hold _ _ Hu); lia].
Qed.

(** *** Every step *)

Definition is_accept (ev : event) : bool := match ev with Accept _ _ => true | _ => false end.

(** What a step other than an accepted connection does to the table of sessions *)
Inductive table_step (p q : Process.t) : Prop :=
| stays : same_sessions p q -> table_step p q
| ends i p' : (p' = p \/ p' = handshake_failed p) -> is_Some (Process.tasks p !! i) -> q = end_session p' i -> table_step p q.

Lemma poll_handshake_table p i t0 t e q :
  Process.tasks p !! i = Some t0 -> control_rx t = control_rx t0 -> poll_handshake p i t e = Some q -> table_step p q.
Proof.
  intros Ht0 Hq. assert (Hl : forall ph n, same_sessions p (set_task p i (with_phase t ph n))).
  { intros ph n. eapply set_task_same; [done|]. cbn. by rewrite Hq. }
  unfold poll_handshake. intros H. destruct (drain_changed t).
  - injection H as <-. by eapply (ends _ _ i p); eauto.
  - destruct (control_rx t); [|injection H as <-; by eapply (ends _ _ i p); eauto].
    destruct e; try done; injection H as <-; [by apply stays|by apply stays|by eapply (ends _ _ i (handshake_failed p)); eauto].
Qed.

Lemma poll_table s p i now e q h : poll s p i now e = Some (q, h) -> table_step p q.
Proof.
  unfold poll. destruct (Process.tasks p !! i) as [t|] eqn:Ht; [|done]. intros H.
  assert (Hs : is_Some (Process.tasks p !! i)) by eauto. destruct (phase t).
  - apply fmap_Some in H as (q' & H & [= -> ->]). by eapply (poll_handshake_table _ _ _ _ _ _ Ht); [|exact H].
  - apply fmap_Some in H as (q' & H & [= -> ->]). by eapply (poll_handshake_table _ _ _ _ _ _ Ht); [|exact H].
  - destruct e; try done; injection H as <- <-; [|by eapply (ends _ _ i (handshake_failed p)); eauto]. apply stays. by eapply set_task_same.
  - destruct e as [| | | | |publish go]; try done. unfold poll_drive in H.
    destruct (if drain_changed t then _ else _) as [[rest drain] by_] eqn:E.
    destruct go; injection H as <- <-; [|by eapply (ends _ _ i p); eauto]. apply stays. eapply set_task_same; [done|]. cbn.
    destruct (drain_changed t); [|destruct (control_rx t)]; simplify_eq/=; len_lia.
Qed.

Lemma tick_same p w q : tick_event p w = Some q -> same_sessions p q.
Proof.
  unfold tick_event. destruct (Process.workers p !! w) as [k|] eqn:Hk; [|done]. destruct (accepting k); [|done]. intros [= <-].
  etransitivity; [|apply only_sends_same, fold_only; intros; apply try_send_to_only].
  eapply set_worker_same; [done|apply sublist_filter|]. intros i Hi Hin. cbn. by apply list_elem_of_filter.
Qed.

Lemma stop_same p w q : stop_accepting p w = Some q -> same_sessions p q.
Proof.
  unfold stop_accepting. destruct (Process.workers p !! w) as [k|] eqn:Hk; [|done]. destruct (_ && _); [|done]. intros [= <-].
  by eapply set_worker_same.
Qed.

Lemma step_table s p ev q : step s p ev = Some q -> is_accept ev = false -> table_step p q.
Proof.
  destruct ev; intros H Ha; cbn in H; try done.
  - by apply stays, (tick_same p worker).
  - by apply stays, (stop_same p worker).
  - apply fmap_Some in H as ([q' h] & H & ->). by eapply poll_table.
  - injection H as <-. apply stays, only_sends_same, disable_only.
  - injection H as <-. apply stays, only_sends_same, rekey_only.
  - injection H as <-. apply stays, send_shutdown_same.
  - unfold main_sends in H. destruct (Process.main p); simplify_eq. apply stays. etransitivity; [apply send_shutdown_same|apply with_main_same].
  - unfold main_broadcasts in H. destruct (Process.main p); simplify_eq. apply stays. destruct (0 <? registry_len p).
    + etransitivity; [apply only_sends_same, broadcast_only|apply with_main_same].
    + apply with_main_same.
Qed.

Lemma table_step_next p q : table_step p q -> Process.next_id q = Process.next_id p.
Proof. by intros [H|i p' [-> | ->] _ ->]; [apply H| |]. Qed.

Lemma step_coherent s p ev q :
  step s p ev = Some q -> Process.next_id p + 1 < 2 ^ 63 -> coherent p ->
  coherent q /\ Process.next_id q = Process.next_id p + (if is_accept ev then 1 else 0).
Proof.
  intros H Hn C. destruct (is_accept ev) eqn:E.
  - destruct ev; try done. by eapply accept_coherent.
  - apply step_table in H; [|done]. split; [|rewrite (table_step_next _ _ H); lia].
    destruct H as [H|i p' Hp Hi ->]; [by eapply same_sessions_coherent|by eapply end_session_coherent].
Qed.

Definition accepts (evs : list event) : Z := len (filter (fun ev => is_accept ev = true) evs).

Lemma boot_coherent n : coherent (boot n).
Proof.
  assert (Hs : forall w, senders (boot n) w = []).
  { intros w. unfold senders, boot. cbn. destruct (_ !! w) as [k|] eqn:E; [|done].
    apply elem_of_list_to_map_2 in E. apply list_elem_of_In, in_map_iff in E as (v & [= _ <-] & _). done. }
  split; cbn; try done; try lia; intros *; rewrite ?Hs, ?lookup_empty; try done; try by intros [? ?].
  - split; [apply NoDup_nil_2|done].
  - by intros ?%elem_of_nil.
Qed.

Lemma exec_coherent s p evs q :
  exec s p evs = Some q -> coherent p -> Process.next_id p + len evs < 2 ^ 63 ->
  coherent q /\ Process.next_id q = Process.next_id p + accepts evs.
Proof.
  revert p. induction evs as [|ev evs IH]; intros p H C Hn; cbn in H; [injection H as <-; split; [done|change (accepts []) with 0; lia]|].
  destruct (step s p ev) as [p1|] eqn:E; [|done].
  assert (Hl : len (ev :: evs) = len evs + 1) by len_lia. pose proof (Zle_0_nat (length evs)).
  apply step_coherent in E as [C1 N1]; [|lia|done].
  apply IH in H as [C2 N2]; [|done|destruct (is_accept ev); lia]. split; [done|].
  rewrite N2, N1. unfold accepts. rewrite filter_cons. destruct (is_accept ev); case_decide; try done; cbn [length]; lia.
Qed.

Lemma run_coherent s n evs p : exec s (boot n) evs = Some p -> len evs < 2 ^ 63 - 1 -> coherent p /\ Process.next_id p = 1 + accepts evs.
Proof. intros H Hl. apply (exec_coherent s (boot n) evs p H (boot_coherent n)). cbn [Process.next_id boot]. lia. Qed.

Lemma snapshot_ids p : coherent p -> id <$> snapshot p = (map_to_list (Process.registry p)).*1.
Proof.
  intros C. unfold snapshot. rewrite <- list_fmap_compose. apply list_fmap_ext. intros k [i h] Hk. cbn.
  apply (c_handle _ C). apply elem_of_map_to_list. by eapply list_elem_of_lookup_2.
Qed.

Lemma snapshot_live p i : coherent p -> i ∈ id <$> snapshot p <-> is_Some (Process.tasks p !! i).
Proof.
  intros C. rewrite (snapshot_ids p C), <- (c_dom _ C), list_elem_of_fmap. split.
  - intros ([j h] & -> & H). apply elem_of_map_to_list in H. eauto.
  - intros [h H]. exists (i, h). split; [done|]. by apply elem_of_map_to_list.
Qed.

Lemma snapshot_nodup p : coherent p -> NoDup (id <$> snapshot p).
Proof. intros C. rewrite (snapshot_ids p C). apply NoDup_fst_map_to_list. Qed.


(** ** What a channel holds *)

(** [try_send] on the queue of a live session *)
Definition offer (c : ControlCommand) (t : SessionTask) : SessionTask :=
  if len (control_rx t) <? CONTROL_CHANNEL_DEPTH then queued t c else t.

Lemma try_send_to_tasks p j c i :
  Process.tasks (try_send_to p j c).1 !! i = if decide (i = j) then offer c <$> Process.tasks p !! i else Process.tasks p !! i.
Proof.
  unfold try_send_to, offer. destruct (Process.tasks p !! j) as [t|] eqn:Hj.
  - destruct (_ <? _) eqn:L; cbn; case_decide; subst; rewrite ?Hj; cbn; rewrite ?L; simplify_map_eq; done.
  - cbn. case_decide; subst; [by rewrite Hj|done].
Qed.

Lemma send_all_tasks l p c i :
  NoDup l ->
  Process.tasks (fold_left (fun p j => (try_send_to p j c).1) l p) !! i
  = if decide (i ∈ l) then offer c <$> Process.tasks p !! i else Process.tasks p !! i.
Proof.
  intros N. revert p. induction N as [|j l Hj N IH]; intros p; [done|]. cbn [fold_left]. rewrite IH, try_send_to_tasks.
  destruct (decide (i = j)) as [->|Hij].
  - rewrite decide_False by done. by rewrite decide_True by set_solver.
  - destruct (decide (i ∈ l)); [rewrite decide_True by set_solver|rewrite decide_False by set_solver]; done.
Qed.

Lemma broadcast_tasks p r i :
  coherent p -> Process.tasks (broadcast_disconnect p r) !! i = offer (Disconnect r) <$> Process.tasks p !! i.
Proof.
  intros C. unfold broadcast_disconnect.
  assert (E : forall l q, fold_left (fun p h => (try_send p h (Disconnect r)).1) l q
                          = fold_left (fun p j => (try_send_to p j (Disconnect r)).1) (id <$> l) q).
  { induction l as [|h l IH]; intros q; [done|]. apply IH. }
  rewrite E, send_all_tasks by (by apply snapshot_nodup). case_decide as D; [done|].
  rewrite snapshot_live in D by done. apply eq_None_not_Some in D. by rewrite D.
Qed.

(** The command a step addresses to session [i], and the one session [i] takes in a step *)
Definition offered (p : Process.t) (ev : event) (i : Z) : list ControlCommand :=
  match ev with
  | WorkerTick w => if decide (i ∈ senders p w) then [PeriodicTick] else []
  | DisableSession j => if decide (i = j) then [Disconnect DisconnectReason.AdminRequested] else []
  | RekeySession j r => if decide (i = j) then [Rekey r] else []
  | MainBroadcasts => [Disconnect DisconnectReason.ServerShutdown]
  | _ => []
  end.

Definition taken (s : Settings) (p : Process.t) (ev : event) (i : Z) : list ControlCommand :=
  match ev with
  | Poll j now e => if decide (i = j) then match poll s p i now e with Some (_, ByControl c) => [c] | _ => [] end else []
  | _ => []
  end.

(** What the channel of session [i] takes in: the command when there is room *)
Definition admitted (p : Process.t) (ev : event) (i : Z) : list ControlCommand :=
  match Process.tasks p !! i with
  | Some t => if len (control_rx t) <? CONTROL_CHANNEL_DEPTH then offered p ev i else []
  | None => []
  end.

Lemma offer_queue c t : control_rx (offer c t) = control_rx t ++ (if len (control_rx t) <? CONTROL_CHANNEL_DEPTH then [c] else []).
Proof. unfold offer. destruct (_ <? _); [done|]. by rewrite app_nil_r. Qed.

Section Queues.

Context (s : Settings) (p q : Process.t) (i : Z) (t u : SessionTask).
Context (C : coherent p) (Ht : Process.tasks p !! i = Some t) (Hu : Process.tasks q !! i = Some u).

Lemma disable_tasks j k : Process.tasks (disable_session p j).1 !! k =
  if decide (k = j) then offer (Disconnect DisconnectReason.AdminRequested) <$> Process.tasks p !! k else Process.tasks p !! k.
Proof using C.
  clear Ht Hu. unfold disable_session, try_send. destruct (get p j) as [h|] eqn:Hj.
  - rewrite <- (c_handle _ C _ _ Hj). rewrite <- try_send_to_tasks. by destruct (try_send_to p (id h) _).
  - case_decide; [subst|done]. cbn. destruct (Process.tasks p !! j) eqn:E; [|done].
    assert (is_Some (Process.registry p !! j)) as [? ?] by (apply (c_dom _ C); eauto). unfold get in Hj. congruence.
Qed.

Lemma rekey_tasks j r k : Process.tasks (rekey_session p j r).1 !! k =
  if decide (k = j) then offer (Rekey r) <$> Process.tasks p !! k else Process.tasks p !! k.
Proof using C.
  clear Ht Hu. unfold rekey_session, try_send. destruct (get p j) as [h|] eqn:Hj.
  - rewrite <- (c_handle _ C _ _ Hj). rewrite <- try_send_to_tasks. by destruct (try_send_to p (id h) _).
  - case_decide; [subst|done]. cbn. destruct (Process.tasks p !! j) eqn:E; [|done].
    assert (is_Some (Process.registry p !! j)) as [? ?] by (apply (c_dom _ C); eauto). unfold get in Hj. congruence.
Qed.

Lemma tick_tasks w k : tick_event p w = Some q ->
  Process.tasks q !! k = if decide (k ∈ senders p w) then offer PeriodicTick <$> Process.tasks p !! k else Process.tasks p !! k.
Proof using C.
  clear Ht Hu. unfold tick_event, senders. intros H. pose proof (c_once _ C w) as [N _]. unfold senders in N.
  destruct (Process.workers p !! w) as [kk|]; [|done]. destruct (accepting kk); [|done]. injection H as <-.
  rewrite send_all_tasks by (by apply NoDup_filter). cbn. destruct (decide (k ∈ tick_senders kk)) as [Hk|Hk].
  - destruct (Process.tasks p !! k) as [v|] eqn:E; [|by case_decide]. rewrite decide_True; [done|]. apply list_elem_of_filter. rewrite E. eauto.
  - rewrite decide_False; [done|]. by intros [_ ?]%list_elem_of_filter.
Qed.

Lemma poll_handshake_queue t0 e : control_rx t0 = control_rx t -> poll_handshake p i t0 e = Some q -> control_rx u = control_rx t.
Proof using Ht Hu.
  clear C. intros E H. unfold poll_handshake in H.
  assert (Hend : forall p', q = end_session p' i -> False).
  { intros p' ->. cbn in Hu. by rewrite lookup_delete_eq in Hu. }
  destruct (drain_changed t0); [injection H as <-; by destruct (Hend p)|].
  destruct (control_rx t0) eqn:Eq; [|injection H as <-; by destruct (Hend p)].
  destruct e; try done; injection H as <-; try by destruct (Hend (handshake_failed p)).
  all: cbn in Hu; rewrite lookup_insert_eq in Hu; injection Hu as <-; cbn; congruence.
Qed.

Lemma poll_queue now e h : poll s p i now e = Some (q, h) -> (match h with ByControl c => [c] | _ => [] end) ++ control_rx u = control_rx t.
Proof using Ht Hu.
  clear C. unfold poll. rewrite Ht. intros H. destruct (phase t).
  - apply fmap_Some in H as (q' & H & [= <- ->]). by eapply poll_handshake_queue; [|exact H].
  - apply fmap_Some in H as (q' & H & [= <- ->]). by eapply poll_handshake_queue; [|exact H].
  - destruct e; try done; injection H as <- <-; cbn in Hu; [|by rewrite lookup_delete_eq in Hu].
    rewrite lookup_insert_eq in Hu. by injection Hu as <-.
  - destruct e as [| | | | |publish go]; try done. unfold poll_drive in H.
    destruct (if drain_changed t then _ else _) as [[rest drain] by_] eqn:E.
    destruct go; injection H as <- <-; cbn in Hu; [|by rewrite lookup_delete_eq in Hu].
    rewrite lookup_insert_eq in Hu. injection Hu as <-. cbn.
    destruct (drain_changed t); [|destruct (control_rx t)]; by simplify_eq/=.
Qed.

Lemma poll_other j now e h : i <> j -> poll s p j now e = Some (q, h) -> u = t.
Proof using Ht Hu.
  clear C. unfold poll. intros Hij H. destruct (Process.tasks p !! j) as [v|] eqn:Hj; [|done].
  assert (Hq : Process.tasks q !! i = Process.tasks p !! i); [|congruence]. clear Ht Hu.
  assert (Hh : forall v0 q', poll_handshake p j v0 e = Some q' -> Process.tasks q' !! i = Process.tasks p !! i).
  { intros v0 q' H'. unfold poll_handshake in H'. destruct (drain_changed v0); [|destruct (control_rx v0); [destruct e|]];
      simplify_eq; cbn; by simplify_map_eq. }
  destruct (phase v).
  - apply fmap_Some in H as (q' & H & [= <- ->]). eauto.
  - apply fmap_Some in H as (q' & H & [= <- ->]). eauto.
  - destruct e; try done; injection H as <- <-; cbn; by simplify_map_eq.
  - destruct e as [| | | | |publish go]; try done. unfold poll_drive in H.
    destruct (if drain_changed v then _ else _) as [[rest drain] by_]. destruct go; injection H as <- <-; cbn; by simplify_map_eq.
Qed.

End Queues.

Lemma accept_tasks p q w from i t : coherent p -> accept_event p w from = Some q -> Process.tasks p !! i = Some t -> Process.tasks q !! i = Some t.
Proof.
  unfold accept_event. intros C H Ht. destruct (Process.workers p !! w) as [k|]; [|done]. destruct (accepting k); [|done].
  injection H as <-. cbn. destruct (not_in_registry p C) as [_ Hn]. rewrite lookup_insert_ne; [done|]. congruence.
Qed.

Lemma step_queue s p ev q i t u :
  coherent p -> step s p ev = Some q -> Process.tasks p !! i = Some t -> Process.tasks q !! i = Some u ->
  taken s p ev i ++ control_rx u = control_rx t ++ admitted p ev i.
Proof.
  intros C H Ht Hu. unfold admitted. rewrite Ht.
  assert (Hoff : forall c (P : Prop) {d : Decision P}, Process.tasks q !! i = (if decide P then offer c <$> Process.tasks p !! i else Process.tasks p !! i) ->
    control_rx u = control_rx t ++ (if len (control_rx t) <? CONTROL_CHANNEL_DEPTH then if decide P then [c] else [] else [])).
  { intros c P d E. rewrite Hu, Ht in E. destruct (decide P); injection E as ->; [apply offer_queue|].
    destruct (_ <? _); by rewrite app_nil_r. }
  assert (Hsame : control_rx u = control_rx t -> offered p ev i = [] -> control_rx u = control_rx t ++ (if len (control_rx t) <? CONTROL_CHANNEL_DEPTH then offered p ev i else [])).
  { intros E ->. rewrite E. destruct (_ <? _); by rewrite app_nil_r. }
  destruct ev; cbn [step taken offered app] in *.
  - apply Hsame; [|done]. rewrite (accept_tasks p q worker from i t) in Hu by done. congruence.
  - apply Hoff. by apply tick_tasks.
  - apply Hsame; [|done]. unfold stop_accepting in H. destruct (_ !! worker); [|done]. destruct (_ && _); simplify_eq/=. congruence.
  - apply fmap_Some in H as ([q' h] & H & ->). cbn in Hu. replace (if len (control_rx t) <? _ then [] else []) with (@nil ControlCommand) by (by destruct (_ <? _)).
    rewrite app_nil_r. case_decide as D.
    + subst session. rewrite H. destruct h; rewrite <- (poll_queue s p q' i t u Ht Hu now e _ H); done.
    + by rewrite (poll_other s p q' i t u Ht Hu session now e h D H).
  - injection H as <-. apply Hoff. by apply disable_tasks.
  - injection H as <-. apply Hoff. by apply rekey_tasks.
  - injection H as <-. apply Hsame; [|done]. cbn in Hu. rewrite lookup_fmap, Ht in Hu. by injection Hu as <-.
  - apply Hsame; [|done]. unfold main_sends in H. destruct (Process.main p); simplify_eq. cbn in Hu. rewrite lookup_fmap, Ht in Hu. by injection Hu as <-.
  - unfold main_broadcasts in H. destruct (Process.main p); simplify_eq. cbn in Hu.
    assert (L : (0 <? registry_len p) = true).
    { assert (is_Some (Process.registry p !! i)) as [h Hh] by (apply (c_dom _ C); eauto).
      pose proof (registry_len_delete p i h Hh). pose proof (registry_len_nonneg (unregister p i)). lia. }
    rewrite L in Hu. rewrite (broadcast_tasks p _ i C), Ht in Hu. injection Hu as <-. apply offer_queue.
Qed.

(** Ids are not reused *)
Lemma gone_stays_gone s p ev q i :
  coherent p -> step s p ev = Some q -> i < Process.next_id p -> Process.tasks p !! i = None -> Process.tasks q !! i = None.
Proof.
  intros C H Hi Hn. destruct (is_accept ev) eqn:E.
  - destruct ev; try done. cbn in H. unfold accept_event in H. destruct (_ !! worker) as [k|]; [|done]. destruct (accepting k); [|done].
    injection H as <-. cbn. rewrite lookup_insert_ne by lia. done.
  - apply step_table in H; [|done]. apply eq_None_not_Some. destruct H as [H|j p' Hp _ ->].
    + rewrite (ss_live _ _ H), Hn. by intros [? ?].
    + assert (Process.tasks p' = Process.tasks p) as E' by (by destruct Hp as [->| ->]). cbn. rewrite E'. intros [v Hv].
      apply lookup_delete_Some in Hv as [_ Hv]. congruence.
Qed.

Fixpoint along (f : Process.t -> event -> list ControlCommand) (s : Settings) (p : Process.t) (evs : list event) : list ControlCommand :=
  match evs with [] => [] | ev :: r => f p ev ++ match step s p ev with Some q => along f s q r | None => [] end end.

Lemma exec_gone s p evs q i :
  exec s p evs = Some q -> coherent p -> Process.next_id p + len evs < 2 ^ 63 -> i < Process.next_id p ->
  Process.tasks p !! i = None -> Process.tasks q !! i = None.
Proof.
  revert p. induction evs as [|ev evs IH]; intros p H C Hn Hi Hg; cbn in H; [by injection H as <-|].
  destruct (step s p ev) as [p1|] eqn:E; [|done]. assert (Hl : len (ev :: evs) = len evs + 1) by len_lia.
  pose proof (Zle_0_nat (length evs)).
  pose proof (gone_stays_gone _ _ _ _ _ C E Hi Hg) as Hg1. apply step_coherent in E as [C1 N1]; [|lia|done].
  apply (IH p1); [done..|destruct (is_accept ev); lia|destruct (is_accept ev); lia|done].
Qed.

Lemma exec_queue s p evs q i t u :
  exec s p evs = Some q -> coherent p -> Process.next_id p + len evs < 2 ^ 63 ->
  Process.tasks p !! i = Some t -> Process.tasks q !! i = Some u ->
  along (fun p ev => taken s p ev i) s p evs ++ control_rx u = control_rx t ++ along (fun p ev => admitted p ev i) s p evs.
Proof.
  revert p t. induction evs as [|ev evs IH]; intros p t H C Hn Ht Hu; cbn in H.
  { injection H as <-. rewrite Ht in Hu. injection Hu as <-. cbn. by rewrite app_nil_r. }
  destruct (step s p ev) as [p1|] eqn:E; [|done]. cbn [along]. rewrite E.
  assert (Hl : len (ev :: evs) = len evs + 1) by len_lia. pose proof (Zle_0_nat (length evs)).
  destruct (step_coherent s p ev p1 E) as [C1 N1]; [lia|done|].
  assert (Hn1 : Process.next_id p1 + len evs < 2 ^ 63) by (destruct (is_accept ev); lia).
  destruct (Process.tasks p1 !! i) as [t1|] eqn:Ht1.
  - rewrite <- app_assoc, (IH p1 t1), !app_assoc by done. f_equal. by apply (step_queue s p ev p1).
  - assert (Hi : 1 <= i < Process.next_id p) by (apply (c_ids _ C); eauto).
    rewrite (exec_gone s p1 evs q i) in Hu; [done..|destruct (is_accept ev); lia|done].
Qed.

Lemma disable_answers p i : coherent p ->
  disable_session p i =
  match Process.tasks p !! i with
  | None => (p, no_such_session i)
  | Some t =>
      if len (control_rx t) <? CONTROL_CHANNEL_DEPTH
      then (set_task p i (queued t (Disconnect DisconnectReason.AdminRequested)),
            {| ok := true; message := lit "disconnect queued for session " ++ show_dec i |})
      else (p, not_notified i)
  end.
Proof.
  intros C. unfold disable_session, try_send, try_send_to. destruct (get p i) as [h|] eqn:Hh.
  - rewrite (c_handle _ C _ _ Hh). assert (is_Some (Process.tasks p !! i)) as [t ->] by (apply (c_dom _ C); eauto). by destruct (_ <? _).
  - assert (Process.tasks p !! i = None) as ->; [|done]. apply eq_None_not_Some. intros Hs. apply (c_dom _ C) in Hs as [? ?].
    unfold get in Hh. congruence.
Qed.

Lemma split_run s n before evs p q :
  exec s (boot n) before = Some p -> exec s p evs = Some q -> len before + len evs < 2 ^ 63 - 1 ->
  coherent p /\ Process.next_id p + len evs < 2 ^ 63 /\ coherent q.
Proof.
  intros H1 H2 Hl. pose proof (Zle_0_nat (length evs)). pose proof (Zle_0_nat (length before)).
  destruct (run_coherent s n before p H1) as [C N]; [lia|].
  assert (accepts before <= len before) by (unfold accepts; pose proof (length_filter (fun ev => is_accept ev = true) before); lia).
  assert (Process.next_id p + len evs < 2 ^ 63) by lia. split; [done|]. split; [done|]. by eapply exec_coherent.
Qed.

(** The control channel of a session is a queue of four places.  In any run, between two moments at
    which a session is alive, the commands it took followed by those still in its channel are those that
    were in it followed by those sent to it while there was room, in the order they were sent: nothing
    is lost, duplicated or reordered once admitted.  [session.disable] answers that the disconnect is
    queued exactly when there is room for it, and then it is the last command of the channel and no other
    session is touched; a full channel and an id without a session are reported and change nothing. *)
Theorem control_channel_fifo s n before evs p q i t u :
  exec s (boot n) before = Some p -> exec s p evs = Some q -> len before + len evs < 2 ^ 63 - 1 ->
  Process.tasks p !! i = Some t -> Process.tasks q !! i = Some u ->
  along (fun p ev => taken s p ev i) s p evs ++ control_rx u = control_rx t ++ along (fun p ev => admitted p ev i) s p evs
  /\ disable_session q i =
     (if len (control_rx u) <? CONTROL_CHANNEL_DEPTH
      then (set_task q i (queued u (Disconnect DisconnectReason.AdminRequested)),
            {| ok := true; message := lit "disconnect queued for session " ++ show_dec i |})
      else (q, not_notified i))
  /\ (forall j, Process.tasks q !! j = None -> disable_session q j = (q, no_such_session j)).
Proof.
  intros H1 H2 Hl Ht Hu. destruct (split_run s n before evs p q H1 H2 Hl) as (C & Hn & C2).
  split; [by apply exec_queue with q|]. split; [by rewrite (disable_answers q i C2), Hu|].
  intros j Hj. by rewrite (disable_answers q j C2), Hj.
Qed.

Lemma offer_nonempty c t : control_rx (offer c t) <> [].
Proof.
  rewrite offer_queue. destruct (Z.ltb_spec (len (control_rx t)) CONTROL_CHANNEL_DEPTH) as [|H]; [by destruct (control_rx t)|].
  rewrite app_nil_r. intros E. rewrite E in H. cbv in H. auto.
Qed.

Lemma poll_handshake_commanded p i t0 e r :
  control_rx t0 <> [] -> poll_handshake p i t0 e = Some r -> r = end_session p i.
Proof. unfold poll_handshake. intros Hne H. destruct (drain_changed t0); [congruence|]. destruct (control_rx t0); [done|congruence]. Qed.

Lemma tick_metrics p w q : tick_event p w = Some q -> Process.metrics q = Process.metrics p.
Proof. intros H. apply (ss_metrics _ _ (tick_same _ _ _ H)). Qed.

(** A tick of its worker ends a session that is still in its TLS handshake.  In any state a run
    reaches, when the 1 Hz timer of a worker fires while one of its sessions has been accepted but not
    finished the handshake, the next time that session runs it is closed and unregistered, whatever the
    handshake has to offer, a completed one included; it is not counted as a failed handshake. *)
Theorem tick_ends_handshake s n evs p w i t q :
  exec s (boot n) evs = Some p -> len evs < 2 ^ 63 - 1 ->
  i ∈ senders p w -> Process.tasks p !! i = Some t -> phase t = Spawned \/ phase t = TlsHandshake ->
  step s p (WorkerTick w) = Some q ->
  forall now e r, step s q (Poll i now e) = Some r ->
  Process.tasks r !! i = None /\ get r i = None
  /\ Metrics.handshake_failures (Process.metrics r) = Metrics.handshake_failures (Process.metrics p).
Proof.
  intros H Hl Hw Ht Hp Hq now e r Hr. destruct (run_coherent s n evs p H Hl) as [C _].
  cbn in Hq. pose proof (tick_tasks p q C w i Hq) as Hi. rewrite decide_True, Ht in Hi by done. cbn in Hi.
  assert (Hph : phase (offer PeriodicTick t) = phase t) by (unfold offer; by destruct (_ <? _)).
  cbn in Hr. unfold poll in Hr. rewrite Hi, Hph in Hr.
  assert (r = end_session q i) as ->.
  { destruct Hp as [E|E]; rewrite E in Hr; apply fmap_Some in Hr as ([r' h] & Hr & ->); apply fmap_Some in Hr as (r'' & Hr & [= -> ->]);
      eapply poll_handshake_commanded; try exact Hr; apply offer_nonempty. }
  unfold get. cbn. rewrite !lookup_delete_eq, (tick_metrics p w q Hq). done.
Qed.

Lemma ticks_queue s w i k p q t :
  coherent p -> i ∈ senders p w -> Process.tasks p !! i = Some t -> exec s p (replicate k (WorkerTick w)) = Some q ->
  coherent q /\ exists u, Process.tasks q !! i = Some u
  /\ Z.min CONTROL_CHANNEL_DEPTH (len (control_rx t) + Z.of_nat k) <= len (control_rx u).
Proof.
  revert p t. induction k as [|k IH]; intros p t C Hw Ht H; cbn [replicate exec step] in H.
  { injection H as <-. split; [done|]. exists t. split; [done|]. lia. }
  destruct (tick_event p w) as [p1|] eqn:E; [|done]. cbn in H. pose proof (tick_same p w p1 E) as S.
  assert (T1 : Process.tasks p1 !! i = Some (offer PeriodicTick t)) by (by rewrite (tick_tasks p p1 C w i E), decide_True, Ht).
  destruct (IH p1 (offer PeriodicTick t)) as (C2 & u & Hu & L); [by eapply same_sessions_coherent|apply (ss_kept _ _ S); eauto|done..|].
  split; [done|]. exists u. split; [done|]. rewrite offer_queue in L.
  destruct (Z.ltb_spec (len (control_rx t)) CONTROL_CHANNEL_DEPTH); autorewrite with lens in L; cbn in L; lia.
Qed.

(** Four ticks between two polls of a session fill its channel: a disconnect is refused and the broadcast
    of the drain passes the session by. *)
Theorem ticks_fill_the_channel s n evs p w i t q :
  exec s (boot n) evs = Some p -> len evs < 2 ^ 63 - 1 -> i ∈ senders p w -> Process.tasks p !! i = Some t ->
  exec s p (replicate 4 (WorkerTick w)) = Some q ->
  disable_session q i = (q, not_notified i)
  /\ forall r, Process.tasks (broadcast_disconnect q r) !! i = Process.tasks q !! i.
Proof.
  intros H Hl Hw Ht Hq. destruct (run_coherent s n evs p H Hl) as [C _].
  destruct (ticks_queue s w i 4 p q t C Hw Ht Hq) as (C2 & u & Hu & L).
  assert (Hfull : (len (control_rx u) <? CONTROL_CHANNEL_DEPTH) = false).
  { pose proof (Zle_0_nat (length (control_rx t))). unfold CONTROL_CHANNEL_DEPTH in *. apply Z.ltb_ge. lia. }
  split; [by rewrite (disable_answers q i C2), Hu, Hfull|].
  intros r. rewrite (broadcast_tasks q r i C2), Hu. cbn. unfold offer. by rewrite Hfull.
Qed.

(** ** The drain *)

(** After the watch is written, every session alive then is told, whatever fills its channel: one in its
    handshake is closed when it next runs, one in [drive_sstp] acts on the drain before anything else, one
    in its preamble keeps the mark until it is through; and every accept loop can only stop. *)
Theorem drain_reaches_every_session s p q i t :
  step s p MainSends = Some q -> Process.tasks p !! i = Some t ->
  (forall now e r h, poll s q i now e = Some (r, h) ->
   match phase t with
   | Spawned | TlsHandshake => Process.tasks r !! i = None
   | Preamble => forall u, Process.tasks r !! i = Some u -> phase u = Driving /\ drain_changed u = true
   | Driving => h = ByDrain
   end)
  /\ (forall w k, Process.workers q !! w = Some k -> accepting k = true -> is_Some (step s q (StopAccepting w))).
Proof.
  intros H Ht. cbn in H. unfold main_sends in H. destruct (Process.main p); [|done..]. injection H as <-. split.
  - intros now e r h Hr. unfold poll in Hr. cbn in Hr. rewrite lookup_fmap, Ht in Hr. cbn in Hr.
    destruct (phase t); cbn in Hr.
    + injection Hr as <- <-. cbn. apply lookup_delete_eq.
    + injection Hr as <- <-. cbn. apply lookup_delete_eq.
    + intros u Hu. destruct e; try done; injection Hr as <- <-; cbn in Hu; [|by rewrite lookup_delete_eq in Hu].
      rewrite lookup_insert_eq in Hu. by injection Hu as <-.
    + destruct e; try done. by injection Hr as <- <-.
  - intros w k Hk Ha. cbn in Hk. rewrite lookup_fmap in Hk. cbn. unfold stop_accepting. cbn. rewrite lookup_fmap.
    destruct (Process.workers p !! w) as [k0|]; [|done]. cbn in *. injection Hk as <-. cbn in Ha. rewrite Ha. cbn. eauto.
Qed.

Lemma drain_poll_steps fuel remaining late now deadline :
  (forall t, 0 <= late t) -> deadline - now <= Z.of_nat fuel * (100 * MILLISECOND) ->
  exists t left, drain_poll fuel remaining late now deadline = Some (t, left)
  /\ now <= t /\ left = remaining t /\ (left = 0 \/ deadline <= t)
  /\ (forall late_max, (forall t, late t <= late_max) -> t < Z.max (now + 1) (deadline + 100 * MILLISECOND + late_max)).
Proof.
  intros Hlate. assert (Hm : 0 < MILLISECOND) by done.
  revert now. induction fuel as [|fuel IH]; intros now Hf; cbn [drain_poll];
    destruct (Z.eqb_spec (remaining now) 0) as [Hz|Hz], (Z.ltb_spec now deadline) as [Hd|Hd]; cbn [negb andb];
    try (exists now, (remaining now); split; [done|]; split; [lia|]; split; [done|]; split; [by auto|]; intros m Hmax; specialize (Hmax now); lia).
  - lia.
  - pose proof (Hlate now). destruct (IH (now + 100 * MILLISECOND + late now)) as (t & left & E & H1 & H2 & H3 & H4); [lia|].
    exists t, left. split; [done|]. split; [lia|]. split; [done|]. split; [done|]. intros m Hmax. pose proof (H4 m Hmax). specialize (Hmax now). lia.
Qed.

(** The drain of [main] ends: a hundred rounds are enough, it ends with an empty registry or after the
    grace period, and less than one round late. *)
Theorem drain_ends remaining late now :
  (forall t, 0 <= late t) ->
  exists t left, drain_poll 100 remaining late now (now + DRAIN_GRACE) = Some (t, left)
  /\ left = remaining t /\ (left = 0 \/ now + DRAIN_GRACE <= t)
  /\ (forall late_max, (forall t, late t <= late_max) -> t < now + DRAIN_GRACE + 100 * MILLISECOND + late_max).
Proof.
  intros Hl. destruct (drain_poll_steps 100 remaining late now (now + DRAIN_GRACE) Hl) as (t & left & E & _ & H2 & H3 & H4).
  { unfold DRAIN_GRACE, SECOND, MILLISECOND. lia. }
  exists t, left. split; [done|]. split; [done|]. split; [done|]. intros m Hm. specialize (H4 m Hm). specialize (Hl now). specialize (Hm now).
  assert (0 < DRAIN_GRACE /\ 0 < MILLISECOND) by done. lia.
Qed.

Lemma drain_tasks_bounded deadline tasks now :
  now <= deadline ->
  let '(t, abandoned) := drain_tasks deadline now tasks in
  now <= t <= deadline /\ (abandoned = false -> Forall (fun f => f <= t) tasks) /\ (Forall (fun f => f <= deadline) tasks -> abandoned = false).
Proof.
  revert now. induction tasks as [|f r IH]; intros now Hn; cbn [drain_tasks]; [done|].
  replace (now + Z.max 0 (deadline - now)) with deadline by lia. destruct (Z.leb_spec f deadline) as [Hf|Hf].
  - specialize (IH (Z.max now f)). destruct (drain_tasks _ _ _) as [t b]. destruct IH as (H1 & H2 & H3); [lia|].
    split; [lia|]. split; [intros E; constructor; [lia|auto]|]. intros F. inversion F; auto.
  - split; [lia|]. split; [done|]. intros F. inversion F. lia.
Qed.

(** A worker returns within the grace period, and abandons a session only when one is not finished by then. *)
Theorem worker_drain_bounded now tasks :
  let '(t, abandoned) := drain_worker now tasks in
  now <= t <= now + DRAIN_GRACE /\ (abandoned = false -> Forall (fun f => f <= t) tasks)
  /\ (Forall (fun f => f <= now + DRAIN_GRACE) tasks -> abandoned = false).
Proof.
  unfold drain_worker. assert (0 <= DRAIN_GRACE) by done. destruct tasks as [|f r]; [repeat split; auto; lia|].
  apply drain_tasks_bounded. lia.
Qed.

(** ** Runs *)

Module RegistryDemo.

Definition settings : Settings := {| s_local_ip := [10; 0; 0; 1]; s_auth_method := AuthMethod.MsChapV2 |}.

Definition client : SocketAddr := {| ip := V4 [192; 0; 2; 7]; port := 50000 |}.

(** Two workers; a session on each, the first one driven to [drive_sstp]; ticks and an operator's command *)
Definition opening : list event :=
  [Accept 0 client; Poll 1 100 (TlsDone (lit "TLSv1.3") (lit "TLS_AES_256_GCM_SHA384")); Poll 1 101 (PreambleDone None); Accept 1 client].

Definition traffic : list event :=
  [WorkerTick 0; RekeySession 1 true; Poll 1 102 (Turn (fun i => i) true); DisableSession 1; Poll 1 103 (Turn (fun i => i) true)].

Definition reached (evs : list event) : Process.t := default (boot 0) (exec settings (boot 2) evs).


Lemma control_channel_fifo_witness :
  exists t u, Process.tasks (reached opening) !! 1 = Some t /\ Process.tasks (reached (opening ++ traffic)) !! 1 = Some u
  /\ along (fun p ev => taken settings p ev 1) settings (reached opening) traffic = [PeriodicTick; Rekey true]
  /\ control_rx u = [Disconnect DisconnectReason.AdminRequested]
  /\ [PeriodicTick; Rekey true; Disconnect DisconnectReason.AdminRequested]
     = control_rx t ++ along (fun p ev => admitted p ev 1) settings (reached opening) traffic.
Proof.
  assert (H1 : exec settings (boot 2) opening = Some (reached opening)) by (vm_compute; reflexivity).
  assert (H2 : exec settings (reached opening) traffic = Some (reached (opening ++ traffic))) by (vm_compute; reflexivity).
  assert (Hl : len opening + len traffic < 2 ^ 63 - 1) by (vm_compute; reflexivity).
  destruct (Process.tasks (reached opening) !! 1) as [t|] eqn:Ht; [|vm_compute in Ht; discriminate].
  destruct (Process.tasks (reached (opening ++ traffic)) !! 1) as [u|] eqn:Hu; [|vm_compute in Hu; discriminate].
  assert (A : along (fun p ev => taken settings p ev 1) settings (reached opening) traffic = [PeriodicTick; Rekey true]) by (vm_compute; reflexivity).
  assert (B : control_rx <$> Some u = Some [Disconnect DisconnectReason.AdminRequested]) by (rewrite <- Hu; vm_compute; reflexivity).
  exists t, u. split; [reflexivity|]. split; [reflexivity|]. split; [exact A|]. injection B as B. split; [exact B|].
  destruct (control_channel_fifo settings 2 opening traffic _ _ 1 t u H1 H2 Hl Ht Hu) as (E & _). rewrite A, B in E. exact E.
Defined.

Lemma tick_ends_handshake_witness :
  exists q r, step settings (reached opening) (WorkerTick 1) = Some q
  /\ step settings q (Poll 2 200 (TlsDone (lit "TLSv1.3") (lit "TLS_AES_256_GCM_SHA384"))) = Some r
  /\ Process.tasks r !! 2 = None /\ Metrics.handshake_failures (Process.metrics r) = Metrics.handshake_failures (Process.metrics (reached opening)).
Proof.
  assert (H1 : exec settings (boot 2) opening = Some (reached opening)) by (vm_compute; reflexivity).
  assert (Hp : phase <$> (Process.tasks (reached opening) !! 2) = Some Spawned) by (vm_compute; reflexivity).
  destruct (Process.tasks (reached opening) !! 2) as [t|] eqn:Ht; [|discriminate Hp]. injection Hp as Hp.
  destruct (step settings (reached opening) (WorkerTick 1)) as [q|] eqn:Hq; [|vm_compute in Hq; discriminate].
  exists q. destruct (step settings q _) as [r|] eqn:Hr.
  2: { exfalso. assert (E : is_Some (step settings (reached opening) (WorkerTick 1) ≫= fun q =>
         step settings q (Poll 2 200 (TlsDone (lit "TLSv1.3") (lit "TLS_AES_256_GCM_SHA384"))))) by (vm_compute; eauto).
       rewrite Hq in E. cbn [mbind option_bind] in E. rewrite Hr in E. by destruct E. }
  exists r. split; [reflexivity|]. split; [reflexivity|].
  destruct (tick_ends_handshake settings 2 opening _ 1 2 t q H1 ltac:(vm_compute; reflexivity)
    ltac:(vm_compute; left) Ht (or_introl Hp) Hq _ _ r Hr) as (A & _ & B). split; [exact A|exact B].
Defined.

End RegistryDemo.
