(* ===== verification/RustNet.v ===== *)
(** * Reading socket addresses ([SocketAddr::from_str] of the Rust standard library)

    The parser works on the bytes of the text; a reader gives what it read and the rest, and consumes
    nothing when it fails. *)

From stdpp Require Import strings.
From S2P Require Import Prelude RustText RustStd Radius.

Definition reader (A : Type) : Type := bytes -> option (A * bytes).

Definition read_given_char (c : Z) : reader () := fun l => match l with x :: r => if x =? c then Some (tt, r) else None | [] => None end.

(** [char::to_digit] *)
Definition to_digit (radix x : Z) : option Z :=
  let d := if is_digit x then x - 48 else if in_range 97 102 x then x - 87 else if in_range 65 70 x then x - 55 else 16 in
  if d <? radix then Some d else None.

(** The longest run of digits *)
Fixpoint read_run (radix : Z) (l : bytes) : list Z * bytes :=
  match l with
  | [] => ([], [])
  | x :: r => match to_digit radix x with Some d => let '(ds, rest) := read_run radix r in (d :: ds, rest) | None => ([], l) end
  end.

Definition value_of (radix : Z) (ds : list Z) : Z := fold_left (fun acc d => acc * radix + d) ds 0.

(** [read_number] for a type with maximum [max] *)
Definition read_number (radix : Z) (max_digits : option Z) (allow_zero_prefix : bool) (max : Z) : reader Z := fun l =>
  let '(ds, rest) := read_run radix l in
  if match max_digits with Some m => m <? len ds | None => false end then None
  else if len ds =? 0 then None
  else if negb allow_zero_prefix && (hd 0 ds =? 0) && (1 <? len ds) then None
  else if value_of radix ds <=? max then Some (value_of radix ds, rest) else None.

(** [read_separator]: the separator comes before every part but the first *)
Definition read_separator {A} (sep : Z) (index : nat) (inner : reader A) : reader A := fun l =>
  match index with O => inner l | S _ => '(_, r) ← read_given_char sep l; inner r end.

Definition read_octet (index : nat) : reader Z := read_separator 46 index (read_number 10 (Some 3) false 255).

Definition read_ipv4_addr : reader bytes := fun l =>
  '(a, l) ← read_octet 0 l;
  '(b, l) ← read_octet 1 l;
  '(c, l) ← read_octet 2 l;
  '(d, l) ← read_octet 3 l;
  Some ([a; b; c; d], l).

(** [read_groups] for the parts [index], ... of at most [index + left]: the groups, whether they end with an
    embedded IPv4 address, and the rest *)
Fixpoint read_groups (left index : nat) (l : bytes) : list Z * bool * bytes :=
  match left with
  | O => ([], false, l)
  | S left' =>
      match (match left' with O => None | S _ => read_separator 58 index read_ipv4_addr l end) with
      | Some (o, r) => ([be16 (byte_at o 0) (byte_at o 1); be16 (byte_at o 2) (byte_at o 3)], true, r)
      | None =>
          match read_separator 58 index (read_number 16 (Some 4) true 65535) l with
          | Some (g, r) => let '(gs, v4, rest) := read_groups left' (S index) r in (g :: gs, v4, rest)
          | None => ([], false, l)
          end
      end
  end.

Definition read_ipv6_addr : reader (list Z) := fun l =>
  let '(head, head_ipv4, r) := read_groups 8 0 l in
  if len head =? 8 then Some (head, r)
  else if head_ipv4 then None
  else
    '(_, r) ← read_given_char 58 r;
    '(_, r) ← read_given_char 58 r;
    let '(tail, _, r) := read_groups (8 - (length head + 1)) 0 r in
    Some (head ++ replicate (8 - length head - length tail) 0 ++ tail, r).

Definition read_port : reader Z := fun l => '(_, r) ← read_given_char 58 l; read_number 10 None true 65535 r.

Definition read_scope_id : reader Z := fun l => '(_, r) ← read_given_char 37 l; read_number 10 None true U32_MAX r.

(** The address and the scope id of an IPv6 one *)
Definition read_socket_addr : reader (SocketAddr * Z) := fun l =>
  match ('(o, r) ← read_ipv4_addr l; '(p, r) ← read_port r; Some ({| ip := V4 o; port := p |}, 0, r)) with
  | Some a => Some a
  | None =>
      '(_, r) ← read_given_char 91 l;
      '(s, r) ← read_ipv6_addr r;
      let '(scope, r) := match read_scope_id r with Some (n, r) => (n, r) | None => (0, r) end in
      '(_, r) ← read_given_char 93 r;
      '(p, r) ← read_port r;
      Some ({| ip := V6 s; port := p |}, scope, r)
  end.

(** [text.parse::<SocketAddr>()]: nothing may be left over *)
Definition parse_socket_addr (l : bytes) : option (SocketAddr * Z) :=
  match read_socket_addr l with Some (a, []) => Some a | _ => None end.

Example parse_socket_addr_cases :
  parse_socket_addr (lit "[::]:443") = Some ({| ip := V6 [0; 0; 0; 0; 0; 0; 0; 0]; port := 443 |}, 0)
  /\ parse_socket_addr (lit "192.0.2.1:1812") = Some ({| ip := V4 [192; 0; 2; 1]; port := 1812 |}, 0)
  /\ parse_socket_addr (lit "[fe80::1%3]:443") = Some ({| ip := V6 [0xFE80; 0; 0; 0; 0; 0; 0; 1]; port := 443 |}, 3)
  /\ parse_socket_addr (lit "[2001:db8::8:800:200c:417a]:1") = Some ({| ip := V6 [0x2001; 0xDB8; 0; 0; 8; 0x800; 0x200C; 0x417A]; port := 1 |}, 0)
  /\ parse_socket_addr (lit "[::ffff:192.0.2.1]:1") = Some ({| ip := V6 [0; 0; 0; 0; 0; 0xFFFF; 0xC000; 0x201]; port := 1 |}, 0)
  /\ map parse_socket_addr [lit "192.0.2.1"; lit "192.0.2.01:1"; lit "192.0.2.1:65536"; lit "[::1:443"; lit "[1:2:3:4:5:6:7::8]:1"; lit "[1:2:3:4:5:6:7::]:1"; lit "host:1"; lit "[1::2::3]:1"; lit ""]
     = [None; None; None; None; None; Some ({| ip := V6 [1; 2; 3; 4; 5; 6; 7; 0]; port := 1 |}, 0); None; None; None].
Proof. vm_compute. repeat split. Qed.
