(* ===== verification/Cli.v ===== *)
(** * Command line of the server ([src/src/cli.rs])

    getopt-iter turns the arguments into a stream of options; [parse_with] takes the stream and the
    arguments left over.  Paths are their bytes.  The text of a value that does not parse is kept, the
    error of the parser is not. *)

From stdpp Require Import strings.
From S2P Require Import Prelude RustText RustStd PppDriver Radius DataPath RustNet.

Inductive LogFormat := FmtText | FmtJson | FmtAuto.

Inductive LevelFilter := ERROR | WARN | INFO | DEBUG | TRACE.

Inductive ParseError :=
| UnknownOption (c : Z)
| MissingArgument (c : Z)
| MissingRequired (flag : string)
| InvalidValue (flag : string) (value : bytes)
| UnexpectedPositional (arg : bytes)
| ZeroThreads.

(** What getopt yields: the option or one of the codes ['?'] and [':'], its argument, and the option the code
    is about *)
Record Opt := { val : Z; arg : option bytes; erropt : option Z }.

Record Config := {
  c_listen : SocketAddr * Z;
  c_cert : bytes;
  c_key : bytes;
  c_radius : list (SocketAddr * Z);
  c_acct : list (SocketAddr * Z);
  c_io_threads : Z;
  c_auth_threads : Z;
  c_control_socket : option bytes;
  c_mss_clamp : bool;
  c_log_format : LogFormat;
  c_log_file : option bytes;
  c_log_level : LevelFilter;
  c_data_path : DataPathMode.t;
  c_auth_method : AuthMethod.t;
  c_local_ip : bytes;
  c_nas_identifier : option bytes;
  c_drop_user : option bytes;
  c_drop_group : option bytes
}.

Inductive ParseOutcome := Run (c : Config) | Exit_ (message : bytes).

Definition DEFAULT_LISTEN : bytes := lit "[::]:443".
Definition DEFAULT_CONTROL_SOCKET : bytes := lit "/run/sstp-server.sock".

Definition EM_DASH : bytes := [0xE2; 0x80; 0x94].

Definition usage (prog : bytes) : bytes :=
  concat (map (fun l => l ++ [LF])
    [prog ++ lit " " ++ EM_DASH ++ lit " SSTP (MS-SSTP) server for Linux";
     [];
     lit "USAGE:";
     lit "    " ++ prog ++ lit " [OPTIONS] -c <cert> -k <key> -r <host:port>";
     [];
     lit "OPTIONS:";
     lit "    -l, --listen <addr>          Listen address (default: [::]:443)";
     lit "    -c, --cert <path>            TLS certificate chain (PEM)";
     lit "    -k, --key <path>             TLS private key (PEM)";
     lit "    -r, --radius <host:port>     RADIUS auth server (repeatable)";
     lit "    -A, --acct <host:port>       RADIUS accounting server (repeatable)";
     lit "    -t, --threads <n>            I/O worker count (default: auto)";
     lit "    -T, --auth-threads <n>       Auth runtime threads (default: max(2, ncpus/4))";
     lit "    -s, --control-socket <path>  Control socket path (default: /run/sstp-server.sock)";
     lit "     -n, --no-control-socket      Disable the control socket";
     lit "    -x, --no-mss-clamp           Disable TCP SYN MSS clamping";
     lit "    -F, --log-format <fmt>       text | json | auto (default: auto)";
     lit "    -L, --log-file <path>        Log to file instead of stderr";
     lit "    -D, --data-path <mode>       auto | kernel | tun (default: auto)";
     lit "    -M, --auth-method <method>   pap | chap | mschapv2 (default: pap)";
     lit "    -i, --local-ip <ipv4>        Server-side IPv4 for every pppN interface (required)";
     lit "    -N, --nas-identifier <id>    RADIUS NAS-Identifier (default: hostname)";
     lit "    -u, --user <name>            Drop privileges to this user after binding sockets (root only)";
     lit "    -g, --group <name>           Group to drop to (defaults to the user's primary GID)";
     lit "    -v                           Increase verbosity (-v, -vv, -vvv)";
     lit "    -q, --quiet                  Errors only";
     lit "    -h, --help                   Print this help and exit";
     lit "    -V, --version                Print version and exit";
     [];
     lit "ENVIRONMENT:";
     lit "    SSTP_RADIUS_SECRET           Shared secret for --radius servers";
     lit "    SSTP_RADIUS_ACCT_SECRET      Shared secret for --acct servers (defaults to SSTP_RADIUS_SECRET)";
     lit "    SSTP_TLS_KEY_PASSWORD        Passphrase for the TLS private key (optional)"]).

(** The values of [env!] and [option_env!] when the binary was built *)
Record BuildEnv := { crate_ver : bytes; git_sha : option bytes; git_date : option bytes }.

Definition version_string (b : BuildEnv) : bytes :=
  match git_sha b, git_date b with
  | Some sha, Some date =>
      if (0 <? len sha) && (0 <? len date) then crate_ver b ++ lit " (" ++ sha ++ lit " " ++ date ++ lit ")" else crate_ver b
  | _, _ => crate_ver b
  end.

(** The local variables of [parse_with] *)
Module Vars.

Record t := {
  listen : option bytes;
  cert : option bytes;
  key : option bytes;
  radius : list bytes;
  acct : list bytes;
  io_threads : option Z;
  auth_threads : option Z;
  control_socket : option bytes;
  no_control_socket : bool;
  no_mss_clamp : bool;
  log_format : LogFormat;
  log_file : option bytes;
  data_path : DataPathMode.t;
  auth_method : AuthMethod.t;
  local_ip : option bytes;
  nas_identifier : option bytes;
  drop_user : option bytes;
  drop_group : option bytes;
  verbose : Z;
  quiet : bool
}.

Definition init : t :=
  {| listen := None; cert := None; key := None; radius := []; acct := []; io_threads := None; auth_threads := None; control_socket := None; no_control_socket := false; no_mss_clamp := false; log_format := FmtAuto; log_file := None; data_path := DataPathMode.Auto; auth_method := AuthMethod.Pap; local_ip := None; nas_identifier := None; drop_user := None; drop_group := None; verbose := 0; quiet := false |}.

Definition with_listen (v : t) (x : option bytes) : t :=
  {| listen := x; cert := cert v; key := key v; radius := radius v; acct := acct v; io_threads := io_threads v; auth_threads := auth_threads v; control_socket := control_socket v; no_control_socket := no_control_socket v; no_mss_clamp := no_mss_clamp v; log_format := log_format v; log_file := log_file v; data_path := data_path v; auth_method := auth_method v; local_ip := local_ip v; nas_identifier := nas_identifier v; drop_user := drop_user v; drop_group := drop_group v; verbose := verbose v; quiet := quiet v |}.
Definition with_cert (v : t) (x : option bytes) : t :=
  {| listen := listen v; cert := x; key := key v; radius := radius v; acct := acct v; io_threads := io_threads v; auth_threads := auth_threads v; control_socket := control_socket v; no_control_socket := no_control_socket v; no_mss_clamp := no_mss_clamp v; log_format := log_format v; log_file := log_file v; data_path := data_path v; auth_method := auth_method v; local_ip := local_ip v; nas_identifier := nas_identifier v; drop_user := drop_user v; drop_group := drop_group v; verbose := verbose v; quiet := quiet v |}.
Definition with_key (v : t) (x : option bytes) : t :=
  {| listen := listen v; cert := cert v; key := x; radius := radius v; acct := acct v; io_threads := io_threads v; auth_threads := auth_threads v; control_socket := control_socket v; no_control_socket := no_control_socket v; no_mss_clamp := no_mss_clamp v; log_format := log_format v; log_file := log_file v; data_path := data_path v; auth_method := auth_method v; local_ip := local_ip v; nas_identifier := nas_identifier v; drop_user := drop_user v; drop_group := drop_group v; verbose := verbose v; quiet := quiet v |}.
Definition with_radius (v : t) (x : list bytes) : t :=
  {| listen := listen v; cert := cert v; key := key v; radius := x; acct := acct v; io_threads := io_threads v; auth_threads := auth_threads v; control_socket := control_socket v; no_control_socket := no_control_socket v; no_mss_clamp := no_mss_clamp v; log_format := log_format v; log_file := log_file v; data_path := data_path v; auth_method := auth_method v; local_ip := local_ip v; nas_identifier := nas_identifier v; drop_user := drop_user v; drop_group := drop_group v; verbose := verbose v; quiet := quiet v |}.
Definition with_acct (v : t) (x : list bytes) : t :=
  {| listen := listen v; cert := cert v; key := key v; radius := radius v; acct := x; io_threads := io_threads v; auth_threads := auth_threads v; control_socket := control_socket v; no_control_socket := no_control_socket v; no_mss_clamp := no_mss_clamp v; log_format := log_format v; log_file := log_file v; data_path := data_path v; auth_method := auth_method v; local_ip := local_ip v; nas_identifier := nas_identifier v; drop_user := drop_user v; drop_group := drop_group v; verbose := verbose v; quiet := quiet v |}.
Definition with_io_threads (v : t) (x : option Z) : t :=
  {| listen := listen v; cert := cert v; key := key v; radius := radius v; acct := acct v; io_threads := x; auth_threads := auth_threads v; control_socket := control_socket v; no_control_socket := no_control_socket v; no_mss_clamp := no_mss_clamp v; log_format := log_format v; log_file := log_file v; data_path := data_path v; auth_method := auth_method v; local_ip := local_ip v; nas_identifier := nas_identifier v; drop_user := drop_user v; drop_group := drop_group v; verbose := verbose v; quiet := quiet v |}.
Definition with_auth_threads (v : t) (x : option Z) : t :=
  {| listen := listen v; cert := cert v; key := key v; radius := radius v; acct := acct v; io_threads := io_threads v; auth_threads := x; control_socket := control_socket v; no_control_socket := no_control_socket v; no_mss_clamp := no_mss_clamp v; log_format := log_format v; log_file := log_file v; data_path := data_path v; auth_method := auth_method v; local_ip := local_ip v; nas_identifier := nas_identifier v; drop_user := drop_user v; drop_group := drop_group v; verbose := verbose v; quiet := quiet v |}.
Definition with_control_socket (v : t) (x : option bytes) : t :=
  {| listen := listen v; cert := cert v; key := key v; radius := radius v; acct := acct v; io_threads := io_threads v; auth_threads := auth_threads v; control_socket := x; no_control_socket := no_control_socket v; no_mss_clamp := no_mss_clamp v; log_format := log_format v; log_file := log_file v; data_path := data_path v; auth_method := auth_method v; local_ip := local_ip v; nas_identifier := nas_identifier v; drop_user := drop_user v; drop_group := drop_group v; verbose := verbose v; quiet := quiet v |}.
Definition with_no_control_socket (v : t) (x : bool) : t :=
  {| listen := listen v; cert := cert v; key := key v; radius := radius v; acct := acct v; io_threads := io_threads v; auth_threads := auth_threads v; control_socket := control_socket v; no_control_socket := x; no_mss_clamp := no_mss_clamp v; log_format := log_format v; log_file := log_file v; data_path := data_path v; auth_method := auth_method v; local_ip := local_ip v; nas_identifier := nas_identifier v; drop_user := drop_user v; drop_group := drop_group v; verbose := verbose v; quiet := quiet v |}.
Definition with_no_mss_clamp (v : t) (x : bool) : t :=
  {| listen := listen v; cert := cert v; key := key v; radius := radius v; acct := acct v; io_threads := io_threads v; auth_threads := auth_threads v; control_socket := control_socket v; no_control_socket := no_control_socket v; no_mss_clamp := x; log_format := log_format v; log_file := log_file v; data_path := data_path v; auth_method := auth_method v; local_ip := local_ip v; nas_identifier := nas_identifier v; drop_user := drop_user v; drop_group := drop_group v; verbose := verbose v; quiet := quiet v |}.
Definition with_log_format (v : t) (x : LogFormat) : t :=
  {| listen := listen v; cert := cert v; key := key v; radius := radius v; acct := acct v; io_threads := io_threads v; auth_threads := auth_threads v; control_socket := control_socket v; no_control_socket := no_control_socket v; no_mss_clamp := no_mss_clamp v; log_format := x; log_file := log_file v; data_path := data_path v; auth_method := auth_method v; local_ip := local_ip v; nas_identifier := nas_identifier v; drop_user := drop_user v; drop_group := drop_group v; verbose := verbose v; quiet := quiet v |}.
Definition with_log_file (v : t) (x : option bytes) : t :=
  {| listen := listen v; cert := cert v; key := key v; radius := radius v; acct := acct v; io_threads := io_threads v; auth_threads := auth_threads v; control_socket := control_socket v; no_control_socket := no_control_socket v; no_mss_clamp := no_mss_clamp v; log_format := log_format v; log_file := x; data_path := data_path v; auth_method := auth_method v; local_ip := local_ip v; nas_identifier := nas_identifier v; drop_user := drop_user v; drop_group := drop_group v; verbose := verbose v; quiet := quiet v |}.
Definition with_data_path (v : t) (x : DataPathMode.t) : t :=
  {| listen := listen v; cert := cert v; key := key v; radius := radius v; acct := acct v; io_threads := io_threads v; auth_threads := auth_threads v; control_socket := control_socket v; no_control_socket := no_control_socket v; no_mss_clamp := no_mss_clamp v; log_format := log_format v; log_file := log_file v; data_path := x; auth_method := auth_method v; local_ip := local_ip v; nas_identifier := nas_identifier v; drop_user := drop_user v; drop_group := drop_group v; verbose := verbose v; quiet := quiet v |}.
Definition with_auth_method (v : t) (x : AuthMethod.t) : t :=
  {| listen := listen v; cert := cert v; key := key v; radius := radius v; acct := acct v; io_threads := io_threads v; auth_threads := auth_threads v; control_socket := control_socket v; no_control_socket := no_control_socket v; no_mss_clamp := no_mss_clamp v; log_format := log_format v; log_file := log_file v; data_path := data_path v; auth_method := x; local_ip := local_ip v; nas_identifier := nas_identifier v; drop_user := drop_user v; drop_group := drop_group v; verbose := verbose v; quiet := quiet v |}.
Definition with_local_ip (v : t) (x : option bytes) : t :=
  {| listen := listen v; cert := cert v; key := key v; radius := radius v; acct := acct v; io_threads := io_threads v; auth_threads := auth_threads v; control_socket := control_socket v; no_control_socket := no_control_socket v; no_mss_clamp := no_mss_clamp v; log_format := log_format v; log_file := log_file v; data_path := data_path v; auth_method := auth_method v; local_ip := x; nas_identifier := nas_identifier v; drop_user := drop_user v; drop_group := drop_group v; verbose := verbose v; quiet := quiet v |}.
Definition with_nas_identifier (v : t) (x : option bytes) : t :=
  {| listen := listen v; cert := cert v; key := key v; radius := radius v; acct := acct v; io_threads := io_threads v; auth_threads := auth_threads v; control_socket := control_socket v; no_control_socket := no_control_socket v; no_mss_clamp := no_mss_clamp v; log_format := log_format v; log_file := log_file v; data_path := data_path v; auth_method := auth_method v; local_ip := local_ip v; nas_identifier := x; drop_user := drop_user v; drop_group := drop_group v; verbose := verbose v; quiet := quiet v |}.
Definition with_drop_user (v : t) (x : option bytes) : t :=
  {| listen := listen v; cert := cert v; key := key v; radius := radius v; acct := acct v; io_threads := io_threads v; auth_threads := auth_threads v; control_socket := control_socket v; no_control_socket := no_control_socket v; no_mss_clamp := no_mss_clamp v; log_format := log_format v; log_file := log_file v; data_path := data_path v; auth_method := auth_method v; local_ip := local_ip v; nas_identifier := nas_identifier v; drop_user := x; drop_group := drop_group v; verbose := verbose v; quiet := quiet v |}.
Definition with_drop_group (v : t) (x : option bytes) : t :=
  {| listen := listen v; cert := cert v; key := key v; radius := radius v; acct := acct v; io_threads := io_threads v; auth_threads := auth_threads v; control_socket := control_socket v; no_control_socket := no_control_socket v; no_mss_clamp := no_mss_clamp v; log_format := log_format v; log_file := log_file v; data_path := data_path v; auth_method := auth_method v; local_ip := local_ip v; nas_identifier := nas_identifier v; drop_user := drop_user v; drop_group := x; verbose := verbose v; quiet := quiet v |}.
Definition with_verbose (v : t) (x : Z) : t :=
  {| listen := listen v; cert := cert v; key := key v; radius := radius v; acct := acct v; io_threads := io_threads v; auth_threads := auth_threads v; control_socket := control_socket v; no_control_socket := no_control_socket v; no_mss_clamp := no_mss_clamp v; log_format := log_format v; log_file := log_file v; data_path := data_path v; auth_method := auth_method v; local_ip := local_ip v; nas_identifier := nas_identifier v; drop_user := drop_user v; drop_group := drop_group v; verbose := x; quiet := quiet v |}.
Definition with_quiet (v : t) (x : bool) : t :=
  {| listen := listen v; cert := cert v; key := key v; radius := radius v; acct := acct v; io_threads := io_threads v; auth_threads := auth_threads v; control_socket := control_socket v; no_control_socket := no_control_socket v; no_mss_clamp := no_mss_clamp v; log_format := log_format v; log_file := log_file v; data_path := data_path v; auth_method := auth_method v; local_ip := local_ip v; nas_identifier := nas_identifier v; drop_user := drop_user v; drop_group := drop_group v; verbose := verbose v; quiet := x |}.

End Vars.

Definition parse_usize (flag : string) (raw : option bytes) : res ParseError Z :=
  let raw := default [] raw in
  match parse_uint U64_MAX raw with Some n => Ok n | None => Err (InvalidValue flag raw) end.

Definition parse_sockaddr (flag : string) (raw : bytes) : res ParseError (SocketAddr * Z) :=
  match parse_socket_addr raw with Some a => Ok a | None => Err (InvalidValue flag raw) end.

Definition compute_threads (ncpus : Z) (io_override auth_override : option Z) : res ParseError (Z * Z) :=
  let ncpus := Z.max ncpus 1 in
  let auth_default := Z.max 2 (ncpus / 4) in
  let auth := default auth_default auth_override in
  let io :=
    match io_override with
    | Some io => io
    | None =>
        let derived := Z.max (Z.max 0 (ncpus - auth)) 1 in
        match auth_override with Some _ => Z.max derived auth | None => derived end
    end in
  let auth_capped := Z.min auth (Z.max io 1) in
  if io =? 0 then Err ZeroThreads else if auth_capped =? 0 then Err ZeroThreads else Ok (io, auth_capped).

Definition compute_log_level (verbose : Z) (quiet : bool) : LevelFilter :=
  if quiet then ERROR
  else if verbose =? 0 then WARN else if verbose =? 1 then INFO else if verbose =? 2 then DEBUG else TRACE.

Section Parse.

Context {bp : BuildProfile} (build : BuildEnv) (prog : bytes).

(** [verbose += 1] on an [i32] *)
Definition add_i32 {E} (v : Z) : res E Z :=
  if v <? 2 ^ 31 then Ok v else if debug_assertions then Panic else Ok (v - 2 ^ 32).

Definition log_format_of (raw : bytes) : option LogFormat :=
  if bytes_eqb raw (lit "text") then Some FmtText
  else if bytes_eqb raw (lit "json") then Some FmtJson
  else if bytes_eqb raw (lit "auto") then Some FmtAuto
  else None.

Definition data_path_of (raw : bytes) : option DataPathMode.t :=
  if bytes_eqb raw (lit "auto") then Some DataPathMode.Auto
  else if bytes_eqb raw (lit "kernel") then Some DataPathMode.Kernel
  else if bytes_eqb raw (lit "tun") then Some DataPathMode.Tun
  else None.

Definition auth_method_of (raw : bytes) : option AuthMethod.t :=
  if bytes_eqb raw (lit "pap") then Some AuthMethod.Pap
  else if bytes_eqb raw (lit "chap") || bytes_eqb raw (lit "chap-md5") then Some AuthMethod.ChapMd5
  else if bytes_eqb raw (lit "mschapv2") || bytes_eqb raw (lit "ms-chap-v2") then Some AuthMethod.MsChapV2
  else None.

(** One round of the loop over the options; [inr] is an early return with a message. *)
Definition on_option (v : Vars.t) (o : Opt) : res ParseError (Vars.t + bytes) :=
  let c := val o in
  if c =? 104 then Ok (inr (usage prog))
  else if c =? 86 then Ok (inr (prog ++ lit " " ++ version_string build ++ [LF]))
  else if c =? 118 then n ← add_i32 (Vars.verbose v + 1); Ok (inl (Vars.with_verbose v n))
  else if c =? 113 then Ok (inl (Vars.with_quiet v true))
  else if c =? 108 then Ok (inl (Vars.with_listen v (arg o)))
  else if c =? 99 then Ok (inl (Vars.with_cert v (arg o)))
  else if c =? 107 then Ok (inl (Vars.with_key v (arg o)))
  else if c =? 114 then Ok (inl (Vars.with_radius v (Vars.radius v ++ option_list (arg o))))
  else if c =? 65 then Ok (inl (Vars.with_acct v (Vars.acct v ++ option_list (arg o))))
  else if c =? 116 then n ← parse_usize "threads" (arg o); Ok (inl (Vars.with_io_threads v (Some n)))
  else if c =? 84 then n ← parse_usize "auth-threads" (arg o); Ok (inl (Vars.with_auth_threads v (Some n)))
  else if c =? 115 then Ok (inl (Vars.with_control_socket v (arg o)))
  else if c =? 110 then Ok (inl (Vars.with_no_control_socket v true))
  else if c =? 120 then Ok (inl (Vars.with_no_mss_clamp v true))
  else if c =? 70 then
    let raw := default [] (arg o) in
    match log_format_of raw with Some f => Ok (inl (Vars.with_log_format v f)) | None => Err (InvalidValue "log-format" raw) end
  else if c =? 76 then Ok (inl (Vars.with_log_file v (arg o)))
  else if c =? 105 then Ok (inl (Vars.with_local_ip v (arg o)))
  else if c =? 78 then Ok (inl (Vars.with_nas_identifier v (arg o)))
  else if c =? 117 then Ok (inl (Vars.with_drop_user v (arg o)))
  else if c =? 103 then Ok (inl (Vars.with_drop_group v (arg o)))
  else if c =? 68 then
    let raw := default [] (arg o) in
    match data_path_of raw with Some m => Ok (inl (Vars.with_data_path v m)) | None => Err (InvalidValue "data-path" raw) end
  else if c =? 77 then
    let raw := default [] (arg o) in
    match auth_method_of raw with Some m => Ok (inl (Vars.with_auth_method v m)) | None => Err (InvalidValue "auth-method" raw) end
  else if c =? 63 then Err (UnknownOption (default 63 (erropt o)))
  else if c =? 58 then Err (MissingArgument (default 63 (erropt o)))
  else Ok (inl v).

Fixpoint on_options (v : Vars.t) (opts : list Opt) : res ParseError (Vars.t + bytes) :=
  match opts with
  | [] => Ok (inl v)
  | o :: opts => r ← on_option v o; match r with inl v => on_options v opts | inr m => Ok (inr m) end
  end.

Definition required {A} (flag : string) (o : option A) : res ParseError A :=
  match o with Some a => Ok a | None => Err (MissingRequired flag) end.

(** [iter().map(parse_sockaddr).collect::<Result<Vec<_>, _>>()] *)
Fixpoint parse_all (flag : string) (raws : list bytes) : res ParseError (list (SocketAddr * Z)) :=
  match raws with
  | [] => Ok []
  | raw :: raws => a ← parse_sockaddr flag raw; r ← parse_all flag raws; Ok (a :: r)
  end.

(** After the loop *)
Definition finish (v : Vars.t) (remaining : list bytes) (ncpus : Z) : res ParseError Config :=
  match remaining with
  | pos :: _ => Err (UnexpectedPositional pos)
  | [] =>
      cert ← required "cert" (Vars.cert v);
      key ← required "key" (Vars.key v);
      match Vars.radius v with
      | [] => Err (MissingRequired "radius")
      | _ =>
          local_ip_raw ← required "local-ip" (Vars.local_ip v);
          local_ip ← match parse_ipv4 local_ip_raw with Some a => Ok a | None => Err (InvalidValue "local-ip" local_ip_raw) end;
          listen ← parse_sockaddr "listen" (default DEFAULT_LISTEN (Vars.listen v));
          radius ← parse_all "radius" (Vars.radius v);
          acct ← parse_all "acct" (Vars.acct v);
          '(io, auth) ← compute_threads ncpus (Vars.io_threads v) (Vars.auth_threads v);
          Ok {| c_listen := listen; c_cert := cert; c_key := key; c_radius := radius; c_acct := acct; c_io_threads := io;
                c_auth_threads := auth;
                c_control_socket := if Vars.no_control_socket v then None else Some (default DEFAULT_CONTROL_SOCKET (Vars.control_socket v));
                c_mss_clamp := negb (Vars.no_mss_clamp v); c_log_format := Vars.log_format v; c_log_file := Vars.log_file v;
                c_log_level := compute_log_level (Vars.verbose v) (Vars.quiet v); c_data_path := Vars.data_path v;
                c_auth_method := Vars.auth_method v; c_local_ip := local_ip; c_nas_identifier := Vars.nas_identifier v;
                c_drop_user := Vars.drop_user v; c_drop_group := Vars.drop_group v |}
      end
  end.

(** [available_parallelism().map_or(1, get)] is [ncpus]. *)
Definition parse_with (opts : list Opt) (remaining : list bytes) (ncpus : Z) : res ParseError ParseOutcome :=
  r ← on_options Vars.init opts;
  match r with
  | inr message => Ok (Exit_ message)
  | inl v => c ← finish v remaining ncpus; Ok (Run c)
  end.

End Parse.
