(* ===== verification/CliProps.v ===== *)
(** * Properties of the command line

    What a configuration is in terms of the options given: the last one of each kind counts, servers are
    collected in order, and nothing else starts the server; and the numbers of threads. *)

From stdpp Require Import strings.
From S2P Require Import Prelude RustText RustStd PppDriver Radius DataPath RustNet Cli.

(** ** Options by letter *)

Definition uses (c : Z) (opts : list Opt) : list Opt := filter (fun o => val o = c) opts.

Definition given (c : Z) (opts : list Opt) : bool := existsb (fun o => val o =? c) opts.

(** The argument of the last use, and those of all uses *)
Definition last_value (c : Z) (opts : list Opt) : option bytes := last (uses c opts) ≫= arg.
Definition values (c : Z) (opts : list Opt) : list bytes := omap arg (uses c opts).

(** The last use of an option whose argument is interpreted by [f] *)
Definition last_read {A} (f : bytes -> option A) (c : Z) (opts : list Opt) : option A :=
  last (uses c opts) ≫= fun o => f (default [] (arg o)).

(** An option the loop goes on after *)
Definition plain (o : Opt) : bool :=
  let c := val o in
  let raw := default [] (arg o) in
  negb ((c =? 104) || (c =? 86) || (c =? 63) || (c =? 58))
  && (if (c =? 116) || (c =? 84) then bool_decide (is_Some (parse_uint U64_MAX raw)) else true)
  && (if c =? 70 then bool_decide (is_Some (log_format_of raw)) else true)
  && (if c =? 68 then bool_decide (is_Some (data_path_of raw)) else true)
  && (if c =? 77 then bool_decide (is_Some (auth_method_of raw)) else true).

Definition vars_of (opts : list Opt) : Vars.t :=
  {| Vars.listen := last_value 108 opts; Vars.cert := last_value 99 opts; Vars.key := last_value 107 opts;
     Vars.radius := values 114 opts; Vars.acct := values 65 opts;
     Vars.io_threads := last_read (parse_uint U64_MAX) 116 opts; Vars.auth_threads := last_read (parse_uint U64_MAX) 84 opts;
     Vars.control_socket := last_value 115 opts; Vars.no_control_socket := given 110 opts; Vars.no_mss_clamp := given 120 opts;
     Vars.log_format := default FmtAuto (last_read log_format_of 70 opts); Vars.log_file := last_value 76 opts;
     Vars.data_path := default DataPathMode.Auto (last_read data_path_of 68 opts);
     Vars.auth_method := default AuthMethod.Pap (last_read auth_method_of 77 opts);
     Vars.local_ip := last_value 105 opts; Vars.nas_identifier := last_value 78 opts; Vars.drop_user := last_value 117 opts;
     Vars.drop_group := last_value 103 opts; Vars.verbose := len (uses 118 opts); Vars.quiet := given 113 opts |}.

Lemma uses_snoc c opts o : uses c (opts ++ [o]) = uses c opts ++ (if val o =? c then [o] else []).
Proof.
  unfold uses. rewrite filter_app, filter_cons. f_equal.
  destruct (Z.eqb_spec (val o) c); [by rewrite decide_True|by rewrite decide_False].
Qed.

Lemma given_snoc c opts o : given c (opts ++ [o]) = (val o =? c) || given c opts.
Proof. unfold given. rewrite existsb_app. cbn. rewrite orb_false_r. apply orb_comm. Qed.

Lemma last_read_snoc {A} (f : bytes -> option A) c opts o :
  last_read f c (opts ++ [o]) = if val o =? c then f (default [] (arg o)) else last_read f c opts.
Proof. unfold last_read. rewrite uses_snoc. destruct (val o =? c); [by rewrite last_snoc|by rewrite app_nil_r]. Qed.

Lemma last_value_snoc c opts o : last_value c (opts ++ [o]) = if val o =? c then arg o else last_value c opts.
Proof. unfold last_value. rewrite uses_snoc. destruct (val o =? c); [by rewrite last_snoc|by rewrite app_nil_r]. Qed.

Lemma values_snoc c opts o : values c (opts ++ [o]) = values c opts ++ (if val o =? c then option_list (arg o) else []).
Proof. unfold values. rewrite uses_snoc, omap_app. f_equal. destruct (val o =? c); [|done]. cbn. by destruct (arg o). Qed.

Lemma verbose_snoc opts o : len (uses 118 (opts ++ [o])) = len (uses 118 opts) + (if val o =? 118 then 1 else 0).
Proof. rewrite uses_snoc. destruct (val o =? 118); autorewrite with lens; cbn [length]; lia. Qed.

Lemma vars_snoc opts o :
  vars_of (opts ++ [o]) =
  {| Vars.listen := if val o =? 108 then arg o else last_value 108 opts; Vars.cert := if val o =? 99 then arg o else last_value 99 opts;
     Vars.key := if val o =? 107 then arg o else last_value 107 opts;
     Vars.radius := values 114 opts ++ (if val o =? 114 then option_list (arg o) else []);
     Vars.acct := values 65 opts ++ (if val o =? 65 then option_list (arg o) else []);
     Vars.io_threads := if val o =? 116 then parse_uint U64_MAX (default [] (arg o)) else last_read (parse_uint U64_MAX) 116 opts;
     Vars.auth_threads := if val o =? 84 then parse_uint U64_MAX (default [] (arg o)) else last_read (parse_uint U64_MAX) 84 opts;
     Vars.control_socket := if val o =? 115 then arg o else last_value 115 opts; Vars.no_control_socket := (val o =? 110) || given 110 opts;
     Vars.no_mss_clamp := (val o =? 120) || given 120 opts;
     Vars.log_format := default FmtAuto (if val o =? 70 then log_format_of (default [] (arg o)) else last_read log_format_of 70 opts);
     Vars.log_file := if val o =? 76 then arg o else last_value 76 opts;
     Vars.data_path := default DataPathMode.Auto (if val o =? 68 then data_path_of (default [] (arg o)) else last_read data_path_of 68 opts);
     Vars.auth_method := default AuthMethod.Pap (if val o =? 77 then auth_method_of (default [] (arg o)) else last_read auth_method_of 77 opts);
     Vars.local_ip := if val o =? 105 then arg o else last_value 105 opts; Vars.nas_identifier := if val o =? 78 then arg o else last_value 78 opts;
     Vars.drop_user := if val o =? 117 then arg o else last_value 117 opts; Vars.drop_group := if val o =? 103 then arg o else last_value 103 opts;
     Vars.verbose := len (uses 118 opts) + (if val o =? 118 then 1 else 0); Vars.quiet := (val o =? 113) || given 113 opts |}.
Proof. unfold vars_of. rewrite !last_value_snoc, !values_snoc, !last_read_snoc, !given_snoc, verbose_snoc. reflexivity. Qed.

(** ** The loop *)

Section Loop.

Context {bp : BuildProfile} (build : BuildEnv) (prog : bytes).

Lemma on_options_app v a b :
  on_options build prog v (a ++ b) = on_options build prog v a ≫= fun r => match r with inl v => on_options build prog v b | inr m => Ok (inr m) end.
Proof.
  revert v. induction a as [|o a IH]; intros v; [done|]. cbn [app on_options]. destruct (on_option build prog v o) as [[v'|m]|e|]; cbn; auto.
Qed.

(** Splits on the letter of [o]; [H] is a fact about it. *)
Ltac by_letter o H :=
  repeat match goal with
  | |- context [if val o =? ?k then _ else _] =>
      destruct (Z.eqb_spec (val o) k) as [E|?]; [rewrite E in *; cbn in H |- *; rewrite ?app_nil_r, ?Z.add_0_r; clear E|]
  | |- context [(val o =? ?k) || _] =>
      destruct (Z.eqb_spec (val o) k) as [E|?]; [rewrite E in *; cbn in H |- *; rewrite ?app_nil_r, ?Z.add_0_r; clear E|]
  end.

Lemma on_option_plain opts o :
  len (uses 118 (opts ++ [o])) < 2 ^ 31 -> plain o = true -> on_option build prog (vars_of opts) o = Ok (inl (vars_of (opts ++ [o]))).
Proof.
  rewrite verbose_snoc, vars_snoc. unfold plain, on_option. intros Hv Hp. by_letter o Hp; try done.
  - unfold add_i32. by rewrite (proj2 (Z.ltb_lt _ _) Hv).
  - unfold parse_usize. rewrite !andb_true_r in Hp. apply bool_decide_eq_true in Hp as [? ->]. done.
  - unfold parse_usize. rewrite !andb_true_r in Hp. apply bool_decide_eq_true in Hp as [? ->]. done.
  - rewrite !andb_true_r in Hp. apply bool_decide_eq_true in Hp as [f ->]. done.
  - rewrite !andb_true_r in Hp. apply bool_decide_eq_true in Hp as [f ->]. done.
  - apply bool_decide_eq_true in Hp as [f ->]. done.
  - rewrite ?app_nil_r, ?Z.add_0_r. done.
Qed.

Lemma on_option_not_plain v o v' : plain o = false -> on_option build prog v o <> Ok (inl v').
Proof.
  unfold plain, on_option. intros Hp. by_letter o Hp; try done; unfold parse_usize.
  all: try (rewrite ?andb_true_r in Hp; apply bool_decide_eq_false, eq_None_not_Some in Hp; by rewrite Hp).
  all: try (by destruct (add_i32 (Vars.verbose v + 1))).
Qed.

Lemma on_options_plain opts :
  len (uses 118 opts) < 2 ^ 31 -> Forall (fun o => plain o = true) opts -> on_options build prog Vars.init opts = Ok (inl (vars_of opts)).
Proof.
  induction opts as [|o opts IH] using rev_ind; intros Hv Hp; [done|]. apply Forall_app in Hp as [Hp Ho].
  apply Forall_cons in Ho as [Ho _]. rewrite on_options_app, IH; [|rewrite verbose_snoc in Hv; destruct (_ =? _); lia|done].
  transitivity (on_options build prog (vars_of opts) [o]); [done|]. cbn [on_options]. by rewrite on_option_plain.
Qed.

Lemma on_options_runs v opts v' : on_options build prog v opts = Ok (inl v') -> Forall (fun o => plain o = true) opts.
Proof.
  revert v. induction opts as [|o opts IH]; intros v H; [constructor|]. cbn in H.
  destruct (on_option build prog v o) as [[v1|m]|e|] eqn:E; try discriminate H. cbn in H. constructor; [|by eapply IH].
  destruct (plain o) eqn:P; [done|]. by destruct (on_option_not_plain v o v1 P).
Qed.

Lemma parse_all_iff flag raws l : parse_all flag raws = Ok l <-> Forall2 (fun raw a => parse_socket_addr raw = Some a) raws l.
Proof.
  revert l. induction raws as [|raw raws IH]; intros l; cbn; [split; [intros [= <-]; constructor|inversion 1; done]|].
  unfold parse_sockaddr. destruct (parse_socket_addr raw) as [a|] eqn:E; cbn.
  - destruct (parse_all flag raws) as [r|e|] eqn:Er; cbn; split; intros H; try done.
    + injection H as <-. constructor; [done|]. by apply IH.
    + inversion H as [|? b ? r' Hb Hr]; subst. apply IH in Hr. congruence.
    + inversion H as [|? b ? r' Hb Hr]; subst. apply IH in Hr. done.
    + inversion H as [|? b ? r' Hb Hr]; subst. apply IH in Hr. done.
  - split; [done|]. inversion 1; congruence.
Qed.

Lemma finish_iff v remaining ncpus c :
  finish v remaining ncpus = Ok c <->
  remaining = [] /\ Vars.cert v = Some (c_cert c) /\ Vars.key v = Some (c_key c)
  /\ Vars.radius v <> [] /\ Forall2 (fun raw a => parse_socket_addr raw = Some a) (Vars.radius v) (c_radius c)
  /\ Forall2 (fun raw a => parse_socket_addr raw = Some a) (Vars.acct v) (c_acct c)
  /\ Vars.local_ip v ≫= parse_ipv4 = Some (c_local_ip c)
  /\ parse_socket_addr (default DEFAULT_LISTEN (Vars.listen v)) = Some (c_listen c)
  /\ compute_threads ncpus (Vars.io_threads v) (Vars.auth_threads v) = Ok (c_io_threads c, c_auth_threads c)
  /\ c_control_socket c = (if Vars.no_control_socket v then None else Some (default DEFAULT_CONTROL_SOCKET (Vars.control_socket v)))
  /\ c_mss_clamp c = negb (Vars.no_mss_clamp v) /\ c_log_format c = Vars.log_format v /\ c_log_file c = Vars.log_file v
  /\ c_log_level c = compute_log_level (Vars.verbose v) (Vars.quiet v) /\ c_data_path c = Vars.data_path v
  /\ c_auth_method c = Vars.auth_method v /\ c_nas_identifier c = Vars.nas_identifier v
  /\ c_drop_user c = Vars.drop_user v /\ c_drop_group c = Vars.drop_group v.
Proof using Type.
  unfold finish, required, parse_sockaddr. set (listen := default DEFAULT_LISTEN (Vars.listen v)). clearbody listen.
  destruct remaining as [|pos rest]; [|split; [done|by intros [? _]]].
  destruct (Vars.cert v) as [cert|]; cbn; [|split; [done|intros (_ & ? & _); done]].
  destruct (Vars.key v) as [key|]; cbn; [|split; [done|intros (_ & _ & ? & _); done]].
  pose proof (parse_all_iff "radius" (Vars.radius v)) as HR. pose proof (parse_all_iff "acct" (Vars.acct v)) as HA.
  destruct (Vars.radius v) as [|r0 rs] eqn:Er; [split; [done|intros (_ & _ & _ & ? & _); congruence]|]. rewrite <- Er in *.
  destruct (Vars.local_ip v) as [lraw|]; cbn; [|split; [done|intros (_ & _ & _ & _ & _ & _ & ? & _); done]].
  destruct (parse_ipv4 lraw) as [lip|]; cbn; [|split; [done|intros (_ & _ & _ & _ & _ & _ & ? & _); done]].
  destruct (parse_socket_addr listen) as [la|]; cbn; [|split; [done|intros (_ & _ & _ & _ & _ & _ & _ & ? & _); done]].
  split.
  - destruct (parse_all "radius" (Vars.radius v)) as [ra| |] eqn:E1; try done. cbn.
    destruct (parse_all "acct" (Vars.acct v)) as [aa| |] eqn:E2; try done. cbn.
    destruct (compute_threads _ _ _) as [[io auth]| |] eqn:E3; try done. cbn. intros [= <-]. cbn.
    pose proof (proj1 (HR _) eq_refl). pose proof (proj1 (HA _) eq_refl). repeat split; try done. congruence.
  - intros (_ & [= ->] & [= ->] & _ & R & A & [= ->] & [= ->] & T & S1 & S2 & S3 & S4 & S5 & S6 & S7 & S8 & S9 & S10).
    apply HR in R. apply HA in A. rewrite R, A. cbn. rewrite T. cbn. rewrite <- S1, <- S2, <- S3, <- S4, <- S5, <- S6, <- S7, <- S8, <- S9, <- S10.
    by destruct c.
Qed.

End Loop.


(** Splits on the first comparison with zero of the goal. *)
Ltac zero_case := match goal with |- context [?a =? 0] => destruct (Z.eqb_spec a 0) end.

(** The numbers of threads.  They are rejected exactly when a zero was asked for; otherwise there is at
    least one of each and never more auth threads than I/O workers; -t is taken as it is, -T too unless -t
    asks for fewer workers; and without options the two fit the processors, of which there are three or
    more, or are one and one. *)
Theorem threads_within_bounds ncpus io_override auth_override :
  0 <= ncpus -> (forall n, io_override = Some n \/ auth_override = Some n -> 0 <= n) ->
  match compute_threads ncpus io_override auth_override with
  | Ok (io, auth) =>
      1 <= auth <= io
      /\ (forall n, io_override = Some n -> io = n)
      /\ (forall n, auth_override = Some n -> auth = match io_override with Some m => Z.min n m | None => n end)
      /\ (io_override = None -> auth_override = None ->
          if ncpus <? 3 then io = 1 /\ auth = 1 else io + auth <= ncpus /\ auth = Z.min io (Z.max 2 (ncpus / 4)))
  | Err e => e = ZeroThreads /\ (io_override = Some 0 \/ auth_override = Some 0)
  | Panic => False
  end.
Proof.
  intros Hn Ho. unfold compute_threads. cbv zeta.
  assert (Hi : forall n, io_override = Some n -> 0 <= n) by auto. assert (Ha : forall n, auth_override = Some n -> 0 <= n) by auto. clear Ho.
  assert (Hd : 0 <= Z.max ncpus 1 / 4 <= Z.max ncpus 1 - 1) by (split; [apply Z.div_pos; lia|]; pose proof (Z.mul_div_le (Z.max ncpus 1) 4); lia).
  assert (Hd2 : 3 <= ncpus -> Z.max ncpus 1 / 4 = ncpus / 4) by (intros; f_equal; lia).
  destruct io_override as [io|], auth_override as [auth|]; cbv [default from_option id].
  - specialize (Hi io eq_refl). specialize (Ha auth eq_refl).
    destruct (Z.eqb_spec io 0) as [->|]; [cbv iota; auto|]. destruct (Z.eqb_spec (Z.min auth (Z.max io 1)) 0).
    + cbv iota. split; [done|]. right. f_equal. lia.
    + cbv iota. split; [lia|]. split; [congruence|]. split; [intros ? [= ->]; lia|done].
  - specialize (Hi io eq_refl). destruct (Z.eqb_spec io 0) as [->|]; [cbv iota; auto|]. zero_case; [lia|].
    cbv iota. split; [lia|]. split; [congruence|]. by split.
  - specialize (Ha auth eq_refl). zero_case; [lia|]. zero_case.
    + cbv iota. split; [done|]. right. f_equal. lia.
    + cbv iota. split; [lia|]. split; [done|]. split; [intros ? [= ->]; lia|done].
  - zero_case; [lia|]. zero_case; [lia|].
    cbv iota. split; [lia|]. split; [done|]. split; [done|]. intros _ _. destruct (Z.ltb_spec ncpus 3); [split; lia|]. rewrite Hd2 in * by lia. lia.
Qed.

Module CliDemo.

Definition o (c : Z) (a : option bytes) : Opt := {| val := c; arg := a; erropt := None |}.

Definition opts : list Opt :=
  [o 99 (Some (lit "/old.pem")); o 118 None; o 107 (Some (lit "/key.pem")); o 114 (Some (lit "192.0.2.1:1812")); o 99 (Some (lit "/cert.pem"));
   o 114 (Some (lit "[2001:db8::1]:1812")); o 105 (Some (lit "10.0.0.1")); o 84 (Some (lit "4")); o 118 None].

Definition config : Config :=
  {| c_listen := ({| ip := V6 (replicate 8 0); port := 443 |}, 0); c_cert := lit "/cert.pem"; c_key := lit "/key.pem";
     c_radius := [({| ip := V4 [192; 0; 2; 1]; port := 1812 |}, 0); ({| ip := V6 [0x2001; 0xDB8; 0; 0; 0; 0; 0; 1]; port := 1812 |}, 0)];
     c_acct := []; c_io_threads := 4; c_auth_threads := 4; c_control_socket := Some (lit "/run/sstp-server.sock"); c_mss_clamp := true;
     c_log_format := FmtAuto; c_log_file := None; c_log_level := DEBUG; c_data_path := DataPathMode.Auto; c_auth_method := AuthMethod.Pap;
     c_local_ip := [10; 0; 0; 1]; c_nas_identifier := None; c_drop_user := None; c_drop_group := None |}.

Definition build : BuildEnv := {| crate_ver := lit "0.1.0"; git_sha := None; git_date := None |}.


Lemma threads_within_bounds_witness : compute_threads 16 None None = Ok (12, 4) /\ 12 + 4 <= 16.
Proof.
  assert (E : compute_threads 16 None None = Ok (12, 4)) by (vm_compute; reflexivity). split; [exact E|].
  pose proof (threads_within_bounds 16 None None ltac:(lia) ltac:(intros n [H|H]; discriminate H)) as T.
  rewrite E in T. exact (proj1 (proj2 (proj2 (proj2 T)) eq_refl eq_refl)).
Defined.

End CliDemo.
