(* ===== verification/Startup.v ===== *)
(** * Start-up ([src/src/main.rs]: [run] up to its runtimes; [src/src/privdrop.rs]; [src/src/net/listener.rs];
    [src/src/control.rs]: [bind])

    The calls the process makes before its threads run: the TLS material, the listeners, the control socket,
    the change of identity and the probe of the kernel module.  [getpwnam_r] and [getgrnam_r] answer with
    the ids of the entry, with none when there is no entry, and fail with their return value. *)

From stdpp Require Import strings gmap.
From S2P Require Import Prelude RustText RustStd PppDriver Radius Os DataPath Tls RustNet Cli.

Definition has_nul (l : bytes) : bool := existsb (Z.eqb 0) l.

(** ** [privdrop.rs] *)

Definition CAP_NET_ADMIN : Z := 12.
Definition CAP_SYS_NICE : Z := 23.
Definition CAP_VERSION_3 : Z := 0x20080522.
Definition PR_SET_KEEPCAPS : Z := 8.

Inductive DropError :=
| UnknownUser (name : bytes)
| UnknownGroup (name : bytes)
| NotRoot (euid : Z)
| Syscall (op : string) (e : io_error).

Record Identity := { uid : Z; gid : Z }.

Section Privdrop.
Context {os : Os} {bp : BuildProfile}.

Definition lookup_user (name : bytes) : M DropError Identity :=
  if has_nul name then throw (UnknownUser name)
  else
    r ← sys (Start (Getpwnam_r name));
    match r with
    | Fail rc => throw (Syscall "getpwnam_r" (OsError rc))
    | Ret _ [pw_uid; pw_gid] _ => mret {| uid := pw_uid; gid := pw_gid |}
    | Ret _ _ _ => throw (UnknownUser name)
    end.

Definition lookup_group (name : bytes) : M DropError Z :=
  if has_nul name then throw (UnknownGroup name)
  else
    r ← sys (Start (Getgrnam_r name));
    match r with
    | Fail rc => throw (Syscall "getgrnam_r" (OsError rc))
    | Ret _ [gr_gid] _ => mret gr_gid
    | Ret _ _ _ => throw (UnknownGroup name)
    end.

(** [let rc = ...; if rc != 0 { return Err(DropError::syscall(op)) }] *)
Definition zero_or (op : string) (c : startcall) : M DropError () :=
  r ← sys (Start c);
  match r with
  | Ret rc _ _ => if rc =? 0 then mret tt else throw (Syscall op OtherError)
  | Fail e => throw (Syscall op (OsError e))
  end.

(** The value of the line [Threads:]; a file that cannot be read counts as one thread. *)
Definition is_single_threaded {E} : M E bool :=
  r ← sys (Start (Read_to_string "/proc/self/status"));
  mret match r with
       | Fail _ => true
       | Ret _ _ out =>
           match from_utf8 out with
           | None => true
           | Some status =>
               match base.filter (fun l => starts_with (lit "Threads:") l = true) (split_byte LF status) with
               | line :: _ => bytes_eqb (trim_unicode (drop 8 line)) (lit "1")
               | [] => true
               end
           end
       end.

(** [1 << n] of type [u32] *)
Definition shl_one {E} (n : Z) : res E Z :=
  if n <? 32 then Ok (Z.shiftl 1 n) else if debug_assertions then Panic else Ok (Z.shiftl 1 (n mod 32)).

Fixpoint cap_words {E} (keep : list Z) (low high : Z) : res E (Z * Z) :=
  match keep with
  | [] => Ok (low, high)
  | c :: keep =>
      if c <? 32 then b ← shl_one c; cap_words keep (Z.lor low b) high
      else b ← shl_one (c - 32); cap_words keep low (Z.lor high b)
  end.

Definition drop_to (id : Identity) (keep : list Z) : M DropError () :=
  e ← sys (Start Geteuid);
  let euid := match e with Ret euid _ _ => euid | Fail _ => -1 end in
  if negb (euid =? 0) then throw (NotRoot euid)
  else
    _ ← (if debug_assertions then single ← is_single_threaded; lift (assert_ single) else mret tt);
    _ ← zero_or "prctl(PR_SET_KEEPCAPS)" (Prctl PR_SET_KEEPCAPS 1);
    _ ← zero_or "setgroups" (Setgroups []);
    _ ← zero_or "setresgid" (Setresgid (gid id) (gid id) (gid id));
    _ ← zero_or "setresuid" (Setresuid (uid id) (uid id) (uid id));
    '(low, high) ← lift (cap_words keep 0 0);
    zero_or "capset" (Capset CAP_VERSION_3 0 [(low, low, 0); (high, high, 0)]).

End Privdrop.

(** ** [net/listener.rs] *)

Definition LISTEN_BACKLOG : Z := 1024.
Definition AF_UNIX : Z := 1.
Definition AF_INET : Z := 2.
Definition AF_INET6 : Z := 10.
Definition SOL_SOCKET : Z := 1.
Definition SO_REUSEADDR : Z := 2.
Definition SO_REUSEPORT : Z := 15.
Definition IPPROTO_IPV6 : Z := 41.
Definition IPV6_V6ONLY : Z := 26.

Inductive ListenError :=
| LSocket (e : io_error)
| LSetSockOpt (e : io_error)
| LBind (e : io_error)
| LListen (e : io_error)
| LRegister (e : io_error).

Definition is_ipv6 (a : SocketAddr * Z) : bool := match ip a.1 with V4 _ => false | V6 _ => true end.
Definition ip_parts (a : SocketAddr * Z) : list Z := match ip a.1 with V4 o => o | V6 s => s end.

Section Sockets.
Context {os : Os} {bp : BuildProfile}.

Definition call {E} (f : io_error -> E) (c : syscall) : M E () := _ ← on_err f (checked c); mret tt.

Definition bind_reuseport_std (addr : SocketAddr * Z) : M ListenError Z :=
  r ← on_err LSocket (checked (Sys_socket (if is_ipv6 addr then AF_INET6 else AF_INET)));
  let fd := r.1.1 in
  owned fd
    (_ ← call LSetSockOpt (Start (Set_nonblocking fd));
     _ ← call LSetSockOpt (Start (Set_cloexec fd));
     _ ← call LSetSockOpt (Sys_setsockopt fd SOL_SOCKET SO_REUSEADDR [1; 0; 0; 0]);
     _ ← call LSetSockOpt (Sys_setsockopt fd SOL_SOCKET SO_REUSEPORT [1; 0; 0; 0]);
     _ ← (if is_ipv6 addr then call LSetSockOpt (Sys_setsockopt fd IPPROTO_IPV6 IPV6_V6ONLY [0; 0; 0; 0]) else mret tt);
     _ ← call LBind (Start (Bind_inet fd (is_ipv6 addr) (ip_parts addr) (port addr.1) addr.2));
     _ ← call LListen (Start (Listen fd LISTEN_BACKLOG));
     mret fd).

(** ** [control::bind] *)

Definition SOCKET_MODE : Z := 432.

Inductive BindError :=
| Remove (e : io_error)
| BindFailed (e : io_error)
| Permissions (e : io_error).

(** [std::fs::remove_file] and [std::fs::set_permissions] refuse a path with a NUL, [UnixListener::bind] also one
    that does not fit [sun_path]. *)
Definition remove_file (path : bytes) : M io_error () :=
  if has_nul path then throw OtherError else _ ← checked (Start (Unlink path)); mret tt.

Definition set_permissions (path : bytes) (mode : Z) : M io_error () :=
  if has_nul path then throw OtherError else _ ← checked (Start (Chmod path mode)); mret tt.

Definition unix_listener_bind (path : bytes) : M io_error Z :=
  r ← checked (Sys_socket AF_UNIX);
  let fd := r.1.1 in
  owned fd
    (_ ← (if has_nul path || (108 <=? len path) then throw OtherError else mret tt);
     _ ← checked (Start (Bind_unix fd path));
     _ ← checked (Start (Listen fd (-1)));
     mret fd).

(** [e.kind() == NotFound] *)
Definition not_found (e : io_error) : bool := match e with OsError n => n =? ENOENT | OtherError => false end.

Definition bind (path : bytes) (owner : option (Z * Z)) : M BindError Z :=
  r ← attempt_ (remove_file path);
  _ ← match r with inr e => if not_found e then mret tt else throw (Remove e) | inl _ => mret tt end;
  fd ← on_err BindFailed (unix_listener_bind path);
  owned fd
    (_ ← call BindFailed (Start (Set_nonblocking fd));
     _ ← on_err Permissions (set_permissions path SOCKET_MODE);
     match owner with
     | None => mret fd
     | Some (u, g) =>
         if has_nul path then throw (Permissions OtherError)
         else _ ← call Permissions (Start (Chown path u g)); mret fd
     end).

End Sockets.

(** ** [main.rs] *)

Inductive BootError :=
| TlsMaterial (e : TlsError)
| NoSecret
| ListenerFailed (e : ListenError)
| IdentityFailed (e : DropError)
| ControlFailed (e : BindError)
| DropFailed (e : DropError).

(** What the rest of [run] works with *)
Record Booted := {
  b_tls : SslContext;
  b_radius : list ((SocketAddr * Z) * bytes);
  b_acct : option (list ((SocketAddr * Z) * bytes));
  b_nas_identifier : option bytes;
  b_listeners : list Z;
  b_control : option (bytes * Z);
  b_data_path : DataPathMode.t
}.

Section Boot.
Context {os : Os} {bp : BuildProfile} {digests : Digests}.

Definition resolve_drop_identity (cfg : Config) : M DropError (option Identity) :=
  match c_drop_user cfg with
  | None => mret None
  | Some user =>
      id ← lookup_user user;
      match c_drop_group cfg with
      | None => mret (Some id)
      | Some group => g ← lookup_group group; mret (Some {| uid := uid id; gid := g |})
      end
  end.

(** The bytes before the first NUL *)
Fixpoint before_nul (l : bytes) : bytes := match l with x :: r => if x =? 0 then [] else x :: before_nul r | [] => [] end.

Definition resolve_hostname {E} : M E (option bytes) :=
  r ← sys (Start (Gethostname 256));
  mret match r with
       | Ret rc _ out =>
           if negb (rc =? 0) then None
           else match before_nul (take 256 (out ++ zeros 256)) with [] => None | name => from_utf8 name end
       | Fail _ => None
       end.

Definition nas_identifier_of {E} (cfg : Config) : M E (option bytes) :=
  match c_nas_identifier cfg with
  | Some [] => mret None
  | Some s => mret (Some s)
  | None => resolve_hostname
  end.

Definition resolve_data_path_mode {E} (requested : DataPathMode.t) : M E DataPathMode.t :=
  r ← attempt_ probe;
  mret match requested, r with
       | DataPathMode.Tun, _ => DataPathMode.Tun
       | DataPathMode.Kernel, _ => DataPathMode.Kernel
       | DataPathMode.Auto, inl _ => DataPathMode.Auto
       | DataPathMode.Auto, inr _ => DataPathMode.Tun
       end.

(** One listener per worker; those bound are closed when a later one fails. *)
Fixpoint bind_listeners (n : nat) (addr : SocketAddr * Z) : M BootError (list Z) :=
  match n with
  | O => mret []
  | S n => fd ← on_err ListenerFailed (bind_reuseport_std addr); owned fd (fds ← bind_listeners n addr; mret (fd :: fds))
  end.

Fixpoint owned_all {E A} (fds : list Z) (m : M E A) : M E A := match fds with [] => m | fd :: fds => owned fd (owned_all fds m) end.

(** [std::env::var(name)], when it is set and not empty *)
Definition secret (env : bytes -> option bytes) (name : bytes) : option bytes := match env name with Some (x :: s) => Some (x :: s) | _ => None end.

Definition SSTP_RADIUS_SECRET : bytes := lit "SSTP_RADIUS_SECRET".
Definition SSTP_RADIUS_ACCT_SECRET : bytes := lit "SSTP_RADIUS_ACCT_SECRET".

(** [aead_only] *)
Definition kernel_only (cfg : Config) : bool := match c_data_path cfg with DataPathMode.Kernel => true | _ => false end.

(** The sockets of the auth runtime are those of the RADIUS client. *)
Definition boot_run (cfg : Config) (env : bytes -> option bytes) : M BootError Booted :=
  tls ← on_err TlsMaterial (server_from_pem (c_cert cfg) (c_key cfg) (kernel_only cfg));
  match secret env SSTP_RADIUS_SECRET with
  | None => throw NoSecret
  | Some radius_secret =>
      nas ← nas_identifier_of cfg;
      listeners ← bind_listeners (Z.to_nat (c_io_threads cfg)) (c_listen cfg);
      owned_all listeners
        (drop_identity ← on_err IdentityFailed (resolve_drop_identity cfg);
         control ← match c_control_socket cfg with
                   | None => mret None
                   | Some path =>
                       fd ← on_err ControlFailed (bind path ((fun id => (uid id, gid id)) <$> drop_identity));
                       mret (Some (path, fd))
                   end;
         owned_all (match control with Some (_, fd) => [fd] | None => [] end)
           (_ ← match drop_identity with
                | Some id => on_err DropFailed (drop_to id [CAP_NET_ADMIN; CAP_SYS_NICE])
                | None => mret tt
                end;
            mode ← resolve_data_path_mode (c_data_path cfg);
            mret {| b_tls := tls;
                    b_radius := map (fun a => (a, radius_secret)) (c_radius cfg);
                    b_acct := match c_acct cfg with
                              | [] => None
                              | l => Some (map (fun a => (a, default radius_secret (secret env SSTP_RADIUS_ACCT_SECRET))) l)
                              end;
                    b_nas_identifier := nas; b_listeners := listeners; b_control := control; b_data_path := mode |}))
  end.

(** [watch_sighup_reload_tls]: one round; the context the next connections get *)
Definition reload_tls {E} (cfg : Config) (current : SslContext) : M E SslContext :=
  r ← attempt_ (server_from_pem (c_cert cfg) (c_key cfg) (kernel_only cfg));
  mret match r with inl new_ctx => new_ctx | inr _ => current end.

End Boot.
