(* ===== verification/StartupProps.v ===== *)
(** * Properties of the start-up

    The credentials of the process under the rules of credentials(7) and capabilities(7) when [drop_to]
    returns; the order of the privileged calls and the change of identity; and what a failed start leaves
    open. *)

From stdpp Require Import strings gmap.
From S2P Require Import Prelude RustText RustStd PppDriver Radius Os DataPath RtNetlinkProps DataPathProps Tls TlsProps RustNet Cli Startup.

(** ** Credentials *)

(** Capability sets are 64-bit words, bit [n] for capability [n]. *)
Record Cred := {
  ruid : Z; euid : Z; suid : Z;
  rgid : Z; egid : Z; sgid : Z;
  groups : list Z;
  permitted : Z; effective : Z; inheritable : Z;
  keepcaps : bool
}.

Definition CAP_SETGID : Z := 6.
Definition CAP_SETUID : Z := 7.
Definition NO_ID : Z := 4294967295.
Definition EPERM : Z := 1.

Definition has_cap (c : Cred) (n : Z) : bool := Z.testbit (effective c) n.

Definition subset (a b : Z) : bool := Z.ldiff a b =? 0.

(** setresuid(2), setresgid(2): an id of -1 stays, the others need the capability or to be one of the three *)
Definition new_id (old new : Z) : Z := if new =? NO_ID then old else new.
Definition may_set (cap : bool) (r e s new : Z) : bool := cap || (new =? NO_ID) || (new =? r) || (new =? e) || (new =? s).

Definition with_uids (c : Cred) (r e s : Z) : Cred :=
  let leaves_root := ((ruid c =? 0) || (euid c =? 0) || (suid c =? 0)) && negb ((r =? 0) || (e =? 0) || (s =? 0)) in
  let cleared := leaves_root && negb (keepcaps c) in
  let p := if cleared then 0 else permitted c in
  let f := if cleared || ((euid c =? 0) && negb (e =? 0)) then 0
           else if negb (euid c =? 0) && (e =? 0) then permitted c else effective c in
  {| ruid := r; euid := e; suid := s; rgid := rgid c; egid := egid c; sgid := sgid c; groups := groups c;
     permitted := p; effective := f; inheritable := inheritable c; keepcaps := keepcaps c |}.

(** What the call does to a process, or [None] where it fails with [EPERM].  The securebits are those of a
    process started by init, all clear. *)
Definition kernel (c : Cred) (k : startcall) : option Cred :=
  match k with
  | Prctl 8 v =>
      Some {| ruid := ruid c; euid := euid c; suid := suid c; rgid := rgid c; egid := egid c; sgid := sgid c; groups := groups c;
              permitted := permitted c; effective := effective c; inheritable := inheritable c; keepcaps := negb (v =? 0) |}
  | Setgroups l =>
      if has_cap c CAP_SETGID
      then Some {| ruid := ruid c; euid := euid c; suid := suid c; rgid := rgid c; egid := egid c; sgid := sgid c; groups := l;
                   permitted := permitted c; effective := effective c; inheritable := inheritable c; keepcaps := keepcaps c |}
      else None
  | Setresgid r e s =>
      let may := may_set (has_cap c CAP_SETGID) (rgid c) (egid c) (sgid c) in
      if may r && may e && may s
      then Some {| ruid := ruid c; euid := euid c; suid := suid c; rgid := new_id (rgid c) r; egid := new_id (egid c) e;
                   sgid := new_id (sgid c) s; groups := groups c; permitted := permitted c; effective := effective c;
                   inheritable := inheritable c; keepcaps := keepcaps c |}
      else None
  | Setresuid r e s =>
      let may := may_set (has_cap c CAP_SETUID) (ruid c) (euid c) (suid c) in
      if may r && may e && may s then Some (with_uids c (new_id (ruid c) r) (new_id (euid c) e) (new_id (suid c) s)) else None
  | Capset 0x20080522 0 [(e0, p0, i0); (e1, p1, i1)] =>
      let e := Z.lor e0 (Z.shiftl e1 32) in
      let p := Z.lor p0 (Z.shiftl p1 32) in
      let i := Z.lor i0 (Z.shiftl i1 32) in
      if subset p (permitted c) && subset e p && subset i (Z.lor (inheritable c) (permitted c))
      then Some {| ruid := ruid c; euid := euid c; suid := suid c; rgid := rgid c; egid := egid c; sgid := sgid c; groups := groups c;
                   permitted := p; effective := e; inheritable := i; keepcaps := keepcaps c |}
      else None
  | _ => None
  end.

(** The calls that change who the process is *)
Definition identity (c : syscall) : bool :=
  match c with Start (Prctl _ _ | Setgroups _ | Setresgid _ _ _ | Setresuid _ _ _ | Capset _ _ _) => true | _ => false end.

(** The credentials after a history that began with [c0] *)
Fixpoint creds (c0 : Cred) (h : history) : Cred :=
  match h with
  | [] => c0
  | (Start k, Ret _ _ _) :: h => default (creds c0 h) (if identity (Start k) then kernel (creds c0 h) k else None)
  | _ :: h => creds c0 h
  end.

(** The operating system keeps these rules. *)
Class KeepsCredentials (os : Os) (c0 : Cred) := {
  geteuid_answer : forall h, answer h (Start Geteuid) = Ret (euid (creds c0 h)) [] [];
  identity_answer : forall h k, identity (Start k) = true ->
    answer h (Start k) = match kernel (creds c0 h) k with Some _ => Ret 0 [] [] | None => Fail EPERM end
}.

(** The word with the bits of [keep] *)
Fixpoint caps (keep : list Z) : Z := match keep with [] => 0 | c :: keep => Z.lor (Z.shiftl 1 c) (caps keep) end.

Section Drop.

Context {os : Os} {bp : BuildProfile} (c0 : Cred) {rules : KeepsCredentials os c0}.

Lemma zero_or_runs op k h c :
  identity (Start k) = true -> kernel (creds c0 h) k = Some c ->
  exists h', zero_or op k h = (Ok tt, h') /\ creds c0 h' = c.
Proof using rules.
  intros Hi Hk. exists ((Start k, Ret 0 [] []) :: h).
  assert (Ha : answer h (Start k) = Ret 0 [] []) by (rewrite identity_answer by done; by rewrite Hk).
  unfold zero_or. rewrite bind_eq. unfold sys. rewrite Ha. split; [done|]. cbn [creds]. by rewrite Hi, Hk.
Qed.

Lemma cap_words_ok {E} keep low high :
  Forall (fun c => 0 <= c < 64) keep ->
  exists l g, cap_words (E := E) keep low high = Ok (Z.lor low l, Z.lor high g) /\ Z.lor l (Z.shiftl g 32) = caps keep.
Proof using Type.
  clear. intros Hk. revert low high. induction Hk as [|c keep Hc Hk IH]; intros low high; cbn [cap_words caps].
  { exists 0, 0. by rewrite !Z.lor_0_r. }
  destruct (Z.ltb_spec c 32) as [Hl|Hl]; unfold shl_one.
  - rewrite (proj2 (Z.ltb_lt c 32) Hl). cbn [mbind res_bind]. destruct (IH (Z.lor low (Z.shiftl 1 c)) high) as (l & g & E1 & E2).
    exists (Z.lor (Z.shiftl 1 c) l), g. rewrite E1, <- E2, !Z.lor_assoc. done.
  - rewrite (proj2 (Z.ltb_lt (c - 32) 32)) by lia. cbn [mbind res_bind]. destruct (IH low (Z.lor high (Z.shiftl 1 (c - 32)))) as (l & g & E1 & E2).
    exists l, (Z.lor (Z.shiftl 1 (c - 32)) g). rewrite E1, <- E2, Z.lor_assoc, Z.shiftl_lor, Z.shiftl_shiftl by lia.
    replace (c - 32 + 32) with c by lia. split; [done|]. rewrite !Z.lor_assoc, (Z.lor_comm l). done.
Qed.

Lemma caps_testbit keep n : Forall (fun c => 0 <= c < 64) keep -> 0 <= n -> Z.testbit (caps keep) n = bool_decide (n ∈ keep).
Proof using Type.
  clear. intros Hk Hn. induction Hk as [|c keep Hc Hk IH]; cbn [caps]; [apply Z.testbit_0_l|].
  rewrite Z.lor_spec, IH, Z.shiftl_1_l, Z.pow2_bits_eqb by lia. destruct (Z.eqb_spec c n) as [->|Hne]; cbn [orb].
  - symmetry. apply bool_decide_eq_true. by left.
  - apply bool_decide_ext. rewrite elem_of_cons. naive_solver.
Qed.

(** The identity [drop_to] leaves *)
Definition dropped (id : Identity) (keep : list Z) : Cred :=
  {| ruid := uid id; euid := uid id; suid := uid id; rgid := gid id; egid := gid id; sgid := gid id; groups := [];
     permitted := caps keep; effective := caps keep; inheritable := 0; keepcaps := true |}.

Lemma creds_read h path : creds c0 ((Start (Read_to_string path), answer h (Start (Read_to_string path))) :: h) = creds c0 h.
Proof using Type. cbn. by destruct (answer h _). Qed.

Lemma dropped_creds id keep c :
  ruid c = uid id /\ euid c = uid id /\ suid c = uid id /\ rgid c = gid id /\ egid c = gid id /\ sgid c = gid id /\ groups c = []
  /\ permitted c = caps keep /\ effective c = caps keep /\ inheritable c = 0 /\ keepcaps c = true -> c = dropped id keep.
Proof using Type. destruct c. cbn. intros (-> & -> & -> & -> & -> & -> & -> & -> & -> & -> & ->). done. Qed.

Lemma subset_refl a : subset a a = true.
Proof using Type. unfold subset. by rewrite Z.ldiff_diag. Qed.

(** The five calls, from root on *)
Lemma drop_calls id keep h :
  let c := creds c0 h in
  euid c = 0 -> has_cap c CAP_SETGID = true -> has_cap c CAP_SETUID = true -> subset (caps keep) (permitted c) = true ->
  0 < uid id < NO_ID -> 0 <= gid id < NO_ID -> Forall (fun c => 0 <= c < 64) keep ->
  exists h',
  (_ ← zero_or "prctl(PR_SET_KEEPCAPS)" (Prctl PR_SET_KEEPCAPS 1);
   _ ← zero_or "setgroups" (Setgroups []);
   _ ← zero_or "setresgid" (Setresgid (gid id) (gid id) (gid id));
   _ ← zero_or "setresuid" (Setresuid (uid id) (uid id) (uid id));
   '(low, high) ← lift (cap_words keep 0 0);
   zero_or "capset" (Capset CAP_VERSION_3 0 [(low, low, 0); (high, high, 0)])) h = (Ok tt, h')
  /\ creds c0 h' = dropped id keep.
Proof using rules.
  intros c He Hg Hu Hp Hid Hgid Hk. unfold NO_ID in *.
  assert (Hu0 : (uid id =? 0) = false) by lia. assert (HuN : (uid id =? 4294967295) = false) by lia. assert (HgN : (gid id =? 4294967295) = false) by lia.
  destruct (zero_or_runs "prctl(PR_SET_KEEPCAPS)" (Prctl PR_SET_KEEPCAPS 1) h _ eq_refl eq_refl) as (h1 & E1 & C1).
  rewrite bind_eq, E1. fold c in C1.
  edestruct (zero_or_runs "setgroups" (Setgroups []) h1) as (h2 & E2 & C2); [done|rewrite C1; unfold kernel, has_cap in *; cbn [effective]; rewrite Hg; reflexivity|].
  rewrite bind_eq, E2.
  edestruct (zero_or_runs "setresgid" (Setresgid (gid id) (gid id) (gid id)) h2) as (h3 & E3 & C3);
    [done|rewrite C2; unfold kernel, may_set, has_cap in *; cbn [effective]; rewrite Hg; reflexivity|].
  rewrite bind_eq, E3.
  edestruct (zero_or_runs "setresuid" (Setresuid (uid id) (uid id) (uid id)) h3) as (h4 & E4 & C4);
    [done|rewrite C3; unfold kernel, may_set, has_cap in *; cbn [effective]; rewrite Hu; reflexivity|].
  rewrite bind_eq, E4. destruct (cap_words_ok (E := DropError) keep 0 0 Hk) as (l & g & Ew & Hw). rewrite !Z.lor_0_l in Ew.
  rewrite bind_eq, Ew. cbn [lift].
  unfold with_uids, new_id, NO_ID in C4. cbn [ruid euid suid rgid egid sgid groups permitted effective inheritable keepcaps Z.eqb negb] in C4.
  rewrite He, HuN, HgN, Hu0 in C4. cbn [andb orb negb Z.eqb Pos.eqb] in C4. rewrite !andb_false_r in C4. cbn [orb] in C4.
  edestruct (zero_or_runs "capset" (Capset CAP_VERSION_3 0 [(l, l, 0); (g, g, 0)]) h4) as (h5 & E5 & C5).
  { done. }
  { rewrite C4. cbn. rewrite Hw, Hp, subset_refl. cbn. reflexivity. }
  exists h5. split; [exact E5|]. rewrite C5. done.
Qed.

(** C36: Privileges are dropped exactly.  On an operating system that keeps the rules of credentials(7) and
    capabilities(7), a process with effective uid 0, CAP_SETGID and CAP_SETUID that may keep the given
    capabilities is, when [drop_to] returns, the target user and group in all three ids of each kind, in no
    supplementary group, with just these capabilities permitted and effective and none inheritable; it
    does return without an error; and unless CAP_SETUID is among those kept there is no way back to root. *)
Theorem privileges_dropped_exactly id keep h :
  let c := creds c0 h in
  euid c = 0 -> has_cap c CAP_SETGID = true -> has_cap c CAP_SETUID = true -> subset (caps keep) (permitted c) = true ->
  0 < uid id < NO_ID -> 0 <= gid id < NO_ID -> Forall (fun c => 0 <= c < 64) keep ->
  debug_assertions = false \/ (forall h, (is_single_threaded (E := DropError) h).1 = Ok true) ->
  exists h', drop_to id keep h = (Ok tt, h') /\ creds c0 h' = dropped id keep
  /\ (CAP_SETUID ∉ keep -> kernel (creds c0 h') (Setresuid 0 0 0) = None).
Proof using rules.
  intros c He Hg Hu Hp Hid Hgid Hk Hs. unfold drop_to. rewrite bind_eq. unfold sys at 1. rewrite geteuid_answer. fold c. rewrite He. cbn [negb Z.eqb].
  set (h1 := (Start Geteuid, Ret 0 [] []) :: h). assert (C1 : creds c0 h1 = c) by done.
  assert (Hd : exists h2, (if debug_assertions then single ← is_single_threaded; lift (assert_ single) else mret tt) h1 = (Ok (E := DropError) tt, h2) /\ creds c0 h2 = c).
  { destruct debug_assertions eqn:Hb; [|by exists h1]. destruct Hs as [Hs|Hs]; [done|]. rewrite bind_eq.
    pose proof (Hs h1) as Hs1. destruct (is_single_threaded (E := DropError) h1) as [r h2] eqn:E2. cbn in Hs1. subst r.
    exists h2. split; [done|]. injection E2 as _ <-. by rewrite creds_read. }
  destruct Hd as (h2 & Ed & C2). rewrite bind_eq, Ed. rewrite <- C2 in *.
  destruct (drop_calls id keep h2 He Hg Hu Hp Hid Hgid Hk) as (h3 & E3 & C3). exists h3. split; [exact E3|]. split; [exact C3|].
  intros Hn. rewrite C3. cbn [kernel]. unfold dropped, has_cap, may_set. cbn [effective ruid euid suid].
  rewrite caps_testbit, bool_decide_eq_false_2 by done. rewrite (proj2 (Z.eqb_neq 0 (uid id))) by lia. done.
Qed.

(** With another thread in the process, as [run] has one for the log, a debug build ends in the assertion. *)
Theorem drop_needs_single_thread id keep h :
  debug_assertions = true -> euid (creds c0 h) = 0 -> (forall h, (is_single_threaded (E := DropError) h).1 = Ok false) ->
  (drop_to id keep h).1 = Panic.
Proof using rules.
  intros Hb He Hs. unfold drop_to. rewrite bind_eq. unfold sys at 1. rewrite geteuid_answer, He, Hb. cbn [negb Z.eqb].
  rewrite !bind_eq. pose proof (Hs ((Start Geteuid, Ret 0 [] []) :: h)) as Hs1.
  destruct (is_single_threaded (E := DropError) _) as [r h2]. cbn in Hs1. by subst r.
Qed.

End Drop.

(** ** The order of the calls *)

(** The calls that need the privileges the process starts with *)
Definition privileged (c : syscall) : bool :=
  match c with
  | Start (Bind_inet _ _ _ _ _ | Bind_unix _ _ | Unlink _ | Chmod _ _ | Chown _ _ _) => true
  | Ssl (SSL_CTX_use_certificate_chain_file _ | SSL_CTX_use_PrivateKey_file _ _) => true
  | _ => false
  end.

(** [m] makes only calls of which [P] holds. *)
Definition emits {E A} (P : syscall -> bool) (m : M E A) : Prop :=
  forall h, exists new, (m h).2 = new ++ h /\ Forall (fun e => P e.1 = true) new.

(** [m] makes no privileged call after one that changes the identity. *)
Definition phased {E A} (m : M E A) : Prop :=
  forall h, exists late early, (m h).2 = late ++ early ++ h
  /\ Forall (fun e => identity e.1 = false) early /\ Forall (fun e => privileged e.1 = false) late.

Section Emits.
Context {os : Os} (P : syscall -> bool).

Lemma emits_ret {E A} (a : A) : emits (E := E) P (mret a).
Proof. intros h. by exists []. Qed.
Lemma emits_throw {E A} (e : E) : emits (A := A) P (throw e).
Proof. intros h. by exists []. Qed.
Lemma emits_lift {E A} (r : res E A) : emits P (lift r).
Proof. intros h. by exists []. Qed.
Lemma emits_sys {E} c : P c = true -> emits (E := E) P (sys c).
Proof. intros Hc h. exists [(c, answer h c)]. split; [done|]. by constructor. Qed.

Lemma emits_bind {E A B} (m : M E A) (f : A -> M E B) : emits P m -> (forall a, emits P (f a)) -> emits P (m ≫= f).
Proof.
  intros Hm Hf h. rewrite bind_eq. destruct (Hm h) as (n1 & E1 & F1). destruct (m h) as [[a|e|] h1]; cbn in E1; subst h1; [|by exists n1..].
  destruct (Hf a (n1 ++ h)) as (n2 & E2 & F2). exists (n2 ++ n1). split; [by rewrite E2, app_assoc|]. by apply Forall_app.
Qed.

Lemma emits_on_err {E F A} (g : E -> F) (m : M E A) : emits P m -> emits P (on_err g m).
Proof. intros Hm h. rewrite on_err_eq. apply Hm. Qed.

Lemma emits_attempt {E F A} (m : M E A) : emits P m -> emits (E := F) P (attempt_ m).
Proof. intros Hm h. unfold attempt_. specialize (Hm h). by destruct (m h). Qed.

Lemma emits_checked c : P c = true -> emits P (checked c).
Proof. intros Hc. apply emits_bind; [by apply emits_sys|]. intros []; [apply emits_ret|apply emits_throw]. Qed.

Lemma emits_owned {E A} fd (m : M E A) : (forall fd, P (Sys_close fd) = true) -> emits P m -> emits P (owned fd m).
Proof.
  intros Hc Hm h. unfold owned. destruct (Hm h) as (n & E1 & F1). destruct (m h) as [[a|e|] h1]; cbn in E1; subst h1; [by exists n|..];
    (eexists (_ :: n); split; [reflexivity|]; constructor; [apply Hc|done]).
Qed.

Lemma emits_scoped {E A} fd (m : M E A) : (forall fd, P (Sys_close fd) = true) -> emits P m -> emits P (scoped fd m).
Proof.
  intros Hc Hm h. unfold scoped. destruct (Hm h) as (n & E1 & F1). destruct (m h) as [r h1]; cbn in E1; subst h1.
  eexists (_ :: n); split; [reflexivity|]. constructor; [apply Hc|done].
Qed.

End Emits.

Create HintDb emits.
#[export] Hint Resolve emits_ret emits_throw emits_lift : emits.

(** [emit] follows the code and checks each call. *)
Ltac emit :=
  repeat first
    [ done
    | solve [eauto with emits]
    | apply emits_sys; done
    | apply emits_checked; done
    | apply emits_on_err
    | apply emits_attempt
    | apply emits_owned; [done|]
    | apply emits_scoped; [done|]
    | apply emits_bind; [|intros ?]
    | match goal with |- emits _ (match ?x with _ => _ end) => destruct x end
    | match goal with |- emits _ (if ?x then _ else _) => destruct x end ].

Definition keeps_identity (c : syscall) : bool := negb (identity c).
Definition unprivileged (c : syscall) : bool := negb (privileged c).

Section Phases.
Context {os : Os} {bp : BuildProfile} {digests : Digests}.

Lemma emits_ssl {E} P c : P (Ssl c) = true -> emits P (ssl (E := E) c).
Proof using Type. intros Hc. unfold ssl. emit. Qed.
Lemma emits_must P c what : P (Ssl c) = true -> emits P (must c what).
Proof using Type. intros Hc. unfold must, ssl_rc. pose proof (emits_ssl (E := TlsError) P c Hc). emit. Qed.

Lemma emits_freed {A} P free (m : M TlsError A) : P (Ssl free) = true -> emits P m -> emits P (freed_on_error free m).
Proof using Type.
  intros Hc Hm h. unfold freed_on_error. destruct (Hm h) as (n & E1 & F1). destruct (m h) as [[a|e|] h1]; cbn in E1; subst h1; [by exists n|..];
    (eexists (_ :: n); split; [reflexivity|]; by constructor).
Qed.

Lemma emits_leaf P : (forall c, P (Ssl c) = true) -> emits P leaf_cert_der.
Proof using Type. intros HP. unfold leaf_cert_der, ssl_rc. pose proof (fun E c => emits_ssl (E := E) P c (HP c)) as Hs. emit. Qed.

Lemma emits_server_from_pem P cert key aead_only : (forall c, P (Ssl c) = true) -> emits P (server_from_pem cert key aead_only).
Proof using Type.
  intros HP. unfold server_from_pem, leaf_cert_hash_sha256, leaf_cert_hash_sha1.
  pose proof (fun E c => emits_ssl (E := E) P c (HP c)) as Hs. pose proof (fun c w => emits_must P c w (HP c)) as Hm.
  pose proof (emits_leaf P HP) as Hl. apply emits_bind; [apply Hs|intros [x|]]; [|apply emits_throw]. apply emits_freed; [apply HP|].
  repeat (apply emits_bind; [first [apply Hm|apply Hs|apply emits_lift|destruct aead_only; [apply Hm|apply emits_ret]|apply emits_bind; [apply Hl|intros ?; apply emits_ret]]|intros ?]).
  apply emits_ret.
Qed.

Lemma emits_call {E} P (f : io_error -> E) c : P c = true -> emits P (call f c).
Proof using Type. intros Hc. unfold call. emit. Qed.

Lemma emits_reuseport addr : emits keeps_identity (bind_reuseport_std addr).
Proof using Type. unfold bind_reuseport_std, call. emit. Qed.

Lemma emits_listeners n addr : emits keeps_identity (bind_listeners n addr).
Proof using Type. induction n as [|n IH]; cbn [bind_listeners]; [emit|]. pose proof (emits_reuseport addr). emit. Qed.

Lemma emits_control path owner : emits keeps_identity (bind path owner).
Proof using Type. unfold bind, remove_file, set_permissions, unix_listener_bind, call. emit. Qed.

Lemma emits_resolve cfg : emits keeps_identity (resolve_drop_identity cfg).
Proof using Type. unfold resolve_drop_identity, lookup_user, lookup_group. emit. Qed.

Lemma emits_nas {E} cfg : emits (E := E) keeps_identity (nas_identifier_of cfg).
Proof using Type. unfold nas_identifier_of, resolve_hostname. emit. Qed.

Lemma emits_drop id keep : emits unprivileged (drop_to id keep).
Proof using Type. unfold drop_to, zero_or, is_single_threaded. emit. Qed.

Lemma emits_mode {E} m : emits (E := E) unprivileged (resolve_data_path_mode m).
Proof using Type. unfold resolve_data_path_mode, probe, open_dev_sstp. emit. Qed.

Lemma phased_late {E A} (m : M E A) : emits unprivileged m -> phased m.
Proof using Type.
  intros Hm h. destruct (Hm h) as (n & E1 & F1). exists n, []. split; [done|]. split; [constructor|].
  eapply Forall_impl; [exact F1|]. intros e He. by apply negb_true_iff in He.
Qed.

Lemma phased_bind {E A B} (m : M E A) (f : A -> M E B) : emits keeps_identity m -> (forall a, phased (f a)) -> phased (m ≫= f).
Proof using Type.
  intros Hm Hf h. rewrite bind_eq. destruct (Hm h) as (n1 & E1 & F1).
  assert (F1' : Forall (fun e : Os.event => identity e.1 = false) n1) by (eapply Forall_impl; [exact F1|]; intros e He; by apply negb_true_iff in He).
  destruct (m h) as [[a|e|] h1]; cbn in E1; subst h1; [|by exists [], n1..].
  destruct (Hf a (n1 ++ h)) as (late & early & E2 & F2 & F3). exists late, (early ++ n1).
  split; [by rewrite E2, <- app_assoc|]. split; [by apply Forall_app|done].
Qed.

Lemma phased_owned_all {E A} fds (m : M E A) : phased m -> phased (owned_all fds m).
Proof using Type.
  intros Hm. induction fds as [|fd fds IH]; [done|]. cbn. intros h. unfold owned. destruct (IH h) as (late & early & E1 & F1 & F2).
  destruct (owned_all fds m h) as [[a|e|] h1]; cbn in E1; subst h1; [by exists late, early|..];
    (eexists (_ :: late), early; split; [reflexivity|]; split; [done|]; by constructor).
Qed.

(** C37: Whatever the operating system answers and however far the start-up gets, every call that needs the
    privileges the process starts with - loading the certificate and the key, binding the listeners and
    the control socket, removing, chmod and chown of its file - is made before the first call that
    changes the identity of the process. *)
Theorem privileged_work_first cfg env h :
  exists late early, (boot_run cfg env h).2 = late ++ early ++ h
  /\ Forall (fun e => identity e.1 = false) early /\ Forall (fun e => privileged e.1 = false) late.
Proof using Type.
  apply (phased_bind (E := BootError)); [apply emits_on_err, emits_server_from_pem; done|]. intros tls.
  destruct (secret env SSTP_RADIUS_SECRET) as [s|]; [|apply phased_late, emits_throw].
  apply phased_bind; [apply emits_nas|]. intros nas. apply phased_bind; [apply emits_listeners|]. intros fds. apply phased_owned_all.
  apply phased_bind; [apply emits_on_err, emits_resolve|]. intros target. apply phased_bind.
  { destruct (c_control_socket cfg) as [path|]; [|apply emits_ret]. apply emits_bind; [apply emits_on_err, emits_control|intros ?; apply emits_ret]. }
  intros control. apply phased_owned_all, phased_late.
  apply emits_bind; [destruct target; [apply emits_on_err, emits_drop|apply emits_ret]|]. intros _.
  apply emits_bind; [apply emits_mode|]. intros mode. apply emits_ret.
Qed.

End Phases.

(** ** What the start-up leaves open *)

Section Closing.
Context {os : Os}.

Lemma emits_keeps {E A} (m : M E A) : emits neutral m -> keeps m none.
Proof using Type.
  intros Hm h r h' Hr. assert (open_fds h' = open_fds h) as Ho.
  { destruct (Hm h) as (n & E1 & F1). rewrite Hr in E1. cbn in E1. subst h'. clear Hr. induction n as [|[c x] n IH]; [done|].
    inversion F1; subst. cbn [app]. rewrite open_fds_neutral by done. auto. }
  destruct r; [|done|done]. exists ∅. split; [done|]. split; [set_solver|]. rewrite Ho. set_solver.
Qed.

Lemma owned_all_closes {E A} fds (m : M E A) h :
  (owned_all fds m h).1 = (m h).1
  /\ open_fds (owned_all fds m h).2 = match (m h).1 with Ok _ => open_fds (m h).2 | _ => open_fds (m h).2 ∖ list_to_set fds end.
Proof using Type.
  induction fds as [|fd fds [IH1 IH2]]; cbn [owned_all list_to_set].
  { split; [done|]. destruct (m h) as [[?|?|] h1]; cbn; [done|set_solver|set_solver]. }
  unfold owned. destruct (owned_all fds m h) as [r h1]. cbn in IH1, IH2. subst r. destruct (m h) as [[a|e|] h2]; cbn [fst snd] in *; [done|..].
  all: split; [done|].
  all: change (open_fds h1 ∖ {[fd]} = open_fds h2 ∖ ({[fd]} ∪ list_to_set fds)); set_solver.
Qed.

Lemma keeps_owned_all {E A B} (p : A -> list Z) (Q : A -> Prop) (f : M E A) (g : A -> M E B) (R : B -> gset Z -> Prop) :
  keeps f (fun a S => S = list_to_set (p a) /\ Q a) -> (forall a, Q a -> keeps (g a) (fun b S => R b (list_to_set (p a) ∪ S))) ->
  keeps (a ← f; owned_all (p a) (g a)) R.
Proof using Type.
  intros Hf Hg h r h'. rewrite bind_eq. destruct (f h) as [[a|e|] h1] eqn:Ef; specialize (Hf _ _ _ Ef); cbn in Hf; [|by intros [= <- <-]..].
  destruct Hf as (S & [-> HQ] & Hd & Hh1). intros Hr. destruct (owned_all_closes (p a) (g a) h1) as [E1 E2]. rewrite Hr in E1, E2. cbn in E1, E2.
  destruct (g a h1) as [r1 h2] eqn:Eg. specialize (Hg a HQ _ _ _ Eg). cbn in E1, E2. subst r1. destruct r as [b|e|].
  - destruct Hg as (S & HR & Hd' & Hh2). exists (list_to_set (p a) ∪ S). split; [done|]. rewrite E2, Hh2, Hh1 in *. split; set_solver.
  - rewrite E2, Hg, Hh1. set_solver.
  - rewrite E2, Hg, Hh1. set_solver.
Qed.

End Closing.

(** [follow_calls] takes calls that open nothing one after the other. *)
Ltac follow_calls := repeat (apply keeps_bind; [apply emits_keeps; unfold call; emit|intros ?]).

Section Leaks.
Context {os : Os} {os_ok : OsOk os} {bp : BuildProfile} {digests : Digests}.

Lemma keeps_reuseport addr : keeps (bind_reuseport_std addr) (one (fun fd => fd)).
Proof using os_ok.
  unfold bind_reuseport_std. apply (keeps_owned (fun r : Z * list Z * bytes => r.1.1)); [apply keeps_on_err, keeps_open; by intros []|].
  intros r. follow_calls. apply keeps_return. unfold one. clear. set_solver.
Qed.

Lemma keeps_listeners n addr : keeps (bind_listeners n addr) (fun fds S => S = list_to_set fds /\ length fds = n).
Proof using os_ok.
  induction n as [|n IH]; cbn [bind_listeners]; [by apply keeps_return|].
  apply (keeps_owned (fun fd : Z => fd)); [apply keeps_on_err, keeps_reuseport|]. intros fd h r h'. rewrite bind_eq.
  destruct (bind_listeners n addr h) as [[fds|e|] h1] eqn:E; specialize (IH _ _ _ E); cbn in IH; intros [= <- <-]; [|done|done].
  destruct IH as (S & [-> Hl] & H1 & H2). exists (list_to_set fds). split; [|done]. split; [done|]. cbn. by rewrite Hl.
Qed.

Lemma keeps_control path owner : keeps (bind path owner) (one (fun fd => fd)).
Proof using os_ok.
  unfold bind. apply keeps_bind; [apply emits_keeps; unfold remove_file; emit|]. intros x.
  apply keeps_bind; [apply emits_keeps; emit|]. intros _.
  apply (keeps_owned (fun fd : Z => fd)).
  - apply keeps_on_err. unfold unix_listener_bind. apply (keeps_owned (fun r : Z * list Z * bytes => r.1.1)); [apply keeps_open; by intros []|].
    intros r. follow_calls. apply keeps_return. unfold one. clear. set_solver.
  - intros fd. apply keeps_bind; [apply emits_keeps; unfold call; emit|]. intros _.
    apply keeps_bind; [apply emits_keeps; unfold set_permissions; emit|]. intros _.
    assert (Hr : keeps (E := BindError) (mret fd) (fun b S => one (fun fd => fd) b ({[fd]} ∪ S))) by (apply keeps_return; unfold one; clear; set_solver).
    destruct owner as [[u g]|]; [|exact Hr]. destruct (has_nul path); [apply keeps_throw|]. follow_calls. exact Hr.
Qed.

Definition control_fds (c : option (bytes * Z)) : list Z := match c with Some (_, fd) => [fd] | None => [] end.

Lemma keeps_data_path_probe : keeps probe none.
Proof using os_ok.
  unfold probe. apply (keeps_scoped (fun fd : Z => fd)); [|intros fd; apply keeps_ret].
  apply keeps_on_err. unfold open_dev_sstp. apply (keeps_handed (fun r : Z * list Z * bytes => r.1.1)); [apply keeps_open; by intros []|done].
Qed.

Lemma keeps_mode {E} m : keeps (E := E) (resolve_data_path_mode m) none.
Proof using os_ok.
  unfold resolve_data_path_mode. apply keeps_bind; [|intros ?; apply keeps_ret].
  eapply keeps_weaken; [apply keeps_attempt, keeps_data_path_probe|]. by intros [[]|] S.
Qed.

(** What is known of a start that succeeded with the descriptors [S] *)
Definition started (cfg : Config) (env : bytes -> option bytes) (b : Booted) (S : gset Z) : Prop :=
  S = list_to_set (b_listeners b ++ control_fds (b_control b))
  /\ length (b_listeners b) = Z.to_nat (c_io_threads cfg)
  /\ fst <$> b_control b = c_control_socket cfg
  /\ exists s, env SSTP_RADIUS_SECRET = Some s /\ s <> [] /\ b_radius b = map (fun a => (a, s)) (c_radius cfg)
  /\ b_acct b = match c_acct cfg with
                | [] => None
                | l => Some (map (fun a => (a, match env SSTP_RADIUS_ACCT_SECRET with Some (x :: t) => x :: t | _ => s end)) l)
                end.

Lemma keeps_boot cfg env : keeps (boot_run cfg env) (started cfg env).
Proof using os_ok.
  unfold boot_run. apply keeps_bind; [apply keeps_on_err, emits_keeps, emits_server_from_pem; done|]. intros tls.
  unfold secret at 1. destruct (env SSTP_RADIUS_SECRET) as [[|x s]|] eqn:Hs; [apply keeps_throw| |apply keeps_throw].
  apply keeps_bind; [apply emits_keeps; unfold nas_identifier_of, resolve_hostname; emit|]. intros nas.
  apply (keeps_owned_all (fun fds : list Z => fds) (fun fds => length fds = Z.to_nat (c_io_threads cfg))); [apply keeps_listeners|]. intros fds Hl.
  apply keeps_bind; [apply keeps_on_err, emits_keeps; unfold resolve_drop_identity, lookup_user, lookup_group; emit|]. intros target.
  apply (keeps_owned_all control_fds (fun c => fst <$> c = c_control_socket cfg)).
  { destruct (c_control_socket cfg) as [path|]; [|by apply keeps_return]. intros h r h'. rewrite bind_eq.
    destruct (on_err ControlFailed _ h) as [[fd|e|] h1] eqn:E; pose proof (keeps_on_err ControlFailed _ _ (keeps_control path _) _ _ _ E) as K;
      cbn in K; intros [= <- <-]; [|done|done]. destruct K as (S & -> & H1 & H2). exists {[fd]}. split; [split; [cbn; clear; set_solver|done]|done]. }
  intros control Hc. apply keeps_bind.
  { destruct target; [|apply keeps_ret]. apply keeps_on_err, emits_keeps. unfold drop_to, zero_or, is_single_threaded. emit. }
  intros _. apply keeps_bind; [apply keeps_mode|]. intros mode. apply keeps_return. split.
  { cbn. rewrite list_to_set_app_L. clear. set_solver. }
  split; [done|]. split; [done|]. exists (x :: s). split; [done|]. split; [done|]. split; [done|]. cbn [b_acct].
  destruct (c_acct cfg); [done|]. unfold secret. destruct (env SSTP_RADIUS_ACCT_SECRET) as [[|]|]; reflexivity.
Qed.

(** C38: Starting is all or nothing.  When it fails, at whatever step, every descriptor it opened is closed
    again.  When it succeeds the descriptors left open are its listeners, one per I/O worker, and the
    control socket, which there is exactly when one is configured; every RADIUS server is paired with the
    secret of the environment, which is not empty, and every accounting server with its own secret or
    that one. *)
Theorem start_all_or_nothing cfg env h r h' :
  boot_run cfg env h = (r, h') ->
  match r with
  | Ok b =>
      open_fds h' = open_fds h ∪ list_to_set (b_listeners b ++ control_fds (b_control b))
      /\ length (b_listeners b) = Z.to_nat (c_io_threads cfg)
      /\ fst <$> b_control b = c_control_socket cfg
      /\ exists s, env SSTP_RADIUS_SECRET = Some s /\ s <> [] /\ b_radius b = map (fun a => (a, s)) (c_radius cfg)
      /\ b_acct b = match c_acct cfg with
                    | [] => None
                    | l => Some (map (fun a => (a, match env SSTP_RADIUS_ACCT_SECRET with Some (x :: t) => x :: t | _ => s end)) l)
                    end
  | _ => open_fds h' = open_fds h
  end.
Proof using os_ok.
  intros Hr. pose proof (keeps_boot cfg env _ _ _ Hr) as K. destruct r as [b|e|]; [|done|done].
  destruct K as (S & (-> & K) & _ & ->). done.
Qed.

End Leaks.

Module StartupDemo.

Import NetDemo.

(** A root process with all capabilities *)
Definition root : Cred :=
  {| ruid := 0; euid := 0; suid := 0; rgid := 0; egid := 0; sgid := 0; groups := [0; 4]; permitted := 2 ^ 41 - 1; effective := 2 ^ 41 - 1;
     inheritable := 0; keepcaps := false |}.

Definition machine_as (c0 : Cred) : Os := fun h c =>
  match c with
  | Start Geteuid => Ret (euid (creds c0 h)) [] []
  | Start (Getpwnam_r _) => Ret 0 [65534; 65534] []
  | Start (Gethostname _) => Ret 0 [] (lit "gw1")
  | Start (Unlink _) => Fail ENOENT
  | Start k => if identity (Start k) then match kernel (creds c0 h) k with Some _ => Ret 0 [] [] | None => Fail EPERM end else Ret 0 [] []
  | Ssl _ => TlsDemo.connection h c
  | _ => machine true h c
  end.

#[export] Instance machine_as_rules c0 : KeepsCredentials (machine_as c0) c0.
Proof. split; [done|]. intros h k Hk. destruct k; done. Defined.

#[export] Instance machine_as_ok c0 : OsOk (machine_as c0).
Proof.
  split.
  - intros h c fd Ho. pose proof (fresh_fd (os := machine true) h c fd) as Hm. destruct c; try (exact (Hm Ho)); done.
  - intros h fd cap n ints out. apply (recv_bound (os := machine true) h fd cap n ints out).
  - intros h fd cap n ints out. apply (read_bound (os := machine true) h fd cap n ints out).
  - intros h name i ints out. apply (ifindex_bound (os := machine true) h name i ints out).
Defined.

Definition digests : Digests := {| SHA1 := fun x => x; SHA256 := fun x => x |}.

Definition nobody : Identity := {| uid := 65534; gid := 65534 |}.

Lemma privileges_dropped_exactly_witness :
  exists h', drop_to (os := machine_as root) (bp := false) nobody [CAP_NET_ADMIN; CAP_SYS_NICE] [] = (Ok tt, h')
  /\ creds root h' = dropped nobody [CAP_NET_ADMIN; CAP_SYS_NICE] /\ kernel (creds root h') (Setresuid 0 0 0) = None.
Proof.
  destruct (privileges_dropped_exactly (os := machine_as root) (bp := false) root nobody [CAP_NET_ADMIN; CAP_SYS_NICE] []) as (h' & E & C & K).
  - reflexivity.
  - vm_compute. reflexivity.
  - vm_compute. reflexivity.
  - vm_compute. reflexivity.
  - vm_compute. split; reflexivity.
  - vm_compute. split; [discriminate|reflexivity].
  - repeat constructor; vm_compute; discriminate.
  - left. reflexivity.
  - exists h'. split; [exact E|]. split; [exact C|]. apply K. intros H. repeat (apply elem_of_cons in H as [H|H]; [discriminate H|]). by apply elem_of_nil in H.
Defined.

Definition cfg : Config :=
  {| c_listen := ({| ip := V6 (replicate 8 0); port := 443 |}, 0); c_cert := lit "/cert.pem"; c_key := lit "/key.pem";
     c_radius := [({| ip := V4 [192; 0; 2; 1]; port := 1812 |}, 0)]; c_acct := []; c_io_threads := 2; c_auth_threads := 2;
     c_control_socket := Some (lit "/run/sstp-server.sock"); c_mss_clamp := true; c_log_format := FmtAuto; c_log_file := None; c_log_level := WARN;
     c_data_path := DataPathMode.Auto; c_auth_method := AuthMethod.MsChapV2; c_local_ip := [10; 0; 0; 1]; c_nas_identifier := None;
     c_drop_user := Some (lit "nobody"); c_drop_group := None |}.

Definition env (name : bytes) : option bytes := if bytes_eqb name SSTP_RADIUS_SECRET then Some (lit "s3cret") else None.

Definition booted : res BootError Booted * history := boot_run (os := machine_as root) (bp := false) (digests := digests) cfg env [].

Lemma start_all_or_nothing_witness :
  exists b, booted.1 = Ok b /\ length (b_listeners b) = 2%nat /\ creds root booted.2 = dropped nobody [CAP_NET_ADMIN; CAP_SYS_NICE].
Proof.
  assert (Hok : match booted.1 with Ok _ => true | _ => false end = true) by (vm_compute; reflexivity).
  assert (Hc : creds root booted.2 = dropped nobody [CAP_NET_ADMIN; CAP_SYS_NICE]) by (vm_compute; reflexivity).
  destruct booted as [r h'] eqn:E. cbn [fst] in Hok. destruct r as [b|e|]; [|discriminate Hok|discriminate Hok].
  destruct (start_all_or_nothing (os := machine_as root) (bp := false) (digests := digests) cfg env [] (Ok b) h' E) as (_ & L & _).
  exists b. split; [reflexivity|]. split; [exact L|exact Hc].
Defined.

End StartupDemo.
