(* ===== verification/Control.v ===== *)
(** * Control socket and operator client ([src/src/control.rs]: [build_router] and its methods;
    [src/src/bin/sstp_server_cli.rs])

    The handlers themselves are in [Registry.v].  The JSON codec, the router's dispatch by name, the completion
    trie and the line editor are libraries: the derived deserializers are the class [Serde], the trie the
    class [Trie], and the lines come from the editor one by one.  Output goes to a terminal that takes it. *)

From stdpp Require Import strings gmap.
From S2P Require Import Prelude RustText RustStd Radius Task Registry Cli.

(** ** Values and parameters *)

Inductive Scalar := Num (n : Z) | Bool (b : bool).

Inductive Value := Null | Object (fields : list (string * Scalar)).

(** [req.params_as::<Params>()] for the parameters with an id, and with an id and [request_peer] *)
Class Serde := { id_params : Value -> option Z; rekey_params : Value -> option (Z * bool) }.

(** ** [build_router] *)

Inductive RpcError := InvalidParams | MethodNotFound.

Inductive RpcResult :=
| RInfo (version : bytes) (info : InfoResponse)
| RStat (values : list (string * Z))
| RSessions (l : list SessionListItem)
| RSession (d : SessionDetail)
| RDisabled (r : CommandResult)
| RRekeyed (r : CommandResult)
| RShutdown (message : bytes).

(** The fixed part of [ControlState], and the clock of a request *)
Record ControlState := { started : Z; st_io_threads : Z; st_auth_threads : Z; build_env : BuildEnv }.

(** The counters besides those of the connections *)
Definition counters : list string :=
  ["sstp_auth_accept"; "sstp_auth_reject"; "sstp_session_teardown_clean"; "sstp_session_teardown_admin"; "sstp_session_teardown_coa";
   "sstp_session_teardown_shutdown"; "sstp_session_teardown_rekey_handshake"; "sstp_session_teardown_rekey_alert";
   "sstp_session_teardown_rekey_other"; "sstp_session_panics"; "sstp_crypto_binding_failures"; "sstp_np_filter_drops_pre_ipcp";
   "sstp_np_filter_drops_mru"; "sstp_log_lines_dropped"]%string.

Definition render_stats_map (m : Metrics.t) (other : string -> Z) : list (string * Z) :=
  [("sstp_connections_accepted", Metrics.connections_accepted m); ("sstp_connections_active", Metrics.connections_active m);
   ("sstp_handshake_failures", Metrics.handshake_failures m)]%string
  ++ map (fun k => (k, other k)) counters.

(** A method: the process and the parameters give a result or an error. *)
Definition Handler : Type := Process.t -> Value -> Process.t * (RpcResult + RpcError).

Section Router.

Context {serde : Serde} (st : ControlState) (now : Z) (other : string -> Z).

(** [params_as().ok_or_else(RpcError::invalid_params)?] *)
Definition with_params {A} (params_as : Value -> option A) (f : Process.t -> A -> Process.t * RpcResult) : Handler := fun p v =>
  match params_as v with
  | Some a => let '(p, r) := f p a in (p, inl r)
  | None => (p, inr InvalidParams)
  end.

Definition build_router : list (string * Handler) :=
  [("show.info", fun p _ => (p, inl (RInfo (version_string (build_env st)) (render_info p now (started st) (st_io_threads st) (st_auth_threads st)))));
   ("show.stat", fun p _ => (p, inl (RStat (render_stats_map (Process.metrics p) other))));
   ("show.session.list", fun p _ => (p, inl (RSessions (render_sess_list p now))));
   ("show.session.get", with_params id_params (fun p id => (p, RSession (render_sess_one p now id))));
   ("session.disable", with_params id_params (fun p id => let '(p, r) := disable_session p id in (p, RDisabled r)));
   ("session.rekey", with_params rekey_params (fun p '(id, request_peer) => let '(p, r) := rekey_session p id request_peer in (p, RRekeyed r)));
   ("shutdown", fun p _ => let '(p, m) := shutdown p in (p, inl (RShutdown m)))]%string.

(** The router's dispatch: the method registered under the name *)
Definition serve (p : Process.t) (method : string) (params : Value) : Process.t * (RpcResult + RpcError) :=
  match find (fun e => (e.1 =? method)%string) build_router with
  | Some (_, h) => h p params
  | None => (p, inr MethodNotFound)
  end.

End Router.

(** ** The client's commands *)

Definition COMMANDS : list (string * string) :=
  [("help", "show this help"); ("show info", "version, uptime, thread counts, active sessions"); ("show stat", "metrics snapshot");
   ("show session", "list active sessions"); ("show session ", "details for a single session by id");
   ("disable session ", "tear down a session by id"); ("shutdown", "ask the daemon to drain and exit"); ("clear", "clear the screen");
   ("quit", "leave the CLI")]%string.

Definition token_is (t : bytes) (w : string) : bool := bytes_eqb t (lit w).

Definition id_value (id : Z) : Value := Object [("id", Num id)]%string.

Definition translate_command (line : bytes) : option (string * Value) :=
  match split_ascii_whitespace line with
  | [a; b] =>
      if token_is a "show" && token_is b "info" then Some ("show.info", Null)
      else if token_is a "show" && token_is b "stat" then Some ("show.stat", Null)
      else if token_is a "show" && token_is b "session" then Some ("show.session.list", Null)
      else None
  | [a; b; id_str] =>
      if token_is a "show" && token_is b "session" then id ← parse_uint U64_MAX id_str; Some ("show.session.get", id_value id)
      else if token_is a "disable" && token_is b "session" then id ← parse_uint U64_MAX id_str; Some ("session.disable", id_value id)
      else if token_is a "rekey" && token_is b "session" then id ← parse_uint U64_MAX id_str; Some ("session.rekey", id_value id)
      else None
  | [a; b; id_str; d] =>
      if token_is a "rekey" && token_is b "session" && token_is d "request"
      then id ← parse_uint U64_MAX id_str; Some ("session.rekey", Object [("id", Num id); ("request_peer", Bool true)])
      else None
  | [a] => if token_is a "shutdown" then Some ("shutdown", Null) else None
  | _ => None
  end%string.

(** *** The loops *)

Inductive Action :=
| AddHistory (line : bytes)
| ClearScreen
| PrintHelp
| UnknownCommand (line : bytes)
| CallMethod (method : string) (params : Value)
| Closing.

Inductive Input := Line (l : bytes) | Interrupted | Eof | OtherReadError.

Fixpoint run_repl (inputs : list Input) : list Action :=
  match inputs with
  | [] => []
  | Line line :: inputs =>
      match trim_unicode line with
      | [] => run_repl inputs
      | trimmed =>
          AddHistory trimmed ::
          (if token_is trimmed "quit" || token_is trimmed "exit" then []
           else if token_is trimmed "clear" then ClearScreen :: run_repl inputs
           else if token_is trimmed "help" then PrintHelp :: run_repl inputs
           else
             match translate_command trimmed with
             | None => UnknownCommand trimmed :: run_repl inputs
             | Some (method, params) =>
                 CallMethod method params :: (if token_is trimmed "shutdown" then [Closing] else run_repl inputs)
             end)
      end
  | Interrupted :: inputs => run_repl inputs
  | Eof :: _ | OtherReadError :: _ => []
  end.

(** [run_one] with a socket that can be connected to *)
Definition run_one (cmd : bytes) : list Action :=
  if token_is cmd "quit" || token_is cmd "exit" || token_is cmd "clear" then []
  else if token_is cmd "help" then [PrintHelp]
  else match translate_command cmd with None => [UnknownCommand cmd] | Some (method, params) => [CallMethod method params] end.

(** The lines of [print_help] without colours: the heading, which is bold all the same, and each command padded to
    24 columns *)
Definition help_lines : list bytes :=
  ([27] ++ lit "[1mCommands:" ++ [27] ++ lit "[0m") ::
  map (fun '(cmd, desc) => lit "  " ++ lit cmd ++ replicate (24 - String.length cmd) 32 ++ lit " " ++ lit desc)
    (base.filter (fun c => negb ((c.1 =? "quit")%string || (c.1 =? "clear")%string) = true) COMMANDS).

(** *** Completion *)

(** [command_trie]: what is below a prefix, as the longest text every key below it goes on with, and the keys *)
Class Trie := subtrie : list bytes -> bytes -> option (bytes * list bytes).

Section Completion.

Context {trie : Trie}.

Definition keys : list bytes := map (fun c => lit c.1) COMMANDS.

Definition hint (line : bytes) (pos : Z) : option bytes :=
  if negb (pos =? len line) || (len line =? 0) then None
  else '(ext, _) ← subtrie keys line; match ext with [] => None | _ => Some ext end.

Definition strip_prefix (prefix l : bytes) : option bytes := if starts_with prefix l then Some (drop (length prefix) l) else None.

(** The candidates, as what is shown and what is inserted at the cursor *)
Definition complete (line : bytes) (pos : Z) : res Empty_set (Z * list (bytes * bytes)) :=
  prefix ← slice line 0 pos;
  Ok (pos,
      match subtrie keys prefix with
      | None => []
      | Some (ext, below) =>
          match ext with
          | [] => omap (fun key => rest ← strip_prefix prefix key; match rest with [] => None | _ => Some (prefix ++ rest, rest) end) below
          | _ => [(ext, ext)]
          end
      end).

End Completion.

(** *** Arguments of the client *)

Definition DEFAULT_SOCKET : bytes := lit "/run/sstp-server.sock".

Record Args := { socket : bytes; one_shot : option bytes }.

Inductive ClientError := NeedsPath | NeedsCommand | InvalidOption | UnknownClientOption (c : Z).

(** [inr] is an exit with status 0 after printing. *)
Fixpoint parse_client_args (a : Args) (opts : list Opt) : res ClientError (Args + bool) :=
  match opts with
  | [] => Ok (inl a)
  | o :: opts =>
      let c := val o in
      if c =? 83 then
        match arg o with Some s => parse_client_args {| socket := s; one_shot := one_shot a |} opts | None => Err NeedsPath end
      else if c =? 99 then
        match arg o with Some s => parse_client_args {| socket := socket a; one_shot := Some s |} opts | None => Err NeedsCommand end
      else if c =? 104 then Ok (inr true)
      else if c =? 86 then Ok (inr false)
      else if c =? 63 then Err InvalidOption
      else Err (UnknownClientOption c)
  end.

Definition client_args (opts : list Opt) : res ClientError (Args + bool) := parse_client_args {| socket := DEFAULT_SOCKET; one_shot := None |} opts.

(** [PathBuf::push] of a relative path *)
Definition push (p q : bytes) : bytes :=
  match last p with Some 47 => p ++ q | Some _ => p ++ lit "/" ++ q | None => q end.

Definition history_path (env : bytes -> option bytes) : option bytes :=
  base ← match env (lit "XDG_STATE_HOME") with
         | Some b => Some b
         | None => h ← env (lit "HOME"); Some (push h (lit ".local/state"))
         end;
  Some (push (push base (lit "sstp-server")) (lit "history")).
